(* ===== verification/_CoqProject ===== *)
-Q . S2P
Prelude.v
ByteIo.v
SeqNum.v
FecTables.v
PacketMasks.v
MaskDesign.v
FecTypes.v
UlpfecHeader.v
Flexfec03Header.v
Flexfec8627Header.v
XorCode.v
FecEncoder.v
ZeroColumns.v
EncoderCorrect.v
EncodeFecSpec.v
FecDecoder.v
DecoderLemmas.v
DecoderSafety.v
DecoderSound.v
WindowSort.v
Peeling.v
Transmission.v
EncoderGuarantees.v
DecoderGuarantees.v
TimedDecoder.v
CowBuffer.v
RtpExtensions.v
RtpPacketModel.v
RtpPacketLaws.v
RtpPacketOps.v
RtpPacketSession.v
RtpPacketBuild.v
RtpPacketGuarantees.v
FecReceivers.v
PeelingFresh.v
ReceiverLaws.v
ReceiverSession.v
ReceiverGuarantees.v
FlexfecSession.v
ReceiverSafety.v
RateModel.v
UlpfecSender.v
SequencerModel.v
GeneratorLaws.v
SequencerLaws.v
GeneratorRun.v
EndToEnd.v
GeneratorGuarantees.v
FlexfecSend.v
FlexfecGuarantees.v
Galois.v
ReedSolMatrix.v
ReedSolInverse.v
ReedSolSolve.v
Vandermonde.v
ReedSolRows.v
ReedSolGuarantees.v
RsCodec.v
RsBytes.v
RsEncoder.v
RsWindow.v
RsRecover.v
RsDecoder.v
RsState.v
RsLinks.v
RsInsert.v
RsAttempt.v
RsPublish.v
RsSession.v
RsBlock.v
RsRepair.v
RsGuarantees.v
RsReceiver.v
RsGenerator.v
RsStream.v
RsStreamRun.v
RsStreamSession.v
RsBlockGenerator.v
RsStreamGuarantees.v
TamburWire.v
