(* ===== verification/Prelude.v ===== *)
(** * Verification of the forward error correction of this repository

    The repository is a fork of WebRTC built around forward error correction
    (FEC) for video: lost RTP packets are rebuilt by the receiver from parity
    packets.  This library models the FEC engine under
    [src/modules/rtp_rtcp/source], the RTP packet class and packet buffers it
    rests on, its receivers, its ULPFEC and FlexFEC senders, and what this
    repository adds: the Reed-Solomon codec with its senders and receiver, and the
    copy of the decoder that the examples are built with.  It proves them
    correct, or says where they are not.

    ** The program, and the files that model it

    - Machine level.  [Prelude] (this file): results and faults, machine
      integers, byte buffers.  [ByteIo]: [byte_io.h], fixed-width integers in
      memory.  [SeqNum]: [mod_ops.h], [sequence_number_util.h],
      [sequence_number_unwrapper.h], [module_common_types_public.h], wrapping
      sequence numbers.  [CowBuffer]:
      [rtc_base/buffer.h] and [copy_on_write_buffer.{h,cc}].
    - Packet masks: which media packets a FEC packet protects.  [FecTables]:
      the tables of [fec_private_tables_random.cc] and [_bursty.cc].
      [PacketMasks]: [forward_error_correction_internal.{h,cc}].  [MaskDesign]:
      what the masks protect.
    - Header formats.  [FecTypes]: the packet classes of
      [forward_error_correction.h]; the virtual classes [FecHeaderReader] and
      [FecHeaderWriter] are type classes, and [FecReaderLaws] and
      [FecSchemeLaws] are what the engine relies on.  [UlpfecHeader]
      ([ulpfec_header_reader_writer.cc]) and [Flexfec03Header]
      ([flexfec_03_header_reader_writer.cc]) are instances and
      discharge the laws; everything below is proved for any instance.
      [Flexfec8627Header] ([flexfec_header_reader_writer.cc]): the header of RFC
      8627 for any number of streams, which the engine does not use yet.
    - The engine, [forward_error_correction.cc].  [XorCode]: parity and the
      recovery of one packet.  [FecEncoder]: [EncodeFec] and what it calls, with
      [ZeroColumns] (widening masks over sequence number gaps),
      [EncoderCorrect] and [EncodeFecSpec] (its contract).  [FecDecoder]:
      [DecodeFec] and what it calls, with [DecoderLemmas] (its pieces),
      [DecoderSafety] (arbitrary input), [DecoderSound] (genuine input),
      [WindowSort] and [Peeling] (a session refines the abstract peeling decoder
      [recoverable]).  [Transmission]: encoder and decoder together.
      [EncoderGuarantees], [DecoderGuarantees]: the properties.
    - The decoder that is built.  [TimedDecoder]: the copy of the engine under
      [examples/customizationFEC/UlpFEC], which the build takes in place of the
      one under [modules] ([examples/BUILD.gn], [modules/rtp_rtcp/BUILD.gn]).
      Its masks, headers, parity code and encoder are the same text; its
      decoder also records when each FEC packet came and logs why it was
      dropped.  Module [Timed] models that decoder, and shows how it relates to
      [FecDecoder].
    - RTP packets.  [RtpExtensions]: [rtp_header_extension_map.{h,cc}].
      [RtpPacketModel]: [rtp_packet.{h,cc}], every operation.  [RtpPacketLaws]: the
      declarative reading [reads] of a datagram, and the parser.
      [RtpPacketOps], [RtpPacketSession]: every mutator keeps the parsed header
      and the bytes in step.  [RtpPacketBuild]: packets built by reserving
      extensions one after the other.  [RtpPacketGuarantees]: the properties.
    - Receivers.  [FecReceivers]: [ulpfec_receiver.{h,cc}] and
      [flexfec_receiver.{h,cc}], from the RTP packet that arrives to the packets
      handed to the callback.  [PeelingFresh], [ReceiverLaws],
      [ReceiverSession]: their invariant between two calls.
      [ReceiverGuarantees], [FlexfecSession], [ReceiverSafety]: the properties.
    - Senders.  [RateModel]: [rate_statistics.{h,cc}] and
      [bitrate_tracker.{h,cc}].  [UlpfecSender]: [ulpfec_generator.{h,cc}],
      [BuildRedPayload] of [rtp_sender_video.cc] and the unpacking of RED in
      [rtp_sender_egress.cc].  [SequencerModel]: [packet_sequencer.{h,cc}].
      [GeneratorLaws], [SequencerLaws]: their laws and invariants.
      [GeneratorRun]: the virtual class [VideoFecGenerator] as a type class, its
      contract [VideoFecGeneratorLaws] (when a generator collects, when it
      sends, what it keeps), and a run of any generator over a stream;
      [UlpfecGenerator] is an instance.  [EndToEnd]: from the generator to the
      receiver.  [GeneratorGuarantees]: the properties.  [FlexfecSend]:
      [flexfec_sender.{h,cc}] and [rtp_header_extension_size.{h,cc}], the second
      instance of the interface.  [FlexfecGuarantees]: its properties.
    - Reed-Solomon code, [examples/customizationFEC/RS_FEC].  [Galois]: the
      field of 256 elements, whose arithmetic is a prebuilt object file in the
      repository, as an interface (classes [Galois], [GaloisLaws],
      [GaloisGenerator]) with an instance.  [ReedSolMatrix]:
      [reed_sol_matrix.cc] and [RS_forward_error_correction_internal.cc].
      [ReedSolInverse], [ReedSolSolve]: the elimination as row operations, its
      invariants.  [Vandermonde]: when no pivot is zero.  [ReedSolRows]: the rows
      the matrices start from.  [ReedSolGuarantees]: the properties.
    - Reed-Solomon codec on packets.  [RsCodec]: the packets, the headers
      ([RS_fec_header_reader_writer.cc]) and [EncodeRSFec] and [RecoverPacket] of
      [RS_forward_error_correction.cc].  [RsBytes], [RsEncoder]: the
      encoder's contract ([fec_packet_of]).  [RsWindow], [RsRecover]: the
      linear system of the lost packets.  [RsDecoder]: the decoder, [DecodeRSFec]
      and what it calls.  [RsState], [RsLinks], [RsInsert],
      [RsAttempt], [RsPublish]: its invariant ([inv]) through each
      member.  [RsSession]: a session.  [RsBlock], [RsRepair]: a
      run that repairs a block.  [RsGuarantees]: the properties.
    - Reed-Solomon senders and receiver.  [RsReceiver]: [RSfec_receiver.{h,cc}]
      and its invariant between two packets.  [RsGenerator]:
      [RSfec_generator.{h,cc}] and [StreamRSfec_generator.{h,cc}].  [RsStream]: the
      sliding window.  [RsStreamRun]: the stream sender over a stream of packets.
      [RsStreamSession]: from it to the receiver.  [RsBlockGenerator]: the block
      sender.  [RsStreamGuarantees]: the properties.

    - Streaming code experiment, [examples/customizationFEC/Tambur].  [TamburWire]:
      its serialization, datagrams and messages ([serialization.{hh,cc}],
      [fec_datagram.{hh,cc}], [feedback_datagram.{hh,cc}], [protocol.{hh,cc}]).

    State is a record with the members of the C++ class, under the C++ names;
    an operation is a function from the state to the new state, in the error
    monad [res].  A component called through a virtual interface is a type
    class; a callback is the list of what it is given; the clock is an argument.

    ** What the theorems show

    - End to end: [ulpfec_end_to_end] (generator, RED, sequencer, loss of any one
      datagram, receiver), [flexfec_end_to_end] (the same for [FlexfecSender] and
      [FlexfecReceiver]), [burst_loss_repaired] and [single_loss_repaired]
      (encoder and decoder), [rs_block_repaired] (Reed-Solomon encoder and decoder),
      [rs_stream_end_to_end] (stream sender to receiver), [reed_solomon_roundtrip]
      and [block_code_roundtrip] (coding and decoding matrices).
    - Refinement: [decode_session_exact], [ulpfec_receiver_session] and
      [flexfec_receiver_session]: over a whole session exactly the packets that
      peeling can recover are delivered, once each, byte for byte;
      [rs_receiver_session]: exactly what the Reed-Solomon decoder knows.
    - Safety on arbitrary input: [DecodeFec_safe], [fec_receivers_safe],
      [Parse_exact]; and termination of every loop.  On genuine input:
      [rs_session_sound].
    - Functional contracts: [EncodeFec_correct], [EncodeFec_refuses],
      [GeneratePacketMasks_correct], [AddReceivedRedPacket_exact],
      [EncodeRSFec_correct], [rs_generator_block] and others.
    - Round trips: the header codecs ([header_schemes], [flexfec_8627_roundtrip]), RTP
      packets ([rtp_packet_roundtrip]), the datagrams of the streaming code
      ([fec_datagram_exact]), and RED inside [ulpfec_end_to_end].
    - Invariants: [rtp_packet_progress], [extension_map_bijection],
      [sequencer_numbering], [stream_generator_window].
    - Bounds: [generator_bounded_delay] (frames until a batch is protected),
      [flexfec_sender_stream] (consecutive numbers and the size of FEC packets).
    - Equivalence with a simple definition: the sliding window of
      [RateStatistics] ([rate_window_exact]); of the two decoders
      ([timed_decoder_alike]).
    - Eight theorems state defects or limits: [DecodeFec_log_use_after_free] (the log
      statement this repository adds to [AttemptRecovery] reads a packet that
      may have been freed), [AllocateExtension_overrun] (zero padding of an
      extension block written past the capacity),
      [RemoveExtension_drops_csrcs], [reed_solomon_not_mds] (two FEC packets
      that cannot repair two losses), [rs_decoder_reads_end] (the decoder then
      dereferences [end()]), [rs_receiver_drops_queue] (packets lost on the way to
      the decoder), [flexfec_null_clock] (the decoder that is built is given
      no clock for FlexFEC and calls it) and [fec_datagram_exact] (a header size
      that is one byte too small).

    ** Bounds and fuel

    Integers are [Z] with the wrap-around of their width written out ([uw]);
    sizes and indices are [nat].  Reading or writing outside a buffer, using a
    freed packet, calling through a null pointer, failing an [RTC_CHECK], shifting
    too far and dividing by zero are faults; the theorems say that they do not happen.  [RTC_DCHECK]s, which
    are compiled out of release builds, are hypotheses.  Three loops run on fuel:
    [recovery_loop] of the decoder, with the number of stored FEC packets and
    the room in the recovered list as potential ([recovery_loop_ok]), and
    [parse_extensions], which gets the size of the extension block
    ([loop_total]); running out is the fault [OutOfFuel], and [DecodeFec_safe]
    and [Parse_exact] exclude it; [attempts] of [DecodeRSFec] gets one more than
    the number of stored FEC packets, which [attempts_ok] shows to be enough.  [lower_bound] gets the length of the list;
    the scans of [ReedSolMatrix] for the next set position ([skip_unset],
    [next_set], [next_power]) get one more than the number of positions, which
    [reed_solomon_roundtrip] shows to be enough.  The packet counters of the
    Reed-Solomon senders are unbounded.
    Uninitialized heap bytes are a parameter (class [Heap] of [CowBuffer]).

    ** Not modelled

    Locks and thread checks (operations are called one after the other), text
    logs and histograms, reference counting (a shared packet is never written,
    except through copy on write, which is modelled).  The searches of the
    Reed-Solomon decoder that are never called, its CSV logs and the clock values
    it logs.  Of the copy of the engine under [examples/] the CSV log of the
    generator.  Of the streaming code experiment (Tambur) all but its messages: it is
    a port of another project around the prebuilt library Jerasure.  The example applications,
    which are sockets, files, threads and rendering.  The rest of WebRTC. *)

(** ** Prelude: shared vocabulary *)

From stdpp Require Import sorting.
From stdpp Require Export prelude.
From Stdlib Require Export ZArith Lia.
From Stdlib Require Import Bool.
From Stdlib Require Export Sorted.

Declare Scope fec_scope.
Delimit Scope fec_scope with fec.

#[global] Open Scope Z_scope.
#[global] Open Scope fec_scope.

(** ** Results: C++ code either returns or commits a memory fault

    [OutOfBounds] is a read or write outside [data()[0 .. size())],
    [UseAfterFree] a dereference of a pointer whose object was destroyed,
    [CheckFailed] a failing [RTC_CHECK] (which aborts the process),
    [BadShift] a shift by at least the width of the shifted type,
    [DivideByZero] an integer division by zero, [NullDereference] a call through
    a null pointer.
    [OutOfFuel] is no C++ behaviour: a model of an unbounded loop returns it
    when the fuel it was given is used up, and each such model comes with a
    theorem that its fuel is enough. *)

Inductive fault : Set :=
| OutOfBounds
| UseAfterFree
| CheckFailed
| BadShift
| DivideByZero
| NullDereference
| OutOfFuel.

#[export] Instance fault_eq_dec : EqDecision fault.
Proof. solve_decision. Defined.

Inductive res (A : Type) : Type :=
| Ok (a : A)
| Fault (f : fault).
Arguments Ok {A} a.
Arguments Fault {A} f.

#[export] Instance res_ret : MRet res := fun A a => Ok a.
#[export] Instance res_bind : MBind res := fun A B f m =>
  match m with Ok a => f a | Fault e => Fault e end.
#[export] Instance res_fmap : FMap res := fun A B f m =>
  match m with Ok a => Ok (f a) | Fault e => Fault e end.

Notation "'let!' x ':=' c 'in' k" := (mbind (M:=res) (fun x => k) c)
  (at level 10, x pattern, c at level 100, k at level 200)
  : fec_scope.

Definition is_ok {A} (m : res A) : bool :=
  match m with Ok _ => true | Fault _ => false end.

(** [RTC_CHECK(b)]. *)
Definition rtc_check (b : bool) : res unit :=
  if b then Ok tt else Fault CheckFailed.

Lemma bind_ok {A B} (a : A) (f : A -> res B) : (Ok a ≫= f) = f a.
Proof. reflexivity. Qed.

Lemma bind_ok_inv {A B} (m : res A) (f : A -> res B) b :
  (m ≫= f) = Ok b -> exists a, m = Ok a /\ f a = Ok b.
Proof. destruct m as [a|e]; cbn; [eauto|discriminate]. Qed.

(** A left fold whose body may fault: the shape of every [for] loop over a
    container. *)
Fixpoint foldM {A B} (f : B -> A -> res B) (l : list A) (b : B) : res B :=
  match l with
  | [] => Ok b
  | a :: l => let! b' := f b a in foldM f l b'
  end.

Lemma foldM_app {A B} (f : B -> A -> res B) l1 l2 b :
  foldM f (l1 ++ l2) b = (let! b' := foldM f l1 b in foldM f l2 b').
Proof.
  revert b; induction l1 as [|a l1 IH]; intros b; cbn; [done|].
  destruct (f b a); cbn; [apply IH|done].
Qed.

Lemma foldM_pure {A B} (f : B -> A -> res B) (g : B -> A -> B) l b :
  (forall b a, a ∈ l -> f b a = Ok (g b a)) ->
  foldM f l b = Ok (foldl g b l).
Proof.
  revert b; induction l as [|a l IH]; intros b Hf; cbn; [done|].
  rewrite Hf by set_solver; cbn. apply IH. set_solver.
Qed.

(** Invariant rule for loops. *)
Lemma foldM_inv {A B} (P : B -> Prop) (f : B -> A -> res B) l b :
  P b ->
  (forall b a, a ∈ l -> P b -> exists b', f b a = Ok b' /\ P b') ->
  exists b', foldM f l b = Ok b' /\ P b'.
Proof.
  revert b; induction l as [|a l IH]; intros b Hb Hf; cbn; [eauto|].
  destruct (Hf b a) as (b' & -> & Hb'); [set_solver|done|]; cbn.
  apply IH; [done|]. intros; apply Hf; set_solver.
Qed.

(** Partial correctness of loops: what each iteration preserves, if it
    returns, the loop preserves. *)
Lemma foldM_preserves {A B} (P : B -> Prop) (f : B -> A -> res B) l b b' :
  (forall b a b', a ∈ l -> P b -> f b a = Ok b' -> P b') ->
  P b -> foldM f l b = Ok b' -> P b'.
Proof.
  revert b; induction l as [|a l IH]; intros b Hf Hb; cbn; [congruence|].
  intros (b1 & H1 & H2)%bind_ok_inv. apply (IH b1); [|by eapply Hf; set_solver|done].
  intros; eapply Hf; set_solver.
Qed.

(** ** Machine integers: values in Z, wrap-around written out *)

Definition uw (w : Z) (z : Z) : Z := z mod 2 ^ w.
Abbreviation u8 := (uw 8).
Abbreviation u16 := (uw 16).
Abbreviation u32 := (uw 32).
Abbreviation u64 := (uw 64).

Definition in_uw (w : Z) (z : Z) : Prop := 0 <= z < 2 ^ w.
Abbreviation is_byte := (in_uw 8).
Abbreviation is_u16 := (in_uw 16).
Abbreviation is_u32 := (in_uw 32).

#[export] Instance in_uw_dec w z : Decision (in_uw w z).
Proof. unfold in_uw. apply _. Defined.

Lemma uw_range w z : 0 <= w -> in_uw w (uw w z).
Proof. intros. apply Z.mod_pos_bound. lia. Qed.

Lemma uw_small w z : in_uw w z -> uw w z = z.
Proof. apply Z.mod_small. Qed.

Lemma uw_idem w z : 0 <= w -> uw w (uw w z) = uw w z.
Proof. intros. apply uw_small, uw_range, H. Qed.

Lemma uw_testbit w z i :
  0 <= w -> 0 <= i -> Z.testbit (uw w z) i = bool_decide (i < w) && Z.testbit z i.
Proof.
  intros. unfold uw. case_bool_decide; cbn.
  - by rewrite Z.mod_pow2_bits_low.
  - rewrite Z.mod_pow2_bits_high; [done|lia].
Qed.

Lemma in_uw_testbit w z i : in_uw w z -> w <= i -> Z.testbit z i = false.
Proof.
  intros Hz Hi. destruct (decide (0 <= w)) as [Hw|Hw].
  - rewrite <- (uw_small w z Hz), uw_testbit by lia.
    by rewrite bool_decide_false by lia.
  - unfold in_uw in Hz. rewrite Z.pow_neg_r in Hz; lia.
Qed.

Lemma in_uw_bits w z :
  0 <= w -> (forall i, w <= i -> Z.testbit z i = false) -> in_uw w z.
Proof.
  intros Hw Hz. replace z with (uw w z); [by apply uw_range|].
  apply Z.bits_inj'; intros i Hi. rewrite uw_testbit by lia.
  case_bool_decide; [done|]. by rewrite Hz by lia.
Qed.

Lemma uw_eq_bits w a b :
  0 <= w -> in_uw w a -> in_uw w b ->
  (forall i, 0 <= i < w -> Z.testbit a i = Z.testbit b i) -> a = b.
Proof.
  intros Hw Ha Hb H. apply Z.bits_inj'; intros i Hi.
  destruct (decide (i < w)); [by apply H|].
  by rewrite (in_uw_testbit w a), (in_uw_testbit w b) by (done || lia).
Qed.

(** Bitwise operations stay inside their width. *)
Lemma lxor_in_uw w a b : 0 <= w -> in_uw w a -> in_uw w b -> in_uw w (Z.lxor a b).
Proof.
  intros Hw Ha Hb. apply in_uw_bits; [done|]. intros i Hi.
  by rewrite Z.lxor_spec, (in_uw_testbit w a), (in_uw_testbit w b).
Qed.

Lemma lor_in_uw w a b : 0 <= w -> in_uw w a -> in_uw w b -> in_uw w (Z.lor a b).
Proof.
  intros Hw Ha Hb. apply in_uw_bits; [done|]. intros i Hi.
  by rewrite Z.lor_spec, (in_uw_testbit w a), (in_uw_testbit w b).
Qed.

Lemma land_in_uw_l w a b : 0 <= w -> in_uw w a -> in_uw w (Z.land a b).
Proof.
  intros Hw Ha. apply in_uw_bits; [done|]. intros i Hi.
  by rewrite Z.land_spec, (in_uw_testbit w a).
Qed.

Lemma land_in_uw_r w a b : 0 <= w -> in_uw w b -> in_uw w (Z.land a b).
Proof. rewrite Z.land_comm. apply land_in_uw_l. Qed.

Lemma shiftr_in_uw w a n : 0 <= w -> 0 <= n -> in_uw w a -> in_uw w (Z.shiftr a n).
Proof.
  intros Hw Hn Ha. apply in_uw_bits; [done|]. intros i Hi.
  rewrite Z.shiftr_spec by lia. apply (in_uw_testbit w); [done|lia].
Qed.

(** [(x & (1 << k)) != 0] reads bit [k] of [x]. *)
Definition has_bits (x mask : Z) : bool := negb (Z.land x mask =? 0).

Lemma has_bits_pow2 x k : 0 <= k -> has_bits x (2 ^ k) = Z.testbit x k.
Proof.
  intros Hk. unfold has_bits.
  destruct (Z.testbit x k) eqn:E.
  - apply negb_true_iff, Z.eqb_neq. intros H.
    apply (f_equal (fun z => Z.testbit z k)) in H.
    rewrite Z.land_spec, E, Z.pow2_bits_true, Z.bits_0 in H by lia. done.
  - apply negb_false_iff, Z.eqb_eq. apply Z.bits_inj'; intros i Hi.
    rewrite Z.land_spec, Z.bits_0.
    destruct (decide (i = k)) as [->|Hne]; [by rewrite E|].
    rewrite Z.pow2_bits_false by done. by rewrite andb_false_r.
Qed.

(** ** Bit-level automation *)

Create HintDb fec_width.
#[export] Hint Resolve lxor_in_uw lor_in_uw land_in_uw_l land_in_uw_r
  shiftr_in_uw uw_range : fec_width.
#[export] Hint Extern 1 (0 <= _) => lia : fec_width.
#[export] Hint Extern 1 (in_uw _ _) => solve [done | unfold in_uw; lia] : fec_width.

(** [Z.testbit e i], for a numeral [i], is computed down to the bits of the
    variables of [e]; shifts and widths prune the branches that vanish. *)
Lemma tb_lor a b i x y :
  Z.testbit a i = x -> Z.testbit b i = y -> Z.testbit (Z.lor a b) i = x || y.
Proof. intros <- <-. apply Z.lor_spec. Qed.
Lemma tb_land a b i x y :
  Z.testbit a i = x -> Z.testbit b i = y -> Z.testbit (Z.land a b) i = x && y.
Proof. intros <- <-. apply Z.land_spec. Qed.
Lemma tb_lxor a b i x y :
  Z.testbit a i = x -> Z.testbit b i = y -> Z.testbit (Z.lxor a b) i = xorb x y.
Proof. intros <- <-. apply Z.lxor_spec. Qed.
Lemma tb_shr a n i j x :
  (0 <=? i) && (j =? i + n) = true -> Z.testbit a j = x -> Z.testbit (Z.shiftr a n) i = x.
Proof.
  intros [Hi%Z.leb_le ->%Z.eqb_eq]%andb_true_iff <-. by apply Z.shiftr_spec.
Qed.
Lemma tb_shl a n i j x :
  (0 <=? i) && (j =? i - n) = true -> Z.testbit a j = x -> Z.testbit (Z.shiftl a n) i = x.
Proof.
  intros [Hi%Z.leb_le ->%Z.eqb_eq]%andb_true_iff <-. by apply Z.shiftl_spec.
Qed.
Lemma tb_uw_low w a i x :
  (0 <=? i) && (i <? w) = true -> Z.testbit a i = x -> Z.testbit (uw w a) i = x.
Proof.
  intros [Hi%Z.leb_le Hw%Z.ltb_lt]%andb_true_iff <-.
  rewrite uw_testbit by lia. by rewrite bool_decide_true.
Qed.
Lemma tb_uw_high w a i :
  (0 <=? w) && (w <=? i) = true -> Z.testbit (uw w a) i = false.
Proof.
  intros [Hi%Z.leb_le Hw%Z.leb_le]%andb_true_iff.
  rewrite uw_testbit by lia. by rewrite bool_decide_false by lia.
Qed.
Lemma tb_high w a i : in_uw w a -> (w <=? i) = true -> Z.testbit a i = false.
Proof. intros Ha Hi%Z.leb_le. by apply (in_uw_testbit w). Qed.

Ltac testbit_compute :=
  lazymatch goal with
  | |- Z.testbit ?a (Zneg ?p) = _ => exact (Z.testbit_neg_r a (Zneg p) eq_refl)
  | |- Z.testbit (Z.lor _ _) _ = _ => eapply tb_lor; testbit_compute
  | |- Z.testbit (Z.land _ _) _ = _ => eapply tb_land; testbit_compute
  | |- Z.testbit (Z.lxor _ _) _ = _ => eapply tb_lxor; testbit_compute
  | |- Z.testbit (Z.shiftr ?a ?n) ?i = _ =>
      let j := eval vm_compute in (i + n) in
      refine (tb_shr a n i j _ eq_refl _); testbit_compute
  | |- Z.testbit (Z.shiftl ?a ?n) ?i = _ =>
      let j := eval vm_compute in (i - n) in
      refine (tb_shl a n i j _ eq_refl _); testbit_compute
  | |- Z.testbit (uw ?w ?a) ?i = _ =>
      lazymatch eval vm_compute in (i <? w) with
      | true => refine (tb_uw_low w a i _ eq_refl _); testbit_compute
      | false => exact (tb_uw_high w a i eq_refl)
      end
  | |- Z.testbit (Zpos ?p) ?i = _ =>
      let b := eval vm_compute in (Z.testbit (Zpos p) i) in exact (eq_refl b)
  | |- Z.testbit 0 ?i = _ => exact (Z.bits_0 i)
  | H : Z.testbit ?a ?i = _ |- Z.testbit ?a ?i = _ => exact H
  | |- Z.testbit ?a ?i = _ =>
      match goal with
      | H : in_uw ?w a |- _ => exact (tb_high w a i H eq_refl)
      | _ => exact eq_refl
      end
  end.

Ltac testbit_compound e :=
  lazymatch e with
  | Z.lor _ _ => idtac | Z.land _ _ => idtac | Z.lxor _ _ => idtac
  | Z.shiftr _ _ => idtac | Z.shiftl _ _ => idtac | uw _ _ => idtac
  | Zpos _ => idtac | Z0 => idtac
  end.

Ltac bool_norm :=
  rewrite ?andb_true_r, ?andb_false_r, ?orb_true_r, ?orb_false_r,
    ?xorb_false_r, ?xorb_false_l; cbn [andb orb xorb negb].

Ltac testbits :=
  repeat match goal with
  | |- context [Z.testbit ?e ?i] =>
      testbit_compound e;
      let k := eval vm_compute in i in
      lazymatch k with Z0 => idtac | Zpos _ => idtac | Zneg _ => idtac end;
      let H := fresh "Htb" in
      eassert (H : Z.testbit e k = _) by testbit_compute;
      cbn [andb orb xorb negb] in H;
      change (Z.testbit e i) with (Z.testbit e k); rewrite H; clear H
  end; bool_norm.

Ltac split_index i Hi n :=
  lazymatch n with
  | O => exfalso; lia
  | S ?m =>
      let z := eval vm_compute in (Z.of_nat m) in
      destruct (decide (i = z)) as [->|];
      [clear Hi | split_index i Hi m]
  end.

(** Proves equality of two [w]-bit expressions bit by bit ([n = w] as nat). *)
Ltac bit_eq w n :=
  apply (uw_eq_bits w);
  [lia | eauto 12 with fec_width | eauto 12 with fec_width
  | let i := fresh "i" in let Hi := fresh "Hi" in
    intros i Hi; split_index i Hi n;
    testbits; try reflexivity ].

Ltac byte_eq := bit_eq 8 8%nat.

(** Closed goals about concrete inputs: comparisons and ranges of bytes. *)
Ltac compute_le := apply (proj1 (Nat.leb_le _ _)); vm_compute; reflexivity.
Ltac compute_bytes := vm_compute; repeat (constructor || done).

(** Big-endian 16-bit fields, as read and written by the codecs. *)
Lemma be16_range b0 b1 : is_byte b0 -> is_byte b1 -> is_u16 (Z.lor (Z.shiftl b0 8) b1).
Proof.
  intros H0 H1. apply in_uw_bits; [lia|]. intros i Hi.
  rewrite Z.lor_spec, Z.shiftl_spec by lia.
  by rewrite (in_uw_testbit 8 b0), (in_uw_testbit 8 b1) by (done || lia).
Qed.

Lemma be16_roundtrip v : is_u16 v -> Z.lor (Z.shiftl (u8 (Z.shiftr v 8)) 8) (u8 v) = v.
Proof.
  intros Hv. assert (is_u16 (Z.lor (Z.shiftl (u8 (Z.shiftr v 8)) 8) (u8 v)))
    by (apply be16_range; by apply uw_range).
  bit_eq 16 16%nat.
Qed.

(** ** Buffers: [rtc::CopyOnWriteBuffer] contents, [data()[0..size())] *)

Definition buf_get (d : list Z) (i : nat) : res Z :=
  match d !! i with Some b => Ok b | None => Fault OutOfBounds end.

(** [data[i] = v]: the store truncates to a byte. *)
Definition buf_set (d : list Z) (i : nat) (v : Z) : res (list Z) :=
  if decide (i < length d)%nat then Ok (<[i := u8 v]> d) else Fault OutOfBounds.

Abbreviation bytes := (Forall is_byte).

Lemma buf_get_ok d i b : d !! i = Some b -> buf_get d i = Ok b.
Proof. unfold buf_get. by intros ->. Qed.

Lemma buf_get_lt d i : (i < length d)%nat -> exists b, d !! i = Some b /\ buf_get d i = Ok b.
Proof.
  intros Hi. destruct (lookup_lt_is_Some_2 d i Hi) as [b Hb].
  exists b. split; [done|]. by apply buf_get_ok.
Qed.

Lemma buf_get_fault d i : (length d <= i)%nat -> buf_get d i = Fault OutOfBounds.
Proof. intros. unfold buf_get. by rewrite lookup_ge_None_2. Qed.

Lemma buf_set_ok d i v : (i < length d)%nat -> buf_set d i v = Ok (<[i := u8 v]> d).
Proof. intros. unfold buf_set. by rewrite decide_True. Qed.

Lemma bytes_insert d i v : bytes d -> bytes (<[i := u8 v]> d).
Proof. intros. apply Forall_insert; [done|]. by apply uw_range. Qed.

Lemma bytes_lookup d i b : bytes d -> d !! i = Some b -> is_byte b.
Proof. intros H. apply (Forall_lookup_1 _ _ _ _ H). Qed.

#[export] Hint Resolve bytes_insert : fec_width.

(** [SetSize(n)] followed by [memset] of the fresh tail with zeros. *)
Definition resize_zero (d : list Z) (n : nat) : list Z := resize n 0 d.

(** [size_t] subtraction whose wrapped result would only be used as an index
    or a length: wrapping is the start of an out-of-bounds access. *)
Definition size_sub (a b : nat) : res nat :=
  if decide (b <= a)%nat then Ok (a - b)%nat else Fault OutOfBounds.

Lemma size_sub_ok a b : (b <= a)%nat -> size_sub a b = Ok (a - b)%nat.
Proof. intros. unfold size_sub. by rewrite decide_True. Qed.

(** [memcpy(dst + doff, src + soff, n)]. *)
Definition memcpy (dst : list Z) (doff : nat) (src : list Z) (soff n : nat)
    : res (list Z) :=
  if decide (soff + n <= length src /\ doff + n <= length dst)%nat
  then Ok (take doff dst ++ take n (drop soff src) ++ drop (doff + n) dst)
  else Fault OutOfBounds.

(** [memset(dst + doff, 0, n)]. *)
Definition memset0 (dst : list Z) (doff n : nat) : res (list Z) :=
  if decide (doff + n <= length dst)%nat
  then Ok (take doff dst ++ replicate n 0 ++ drop (doff + n) dst)
  else Fault OutOfBounds.

Lemma memcpy_lookup dst doff src soff n :
  (soff + n <= length src)%nat -> (doff + n <= length dst)%nat ->
  exists d, memcpy dst doff src soff n = Ok d /\ length d = length dst /\
    (forall i, (i < n)%nat -> d !! (doff + i)%nat = src !! (soff + i)%nat) /\
    (forall j, (j < doff \/ doff + n <= j)%nat -> d !! j = dst !! j).
Proof.
  intros Hs Hd. unfold memcpy. rewrite decide_True by lia. eexists; split; [done|].
  assert (Hl1 : length (take doff dst) = doff) by (rewrite length_take; lia).
  assert (Hl2 : length (take n (drop soff src)) = n)
    by (rewrite length_take, length_drop; lia).
  split_and!.
  - rewrite !length_app, Hl1, Hl2, length_drop. lia.
  - intros i Hi. rewrite lookup_app_r by lia. rewrite lookup_app_l by lia.
    rewrite Hl1. replace (doff + i - doff)%nat with i by lia.
    rewrite lookup_take_lt by lia. by rewrite lookup_drop.
  - intros j [Hj|Hj].
    + rewrite lookup_app_l by lia. by rewrite lookup_take_lt.
    + rewrite !lookup_app_r by lia. rewrite Hl1, Hl2, lookup_drop. f_equal. lia.
Qed.

Lemma buf_set_bytes d i v d' : buf_set d i v = Ok d' -> bytes d -> bytes d'.
Proof. unfold buf_set. case_decide; [|done]. intros [= <-] ?. by apply bytes_insert. Qed.

Lemma buf_set_length d i v d' : buf_set d i v = Ok d' -> length d' = length d.
Proof. unfold buf_set. case_decide; [|done]. intros [= <-]. apply length_insert. Qed.

Lemma memcpy_bytes dst doff src soff n d :
  bytes dst -> bytes src -> memcpy dst doff src soff n = Ok d -> bytes d.
Proof.
  unfold memcpy. case_decide; [|done]. intros ?? [= <-].
  rewrite !Forall_app. auto using Forall_take, Forall_drop.
Qed.

(** ** Loops that fill a window of a buffer *)

Lemma foldM_ext {A B} (f g : B -> A -> res B) l b :
  (forall b a, a ∈ l -> f b a = g b a) -> foldM f l b = foldM g l b.
Proof.
  revert b; induction l as [|a l IH]; intros b Hf; cbn; [done|].
  rewrite Hf by set_solver. destruct (g b a); cbn; [|done]. apply IH. set_solver.
Qed.

Lemma fill_loop (d : list Z) off n (v : nat -> Z) :
  (off + n <= length d)%nat ->
  exists d', foldM (fun m j => buf_set m (off + j) (v j)) (seq 0 n) d = Ok d' /\
    length d' = length d /\
    (forall i, (i < n)%nat -> d' !! (off + i)%nat = Some (u8 (v i))) /\
    (forall j, (j < off \/ off + n <= j)%nat -> d' !! j = d !! j).
Proof.
  revert d. induction n as [|n IH]; intros d Hlen.
  { exists d. cbn. split_and!; [done..|intros; lia|done]. }
  rewrite seq_S, foldM_app. destruct (IH d) as (d' & -> & Hlen' & Hin & Hout); [lia|].
  cbn. rewrite buf_set_ok by lia. cbn. eexists; split; [done|].
  split_and!.
  - by rewrite length_insert.
  - intros i Hi. destruct (decide (i = n)) as [->|].
    + rewrite list_lookup_insert_eq by lia. done.
    + rewrite list_lookup_insert_ne by lia. apply Hin. lia.
  - intros j Hj. rewrite list_lookup_insert_ne by lia. apply Hout. lia.
Qed.

(** A row-major matrix of [n] rows of [w] bytes, written into rows of stride
    [stride] starting at [base]. *)
Lemma fill_matrix (d : list Z) base stride w n (v : nat -> nat -> Z) :
  (w <= stride)%nat -> (base + n * stride <= length d)%nat ->
  exists d',
    foldM (fun m r => foldM (fun m c => buf_set m (base + r * stride + c) (v r c)) (seq 0 w) m)
          (seq 0 n) d = Ok d' /\
    length d' = length d /\
    (forall r c, (r < n)%nat -> (c < w)%nat ->
       d' !! (base + r * stride + c)%nat = Some (u8 (v r c))) /\
    (forall j, (forall r c, (r < n)%nat -> (c < w)%nat -> j <> base + r * stride + c)%nat ->
       d' !! j = d !! j).
Proof.
  intros Hw. revert d. induction n as [|n IH]; intros d Hlen.
  { exists d. cbn. split_and!; [done..|intros; lia|done]. }
  rewrite seq_S, foldM_app. destruct (IH d) as (d1 & -> & Hlen1 & Hin1 & Hout1); [lia|].
  cbn. destruct (fill_loop d1 (base + n * stride) w (v n)) as (d2 & -> & Hlen2 & Hin2 & Hout2);
    [nia|].
  cbn. exists d2. split; [done|]. split_and!.
  - lia.
  - intros r c Hr Hc. destruct (decide (r = n)) as [->|].
    + by apply Hin2.
    + rewrite Hout2 by nia. apply Hin1; lia.
  - intros j Hj. rewrite Hout2.
    + apply Hout1. intros r c Hr Hc. apply Hj; lia.
    + destruct (decide (base + n * stride <= j < base + n * stride + w)%nat) as [Hr|Hr]; [|lia].
      exfalso. apply (Hj n (j - (base + n * stride))%nat); lia.
Qed.

(** ** Straight-line buffer code

    Header codecs run on a buffer whose first bytes are known to exist:
    [take_bytes d n] names them, [run] then executes the accesses. *)

Lemma memcpy_ok dst doff src soff n :
  (soff + n <= length src)%nat -> (doff + n <= length dst)%nat ->
  memcpy dst doff src soff n =
  Ok (take doff dst ++ take n (drop soff src) ++ drop (doff + n) dst).
Proof. intros. unfold memcpy. by rewrite decide_True. Qed.

Lemma memset0_ok dst doff n :
  (doff + n <= length dst)%nat ->
  memset0 dst doff n = Ok (take doff dst ++ replicate n 0 ++ drop (doff + n) dst).
Proof. intros. unfold memset0. by rewrite decide_True. Qed.

Ltac take_bytes d n :=
  lazymatch n with
  | O => idtac
  | S ?m =>
      let b := fresh "b" in
      destruct d as [|b d]; [cbn [length] in *; exfalso; lia | take_bytes d m]
  end.

Ltac split_bytes :=
  repeat match goal with H : Forall _ (_ :: _) |- _ => apply Forall_cons_1 in H as [? H] end.

Ltac run_step :=
  match goal with
  | |- context [@mbind res _ ?A ?B ?f (Ok ?a)] =>
      let t := eval cbv beta zeta in (f a) in
      rewrite (bind_ok a f : @mbind res _ A B f (Ok a) = t)
  | |- context [buf_get ?d ?i] => rewrite (buf_get_ok d i _ eq_refl)
  | |- context [buf_set ?d ?i ?v] =>
      let d' := eval cbn [insert list_insert] in (<[i := u8 v]> d) in
      replace (buf_set d i v) with (Ok d')
        by (symmetry; apply (buf_set_ok d i v); cbn [length app]; lia)
  | |- context [memcpy ?d ?o ?s ?p ?n] =>
      rewrite (memcpy_ok d o s p n) by (cbn [length app]; lia);
      cbn [take drop app Nat.add]
  | |- context [memset0 ?d ?o ?n] =>
      rewrite (memset0_ok d o n) by (cbn [length app]; lia);
      cbn [take drop app Nat.add replicate]
  end.

Ltac run := cbv zeta beta; repeat run_step.

(** [run] for safety arguments: stored bytes become opaque. *)
Ltac abstract_bytes :=
  repeat match goal with
  | |- context [uw 8 ?v] =>
      let b := fresh "b" in let H := fresh "Hb" in
      assert (H : is_byte (uw 8 v)) by (by apply uw_range);
      generalize dependent (uw 8 v); intros b H
  end.

Ltac run_abstract := cbv zeta beta; repeat (run_step; abstract_bytes).

Lemma memset0_bytes dst doff n d : bytes dst -> memset0 dst doff n = Ok d -> bytes d.
Proof.
  unfold memset0. case_decide; [|done]. intros ? [= <-].
  rewrite !Forall_app. split_and!; [by apply Forall_take| |by apply Forall_drop].
  apply Forall_replicate. unfold in_uw. lia.
Qed.

(** ** Strictly increasing lists of offsets *)

Lemma sorted_gap l i j (x y : nat) :
  StronglySorted lt l -> l !! i = Some x -> l !! j = Some y -> (i <= j)%nat -> (x + (j - i) <= y)%nat.
Proof.
  intros Hl. revert i j x y. induction Hl as [|a l Hl IH Ha]; intros i j x y Hi Hj Hij; [done|].
  destruct j as [|j]; [destruct i; [|lia]; cbn in *; simplify_eq; lia|].
  destruct i as [|i].
  - cbn in Hi. injection Hi as ->. cbn in Hj.
    destruct (lookup_lt_is_Some_2 l 0) as [z Hz]; [apply lookup_lt_Some in Hj; lia|].
    specialize (IH 0%nat j z y Hz Hj ltac:(lia)).
    assert (x < z)%nat by (by apply (Forall_lookup_1 _ _ _ _ Ha Hz)). lia.
  - specialize (IH i j x y Hi Hj ltac:(lia)). lia.
Qed.

(** Parts of a list. *)
Lemma Forall_sublist {A} (P : A -> Prop) l l' : l' `sublist_of` l -> Forall P l -> Forall P l'.
Proof.
  intros Hsub. induction Hsub as [|x l' l Hsub IH|x l' l Hsub IH]; [done|..]; intros [Hx H]%Forall_cons; [constructor|]; auto.
Qed.

Lemma sorted_sublist {A} (R : relation A) l l' : l' `sublist_of` l -> StronglySorted R l -> StronglySorted R l'.
Proof.
  induction 1 as [|x l' l Hs IH|x l' l _ IH]; [done| |]; intros [H2 Hx]%StronglySorted_inv; [|by apply IH].
  constructor; [by apply IH|]. by eapply Forall_sublist.
Qed.

Lemma filter_keeps {A} (P : A -> Prop) `{forall x, Decision (P x)} l : Forall P l -> filter P l = l.
Proof. induction 1 as [|y l Hy _ IH]; [done|]. by rewrite filter_cons, decide_True, IH. Qed.

Lemma filter_none {A} (P : A -> Prop) `{forall x, Decision (P x)} l : Forall (fun y => ~ P y) l -> filter P l = [].
Proof. induction 1 as [|y l Hy _ IH]; [done|]. by rewrite filter_cons, decide_False. Qed.

Lemma sorted_NoDup l : StronglySorted lt l -> NoDup l.
Proof.
  induction 1 as [|a l _ IH Ha]; constructor; [|done].
  intros Hin. rewrite Forall_forall in Ha. specialize (Ha a Hin). lia.
Qed.

(** Sorted lists with the same elements are equal. *)
Lemma sorted_ext (l1 l2 : list nat) :
  StronglySorted lt l1 -> StronglySorted lt l2 -> (forall x, x ∈ l1 <-> x ∈ l2) -> l1 = l2.
Proof.
  intros H1 H2 Hx. apply (StronglySorted_unique_strong lt); [|done..|].
  - intros x y _ _ ??. lia.
  - apply NoDup_Permutation; [by apply sorted_NoDup..|done].
Qed.

Lemma sorted_full l n :
  StronglySorted lt l -> length l = n -> (forall x, x ∈ l -> x < n)%nat -> l = seq 0 n.
Proof.
  intros Hl Hn Hlt. apply list_eq_same_length with n; [by rewrite length_seq|done|].
  intros i x y Hi Hx Hy. apply lookup_seq in Hy as [-> _].
  destruct (lookup_lt_is_Some_2 l 0) as [a Ha]; [lia|].
  destruct (lookup_lt_is_Some_2 l (n - 1)) as [b Hb]; [lia|].
  pose proof (sorted_gap l 0 i a x Hl Ha Hx ltac:(lia)).
  pose proof (sorted_gap l i (n - 1) x b Hl Hx Hb ltac:(lia)).
  specialize (Hlt b ltac:(by eapply list_elem_of_lookup_2)). lia.
Qed.

Lemma sorted_filter (P : nat -> Prop) `{!forall n, Decision (P n)} l :
  StronglySorted lt l -> StronglySorted lt (filter P l).
Proof.
  induction 1 as [|a l Hl IH Ha]; [constructor|]. rewrite filter_cons. case_decide; [|done].
  constructor; [done|]. apply Forall_forall. intros x [_ Hx]%list_elem_of_filter.
  by apply (proj1 (Forall_forall _ _) Ha).
Qed.

Lemma sorted_seq i n : StronglySorted lt (seq i n).
Proof.
  revert i. induction n as [|n IH]; intros i; cbn; constructor; [done|].
  apply Forall_forall. intros x Hx%elem_of_seq. lia.
Qed.
