(* ===== verification/ByteIo.v ===== *)
(** * ByteIo: [modules/rtp_rtcp/source/byte_io.h]

    [ByteReader]/[ByteWriter]: fixed-width integers in big- and little-endian
    byte order.  [tw] is the width of the C++ type [T] in bits, [B] the number
    of bytes read or written, [off] the offset of the data pointer.  The
    generic loops and the unrolled specialisations for 1, 2, 4 and 8 bytes are
    both translated and proved equal to one positional specification. *)

From S2P Require Import Prelude.

Module ByteReader.

(** [ByteReader<T, B, false>::InternalReadBigEndian]. *)
Definition InternalReadBigEndian (tw : Z) (B : nat) (d : list Z) (off : nat) : res Z :=
  foldM (fun val i =>
           let! b := buf_get d (off + i) in
           Ok (Z.lor val (uw tw (Z.shiftl (uw tw b) (Z.of_nat ((B - 1 - i) * 8))))))
        (seq 0 B) 0.

(** [ByteReader<T, B, false>::InternalReadLittleEndian]. *)
Definition InternalReadLittleEndian (tw : Z) (B : nat) (d : list Z) (off : nat) : res Z :=
  foldM (fun val i =>
           let! b := buf_get d (off + i) in
           Ok (Z.lor val (uw tw (Z.shiftl (uw tw b) (Z.of_nat (i * 8))))))
        (seq 0 B) 0.

(** The specialisations for single bytes, two, four and eight byte words. *)
Definition ReadBigEndian1 (d : list Z) (off : nat) : res Z := buf_get d off.

Definition ReadBigEndian2 (d : list Z) (off : nat) : res Z :=
  let! b0 := buf_get d off in
  let! b1 := buf_get d (off + 1) in
  Ok (Z.lor (Z.shiftl b0 8) b1).

Definition ReadLittleEndian2 (d : list Z) (off : nat) : res Z :=
  let! b0 := buf_get d off in
  let! b1 := buf_get d (off + 1) in
  Ok (Z.lor b0 (Z.shiftl b1 8)).

Definition ReadBigEndian4 (d : list Z) (off : nat) : res Z :=
  let! b0 := buf_get d off in
  let! b1 := buf_get d (off + 1) in
  let! b2 := buf_get d (off + 2) in
  let! b3 := buf_get d (off + 3) in
  Ok (Z.lor (Z.lor (Z.lor (Z.shiftl b0 24) (Z.shiftl b1 16)) (Z.shiftl b2 8)) b3).

Definition ReadLittleEndian4 (d : list Z) (off : nat) : res Z :=
  let! b0 := buf_get d off in
  let! b1 := buf_get d (off + 1) in
  let! b2 := buf_get d (off + 2) in
  let! b3 := buf_get d (off + 3) in
  Ok (Z.lor (Z.lor (Z.lor b0 (Z.shiftl b1 8)) (Z.shiftl b2 16)) (Z.shiftl b3 24)).

Definition ReadBigEndian8 (d : list Z) (off : nat) : res Z :=
  let! b0 := buf_get d off in
  let! b1 := buf_get d (off + 1) in
  let! b2 := buf_get d (off + 2) in
  let! b3 := buf_get d (off + 3) in
  let! b4 := buf_get d (off + 4) in
  let! b5 := buf_get d (off + 5) in
  let! b6 := buf_get d (off + 6) in
  let! b7 := buf_get d (off + 7) in
  Ok (Z.lor (Z.lor (Z.lor (Z.lor (Z.lor (Z.lor (Z.lor
        (Z.shiftl b0 56) (Z.shiftl b1 48)) (Z.shiftl b2 40)) (Z.shiftl b3 32))
        (Z.shiftl b4 24)) (Z.shiftl b5 16)) (Z.shiftl b6 8)) b7).

Definition ReadLittleEndian8 (d : list Z) (off : nat) : res Z :=
  let! b0 := buf_get d off in
  let! b1 := buf_get d (off + 1) in
  let! b2 := buf_get d (off + 2) in
  let! b3 := buf_get d (off + 3) in
  let! b4 := buf_get d (off + 4) in
  let! b5 := buf_get d (off + 5) in
  let! b6 := buf_get d (off + 6) in
  let! b7 := buf_get d (off + 7) in
  Ok (Z.lor (Z.lor (Z.lor (Z.lor (Z.lor (Z.lor (Z.lor
        b0 (Z.shiftl b1 8)) (Z.shiftl b2 16)) (Z.shiftl b3 24))
        (Z.shiftl b4 32)) (Z.shiftl b5 40)) (Z.shiftl b6 48)) (Z.shiftl b7 56)).

(** Template dispatch: the specialisations win over the generic body. *)
Definition ReadBigEndian (tw : Z) (B : nat) (d : list Z) (off : nat) : res Z :=
  match B with
  | 1%nat => ReadBigEndian1 d off
  | 2%nat => ReadBigEndian2 d off
  | 4%nat => ReadBigEndian4 d off
  | 8%nat => ReadBigEndian8 d off
  | _ => InternalReadBigEndian tw B d off
  end.

Definition ReadLittleEndian (tw : Z) (B : nat) (d : list Z) (off : nat) : res Z :=
  match B with
  | 1%nat => ReadBigEndian1 d off
  | 2%nat => ReadLittleEndian2 d off
  | 4%nat => ReadLittleEndian4 d off
  | 8%nat => ReadLittleEndian8 d off
  | _ => InternalReadLittleEndian tw B d off
  end.

(** [SignExtend]: the mask is built from the [int] literal [1]. *)
Definition SignExtend (tw : Z) (B : nat) (val : Z) : res Z :=
  let kMsb := u8 (Z.shiftr val (Z.of_nat ((B - 1) * 8))) in
  if has_bits kMsb 0x80 then
    let shift := (Z.of_nat B mod (tw / 8)) * 8 in
    if 32 <=? shift then Fault BadShift else
    let kUsedBitsMask := uw tw (Z.shiftl 1 shift - 1) in
    Ok (uw tw (Z.lor (Z.lnot kUsedBitsMask) val))
  else Ok val.

(** [ReinterpretAsSigned]. *)
Definition ReinterpretAsSigned (tw : Z) (unsigned_val : Z) : Z :=
  let kUnsignedHighestBitMask := 2 ^ (tw - 1) in
  let kSignedHighestBitMask := - 2 ^ (tw - 1) in
  if has_bits unsigned_val kUnsignedHighestBitMask then
    Z.lor (Z.land unsigned_val (uw tw (Z.lnot kUnsignedHighestBitMask)))
          kSignedHighestBitMask
  else unsigned_val.

(** [ByteReader<T, B, true>::ReadBigEndian]. *)
Definition ReadBigEndianSigned (tw : Z) (B : nat) (d : list Z) (off : nat) : res Z :=
  let! unsigned_val := ReadBigEndian tw B d off in
  let! unsigned_val :=
    if Z.of_nat B <? tw / 8 then SignExtend tw B unsigned_val else Ok unsigned_val in
  Ok (ReinterpretAsSigned tw unsigned_val).

End ByteReader.

Module ByteWriter.

(** [ByteWriter<T, B, false>::WriteBigEndian], generic loop. *)
Definition InternalWriteBigEndian (B : nat) (d : list Z) (off : nat) (val : Z)
    : res (list Z) :=
  foldM (fun d i => buf_set d (off + i) (Z.shiftr val (Z.of_nat ((B - 1 - i) * 8))))
        (seq 0 B) d.

Definition InternalWriteLittleEndian (B : nat) (d : list Z) (off : nat) (val : Z)
    : res (list Z) :=
  foldM (fun d i => buf_set d (off + i) (Z.shiftr val (Z.of_nat (i * 8))))
        (seq 0 B) d.

Definition WriteBigEndian1 (d : list Z) (off : nat) (val : Z) : res (list Z) :=
  buf_set d off val.

Definition WriteBigEndian2 (d : list Z) (off : nat) (val : Z) : res (list Z) :=
  let! d := buf_set d off (Z.shiftr val 8) in
  buf_set d (off + 1) val.

Definition WriteLittleEndian2 (d : list Z) (off : nat) (val : Z) : res (list Z) :=
  let! d := buf_set d off val in
  buf_set d (off + 1) (Z.shiftr val 8).

Definition WriteBigEndian4 (d : list Z) (off : nat) (val : Z) : res (list Z) :=
  let! d := buf_set d off (Z.shiftr val 24) in
  let! d := buf_set d (off + 1) (Z.shiftr val 16) in
  let! d := buf_set d (off + 2) (Z.shiftr val 8) in
  buf_set d (off + 3) val.

Definition WriteLittleEndian4 (d : list Z) (off : nat) (val : Z) : res (list Z) :=
  let! d := buf_set d off val in
  let! d := buf_set d (off + 1) (Z.shiftr val 8) in
  let! d := buf_set d (off + 2) (Z.shiftr val 16) in
  buf_set d (off + 3) (Z.shiftr val 24).

Definition WriteBigEndian8 (d : list Z) (off : nat) (val : Z) : res (list Z) :=
  let! d := buf_set d off (Z.shiftr val 56) in
  let! d := buf_set d (off + 1) (Z.shiftr val 48) in
  let! d := buf_set d (off + 2) (Z.shiftr val 40) in
  let! d := buf_set d (off + 3) (Z.shiftr val 32) in
  let! d := buf_set d (off + 4) (Z.shiftr val 24) in
  let! d := buf_set d (off + 5) (Z.shiftr val 16) in
  let! d := buf_set d (off + 6) (Z.shiftr val 8) in
  buf_set d (off + 7) val.

Definition WriteLittleEndian8 (d : list Z) (off : nat) (val : Z) : res (list Z) :=
  let! d := buf_set d off val in
  let! d := buf_set d (off + 1) (Z.shiftr val 8) in
  let! d := buf_set d (off + 2) (Z.shiftr val 16) in
  let! d := buf_set d (off + 3) (Z.shiftr val 24) in
  let! d := buf_set d (off + 4) (Z.shiftr val 32) in
  let! d := buf_set d (off + 5) (Z.shiftr val 40) in
  let! d := buf_set d (off + 6) (Z.shiftr val 48) in
  buf_set d (off + 7) (Z.shiftr val 56).

Definition WriteBigEndian (B : nat) (d : list Z) (off : nat) (val : Z) : res (list Z) :=
  match B with
  | 1%nat => WriteBigEndian1 d off val
  | 2%nat => WriteBigEndian2 d off val
  | 4%nat => WriteBigEndian4 d off val
  | 8%nat => WriteBigEndian8 d off val
  | _ => InternalWriteBigEndian B d off val
  end.

Definition WriteLittleEndian (B : nat) (d : list Z) (off : nat) (val : Z) : res (list Z) :=
  match B with
  | 1%nat => WriteBigEndian1 d off val
  | 2%nat => WriteLittleEndian2 d off val
  | 4%nat => WriteLittleEndian4 d off val
  | 8%nat => WriteLittleEndian8 d off val
  | _ => InternalWriteLittleEndian B d off val
  end.

(** [ByteWriter<T, B, true>::WriteBigEndian]: [ReinterpretAsUnsigned] first. *)
Definition ReinterpretAsUnsigned (tw : Z) (val : Z) : Z := uw tw val.

Definition WriteBigEndianSigned (tw : Z) (B : nat) (d : list Z) (off : nat) (val : Z)
    : res (list Z) :=
  WriteBigEndian B d off (ReinterpretAsUnsigned tw val).

End ByteWriter.

(** ** Proofs *)

(** The generic loops, with the byte position as a parameter. *)
Definition read_loop (tw : Z) (B : nat) (pos : nat -> nat) (d : list Z) (off : nat) : res Z :=
  foldM (fun val i =>
           let! b := buf_get d (off + i) in
           Ok (Z.lor val (uw tw (Z.shiftl (uw tw b) (Z.of_nat (pos i * 8))))))
        (seq 0 B) 0.

Definition write_loop (B : nat) (pos : nat -> nat) (d : list Z) (off : nat) (val : Z)
    : res (list Z) :=
  foldM (fun d i => buf_set d (off + i) (Z.shiftr val (Z.of_nat (pos i * 8)))) (seq 0 B) d.

Lemma foldl_lor_testbit {A} (g : A -> Z) l a j :
  Z.testbit (foldl (fun v i => Z.lor v (g i)) a l) j =
  Z.testbit a j || existsb (fun i => Z.testbit (g i) j) l.
Proof.
  revert a; induction l as [|i l IH]; intros a; cbn; [by rewrite orb_false_r|].
  by rewrite IH, Z.lor_spec, orb_assoc.
Qed.

Lemma read_loop_lookup tw B pos d off (f : nat -> Z) :
  (forall i, (i < B)%nat -> d !! (off + i)%nat = Some (f i)) ->
  read_loop tw B pos d off =
  Ok (foldl (fun v i => Z.lor v (uw tw (Z.shiftl (uw tw (f i)) (Z.of_nat (pos i * 8)))))
            0 (seq 0 B)).
Proof.
  intros Hf. unfold read_loop. apply foldM_pure. intros v i [_ Hi]%elem_of_seq.
  by rewrite (buf_get_ok _ _ _ (Hf i Hi)).
Qed.

(** What one write loop leaves in memory. *)
Definition written (d d' : list Z) (off B : nat) (pos : nat -> nat) (v : Z) : Prop :=
  length d' = length d /\
  (forall i, (i < B)%nat ->
     d' !! (off + i)%nat = Some (u8 (Z.shiftr v (Z.of_nat (pos i * 8))))) /\
  (forall j, (j < off \/ off + B <= j)%nat -> d' !! j = d !! j).

Lemma write_loop_written B pos d off v :
  (off + B <= length d)%nat ->
  exists d', write_loop B pos d off v = Ok d' /\ written d d' off B pos v.
Proof. intros Hlen. unfold write_loop, written. by apply fill_loop. Qed.

Lemma read_after_write tw B pos d d' off v :
  (forall i, (i < B)%nat -> (pos i < B)%nat) ->
  (forall k, (k < B)%nat -> exists i, (i < B)%nat /\ pos i = k) ->
  8 * Z.of_nat B <= tw ->
  written d d' off B pos v ->
  read_loop tw B pos d' off = Ok (uw (8 * Z.of_nat B) v).
Proof.
  intros Hpos Hsurj Htw (_ & Hin & _).
  rewrite (read_loop_lookup _ _ _ _ _ _ Hin). f_equal.
  apply Z.bits_inj'; intros j Hj.
  rewrite foldl_lor_testbit, Z.bits_0, uw_testbit by lia. cbn [orb].
  apply eq_true_iff_eq. rewrite existsb_exists, andb_true_iff, bool_decide_eq_true.
  split.
  - intros (i & Hi & Hb). apply in_seq in Hi. cbn in Hi. specialize (Hpos i ltac:(lia)).
    rewrite uw_testbit, Z.shiftl_spec in Hb by lia.
    apply andb_true_iff in Hb as [Hj' Hb]. apply bool_decide_eq_true in Hj'.
    destruct (decide (j < Z.of_nat (pos i * 8))) as [Hlt|Hge].
    { rewrite Z.testbit_neg_r in Hb by lia. done. }
    rewrite !uw_testbit, Z.shiftr_spec in Hb by lia.
    apply andb_true_iff in Hb as [_ Hb]. apply andb_true_iff in Hb as [Hk Hb].
    apply bool_decide_eq_true in Hk.
    split; [lia|]. rewrite <- Hb. f_equal. lia.
  - intros [Hlt Hb].
    destruct (Hsurj (Z.to_nat (j / 8))) as (i & Hi & Hp);
      [Z.div_mod_to_equations; lia|].
    assert (0 <= j - Z.of_nat (pos i * 8) < 8) by (rewrite Hp; Z.div_mod_to_equations; lia).
    exists i. split; [apply in_seq; lia|].
    rewrite uw_testbit, Z.shiftl_spec, !uw_testbit, Z.shiftr_spec by lia.
    rewrite !bool_decide_true by lia. cbn.
    replace (j - Z.of_nat (pos i * 8) + Z.of_nat (pos i * 8)) with j by lia. done.
Qed.

Lemma InternalReadBigEndian_loop tw B d off :
  ByteReader.InternalReadBigEndian tw B d off = read_loop tw B (fun i => B - 1 - i)%nat d off.
Proof. reflexivity. Qed.

Lemma InternalReadLittleEndian_loop tw B d off :
  ByteReader.InternalReadLittleEndian tw B d off = read_loop tw B (fun i => i) d off.
Proof. reflexivity. Qed.

Lemma shifted_byte_small tw b k :
  is_byte b -> 0 <= k -> 8 + k <= tw -> uw tw (Z.shiftl (uw tw b) k) = Z.shiftl b k.
Proof.
  intros Hb Hk Htw. rewrite (uw_small tw b).
  2:{ unfold in_uw in *. split; [lia|]. apply Z.lt_le_trans with (2 ^ 8); [lia|].
      apply Z.pow_le_mono_r; lia. }
  apply uw_small, in_uw_bits; [lia|]. intros i Hi.
  rewrite Z.shiftl_spec by lia. apply (in_uw_testbit 8); [done|lia].
Qed.

(** The bytes of an in-range read, for the unrolled specialisations. *)
Lemma read_window (d : list Z) off B :
  bytes d -> (off + B <= length d)%nat ->
  exists f, forall i, (i < B)%nat -> d !! (off + i)%nat = Some (f i) /\ is_byte (f i).
Proof.
  intros Hd Hlen. exists (fun i => nth (off + i) d 0). intros i Hi.
  destruct (lookup_lt_is_Some_2 d (off + i)) as [b Hb]; [lia|].
  rewrite (nth_lookup_Some _ _ _ _ Hb). split; [done|]. by apply (bytes_lookup d (off + i)).
Qed.

Ltac unrolled_read Hf :=
  match goal with |- context [buf_get ?d (?off + ?i)] =>
    rewrite (buf_get_ok d (off + i) _ (proj1 (Hf i ltac:(lia))))
  | |- context [buf_get ?d ?off] =>
    let H := fresh in pose proof (proj1 (Hf O ltac:(lia))) as H;
    rewrite Nat.add_0_r in H; rewrite (buf_get_ok d off _ H); clear H
  end; cbn [mbind res_bind].

Ltac norm_numerals :=
  repeat match goal with |- context [Z.of_nat ?n] =>
    let z := eval vm_compute in (Z.of_nat n) in
    lazymatch z with Z0 => idtac | Zpos _ => idtac end; change (Z.of_nat n) with z
  end.

(** The specialisations compute what the generic template computes. *)
Lemma ReadBigEndian_generic tw B d off :
  bytes d -> (off + B <= length d)%nat -> 8 * Z.of_nat B <= tw ->
  ByteReader.ReadBigEndian tw B d off = ByteReader.InternalReadBigEndian tw B d off.
Proof.
  intros Hd Hlen Htw. destruct (read_window d off B Hd Hlen) as [f Hf].
  rewrite InternalReadBigEndian_loop,
    (read_loop_lookup _ _ _ _ _ f) by (intros; by apply Hf).
  assert (Hcase : (B = 1 \/ B = 2 \/ B = 4 \/ B = 8)%nat \/
    ByteReader.ReadBigEndian tw B d off = ByteReader.InternalReadBigEndian tw B d off)
    by (do 9 (destruct B as [|B]; [tauto|]); tauto).
  destruct Hcase as [[->|[->|[->| ->]]]| ->].
  5:{ rewrite InternalReadBigEndian_loop. apply read_loop_lookup. intros; by apply Hf. }
  all: cbn [ByteReader.ReadBigEndian];
    unfold ByteReader.ReadBigEndian1, ByteReader.ReadBigEndian2,
      ByteReader.ReadBigEndian4, ByteReader.ReadBigEndian8;
    repeat unrolled_read Hf.
  all: cbn [seq foldl Nat.sub Nat.mul Z.of_nat Pos.of_succ_nat Pos.succ Nat.add].
  all: rewrite !shifted_byte_small by (lia || (apply Hf; lia)).
  all: rewrite ?Z.lor_0_l, ?Z.shiftl_0_r; done.
Qed.

Lemma ReadLittleEndian_generic tw B d off :
  bytes d -> (off + B <= length d)%nat -> 8 * Z.of_nat B <= tw ->
  ByteReader.ReadLittleEndian tw B d off = ByteReader.InternalReadLittleEndian tw B d off.
Proof.
  intros Hd Hlen Htw. destruct (read_window d off B Hd Hlen) as [f Hf].
  rewrite InternalReadLittleEndian_loop,
    (read_loop_lookup _ _ _ _ _ f) by (intros; by apply Hf).
  assert (Hcase : (B = 1 \/ B = 2 \/ B = 4 \/ B = 8)%nat \/
    ByteReader.ReadLittleEndian tw B d off = ByteReader.InternalReadLittleEndian tw B d off)
    by (do 9 (destruct B as [|B]; [tauto|]); tauto).
  destruct Hcase as [[->|[->|[->| ->]]]| ->].
  5:{ rewrite InternalReadLittleEndian_loop. apply read_loop_lookup. intros; by apply Hf. }
  all: cbn [ByteReader.ReadLittleEndian];
    unfold ByteReader.ReadBigEndian1, ByteReader.ReadLittleEndian2,
      ByteReader.ReadLittleEndian4, ByteReader.ReadLittleEndian8;
    repeat unrolled_read Hf.
  all: cbn [seq foldl Nat.sub Nat.mul Z.of_nat Pos.of_succ_nat Pos.succ Nat.add].
  all: rewrite !shifted_byte_small by (lia || (apply Hf; lia)).
  all: rewrite ?Z.lor_0_l, ?Z.shiftl_0_r; done.
Qed.

Lemma WriteBigEndian_loop B d off v :
  ByteWriter.WriteBigEndian B d off v = write_loop B (fun i => B - 1 - i)%nat d off v.
Proof.
  assert (Hcase : (B = 1 \/ B = 2 \/ B = 4 \/ B = 8)%nat \/
    ByteWriter.WriteBigEndian B d off v = ByteWriter.InternalWriteBigEndian B d off v)
    by (do 9 (destruct B as [|B]; [tauto|]); tauto).
  destruct Hcase as [[->|[->|[->| ->]]]| ->]; [..|done].
  all: unfold write_loop;
    cbn [ByteWriter.WriteBigEndian foldM seq Nat.sub Nat.mul Z.of_nat Pos.of_succ_nat
         Pos.succ Nat.add].
  all: norm_numerals; rewrite ?Nat.add_0_r, ?Z.shiftr_0_r.
  all: unfold ByteWriter.WriteBigEndian1, ByteWriter.WriteBigEndian2,
    ByteWriter.WriteBigEndian4, ByteWriter.WriteBigEndian8.
  all: repeat match goal with
    | |- context [buf_set ?d ?o ?x] =>
        destruct (buf_set d o x); cbn [mbind res_bind]; [|done]
    end; done.
Qed.

Lemma WriteLittleEndian_loop B d off v :
  ByteWriter.WriteLittleEndian B d off v = write_loop B (fun i => i) d off v.
Proof.
  assert (Hcase : (B = 1 \/ B = 2 \/ B = 4 \/ B = 8)%nat \/
    ByteWriter.WriteLittleEndian B d off v = ByteWriter.InternalWriteLittleEndian B d off v)
    by (do 9 (destruct B as [|B]; [tauto|]); tauto).
  destruct Hcase as [[->|[->|[->| ->]]]| ->]; [..|done].
  all: unfold write_loop;
    cbn [ByteWriter.WriteLittleEndian foldM seq Nat.sub Nat.mul Z.of_nat Pos.of_succ_nat
         Pos.succ Nat.add].
  all: norm_numerals; rewrite ?Nat.add_0_r, ?Z.shiftr_0_r.
  all: unfold ByteWriter.WriteBigEndian1, ByteWriter.WriteLittleEndian2,
    ByteWriter.WriteLittleEndian4, ByteWriter.WriteLittleEndian8.
  all: repeat match goal with
    | |- context [buf_set ?d ?o ?x] =>
        destruct (buf_set d o x); cbn [mbind res_bind]; [|done]
    end; done.
Qed.

Lemma written_bytes d d' off B pos v : bytes d -> written d d' off B pos v -> bytes d'.
Proof.
  intros Hd (_ & Hin & Hout). apply Forall_lookup. intros j b Hj.
  destruct (decide (off <= j < off + B)%nat) as [Hr|Hr].
  - replace j with (off + (j - off))%nat in Hj by lia. rewrite Hin in Hj by lia.
    injection Hj as <-. by apply uw_range.
  - rewrite Hout in Hj by lia. by apply (bytes_lookup d j).
Qed.

Lemma big_endian_roundtrip tw B d off v :
  bytes d -> (off + B <= length d)%nat -> 8 * Z.of_nat B <= tw ->
  exists d', ByteWriter.WriteBigEndian B d off v = Ok d' /\
    written d d' off B (fun i => B - 1 - i)%nat v /\
    ByteReader.ReadBigEndian tw B d' off = Ok (uw (8 * Z.of_nat B) v).
Proof.
  intros Hd Hlen Htw. rewrite WriteBigEndian_loop.
  destruct (write_loop_written B (fun i => B - 1 - i)%nat d off v Hlen) as (d' & -> & Hw).
  exists d'. split; [done|]. split; [done|].
  pose proof (proj1 Hw) as Hlen'.
  rewrite ReadBigEndian_generic by (eauto using written_bytes || lia).
  rewrite InternalReadBigEndian_loop.
  eapply read_after_write; [| |done..]; [lia|].
  intros k Hk. exists (B - 1 - k)%nat. lia.
Qed.

Lemma little_endian_roundtrip tw B d off v :
  bytes d -> (off + B <= length d)%nat -> 8 * Z.of_nat B <= tw ->
  exists d', ByteWriter.WriteLittleEndian B d off v = Ok d' /\
    written d d' off B (fun i => i) v /\
    ByteReader.ReadLittleEndian tw B d' off = Ok (uw (8 * Z.of_nat B) v).
Proof.
  intros Hd Hlen Htw. rewrite WriteLittleEndian_loop.
  destruct (write_loop_written B (fun i => i) d off v Hlen) as (d' & -> & Hw).
  exists d'. split; [done|]. split; [done|].
  pose proof (proj1 Hw) as Hlen'.
  rewrite ReadLittleEndian_generic by (eauto using written_bytes || lia).
  rewrite InternalReadLittleEndian_loop.
  eapply read_after_write; [| |done..]; [lia|]. intros k Hk. by exists k.
Qed.

(** *** Signed reads *)

Definition in_sw (n : Z) (v : Z) : Prop := - 2 ^ (n - 1) <= v < 2 ^ (n - 1).

Lemma in_sw_testbit n v i :
  in_sw n v -> n - 1 <= i -> 0 <= i -> Z.testbit v i = bool_decide (v < 0).
Proof.
  intros Hv Hi Hi0. unfold in_sw in Hv. case_bool_decide as Hneg.
  - rewrite <- (Z.lnot_involutive v), Z.lnot_spec by lia.
    rewrite (in_uw_testbit (n - 1)); [done| |done].
    unfold in_uw, Z.lnot. lia.
  - apply (in_uw_testbit (n - 1)); [unfold in_uw; lia|done].
Qed.

Lemma ReinterpretAsSigned_uw tw v :
  1 <= tw -> in_sw tw v -> ByteReader.ReinterpretAsSigned tw (uw tw v) = v.
Proof.
  intros Htw Hv. unfold ByteReader.ReinterpretAsSigned.
  rewrite has_bits_pow2, uw_testbit, bool_decide_true by lia. cbn.
  rewrite (in_sw_testbit tw) by (done || lia). case_bool_decide as Hneg.
  - apply Z.bits_inj'; intros i Hi.
    rewrite Z.lor_spec, Z.land_spec, !uw_testbit, Z.lnot_spec by lia.
    replace (- 2 ^ (tw - 1)) with (Z.lnot (Z.pred (2 ^ (tw - 1)))) by (unfold Z.lnot; lia).
    rewrite Z.lnot_spec, <- Z.ones_equiv, Z.testbit_ones_nonneg by lia.
    destruct (decide (i < tw - 1)) as [Hlt|Hge].
    + rewrite bool_decide_true, Z.pow2_bits_false by lia.
      rewrite (proj2 (Z.ltb_lt _ _)) by lia. cbn.
      by rewrite andb_true_r, orb_false_r.
    + rewrite (in_sw_testbit tw v), (bool_decide_true (v < 0)) by (done || lia).
      rewrite (proj2 (Z.ltb_ge _ _)) by lia. cbn. by rewrite orb_true_r.
  - apply uw_small. unfold in_sw, in_uw in *. split; [lia|].
    apply Z.lt_le_trans with (2 ^ (tw - 1)); [lia|]. apply Z.pow_le_mono_r; lia.
Qed.

Lemma SignExtend_uw tw (B : nat) v :
  (1 <= B)%nat -> tw mod 8 = 0 -> 8 * Z.of_nat B < tw -> 8 * Z.of_nat B < 32 ->
  in_sw (8 * Z.of_nat B) v ->
  ByteReader.SignExtend tw B (uw (8 * Z.of_nat B) v) = Ok (uw tw v).
Proof.
  intros HB Htw Hlt H32 Hv. unfold ByteReader.SignExtend.
  change 128 with (2 ^ 7). rewrite has_bits_pow2, uw_testbit, Z.shiftr_spec, uw_testbit by lia.
  rewrite !bool_decide_true, (in_sw_testbit (8 * Z.of_nat B)) by (done || lia). cbn [andb].
  assert (Hin : forall i, 8 * Z.of_nat B <= i -> Z.testbit v i = bool_decide (v < 0)).
  { intros i Hi. apply (in_sw_testbit (8 * Z.of_nat B)); [done|lia..]. }
  case_bool_decide as Hneg; cbn [andb].
  - rewrite Z.mod_small by (Z.div_mod_to_equations; lia).
    rewrite (proj2 (Z.leb_gt _ _)) by lia. f_equal.
    apply Z.bits_inj'; intros i Hi.
    rewrite Z.shiftl_1_l, Z.sub_1_r, <- Z.ones_equiv, (Z.mul_comm (Z.of_nat B)).
    rewrite !uw_testbit by lia.
    case_bool_decide as Htwi; [|done]. cbn [andb].
    rewrite Z.lor_spec, Z.lnot_spec, !uw_testbit, Z.testbit_ones_nonneg by lia.
    rewrite (bool_decide_true (i < tw)) by lia. cbn [andb].
    destruct (decide (i < 8 * Z.of_nat B)).
    + rewrite (proj2 (Z.ltb_lt _ _)), bool_decide_true by lia. done.
    + rewrite (proj2 (Z.ltb_ge _ _)), Hin by lia. done.
  - f_equal. apply Z.bits_inj'; intros i Hi. rewrite !uw_testbit by lia.
    destruct (decide (i < 8 * Z.of_nat B)).
    + by rewrite !bool_decide_true by lia.
    + rewrite Hin by lia. by rewrite !andb_false_r.
Qed.

Lemma uw_uw_le n m v : 0 <= n <= m -> uw n (uw m v) = uw n v.
Proof.
  intros H. apply Z.bits_inj'; intros i Hi. rewrite !uw_testbit by lia.
  case_bool_decide; [|done]. cbn. by rewrite bool_decide_true by lia.
Qed.

(** Reading back a signed integer: the sign survives a narrow encoding
    ([ByteReader<int32_t, 3>], as RTCP report blocks use it). *)
Lemma signed_roundtrip_aux tw (B : nat) d off v :
  bytes d -> (off + B <= length d)%nat -> (1 <= B)%nat ->
  tw mod 8 = 0 -> 8 * Z.of_nat B = tw \/ (8 * Z.of_nat B < tw /\ 8 * Z.of_nat B < 32) ->
  in_sw (8 * Z.of_nat B) v ->
  exists d', ByteWriter.WriteBigEndianSigned tw B d off v = Ok d' /\
    ByteReader.ReadBigEndianSigned tw B d' off = Ok v.
Proof.
  intros Hd Hlen HB Htw Hcase Hv.
  unfold ByteWriter.WriteBigEndianSigned, ByteWriter.ReinterpretAsUnsigned.
  destruct (big_endian_roundtrip tw B d off (uw tw v)) as (d' & Hw & _ & Hr);
    [done|done|lia|].
  exists d'. split; [done|]. unfold ByteReader.ReadBigEndianSigned. rewrite Hr. cbn.
  rewrite uw_uw_le by lia.
  assert (Hsw : in_sw tw v).
  { unfold in_sw in *.
    assert (2 ^ (8 * Z.of_nat B - 1) <= 2 ^ (tw - 1)) by (apply Z.pow_le_mono_r; lia). lia. }
  destruct Hcase as [<-|[Hlt H32]].
  - rewrite (proj2 (Z.ltb_ge _ _)) by (Z.div_mod_to_equations; lia). cbn.
    by rewrite ReinterpretAsSigned_uw by (done || lia).
  - rewrite (proj2 (Z.ltb_lt _ _)) by (Z.div_mod_to_equations; lia).
    rewrite SignExtend_uw by (done || lia). cbn.
    by rewrite ReinterpretAsSigned_uw by (done || lia).
Qed.

(** ** Properties *)

(** Byte I/O round trip: for every width [B] that fits the type,
    [WriteBigEndian] followed by [ReadBigEndian] (and the little-endian pair)
    succeeds inside the buffer, returns the value modulo [2^(8B)], and changes
    exactly the [B] bytes of the window, most (least) significant byte first. *)
Lemma byte_io_roundtrip tw B d off v :
  bytes d -> (off + B <= length d)%nat -> 8 * Z.of_nat B <= tw ->
  (exists d', ByteWriter.WriteBigEndian B d off v = Ok d' /\
     written d d' off B (fun i => B - 1 - i)%nat v /\
     ByteReader.ReadBigEndian tw B d' off = Ok (uw (8 * Z.of_nat B) v)) /\
  (exists d', ByteWriter.WriteLittleEndian B d off v = Ok d' /\
     written d d' off B (fun i => i) v /\
     ByteReader.ReadLittleEndian tw B d' off = Ok (uw (8 * Z.of_nat B) v)).
Proof.
  intros. split; [by apply big_endian_roundtrip|by apply little_endian_roundtrip].
Qed.

(** Signed integers survive a narrow big-endian encoding: a value that
    fits [B] bytes is written and read back unchanged through [SignExtend] and
    [ReinterpretAsSigned], for the full width of the type and for every
    narrower encoding below 32 bits. *)
Theorem signed_roundtrip tw (B : nat) d off v :
  bytes d -> (off + B <= length d)%nat -> (1 <= B)%nat ->
  tw mod 8 = 0 -> 8 * Z.of_nat B = tw \/ (8 * Z.of_nat B < tw /\ 8 * Z.of_nat B < 32) ->
  in_sw (8 * Z.of_nat B) v ->
  exists d', ByteWriter.WriteBigEndianSigned tw B d off v = Ok d' /\
    ByteReader.ReadBigEndianSigned tw B d' off = Ok v.
Proof. apply signed_roundtrip_aux. Qed.

Lemma signed_roundtrip_witness :
  exists d', ByteWriter.WriteBigEndianSigned 32 3 [0; 0; 0; 7] 0 (-5) = Ok d' /\
    ByteReader.ReadBigEndianSigned 32 3 d' 0 = Ok (-5).
Proof.
  apply (signed_roundtrip 32 3 [0; 0; 0; 7] 0 (-5)).
  - repeat constructor; by vm_compute.
  - cbn; lia.
  - lia.
  - reflexivity.
  - right. cbn. lia.
  - unfold in_sw. cbn. lia.
Defined.
