(* ===== verification/SeqNum.v ===== *)
(** * SeqNum: wrapping sequence numbers

    [rtc_base/numerics/mod_ops.h], [rtc_base/numerics/sequence_number_util.h]
    [rtc_base/numerics/sequence_number_unwrapper.h]
    and [modules/include/module_common_types_public.h].  An unsigned type of
    width [w] is [Z] with its wrap-around written out; a template modulus [M]
    is an explicit argument, [M = 0] meaning the natural wrap of the type. *)

From S2P Require Import Prelude.

Module ModOps.

(** [Add<M>] and [Subtract<M>] on [unsigned long]. *)
Definition Add (M a b : Z) : Z :=
  let t := u64 (M - b mod M) in
  let res := u64 (a - t) in
  if a <? t then u64 (res + M) else res.

Definition Subtract (M a b : Z) : Z :=
  let sub := b mod M in
  if a <? sub then u64 (M - (sub - a)) else u64 (a - sub).

(** [ForwardDiff<T, M>] and [ReverseDiff<T, M>]. *)
Definition ForwardDiff (w M a b : Z) : Z :=
  if M =? 0 then uw w (b - a)
  else if a <=? b then uw w (b - a) else uw w (M - (a - b)).

Definition ReverseDiff (w M a b : Z) : Z :=
  if M =? 0 then uw w (a - b)
  else if b <=? a then uw w (a - b) else uw w (M - (b - a)).

(** [MinDiff<T, M>]. *)
Definition MinDiff (w M a b : Z) : Z := Z.min (ForwardDiff w M a b) (ReverseDiff w M a b).

End ModOps.

(** [MinDiff<uint16_t>]. *)
Definition MinDiff16 (a b : Z) : Z := ModOps.MinDiff 16 0 a b.

(** [a - b] for operands of an unsigned type of width [w]: types narrower than
    [int] are promoted and the difference is a signed [int]; wider types wrap. *)
Definition int_sub (w a b : Z) : Z := if w <? 32 then a - b else uw w (a - b).

Module SequenceNumberUtil.

(** [AheadOrAt<T, M>]. *)
Definition AheadOrAt (w M a b : Z) : bool :=
  if M =? 0 then
    let maxDist := (2 ^ w - 1) / 2 + 1 in
    if int_sub w a b =? maxDist then b <? a
    else ModOps.ForwardDiff w 0 b a <? maxDist
  else
    let maxDist := M / 2 in
    if negb (Z.odd M) && (ModOps.MinDiff w M a b =? maxDist) then b <? a
    else ModOps.ForwardDiff w M b a <=? maxDist.

(** [AheadOf<T, M>]. *)
Definition AheadOf (w M a b : Z) : bool := negb (a =? b) && AheadOrAt w M a b.

(** The comparators [AscendingSeqNumComp] and [DescendingSeqNumComp]. *)
Definition AscendingSeqNumComp (w M a b : Z) : bool := AheadOf w M a b.
Definition DescendingSeqNumComp (w M a b : Z) : bool := AheadOf w M b a.

End SequenceNumberUtil.

(** [SeqNumUnwrapper<T, M>].  The unwrapped value is an [int64_t]; a step adds less
    than the range of [T], which is at most 32 bits wide where it is used, so
    that the value stays in range for more than 2^31 steps: it is a [Z]. *)
Module SeqNumUnwrapper.

Record t : Type := mk { last_unwrapped_ : Z; last_value_ : option Z }.

Definition new : t := mk 0 None.

Definition Delta (w M last_value new_value : Z) : Z :=
  let kBackwardAdjustment := if M =? 0 then 2 ^ w - 1 + 1 else M in
  let result := ModOps.ForwardDiff w M last_value new_value in
  if negb (SequenceNumberUtil.AheadOrAt w M new_value last_value) then result - kBackwardAdjustment else result.

Definition Unwrap (w M : Z) (u : t) (value : Z) : Z * t :=
  let last_unwrapped :=
    match last_value_ u with None => value | Some last => last_unwrapped_ u + Delta w M last value end in
  (last_unwrapped, mk last_unwrapped (Some value)).

Definition PeekUnwrap (w M : Z) (u : t) (value : Z) : Z :=
  match last_value_ u with None => value | Some last => last_unwrapped_ u + Delta w M last value end.

Definition Reset (u : t) : t := mk 0 None.

End SeqNumUnwrapper.

(** [IsNewer<U>]. *)
Definition IsNewer (w value prev_value : Z) : bool :=
  let kBreakpoint := Z.shiftr (2 ^ w - 1) 1 + 1 in
  if int_sub w value prev_value =? kBreakpoint then prev_value <? value
  else negb (value =? prev_value) && (uw w (value - prev_value) <? kBreakpoint).

Definition IsNewerSequenceNumber (sequence_number prev_sequence_number : Z) : bool :=
  IsNewer 16 sequence_number prev_sequence_number.

Definition LatestSequenceNumber (sequence_number1 sequence_number2 : Z) : Z :=
  if IsNewerSequenceNumber sequence_number1 sequence_number2
  then sequence_number1 else sequence_number2.

Definition IsNewerTimestamp (timestamp prev_timestamp : Z) : bool := IsNewer 32 timestamp prev_timestamp.

Definition LatestTimestamp (timestamp1 timestamp2 : Z) : Z :=
  if IsNewerTimestamp timestamp1 timestamp2 then timestamp1 else timestamp2.

(** ** Proofs *)

Ltac modsplit :=
  repeat match goal with
  | |- context [Z.eqb ?a ?b] => destruct (Z.eqb_spec a b)
  | |- context [Z.ltb ?a ?b] => destruct (Z.ltb_spec a b)
  | |- context [Z.leb ?a ?b] => destruct (Z.leb_spec a b)
  end.

(** Reduction modulo a power of two, as a case split on values within one
    period of the range. *)
Lemma uw_period w z :
  0 <= w -> - 2 ^ w <= z < 2 * 2 ^ w ->
  (0 <= z < 2 ^ w /\ uw w z = z) \/ (z < 0 /\ uw w z = z + 2 ^ w) \/
  (2 ^ w <= z /\ uw w z = z - 2 ^ w).
Proof.
  intros Hw Hz. unfold uw. assert (0 < 2 ^ w) by (apply Z.pow_pos_nonneg; lia).
  destruct (decide (z < 0)); [right; left|destruct (decide (z < 2 ^ w)); [left|right; right]].
  - split; [done|]. rewrite <- (Z.mod_add z 1) by lia. rewrite Z.mod_small; lia.
  - split; [lia|]. apply Z.mod_small. lia.
  - split; [lia|]. rewrite <- (Z.mod_add z (-1)) by lia. rewrite Z.mod_small; lia.
Qed.

Ltac period w z :=
  let H := fresh "P" in
  destruct (uw_period w z) as [[? H]|[[? H]|[? H]]]; [lia|lia|..]; rewrite ?H in *.

Lemma half_pow w : 1 <= w -> 2 ^ w = 2 * 2 ^ (w - 1).
Proof. intros. rewrite <- Z.pow_succ_r by lia. f_equal. lia. Qed.

Lemma breakpoint_eq w : 1 <= w -> Z.shiftr (2 ^ w - 1) 1 + 1 = 2 ^ (w - 1).
Proof.
  intros. rewrite Z.shiftr_div_pow2, (half_pow w) by lia. change (2 ^ 1) with 2.
  Z.div_mod_to_equations. lia.
Qed.

(** [IsNewer] reads the half circle in front of [prev_value], the antipode
    being decided by magnitude. *)
Lemma IsNewer_spec w a b :
  1 <= w -> in_uw w a -> in_uw w b ->
  IsNewer w a b = true <->
  (0 < uw w (a - b) < 2 ^ (w - 1)) \/ (uw w (a - b) = 2 ^ (w - 1) /\ b < a).
Proof.
  intros Hw Ha Hb. unfold IsNewer, int_sub. rewrite breakpoint_eq by lia.
  pose proof (half_pow w Hw). assert (0 < 2 ^ (w - 1)) by (apply Z.pow_pos_nonneg; lia).
  unfold in_uw in Ha, Hb.
  destruct (Z.ltb_spec w 32); period w (a - b); modsplit; cbn; lia.
Qed.

(** Exactly one of two distinct sequence numbers is the newer one. *)
Lemma IsNewer_total w a b :
  1 <= w -> in_uw w a -> in_uw w b -> a <> b -> IsNewer w a b = negb (IsNewer w b a).
Proof.
  intros Hw Ha Hb Hne. pose proof (IsNewer_spec w a b Hw Ha Hb) as Sab.
  pose proof (IsNewer_spec w b a Hw Hb Ha) as Sba.
  pose proof (half_pow w Hw). assert (0 < 2 ^ (w - 1)) by (apply Z.pow_pos_nonneg; lia).
  unfold in_uw in Ha, Hb. period w (a - b); period w (b - a);
  destruct (IsNewer w a b), (IsNewer w b a); cbn; try done; lia.
Qed.

Lemma IsNewer_irrefl w a : IsNewer w a a = false.
Proof.
  unfold IsNewer. rewrite Z.ltb_irrefl, Z.eqb_refl. cbn. by destruct (_ =? _).
Qed.

(** Position of [s] on the circle, seen from [base]. *)
Definition rel (base s : Z) : Z := u16 (s - base).

(** Inside a half-circle window the comparison is the order of positions. *)
Lemma IsNewer_window base a b :
  is_u16 a -> is_u16 b -> is_u16 base -> rel base a < 2 ^ 15 -> rel base b < 2 ^ 15 ->
  IsNewerSequenceNumber a b = (rel base b <? rel base a).
Proof.
  intros Ha Hb Hbase. unfold IsNewerSequenceNumber, rel.
  pose proof (IsNewer_spec 16 a b ltac:(lia) Ha Hb) as S.
  change (16 - 1) with 15 in S. change (2 ^ 15) with 32768 in *.
  unfold in_uw in Ha, Hb, Hbase. change (2 ^ 16) with 65536 in *.
  intros Hwa Hwb.
  destruct (IsNewer 16 a b); symmetry; [apply Z.ltb_lt|apply Z.ltb_ge];
  revert S Hwa Hwb; period 16 (a - b); period 16 (a - base); period 16 (b - base);
  change (2 ^ 16) with 65536 in *; lia.
Qed.

Lemma rel_inj base a b :
  is_u16 a -> is_u16 b -> rel base a = rel base b -> a = b.
Proof.
  unfold rel, uw, in_uw. intros Ha Hb H.
  Z.div_mod_to_equations. lia.
Qed.

Lemma MinDiff16_comm a b : MinDiff16 a b = MinDiff16 b a.
Proof. unfold MinDiff16, ModOps.MinDiff, ModOps.ForwardDiff, ModOps.ReverseDiff. cbn. apply Z.min_comm. Qed.

(** [MinDiff<uint16_t>] is the length of the shorter arc. *)
Lemma MinDiff16_arc a b :
  MinDiff16 a b = Z.min (u16 (b - a)) (65536 - u16 (b - a)) \/ (u16 (b - a) = 0 /\ MinDiff16 a b = 0).
Proof.
  unfold MinDiff16, ModOps.MinDiff, ModOps.ForwardDiff, ModOps.ReverseDiff. cbn.
  unfold uw. change (2 ^ 16) with 65536. Z.div_mod_to_equations. lia.
Qed.

Lemma mod_add_cases M x :
  0 < M -> - M <= x < 2 * M ->
  (0 <= x < M /\ x mod M = x) \/ (x < 0 /\ x mod M = x + M) \/ (M <= x /\ x mod M = x - M).
Proof.
  intros HM Hx.
  destruct (decide (x < 0)); [right; left|destruct (decide (x < M)); [left|right; right]].
  - split; [done|]. rewrite <- (Z.mod_add x 1) by lia. rewrite Z.mod_small; lia.
  - split; [lia|]. apply Z.mod_small. lia.
  - split; [lia|]. rewrite <- (Z.mod_add x (-1)) by lia. rewrite Z.mod_small; lia.
Qed.

(** Modular arithmetic helpers: for a modulus that fits [unsigned long],
    [Add<M>] and [Subtract<M>] compute addition and subtraction modulo [M]
    without intermediate overflow, and [ForwardDiff]/[ReverseDiff] are the two
    arcs between the operands, so that walking forward from [a] by
    [ForwardDiff a b] reaches [b]. *)
Theorem mod_ops_correct M a b :
  0 < M -> M < 2 ^ 63 -> 0 <= a < M -> 0 <= b < 2 ^ 63 ->
  ModOps.Add M a b = (a + b) mod M /\
  ModOps.Subtract M a b = (a - b) mod M /\
  (b < M ->
   ModOps.Add M a (ModOps.ForwardDiff 64 M a b) = b /\
   ModOps.Subtract M a (ModOps.ReverseDiff 64 M a b) = b).
Proof.
  intros HM HM63 Ha Hb.
  assert (HA : forall x, 0 <= x < 2 ^ 63 -> ModOps.Add M a x = (a + x) mod M).
  { intros x Hx. unfold ModOps.Add.
    pose proof (Z.mod_pos_bound x M HM) as Hm. rewrite <- (Z.add_mod_idemp_r a x) by lia.
    set (r := x mod M) in *. clearbody r.
    rewrite (uw_small 64 (M - r)) by (unfold in_uw; lia).
    destruct (mod_add_cases M (a + r)) as [[? ->]|[[? _]|[? ->]]]; [lia|lia| |lia|].
    - destruct (Z.ltb_spec a (M - r)); [|lia].
      rewrite <- (Z.mod_add (a - (M - r)) 1 (2 ^ 64)) at 1 by lia.
      rewrite (Z.mod_small (a - (M - r) + 1 * 2 ^ 64)) by lia.
      replace (a - (M - r) + 1 * 2 ^ 64 + M) with (a + r + 1 * 2 ^ 64) by lia.
      unfold uw. rewrite Z.mod_add by lia. apply Z.mod_small. lia.
    - destruct (Z.ltb_spec a (M - r)); [lia|]. rewrite uw_small by (unfold in_uw; lia). lia. }
  assert (HS : forall x, 0 <= x < 2 ^ 63 -> ModOps.Subtract M a x = (a - x) mod M).
  { intros x Hx. unfold ModOps.Subtract.
    pose proof (Z.mod_pos_bound x M HM) as Hm. rewrite <- (Zminus_mod_idemp_r a x).
    set (r := x mod M) in *. clearbody r.
    destruct (mod_add_cases M (a - r)) as [[? ->]|[[? ->]|[? _]]]; [lia|lia| | |lia];
      destruct (Z.ltb_spec a r); try lia; rewrite uw_small by (unfold in_uw; lia); lia. }
  split_and!; [by apply HA|by apply HS|]. intros HbM.
  unfold ModOps.ForwardDiff, ModOps.ReverseDiff. rewrite (proj2 (Z.eqb_neq M 0)) by lia.
  split.
  - destruct (Z.leb_spec a b).
    + rewrite (uw_small 64) by (unfold in_uw; lia). rewrite HA by lia.
      rewrite Z.mod_small by lia. lia.
    + rewrite (uw_small 64) by (unfold in_uw; lia). rewrite HA by lia.
      replace (a + (M - (a - b))) with (b + 1 * M) by lia. rewrite Z.mod_add by lia.
      apply Z.mod_small. lia.
  - destruct (Z.leb_spec b a).
    + rewrite (uw_small 64) by (unfold in_uw; lia). rewrite HS by lia.
      rewrite Z.mod_small by lia. lia.
    + rewrite (uw_small 64) by (unfold in_uw; lia). rewrite HS by lia.
      replace (a - (M - (b - a))) with (b + (-1) * M) by lia. rewrite Z.mod_add by lia.
      apply Z.mod_small. lia.
Qed.

Lemma mod_ops_correct_witness :
  ModOps.Add 100 70 45 = 15 /\ ModOps.Subtract 100 10 45 = 65.
Proof.
  destruct (mod_ops_correct 100 70 45) as (H1 & _ & _); [lia..|].
  destruct (mod_ops_correct 100 10 45) as (_ & H2 & _); [lia..|].
  split; [exact H1|exact H2].
Defined.

Lemma AheadOf_IsNewer a b :
  is_u16 a -> is_u16 b -> SequenceNumberUtil.AheadOf 16 0 a b = IsNewerSequenceNumber a b.
Proof.
  intros Ha Hb. unfold SequenceNumberUtil.AheadOf, SequenceNumberUtil.AheadOrAt,
    IsNewerSequenceNumber, IsNewer, int_sub, ModOps.ForwardDiff.
  cbn [Z.eqb]. change (16 <? 32) with true. cbv iota.
  change ((2 ^ 16 - 1) / 2 + 1) with 32768. change (Z.shiftr (2 ^ 16 - 1) 1 + 1) with 32768.
  unfold in_uw in *. modsplit; cbn; try done; lia.
Qed.

(** Sequence-number comparison: of two distinct 16-bit sequence numbers
    exactly one is newer; the comparison is the one [AheadOf<uint16_t>] makes;
    and on any half-circle window it is the strict order of the distances from
    the window's base, so that sorting by it is well defined there. *)
Lemma IsNewerSequenceNumber_order a b base :
  is_u16 a -> is_u16 b -> is_u16 base ->
  (a <> b -> IsNewerSequenceNumber a b = negb (IsNewerSequenceNumber b a)) /\
  SequenceNumberUtil.AheadOf 16 0 a b = IsNewerSequenceNumber a b /\
  (rel base a < 2 ^ 15 -> rel base b < 2 ^ 15 ->
   IsNewerSequenceNumber a b = (rel base b <? rel base a)).
Proof.
  intros Ha Hb Hbase. split_and!.
  - intros. by apply IsNewer_total.
  - by apply AheadOf_IsNewer.
  - by apply IsNewer_window.
Qed.

(** The header's warning ("doesn't fulfill strict weak ordering requirements")
    is real: outside a half window the relation has cycles. *)
Example IsNewer_cycle :
  IsNewerSequenceNumber 30000 10000 = true /\ IsNewerSequenceNumber 50000 30000 = true /\
  IsNewerSequenceNumber 10000 50000 = true.
Proof. by vm_compute. Qed.

(** ** Unwrapping *)

Lemma max_dist_eq w : 1 <= w -> (2 ^ w - 1) / 2 + 1 = 2 ^ (w - 1).
Proof. intros. rewrite <- (breakpoint_eq w) by lia. by rewrite Z.shiftr_div_pow2 by lia. Qed.

Lemma uw_sub_uw w x y : 0 <= w -> uw w (uw w y - uw w x) = uw w (y - x).
Proof. intros. unfold uw. by rewrite <- Zminus_mod. Qed.

(** A step of less than half the range is recognised, forwards or backwards. *)
Lemma Delta_exact w x y :
  1 <= w -> Z.abs (y - x) < 2 ^ (w - 1) -> SeqNumUnwrapper.Delta w 0 (uw w x) (uw w y) = y - x.
Proof.
  intros Hw Hd. unfold SeqNumUnwrapper.Delta, SequenceNumberUtil.AheadOrAt, ModOps.ForwardDiff, int_sub.
  cbn [Z.eqb]. rewrite max_dist_eq, uw_sub_uw by lia. pose proof (half_pow w Hw).
  pose proof (uw_sub_uw w x y ltac:(lia)) as E.
  pose proof (uw_range w x ltac:(lia)) as Hx. pose proof (uw_range w y ltac:(lia)) as Hy. unfold in_uw in Hx, Hy.
  set (a := uw w x) in *. set (b := uw w y) in *. clearbody a b.
  destruct (Z.ltb_spec w 32); period w (y - x); period w (b - a); modsplit; cbn [negb]; lia.
Qed.

(** The unwrapped values of a list. *)
Fixpoint unwrapped (w : Z) (u : SeqNumUnwrapper.t) (values : list Z) : list Z :=
  match values with
  | [] => []
  | value :: values => let '(x, u) := SeqNumUnwrapper.Unwrap w 0 u value in x :: unwrapped w u values
  end.

(** Neighbours less than half the range apart. *)
Fixpoint close_steps (w x : Z) (ys : list Z) : Prop :=
  match ys with [] => True | y :: ys => Z.abs (y - x) < 2 ^ (w - 1) /\ close_steps w y ys end.

Lemma unwrapped_from w x k ys :
  1 <= w -> close_steps w x ys ->
  unwrapped w (SeqNumUnwrapper.mk (x + k) (Some (uw w x))) (map (uw w) ys) = map (fun y => y + k) ys.
Proof.
  intros Hw. revert x. induction ys as [|y ys IH]; intros x Hs; [done|]. destruct Hs as [Hy Hs]. cbn.
  rewrite Delta_exact by done. replace (x + k + (y - x)) with (y + k) by lia. by rewrite IH.
Qed.

(** A new unwrapper follows numbers that wrap: from the wrapped values of positions
    whose neighbours are less than half the range apart, in either direction, it gets
    back the positions, counted from the first value. *)
Lemma Unwrap_follows w x ys :
  1 <= w -> close_steps w x ys ->
  unwrapped w SeqNumUnwrapper.new (map (uw w) (x :: ys)) = map (fun y => y + (uw w x - x)) (x :: ys).
Proof.
  intros Hw Hs. cbn [map unwrapped SeqNumUnwrapper.Unwrap SeqNumUnwrapper.new SeqNumUnwrapper.last_value_].
  replace (x + (uw w x - x)) with (uw w x) by lia. f_equal.
  pose proof (unwrapped_from w x (uw w x - x) ys Hw Hs) as E. by replace (x + (uw w x - x)) with (uw w x) in E by lia.
Qed.
