(* ===== verification/PacketMasks.v ===== *)
(** * PacketMasks: [modules/rtp_rtcp/source/forward_error_correction_internal.cc]

    Which media packets each FEC packet protects.  A packet mask is a flat byte
    array, one row per FEC packet, [PacketMaskSize] bytes per row; bit 7 of a
    row's first byte is the first media packet.  The functions that fill a
    caller-supplied array thread it through explicitly, every access checked. *)

From S2P Require Import Prelude FecTables.

Definition kUlpfecMaxMediaPackets : nat := 48.
Definition kUlpfecPacketMaskSizeLBitClear : nat := 2.
Definition kUlpfecPacketMaskSizeLBitSet : nat := 6.
Definition kFECPacketMaskMaxSize : nat := 288.

(** [FecMaskType] of [modules/include/module_fec_types.h]. *)
Inductive FecMaskType : Set := kFecMaskRandom | kFecMaskBursty.

#[export] Instance FecMaskType_eq_dec : EqDecision FecMaskType.
Proof. solve_decision. Defined.

Inductive ProtectionMode : Set := kModeNoOverlap | kModeOverlap | kModeBiasFirstPacket.

#[export] Instance ProtectionMode_eq_dec : EqDecision ProtectionMode.
Proof. solve_decision. Defined.

(** [PacketMaskSize]: 2 bytes cover up to 16 sequence numbers, 6 bytes 48. *)
Definition PacketMaskSize (num_sequence_numbers : nat) : nat :=
  if decide (8 * kUlpfecPacketMaskSizeLBitClear < num_sequence_numbers)%nat
  then kUlpfecPacketMaskSizeLBitSet
  else kUlpfecPacketMaskSizeLBitClear.

(** [FitSubMask]: copies [sub_mask] into [packet_mask + base], widening rows. *)
Definition FitSubMask (num_mask_bytes num_sub_mask_bytes num_rows : nat)
    (sub_mask packet_mask : list Z) (base : nat) : res (list Z) :=
  if decide (num_mask_bytes = num_sub_mask_bytes) then
    memcpy packet_mask base sub_mask 0 (num_rows * num_sub_mask_bytes)
  else
    foldM (fun pm i =>
      foldM (fun pm j =>
        let! b := buf_get sub_mask (i * num_sub_mask_bytes + j) in
        buf_set pm (base + i * num_mask_bytes + j) b)
      (seq 0 num_sub_mask_bytes) pm)
    (seq 0 num_rows) packet_mask.

(** The inner loop of [ShiftFitSubMask], from the last byte of a row towards
    the first: [j] counts down from [res_mask_bytes - 1] to 1. *)
Fixpoint ShiftFitRow (num_bit_shifts : Z) (j : nat) (sub_mask packet_mask : list Z)
    (pkt_mask_idx pkt_mask_idx2 : nat) : res (list Z) :=
  match j with
  | O =>
      let! cur := buf_get sub_mask pkt_mask_idx2 in
      buf_set packet_mask pkt_mask_idx (Z.shiftr cur num_bit_shifts)
  | S j' =>
      let! cur := buf_get sub_mask pkt_mask_idx2 in
      let! prev := buf_get sub_mask (pkt_mask_idx2 - 1) in
      let shift_right_curr_byte := u8 (Z.shiftr cur num_bit_shifts) in
      let shift_left_prev_byte := u8 (Z.shiftl prev (8 - num_bit_shifts)) in
      let! packet_mask :=
        buf_set packet_mask pkt_mask_idx
                (Z.lor shift_right_curr_byte shift_left_prev_byte) in
      ShiftFitRow num_bit_shifts j' sub_mask packet_mask
                  (pkt_mask_idx - 1) (pkt_mask_idx2 - 1)
  end.

(** [ShiftFitSubMask]. *)
Definition ShiftFitSubMask (num_mask_bytes res_mask_bytes num_column_shift end_row : nat)
    (sub_mask packet_mask : list Z) : res (list Z) :=
  let num_bit_shifts := Z.of_nat (num_column_shift mod 8) in
  let num_byte_shifts := (num_column_shift / 8)%nat in
  foldM (fun pm i =>
    let pkt_mask_idx := (i * num_mask_bytes + res_mask_bytes - 1 + num_byte_shifts)%nat in
    let pkt_mask_idx2 :=
      ((i - num_column_shift) * res_mask_bytes + res_mask_bytes - 1)%nat in
    let! pm :=
      if decide (res_mask_bytes < num_mask_bytes)%nat then
        let! last := buf_get sub_mask pkt_mask_idx2 in
        buf_set pm (pkt_mask_idx + 1) (Z.shiftl last (8 - num_bit_shifts))
      else Ok pm in
    ShiftFitRow num_bit_shifts (res_mask_bytes - 1) sub_mask pm pkt_mask_idx pkt_mask_idx2)
  (seq num_column_shift (end_row - num_column_shift)) packet_mask.

(** [LookUpInFecTable]: [entry] is the pointer, as an offset into [table]. *)
Definition skip_data (entry_size_increment : nat) (count entry : nat) : nat :=
  foldl (fun entry j => entry + entry_size_increment * (j + 1))%nat entry (seq 0 count).

Definition LookUpInFecTable (table : list Z) (media_packet_index fec_index : nat)
    : res (list Z) :=
  let! (entry, entry_size_increment) :=
    foldM (fun '(entry, inc) i =>
      let inc := if decide (i = 16%nat) then 6%nat else inc in
      let! count := buf_get table entry in
      Ok (skip_data inc (Z.to_nat count) (entry + 1)%nat, inc))
    (seq 0 media_packet_index) (1%nat, 2%nat) in
  let entry_size_increment :=
    if decide (media_packet_index = 16%nat) then 6%nat else entry_size_increment in
  let entry := skip_data entry_size_increment fec_index (entry + 1) in
  let size := (entry_size_increment * (fec_index + 1))%nat in
  if decide (entry + size <= length table)%nat
  then Ok (take size (drop entry table)) else Fault OutOfBounds.

(** One byte of the interleaved mask generated at run time: bit [7 - b] of
    byte [col] is media packet [8 * col + b]. *)
Definition interleaved_byte (num_media_packets num_fec_packets row col : nat) : Z :=
  let bit b v :=
    if decide ((col * 8 + b) mod num_fec_packets = row /\ col * 8 + b < num_media_packets)%nat
    then v else 0x00 in
  Z.lor (Z.lor (Z.lor (Z.lor (Z.lor (Z.lor (Z.lor
    (bit 0%nat 0x80) (bit 1%nat 0x40)) (bit 2%nat 0x20)) (bit 3%nat 0x10))
    (bit 4%nat 0x08)) (bit 5%nat 0x04)) (bit 6%nat 0x02)) (bit 7%nat 0x01).

(** [PacketMaskTable::LookUp]. *)
Definition LookUp (table_ : list Z) (num_media_packets num_fec_packets : nat)
    : res (list Z) :=
  if decide (num_media_packets <= 12)%nat then
    LookUpInFecTable table_ (num_media_packets - 1) (num_fec_packets - 1)
  else
    let mask_length := PacketMaskSize num_media_packets in
    let! fec_packet_mask_ :=
      foldM (fun m row =>
        foldM (fun m col =>
          buf_set m (row * mask_length + col)
                  (interleaved_byte num_media_packets num_fec_packets row col))
        (seq 0 mask_length) m)
      (seq 0 num_fec_packets) (replicate kFECPacketMaskMaxSize 0) in
    Ok (take (num_fec_packets * mask_length) fec_packet_mask_).

(** [PacketMaskTable::PickTable] (the constructor stores its result). *)
Definition PickTable (fec_mask_type : FecMaskType) (num_media_packets : nat) : list Z :=
  if decide (fec_mask_type <> kFecMaskRandom /\
             Z.of_nat num_media_packets <= default 0 (head kPacketMaskBurstyTbl))
  then kPacketMaskBurstyTbl else kPacketMaskRandomTbl.

(** [RemainingPacketProtection]. *)
Definition RemainingPacketProtection
    (num_media_packets num_fec_remaining num_fec_for_imp_packets num_mask_bytes : nat)
    (mode : ProtectionMode) (packet_mask table_ : list Z) : res (list Z) :=
  match mode with
  | kModeNoOverlap =>
      let res_mask_bytes := PacketMaskSize (num_media_packets - num_fec_for_imp_packets) in
      let end_row := (num_fec_for_imp_packets + num_fec_remaining)%nat in
      let! packet_mask_sub_21 :=
        LookUp table_ (num_media_packets - num_fec_for_imp_packets) num_fec_remaining in
      ShiftFitSubMask num_mask_bytes res_mask_bytes num_fec_for_imp_packets end_row
                      packet_mask_sub_21 packet_mask
  | _ =>
      let! packet_mask_sub_22 := LookUp table_ num_media_packets num_fec_remaining in
      let! packet_mask :=
        FitSubMask num_mask_bytes num_mask_bytes num_fec_remaining packet_mask_sub_22
                   packet_mask (num_fec_for_imp_packets * num_mask_bytes) in
      if decide (mode = kModeBiasFirstPacket) then
        foldM (fun pm i =>
          let pkt_mask_idx := (i * num_mask_bytes)%nat in
          let! b := buf_get pm pkt_mask_idx in
          buf_set pm pkt_mask_idx (Z.lor b (Z.shiftl 1 7)))
        (seq 0 num_fec_remaining) packet_mask
      else Ok packet_mask
  end.

(** [ImportantPacketProtection]. *)
Definition ImportantPacketProtection
    (num_fec_for_imp_packets num_imp_packets num_mask_bytes : nat)
    (packet_mask table_ : list Z) : res (list Z) :=
  let num_imp_mask_bytes := PacketMaskSize num_imp_packets in
  let! packet_mask_sub_1 := LookUp table_ num_imp_packets num_fec_for_imp_packets in
  FitSubMask num_mask_bytes num_imp_mask_bytes num_fec_for_imp_packets packet_mask_sub_1
             packet_mask 0.

(** [SetProtectionAllocation]: [0.5f * n] truncated to [int] is [n / 2]. *)
Definition SetProtectionAllocation
    (num_media_packets num_fec_packets num_imp_packets : nat) : nat :=
  let max_num_fec_for_imp := (num_fec_packets / 2)%nat in
  let num_fec_for_imp_packets :=
    if decide (num_imp_packets < max_num_fec_for_imp)%nat
    then num_imp_packets else max_num_fec_for_imp in
  if decide (num_fec_packets = 1 /\ 2 * num_imp_packets < num_media_packets)%nat
  then 0%nat else num_fec_for_imp_packets.

(** [UnequalProtectionMask]; the mode is a local constant, [kModeOverlap]. *)
Definition UnequalProtectionMask
    (num_media_packets num_fec_packets num_imp_packets num_mask_bytes : nat)
    (packet_mask table_ : list Z) : res (list Z) :=
  let mode := kModeOverlap in
  let num_fec_for_imp_packets :=
    if decide (mode <> kModeBiasFirstPacket)
    then SetProtectionAllocation num_media_packets num_fec_packets num_imp_packets
    else 0%nat in
  let num_fec_remaining := (num_fec_packets - num_fec_for_imp_packets)%nat in
  let! packet_mask :=
    if decide (0 < num_fec_for_imp_packets)%nat
    then ImportantPacketProtection num_fec_for_imp_packets num_imp_packets num_mask_bytes
                                   packet_mask table_
    else Ok packet_mask in
  if decide (0 < num_fec_remaining)%nat
  then RemainingPacketProtection num_media_packets num_fec_remaining
         num_fec_for_imp_packets num_mask_bytes mode packet_mask table_
  else Ok packet_mask.

(** [GeneratePacketMasks]. *)
Definition GeneratePacketMasks
    (num_media_packets num_fec_packets num_imp_packets : nat)
    (use_unequal_protection : bool) (table_ packet_mask : list Z) : res (list Z) :=
  let num_mask_bytes := PacketMaskSize num_media_packets in
  if negb use_unequal_protection || (num_imp_packets =? 0)%nat then
    let! mask := LookUp table_ num_media_packets num_fec_packets in
    memcpy packet_mask 0 mask 0 (length mask)
  else
    UnequalProtectionMask num_media_packets num_fec_packets num_imp_packets
                          num_mask_bytes packet_mask table_.

(** [InsertZeroColumns]. *)
Definition InsertZeroColumns (num_zeros : nat) (new_mask : list Z)
    (new_mask_bytes num_fec_packets new_bit_index : nat) : res (list Z) :=
  foldM (fun m row =>
    let new_byte_index := (row * new_mask_bytes + new_bit_index / 8)%nat in
    let max_shifts := (7 - new_bit_index mod 8)%nat in
    let! b := buf_get m new_byte_index in
    buf_set m new_byte_index (Z.shiftl b (Z.of_nat (Nat.min num_zeros max_shifts))))
  (seq 0 num_fec_packets) new_mask.

(** [CopyColumn]: moves one bit column from [old_mask] to [new_mask]. *)
Definition CopyColumn (new_mask : list Z) (new_mask_bytes : nat) (old_mask : list Z)
    (old_mask_bytes num_fec_packets new_bit_index old_bit_index : nat)
    : res (list Z * list Z) :=
  let! _ := rtc_check (bool_decide (new_bit_index < 8 * new_mask_bytes)%nat) in
  foldM (fun '(nm, om) row =>
    let new_byte_index := (row * new_mask_bytes + new_bit_index / 8)%nat in
    let old_byte_index := (row * old_mask_bytes + old_bit_index / 8)%nat in
    let! ob := buf_get om old_byte_index in
    let! nb := buf_get nm new_byte_index in
    let! nm := buf_set nm new_byte_index (Z.lor nb (Z.shiftr (Z.land ob 0x80) 7)) in
    let! nm :=
      if decide (new_bit_index mod 8 <> 7)%nat then
        let! nb := buf_get nm new_byte_index in
        buf_set nm new_byte_index (Z.shiftl nb 1)
      else Ok nm in
    let! om := buf_set om old_byte_index (Z.shiftl ob 1) in
    Ok (nm, om))
  (seq 0 num_fec_packets) (new_mask, old_mask).

(** ** Specification: masks as bit matrices *)

(** Bit of row [r], column [c], with [rb] bytes per row. *)
Definition mask_bit (m : list Z) (rb r c : nat) : bool :=
  match m !! (r * rb + c / 8)%nat with
  | Some b => Z.testbit b (7 - Z.of_nat (c mod 8))
  | None => false
  end.

(** The masks of one table, indexed by [k - 1] and [m - 1]. *)
Definition random_masks : list (list (list Z)) :=
  [[kMaskRandom1_1];
   [kMaskRandom2_1; kMaskRandom2_2];
   [kMaskRandom3_1; kMaskRandom3_2; kMaskRandom3_3];
   [kMaskRandom4_1; kMaskRandom4_2; kMaskRandom4_3; kMaskRandom4_4];
   [kMaskRandom5_1; kMaskRandom5_2; kMaskRandom5_3; kMaskRandom5_4; kMaskRandom5_5];
   [kMaskRandom6_1; kMaskRandom6_2; kMaskRandom6_3; kMaskRandom6_4; kMaskRandom6_5; kMaskRandom6_6];
   [kMaskRandom7_1; kMaskRandom7_2; kMaskRandom7_3; kMaskRandom7_4; kMaskRandom7_5; kMaskRandom7_6; kMaskRandom7_7];
   [kMaskRandom8_1; kMaskRandom8_2; kMaskRandom8_3; kMaskRandom8_4; kMaskRandom8_5; kMaskRandom8_6; kMaskRandom8_7; kMaskRandom8_8];
   [kMaskRandom9_1; kMaskRandom9_2; kMaskRandom9_3; kMaskRandom9_4; kMaskRandom9_5; kMaskRandom9_6; kMaskRandom9_7; kMaskRandom9_8; kMaskRandom9_9];
   [kMaskRandom10_1; kMaskRandom10_2; kMaskRandom10_3; kMaskRandom10_4; kMaskRandom10_5; kMaskRandom10_6; kMaskRandom10_7; kMaskRandom10_8; kMaskRandom10_9; kMaskRandom10_10];
   [kMaskRandom11_1; kMaskRandom11_2; kMaskRandom11_3; kMaskRandom11_4; kMaskRandom11_5; kMaskRandom11_6; kMaskRandom11_7; kMaskRandom11_8; kMaskRandom11_9; kMaskRandom11_10; kMaskRandom11_11];
   [kMaskRandom12_1; kMaskRandom12_2; kMaskRandom12_3; kMaskRandom12_4; kMaskRandom12_5; kMaskRandom12_6; kMaskRandom12_7; kMaskRandom12_8; kMaskRandom12_9; kMaskRandom12_10; kMaskRandom12_11; kMaskRandom12_12]].

Definition bursty_masks : list (list (list Z)) :=
  [[kMaskBursty1_1];
   [kMaskBursty2_1; kMaskBursty2_2];
   [kMaskBursty3_1; kMaskBursty3_2; kMaskBursty3_3];
   [kMaskBursty4_1; kMaskBursty4_2; kMaskBursty4_3; kMaskBursty4_4];
   [kMaskBursty5_1; kMaskBursty5_2; kMaskBursty5_3; kMaskBursty5_4; kMaskBursty5_5];
   [kMaskBursty6_1; kMaskBursty6_2; kMaskBursty6_3; kMaskBursty6_4; kMaskBursty6_5; kMaskBursty6_6];
   [kMaskBursty7_1; kMaskBursty7_2; kMaskBursty7_3; kMaskBursty7_4; kMaskBursty7_5; kMaskBursty7_6; kMaskBursty7_7];
   [kMaskBursty8_1; kMaskBursty8_2; kMaskBursty8_3; kMaskBursty8_4; kMaskBursty8_5; kMaskBursty8_6; kMaskBursty8_7; kMaskBursty8_8];
   [kMaskBursty9_1; kMaskBursty9_2; kMaskBursty9_3; kMaskBursty9_4; kMaskBursty9_5; kMaskBursty9_6; kMaskBursty9_7; kMaskBursty9_8; kMaskBursty9_9];
   [kMaskBursty10_1; kMaskBursty10_2; kMaskBursty10_3; kMaskBursty10_4; kMaskBursty10_5; kMaskBursty10_6; kMaskBursty10_7; kMaskBursty10_8; kMaskBursty10_9; kMaskBursty10_10];
   [kMaskBursty11_1; kMaskBursty11_2; kMaskBursty11_3; kMaskBursty11_4; kMaskBursty11_5; kMaskBursty11_6; kMaskBursty11_7; kMaskBursty11_8; kMaskBursty11_9; kMaskBursty11_10; kMaskBursty11_11];
   [kMaskBursty12_1; kMaskBursty12_2; kMaskBursty12_3; kMaskBursty12_4; kMaskBursty12_5; kMaskBursty12_6; kMaskBursty12_7; kMaskBursty12_8; kMaskBursty12_9; kMaskBursty12_10; kMaskBursty12_11; kMaskBursty12_12]].

Definition spec_mask (masks : list (list (list Z))) (k m : nat) : list Z :=
  default [] (masks !! (k - 1)%nat ≫= (fun ms => ms !! (m - 1)%nat)).

(** A mask of [n] rows over [k] media packets is well designed: no bit beyond
    the last packet, no row protects nothing, no packet is left out. *)
Record mask_ok (m : list Z) (rb n k : nat) : Prop := {
  mask_bytes : bytes m;
  mask_length : (n * rb <= length m)%nat;
  mask_in_range : forall r c, (r < n)%nat -> (c < 8 * rb)%nat ->
    mask_bit m rb r c = true -> (c < k)%nat;
  mask_rows : forall r, (r < n)%nat -> exists c, (c < k)%nat /\ mask_bit m rb r c = true;
  mask_cols : forall c, (c < k)%nat -> exists r, (r < n)%nat /\ mask_bit m rb r c = true
}.

Definition mask_okb (m : list Z) (rb n k : nat) : bool :=
  forallb (fun b => (0 <=? b) && (b <? 256)) m &&
  (n * rb <=? length m)%nat &&
  forallb (fun r => forallb (fun c => implb (mask_bit m rb r c) (c <? k)%nat) (seq 0 (8 * rb)))
          (seq 0 n) &&
  forallb (fun r => existsb (fun c => mask_bit m rb r c) (seq 0 k)) (seq 0 n) &&
  forallb (fun c => existsb (fun r => mask_bit m rb r c) (seq 0 n)) (seq 0 k).

Lemma forallb_seq n (f : nat -> bool) :
  forallb f (seq 0 n) = true <-> forall i, (i < n)%nat -> f i = true.
Proof.
  rewrite forallb_forall. split; intros H i Hi; apply H.
  - apply in_seq. lia.
  - apply in_seq in Hi. lia.
Qed.

Lemma existsb_seq n (f : nat -> bool) :
  existsb f (seq 0 n) = true -> exists i, (i < n)%nat /\ f i = true.
Proof.
  rewrite existsb_exists. intros (i & Hi & Hf). exists i. apply in_seq in Hi. split; [lia|done].
Qed.

Lemma mask_okb_sound m rb n k : mask_okb m rb n k = true -> mask_ok m rb n k.
Proof.
  unfold mask_okb. rewrite !andb_true_iff, !forallb_seq.
  intros [[[[Hb Hl] Hr] Hrow] Hcol]. split.
  - apply Forall_forall. intros b Hin. rewrite forallb_forall in Hb.
    apply list_elem_of_In in Hin. specialize (Hb b Hin). unfold in_uw. lia.
  - by apply Nat.leb_le.
  - intros r c Hrn Hc Hbit. specialize (Hr r Hrn). rewrite forallb_seq in Hr.
    specialize (Hr c Hc). rewrite Hbit in Hr. by apply Nat.ltb_lt.
  - intros r Hrn. by apply existsb_seq, Hrow.
  - intros c Hc. by apply existsb_seq, Hcol.
Qed.

(** All pairs [1 <= m <= k <= n]. *)
Definition all_pairs (n : nat) : list (nat * nat) :=
  concat (map (fun k => map (fun m => (k, m)) (seq 1 k)) (seq 1 n)).

Lemma all_pairs_in n k m : (1 <= m <= k)%nat -> (k <= n)%nat -> In (k, m) (all_pairs n).
Proof.
  intros Hm Hk. apply in_concat. exists (map (fun m => (k, m)) (seq 1 k)). split.
  - apply in_map_iff. exists k. split; [done|]. apply in_seq. lia.
  - apply in_map_iff. exists m. split; [done|]. apply in_seq. lia.
Qed.

Lemma check_pairs n (P : nat -> nat -> bool) :
  forallb (fun km => P (fst km) (snd km)) (all_pairs n) = true ->
  forall k m, (1 <= m <= k)%nat -> (k <= n)%nat -> P k m = true.
Proof.
  rewrite forallb_forall. intros H k m Hm Hk. by apply (H (k, m)), all_pairs_in.
Qed.

Definition lookup_checks (table : list Z) (masks : list (list (list Z))) (k m : nat) : bool :=
  match LookUpInFecTable table (k - 1) (m - 1) with
  | Ok mask => bool_decide (mask = spec_mask masks k m /\ length mask = m * 2)%nat && mask_okb mask 2 m k
  | Fault _ => false
  end.

Lemma lookup_checks_random :
  forallb (fun km => lookup_checks kPacketMaskRandomTbl random_masks (fst km) (snd km))
          (all_pairs 12) = true.
Proof. by vm_compute. Qed.

Lemma lookup_checks_bursty :
  forallb (fun km => lookup_checks kPacketMaskBurstyTbl bursty_masks (fst km) (snd km))
          (all_pairs 12) = true.
Proof. by vm_compute. Qed.

Lemma lookup_checks_spec table masks k m :
  lookup_checks table masks k m = true ->
  LookUpInFecTable table (k - 1) (m - 1) = Ok (spec_mask masks k m) /\
  length (spec_mask masks k m) = (m * 2)%nat /\
  mask_ok (spec_mask masks k m) 2 m k.
Proof.
  unfold lookup_checks. destruct (LookUpInFecTable _ _ _) as [mask|]; [|done].
  intros [[-> Hl]%bool_decide_eq_true Hok]%andb_true_iff. split_and!; [done..|].
  by apply mask_okb_sound.
Qed.

(** ** Masks generated at run time *)

Lemma testbit_if (P : Prop) `{!Decision P} v i :
  Z.testbit (if decide P then v else 0) i = bool_decide P && Z.testbit v i.
Proof. case_decide; case_bool_decide; try done. by rewrite Z.bits_0. Qed.

Lemma interleaved_byte_testbit k n r col b :
  (b < 8)%nat ->
  Z.testbit (interleaved_byte k n r col) (7 - Z.of_nat b) =
  bool_decide ((col * 8 + b) mod n = r /\ col * 8 + b < k)%nat.
Proof.
  intros Hb. unfold interleaved_byte. cbv zeta. rewrite !Z.lor_spec, !testbit_if.
  do 8 (destruct b as [|b];
    [cbn [Z.of_nat Pos.of_succ_nat Pos.succ]; testbits; reflexivity|]).
  lia.
Qed.

Lemma interleaved_byte_range k n r col : is_byte (interleaved_byte k n r col).
Proof.
  unfold interleaved_byte. cbv zeta.
  repeat apply lor_in_uw; try lia; case_decide; unfold in_uw; lia.
Qed.

