(* ===== verification/MaskDesign.v ===== *)
(** * MaskDesign: what the packet masks protect

    Theorems about [PacketMasks]: every mask handed to the encoder protects
    every media packet and wastes no FEC packet, whichever of the two tables,
    of the run-time interleaving and of the unequal protection made it; and
    the bursty table recovers every burst it can hope to recover. *)

From S2P Require Import Prelude FecTables PacketMasks.

(** The two tables a [PacketMaskTable] may hold. *)
Inductive valid_table : list Z -> list (list (list Z)) -> Prop :=
| vt_random : valid_table kPacketMaskRandomTbl random_masks
| vt_bursty : valid_table kPacketMaskBurstyTbl bursty_masks.

#[export] Hint Constructors valid_table : core.

Lemma PickTable_valid ty k : exists masks, valid_table (PickTable ty k) masks.
Proof. unfold PickTable. case_decide; eauto. Qed.

Lemma bursty_table k masks :
  (k <= 12)%nat -> valid_table (PickTable kFecMaskBursty k) masks -> masks = bursty_masks.
Proof.
  intros Hk. unfold PickTable. rewrite decide_True.
  - intros Ht. by inversion Ht.
  - split; [done|]. change (default 0 (head kPacketMaskBurstyTbl)) with 12. lia.
Qed.

(** The mask [LookUp] has to return: a tabulated one up to 12 media packets,
    the interleaved one above. *)
Definition lookup_bit (masks : list (list (list Z))) (k m r c : nat) : bool :=
  if decide (k <= 12)%nat then mask_bit (spec_mask masks k m) 2 r c
  else bool_decide (c mod m = r /\ c < k)%nat.

Lemma PacketMaskSize_12 k : (k <= 12)%nat -> PacketMaskSize k = 2%nat.
Proof. intros. unfold PacketMaskSize, kUlpfecPacketMaskSizeLBitClear. case_decide; [lia|done]. Qed.

Lemma PacketMaskSize_cases k :
  (k <= 16 /\ PacketMaskSize k = 2)%nat \/ (16 < k /\ PacketMaskSize k = 6)%nat.
Proof.
  unfold PacketMaskSize, kUlpfecPacketMaskSizeLBitClear, kUlpfecPacketMaskSizeLBitSet.
  case_decide; [right|left]; lia.
Qed.

Lemma PacketMaskSize_fits k : (k <= 48)%nat -> (k <= 8 * PacketMaskSize k)%nat.
Proof. destruct (PacketMaskSize_cases k) as [[? ->]|[? ->]]; lia. Qed.

Lemma PacketMaskSize_mono j k : (j <= k)%nat -> (PacketMaskSize j <= PacketMaskSize k)%nat.
Proof.
  destruct (PacketMaskSize_cases j) as [[? ->]|[? ->]];
    destruct (PacketMaskSize_cases k) as [[? ->]|[? ->]]; lia.
Qed.

Lemma lookup_table_exact table masks k m :
  valid_table table masks -> (1 <= m <= k)%nat -> (k <= 12)%nat ->
  LookUpInFecTable table (k - 1) (m - 1) = Ok (spec_mask masks k m) /\
  length (spec_mask masks k m) = (m * 2)%nat /\
  mask_ok (spec_mask masks k m) 2 m k.
Proof.
  intros Ht Hm Hk. apply lookup_checks_spec.
  destruct Ht;
    [apply (check_pairs 12 _ lookup_checks_random)|apply (check_pairs 12 _ lookup_checks_bursty)];
    done.
Qed.

Lemma div_mod_8 c : (c / 8 * 8 + c mod 8 = c)%nat.
Proof. rewrite (Nat.div_mod_eq c 8) at 3. lia. Qed.

Lemma lookup_interleaved table k m :
  (1 <= m <= k)%nat -> (12 < k <= 48)%nat ->
  exists mask, LookUp table k m = Ok mask /\
    length mask = (m * PacketMaskSize k)%nat /\ bytes mask /\
    forall r c, (r < m)%nat -> (c < 8 * PacketMaskSize k)%nat ->
      mask_bit mask (PacketMaskSize k) r c = bool_decide (c mod m = r /\ c < k)%nat.
Proof.
  intros Hm Hk. unfold LookUp. rewrite decide_False by lia.
  set (rb := PacketMaskSize k).
  assert (m * rb <= 288)%nat as Hrb.
  { subst rb. destruct (PacketMaskSize_cases k) as [[? ->]|[? ->]]; lia. }
  destruct (fill_matrix (replicate kFECPacketMaskMaxSize 0) 0 rb rb m
    (fun r c => interleaved_byte k m r c)) as (d & Hd & Hlen & Hin & _);
    [lia|rewrite length_replicate; unfold kFECPacketMaskMaxSize; lia|].
  cbn [Nat.add] in Hd. rewrite Hd. cbn.
  rewrite length_replicate in Hlen. unfold kFECPacketMaskMaxSize in Hlen.
  assert (forall r c, (r < m)%nat -> (c < rb)%nat ->
    take (m * rb) d !! (r * rb + c)%nat = Some (interleaved_byte k m r c)) as Hget.
  { intros r c Hr Hc. rewrite lookup_take_lt by nia.
    specialize (Hin r c Hr Hc). cbn in Hin. rewrite Hin.
    by rewrite uw_small by apply interleaved_byte_range. }
  eexists; split; [done|]. split_and!.
  - rewrite length_take. lia.
  - apply Forall_lookup_2. intros i b Hi.
    assert (i < m * rb)%nat as Hlt
      by (apply lookup_lt_Some in Hi; rewrite length_take in Hi; lia).
    assert (rb <> 0)%nat as Hnz by (subst rb; destruct (PacketMaskSize_cases k) as [[? ->]|[? ->]]; lia).
    rewrite (Nat.div_mod_eq i rb), (Nat.mul_comm rb) in Hi. rewrite Hget in Hi.
    + injection Hi as <-. apply interleaved_byte_range.
    + apply Nat.Div0.div_lt_upper_bound; lia.
    + by apply Nat.mod_upper_bound.
  - intros r c Hr Hc. unfold mask_bit.
    rewrite Hget by (try apply Nat.Div0.div_lt_upper_bound; lia).
    rewrite interleaved_byte_testbit by (apply Nat.mod_upper_bound; lia).
    by rewrite div_mod_8.
Qed.

Lemma lookup_correct table masks k m :
  valid_table table masks -> (1 <= m <= k)%nat -> (k <= 48)%nat ->
  exists mask, LookUp table k m = Ok mask /\
    length mask = (m * PacketMaskSize k)%nat /\
    mask_ok mask (PacketMaskSize k) m k /\
    forall r c, (r < m)%nat -> (c < 8 * PacketMaskSize k)%nat ->
      mask_bit mask (PacketMaskSize k) r c = lookup_bit masks k m r c.
Proof.
  intros Ht Hm Hk. unfold lookup_bit. case_decide as H12.
  - destruct (lookup_table_exact _ _ _ _ Ht Hm H12) as (Hl & Hlen & Hok).
    exists (spec_mask masks k m). rewrite PacketMaskSize_12 by done. unfold LookUp.
    rewrite decide_True by done. eauto.
  - destruct (lookup_interleaved table k m) as (mask & Hl & Hlen & Hb & Hbit); [lia..|].
    exists mask. split_and!; [done..| |done].
    pose proof (PacketMaskSize_fits k Hk) as Hfit. split; [done|lia| | |].
    + intros r c Hr Hc. rewrite Hbit by done. rewrite bool_decide_eq_true. tauto.
    + intros r Hr. exists r. split; [lia|]. rewrite Hbit by lia.
      apply bool_decide_eq_true. split; [apply Nat.mod_small|]; lia.
    + intros c Hc. exists (c mod m)%nat. split; [apply Nat.mod_upper_bound; lia|].
      rewrite Hbit by (try apply Nat.mod_upper_bound; lia). by apply bool_decide_eq_true.
Qed.

(** ** Fitting a sub-mask into the output mask *)

Lemma bytes_default d i : bytes d -> is_byte (default 0 (d !! i)).
Proof.
  intros Hd. destruct (d !! i) eqn:E; cbn; [by eapply bytes_lookup|unfold in_uw; lia].
Qed.

Lemma FitSubMask_spec rb rbs n sub pm base :
  (rbs <= rb)%nat -> (1 <= rbs)%nat -> bytes sub -> (n * rbs <= length sub)%nat ->
  (base + n * rb <= length pm)%nat ->
  exists pm', FitSubMask rb rbs n sub pm base = Ok pm' /\ length pm' = length pm /\
    (forall r c, (r < n)%nat -> (c < rbs)%nat ->
       pm' !! (base + r * rb + c)%nat = sub !! (r * rbs + c)%nat) /\
    (forall j, (forall r c, (r < n)%nat -> (c < rbs)%nat -> j <> base + r * rb + c)%nat ->
       pm' !! j = pm !! j).
Proof.
  intros Hle Hpos Hb Hsub Hpm. unfold FitSubMask. case_decide as Heq.
  - subst rbs. destruct (memcpy_lookup pm base sub 0 (n * rb)) as (d & -> & Hl & Hin & Hout);
      [lia..|].
    exists d. split_and!; [done..| |].
    + intros r c Hr Hc. rewrite <- Nat.add_assoc, Hin by nia. done.
    + intros j Hj. apply Hout.
      destruct (decide (base <= j < base + n * rb)%nat) as [Hr|]; [|lia]. exfalso.
      apply (Hj ((j - base) / rb)%nat ((j - base) mod rb)%nat).
      * apply Nat.Div0.div_lt_upper_bound; lia.
      * apply Nat.mod_upper_bound; lia.
      * pose proof (Nat.div_mod_eq (j - base) rb). lia.
  - destruct (fill_matrix pm base rb rbs n (fun r c => default 0 (sub !! (r * rbs + c)%nat)))
      as (d & Hd & Hl & Hin & Hout); [lia..|].
    exists d. split_and!; [|done| |done].
    + rewrite <- Hd. apply foldM_ext. intros b r Hr%elem_of_seq.
      apply foldM_ext. intros b' c Hc%elem_of_seq.
      destruct (buf_get_lt sub (r * rbs + c)) as (v & Hv & ->); [nia|].
      by rewrite Hv.
    + intros r c Hr Hc. rewrite Hin by done.
      destruct (buf_get_lt sub (r * rbs + c)) as (v & Hv & _); [nia|].
      rewrite Hv. cbn. rewrite uw_small; [done|]. by eapply bytes_lookup.
Qed.

(** A sub-mask's bits, read through the output mask. *)
Lemma mask_bit_fit rb rbs n sub pm base0 r c :
  (forall r c, (r < n)%nat -> (c < rbs)%nat ->
     pm !! (base0 * rb + r * rb + c)%nat = sub !! (r * rbs + c)%nat) ->
  (r < n)%nat -> (c < 8 * rbs)%nat ->
  mask_bit pm rb (base0 + r) c = mask_bit sub rbs r c.
Proof.
  intros Hget Hr Hc. unfold mask_bit.
  replace ((base0 + r) * rb + c / 8)%nat with (base0 * rb + r * rb + c / 8)%nat by lia.
  rewrite Hget; [done..|]. apply Nat.Div0.div_lt_upper_bound. lia.
Qed.

Lemma mask_bit_zero pm rb r c :
  pm !! (r * rb + c / 8)%nat = Some 0 -> mask_bit pm rb r c = false.
Proof. unfold mask_bit. intros ->. apply Z.bits_0. Qed.

Lemma FitSubMask_bytes rb rbs n sub pm base pm' :
  bytes sub -> bytes pm -> FitSubMask rb rbs n sub pm base = Ok pm' -> bytes pm'.
Proof.
  intros Hs Hp. unfold FitSubMask. case_decide; [by apply memcpy_bytes|].
  apply foldM_preserves; [|done]. intros b r b' _ Hb.
  apply foldM_preserves; [|done]. intros x c x' _ Hx (v & _ & Hset)%bind_ok_inv.
  eapply buf_set_bytes; eassumption.
Qed.

(** ** Unequal protection *)

(** What the mask of [GeneratePacketMasks] has to be, bit by bit: with
    unequal protection the first [t] FEC packets carry the mask of the
    important packets, the others the mask of all packets. *)
Definition generated_bit (masks : list (list (list Z))) (k m imp : nat) (uep : bool)
    (r c : nat) : bool :=
  if negb uep || (imp =? 0)%nat then lookup_bit masks k m r c
  else
    let t := SetProtectionAllocation k m imp in
    if decide (r < t)%nat
    then bool_decide (c < 8 * PacketMaskSize imp)%nat && lookup_bit masks imp t r c
    else lookup_bit masks k (m - t) (r - t) c.

Lemma SetProtectionAllocation_bounds k m imp :
  (1 <= m)%nat -> (SetProtectionAllocation k m imp < m)%nat /\
  (SetProtectionAllocation k m imp <= imp)%nat.
Proof.
  intros Hm. unfold SetProtectionAllocation.
  pose proof (Nat.div_mod_eq m 2). pose proof (Nat.mod_upper_bound m 2).
  repeat case_decide; lia.
Qed.

Lemma lookup_lt_div (rb n r c : nat) : (r < n)%nat -> (c < 8 * rb)%nat -> (r * rb + c / 8 < n * rb)%nat.
Proof.
  intros Hr Hc. assert (c / 8 < rb)%nat by (apply Nat.Div0.div_lt_upper_bound; lia). nia.
Qed.

Lemma PacketMaskSize_pos k : (1 <= PacketMaskSize k)%nat.
Proof. destruct (PacketMaskSize_cases k) as [[_ ->]|[_ ->]]; lia. Qed.

Lemma PacketMaskSize_max k m : (m <= k)%nat -> (k <= 48)%nat -> (m * PacketMaskSize k <= 288)%nat.
Proof. destruct (PacketMaskSize_cases k) as [[? ->]|[? ->]]; lia. Qed.

(** A mask array whose first [n] bytes were cleared, as [EncodeFec] does for
    the rows it is about to use; the rest holds older masks. *)
Record cleared (n : nat) (pm : list Z) : Prop := {
  cleared_length : length pm = kFECPacketMaskMaxSize;
  cleared_bytes : bytes pm;
  cleared_zero : forall i, (i < n)%nat -> pm !! i = Some 0
}.

(** The rows of the important packets, written into a cleared mask. *)
Lemma ImportantPacketProtection_correct table masks imp t rb z :
  cleared (t * rb) z -> valid_table table masks -> (1 <= t <= imp)%nat -> (imp <= 48)%nat ->
  (PacketMaskSize imp <= rb)%nat -> (t * rb <= kFECPacketMaskMaxSize)%nat ->
  exists pm, ImportantPacketProtection t imp rb z table = Ok pm /\
    length pm = kFECPacketMaskMaxSize /\
    forall r c, (r < t)%nat -> (c < 8 * rb)%nat -> mask_bit pm rb r c =
      bool_decide (c < 8 * PacketMaskSize imp)%nat && lookup_bit masks imp t r c.
Proof.
  intros [Hz _ Hzero] Ht Htm Himp Hrb Hsize. unfold ImportantPacketProtection.
  destruct (lookup_correct table masks imp t) as (sub & -> & Hls & Hok & Hbits); [done|lia..|].
  cbn [mbind res_bind].
  destruct (FitSubMask_spec rb (PacketMaskSize imp) t sub z 0) as (pm & -> & Hl & Hin & Hout);
    [lia|apply PacketMaskSize_pos|apply Hok|lia|nia|].
  exists pm. split_and!; [done|lia|]. intros r c Hr Hc. case_bool_decide as Hc'; cbn [andb].
  - rewrite <- Hbits by done. by apply (mask_bit_fit rb (PacketMaskSize imp) t sub pm 0 r c).
  - pose proof (lookup_lt_div rb t r c Hr Hc).
    apply mask_bit_zero. rewrite Hout; [by apply Hzero|].
    intros r' c' Hr' Hc'' He. assert (8 * (c / 8) <= c < 8 * (c / 8) + 8)%nat.
    { pose proof (Nat.div_mod_eq c 8). pose proof (Nat.mod_upper_bound c 8). lia. }
    assert (c / 8 < rb)%nat by lia. assert (r = r') by nia. nia.
Qed.

Lemma UnequalProtection_correct table masks k m imp z :
  cleared (m * PacketMaskSize k) z -> valid_table table masks -> (1 <= m <= k)%nat -> (k <= 48)%nat -> (1 <= imp <= k)%nat ->
  exists pm, UnequalProtectionMask k m imp (PacketMaskSize k) z table = Ok pm /\
    length pm = kFECPacketMaskMaxSize /\
    forall r c, (r < m)%nat -> (c < 8 * PacketMaskSize k)%nat ->
      mask_bit pm (PacketMaskSize k) r c = generated_bit masks k m imp true r c.
Proof.
  intros Hz Ht Hm Hk Himp. unfold UnequalProtectionMask, generated_bit.
  rewrite (proj2 (Nat.eqb_neq imp 0)) by lia. cbn [negb orb].
  rewrite (decide_True (P := kModeOverlap <> kModeBiasFirstPacket)) by done.
  destruct (SetProtectionAllocation_bounds k m imp) as [Htm Hti]; [lia|].
  set (t := SetProtectionAllocation k m imp) in *.
  pose proof (PacketMaskSize_max k m ltac:(lia) Hk) as Hmax.
  pose proof (PacketMaskSize_mono imp k ltac:(lia)) as Hmono.
  pose proof (PacketMaskSize_pos k) as Hpos. set (rb := PacketMaskSize k) in *.
  assert (exists pm1,
    (if decide (0 < t)%nat
     then ImportantPacketProtection t imp rb z table else Ok z) = Ok pm1 /\
    length pm1 = 288%nat /\
    forall r c, (r < t)%nat -> (c < 8 * rb)%nat -> mask_bit pm1 rb r c =
      bool_decide (c < 8 * PacketMaskSize imp)%nat && lookup_bit masks imp t r c)
    as (pm1 & -> & Hl1 & Hbit1).
  { case_decide as H0.
    - apply ImportantPacketProtection_correct; unfold kFECPacketMaskMaxSize; try (nia || done).
      destruct Hz as [? ? Hzero]. split; [done..|]. intros i Hi. apply Hzero. nia.
    - eexists. split_and!; [done|apply Hz|intros; lia]. }
  cbn [mbind res_bind]. rewrite (decide_True (P := (0 < m - t)%nat)) by lia.
  unfold RemainingPacketProtection.
  destruct (lookup_correct table masks k (m - t)) as (sub & -> & Hls & Hok & Hbits); [done|lia..|].
  cbn [mbind res_bind].
  destruct (FitSubMask_spec rb rb (m - t) sub pm1 (t * rb)) as (pm & -> & Hl & Hin & Hout);
    [lia|lia|apply Hok|fold rb in Hls; lia|nia|].
  cbn [mbind res_bind]. rewrite decide_False by done.
  exists pm. split_and!; [done|unfold kFECPacketMaskMaxSize; lia|]. intros r c Hr Hc.
  assert (c / 8 < rb)%nat by (apply Nat.Div0.div_lt_upper_bound; lia). case_decide as Hrt.
  - rewrite <- Hbit1 by done. unfold mask_bit. rewrite Hout; [done|].
    intros r' c' Hr' Hc'. nia.
  - replace r with (t + (r - t))%nat at 1 by lia.
    rewrite (mask_bit_fit rb rb (m - t) sub pm t (r - t) c) by (done || lia).
    apply Hbits; [lia|done].
Qed.

Lemma UnequalProtection_bytes table masks k m imp pm pm' :
  valid_table table masks -> (1 <= m <= k)%nat -> (k <= 48)%nat -> (1 <= imp <= k)%nat ->
  bytes pm -> UnequalProtectionMask k m imp (PacketMaskSize k) pm table = Ok pm' -> bytes pm'.
Proof.
  intros Ht Hm Hk Hi Hpm. unfold UnequalProtectionMask.
  rewrite (decide_True (P := kModeOverlap <> kModeBiasFirstPacket)) by done.
  destruct (SetProtectionAllocation_bounds k m imp) as [Htm Hti]; [lia|].
  set (t := SetProtectionAllocation k m imp) in *.
  intros (pm1 & H1 & H2)%bind_ok_inv.
  assert (Hpm1 : bytes pm1).
  { clear H2. revert H1. case_decide; [|congruence]. unfold ImportantPacketProtection.
    destruct (lookup_correct table masks imp t) as (sub & -> & _ & Hok & _); [done|lia..|].
    cbn. eapply FitSubMask_bytes; [apply Hok|done]. }
  revert H2. rewrite decide_True by lia. unfold RemainingPacketProtection.
  destruct (lookup_correct table masks k (m - t)) as (sub & -> & _ & Hok & _); [done|lia..|].
  cbn. intros (pm2 & H2 & H3)%bind_ok_inv. rewrite decide_False in H3 by done.
  injection H3 as <-. by eapply FitSubMask_bytes; [apply Hok|..].
Qed.

(** The generated mask inherits the quality of the masks it is made of. *)
Lemma lookup_bit_ok masks table k m :
  valid_table table masks -> (1 <= m <= k)%nat -> (k <= 48)%nat ->
  (forall r c, (r < m)%nat -> (c < 8 * PacketMaskSize k)%nat ->
     lookup_bit masks k m r c = true -> (c < k)%nat) /\
  (forall r, (r < m)%nat -> exists c, (c < k)%nat /\ lookup_bit masks k m r c = true) /\
  (forall c, (c < k)%nat -> exists r, (r < m)%nat /\ lookup_bit masks k m r c = true).
Proof.
  intros Ht Hm Hk. destruct (lookup_correct table masks k m Ht Hm Hk) as (mask & _ & _ & Hok & Hb).
  pose proof (PacketMaskSize_fits k Hk) as Hfit. split_and!.
  - intros r c Hr Hc Hbit. apply (mask_in_range _ _ _ _ Hok r); [done..|]. by rewrite Hb.
  - intros r Hr. destruct (mask_rows _ _ _ _ Hok r Hr) as (c & Hc & Hbit).
    exists c. rewrite Hb in Hbit by lia. done.
  - intros c Hc. destruct (mask_cols _ _ _ _ Hok c Hc) as (r & Hr & Hbit).
    exists r. rewrite Hb in Hbit by lia. done.
Qed.

Lemma generated_bit_ok masks table k m imp uep :
  valid_table table masks -> (1 <= m <= k)%nat -> (k <= 48)%nat -> (imp <= k)%nat ->
  (forall r c, (r < m)%nat -> (c < 8 * PacketMaskSize k)%nat ->
     generated_bit masks k m imp uep r c = true -> (c < k)%nat) /\
  (forall r, (r < m)%nat -> exists c, (c < k)%nat /\ generated_bit masks k m imp uep r c = true) /\
  (forall c, (c < k)%nat -> exists r, (r < m)%nat /\ generated_bit masks k m imp uep r c = true).
Proof.
  intros Ht Hm Hk Hi. unfold generated_bit. destruct (negb uep || (imp =? 0)%nat) eqn:E.
  { by eapply lookup_bit_ok. }
  apply orb_false_iff in E as [_ E%Nat.eqb_neq].
  destruct (SetProtectionAllocation_bounds k m imp) as [Htm Hti]; [lia|].
  set (t := SetProtectionAllocation k m imp) in *. cbv zeta.
  destruct (lookup_bit_ok masks table k (m - t) Ht) as (Hr2 & Hrow2 & Hcol2); [lia..|].
  assert ((1 <= t)%nat -> _) as Hok1
    by (intros; apply (lookup_bit_ok masks table imp t Ht); lia).
  split_and!.
  - intros r c Hr Hc. case_decide.
    + destruct Hok1 as (Hr1 & _); [lia|].
      rewrite andb_true_iff, bool_decide_eq_true. intros [? ?].
      specialize (Hr1 r c ltac:(lia) ltac:(lia) ltac:(done)). lia.
    + intros. by apply (Hr2 (r - t)%nat); [lia|..].
  - intros r Hr. case_decide.
    + destruct Hok1 as (_ & Hrow1 & _); [lia|]. destruct (Hrow1 r) as (c & Hc & Hb); [done|].
      exists c. split; [lia|]. rewrite Hb. pose proof (PacketMaskSize_fits imp ltac:(lia)).
      by rewrite bool_decide_true by lia.
    + apply Hrow2. lia.
  - intros c Hc. destruct (Hcol2 c Hc) as (r & Hr & Hb). exists (t + r)%nat. split; [lia|].
    rewrite decide_False by lia. by replace (t + r - t)%nat with r by lia.
Qed.

Lemma GeneratePacketMasks_exact table masks k m imp uep z :
  cleared (m * PacketMaskSize k) z -> valid_table table masks -> (1 <= m <= k)%nat -> (k <= 48)%nat -> (imp <= k)%nat ->
  exists pm, GeneratePacketMasks k m imp uep table z = Ok pm /\
    length pm = kFECPacketMaskMaxSize /\ bytes pm /\
    forall r c, (r < m)%nat -> (c < 8 * PacketMaskSize k)%nat ->
      mask_bit pm (PacketMaskSize k) r c = generated_bit masks k m imp uep r c.
Proof.
  intros Hz Ht Hm Hk Hi. unfold GeneratePacketMasks, generated_bit.
  destruct (negb uep || (imp =? 0)%nat) eqn:E.
  - destruct (lookup_correct table masks k m Ht Hm Hk) as (mask & -> & Hl & Hok & Hb).
    cbn [mbind res_bind].
    pose proof (PacketMaskSize_max k m ltac:(lia) Hk). pose proof (PacketMaskSize_pos k).
    destruct (memcpy_lookup z 0 mask 0 (length mask)) as (pm & Hcpy & Hlen & Hin & _);
      [lia|rewrite (cleared_length _ _ Hz); unfold kFECPacketMaskMaxSize; lia|].
    exists pm. split_and!.
    + done.
    + rewrite Hlen. apply Hz.
    + eapply memcpy_bytes; [apply Hz|apply Hok|done].
    + intros r c Hr Hc. rewrite <- Hb by done. unfold mask_bit.
      pose proof (lookup_lt_div _ m r c Hr Hc).
      specialize (Hin (r * PacketMaskSize k + c / 8)%nat ltac:(lia)).
      rewrite !Nat.add_0_l in Hin. by rewrite Hin.
  - apply orb_false_iff in E as [Huep%negb_false_iff E%Nat.eqb_neq].
    destruct (UnequalProtection_correct table masks k m imp z Hz Ht Hm Hk) as (pm & Hu & Hl & Hb); [lia|].
    exists pm. split_and!; [done..| |].
    + eapply (UnequalProtection_bytes table masks k m imp); [done..|lia|apply Hz|done].
    + intros r c Hr Hc. rewrite Hb by done. unfold generated_bit.
      by rewrite (proj2 (Nat.eqb_neq imp 0)) by done.
Qed.

(** ** Erasure recovery: the peeling decoder on a mask

    The receiver repairs a loss when some FEC packet that arrived protects
    exactly one missing media packet, and repeats.  [peel] is that process on
    the bits of a mask; [FecDecoder] proves the real decoder is driven by the
    same rule. *)

Definition row_missing (mask : list Z) (rb r : nat) (missing : list nat) : list nat :=
  filter (fun c => mask_bit mask rb r c = true) missing.

Definition peel_step (mask : list Z) (rb : nat) (missing : list nat) (r : nat) : list nat :=
  match row_missing mask rb r missing with
  | [c] => filter (fun c' => c' <> c) missing
  | _ => missing
  end.

Fixpoint peel (fuel : nat) (mask : list Z) (rb : nat) (rows : list nat) (missing : list nat)
    : list nat :=
  match fuel with
  | O => missing
  | S fuel => peel fuel mask rb rows (foldl (peel_step mask rb) missing rows)
  end.

(** Media packets [0 .. k) followed by FEC packets [k .. k + m) go out in
    this order; [burst s len] loses [len] consecutive ones. *)
Definition burst_missing (k s len : nat) : list nat :=
  filter (fun c => s <= c < s + len)%nat (seq 0 k).
Definition burst_rows (k m s len : nat) : list nat :=
  filter (fun r => ~ (s <= k + r < s + len)%nat) (seq 0 m).

Definition burst_recovers (mask : list Z) (k m s len : nat) : bool :=
  bool_decide (peel m mask 2 (burst_rows k m s len) (burst_missing k s len) = []).

Definition bursts_recover (k m : nat) : bool :=
  forallb (fun s => forallb (fun len => burst_recovers (spec_mask bursty_masks k m) k m s len)
                            (seq 1 m)) (seq 0 (k + m)).

Lemma bursts_recover_all :
  forallb (fun km => bursts_recover (fst km) (snd km)) (all_pairs 12) = true.
Proof. by vm_compute. Qed.

Lemma peel_nil fuel mask rb rows : peel fuel mask rb rows [] = [].
Proof.
  assert (foldl (peel_step mask rb) [] rows = []) as H by (induction rows; done).
  induction fuel; cbn; [done|]. by rewrite H.
Qed.

Lemma burst_peels k m s len :
  (1 <= m <= k)%nat -> (k <= 12)%nat -> (len <= m)%nat ->
  peel m (spec_mask bursty_masks k m) 2 (burst_rows k m s len) (burst_missing k s len) = [].
Proof.
  intros Hm Hk Hl.
  pose proof (check_pairs 12 bursts_recover bursts_recover_all k m Hm Hk) as Hc.
  unfold bursts_recover in Hc. rewrite forallb_seq in Hc.
  destruct (decide (k + m <= s \/ len = 0)%nat) as [Hs|Hs].
  - assert (burst_missing k s len = []) as ->; [|by apply peel_nil].
    apply elem_of_nil_inv. intros c. unfold burst_missing.
    rewrite list_elem_of_filter, elem_of_seq. lia.
  - specialize (Hc s ltac:(lia)). rewrite forallb_forall in Hc.
    eapply bool_decide_eq_true, (Hc len), in_seq. lia.
Qed.

(** ** The properties *)

(** [LookUpInFecTable] walks the packed byte table to exactly the mask the
    table's source defines for ([k] media, [m] FEC packets): for both tables
    and all [1 <= m <= k <= 12] it stays inside the table and returns that
    mask, [2 * m] bytes, which marks no packet beyond the [k]-th, gives every
    FEC packet something to protect and leaves no media packet unprotected. *)
Lemma LookUpInFecTable_exact table masks k m :
  valid_table table masks -> (1 <= m <= k)%nat -> (k <= 12)%nat ->
  LookUpInFecTable table (k - 1) (m - 1) = Ok (spec_mask masks k m) /\
  length (spec_mask masks k m) = (m * 2)%nat /\
  mask_ok (spec_mask masks k m) 2 m k.
Proof. apply lookup_table_exact. Qed.

(** From 13 media packets on the masks are computed: [LookUp] then yields,
    without leaving the 288-byte scratch array, the interleaved mask in which
    FEC packet [r] protects media packet [c] exactly when [c mod m = r], with
    no bit beyond packet [k]. *)
Theorem LookUp_interleaved table k m :
  (1 <= m <= k)%nat -> (12 < k <= 48)%nat ->
  exists mask, LookUp table k m = Ok mask /\
    length mask = (m * PacketMaskSize k)%nat /\ bytes mask /\
    forall r c, (r < m)%nat -> (c < 8 * PacketMaskSize k)%nat ->
      mask_bit mask (PacketMaskSize k) r c = bool_decide (c mod m = r /\ c < k)%nat.
Proof. apply lookup_interleaved. Qed.

Lemma LookUp_interleaved_witness :
  exists mask, LookUp kPacketMaskRandomTbl 20 3 = Ok mask /\ length mask = 18%nat.
Proof.
  destruct (LookUp_interleaved kPacketMaskRandomTbl 20 3 ltac:(lia) ltac:(lia))
    as (mask & H & Hl & _).
  exists mask. split; [exact H|exact Hl].
Defined.

(** C33. For every request the encoder can make ([1 <= m <= k <= 48] packets, any
    number [imp <= k] of important packets, either table, unequal protection
    on or off) [GeneratePacketMasks] succeeds on a mask array whose used rows
    were cleared (stale masks may follow), its bits are the ones specified (important packets' mask on top, the mask of
    all packets below), and the result protects every media packet, has no
    idle FEC packet and no bit beyond packet [k]. *)
Theorem GeneratePacketMasks_correct ty k m imp uep z :
  cleared (m * PacketMaskSize k) z ->
  (1 <= m <= k)%nat -> (k <= 48)%nat -> (imp <= k)%nat ->
  exists masks pm, valid_table (PickTable ty k) masks /\
    GeneratePacketMasks k m imp uep (PickTable ty k) z = Ok pm /\
    mask_ok pm (PacketMaskSize k) m k /\
    forall r c, (r < m)%nat -> (c < 8 * PacketMaskSize k)%nat ->
      mask_bit pm (PacketMaskSize k) r c = generated_bit masks k m imp uep r c.
Proof.
  intros Hz Hm Hk Hi. destruct (PickTable_valid ty k) as [masks Ht]. exists masks.
  destruct (GeneratePacketMasks_exact _ masks k m imp uep z Hz Ht Hm Hk Hi) as (pm & Hg & Hl & Hb & Hbit).
  destruct (generated_bit_ok masks _ k m imp uep Ht Hm Hk Hi) as (Hran & Hrow & Hcol).
  pose proof (PacketMaskSize_fits k Hk) as Hfit.
  exists pm. split_and!; [done..| |done]. split.
  - done.
  - rewrite Hl. apply PacketMaskSize_max; lia.
  - intros r c Hr Hc. rewrite Hbit by done. by apply Hran.
  - intros r Hr. destruct (Hrow r Hr) as (c & Hc & Hb'). exists c. rewrite Hbit by lia. done.
  - intros c Hc. destruct (Hcol c Hc) as (r & Hr & Hb'). exists r. rewrite Hbit by lia. done.
Qed.

Lemma stale_mask_cleared : cleared (6 * PacketMaskSize 20) (replicate 36 0 ++ replicate 252 255).
Proof.
  split; [done| |].
  - apply Forall_app. split; apply Forall_replicate; unfold in_uw; lia.
  - intros i Hi. change (6 * PacketMaskSize 20)%nat with 36%nat in Hi.
    rewrite lookup_app_l by (rewrite length_replicate; lia). by apply lookup_replicate_2.
Defined.

Lemma GeneratePacketMasks_correct_witness :
  exists masks pm, valid_table (PickTable kFecMaskBursty 20) masks /\
    GeneratePacketMasks 20 6 3 true (PickTable kFecMaskBursty 20)
      (replicate 36 0 ++ replicate 252 255) = Ok pm.
Proof.
  destruct (GeneratePacketMasks_correct kFecMaskBursty 20 6 3 true
    (replicate 36 0 ++ replicate 252 255) stale_mask_cleared
    ltac:(lia) ltac:(lia) ltac:(lia)) as (masks & pm & Ht & Hg & _).
  exists masks, pm. split; [exact Ht|exact Hg].
Defined.

(** The bursty table does what its header promises: with [m] FEC packets for
    [k <= 12] media packets sent in order, media first, the peeling decoder
    repairs every loss of at most [m] consecutive packets, wherever the burst
    starts and also when it runs into the FEC packets. *)
Lemma bursty_masks_recover_bursts k m s len :
  (1 <= m <= k)%nat -> (k <= 12)%nat -> (len <= m)%nat ->
  exists mask, LookUpInFecTable kPacketMaskBurstyTbl (k - 1) (m - 1) = Ok mask /\
    peel m mask 2 (burst_rows k m s len) (burst_missing k s len) = [].
Proof.
  intros Hm Hk Hl. exists (spec_mask bursty_masks k m). split.
  - by apply (lookup_table_exact _ _ k m vt_bursty).
  - by apply burst_peels.
Qed.
