(* ===== verification/FecTypes.v ===== *)
(** * FecTypes: the packet classes and codec interfaces of
      [modules/rtp_rtcp/source/forward_error_correction.h]

    [Packet] is its byte buffer.  Its reference count is not modelled: a
    buffer is written only while one owner uses it (a FEC packet by
    [ReadFecHeader] before it is stored, a recovered packet by
    [RecoverPacket] before it is published), so sharing a [Packet] by
    reference and copying its bytes are indistinguishable. *)

From S2P Require Import Prelude PacketMasks.

Definition IP_PACKET_SIZE : nat := 1500.
Definition kRtpHeaderSize : nat := 12.

(** [ForwardErrorCorrection::Packet]. *)
Abbreviation Packet := (list Z).

(** [ReceivedPacket] (with its [SortablePacket] base). *)
Record ReceivedPacket : Type := mkReceivedPacket {
  rp_ssrc : Z;
  rp_seq_num : Z;
  rp_is_fec : bool;
  rp_is_recovered : bool;
  rp_pkt : Packet
}.

(** [RecoveredPacket]. *)
Record RecoveredPacket : Type := mkRecoveredPacket {
  rec_ssrc : Z;
  rec_seq_num : Z;
  rec_was_recovered : bool;
  rec_returned : bool;
  rec_pkt : Packet
}.

(** [ProtectedPacket]: [None] is the null [pkt] of a missing packet. *)
Record ProtectedPacket : Type := mkProtectedPacket {
  pp_ssrc : Z;
  pp_seq_num : Z;
  pp_pkt : option Packet
}.

(** [ForwardErrorCorrection::ProtectedStream]. *)
Record ProtectedStream : Type := mkProtectedStream {
  ps_ssrc : Z;
  ps_seq_num_base : Z;
  ps_packet_mask_offset : nat;
  ps_packet_mask_size : nat
}.

(** [ReceivedFecPacket]. *)
Record ReceivedFecPacket : Type := mkReceivedFecPacket {
  fp_ssrc : Z;
  fp_seq_num : Z;
  fp_protected_packets : list ProtectedPacket;
  fp_fec_header_size : nat;
  fp_protected_streams : list ProtectedStream;
  fp_protection_length : nat;
  fp_pkt : Packet
}.

(** [FecHeaderWriter::ProtectedStream]; [packet_mask] is the array view. *)
Record WriterStream : Type := mkWriterStream {
  ws_ssrc : Z;
  ws_seq_num_base : Z;
  ws_packet_mask : list Z
}.

(** A [ReceivedFecPacket] as [InsertFecPacket] hands it to the reader. *)
Definition new_fec_packet (ssrc seq_num : Z) (pkt : Packet) : ReceivedFecPacket :=
  mkReceivedFecPacket ssrc seq_num [] 0 [] 0 pkt.

(** What a reader fills in. *)
Definition with_header (fp : ReceivedFecPacket) (hdr : nat) (streams : list ProtectedStream)
    (len : nat) (pkt : Packet) : ReceivedFecPacket :=
  mkReceivedFecPacket (fp_ssrc fp) (fp_seq_num fp) (fp_protected_packets fp) hdr streams len pkt.

(** ** The codec interfaces *)

(** [class FecHeaderReader]; [None] is [return false]. *)
Class FecHeaderReader : Type := {
  MaxTrackedPackets : nat;
  MaxStoredFecPackets : nat;
  ReadFecHeader : ReceivedFecPacket -> res (option ReceivedFecPacket)
}.

(** [class FecHeaderWriter]. *)
Class FecHeaderWriter : Type := {
  MaxMediaPackets : nat;
  MaxFecPackets : nat;
  MaxPacketOverhead : nat;
  MinPacketMaskSize : list Z -> nat -> res nat;
  FecHeaderSize : nat -> nat;
  FinalizeFecHeader : list WriterStream -> Packet -> res Packet
}.

(** Columns set in a one-row mask: the offsets it protects. *)
Definition mask_indices (m : list Z) (size : nat) : list nat :=
  filter (fun c => mask_bit m size 0 c = true) (seq 0 (8 * size)).

(** The bytes that carry recovered data: the low six bits of byte 0 (the top
    two, the RTP version or the flags, are not protected), bytes 1 to 7
    (marker, payload type, length, timestamp) and everything from [hdr] on. *)
Definition same_recovery (hdr : nat) (d d' : Packet) : Prop :=
  length d' = length d /\
  (forall b b', d !! 0%nat = Some b -> d' !! 0%nat = Some b' -> Z.land b' 0x3f = Z.land b 0x3f) /\
  (forall i, (1 <= i < 8)%nat -> d' !! i = d !! i) /\
  (forall i, (hdr <= i)%nat -> d' !! i = d !! i).

(** What the decoder relies on: a reader is total on arbitrary bytes and, when
    it accepts, reports one stream whose mask is the tail of the header. *)
Class FecReaderLaws (R : FecHeaderReader) : Prop := {
  tracked_pos : (1 <= MaxTrackedPackets)%nat;
  tracked_small : Z.of_nat MaxTrackedPackets < 0x3fff;
  stored_pos : (1 <= MaxStoredFecPackets)%nat;
  read_total : forall fp, bytes (fp_pkt fp) -> exists r, ReadFecHeader fp = Ok r;
  read_sound : forall fp fp',
    bytes (fp_pkt fp) -> ReadFecHeader fp = Ok (Some fp') ->
    exists ps hdr len pkt,
      fp' = with_header fp hdr [ps] len pkt /\
      length pkt = length (fp_pkt fp) /\ bytes pkt /\
      is_u16 (ps_seq_num_base ps) /\
      (kRtpHeaderSize <= hdr <= 32)%nat /\
      (ps_packet_mask_offset ps + ps_packet_mask_size ps = hdr)%nat /\
      (ps_packet_mask_size ps <= 14)%nat
}.

(** What makes a reader and a writer one scheme: the reader recovers from a
    finalized packet the header size the writer reserved, the protected
    sequence numbers and the recovery bytes.  [own_ssrc] tells whether the
    stream is identified by the FEC packet's own SSRC (ULPFEC inside RED) or
    by the SSRC written into the header (FlexFEC). *)
Class FecSchemeLaws (R : FecHeaderReader) (W : FecHeaderWriter) (own_ssrc : bool) : Prop := {
  media_limit : MaxMediaPackets = 48%nat;
  fec_limit : MaxFecPackets = 48%nat;
  tracked_room : (2 * MaxMediaPackets <= MaxTrackedPackets)%nat;
  stored_room : (MaxFecPackets <= MaxStoredFecPackets)%nat;
  header_size_bounds : forall mask n min, MinPacketMaskSize mask n = Ok min ->
    n = 2%nat \/ n = 6%nat -> (14 <= FecHeaderSize min <= 32)%nat;
  min_mask_total : forall mask n, n = 2%nat \/ n = 6%nat -> (n <= length mask)%nat ->
    exists min, MinPacketMaskSize mask n = Ok min;
  min_mask_view : forall mask n, n = 2%nat \/ n = 6%nat -> (n <= length mask)%nat ->
    MinPacketMaskSize (take n mask) n = MinPacketMaskSize mask n;
  header_roundtrip : forall ssrc base mask min d,
    length mask = 2%nat \/ length mask = 6%nat ->
    bytes mask -> bytes d -> is_u16 base -> is_u32 ssrc ->
    MinPacketMaskSize mask (length mask) = Ok min ->
    (FecHeaderSize min <= length d)%nat ->
    Z.of_nat (length d - FecHeaderSize min) < 65536 ->
    exists d', FinalizeFecHeader [mkWriterStream ssrc base mask] d = Ok d' /\
      bytes d' /\
      forall fssrc fseq, exists off size d'',
        ReadFecHeader (new_fec_packet fssrc fseq d') =
          Ok (Some (with_header (new_fec_packet fssrc fseq d') (FecHeaderSize min)
            [mkProtectedStream (if own_ssrc then fssrc else ssrc) base off size]
            (length d - FecHeaderSize min) d'')) /\
        (off + size <= length d'')%nat /\
        mask_indices (drop off d'') size = mask_indices mask (length mask) /\
        same_recovery (FecHeaderSize min) d d''
}.

#[export] Hint Mode FecReaderLaws ! : typeclass_instances.

(** ** Facts shared by the header codecs *)

Lemma mask_indices_bit m size c :
  c ∈ mask_indices m size <-> (c < 8 * size)%nat /\ mask_bit m size 0 c = true.
Proof.
  unfold mask_indices. rewrite list_elem_of_filter, elem_of_seq. intuition lia.
Qed.

Lemma filter_ext_in {A} (P Q : A -> Prop) `{!forall x, Decision (P x), !forall x, Decision (Q x)} (l : list A) :
  (forall x, x ∈ l -> P x <-> Q x) -> filter P l = filter Q l.
Proof.
  induction l as [|x l IH]; intros HPQ; [done|]. rewrite !filter_cons.
  rewrite IH by (intros; apply HPQ; by right).
  destruct (HPQ x) as [H1 H2]; [left|]. repeat case_decide; tauto || f_equal.
Qed.

Lemma mask_bit_row0 m size c :
  mask_bit m size 0 c =
  match m !! (c / 8)%nat with Some b => Z.testbit b (7 - Z.of_nat (c mod 8)) | None => false end.
Proof. reflexivity. Qed.

Lemma mask_indices_ext m m' size :
  (forall i, (i < size)%nat -> m !! i = m' !! i) -> mask_indices m size = mask_indices m' size.
Proof.
  intros H. apply filter_ext_in. intros c Hc%elem_of_seq.
  rewrite !mask_bit_row0, H; [done|]. apply Nat.Div0.div_lt_upper_bound. lia.
Qed.

(** A mask read into more bytes than it needs: the surplus must be clear. *)
Lemma mask_indices_widen m m' n k :
  (forall c, (c < 8 * n)%nat -> mask_bit m n 0 c = mask_bit m' (n + k) 0 c) ->
  (forall c, (8 * n <= c < 8 * (n + k))%nat -> mask_bit m' (n + k) 0 c = false) ->
  mask_indices m' (n + k) = mask_indices m n.
Proof.
  intros H1 H2. unfold mask_indices.
  rewrite Nat.mul_add_distr_l, seq_app, filter_app.
  replace (filter _ (seq (0 + 8 * n) (8 * k))) with (@nil nat); [rewrite app_nil_r|].
  - apply filter_ext_in. intros c Hc%elem_of_seq. rewrite H1 by lia. done.
  - symmetry. apply elem_of_nil_inv. intros c. rewrite list_elem_of_filter, elem_of_seq.
    intros [Hb Hc]. rewrite H2 in Hb by lia. done.
Qed.

Lemma mask_indices_zeros m k rest :
  mask_indices (m ++ replicate k 0 ++ rest) (length m + k) = mask_indices m (length m).
Proof.
  apply mask_indices_widen; intros c Hc; rewrite !mask_bit_row0.
  - rewrite lookup_app_l; [done|]. apply Nat.Div0.div_lt_upper_bound. lia.
  - assert (8 * (c / 8) <= c < 8 * (c / 8) + 8)%nat
      by (pose proof (Nat.div_mod_eq c 8); pose proof (Nat.mod_upper_bound c 8); lia).
    rewrite lookup_app_r by lia. rewrite lookup_app_l by (rewrite length_replicate; lia).
    rewrite lookup_replicate_2 by lia. apply Z.bits_0.
Qed.
