(* ===== verification/UlpfecHeader.v ===== *)
(** * UlpfecHeader: [modules/rtp_rtcp/source/ulpfec_header_reader_writer.cc]

    The RFC 5109 header: level 0 (10 bytes) and level 1 (protection length and
    a mask of 2 or 6 bytes). *)

From S2P Require Import Prelude ByteIo PacketMasks FecTypes.

Module Ulpfec.

Definition kMaxMediaPackets : nat := 48.
Definition kMaxTrackedMediaPackets : nat := 4 * kMaxMediaPackets.
Definition kMaxFecPackets : nat := kMaxMediaPackets.
Definition kFecLevel0HeaderSize : nat := 10.
Definition kFecLevel1HeaderSizeLBitSet : nat := 2 + kUlpfecPacketMaskSizeLBitSet.
Definition kFecLevel1HeaderSizeLBitClear : nat := 2 + kUlpfecPacketMaskSizeLBitClear.
Definition kPacketMaskOffset : nat := kFecLevel0HeaderSize + 2.

Definition UlpfecHeaderSize (packet_mask_size : nat) : nat :=
  if decide (packet_mask_size <= kUlpfecPacketMaskSizeLBitClear)%nat
  then (kFecLevel0HeaderSize + kFecLevel1HeaderSizeLBitClear)%nat
  else (kFecLevel0HeaderSize + kFecLevel1HeaderSizeLBitSet)%nat.

(** [UlpfecHeaderReader::ReadFecHeader]. *)
Definition ReadFecHeader (fec_packet : ReceivedFecPacket) : res (option ReceivedFecPacket) :=
  let data := fp_pkt fec_packet in
  if decide (length data < kPacketMaskOffset)%nat then Ok None else
  let! b0 := buf_get data 0 in
  let l_bit := has_bits b0 0x40 in
  let packet_mask_size :=
    if l_bit then kUlpfecPacketMaskSizeLBitSet else kUlpfecPacketMaskSizeLBitClear in
  let fec_header_size := UlpfecHeaderSize packet_mask_size in
  let! seq_num_base := ByteReader.ReadBigEndian 16 2 data 2 in
  let protected_streams :=
    [mkProtectedStream (fp_ssrc fec_packet) seq_num_base kPacketMaskOffset packet_mask_size] in
  let! protection_length := ByteReader.ReadBigEndian 16 2 data 10 in
  let! data := memcpy data 2 data 8 2 in
  Ok (Some (with_header fec_packet fec_header_size protected_streams
              (Z.to_nat protection_length) data)).

(** [UlpfecHeaderWriter::MinPacketMaskSize]. *)
Definition MinPacketMaskSize (packet_mask : list Z) (packet_mask_size : nat) : res nat :=
  Ok packet_mask_size.

(** [UlpfecHeaderWriter::FinalizeFecHeader]. *)
Definition FinalizeFecHeader (protected_streams : list WriterStream) (data : Packet)
    : res Packet :=
  let! _ := rtc_check (length protected_streams =? 1)%nat in
  match protected_streams with
  | [] => Fault OutOfBounds
  | stream :: _ =>
      let seq_num_base := ws_seq_num_base stream in
      let packet_mask := ws_packet_mask stream in
      let packet_mask_size := length packet_mask in
      let! b0 := buf_get data 0 in
      let! data := buf_set data 0 (Z.land b0 0x7f) in
      let l_bit := (packet_mask_size =? kUlpfecPacketMaskSizeLBitSet)%nat in
      let! b0 := buf_get data 0 in
      let! data := buf_set data 0 (if l_bit then Z.lor b0 0x40 else Z.land b0 0xbf) in
      let! data := memcpy data 8 data 2 2 in
      let! data := ByteWriter.WriteBigEndian 2 data 2 seq_num_base in
      let fec_header_size := UlpfecHeaderSize packet_mask_size in
      let! data := ByteWriter.WriteBigEndian 2 data 10
                     (u16 (Z.of_nat (length data) - Z.of_nat fec_header_size)) in
      memcpy data 12 packet_mask 0 packet_mask_size
  end.

(** The constructors of the reader and the writer. *)
#[export] Instance UlpfecHeaderReader : FecHeaderReader := {|
  FecTypes.MaxTrackedPackets := kMaxTrackedMediaPackets;
  FecTypes.MaxStoredFecPackets := kMaxFecPackets;
  FecTypes.ReadFecHeader := ReadFecHeader
|}.

#[export] Instance UlpfecHeaderWriter : FecHeaderWriter := {|
  FecTypes.MaxMediaPackets := kMaxMediaPackets;
  FecTypes.MaxFecPackets := kMaxFecPackets;
  FecTypes.MaxPacketOverhead := kFecLevel0HeaderSize + kFecLevel1HeaderSizeLBitSet;
  FecTypes.MinPacketMaskSize := MinPacketMaskSize;
  FecTypes.FecHeaderSize := UlpfecHeaderSize;
  FecTypes.FinalizeFecHeader := FinalizeFecHeader
|}.

End Ulpfec.

(** ** Proofs *)

Lemma bytes_split n d : (n <= length d)%nat -> bytes d ->
  exists l rest, length l = n /\ d = l ++ rest /\ bytes l /\ bytes rest.
Proof.
  intros Hn Hd. exists (take n d), (drop n d).
  rewrite length_take, take_drop. split_and!; [lia|done|by apply Forall_take|by apply Forall_drop].
Qed.

Ltac ulp_unfold :=
  unfold Ulpfec.kPacketMaskOffset, Ulpfec.UlpfecHeaderSize, Ulpfec.kFecLevel0HeaderSize,
    Ulpfec.kFecLevel1HeaderSizeLBitSet, Ulpfec.kFecLevel1HeaderSizeLBitClear,
    kUlpfecPacketMaskSizeLBitClear, kUlpfecPacketMaskSizeLBitSet in *.

Lemma ulpfec_read_short fp :
  (length (fp_pkt fp) < 12)%nat -> Ulpfec.ReadFecHeader fp = Ok None.
Proof. intros. unfold Ulpfec.ReadFecHeader. ulp_unfold. by rewrite decide_True. Qed.

Lemma ulpfec_read fp b0 b1 b2 b3 b4 b5 b6 b7 b8 b9 b10 b11 rest :
  fp_pkt fp = b0 :: b1 :: b2 :: b3 :: b4 :: b5 :: b6 :: b7 :: b8 :: b9 :: b10 :: b11 :: rest ->
  let size := if has_bits b0 0x40 then 6%nat else 2%nat in
  Ulpfec.ReadFecHeader fp =
    Ok (Some (with_header fp (12 + size)%nat
      [mkProtectedStream (fp_ssrc fp) (Z.lor (Z.shiftl b2 8) b3) 12 size]
      (Z.to_nat (Z.lor (Z.shiftl b10 8) b11))
      (b0 :: b1 :: b8 :: b9 :: b4 :: b5 :: b6 :: b7 :: b8 :: b9 :: b10 :: b11 :: rest))).
Proof.
  intros Hd size. unfold Ulpfec.ReadFecHeader. rewrite Hd. ulp_unfold.
  rewrite decide_False by (cbn [length]; lia).
  unfold ByteReader.ReadBigEndian, ByteReader.ReadBigEndian2. cbn [Nat.add]. run.
  subst size. by destruct (has_bits b0 64).
Qed.

(** Any byte string can be handed to the ULPFEC reader. *)
#[export] Instance ulpfec_reader_laws : FecReaderLaws Ulpfec.UlpfecHeaderReader.
Proof.
  split; cbn [FecTypes.MaxTrackedPackets FecTypes.MaxStoredFecPackets FecTypes.ReadFecHeader
              Ulpfec.UlpfecHeaderReader].
  - unfold Ulpfec.kMaxTrackedMediaPackets, Ulpfec.kMaxMediaPackets. lia.
  - unfold Ulpfec.kMaxTrackedMediaPackets, Ulpfec.kMaxMediaPackets. lia.
  - unfold Ulpfec.kMaxFecPackets, Ulpfec.kMaxMediaPackets. lia.
  - intros fp _. destruct (decide (length (fp_pkt fp) < 12)%nat).
    { rewrite ulpfec_read_short by done. eauto. }
    destruct (fp_pkt fp) as [|b0 d] eqn:Hd; [cbn in *; lia|]. take_bytes d 11%nat.
    erewrite ulpfec_read by exact Hd. eauto.
  - intros fp fp' Hb. destruct (decide (length (fp_pkt fp) < 12)%nat).
    { by rewrite ulpfec_read_short. }
    destruct (fp_pkt fp) as [|b0 d] eqn:Hd; [cbn in *; lia|]. take_bytes d 11%nat.
    erewrite ulpfec_read by exact Hd. split_bytes. intros [= <-].
    do 4 eexists. split; [done|]. unfold kRtpHeaderSize.
    split_and!; cbn [ps_seq_num_base ps_packet_mask_offset ps_packet_mask_size];
      [done|by repeat (apply Forall_cons_2; [assumption|])|by apply be16_range|..];
      destruct (has_bits b0 0x40); lia.
Qed.

Lemma ulpfec_flag_bit b0 (l : bool) :
  is_byte b0 ->
  has_bits (u8 (if l then Z.lor (u8 (Z.land b0 0x7f)) 0x40
                else Z.land (u8 (Z.land b0 0x7f)) 0xbf)) 0x40 = l.
Proof. intros Hb. change 0x40 with (2 ^ 6). rewrite has_bits_pow2 by lia. destruct l; by testbits. Qed.

Lemma ulpfec_low_bits b0 (l : bool) :
  is_byte b0 ->
  Z.land (u8 (if l then Z.lor (u8 (Z.land b0 0x7f)) 0x40
              else Z.land (u8 (Z.land b0 0x7f)) 0xbf)) 0x3f = Z.land b0 0x3f.
Proof. intros Hb. destruct l; byte_eq. Qed.

Lemma ulpfec_header_size n : n = 2%nat \/ n = 6%nat -> Ulpfec.UlpfecHeaderSize n = (12 + n)%nat.
Proof. by intros [-> | ->]. Qed.

(** The bytes [FinalizeFecHeader] leaves behind. *)
Lemma ulpfec_finalize ssrc base mask b0 b1 b2 b3 b4 b5 b6 b7 b8 b9 b10 b11 old rest :
  length old = length mask -> length mask = 2%nat \/ length mask = 6%nat ->
  Ulpfec.FinalizeFecHeader [mkWriterStream ssrc base mask]
    (b0 :: b1 :: b2 :: b3 :: b4 :: b5 :: b6 :: b7 :: b8 :: b9 :: b10 :: b11 :: old ++ rest) =
  Ok (u8 (if (length mask =? 6)%nat then Z.lor (u8 (Z.land b0 0x7f)) 0x40
          else Z.land (u8 (Z.land b0 0x7f)) 0xbf) ::
      b1 :: u8 (Z.shiftr base 8) :: u8 base :: b4 :: b5 :: b6 :: b7 :: b2 :: b3 ::
      u8 (Z.shiftr (u16 (Z.of_nat (length rest))) 8) :: u8 (u16 (Z.of_nat (length rest))) ::
      mask ++ rest).
Proof.
  intros Hold Hm. unfold Ulpfec.FinalizeFecHeader. cbn [ws_seq_num_base ws_packet_mask length].
  unfold rtc_check. cbn [Nat.eqb]. rewrite ulpfec_header_size by done.
  unfold ByteWriter.WriteBigEndian, ByteWriter.WriteBigEndian2. cbn [Nat.add]. run.
  replace (Z.of_nat (length _) - _) with (Z.of_nat (length rest))
    by (cbn [length]; rewrite length_app; lia).
  rewrite memcpy_ok by (cbn [length]; rewrite ?length_app; lia).
  cbn [take app drop Nat.add]. rewrite firstn_all, <- Hold, drop_app_length. done.
Qed.

#[export] Instance ulpfec_scheme_laws :
  FecSchemeLaws Ulpfec.UlpfecHeaderReader Ulpfec.UlpfecHeaderWriter true.
Proof.
  split; cbn [FecTypes.MaxMediaPackets FecTypes.MaxFecPackets FecTypes.MinPacketMaskSize
    FecTypes.FecHeaderSize FecTypes.FinalizeFecHeader FecTypes.ReadFecHeader
    Ulpfec.UlpfecHeaderWriter Ulpfec.UlpfecHeaderReader]; [done|done|by apply Nat.leb_le|by apply Nat.leb_le| |by eauto|done|].
  { intros mask n min [= <-] Hn. rewrite ulpfec_header_size by done. lia. }
  intros ssrc base mask min d Hm Hbm Hbd Hbase _ [= <-] Hd Hlen.
  rewrite ulpfec_header_size in * by done.
  take_bytes d 12%nat. cbn [length] in Hd, Hlen. split_bytes.
  rewrite <- (take_drop (length mask) d) in Hbd |- *.
  set (old := take _ d) in *. set (rest := drop _ d) in *.
  assert (Hold : length old = length mask) by (subst old; rewrite length_take; lia).
  assert (Hrest : (length d = length mask + length rest)%nat)
    by (subst rest; rewrite length_drop; lia).
  apply Forall_app in Hbd as [_ Hbr].
  rewrite ulpfec_finalize by done. eexists; split; [done|]. split.
  { repeat (apply Forall_cons_2; [by (assumption || by apply uw_range)|]). by apply Forall_app. }
  intros fssrc fseq. exists 12%nat, (length mask). eexists. split; [|split_and!].
  - erewrite ulpfec_read by reflexivity.
    rewrite ulpfec_flag_bit, be16_roundtrip, be16_roundtrip by (done || by apply uw_range).
    cbn [fp_ssrc new_fec_packet length]. rewrite length_app, Hold.
    rewrite (uw_small 16 (Z.of_nat (length rest))) by (unfold in_uw; lia).
    replace (if (length mask =? 6)%nat then 6%nat else 2%nat) with (length mask)
      by (destruct Hm as [-> | ->]; done).
    do 2 f_equal. f_equal. lia.
  - cbn [length]. rewrite length_app. lia.
  - cbn [drop]. apply mask_indices_ext. intros i Hi. by rewrite drop_0, lookup_app_l.
  - split_and!.
    + cbn [length]. rewrite !length_app. lia.
    + cbn. intros x x' [= <-] [= <-]. by apply ulpfec_low_bits.
    + intros i Hi. by do 8 (destruct i as [|i]; [done || lia|]); lia.
    + intros i Hi. replace i with (12 + (i - 12))%nat by lia.
      rewrite <- !(lookup_drop _ 12). cbn [drop]. rewrite !drop_0.
      by rewrite !lookup_app_r, Hold by lia.
Qed.
