(* ===== verification/Flexfec03Header.v ===== *)
(** * Flexfec03Header: [modules/rtp_rtcp/source/flexfec_03_header_reader_writer.cc]

    The FlexFEC draft-03 header.  On the wire the packet mask is interleaved
    with K-bits that tell its length (2, 6 or 14 bytes); the writer inserts
    them and the reader squeezes them out again in place.  Reader and writer
    obey the laws of a scheme ([FecTypes.FecSchemeLaws]): a finalized packet is
    read back with the header size the writer reserved, the protected SSRC and
    sequence numbers, and all recovery bytes. *)

From S2P Require Import Prelude ByteIo PacketMasks FecTypes.

Module Flexfec03.

Definition kMaxMediaPackets : nat := 48.
Definition kMaxTrackedMediaPackets : nat := 4 * kMaxMediaPackets.
Definition kMaxFecPackets : nat := kMaxMediaPackets.
Definition kFlexfecPacketMaskSizes0 : nat := 2.
Definition kFlexfecPacketMaskSizes1 : nat := 6.
Definition kFlexfecPacketMaskSizes2 : nat := 14.
Definition kBaseHeaderSize : nat := 12.
Definition kStreamSpecificHeaderSize : nat := 6.
Definition kHeaderSizes0 : nat :=
  kBaseHeaderSize + kStreamSpecificHeaderSize + kFlexfecPacketMaskSizes0.
Definition kHeaderSizes1 : nat :=
  kBaseHeaderSize + kStreamSpecificHeaderSize + kFlexfecPacketMaskSizes1.
Definition kHeaderSizes2 : nat :=
  kBaseHeaderSize + kStreamSpecificHeaderSize + kFlexfecPacketMaskSizes2.
Definition kSsrcCount : Z := 1.
Definition kReservedBits : Z := 0.
Definition kPacketMaskOffset : nat := kBaseHeaderSize + kStreamSpecificHeaderSize.

Definition FlexfecHeaderSize (packet_mask_size : nat) : nat :=
  if decide (packet_mask_size <= kFlexfecPacketMaskSizes0)%nat then kHeaderSizes0
  else if decide (packet_mask_size <= kFlexfecPacketMaskSizes1)%nat then kHeaderSizes1
  else kHeaderSizes2.

(** The mask part of [ReadFecHeader]: removes the K-bits from the mask stored
    at [kPacketMaskOffset]; the result is the mask size and the packet. *)
Definition ReadPacketMask (data : Packet) : res (option (nat * Packet)) :=
  let pm := kPacketMaskOffset in
  let! m0 := buf_get data pm in
  let k_bit0 := has_bits m0 0x80 in
  let! mask_part0 := ByteReader.ReadBigEndian 16 2 data pm in
  let mask_part0 := u16 (Z.shiftl mask_part0 1) in
  let! data := ByteWriter.WriteBigEndian 2 data pm mask_part0 in
  if k_bit0 then Ok (Some (kFlexfecPacketMaskSizes0, data)) else
  if decide (length data < kHeaderSizes1)%nat then Ok None else
  let! m2 := buf_get data (pm + 2) in
  let k_bit1 := has_bits m2 0x80 in
  let bit15 := Z.land (Z.shiftr m2 6) 0x01 in
  let! m1 := buf_get data (pm + 1) in
  let! data := buf_set data (pm + 1) (Z.lor m1 bit15) in
  let! mask_part1 := ByteReader.ReadBigEndian 32 4 data (pm + 2) in
  let mask_part1 := u32 (Z.shiftl mask_part1 2) in
  let! data := ByteWriter.WriteBigEndian 4 data (pm + 2) mask_part1 in
  if k_bit1 then Ok (Some (kFlexfecPacketMaskSizes1, data)) else
  if decide (length data < kHeaderSizes2)%nat then Ok None else
  let! m6 := buf_get data (pm + 6) in
  let k_bit2 := has_bits m6 0x80 in
  if negb k_bit2 then Ok None else
  let tail_bits := Z.land (Z.shiftr m6 5) 0x03 in
  let! m5 := buf_get data (pm + 5) in
  let! data := buf_set data (pm + 5) (Z.lor m5 tail_bits) in
  let! mask_part2 := ByteReader.ReadBigEndian 64 8 data (pm + 6) in
  let mask_part2 := u64 (Z.shiftl mask_part2 3) in
  let! data := ByteWriter.WriteBigEndian 8 data (pm + 6) mask_part2 in
  Ok (Some (kFlexfecPacketMaskSizes2, data)).

(** [Flexfec03HeaderReader::ReadFecHeader]. *)
Definition ReadFecHeader (fec_packet : ReceivedFecPacket) : res (option ReceivedFecPacket) :=
  let data := fp_pkt fec_packet in
  if decide (length data <= kBaseHeaderSize + kStreamSpecificHeaderSize)%nat then Ok None else
  let! b0 := buf_get data 0 in
  let r_bit := has_bits b0 0x80 in
  if r_bit then Ok None else
  let f_bit := has_bits b0 0x40 in
  if f_bit then Ok None else
  let! ssrc_count := ByteReader.ReadBigEndian 8 1 data 8 in
  if negb (ssrc_count =? 1) then Ok None else
  let! protected_ssrc := ByteReader.ReadBigEndian 32 4 data 12 in
  let! seq_num_base := ByteReader.ReadBigEndian 16 2 data 16 in
  if decide (length data < kHeaderSizes0)%nat then Ok None else
  let! mask := ReadPacketMask data in
  match mask with
  | None => Ok None
  | Some (packet_mask_size, data) =>
      let fec_header_size := FlexfecHeaderSize packet_mask_size in
      Ok (Some (with_header fec_packet fec_header_size
        [mkProtectedStream protected_ssrc seq_num_base kPacketMaskOffset packet_mask_size]
        (length data - fec_header_size) data))
  end.

(** [Flexfec03HeaderWriter::MinPacketMaskSize]. *)
Definition MinPacketMaskSize (packet_mask : list Z) (packet_mask_size : nat) : res nat :=
  if (packet_mask_size =? kUlpfecPacketMaskSizeLBitClear)%nat then
    let! m1 := buf_get packet_mask 1 in
    Ok (if Z.land m1 0x01 =? 0 then kFlexfecPacketMaskSizes0 else kFlexfecPacketMaskSizes1)
  else if (packet_mask_size =? kUlpfecPacketMaskSizeLBitSet)%nat then
    let! m5 := buf_get packet_mask 5 in
    Ok (if Z.land m5 0x03 =? 0 then kFlexfecPacketMaskSizes1 else kFlexfecPacketMaskSizes2)
  else Ok kFlexfecPacketMaskSizes2.

(** [packet_mask[i] |= v], on a packet. *)
Definition or_byte (data : Packet) (i : nat) (v : Z) : res Packet :=
  let! b := buf_get data i in buf_set data i (Z.lor b v).

(** The mask part of [FinalizeFecHeader]: inserts the K-bits. *)
Definition WritePacketMask (packet_mask : list Z) (data : Packet) : res Packet :=
  let pm := kPacketMaskOffset in
  let packet_mask_size := length packet_mask in
  if (packet_mask_size =? kUlpfecPacketMaskSizeLBitSet)%nat then
    let! tmp_mask_part0 := ByteReader.ReadBigEndian 16 2 packet_mask 0 in
    let! tmp_mask_part1 := ByteReader.ReadBigEndian 32 4 packet_mask 2 in
    let tmp_mask_part0 := Z.shiftr tmp_mask_part0 1 in
    let! data := ByteWriter.WriteBigEndian 2 data pm tmp_mask_part0 in
    let tmp_mask_part1 := Z.shiftr tmp_mask_part1 2 in
    let! data := ByteWriter.WriteBigEndian 4 data (pm + 2) tmp_mask_part1 in
    let! m1 := buf_get packet_mask 1 in
    let bit15 := has_bits m1 0x01 in
    let! data := if bit15 then or_byte data (pm + 2) 0x40 else Ok data in
    let! m5 := buf_get packet_mask 5 in
    let bit46 := has_bits m5 0x02 in
    let bit47 := has_bits m5 0x01 in
    if negb bit46 && negb bit47 then or_byte data (pm + 2) 0x80
    else
      let! data := memset0 data (pm + 6) 8 in
      let! data := or_byte data (pm + 6) 0x80 in
      let! data := if bit46 then or_byte data (pm + 6) 0x40 else Ok data in
      if bit47 then or_byte data (pm + 6) 0x20 else Ok data
  else if (packet_mask_size =? kUlpfecPacketMaskSizeLBitClear)%nat then
    let! tmp_mask_part0 := ByteReader.ReadBigEndian 16 2 packet_mask 0 in
    let tmp_mask_part0 := Z.shiftr tmp_mask_part0 1 in
    let! data := ByteWriter.WriteBigEndian 2 data pm tmp_mask_part0 in
    let! m1 := buf_get packet_mask 1 in
    let bit15 := has_bits m1 0x01 in
    if negb bit15 then or_byte data pm 0x80
    else
      let! data := memset0 data (pm + 2) 4 in
      let! data := or_byte data (pm + 2) 0x80 in
      or_byte data (pm + 2) 0x40
  else Ok data.

(** [Flexfec03HeaderWriter::FinalizeFecHeader]. *)
Definition FinalizeFecHeader (protected_streams : list WriterStream) (data : Packet)
    : res Packet :=
  let! _ := rtc_check (length protected_streams =? 1)%nat in
  match protected_streams with
  | [] => Fault OutOfBounds
  | stream :: _ =>
      let! b0 := buf_get data 0 in
      let! data := buf_set data 0 (Z.land b0 0x7f) in
      let! b0 := buf_get data 0 in
      let! data := buf_set data 0 (Z.land b0 0xbf) in
      let! data := ByteWriter.WriteBigEndian 1 data 8 kSsrcCount in
      let! data := ByteWriter.WriteBigEndian 3 data 9 kReservedBits in
      let! data := ByteWriter.WriteBigEndian 4 data 12 (ws_ssrc stream) in
      let! data := ByteWriter.WriteBigEndian 2 data 16 (ws_seq_num_base stream) in
      WritePacketMask (ws_packet_mask stream) data
  end.

(** The constructors of the reader and the writer. *)
#[export] Instance Flexfec03HeaderReader : FecHeaderReader := {|
  FecTypes.MaxTrackedPackets := kMaxTrackedMediaPackets;
  FecTypes.MaxStoredFecPackets := kMaxFecPackets;
  FecTypes.ReadFecHeader := ReadFecHeader
|}.

#[export] Instance Flexfec03HeaderWriter : FecHeaderWriter := {|
  FecTypes.MaxMediaPackets := kMaxMediaPackets;
  FecTypes.MaxFecPackets := kMaxFecPackets;
  FecTypes.MaxPacketOverhead := kHeaderSizes2;
  FecTypes.MinPacketMaskSize := MinPacketMaskSize;
  FecTypes.FecHeaderSize := FlexfecHeaderSize;
  FecTypes.FinalizeFecHeader := FinalizeFecHeader
|}.

End Flexfec03.

(** ** Proofs *)

Ltac flex_unfold :=
  unfold Flexfec03.kPacketMaskOffset, Flexfec03.kHeaderSizes0, Flexfec03.kHeaderSizes1,
    Flexfec03.kHeaderSizes2, Flexfec03.kBaseHeaderSize, Flexfec03.kStreamSpecificHeaderSize,
    Flexfec03.kFlexfecPacketMaskSizes0, Flexfec03.kFlexfecPacketMaskSizes1,
    Flexfec03.kFlexfecPacketMaskSizes2, kUlpfecPacketMaskSizeLBitClear,
    kUlpfecPacketMaskSizeLBitSet in *.

Ltac io_unfold :=
  unfold ByteReader.ReadBigEndian, ByteReader.ReadBigEndian1, ByteReader.ReadBigEndian2,
    ByteReader.ReadBigEndian4, ByteReader.ReadBigEndian8, ByteWriter.WriteBigEndian,
    ByteWriter.WriteBigEndian1, ByteWriter.WriteBigEndian2, ByteWriter.WriteBigEndian4,
    ByteWriter.WriteBigEndian8, Flexfec03.or_byte;
  cbn [Nat.add].

(** What the mask reader returns on a packet with room for a 2-byte mask. *)
Definition mask_read_ok (d : Packet) (r : option (nat * Packet)) : Prop :=
  match r with
  | None => True
  | Some (n, d') =>
      (n = 2 \/ n = 6 \/ n = 14)%nat /\ (18 + n <= length d)%nat /\ length d' = length d /\ bytes d'
  end.

Ltac solve_bytes :=
  repeat (apply Forall_cons_2; [first [assumption | by apply uw_range]|]); assumption.

Lemma flex_read_mask_total d :
  (20 <= length d)%nat -> bytes d ->
  exists r, Flexfec03.ReadPacketMask d = Ok r /\ mask_read_ok d r.
Proof.
  intros Hd Hb. unfold Flexfec03.ReadPacketMask. flex_unfold. cbv zeta. io_unfold.
  take_bytes d 20%nat. split_bytes. run_abstract.
  destruct (has_bits _ 0x80).
  { eexists; split; [done|]. cbn [mask_read_ok length]. split_and!; [lia..|solve_bytes]. }
  case_decide as H24; [eexists; split; [done|]; exact I|].
  cbn [length] in H24. take_bytes d 4%nat. split_bytes. run_abstract.
  destruct (has_bits _ 0x80).
  { eexists; split; [done|]. cbn [mask_read_ok length]. split_and!; [lia..|solve_bytes]. }
  case_decide as H32; [eexists; split; [done|]; exact I|].
  cbn [length] in H32. take_bytes d 8%nat. split_bytes. run_abstract.
  destruct (has_bits _ 0x80); cbn [negb]; [|eexists; split; [done|]; exact I].
  run_abstract. eexists; split; [done|]. cbn [mask_read_ok length]. split_and!; [lia..|solve_bytes].
Qed.

Lemma flex_header_size n :
  (n = 2 \/ n = 6 \/ n = 14)%nat -> Flexfec03.FlexfecHeaderSize n = (18 + n)%nat.
Proof. by intros [-> | [-> | ->]]. Qed.

(** The fixed part of the header, and what is rejected. *)
Lemma flex_read fp b0 b1 b2 b3 b4 b5 b6 b7 b8 b9 b10 b11 b12 b13 b14 b15 b16 b17 b18 rest :
  fp_pkt fp = b0 :: b1 :: b2 :: b3 :: b4 :: b5 :: b6 :: b7 :: b8 :: b9 :: b10 :: b11 ::
              b12 :: b13 :: b14 :: b15 :: b16 :: b17 :: b18 :: rest ->
  Flexfec03.ReadFecHeader fp =
    if has_bits b0 0x80 || has_bits b0 0x40 || negb (b8 =? 1) ||
       bool_decide (length (fp_pkt fp) < 20)%nat then Ok None else
    let! mask := Flexfec03.ReadPacketMask (fp_pkt fp) in
    match mask with
    | None => Ok None
    | Some (n, d) =>
        Ok (Some (with_header fp (Flexfec03.FlexfecHeaderSize n)
          [mkProtectedStream
             (Z.lor (Z.lor (Z.lor (Z.shiftl b12 24) (Z.shiftl b13 16)) (Z.shiftl b14 8)) b15)
             (Z.lor (Z.shiftl b16 8) b17) 18 n]
          (length d - Flexfec03.FlexfecHeaderSize n) d))
    end.
Proof.
  intros Hd. unfold Flexfec03.ReadFecHeader. rewrite Hd. flex_unfold.
  rewrite decide_False by (cbn [length]; lia). io_unfold. run.
  destruct (has_bits b0 128), (has_bits b0 64), (b8 =? 1); cbn [negb orb]; try done.
  case_decide as Hl; case_bool_decide as Hl'; done.
Qed.

(** Any byte string can be handed to the FlexFEC reader. *)
#[export] Instance flexfec03_reader_laws : FecReaderLaws Flexfec03.Flexfec03HeaderReader.
Proof.
  assert (Hread : forall fp, bytes (fp_pkt fp) ->
    Flexfec03.ReadFecHeader fp = Ok None \/
    exists ssrc base n d, is_u16 base /\ mask_read_ok (fp_pkt fp) (Some (n, d)) /\
      Flexfec03.ReadFecHeader fp = Ok (Some (with_header fp (18 + n)%nat
        [mkProtectedStream ssrc base 18 n] (length d - (18 + n)) d))).
  { intros fp Hb. destruct (decide (length (fp_pkt fp) <= 18)%nat) as [Hs|Hs].
    { left. unfold Flexfec03.ReadFecHeader. by rewrite decide_True. }
    destruct (fp_pkt fp) as [|b0 d] eqn:Hd; [cbn in Hs; lia|]. take_bytes d 18%nat.
    erewrite flex_read by exact Hd. rewrite Hd.
    destruct (has_bits b0 _), (has_bits b0 _), (negb _); cbn [orb]; try (by left).
    case_bool_decide as H20; [by left|].
    destruct (flex_read_mask_total _ ltac:(apply Nat.nlt_ge; exact H20) Hb)
      as ([[n d']|] & -> & Hok); [|by left].
    right. split_bytes. do 4 eexists. cbn [mbind res_bind].
    rewrite flex_header_size by apply Hok. split; [|split; [exact Hok|reflexivity]]. by apply be16_range. }
  split; cbn [FecTypes.MaxTrackedPackets FecTypes.MaxStoredFecPackets FecTypes.ReadFecHeader
              Flexfec03.Flexfec03HeaderReader].
  - unfold Flexfec03.kMaxTrackedMediaPackets, Flexfec03.kMaxMediaPackets. lia.
  - unfold Flexfec03.kMaxTrackedMediaPackets, Flexfec03.kMaxMediaPackets. lia.
  - unfold Flexfec03.kMaxFecPackets, Flexfec03.kMaxMediaPackets. lia.
  - intros fp Hb. destruct (Hread fp Hb) as [->|(?&?&?&?&_&_&->)]; eauto.
  - intros fp fp' Hb. destruct (Hread fp Hb) as [->|(ssrc&base&n&d&Hbase&Hok&->)]; [done|].
    destruct Hok as (Hn & Hl & Hlen & Hbd).
    intros [= <-]. do 4 eexists. split; [done|]. unfold kRtpHeaderSize.
    cbn [ps_seq_num_base ps_packet_mask_offset ps_packet_mask_size].
    split_and!; try done; lia.
Qed.

(** ** Round trip of the mask through its K-bit form *)

(** [flex_mask mask n]: [mask] fits [n] wire bytes; written into a packet and
    read back it is the same mask, zero-extended. *)
Definition flex_mask (mask : list Z) (n : nat) : Prop :=
  forall p old rest, length p = 18%nat -> length old = n ->
    exists w, length w = n /\ bytes w /\
      Flexfec03.WritePacketMask mask (p ++ old ++ rest) = Ok (p ++ w ++ rest) /\
      Flexfec03.ReadPacketMask (p ++ w ++ rest) =
        Ok (Some (n, p ++ (mask ++ replicate (n - length mask) 0) ++ rest)).

Lemma has_bit0 m : has_bits m 0x01 = Z.testbit m 0.
Proof. apply (has_bits_pow2 m 0). lia. Qed.
Lemma has_bit1 m : has_bits m 0x02 = Z.testbit m 1.
Proof. apply (has_bits_pow2 m 1). lia. Qed.
Lemma has_bit6 m : has_bits m 0x40 = Z.testbit m 6.
Proof. apply (has_bits_pow2 m 6). lia. Qed.
Lemma has_bit7 m : has_bits m 0x80 = Z.testbit m 7.
Proof. apply (has_bits_pow2 m 7). lia. Qed.

Ltac flex_start p old :=
  take_bytes p 18%nat; destruct p; [|discriminate];
  repeat (let b := fresh "o" in destruct old as [|b old]; try discriminate);
  cbn [app].

Lemma and_rotate (A B C : Prop) : B /\ A /\ C -> A /\ B /\ C.
Proof. tauto. Qed.

Ltac flex_exec :=
  unfold Flexfec03.WritePacketMask, Flexfec03.ReadPacketMask; flex_unfold;
  cbn [length Nat.eqb]; io_unfold; cbv zeta; run; rewrite ?has_bit0, ?has_bit1.

(** Takes the written bytes from the executed writer, then runs the reader. *)
Ltac flex_written :=
  split; [reflexivity|];
  apply and_rotate;
  split; [reflexivity|split; [repeat (apply Forall_cons_2; [first [by apply uw_range | unfold in_uw; lia]|]); apply Forall_nil_2|]];
  cbn [app length]; run; rewrite ?has_bit7.

Ltac same_bytes :=
  cbn [Nat.sub replicate app length]; do 3 f_equal;
  repeat (apply (f_equal2 cons); [first [reflexivity | byte_eq; by rewrite ?orb_true_r]|]);
  reflexivity.

Lemma flex_mask_2 m0 m1 :
  is_byte m0 -> is_byte m1 -> Z.testbit m1 0 = false -> flex_mask [m0; m1] 2.
Proof.
  intros H0 H1 Hbit p old rest Hp Hold. flex_start p old.
  flex_exec. rewrite Hbit. cbn [negb]. run.
  eexists [_; _]. flex_written. testbits. same_bytes.
Qed.

Lemma flex_mask_2_wide m0 m1 :
  is_byte m0 -> is_byte m1 -> Z.testbit m1 0 = true -> flex_mask [m0; m1] 6.
Proof.
  intros H0 H1 Hbit p old rest Hp Hold. flex_start p old.
  flex_exec. rewrite Hbit. cbn [negb]. run.
  eexists [_; _; _; _; _; _]. flex_written. testbits.
  rewrite decide_False by (cbn [length]; lia). run. rewrite ?has_bit7. testbits. same_bytes.
Qed.

Lemma flex_mask_6 m0 m1 m2 m3 m4 m5 :
  is_byte m0 -> is_byte m1 -> is_byte m2 -> is_byte m3 -> is_byte m4 -> is_byte m5 ->
  Z.testbit m5 0 = false -> Z.testbit m5 1 = false ->
  flex_mask [m0; m1; m2; m3; m4; m5] 6.
Proof.
  intros H0 H1 H2 H3 H4 H5 Hb0 Hb1 p old rest Hp Hold. flex_start p old.
  flex_exec. destruct (Z.testbit m1 0) eqn:Hm1; run; rewrite ?has_bit0, ?has_bit1, Hb0, Hb1;
    cbn [negb andb]; run; eexists [_; _; _; _; _; _]; flex_written; testbits;
    (rewrite decide_False by (cbn [length]; lia)); run; rewrite ?has_bit7; testbits; same_bytes.
Qed.

Lemma flex_mask_6_wide m0 m1 m2 m3 m4 m5 :
  is_byte m0 -> is_byte m1 -> is_byte m2 -> is_byte m3 -> is_byte m4 -> is_byte m5 ->
  Z.testbit m5 0 || Z.testbit m5 1 = true ->
  flex_mask [m0; m1; m2; m3; m4; m5] 14.
Proof.
  intros H0 H1 H2 H3 H4 H5 Hb p old rest Hp Hold. flex_start p old.
  flex_exec.
  destruct (Z.testbit m1 0) eqn:Hm1, (Z.testbit m5 0) eqn:Hb0, (Z.testbit m5 1) eqn:Hb1;
    try discriminate; run; rewrite ?has_bit0, ?has_bit1, ?Hb0, ?Hb1;
    cbn [negb andb]; run; eexists [_; _; _; _; _; _; _; _; _; _; _; _; _; _];
    flex_written; testbits;
    (rewrite decide_False by (cbn [length]; lia)); run; rewrite ?has_bit7; testbits;
    (rewrite decide_False by (cbn [length]; lia)); run; rewrite ?has_bit7; testbits;
    cbn [negb]; run; same_bytes.
Qed.

(** ** Reader and writer together *)

(** ** The scheme *)

Lemma land1_odd m : is_byte m -> (Z.land m 0x01 =? 0) = negb (Z.testbit m 0).
Proof. intros. rewrite <- has_bit0. unfold has_bits. by rewrite negb_involutive. Qed.

Lemma land3_low m :
  is_byte m -> (Z.land m 0x03 =? 0) = negb (Z.testbit m 0 || Z.testbit m 1).
Proof.
  intros Hm. destruct (Z.testbit m 0 || Z.testbit m 1) eqn:E; cbn [negb].
  - apply Z.eqb_neq. intros H0.
    assert (Z.testbit (Z.land m 3) 0 = false /\ Z.testbit (Z.land m 3) 1 = false) as [Ha Hb]
      by (rewrite H0; by split).
    revert Ha Hb. testbits. intros Ha Hb. by rewrite Ha, Hb in E.
  - apply orb_false_iff in E as [E0 E1]. apply Z.eqb_eq. byte_eq; by rewrite ?E0, ?E1.
Qed.

(** [MinPacketMaskSize] picks a wire size in which the mask survives. *)
Lemma flex_min_mask mask min :
  length mask = 2%nat \/ length mask = 6%nat -> bytes mask ->
  Flexfec03.MinPacketMaskSize mask (length mask) = Ok min ->
  (min = 2 \/ min = 6 \/ min = 14)%nat /\ (length mask <= min)%nat /\ flex_mask mask min.
Proof.
  intros [Hm|Hm] Hb; rewrite Hm; unfold Flexfec03.MinPacketMaskSize; flex_unfold;
    cbn [Nat.eqb].
  - destruct mask as [|m0 [|m1 [|]]]; try discriminate. split_bytes. run.
    rewrite land1_odd by done. destruct (Z.testbit m1 0) eqn:E; cbn [negb]; intros [= <-];
      (split; [tauto|split; [lia|]]); [by apply flex_mask_2_wide|by apply flex_mask_2].
  - destruct mask as [|m0 [|m1 [|m2 [|m3 [|m4 [|m5 [|]]]]]]]; try discriminate.
    split_bytes. run. rewrite land3_low by done.
    destruct (Z.testbit m5 0 || Z.testbit m5 1) eqn:E; cbn [negb]; intros [= <-];
      (split; [tauto|split; [lia|]]); [by apply flex_mask_6_wide|].
    apply orb_false_iff in E as [? ?]. by apply flex_mask_6.
Qed.

Definition flex_prefix (ssrc base b0 b1 b2 b3 b4 b5 b6 b7 : Z) : list Z :=
  [u8 (Z.land (u8 (Z.land b0 0x7f)) 0xbf); b1; b2; b3; b4; b5; b6; b7;
   u8 Flexfec03.kSsrcCount; u8 (Z.shiftr 0 16); u8 (Z.shiftr 0 8); u8 (Z.shiftr 0 0);
   u8 (Z.shiftr ssrc 24); u8 (Z.shiftr ssrc 16); u8 (Z.shiftr ssrc 8); u8 ssrc;
   u8 (Z.shiftr base 8); u8 base].

Lemma flex_finalize ssrc base mask b0 b1 b2 b3 b4 b5 b6 b7 b8 b9 b10 b11 b12 b13 b14 b15 b16 b17 tl :
  Flexfec03.FinalizeFecHeader [mkWriterStream ssrc base mask]
    (b0 :: b1 :: b2 :: b3 :: b4 :: b5 :: b6 :: b7 :: b8 :: b9 :: b10 :: b11 ::
     b12 :: b13 :: b14 :: b15 :: b16 :: b17 :: tl) =
  Flexfec03.WritePacketMask mask (flex_prefix ssrc base b0 b1 b2 b3 b4 b5 b6 b7 ++ tl).
Proof.
  unfold Flexfec03.FinalizeFecHeader, rtc_check. cbn [length Nat.eqb ws_ssrc ws_seq_num_base ws_packet_mask].
  io_unfold. unfold ByteWriter.InternalWriteBigEndian. cbn [seq foldM Nat.add Nat.sub Nat.mul Z.of_nat].
  run. reflexivity.
Qed.

Lemma flex_low_bits b0 :
  is_byte b0 -> Z.land (u8 (Z.land (u8 (Z.land b0 0x7f)) 0xbf)) 0x3f = Z.land b0 0x3f.
Proof. intros. byte_eq. Qed.

Lemma flex_flags b0 :
  has_bits (u8 (Z.land (u8 (Z.land b0 0x7f)) 0xbf)) 0x80 = false /\
  has_bits (u8 (Z.land (u8 (Z.land b0 0x7f)) 0xbf)) 0x40 = false.
Proof. rewrite has_bit6, has_bit7. testbits. done. Qed.

Lemma be32_roundtrip v : is_u32 v ->
  Z.lor (Z.lor (Z.lor (Z.shiftl (u8 (Z.shiftr v 24)) 24) (Z.shiftl (u8 (Z.shiftr v 16)) 16))
               (Z.shiftl (u8 (Z.shiftr v 8)) 8)) (u8 v) = v.
Proof.
  intros Hv.
  assert (Hhigh : forall x j, 8 <= j -> Z.testbit (u8 x) j = false)
    by (intros; apply (in_uw_testbit 8); [by apply uw_range|done]).
  apply (uw_eq_bits 32); [lia| |done|].
  - apply in_uw_bits; [lia|]. intros i Hi. rewrite !Z.lor_spec, !Z.shiftl_spec by lia.
    by rewrite !Hhigh by lia.
  - intros i Hi. split_index i Hi 32%nat; testbits; reflexivity.
Qed.

#[export] Instance flexfec03_scheme_laws :
  FecSchemeLaws Flexfec03.Flexfec03HeaderReader Flexfec03.Flexfec03HeaderWriter false.
Proof.
  split; cbn [FecTypes.MaxMediaPackets FecTypes.MaxFecPackets FecTypes.MinPacketMaskSize
    FecTypes.FecHeaderSize FecTypes.FinalizeFecHeader FecTypes.ReadFecHeader
    Flexfec03.Flexfec03HeaderWriter Flexfec03.Flexfec03HeaderReader]; [done|done|by apply Nat.leb_le|by apply Nat.leb_le|..].
  - intros mask n min _ _. unfold Flexfec03.FlexfecHeaderSize. flex_unfold.
    repeat case_decide; lia.
  - intros mask n [-> | ->] Hlen; unfold Flexfec03.MinPacketMaskSize; flex_unfold; cbn [Nat.eqb].
    + destruct (buf_get_lt mask 1) as (m & _ & ->); [lia|]. eauto.
    + destruct (buf_get_lt mask 5) as (m & _ & ->); [lia|]. eauto.
  - intros mask n [-> | ->] Hlen; unfold Flexfec03.MinPacketMaskSize, buf_get; flex_unfold;
      cbn [Nat.eqb]; by rewrite lookup_take_lt by lia.
  - intros ssrc base mask min d Hm Hbm Hbd Hbase Hssrc Hmin Hd Hlen.
    destruct (flex_min_mask mask min Hm Hbm Hmin) as (Hmins & Hle & Hflex).
    rewrite flex_header_size in * by done.
    take_bytes d 18%nat. cbn [length] in Hd, Hlen. split_bytes. rewrite flex_finalize.
    rewrite <- (take_drop min d) in Hbd |- *.
    set (old := take _ d) in *. set (rest := drop _ d) in *.
    assert (Hold : length old = min) by (subst old; rewrite length_take; lia).
    assert (Hrest : length d = (min + length rest)%nat) by (subst rest; rewrite length_drop; lia).
    apply Forall_app in Hbd as [_ Hbr].
    set (p := flex_prefix _ _ _ _ _ _ _ _ _ _). assert (Hp : length p = 18%nat) by done.
    destruct (Hflex p old rest) as (w & Hw & Hbw & -> & Hread); [done|done|].
    eexists. split; [done|]. split.
    { apply Forall_app; split; [|by apply Forall_app].
      repeat (apply Forall_cons_2; [by (assumption || by apply uw_range)|]). done. }
    intros fssrc fseq. exists 18%nat, min, (p ++ (mask ++ replicate (min - length mask) 0) ++ rest).
    assert (Hl2 : length (mask ++ replicate (min - length mask) 0) = min)
      by (rewrite length_app, length_replicate; lia).
    split; [|split_and!].
    + destruct (w ++ rest) as [|w0 wr] eqn:Hwr; [destruct w; cbn in Hw; [lia|done]|].
      rewrite <- Hwr in Hread. 
      erewrite flex_read; [|cbn [fp_pkt new_fec_packet]; unfold p, flex_prefix; cbn [app]; reflexivity].
      destruct (flex_flags b) as [-> ->]. cbn [orb].
      rewrite bool_decide_false; cycle 1.
      { cbn [fp_pkt new_fec_packet]. rewrite <- Hwr, !length_app, Hw.
        cbn [length flex_prefix]. lia. }
      cbn [fp_pkt new_fec_packet]. rewrite <- Hwr, Hread. cbn [mbind res_bind negb Z.eqb].
      rewrite flex_header_size by done. rewrite be32_roundtrip, be16_roundtrip by done.
      change (negb (u8 Flexfec03.kSsrcCount =? 1)) with false. cbn [orb].
      do 2 f_equal. f_equal. cbn [length]. rewrite !length_app, length_replicate. lia.
    + rewrite !length_app, length_replicate. lia.
    + rewrite drop_app_length' by done. rewrite <- app_assoc.
      replace min with (length mask + (min - length mask))%nat at 2 by lia.
      apply mask_indices_zeros.
    + split_and!.
      * cbn [length]. rewrite !length_app, length_replicate. lia.
      * cbn. intros x x' [= <-] [= <-]. by apply flex_low_bits.
      * intros i Hi. by do 8 (destruct i as [|i]; [done || lia|]); lia.
      * intros i Hi. replace i with (18 + (i - 18))%nat by lia.
        rewrite <- !(lookup_drop _ 18). cbn [drop p flex_prefix app]. rewrite !drop_0.
        by rewrite !lookup_app_r, Hl2, Hold by lia.
Qed.
