(* ===== verification/Flexfec8627Header.v ===== *)
(** * Flexfec8627Header: [modules/rtp_rtcp/source/flexfec_header_reader_writer.cc]

    The FlexFEC header of RFC 8627.  One FEC packet protects several streams:
    behind eight bytes of recovery fields the header has, for each stream, its
    base sequence number and its packet mask, of 2, 6 or 14 bytes, with a K-bit
    in front of the first two parts that tells whether another part follows.
    The SSRCs are not in this header: the RTP header lists them, and the reader
    finds them in [protected_streams]. *)

From S2P Require Import Prelude ByteIo PacketMasks FecTypes Flexfec03Header.

Module Flexfec.

Definition kMaxMediaPackets : nat := 48.
Definition kMaxTrackedMediaPackets : nat := 4 * kMaxMediaPackets.
Definition kMaxFecPackets : nat := kMaxMediaPackets.
Definition kFlexfecPacketMaskSizes0 : nat := 2.
Definition kFlexfecPacketMaskSizes1 : nat := 6.
Definition kFlexfecPacketMaskSizes2 : nat := 14.
Definition kBaseHeaderSize : nat := 8.
Definition kStreamSpecificHeaderSize : nat := 2.
Definition kHeaderSizes0 : nat := kBaseHeaderSize + kStreamSpecificHeaderSize + kFlexfecPacketMaskSizes0.
Definition kHeaderSizes1 : nat := kBaseHeaderSize + kStreamSpecificHeaderSize + kFlexfecPacketMaskSizes1.
Definition kHeaderSizes2 : nat := kBaseHeaderSize + kStreamSpecificHeaderSize + kFlexfecPacketMaskSizes2.

Definition FlexfecHeaderSize (packet_mask_size : nat) : nat :=
  if decide (packet_mask_size <= kFlexfecPacketMaskSizes0)%nat then kHeaderSizes0
  else if decide (packet_mask_size <= kFlexfecPacketMaskSizes1)%nat then kHeaderSizes1
  else kHeaderSizes2.

(** The body of the loop of [ReadFecHeader]: one stream, with its SSRC, from
    [byte_index] on.  The K-bits are removed from the mask in place. *)
Definition read_stream (ssrc : Z) (data : Packet) (byte_index : nat)
    : res (option (ProtectedStream * Packet * nat)) :=
  if decide (length data < byte_index + kStreamSpecificHeaderSize)%nat then Ok None else
  let! seq_num_base := ByteReader.ReadBigEndian 16 2 data byte_index in
  let byte_index := (byte_index + kStreamSpecificHeaderSize)%nat in
  if decide (length data < byte_index + kFlexfecPacketMaskSizes0)%nat then Ok None else
  let stream := mkProtectedStream ssrc seq_num_base byte_index in
  let! m0 := buf_get data byte_index in
  let k_bit0 := has_bits m0 0x80 in
  let! mask_part0 := ByteReader.ReadBigEndian 16 2 data byte_index in
  let! data := ByteWriter.WriteBigEndian 2 data byte_index (u16 (Z.shiftl mask_part0 1)) in
  let byte_index := (byte_index + kFlexfecPacketMaskSizes0)%nat in
  if negb k_bit0 then Ok (Some (stream kFlexfecPacketMaskSizes0, data, byte_index)) else
  if decide (length data < byte_index + (kFlexfecPacketMaskSizes1 - kFlexfecPacketMaskSizes0))%nat
  then Ok None else
  let! m2 := buf_get data byte_index in
  let k_bit1 := has_bits m2 0x80 in
  let bit15 := Z.land (Z.shiftr m2 6) 0x01 in
  let! data := Flexfec03.or_byte data (byte_index - 1) bit15 in
  let! mask_part1 := ByteReader.ReadBigEndian 32 4 data byte_index in
  let! data := ByteWriter.WriteBigEndian 4 data byte_index (u32 (Z.shiftl mask_part1 2)) in
  let byte_index := (byte_index + (kFlexfecPacketMaskSizes1 - kFlexfecPacketMaskSizes0))%nat in
  if negb k_bit1 then Ok (Some (stream kFlexfecPacketMaskSizes1, data, byte_index)) else
  if decide (length data < byte_index + (kFlexfecPacketMaskSizes2 - kFlexfecPacketMaskSizes1))%nat
  then Ok None else
  let! m6 := buf_get data byte_index in
  let tail_bits := Z.land (Z.shiftr m6 6) 0x03 in
  let! data := Flexfec03.or_byte data (byte_index - 1) tail_bits in
  let! mask_part2 := ByteReader.ReadBigEndian 64 8 data byte_index in
  let! data := ByteWriter.WriteBigEndian 8 data byte_index (u64 (Z.shiftl mask_part2 2)) in
  let byte_index := (byte_index + (kFlexfecPacketMaskSizes2 - kFlexfecPacketMaskSizes1))%nat in
  Ok (Some (stream kFlexfecPacketMaskSizes2, data, byte_index)).

(** The loop; [ssrcs] are those the RTP header listed. *)
Fixpoint read_streams (ssrcs : list Z) (data : Packet) (byte_index : nat)
    : res (option (list ProtectedStream * Packet * nat)) :=
  match ssrcs with
  | [] => Ok (Some ([], data, byte_index))
  | ssrc :: ssrcs =>
      let! r := read_stream ssrc data byte_index in
      match r with
      | None => Ok None
      | Some (stream, data, byte_index) =>
          let! r := read_streams ssrcs data byte_index in
          match r with
          | None => Ok None
          | Some (streams, data, byte_index) => Ok (Some (stream :: streams, data, byte_index))
          end
      end
  end.

(** [FlexfecHeaderReader::ReadFecHeader]. *)
Definition ReadFecHeader (fec_packet : ReceivedFecPacket) : res (option ReceivedFecPacket) :=
  match fp_protected_streams fec_packet with
  | [] => Ok None
  | streams =>
      let data := fp_pkt fec_packet in
      if decide (length data <= kBaseHeaderSize + kStreamSpecificHeaderSize)%nat then Ok None else
      let! b0 := buf_get data 0 in
      let r_bit := has_bits b0 0x80 in
      if r_bit then Ok None else
      let f_bit := has_bits b0 0x40 in
      if f_bit then Ok None else
      let! r := read_streams (map ps_ssrc streams) data 8 in
      match r with
      | None => Ok None
      | Some (streams, data, fec_header_size) =>
          Ok (Some (with_header fec_packet fec_header_size streams (length data - fec_header_size) data))
      end
  end.

(** [FlexfecHeaderWriter::MinPacketMaskSize]. *)
Definition MinPacketMaskSize (packet_mask : list Z) (packet_mask_size : nat) : res nat :=
  if (packet_mask_size =? kUlpfecPacketMaskSizeLBitClear)%nat then
    let! m1 := buf_get packet_mask 1 in
    Ok (if Z.land m1 0x01 =? 0 then kFlexfecPacketMaskSizes0 else kFlexfecPacketMaskSizes1)
  else if (packet_mask_size =? kUlpfecPacketMaskSizeLBitSet)%nat then
    let! m5 := buf_get packet_mask 5 in
    Ok (if Z.land m5 0x03 =? 0 then kFlexfecPacketMaskSizes1 else kFlexfecPacketMaskSizes2)
  else Ok kFlexfecPacketMaskSizes2.

(** The body of the loop of [FinalizeFecHeader]: the base sequence number and
    the mask of one stream, from [write_at] on. *)
Definition write_stream (protected_stream : WriterStream) (data : Packet) (write_at : nat)
    : res (Packet * nat) :=
  let packet_mask := ws_packet_mask protected_stream in
  let! data := ByteWriter.WriteBigEndian 2 data write_at (ws_seq_num_base protected_stream) in
  let write_at := (write_at + kStreamSpecificHeaderSize)%nat in
  if (length packet_mask =? kUlpfecPacketMaskSizeLBitSet)%nat then
    let! tmp_mask_part0 := ByteReader.ReadBigEndian 16 2 packet_mask 0 in
    let! tmp_mask_part1 := ByteReader.ReadBigEndian 32 4 packet_mask 2 in
    let! data := ByteWriter.WriteBigEndian 2 data write_at (Z.shiftr tmp_mask_part0 1) in
    let! data := Flexfec03.or_byte data write_at 0x80 in
    let write_at := (write_at + kFlexfecPacketMaskSizes0)%nat in
    let! data := ByteWriter.WriteBigEndian 4 data write_at (Z.shiftr tmp_mask_part1 2) in
    let! m1 := buf_get packet_mask 1 in
    let bit15 := has_bits m1 0x01 in
    let! data := if bit15 then Flexfec03.or_byte data write_at 0x40 else Ok data in
    let! m5 := buf_get packet_mask 5 in
    let bit46 := has_bits m5 0x02 in
    let bit47 := has_bits m5 0x01 in
    if negb bit46 && negb bit47 then
      Ok (data, (write_at + (kFlexfecPacketMaskSizes1 - kFlexfecPacketMaskSizes0))%nat)
    else
      let! data := Flexfec03.or_byte data write_at 0x80 in
      let write_at := (write_at + (kFlexfecPacketMaskSizes1 - kFlexfecPacketMaskSizes0))%nat in
      let! data := memset0 data write_at (kFlexfecPacketMaskSizes2 - kFlexfecPacketMaskSizes1) in
      let! data := if bit46 then Flexfec03.or_byte data write_at 0x80 else Ok data in
      let! data := if bit47 then Flexfec03.or_byte data write_at 0x40 else Ok data in
      Ok (data, (write_at + (kFlexfecPacketMaskSizes2 - kFlexfecPacketMaskSizes1))%nat)
  else if (length packet_mask =? kUlpfecPacketMaskSizeLBitClear)%nat then
    let! tmp_mask_part0 := ByteReader.ReadBigEndian 16 2 packet_mask 0 in
    let! data := ByteWriter.WriteBigEndian 2 data write_at (Z.shiftr tmp_mask_part0 1) in
    let! m1 := buf_get packet_mask 1 in
    let bit15 := has_bits m1 0x01 in
    if negb bit15 then Ok (data, (write_at + kFlexfecPacketMaskSizes0)%nat)
    else
      let! data := Flexfec03.or_byte data write_at 0x80 in
      let write_at := (write_at + kFlexfecPacketMaskSizes0)%nat in
      let! data := memset0 data write_at (kFlexfecPacketMaskSizes1 - kFlexfecPacketMaskSizes0) in
      let! data := Flexfec03.or_byte data write_at 0x40 in
      Ok (data, (write_at + (kFlexfecPacketMaskSizes1 - kFlexfecPacketMaskSizes0))%nat)
  else Ok (data, write_at).

(** [FlexfecHeaderWriter::FinalizeFecHeader]. *)
Definition FinalizeFecHeader (protected_streams : list WriterStream) (data : Packet) : res Packet :=
  let! b0 := buf_get data 0 in
  let! data := buf_set data 0 (Z.land b0 0x7f) in
  let! b0 := buf_get data 0 in
  let! data := buf_set data 0 (Z.land b0 0xbf) in
  let! r := foldM (fun '(data, write_at) stream => write_stream stream data write_at) protected_streams
              (data, 8%nat) in
  Ok r.1.

(** The constructors of the reader and the writer. *)
#[export] Instance FlexfecHeaderReader : FecHeaderReader := {|
  FecTypes.MaxTrackedPackets := kMaxTrackedMediaPackets;
  FecTypes.MaxStoredFecPackets := kMaxFecPackets;
  FecTypes.ReadFecHeader := ReadFecHeader
|}.

#[export] Instance FlexfecHeaderWriter : FecHeaderWriter := {|
  FecTypes.MaxMediaPackets := kMaxMediaPackets;
  FecTypes.MaxFecPackets := kMaxFecPackets;
  FecTypes.MaxPacketOverhead := kHeaderSizes2;
  FecTypes.MinPacketMaskSize := MinPacketMaskSize;
  FecTypes.FecHeaderSize := FlexfecHeaderSize;
  FecTypes.FinalizeFecHeader := FinalizeFecHeader
|}.

End Flexfec.
Import Flexfec.

(** ** Access behind a prefix *)

Lemma buf_get_app p l i : buf_get (p ++ l) (length p + i) = buf_get l i.
Proof. unfold buf_get. rewrite lookup_app_r by lia. by replace (length p + i - length p)%nat with i by lia. Qed.

Lemma buf_set_app p l i v : buf_set (p ++ l) (length p + i) v = app p <$> buf_set l i v.
Proof.
  unfold buf_set. rewrite length_app. destruct (decide (i < length l)%nat) as [Hi|Hi].
  - rewrite !decide_True by lia. cbn. by rewrite insert_app_r.
  - by rewrite !decide_False by lia.
Qed.

Lemma memset0_app p l i n : memset0 (p ++ l) (length p + i) n = app p <$> memset0 l i n.
Proof.
  unfold memset0. rewrite length_app. destruct (decide (i + n <= length l)%nat) as [Hi|Hi].
  - rewrite !decide_True by lia. cbn. rewrite take_app_add', <- Nat.add_assoc, drop_app_add' by done.
    by rewrite <- app_assoc.
  - by rewrite !decide_False by lia.
Qed.

Lemma or_byte_app p l i v : Flexfec03.or_byte (p ++ l) (length p + i) v = app p <$> Flexfec03.or_byte l i v.
Proof.
  unfold Flexfec03.or_byte. rewrite buf_get_app. destruct (buf_get l i); [|done]. apply buf_set_app.
Qed.

Lemma bind_fmap {A B C} (f : A -> B) (k : B -> res C) (m : res A) :
  (let! b := f <$> m in k b) = let! a := m in k (f a).
Proof. by destruct m. Qed.

Lemma fmap_bind_res {A B C} (f : B -> C) (k : A -> res B) (m : res A) :
  f <$> (let! a := m in k a) = let! a := m in f <$> k a.
Proof. by destruct m. Qed.

Lemma bind_ext_res {A B} (k k' : A -> res B) (m : res A) :
  (forall a, k a = k' a) -> (let! a := m in k a) = let! a := m in k' a.
Proof. intros E. destruct m; [apply E|done]. Qed.

Ltac relocate :=
  rewrite <- ?Nat.add_assoc, ?buf_get_app, ?buf_set_app, ?or_byte_app, ?memset0_app, ?bind_fmap, ?fmap_bind_res.

Lemma ReadBigEndian_app tw B p l i :
  ByteReader.ReadBigEndian tw B (p ++ l) (length p + i) = ByteReader.ReadBigEndian tw B l i.
Proof.
  assert (Hint : ByteReader.InternalReadBigEndian tw B (p ++ l) (length p + i) =
                 ByteReader.InternalReadBigEndian tw B l i).
  { unfold ByteReader.InternalReadBigEndian. generalize 0. induction (seq 0 B) as [|x xs IH]; intros v; [done|].
    cbn [foldM]. relocate. destruct (buf_get l (i + x)); [apply IH|done]. }
  do 9 (destruct B as [|B]; [first [exact Hint | unfold ByteReader.ReadBigEndian, ByteReader.ReadBigEndian1,
     ByteReader.ReadBigEndian2, ByteReader.ReadBigEndian4, ByteReader.ReadBigEndian8;
     relocate; repeat (apply bind_ext_res; intros; relocate); done]|]). exact Hint.
Qed.

Lemma WriteBigEndian_app B p l i v :
  ByteWriter.WriteBigEndian B (p ++ l) (length p + i) v = app p <$> ByteWriter.WriteBigEndian B l i v.
Proof.
  assert (Hint : ByteWriter.InternalWriteBigEndian B (p ++ l) (length p + i) v =
                 app p <$> ByteWriter.InternalWriteBigEndian B l i v).
  { unfold ByteWriter.InternalWriteBigEndian. revert l. induction (seq 0 B) as [|x xs IH]; intros l; [done|].
    cbn [foldM]. relocate. apply bind_ext_res. intros d. apply IH. }
  do 9 (destruct B as [|B]; [first [exact Hint | unfold ByteWriter.WriteBigEndian, ByteWriter.WriteBigEndian1,
     ByteWriter.WriteBigEndian2, ByteWriter.WriteBigEndian4, ByteWriter.WriteBigEndian8;
     relocate; repeat (apply bind_ext_res; intros; relocate); done]|]). exact Hint.
Qed.

(** What is read [length p] bytes further back, behind the bytes [p]. *)
Definition moved (p : Packet) (r : ProtectedStream * Packet * nat) : ProtectedStream * Packet * nat :=
  let '(s, d, j) := r in
  (mkProtectedStream (ps_ssrc s) (ps_seq_num_base s) (length p + ps_packet_mask_offset s) (ps_packet_mask_size s),
   p ++ d, length p + j)%nat.

Lemma decide_app_lt {A} (p l : Packet) i (x y : A) :
  (if decide (length (p ++ l) < length p + i)%nat then x else y) = if decide (length l < i)%nat then x else y.
Proof. rewrite length_app. repeat case_decide; lia || done. Qed.

Ltac sizes :=
  unfold kHeaderSizes0, kHeaderSizes1, kHeaderSizes2, kBaseHeaderSize, kStreamSpecificHeaderSize,
    kFlexfecPacketMaskSizes0, kFlexfecPacketMaskSizes1, kFlexfecPacketMaskSizes2,
    kUlpfecPacketMaskSizeLBitClear, kUlpfecPacketMaskSizeLBitSet; cbn [Nat.sub].

Ltac behind :=
  cbv zeta; rewrite <- ?Nat.add_assoc;
  repeat match goal with |- context [(length ?p + ?x - 1)%nat] =>
    rewrite <- (Nat.add_sub_assoc (length p) x 1) by lia end;
  rewrite ?bind_ok, ?decide_app_lt, ?buf_get_app, ?buf_set_app, ?or_byte_app, ?memset0_app, ?ReadBigEndian_app,
    ?WriteBigEndian_app, ?bind_fmap, ?fmap_bind_res.

Ltac behind_step :=
  match goal with
  | |- mbind _ ?m = mbind _ ?m => apply bind_ext_res; intros
  | |- context [if ?b then Flexfec03.or_byte _ _ _ else _] => destruct b
  | |- (if ?b then _ else _) = _ <$> (if ?b then _ else _) => destruct b; [try reflexivity|try reflexivity]
  end; behind.

Lemma read_stream_app ssrc p l i :
  read_stream ssrc (p ++ l) (length p + i) = option_map (moved p) <$> read_stream ssrc l i.
Proof. unfold read_stream. sizes. behind. repeat behind_step; done. Qed.

Lemma write_stream_app s p l i :
  write_stream s (p ++ l) (length p + i) = (fun '(d, j) => (p ++ d, length p + j)%nat) <$> write_stream s l i.
Proof. unfold write_stream. sizes. behind. repeat behind_step; done. Qed.

(** ** One stream through writer and reader *)

(** [stream_mask mask n]: [mask] fits [n] bytes on the wire; written behind its base
    sequence number and read back it is the same mask, zero-extended. *)
Definition stream_mask (mask : list Z) (n : nat) : Prop :=
  forall ssrc base old, is_u16 base -> length old = (2 + n)%nat ->
    exists w,
      (forall rest, write_stream (mkWriterStream ssrc base mask) (old ++ rest) 0 = Ok (w ++ rest, 2 + n)%nat) /\
      length w = (2 + n)%nat /\ bytes w /\
      (forall rest ssrc', read_stream ssrc' (w ++ rest) 0 =
         Ok (Some (mkProtectedStream ssrc' base 2 n,
                   [u8 (Z.shiftr base 8); u8 base] ++ (mask ++ replicate (n - length mask) 0) ++ rest, (2 + n)%nat))).

Ltac stream_start old := repeat (let b := fresh "o" in destruct old as [|b old]; try discriminate); cbn [app].

Ltac stream_write rest :=
  intros rest; unfold write_stream; sizes; io_unfold; cbn [length Nat.eqb ws_packet_mask ws_seq_num_base app];
  cbn [Nat.add]; run; rewrite ?has_bit0, ?has_bit1.

Ltac stream_bytes :=
  split; [reflexivity|]; split;
  [repeat (apply Forall_cons_2; [first [by apply uw_range | unfold in_uw; lia]|]); apply Forall_nil_2|].

Ltac stream_read rest :=
  intros rest ssrc'; unfold read_stream; sizes; io_unfold; cbn [app length]; cbn [Nat.add Nat.sub];
  repeat first [rewrite decide_False by (cbn [length]; lia) | progress run | progress rewrite ?has_bit7 | progress testbits | progress cbn [negb]].

Ltac stream_same :=
  rewrite ?be16_roundtrip by done; cbn [Nat.sub replicate app length];
  apply f_equal, f_equal, (f_equal2 pair); [|reflexivity]; apply (f_equal2 pair); [reflexivity|];
  repeat (apply (f_equal2 cons); [first [reflexivity | byte_eq; by rewrite ?orb_true_r]|]); reflexivity.

Lemma stream_mask_2 m0 m1 :
  is_byte m0 -> is_byte m1 -> Z.testbit m1 0 = false -> stream_mask [m0; m1] 2.
Proof.
  intros H0 H1 Hbit ssrc base old Hbase Hold. stream_start old. eexists [_; _; _; _].
  split; [stream_write rest; rewrite Hbit; reflexivity|]. stream_bytes.
  stream_read rest. stream_same.
Qed.

Lemma stream_mask_2_wide m0 m1 :
  is_byte m0 -> is_byte m1 -> Z.testbit m1 0 = true -> stream_mask [m0; m1] 6.
Proof.
  intros H0 H1 Hbit ssrc base old Hbase Hold. stream_start old. eexists [_; _; _; _; _; _; _; _].
  split; [stream_write rest; rewrite Hbit; cbn [negb]; run; reflexivity|]. stream_bytes.
  stream_read rest. stream_same.
Qed.

Lemma stream_mask_6 m0 m1 m2 m3 m4 m5 :
  is_byte m0 -> is_byte m1 -> is_byte m2 -> is_byte m3 -> is_byte m4 -> is_byte m5 ->
  Z.testbit m5 0 = false -> Z.testbit m5 1 = false -> stream_mask [m0; m1; m2; m3; m4; m5] 6.
Proof.
  intros H0 H1 H2 H3 H4 H5 Hb0 Hb1 ssrc base old Hbase Hold. stream_start old.
  destruct (Z.testbit m1 0) eqn:Hm1; eexists [_; _; _; _; _; _; _; _];
    (split; [stream_write rest; rewrite Hm1; run; rewrite ?has_bit0, ?has_bit1, Hb0, Hb1; reflexivity|]);
    stream_bytes; stream_read rest; stream_same.
Qed.

Lemma stream_mask_6_wide m0 m1 m2 m3 m4 m5 :
  is_byte m0 -> is_byte m1 -> is_byte m2 -> is_byte m3 -> is_byte m4 -> is_byte m5 ->
  Z.testbit m5 0 || Z.testbit m5 1 = true -> stream_mask [m0; m1; m2; m3; m4; m5] 14.
Proof.
  intros H0 H1 H2 H3 H4 H5 Hb ssrc base old Hbase Hold. stream_start old.
  destruct (Z.testbit m1 0) eqn:Hm1, (Z.testbit m5 0) eqn:Hb0, (Z.testbit m5 1) eqn:Hb1; try discriminate;
    eexists [_; _; _; _; _; _; _; _; _; _; _; _; _; _; _; _];
    (split; [stream_write rest; rewrite Hm1; run; rewrite ?has_bit0, ?has_bit1, Hb0, Hb1; cbn [negb andb]; run; reflexivity|]);
    stream_bytes; stream_read rest; stream_same.
Qed.

(** [MinPacketMaskSize] picks a wire size in which the mask survives. *)
Lemma min_stream_mask mask n :
  length mask = 2%nat \/ length mask = 6%nat -> bytes mask -> MinPacketMaskSize mask (length mask) = Ok n ->
  (n = 2 \/ n = 6 \/ n = 14)%nat /\ (length mask <= n)%nat /\ stream_mask mask n.
Proof.
  intros [Hm|Hm] Hb; rewrite Hm; unfold MinPacketMaskSize; sizes; cbn [Nat.eqb].
  - destruct mask as [|m0 [|m1 [|]]]; try discriminate. split_bytes. run.
    rewrite land1_odd by done. destruct (Z.testbit m1 0) eqn:E; cbn [negb]; intros [= <-];
      (split; [tauto|split; [lia|]]); [by apply stream_mask_2_wide|by apply stream_mask_2].
  - destruct mask as [|m0 [|m1 [|m2 [|m3 [|m4 [|m5 [|]]]]]]]; try discriminate.
    split_bytes. run. rewrite land3_low by done.
    destruct (Z.testbit m5 0 || Z.testbit m5 1) eqn:E; cbn [negb]; intros [= <-];
      (split; [tauto|split; [lia|]]); [by apply stream_mask_6_wide|].
    apply orb_false_iff in E as [? ?]. by apply stream_mask_6.
Qed.

(** ** All streams of a packet *)

(** The bytes that the streams with masks of [sizes] bytes take. *)
Definition streams_size (sizes : list nat) : nat := sum_list_with (fun n => 2 + n)%nat sizes.

(** A stream that fits [n] bytes of mask. *)
Definition fits (s : WriterStream) (n : nat) : Prop :=
  is_u16 (ws_seq_num_base s) /\ (length (ws_packet_mask s) <= n)%nat /\ stream_mask (ws_packet_mask s) n.

(** What the reader reports of stream [s] of the packet, and where its mask lies now. *)
Definition read_back (d : Packet) (hdr : nat) (s : WriterStream) (o : ProtectedStream) : Prop :=
  ps_ssrc o = ws_ssrc s /\ ps_seq_num_base o = ws_seq_num_base s /\
  (ps_packet_mask_offset o + ps_packet_mask_size o <= hdr)%nat /\
  mask_indices (drop (ps_packet_mask_offset o) d) (ps_packet_mask_size o) =
    mask_indices (ws_packet_mask s) (length (ws_packet_mask s)).

Lemma write_stream_at s p old rest w j :
  (forall rest, write_stream s (old ++ rest) 0 = Ok (w ++ rest, j)) ->
  write_stream s (p ++ old ++ rest) (length p) = Ok (p ++ w ++ rest, length p + j)%nat.
Proof. intros Hw. pose proof (write_stream_app s p (old ++ rest) 0) as E. by rewrite Nat.add_0_r, Hw in E. Qed.

Lemma read_stream_at ssrc p l :
  read_stream ssrc (p ++ l) (length p) = option_map (moved p) <$> read_stream ssrc l 0.
Proof. rewrite <- read_stream_app. by rewrite Nat.add_0_r. Qed.

Lemma streams_roundtrip streams sizes old :
  Forall2 fits streams sizes -> length old = streams_size sizes ->
  exists w w', length w = length old /\ length w' = length old /\ bytes w /\
    (forall p rest, foldM (fun '(data, write_at) stream => write_stream stream data write_at) streams
                      (p ++ old ++ rest, length p) = Ok (p ++ w ++ rest, length p + length old)%nat) /\
    (forall p rest, exists outs,
       read_streams (map ws_ssrc streams) (p ++ w ++ rest) (length p) =
         Ok (Some (outs, p ++ w' ++ rest, length p + length old)%nat) /\
       Forall2 (read_back (p ++ w' ++ rest) (length p + length old)) streams outs).
Proof.
  intros Hf. revert old. induction Hf as [|s n streams sizes [Hbase [Hle Hmask]] Hf IH]; intros old Hold.
  { destruct old; [|done]. exists [], []. split_and!; try done; intros p rest; cbn; rewrite Nat.add_0_r; [done|].
    exists []. by split. }
  unfold streams_size in Hold. cbn [sum_list_with] in Hold.
  rewrite <- (take_drop (2 + n) old). set (old1 := take _ old). set (old2 := drop _ old).
  assert (H1 : length old1 = (2 + n)%nat) by (subst old1; rewrite length_take; lia).
  assert (H2 : length old2 = streams_size sizes) by (subst old2; rewrite length_drop; unfold streams_size; lia).
  clearbody old1 old2. clear Hold.
  destruct s as [ssrc base mask]. cbn [ws_seq_num_base ws_packet_mask] in *.
  destruct (Hmask ssrc base old1 Hbase H1) as (w1 & Hwr & Hw1 & Hb1 & Hrd).
  destruct (IH old2 H2) as (w2 & w2' & Hl2 & Hl2' & Hb2 & Hwr2 & Hrd2).
  set (w1' := [u8 (Z.shiftr base 8); u8 base] ++ mask ++ replicate (n - length mask) 0).
  assert (Hw1' : length w1' = (2 + n)%nat).
  { subst w1'. cbn [app length]. rewrite length_app, length_replicate. lia. }
  exists (w1 ++ w2), (w1' ++ w2'). rewrite !length_app. split_and!; [lia|lia|by apply Forall_app|..]; intros p rest.
  - cbn [foldM]. rewrite <- !app_assoc, (write_stream_at _ p old1 (old2 ++ rest) w1 (2 + n)) by done.
    cbn [mbind res_bind]. specialize (Hwr2 (p ++ w1) rest). rewrite length_app, <- !app_assoc, Hw1 in Hwr2.
    rewrite Hwr2. do 2 f_equal. lia.
  - destruct (Hrd2 (p ++ w1') rest) as (outs & E2 & Hout). rewrite length_app, <- !app_assoc, Hw1' in E2, Hout.
    eexists (_ :: outs). cbn [map read_streams ws_ssrc]. rewrite <- !app_assoc, read_stream_at, Hrd.
    cbn [fmap res_fmap option_map moved mbind res_bind ps_ssrc ps_seq_num_base ps_packet_mask_offset ps_packet_mask_size].
    fold w1'.
    assert (Ew : [u8 (Z.shiftr base 8); u8 base] ++ (mask ++ replicate (n - length mask) 0) ++ w2 ++ rest = w1' ++ w2 ++ rest)
      by (subst w1'; by rewrite <- !app_assoc).
    rewrite Ew, E2. cbn [mbind res_bind].
    replace (length p + (2 + n) + length old2)%nat with (length p + (length old1 + length old2))%nat in * by lia.
    split; [by rewrite <- app_assoc|]. constructor; [|exact Hout].
    split_and!; cbn [ps_ssrc ps_seq_num_base ps_packet_mask_offset ps_packet_mask_size ws_ssrc ws_seq_num_base ws_packet_mask];
      [done|done|lia|].
    subst w1'. rewrite drop_app_add'  by done. cbn [app drop]. rewrite <- !app_assoc.
    replace n with (length mask + (n - length mask))%nat at 2 by lia. apply mask_indices_zeros.
Qed.

(** ** Arbitrary packets *)

(** The streams of a header that begins at byte [i] and ends before byte [j]. *)
Fixpoint laid_out (i : nat) (streams : list ProtectedStream) (j : nat) : Prop :=
  match streams with
  | [] => i = j
  | s :: streams =>
      is_u16 (ps_seq_num_base s) /\ ps_packet_mask_offset s = (i + 2)%nat /\
      (ps_packet_mask_size s = 2 \/ ps_packet_mask_size s = 6 \/ ps_packet_mask_size s = 14)%nat /\
      laid_out (i + 2 + ps_packet_mask_size s) streams j
  end.

(** What the reader returns on the packet [d] for [ssrcs], from byte [i] on. *)
Definition streams_read (ssrcs : list Z) (d : Packet) (i : nat)
    (r : option (list ProtectedStream * Packet * nat)) : Prop :=
  match r with
  | None => True
  | Some (streams, d', j) =>
      map ps_ssrc streams = ssrcs /\ laid_out i streams j /\ (j <= length d)%nat /\ length d' = length d /\ bytes d'
  end.

Ltac read_result :=
  eexists; split; [reflexivity|]; cbn [option_map streams_read map ps_ssrc laid_out ps_seq_num_base
    ps_packet_mask_offset ps_packet_mask_size length];
  split_and!; try lia; [done|by apply be16_range|solve_bytes].

Lemma read_stream_total ssrc d :
  bytes d -> exists r, read_stream ssrc d 0 = Ok r /\
    streams_read [ssrc] d 0 (option_map (fun '(s, d', j) => ([s], d', j)) r).
Proof.
  intros Hb. unfold read_stream. sizes. io_unfold.
  case_decide as H2; [by eexists|]. take_bytes d 2%nat. split_bytes. run_abstract.
  case_decide as H4; [by eexists|]. cbn [length] in H4. take_bytes d 2%nat. split_bytes. run_abstract.
  destruct (has_bits _ 0x80); cbn [negb]; [|read_result].
  case_decide as H8; [by eexists|]. cbn [length] in H8. take_bytes d 4%nat. split_bytes. cbn [Nat.sub]. run_abstract.
  destruct (has_bits _ 0x80); cbn [negb]; [|read_result].
  case_decide as H16; [by eexists|]. cbn [length] in H16. take_bytes d 8%nat. split_bytes. cbn [Nat.sub]. run_abstract.
  read_result.
Qed.

Lemma read_streams_total ssrcs d i :
  bytes d -> (i <= length d)%nat -> exists r, read_streams ssrcs d i = Ok r /\ streams_read ssrcs d i r.
Proof.
  revert d i. induction ssrcs as [|ssrc ssrcs IH]; intros d i Hb Hi; [by eexists|]. cbn [read_streams].
  pose proof (take_drop i d) as Ed. set (p := take i d) in *. set (l := drop i d) in *.
  assert (Hp : length p = i) by (subst p; rewrite length_take; lia). clearbody p l. subst d i.
  rewrite length_app in *. apply Forall_app in Hb as [Hbp Hbl]. rewrite read_stream_at.
  destruct (read_stream_total ssrc l Hbl) as ([[[s d'] j]|] & -> & Hs); [|by eexists].
  cbn in Hs. destruct Hs as (Es & (Hbase & Eoff & Hsize & Ej) & Hj & Hl & Hb'). injection Es as Es.
  cbn [fmap res_fmap option_map moved mbind res_bind].
  destruct (IH (p ++ d') (length p + j)%nat ltac:(by apply Forall_app) ltac:(rewrite length_app; lia))
    as ([[[streams d''] j']|] & -> & Hr); [|by eexists].
  eexists; split; [done|]. cbn [mbind res_bind streams_read map laid_out ps_ssrc ps_seq_num_base
    ps_packet_mask_offset ps_packet_mask_size] in *.
  destruct Hr as (Es' & Hlay & Hj' & Hl' & Hb''). rewrite length_app in *. rewrite Es, Es'.
  split_and!; try done; try lia. by replace (length p + 2 + ps_packet_mask_size s)%nat with (length p + j)%nat by lia.
Qed.

(** The reader on any bytes, whatever streams the RTP header lists: it returns, and never
    reads outside the packet; what it accepts has one stream per SSRC listed,
    whose masks follow each other inside the header, and the header inside the
    packet. *)
Lemma ReadFecHeader_total fp :
  bytes (fp_pkt fp) -> exists r, Flexfec.ReadFecHeader fp = Ok r /\
    forall fp', r = Some fp' -> exists streams hdr d,
      fp' = with_header fp hdr streams (length d - hdr) d /\
      streams_read (map ps_ssrc (fp_protected_streams fp)) (fp_pkt fp) 8 (Some (streams, d, hdr)).
Proof.
  intros Hb. unfold Flexfec.ReadFecHeader. destruct (fp_protected_streams fp) as [|s ss] eqn:Es; [by eexists|].
  sizes. case_decide as Hl; [by eexists|].
  destruct (buf_get_lt (fp_pkt fp) 0) as (b0 & _ & ->); [lia|]. cbn [mbind res_bind].
  destruct (has_bits b0 0x80); [by eexists|]. destruct (has_bits b0 0x40); [by eexists|].
  destruct (read_streams_total (map ps_ssrc (s :: ss)) (fp_pkt fp) 8 Hb ltac:(lia)) as ([[[streams d] hdr]|] & -> & Hr);
    [|by eexists].
  eexists; split; [done|]. intros fp' [= <-]. by exists streams, hdr, d.
Qed.

(** ** The scheme *)

(** The mask of stream [s] takes [n] bytes of the header. *)
Definition mask_room (s : WriterStream) (n : nat) : Prop :=
  is_u16 (ws_seq_num_base s) /\ bytes (ws_packet_mask s) /\
  (length (ws_packet_mask s) = 2 \/ length (ws_packet_mask s) = 6)%nat /\
  Flexfec.MinPacketMaskSize (ws_packet_mask s) (length (ws_packet_mask s)) = Ok n.

Lemma mask_room_fits streams sizes : Forall2 mask_room streams sizes -> Forall2 fits streams sizes.
Proof.
  intros Hr. eapply Forall2_impl; [exact Hr|]. intros s n (Hbase & Hb & Hl & Hn).
  destruct (min_stream_mask _ _ Hl Hb Hn) as (_ & Hle & Hm). by split_and!.
Qed.

Lemma split_at n (d : Packet) : (n <= length d)%nat -> exists a b, d = a ++ b /\ length a = n.
Proof. intros Hn. exists (take n d), (drop n d). rewrite take_drop, length_take. split; [done|lia]. Qed.

(** The eight bytes in front of the streams, with the flags cleared. *)
Definition recovery_prefix (b0 : Z) (bs : list Z) : list Z := u8 (Z.land (u8 (Z.land b0 0x7f)) 0xbf) :: bs.

Lemma finalize_streams streams b0 bs l :
  length bs = 7%nat ->
  Flexfec.FinalizeFecHeader streams (b0 :: bs ++ l) =
    let! r := foldM (fun '(data, write_at) stream => write_stream stream data write_at) streams
                (recovery_prefix b0 bs ++ l, length (recovery_prefix b0 bs)) in Ok r.1.
Proof. intros Hbs. unfold Flexfec.FinalizeFecHeader. cbn [recovery_prefix length app]. rewrite Hbs. run. reflexivity. Qed.

Lemma read_prefix fp b0 bs l :
  length bs = 7%nat -> (4 <= length l)%nat -> fp_protected_streams fp <> [] -> fp_pkt fp = recovery_prefix b0 bs ++ l ->
  Flexfec.ReadFecHeader fp =
    let! r := read_streams (map ps_ssrc (fp_protected_streams fp)) (fp_pkt fp) (length (recovery_prefix b0 bs)) in
    match r with
    | None => Ok None
    | Some (streams, d, hdr) => Ok (Some (with_header fp hdr streams (length d - hdr) d))
    end.
Proof.
  intros Hbs Hl Hne Ep. unfold Flexfec.ReadFecHeader. rewrite Ep.
  destruct (fp_protected_streams fp) as [|s ss]; [done|]. sizes.
  rewrite decide_False by (rewrite length_app; cbn [recovery_prefix length]; lia).
  cbn [recovery_prefix app length]. rewrite Hbs. run. by destruct (flex_flags b0) as [-> ->].
Qed.

(** C31. The RFC 8627 header of a packet that protects any number of streams.
    Finalize the header for [streams], whose masks need [sizes] bytes, in a packet
    with room for it: the writer stays inside the packet, and from the result,
    together with the SSRCs of the RTP header, the reader gets back the header
    size, for each stream its base sequence number and exactly the positions its
    mask protects, and every recovery byte in its place.  For one stream the
    header has the size that [FecHeaderSize] reserves. *)
Theorem flexfec_8627_roundtrip streams sizes d :
  streams <> [] -> Forall2 mask_room streams sizes -> bytes d ->
  let hdr := (8 + streams_size sizes)%nat in (hdr <= length d)%nat ->
  (forall n, sizes = [n] -> Flexfec.FlexfecHeaderSize n = hdr) /\
  exists d', Flexfec.FinalizeFecHeader streams d = Ok d' /\ bytes d' /\
    forall fp, fp_pkt fp = d' -> map ps_ssrc (fp_protected_streams fp) = map ws_ssrc streams ->
      exists outs d'',
        Flexfec.ReadFecHeader fp = Ok (Some (with_header fp hdr outs (length d - hdr) d'')) /\
        Forall2 (read_back d'' hdr) streams outs /\ same_recovery hdr d d''.
Proof.
  intros Hne Hroom Hb hdr Hd. split.
  { intros n ->. apply Forall2_cons_inv_r in Hroom as (s & ss & (_ & Hbm & Hl & Hn) & _ & _).
    subst hdr. unfold streams_size, Flexfec.FlexfecHeaderSize. sizes. cbn [sum_list_with].
    destruct (min_stream_mask _ _ Hl Hbm Hn) as (Hn' & _). by destruct Hn' as [-> | [-> | ->]]. }
  assert (H4 : (4 <= streams_size sizes)%nat).
  { destruct Hroom as [|s n ss ns (_ & Hbm & Hl & Hn) _]; [done|].
    destruct (min_stream_mask _ _ Hl Hbm Hn) as (Hn' & _). unfold streams_size. cbn [sum_list_with]. lia. }
  subst hdr. destruct d as [|b0 d]; [cbn in Hd; lia|]. cbn [length] in Hd.
  destruct (split_at 7 d ltac:(lia)) as (bs & l & -> & Hbs). rewrite length_app in Hd.
  destruct (split_at (streams_size sizes) l ltac:(lia)) as (old & rest & -> & Hold). clear Hd.
  rewrite finalize_streams by done. set (p := recovery_prefix b0 bs).
  destruct (streams_roundtrip streams sizes old (mask_room_fits _ _ Hroom) Hold) as (w & w' & Hw & Hw' & Hbw & Hwr & Hrd).
  rewrite Hwr. cbn [mbind res_bind fst]. eexists. split; [done|]. apply Forall_cons_1 in Hb as [Hb0 Hb].
  apply Forall_app in Hb as [Hbbs Hb]. apply Forall_app in Hb as [_ Hbr]. split.
  { repeat (apply Forall_app; split); try done. constructor; [by apply uw_range|done]. }
  intros fp Ep Essrc. destruct (Hrd p rest) as (outs & E & Hout).
  assert (Hp : length p = 8%nat) by (subst p; cbn; by rewrite Hbs).
  exists outs, (p ++ w' ++ rest). rewrite Hold, Hp in Hout, E.
  assert (Hfp : fp_protected_streams fp <> []) by (intros E0; rewrite E0 in Essrc; by destruct streams).
  rewrite (read_prefix fp b0 bs (w ++ rest)), Essrc, Ep by first [done | rewrite ?length_app; lia]. fold p. rewrite Hp, E.
  cbn [mbind res_bind]. split; [|split; [exact Hout|]].
  - do 4 f_equal. cbn [length]. rewrite !length_app. lia.
  - split_and!.
    + cbn [length]. rewrite !length_app. lia.
    + cbn. intros x x' [= <-] [= <-]. by apply flex_low_bits.
    + intros i Hi. subst p. cbn [recovery_prefix app]. rewrite !lookup_cons_ne_0 by lia.
      by rewrite !lookup_app_l by lia.
    + intros i Hi. subst p. cbn [recovery_prefix app]. rewrite !lookup_cons_ne_0 by lia.
      rewrite !lookup_app_r by lia. f_equal. lia.
Qed.

(** Two streams, the second with a mask that needs the longest form. *)
Definition two_streams : list WriterStream :=
  [mkWriterStream 9 5 [0xa0; 0x01]; mkWriterStream 10 65535 [0xff; 0; 1; 2; 3; 3]].

Lemma flexfec_8627_roundtrip_witness :
  exists d', Flexfec.FinalizeFecHeader two_streams (replicate 40 0xff) = Ok d' /\
    exists outs d'', Flexfec.ReadFecHeader (with_header (new_fec_packet 1 2 d') 0
        [mkProtectedStream 9 0 0 0; mkProtectedStream 10 0 0 0] 0 d') =
      Ok (Some (with_header (new_fec_packet 1 2 d') 32 outs 8 d'')) /\ map ps_seq_num_base outs = [5; 65535].
Proof.
  destruct (flexfec_8627_roundtrip two_streams [6; 14]%nat (replicate 40 0xff)) as (_ & d' & E & _ & Hrd).
  - discriminate.
  - repeat apply Forall2_cons_2; try apply Forall2_nil_2;
      (split; [unfold in_uw; cbn; lia|split; [compute_bytes|split; [cbn; tauto|reflexivity]]]).
  - compute_bytes.
  - compute_le.
  - exists d'. split; [exact E|].
    destruct (Hrd (with_header (new_fec_packet 1 2 d') 0 [mkProtectedStream 9 0 0 0; mkProtectedStream 10 0 0 0] 0 d'))
      as (outs & d'' & E' & Hout & _); [done|done|]. exists outs, d''. split; [exact E'|].
    apply Forall2_cons_inv_l in Hout as (o1 & os & (_ & E1 & _) & Hout & ->).
    apply Forall2_cons_inv_l in Hout as (o2 & os' & (_ & E2 & _) & Hout & ->).
    apply Forall2_nil_inv_l in Hout as ->. cbn [map]. by rewrite E1, E2.
Defined.
