(* ===== verification/XorCode.v ===== *)
(** * XorCode: the XOR code of [forward_error_correction.cc]

    [XorHeaders], [XorPayloads] and the recovery of one packet
    ([StartPacketRecovery], [RecoverPacket], [FinishPacketRecovery]).  The
    theory views a packet as a function from positions to bytes, zero beyond
    its end; a FEC packet [encodes] a list of media packets when its recovery
    bytes are the XOR of theirs. *)

From S2P Require Import Prelude ByteIo FecTypes.

(** [ForwardErrorCorrection::ParseSequenceNumber]. *)
Definition ParseSequenceNumber (packet : Packet) : res Z :=
  let! b2 := buf_get packet 2 in
  let! b3 := buf_get packet 3 in
  Ok (u16 (Z.shiftl b2 8 + b3)).

(** [ForwardErrorCorrection::ParseSsrc]. *)
Definition ParseSsrc (packet : Packet) : res Z :=
  let! b8 := buf_get packet 8 in
  let! b9 := buf_get packet 9 in
  let! b10 := buf_get packet 10 in
  let! b11 := buf_get packet 11 in
  Ok (u32 (Z.shiftl b8 24 + Z.shiftl b9 16 + Z.shiftl b10 8 + b11)).

(** [dst[i] ^= v]. *)
Definition xor_byte (dst : Packet) (i : nat) (v : Z) : res Packet :=
  let! b := buf_get dst i in buf_set dst i (Z.lxor b v).

(** [ForwardErrorCorrection::XorHeaders]. *)
Definition XorHeaders (src dst : Packet) : res Packet :=
  let! s0 := buf_get src 0 in
  let! dst := xor_byte dst 0 s0 in
  let! s1 := buf_get src 1 in
  let! dst := xor_byte dst 1 s1 in
  let! net := ByteWriter.WriteBigEndian 2 [0; 0] 0
                (u16 (Z.of_nat (length src) - Z.of_nat kRtpHeaderSize)) in
  let! n0 := buf_get net 0 in
  let! dst := xor_byte dst 2 n0 in
  let! n1 := buf_get net 1 in
  let! dst := xor_byte dst 3 n1 in
  let! s4 := buf_get src 4 in
  let! dst := xor_byte dst 4 s4 in
  let! s5 := buf_get src 5 in
  let! dst := xor_byte dst 5 s5 in
  let! s6 := buf_get src 6 in
  let! dst := xor_byte dst 6 s6 in
  let! s7 := buf_get src 7 in
  xor_byte dst 7 s7.

(** [ForwardErrorCorrection::XorPayloads]. *)
Definition XorPayloads (src : Packet) (payload_length dst_offset : nat) (dst : Packet)
    : res Packet :=
  let dst :=
    if decide (length dst < dst_offset + payload_length)%nat
    then resize_zero dst (dst_offset + payload_length) else dst in
  foldM (fun dst i =>
    let! s := buf_get src (kRtpHeaderSize + i) in
    xor_byte dst (dst_offset + i) s) (seq 0 payload_length) dst.

(** [new RecoveredPacket()]. *)
Definition new_recovered_packet : RecoveredPacket := mkRecoveredPacket 0 0 false false [].

(** [ForwardErrorCorrection::StartPacketRecovery]; [None] is [return false].
    The buffer is written in full right after it is sized, so its
    uninitialised contents never show. *)
Definition StartPacketRecovery (fec_packet : ReceivedFecPacket) (recovered : RecoveredPacket)
    : res (option RecoveredPacket) :=
  let data := fp_pkt fec_packet in
  let hdr := fp_fec_header_size fec_packet in
  let plen := fp_protection_length fec_packet in
  if decide (length data < hdr + plen)%nat then Ok None else
  if decide (Nat.min (IP_PACKET_SIZE - kRtpHeaderSize) (IP_PACKET_SIZE - hdr) < plen)%nat
  then Ok None else
  let pkt := replicate (plen + kRtpHeaderSize) 0 in
  let! pkt := memcpy pkt 0 data 0 kRtpHeaderSize in
  let! pkt :=
    if decide (0 < plen)%nat then memcpy pkt kRtpHeaderSize data hdr plen else Ok pkt in
  Ok (Some (mkRecoveredPacket (rec_ssrc recovered) (rec_seq_num recovered) true false pkt)).

(** [ForwardErrorCorrection::FinishPacketRecovery]. *)
Definition FinishPacketRecovery (fec_packet : ReceivedFecPacket) (recovered : RecoveredPacket)
    : res (option RecoveredPacket) :=
  let data := rec_pkt recovered in
  let! b0 := buf_get data 0 in
  let! data := buf_set data 0 (Z.lor b0 0x80) in
  let! b0 := buf_get data 0 in
  let! data := buf_set data 0 (Z.land b0 0xbf) in
  let! length_recovery := ByteReader.ReadBigEndian 16 2 data 2 in
  let new_size := (Z.to_nat length_recovery + kRtpHeaderSize)%nat in
  if decide (IP_PACKET_SIZE - kRtpHeaderSize < new_size)%nat then Ok None else
  let data := resize_zero data new_size in
  let! data := ByteWriter.WriteBigEndian 2 data 2 (rec_seq_num recovered) in
  let! data := ByteWriter.WriteBigEndian 4 data 8 (rec_ssrc recovered) in
  Ok (Some (mkRecoveredPacket (rec_ssrc recovered) (rec_seq_num recovered)
              (rec_was_recovered recovered) (rec_returned recovered) data)).

(** One protected packet of the loop of [RecoverPacket]. *)
Definition recover_step (recovered : RecoveredPacket) (protected_packet : ProtectedPacket)
    : res RecoveredPacket :=
  match pp_pkt protected_packet with
  | None =>
      Ok (mkRecoveredPacket (pp_ssrc protected_packet) (pp_seq_num protected_packet)
            (rec_was_recovered recovered) (rec_returned recovered) (rec_pkt recovered))
  | Some src =>
      let! pkt := XorHeaders src (rec_pkt recovered) in
      let! payload_length := size_sub (length src) kRtpHeaderSize in
      let! pkt := XorPayloads src payload_length kRtpHeaderSize pkt in
      Ok (mkRecoveredPacket (rec_ssrc recovered) (rec_seq_num recovered)
            (rec_was_recovered recovered) (rec_returned recovered) pkt)
  end.

(** [ForwardErrorCorrection::RecoverPacket]. *)
Definition RecoverPacket (fec_packet : ReceivedFecPacket) (recovered : RecoveredPacket)
    : res (option RecoveredPacket) :=
  let! started := StartPacketRecovery fec_packet recovered in
  match started with
  | None => Ok None
  | Some recovered =>
      let! recovered := foldM recover_step (fp_protected_packets fec_packet) recovered in
      FinishPacketRecovery fec_packet recovered
  end.

(** ** Packets as functions from positions to bytes *)

Definition byte_at (d : Packet) (i : nat) : Z := default 0 (d !! i).

(** What a media packet contributes at position [i] of the recovery data: the
    length of its payload in place of the sequence number. *)
Definition contribution (s : Packet) (i : nat) : Z :=
  match i with
  | 2%nat => u8 (Z.shiftr (u16 (Z.of_nat (length s) - 12)) 8)
  | 3%nat => u8 (u16 (Z.of_nat (length s) - 12))
  | _ => byte_at s i
  end.

Definition xor_sum (ps : list Packet) (i : nat) : Z :=
  foldr (fun s acc => Z.lxor (contribution s i) acc) 0 ps.

(** [fec], with a header of [hdr] bytes, is the parity of [ps]. *)
Record encodes (hdr : nat) (fec : Packet) (ps : list Packet) : Prop := {
  enc_first : Z.land (byte_at fec 0) 0x3f = Z.land (xor_sum ps 0) 0x3f;
  enc_header : forall i, (1 <= i < 8)%nat -> byte_at fec i = xor_sum ps i;
  enc_payload : forall j, byte_at fec (hdr + j) = xor_sum ps (12 + j)
}.

(** A well-formed RTP media packet of at most [n] bytes. *)
Record media_ok (n : nat) (s : Packet) : Prop := {
  media_bytes : bytes s;
  media_size : (12 <= length s <= n)%nat;
  media_version : exists b0, s !! 0%nat = Some b0 /\ Z.testbit b0 7 = true /\ Z.testbit b0 6 = false
}.

(** ** Elementary facts *)

Lemma byte_at_lookup d i b : d !! i = Some b -> byte_at d i = b.
Proof. unfold byte_at. by intros ->. Qed.

Lemma byte_at_beyond d i : (length d <= i)%nat -> byte_at d i = 0.
Proof. intros. unfold byte_at. by rewrite lookup_ge_None_2. Qed.

Lemma byte_at_range d i : bytes d -> is_byte (byte_at d i).
Proof.
  intros Hd. unfold byte_at. destruct (d !! i) eqn:E; cbn; [by eapply bytes_lookup|].
  unfold in_uw; lia.
Qed.

Lemma byte_at_some d i : (i < length d)%nat -> d !! i = Some (byte_at d i).
Proof. intros Hi. unfold byte_at. by destruct (lookup_lt_is_Some_2 d i Hi) as [b ->]. Qed.

Lemma buf_get_at d i : (i < length d)%nat -> buf_get d i = Ok (byte_at d i).
Proof. intros. by apply buf_get_ok, byte_at_some. Qed.

Lemma byte_at_ext d d' :
  length d = length d' -> (forall i, (i < length d)%nat -> byte_at d i = byte_at d' i) -> d = d'.
Proof.
  intros Hl H. apply list_eq_same_length with (length d); [done..|].
  intros i x y Hi Hx Hy. specialize (H i Hi).
  by rewrite (byte_at_lookup d i x Hx), (byte_at_lookup d' i y Hy) in H.
Qed.

Lemma byte_at_insert d i j v :
  (i < length d)%nat -> byte_at (<[i := v]> d) j = if decide (j = i) then v else byte_at d j.
Proof.
  intros Hi. unfold byte_at. case_decide as E.
  - subst. by rewrite list_lookup_insert_eq by done.
  - by rewrite list_lookup_insert_ne by done.
Qed.

Lemma byte_at_resize d n i :
  byte_at (resize_zero d n) i = if decide (i < n)%nat then byte_at d i else 0.
Proof.
  unfold byte_at, resize_zero. case_decide as Hi.
  - destruct (decide (i < length d)%nat) as [Hd|Hd].
    + by rewrite lookup_resize by done.
    + rewrite lookup_resize_new by lia. by rewrite lookup_ge_None_2 by lia.
  - by rewrite lookup_resize_old by lia.
Qed.

Lemma bytes_resize d n : bytes d -> bytes (resize_zero d n).
Proof. intros. apply Forall_resize; [unfold in_uw; lia|done]. Qed.

Lemma xor_byte_ok d i v :
  (i < length d)%nat -> bytes d -> is_byte v ->
  xor_byte d i v = Ok (<[i := Z.lxor (byte_at d i) v]> d).
Proof.
  intros Hi Hd Hv. unfold xor_byte. rewrite buf_get_at by done.
  cbn [mbind res_bind]. rewrite buf_set_ok by done.
  rewrite uw_small; [done|]. apply lxor_in_uw; [lia|by apply byte_at_range|done].
Qed.

Lemma xor_insert_bytes d i v : bytes d -> is_byte v -> bytes (<[i := Z.lxor (byte_at d i) v]> d).
Proof.
  intros. apply Forall_insert; [done|]. apply lxor_in_uw; [lia|by apply byte_at_range|done].
Qed.

Lemma contribution_range s i : bytes s -> is_byte (contribution s i).
Proof.
  intros. unfold contribution.
  do 4 (destruct i as [|i]; [try (by apply uw_range); by apply byte_at_range|]).
  by apply byte_at_range.
Qed.

Lemma xor_sum_range ps i : Forall bytes ps -> is_byte (xor_sum ps i).
Proof.
  induction 1; cbn; [unfold in_uw; lia|].
  apply lxor_in_uw; [lia|by apply contribution_range|done].
Qed.

(** A loop [dst[off + i] ^= f i]. *)
Lemma xor_loop d off n (f : nat -> Z) :
  (off + n <= length d)%nat -> bytes d -> (forall i, (i < n)%nat -> is_byte (f i)) ->
  exists d', foldM (fun d i => xor_byte d (off + i) (f i)) (seq 0 n) d = Ok d' /\
    length d' = length d /\ bytes d' /\
    forall j, byte_at d' j =
      if decide (off <= j < off + n)%nat then Z.lxor (byte_at d j) (f (j - off)%nat) else byte_at d j.
Proof.
  revert d. induction n as [|n IH]; intros d Hlen Hd Hf.
  { exists d. cbn. split_and!; [done..|]. intros j. by rewrite decide_False by lia. }
  rewrite seq_S, foldM_app.
  destruct (IH d) as (d1 & -> & Hl1 & Hb1 & Hat1); [lia|done|intros; apply Hf; lia|].
  cbn [foldM mbind res_bind]. rewrite xor_byte_ok by (done || lia || apply Hf; lia).
  eexists. split; [done|]. split_and!.
  - by rewrite length_insert.
  - apply xor_insert_bytes; [done|apply Hf; lia].
  - intros j. rewrite byte_at_insert by lia. rewrite !Hat1. cbn [Nat.add].
    repeat case_decide; try lia; try done.
    replace (j - off)%nat with n by lia. by subst.
Qed.

(** ** The two XOR routines on byte functions *)

Lemma XorHeaders_spec src dst :
  (12 <= length src)%nat -> (8 <= length dst)%nat -> bytes src -> bytes dst ->
  exists d, XorHeaders src dst = Ok d /\ length d = length dst /\ bytes d /\
    forall i, byte_at d i =
      if decide (i < 8)%nat then Z.lxor (byte_at dst i) (contribution src i) else byte_at dst i.
Proof.
  intros Hs Hd Hbs Hbd. unfold XorHeaders, kRtpHeaderSize.
  unfold ByteWriter.WriteBigEndian, ByteWriter.WriteBigEndian2. cbn [Nat.add].
  pose proof (contribution_range src 2 Hbs) as H2.
  pose proof (contribution_range src 3 Hbs) as H3. cbn [contribution] in H2, H3.
  set (L := u16 (Z.of_nat (length src) - 12)) in *.
  change (u16 (Z.of_nat (length src) - Z.of_nat 12)) with L.
  take_bytes src 8%nat. take_bytes dst 8%nat. cbn [length] in *. split_bytes.
  unfold xor_byte. run. eexists. split; [done|]. split_and!.
  - done.
  - repeat (apply Forall_cons_2; [by apply uw_range|]). done.
  - intros i. do 8 (destruct i as [|i];
      [cbn [byte_at contribution]; rewrite decide_True by lia;
       cbn; fold L; apply uw_small, lxor_in_uw; (lia || assumption)|]).
    by rewrite decide_False by lia.
Qed.

Lemma XorPayloads_spec src off dst :
  (12 <= length src)%nat -> bytes src -> bytes dst ->
  exists d, XorPayloads src (length src - 12) off dst = Ok d /\
    length d = Nat.max (length dst) (off + (length src - 12)) /\ bytes d /\
    (forall i, (i < off)%nat -> byte_at d i = byte_at dst i) /\
    (forall j, byte_at d (off + j) = Z.lxor (byte_at dst (off + j)) (byte_at src (12 + j))).
Proof.
  intros Hs Hbs Hbd. unfold XorPayloads. set (n := (length src - 12)%nat).
  set (d0 := if decide _ then _ else _).
  assert (Hd0 : length d0 = Nat.max (length dst) (off + n) /\ bytes d0 /\
    forall j, byte_at d0 j = byte_at dst j).
  { subst d0. case_decide as Hlt; [|split_and!; [lia|done..]]. split_and!.
    - unfold resize_zero. rewrite length_resize. lia.
    - by apply bytes_resize.
    - intros j. rewrite byte_at_resize. case_decide; [done|].
      symmetry. apply byte_at_beyond. lia. }
  destruct Hd0 as (Hl0 & Hb0 & Hat0).
  destruct (xor_loop d0 off n (fun i => byte_at src (12 + i))) as (d & Hd & Hl & Hb & Hat);
    [lia|done|intros; by apply byte_at_range|].
  exists d. split_and!.
  - rewrite <- Hd. apply foldM_ext. intros b i Hi%elem_of_seq. unfold kRtpHeaderSize.
    by rewrite buf_get_at by lia.
  - lia.
  - done.
  - intros i Hi. rewrite Hat, decide_False by lia. apply Hat0.
  - intros j. rewrite Hat, Hat0. case_decide.
    + by replace (off + j - off)%nat with j by lia.
    + rewrite (byte_at_beyond src) by lia. by rewrite Z.lxor_0_r.
Qed.

(** ** The recovery loop *)

(** The protected packets at hand, and the ones still missing. *)
Definition present (pps : list ProtectedPacket) : list Packet := omap pp_pkt pps.
Definition missing (pps : list ProtectedPacket) : list ProtectedPacket :=
  filter (fun pp => pp_pkt pp = None) pps.

(** The identity the loop leaves in the recovered packet. *)
Definition recovered_id (id : Z * Z) (pps : list ProtectedPacket) : Z * Z :=
  foldl (fun id pp => match pp_pkt pp with None => (pp_ssrc pp, pp_seq_num pp) | Some _ => id end)
        id pps.

Lemma recovered_id_missing id pps :
  recovered_id id pps = match last (missing pps) with
                        | Some pp => (pp_ssrc pp, pp_seq_num pp) | None => id end.
Proof.
  unfold recovered_id, missing. induction pps as [|pp pps IH] using rev_ind; [done|].
  rewrite foldl_app, filter_app. cbn [foldl]. rewrite filter_cons, filter_nil.
  destruct (pp_pkt pp) eqn:E; case_decide; try done.
  - rewrite app_nil_r. exact IH.
  - by rewrite last_snoc.
Qed.

Definition media_sized (s : Packet) : Prop := bytes s /\ (12 <= length s)%nat.

Lemma recover_loop pps rec :
  bytes (rec_pkt rec) -> (12 <= length (rec_pkt rec))%nat ->
  Forall media_sized (present pps) ->
  exists rec', foldM recover_step pps rec = Ok rec' /\
    bytes (rec_pkt rec') /\ (length (rec_pkt rec) <= length (rec_pkt rec'))%nat /\
    (rec_ssrc rec', rec_seq_num rec') = recovered_id (rec_ssrc rec, rec_seq_num rec) pps /\
    rec_was_recovered rec' = rec_was_recovered rec /\ rec_returned rec' = rec_returned rec /\
    (forall i, (i < 8 \/ 12 <= i)%nat ->
       byte_at (rec_pkt rec') i = Z.lxor (byte_at (rec_pkt rec) i) (xor_sum (present pps) i)).
Proof.
  revert rec. induction pps as [|pp pps IH]; intros rec Hb Hl Hp.
  { exists rec. cbn. split_and!; try done. intros. by rewrite Z.lxor_0_r. }
  unfold present in Hp. cbn [omap list_omap] in Hp. cbn [foldM].
  unfold recover_step at 2. unfold recovered_id, present. cbn [foldl omap list_omap].
  destruct (pp_pkt pp) as [s|] eqn:Epp.
  - apply Forall_cons_1 in Hp as [[Hbs Hls] Hp].
    destruct (XorHeaders_spec s (rec_pkt rec)) as (d1 & -> & Hl1 & Hb1 & Hat1); [lia..|done|done|].
    cbn [mbind res_bind]. unfold kRtpHeaderSize. rewrite size_sub_ok by lia. cbn [mbind res_bind].
    destruct (XorPayloads_spec s 12 d1) as (d2 & -> & Hl2 & Hb2 & Hlo & Hhi); [done..|].
    cbn [mbind res_bind]. edestruct IH as (rec' & -> & Hb' & Hl' & Hid & Hw & Hr & Hat);
      [..|exact Hp|]; [exact Hb2|cbn [rec_pkt]; lia|].
    cbn [rec_pkt rec_ssrc rec_seq_num rec_was_recovered rec_returned] in *.
    exists rec'. split_and!; try done; [lia|].
    intros i Hi. rewrite Hat by done. cbn [xor_sum foldr].
    destruct Hi as [Hi|Hi].
    + rewrite Hlo by lia. rewrite Hat1, decide_True by lia. by rewrite Z.lxor_assoc.
    + replace i with (12 + (i - 12))%nat by lia. rewrite Hhi, Hat1, decide_False by lia.
      by rewrite Z.lxor_assoc.
  - cbn [mbind res_bind]. edestruct IH as (rec' & -> & Hrest); [..|exact Hp|]; [exact Hb|exact Hl|].
    exists rec'. split; [done|]. exact Hrest.
Qed.

(** ** Start and end of a recovery *)

Definition recovery_size_ok (fp : ReceivedFecPacket) : Prop :=
  (fp_fec_header_size fp + fp_protection_length fp <= length (fp_pkt fp))%nat /\
  (fp_protection_length fp <= 1488)%nat /\
  (fp_protection_length fp <= 1500 - fp_fec_header_size fp)%nat.

Lemma StartPacketRecovery_spec fp rec :
  bytes (fp_pkt fp) -> (12 <= fp_fec_header_size fp)%nat ->
  StartPacketRecovery fp rec = Ok None /\ ~ recovery_size_ok fp \/
  recovery_size_ok fp /\ exists pkt,
    StartPacketRecovery fp rec =
      Ok (Some (mkRecoveredPacket (rec_ssrc rec) (rec_seq_num rec) true false pkt)) /\
    bytes pkt /\ length pkt = (fp_protection_length fp + 12)%nat /\
    (forall i, (i < 12)%nat -> byte_at pkt i = byte_at (fp_pkt fp) i) /\
    (forall j, byte_at pkt (12 + j) =
       if decide (j < fp_protection_length fp)%nat
       then byte_at (fp_pkt fp) (fp_fec_header_size fp + j) else 0).
Proof.
  intros Hb Hh. unfold StartPacketRecovery, recovery_size_ok, kRtpHeaderSize, IP_PACKET_SIZE.
  case_decide; [left; split; [done|lia]|]. case_decide; [left; split; [done|lia]|].
  right. split; [lia|].
  set (plen := fp_protection_length fp) in *. set (hdr := fp_fec_header_size fp) in *.
  set (z := replicate (plen + 12) 0).
  assert (Hz : length z = (plen + 12)%nat) by (subst z; by rewrite length_replicate).
  assert (Hbz : bytes z) by (apply Forall_replicate; unfold in_uw; lia).
  destruct (memcpy_lookup z 0 (fp_pkt fp) 0 12) as (p1 & Hp1 & Hl1 & Hin1 & Hout1); [lia..|].
  rewrite Hp1. cbn [mbind res_bind]. pose proof (memcpy_bytes _ _ _ _ _ _ Hbz Hb Hp1) as Hb1.
  case_decide as Hpos; cycle 1.
  - exists p1. split_and!; [done..|lia| |].
    + intros i Hi. unfold byte_at. specialize (Hin1 i Hi). rewrite !Nat.add_0_l in Hin1.
      by rewrite Hin1.
    + intros j. rewrite byte_at_beyond by lia. by rewrite decide_False by lia.
  - destruct (memcpy_lookup p1 12 (fp_pkt fp) hdr plen) as (p2 & Hp2 & Hl2 & Hin2 & Hout2); [lia..|].
    rewrite Hp2. cbn [mbind res_bind]. exists p2. split_and!; [done| |lia| |].
    + exact (memcpy_bytes _ _ _ _ _ _ Hb1 Hb Hp2).
    + intros i Hi. unfold byte_at. rewrite Hout2 by lia. specialize (Hin1 i Hi).
      rewrite !Nat.add_0_l in Hin1. by rewrite Hin1.
    + intros j. case_decide; [|apply byte_at_beyond; lia]. unfold byte_at. by rewrite Hin2.
Qed.

(** Positions of the SSRC and sequence number in the RTP header. *)
Definition rtp_seq_num (s : Packet) : Z := Z.lor (Z.shiftl (byte_at s 2) 8) (byte_at s 3).
Definition rtp_ssrc (s : Packet) : Z :=
  Z.lor (Z.lor (Z.lor (Z.shiftl (byte_at s 8) 24) (Z.shiftl (byte_at s 9) 16))
               (Z.shiftl (byte_at s 10) 8)) (byte_at s 11).

(** The byte the finished packet has at position [i]. *)
Definition finished_byte (ssrc seq : Z) (d : Packet) (i : nat) : Z :=
  match i with
  | 0%nat => u8 (Z.land (u8 (Z.lor (byte_at d 0) 0x80)) 0xbf)
  | 2%nat => u8 (Z.shiftr seq 8)
  | 3%nat => u8 seq
  | 8%nat => u8 (Z.shiftr ssrc 24)
  | 9%nat => u8 (Z.shiftr ssrc 16)
  | 10%nat => u8 (Z.shiftr ssrc 8)
  | 11%nat => u8 ssrc
  | _ => byte_at d i
  end.

Lemma resize_cons (b : Z) d n : resize_zero (b :: d) (S n) = b :: resize_zero d n.
Proof. unfold resize_zero. by rewrite !resize_spec. Qed.

Lemma FinishPacketRecovery_spec fp rec :
  bytes (rec_pkt rec) -> (12 <= length (rec_pkt rec))%nat ->
  let n := (Z.to_nat (rtp_seq_num (rec_pkt rec)) + 12)%nat in
  (1488 < n)%nat /\ FinishPacketRecovery fp rec = Ok None \/
  (n <= 1488)%nat /\ exists pkt,
    FinishPacketRecovery fp rec =
      Ok (Some (mkRecoveredPacket (rec_ssrc rec) (rec_seq_num rec)
                  (rec_was_recovered rec) (rec_returned rec) pkt)) /\
    bytes pkt /\ length pkt = n /\
    forall i, (i < n)%nat ->
      byte_at pkt i = finished_byte (rec_ssrc rec) (rec_seq_num rec) (rec_pkt rec) i.
Proof.
  destruct rec as [ssrc seq was ret d]; cbn [rec_pkt rec_ssrc rec_seq_num rec_was_recovered rec_returned].
  intros Hb Hl. set (n := (Z.to_nat (rtp_seq_num d) + 12)%nat). unfold FinishPacketRecovery, kRtpHeaderSize, IP_PACKET_SIZE.
  cbn [rec_pkt rec_ssrc rec_seq_num rec_was_recovered rec_returned].
  take_bytes d 12%nat. unfold ByteReader.ReadBigEndian, ByteReader.ReadBigEndian2.
  unfold ByteWriter.WriteBigEndian, ByteWriter.WriteBigEndian2, ByteWriter.WriteBigEndian4.
  cbn [Nat.add]. run.
  change (Z.to_nat (Z.lor (Z.shiftl b1 8) b2) + 12)%nat with n.
  case_decide as Hn; [left; split; [lia|done]|]. right. split; [lia|]. split_bytes.
  assert (exists m, n = (12 + m)%nat) as [m Hm] by (exists (n - 12)%nat; subst n; lia).
  clearbody n. subst n. cbn [Nat.add]. rewrite !resize_cons.
  assert (Hbr : bytes (resize_zero d m)) by (by apply bytes_resize).
  run. eexists. split; [done|]. split_and!.
  - repeat (apply Forall_cons_2; [first [assumption | by apply uw_range]|]). done.
  - cbn [length]. unfold resize_zero. by rewrite length_resize.
  - intros i Hi. do 12 (destruct i as [|i]; [done|]). cbn.
    change (byte_at (resize_zero d m) i = byte_at d i).
    rewrite byte_at_resize. by rewrite decide_True by lia.
Qed.

(** ** Recovery is total and, on a code word with one erasure, exact *)

Lemma RecoverPacket_total fp rec :
  bytes (fp_pkt fp) -> (12 <= fp_fec_header_size fp)%nat ->
  Forall media_sized (present (fp_protected_packets fp)) ->
  exists r, RecoverPacket fp rec = Ok r /\
    forall rec', r = Some rec' ->
      bytes (rec_pkt rec') /\ (12 <= length (rec_pkt rec') <= 1488)%nat /\
      rec_was_recovered rec' = true /\ rec_returned rec' = false /\
      (rec_ssrc rec', rec_seq_num rec') =
        recovered_id (rec_ssrc rec, rec_seq_num rec) (fp_protected_packets fp).
Proof.
  intros Hb Hh Hp. unfold RecoverPacket.
  destruct (StartPacketRecovery_spec fp rec Hb Hh) as [[-> _]|(_ & pkt & -> & Hbp & Hlp & _)].
  { exists None. by split. }
  cbn [mbind res_bind].
  edestruct recover_loop as (rec1 & -> & Hb1 & Hl1 & Hid & Hw & Hr & _); [exact Hbp| |exact Hp|];
    [cbn [rec_pkt]; lia|].
  cbn [mbind res_bind rec_pkt rec_ssrc rec_seq_num rec_was_recovered rec_returned] in *.
  destruct (FinishPacketRecovery_spec fp rec1 Hb1 ltac:(lia))
    as [[_ ->]|(Hn & pkt2 & -> & Hb2 & Hl2 & _)]; eexists; (split; [done|]); [done|].
  intros rec' [= <-]. cbn [rec_pkt rec_ssrc rec_seq_num rec_was_recovered rec_returned].
  split_and!; [done|lia|lia|done..].
Qed.

Lemma lxor_cancel a b : Z.lxor (Z.lxor a b) b = a.
Proof. by rewrite Z.lxor_assoc, Z.lxor_nilpotent, Z.lxor_0_r. Qed.

Lemma land_lxor_low a b c : Z.land a c = Z.land b c -> forall x, Z.land (Z.lxor a x) c = Z.land (Z.lxor b x) c.
Proof.
  intros H x. apply Z.bits_inj'; intros i Hi.
  apply (f_equal (fun z => Z.testbit z i)) in H. revert H.
  rewrite !Z.land_spec, !Z.lxor_spec.
  destruct (Z.testbit a i), (Z.testbit b i), (Z.testbit c i), (Z.testbit x i); done.
Qed.

(** Setting the version bits restores byte 0 of an RTP packet. *)
Lemma version_byte b b0 :
  is_byte b0 -> Z.testbit b0 7 = true -> Z.testbit b0 6 = false ->
  Z.land b 0x3f = Z.land b0 0x3f -> u8 (Z.land (u8 (Z.lor b 0x80)) 0xbf) = b0.
Proof.
  intros Hb0 H7 H6 Hlow.
  assert (Hbit : forall i, 0 <= i < 6 -> Z.testbit b i = Z.testbit b0 i).
  { intros i Hi. apply (f_equal (fun z => Z.testbit z i)) in Hlow. revert Hlow.
    rewrite !Z.land_spec. change 63 with (Z.ones 6). rewrite Z.ones_spec_low by lia.
    by rewrite !andb_true_r. }
  apply (uw_eq_bits 8); [lia|by apply uw_range|done|]. intros i Hi.
  split_index i Hi 8%nat; testbits; try done; apply Hbit; lia.
Qed.

Lemma rtp_field_bytes s :
  bytes s -> (12 <= length s)%nat ->
  u8 (Z.shiftr (rtp_seq_num s) 8) = byte_at s 2 /\ u8 (rtp_seq_num s) = byte_at s 3 /\
  u8 (Z.shiftr (rtp_ssrc s) 24) = byte_at s 8 /\ u8 (Z.shiftr (rtp_ssrc s) 16) = byte_at s 9 /\
  u8 (Z.shiftr (rtp_ssrc s) 8) = byte_at s 10 /\ u8 (rtp_ssrc s) = byte_at s 11.
Proof.
  intros Hb Hl. unfold rtp_seq_num, rtp_ssrc.
  assert (Hbyte : forall i, is_byte (byte_at s i)) by (intros; by apply byte_at_range).
  generalize (byte_at s 2) (byte_at s 3) (byte_at s 8) (byte_at s 9) (byte_at s 10) (byte_at s 11)
    (Hbyte 2%nat) (Hbyte 3%nat) (Hbyte 8%nat) (Hbyte 9%nat) (Hbyte 10%nat) (Hbyte 11%nat).
  intros c2 c3 c8 c9 c10 c11 ??????. split_and!; byte_eq.
Qed.

(** The state after the XOR loop holds the lost packet's contribution. *)
Lemma recovered_contribution hdr plen fec start others lost i :
  encodes hdr fec (lost :: others) -> length fec = (hdr + plen)%nat ->
  (forall i, (i < 12)%nat -> byte_at start i = byte_at fec i) ->
  (forall j, byte_at start (12 + j) =
     if decide (j < plen)%nat then byte_at fec (hdr + j) else 0) ->
  (1 <= i < 8 \/ 12 <= i)%nat ->
  Z.lxor (byte_at start i) (xor_sum others i) = contribution lost i.
Proof.
  intros [_ Hh Hp] Hlen Hlo Hhi Hi.
  assert (byte_at start i = xor_sum (lost :: others) i) as ->.
  { destruct Hi as [Hi|Hi]; [rewrite Hlo by lia; by apply Hh|].
    replace i with (12 + (i - 12))%nat by lia. rewrite Hhi, <- Hp.
    case_decide; [done|]. symmetry. apply byte_at_beyond. lia. }
  cbn [xor_sum foldr]. apply lxor_cancel.
Qed.

Lemma RecoverPacket_exact fp pm lost :
  bytes (fp_pkt fp) -> (12 <= fp_fec_header_size fp)%nat ->
  length (fp_pkt fp) = (fp_fec_header_size fp + fp_protection_length fp)%nat ->
  (length (fp_pkt fp) <= 1500)%nat -> (fp_protection_length fp <= 1488)%nat ->
  missing (fp_protected_packets fp) = [pm] ->
  Forall media_sized (present (fp_protected_packets fp)) ->
  media_ok 1488 lost -> rtp_seq_num lost = pp_seq_num pm -> rtp_ssrc lost = pp_ssrc pm ->
  encodes (fp_fec_header_size fp) (fp_pkt fp) (lost :: present (fp_protected_packets fp)) ->
  RecoverPacket fp new_recovered_packet =
    Ok (Some (mkRecoveredPacket (pp_ssrc pm) (pp_seq_num pm) true false lost)).
Proof.
  intros Hb Hh Hlen Hmax Hpl Hmiss Hp [Hbl Hll (b0 & Hb0 & Hv7 & Hv6)] Hseq Hssrc Henc.
  unfold RecoverPacket. set (hdr := fp_fec_header_size fp) in *.
  set (plen := fp_protection_length fp) in *.
  destruct (StartPacketRecovery_spec fp new_recovered_packet Hb Hh)
    as [[_ Hno]|(_ & start & -> & Hbs & Hls & Hlo & Hhi)].
  { exfalso. apply Hno. unfold recovery_size_ok. fold hdr plen. lia. }
  cbn [mbind res_bind].
  edestruct recover_loop as (rec1 & -> & Hb1 & Hl1 & Hid & Hw & Hr & Hat); [exact Hbs| |exact Hp|];
    [cbn [rec_pkt]; lia|].
  rewrite recovered_id_missing, Hmiss in Hid. cbn [last] in Hid. injection Hid as Hs1 Hs2.
  cbn [mbind res_bind rec_pkt rec_ssrc rec_seq_num rec_was_recovered rec_returned] in *.
  assert (Hc : forall i, (1 <= i < 8 \/ 12 <= i)%nat -> byte_at (rec_pkt rec1) i = contribution lost i).
  { intros i Hi. rewrite Hat by lia. by eapply recovered_contribution. }
  assert (Hn : rtp_seq_num (rec_pkt rec1) = Z.of_nat (length lost) - 12).
  { unfold rtp_seq_num. rewrite !Hc by lia. cbn [contribution].
    rewrite be16_roundtrip by (by apply uw_range). apply uw_small. unfold in_uw. lia. }
  assert (Hfirst : Z.land (byte_at (rec_pkt rec1) 0) 0x3f = Z.land b0 0x3f).
  { rewrite Hat, Hlo by lia. erewrite land_lxor_low; [|apply (enc_first _ _ _ Henc)].
    cbn [xor_sum foldr]. rewrite lxor_cancel. cbn [contribution]. by rewrite (byte_at_lookup _ _ _ Hb0). }
  destruct (FinishPacketRecovery_spec fp rec1 Hb1 ltac:(lia))
    as [[Hbig _]|(_ & pkt & -> & Hbp & Hlp & Hfin)]; rewrite Hn in *; [lia|].
  rewrite Hs1, Hs2, Hw, Hr. do 3 f_equal.
  destruct (rtp_field_bytes lost Hbl ltac:(lia)) as (F2 & F3 & F8 & F9 & F10 & F11).
  apply byte_at_ext; [lia|]. intros i Hi. rewrite Hfin by lia. rewrite Hs1, Hs2, <- Hseq, <- Hssrc.
  destruct (decide (i = 0%nat)) as [->|Hi0].
  { cbn [finished_byte]. rewrite (byte_at_lookup _ _ _ Hb0).
    apply version_byte; [exact (bytes_lookup _ _ _ Hbl Hb0)|done..]. }
  do 12 (destruct i as [|i]; [by (lia || done || (cbn [finished_byte]; rewrite Hc by lia; done))|]).
  change (byte_at (rec_pkt rec1) (12 + i) = byte_at lost (12 + i)). by rewrite Hc by lia.
Qed.

(** ** Parsing the header fields *)

Lemma add_lor_split n a b :
  0 <= n -> (forall i, 0 <= i < n -> Z.testbit a i = false) -> in_uw n b -> a + b = Z.lor a b.
Proof.
  intros Hn Ha Hb. rewrite <- (Z.add_lor_land a b).
  replace (Z.land a b) with 0; [lia|]. symmetry. apply Z.bits_inj'; intros i Hi.
  rewrite Z.land_spec, Z.bits_0. destruct (decide (i < n)); [by rewrite Ha by lia|].
  by rewrite (in_uw_testbit n b), andb_false_r by (done || lia).
Qed.

Lemma shiftl_byte_range b k : 0 <= k -> is_byte b -> in_uw (8 + k) (Z.shiftl b k).
Proof.
  intros Hk Hb. apply in_uw_bits; [lia|]. intros i Hi. rewrite Z.shiftl_spec by lia.
  apply (in_uw_testbit 8); [done|lia].
Qed.

Lemma ParseSequenceNumber_ok p :
  bytes p -> (12 <= length p)%nat ->
  ParseSequenceNumber p = Ok (rtp_seq_num p) /\ is_u16 (rtp_seq_num p).
Proof.
  intros Hb Hl. unfold ParseSequenceNumber, rtp_seq_num.
  pose proof (byte_at_range p 2 Hb) as H2. pose proof (byte_at_range p 3 Hb) as H3.
  rewrite !buf_get_at by lia. cbn [mbind res_bind].
  pose proof (be16_range _ _ H2 H3) as Hr. split; [|done].
  rewrite (add_lor_split 8); [by rewrite uw_small|lia| |done].
  intros i Hi. rewrite Z.shiftl_spec by lia. apply Z.testbit_neg_r. lia.
Qed.

Lemma ParseSsrc_ok p :
  bytes p -> (12 <= length p)%nat ->
  ParseSsrc p = Ok (rtp_ssrc p) /\ is_u32 (rtp_ssrc p).
Proof.
  intros Hb Hl. unfold ParseSsrc, rtp_ssrc.
  pose proof (byte_at_range p 8 Hb) as H8. pose proof (byte_at_range p 9 Hb) as H9.
  pose proof (byte_at_range p 10 Hb) as H10. pose proof (byte_at_range p 11 Hb) as H11.
  rewrite !buf_get_at by lia. cbn [mbind res_bind].
  generalize dependent (byte_at p 8). generalize dependent (byte_at p 9).
  generalize dependent (byte_at p 10). generalize dependent (byte_at p 11).
  intros b11 H11 b10 H10 b9 H9 b8 H8.
  rewrite (add_lor_split 24 (Z.shiftl b8 24)), (add_lor_split 16 (Z.lor _ _) (Z.shiftl b10 8)),
    (add_lor_split 8 (Z.lor _ _) b11);
    try lia; try apply shiftl_byte_range; try (done || lia);
    try (intros i Hi; rewrite ?Z.lor_spec, !Z.shiftl_spec, !Z.testbit_neg_r by lia; done).
  assert (is_u32 (Z.lor (Z.lor (Z.lor (Z.shiftl b8 24) (Z.shiftl b9 16)) (Z.shiftl b10 8)) b11)).
  { apply in_uw_bits; [lia|]. intros i Hi. rewrite !Z.lor_spec, !Z.shiftl_spec by lia.
    by rewrite !(in_uw_testbit 8) by (done || lia). }
  split; [by rewrite uw_small|done].
Qed.
