(* ===== verification/FecEncoder.v ===== *)
(** * FecEncoder: the encoder half of [ForwardErrorCorrection]

    [EncodeFec] and the member functions it calls
    ([modules/rtp_rtcp/source/forward_error_correction.cc]), over any
    [FecHeaderWriter].  The members it works on are the two mask arrays, the
    current mask size and the vector of generated packets; the decoder half
    ([FecDecoder]) does not touch them. *)

From S2P Require Import Prelude PacketMasks FecTypes XorCode.

Record Encoder : Type := mkEncoder {
  generated_fec_packets_ : list Packet;
  packet_masks_ : list Z;
  tmp_packet_masks_ : list Z;
  packet_mask_size_ : nat
}.

Definition set_packets (e : Encoder) (ps : list Packet) : Encoder :=
  mkEncoder ps (packet_masks_ e) (tmp_packet_masks_ e) (packet_mask_size_ e).
Definition set_masks (e : Encoder) (m : list Z) : Encoder :=
  mkEncoder (generated_fec_packets_ e) m (tmp_packet_masks_ e) (packet_mask_size_ e).
Definition set_both_masks (e : Encoder) (m tmp : list Z) : Encoder :=
  mkEncoder (generated_fec_packets_ e) m tmp (packet_mask_size_ e).
Definition set_mask_size (e : Encoder) (n : nat) : Encoder :=
  mkEncoder (generated_fec_packets_ e) (packet_masks_ e) (tmp_packet_masks_ e) n.

(** [generated_fec_packets_[i]] and its assignment. *)
Definition packet_get (ps : list Packet) (i : nat) : res Packet :=
  match ps !! i with Some p => Ok p | None => Fault OutOfBounds end.
Definition packet_set (ps : list Packet) (i : nat) (p : Packet) : res (list Packet) :=
  if decide (i < length ps)%nat then Ok (<[i := p]> ps) else Fault OutOfBounds.

(** [media_packets.front()] and [back()]. *)
Definition front (media_packets : list Packet) : res Packet :=
  match media_packets with p :: _ => Ok p | [] => Fault OutOfBounds end.
Definition back (media_packets : list Packet) : res Packet :=
  match last media_packets with Some p => Ok p | None => Fault OutOfBounds end.

(** [ForwardErrorCorrection::NumFecPackets]. *)
Definition NumFecPackets (num_media_packets protection_factor : Z) : Z :=
  let num_fec_packets :=
    Z.shiftr (num_media_packets * protection_factor + Z.shiftl 1 7) 8 in
  if decide (0 < protection_factor /\ num_fec_packets = 0) then 1 else num_fec_packets.

Section Encoder.
Context `{W : FecHeaderWriter}.

(** The loop over the media packets for one FEC packet. *)
Fixpoint xor_media (packet_masks : list Z) (fec_header_size : nat) (media_packets : list Packet)
    (pkt_mask_idx media_pkt_idx : nat) (prev_seq_num : Z) (fec_packet : Packet)
    : res Packet :=
  match media_packets with
  | [] => Ok fec_packet
  | media_packet :: rest =>
      let! mask_byte := buf_get packet_masks pkt_mask_idx in
      let! fec_packet :=
        if has_bits mask_byte (Z.shiftl 1 (7 - Z.of_nat media_pkt_idx)) then
          let! media_payload_length := size_sub (length media_packet) kRtpHeaderSize in
          let fec_packet_length := (fec_header_size + media_payload_length)%nat in
          let fec_packet :=
            if decide (length fec_packet < fec_packet_length)%nat
            then resize_zero fec_packet fec_packet_length else fec_packet in
          let! fec_packet := XorHeaders media_packet fec_packet in
          XorPayloads media_packet media_payload_length fec_header_size fec_packet
        else Ok fec_packet in
      let! (media_pkt_idx, prev_seq_num) :=
        match rest with
        | next :: _ =>
            let! seq_num := ParseSequenceNumber next in
            Ok ((media_pkt_idx + Z.to_nat (u16 (seq_num - prev_seq_num)))%nat, seq_num)
        | [] => Ok (media_pkt_idx, prev_seq_num)
        end in
      xor_media packet_masks fec_header_size rest
        (pkt_mask_idx + media_pkt_idx / 8) (media_pkt_idx mod 8) prev_seq_num fec_packet
  end.

(** [ForwardErrorCorrection::GenerateFecPayloads]. *)
Definition GenerateFecPayloads (e : Encoder) (media_packets : list Packet)
    (num_fec_packets : nat) : res Encoder :=
  let! packets :=
    foldM (fun packets i =>
      let! fec_packet := packet_get packets i in
      let pkt_mask_idx := (i * packet_mask_size_ e)%nat in
      let! min_packet_mask_size :=
        MinPacketMaskSize (drop pkt_mask_idx (packet_masks_ e)) (packet_mask_size_ e) in
      let fec_header_size := FecHeaderSize min_packet_mask_size in
      let! first := front media_packets in
      let! prev_seq_num := ParseSequenceNumber first in
      let! fec_packet :=
        xor_media (packet_masks_ e) fec_header_size media_packets pkt_mask_idx 0
                  prev_seq_num fec_packet in
      packet_set packets i fec_packet)
    (seq 0 num_fec_packets) (generated_fec_packets_ e) in
  Ok (set_packets e packets).

(** The loop of [InsertZerosInPacketMasks] over the media packets after the
    first; returns both masks and the final [new_bit_index]. *)
Fixpoint insert_zeros_loop (max_media_packets tmp_packet_mask_size packet_mask_size
    num_fec_packets : nat) (media_packets : list Packet) (prev_seq_num : Z)
    (tmp_masks masks : list Z) (new_bit_index old_bit_index : nat)
    : res (list Z * list Z * nat) :=
  match media_packets with
  | [] => Ok (tmp_masks, masks, new_bit_index)
  | media_packet :: rest =>
      if decide (new_bit_index = max_media_packets) then Ok (tmp_masks, masks, new_bit_index)
      else
        let! seq_num := ParseSequenceNumber media_packet in
        let num_zeros_to_insert := Z.to_nat (u16 (seq_num - prev_seq_num - 1)) in
        let! tmp_masks :=
          if decide (0 < num_zeros_to_insert)%nat
          then InsertZeroColumns num_zeros_to_insert tmp_masks tmp_packet_mask_size
                 num_fec_packets new_bit_index
          else Ok tmp_masks in
        let new_bit_index := (new_bit_index + num_zeros_to_insert)%nat in
        let! (tmp_masks, masks) :=
          CopyColumn tmp_masks tmp_packet_mask_size masks packet_mask_size
            num_fec_packets new_bit_index old_bit_index in
        insert_zeros_loop max_media_packets tmp_packet_mask_size packet_mask_size
          num_fec_packets rest seq_num tmp_masks masks (new_bit_index + 1) (old_bit_index + 1)
  end.

(** The last partial byte of every row is shifted into position. *)
Definition shift_last_byte (tmp_masks : list Z) (tmp_packet_mask_size num_fec_packets
    new_bit_index : nat) : res (list Z) :=
  if decide (new_bit_index mod 8 <> 0)%nat then
    foldM (fun m row =>
      let new_byte_index := (row * tmp_packet_mask_size + new_bit_index / 8)%nat in
      let! b := buf_get m new_byte_index in
      buf_set m new_byte_index (Z.shiftl b (7 - Z.of_nat (new_bit_index mod 8))))
    (seq 0 num_fec_packets) tmp_masks
  else Ok tmp_masks.

(** [ForwardErrorCorrection::InsertZerosInPacketMasks]; the [int] result, and
    -1 when the packets span too many sequence numbers. *)
Definition InsertZerosInPacketMasks (e : Encoder) (media_packets : list Packet)
    (num_fec_packets : nat) : res (Encoder * Z) :=
  let num_media_packets := length media_packets in
  if decide (num_media_packets <= 1)%nat then Ok (e, Z.of_nat num_media_packets) else
  let! last_packet := back media_packets in
  let! last_seq_num := ParseSequenceNumber last_packet in
  let! first_packet := front media_packets in
  let! first_seq_num := ParseSequenceNumber first_packet in
  let total_missing_seq_nums :=
    u64 (u16 (last_seq_num - first_seq_num) - Z.of_nat num_media_packets + 1) in
  if decide (total_missing_seq_nums = 0) then Ok (e, Z.of_nat num_media_packets) else
  let max_media_packets := MaxMediaPackets in
  let span := u64 (total_missing_seq_nums + Z.of_nat num_media_packets) in
  if decide (Z.of_nat max_media_packets < span) then Ok (e, -1) else
  let tmp_packet_mask_size := PacketMaskSize (Z.to_nat span) in
  let! tmp_masks :=
    memset0 (tmp_packet_masks_ e) 0 (num_fec_packets * tmp_packet_mask_size) in
  let! (tmp_masks, masks) :=
    CopyColumn tmp_masks tmp_packet_mask_size (packet_masks_ e) (packet_mask_size_ e)
      num_fec_packets 0 0 in
  let! (tmp_masks, masks, new_bit_index) :=
    insert_zeros_loop max_media_packets tmp_packet_mask_size (packet_mask_size_ e)
      num_fec_packets (tail media_packets) first_seq_num tmp_masks masks 1 1 in
  let! tmp_masks :=
    shift_last_byte tmp_masks tmp_packet_mask_size num_fec_packets new_bit_index in
  let! masks :=
    memcpy masks 0 tmp_masks 0 (num_fec_packets * tmp_packet_mask_size) in
  Ok (set_both_masks e masks tmp_masks, Z.of_nat new_bit_index).

(** [ForwardErrorCorrection::FinalizeFecHeaders]. *)
Definition FinalizeFecHeaders (e : Encoder) (num_fec_packets : nat)
    (media_ssrc seq_num_base : Z) : res Encoder :=
  let! packets :=
    foldM (fun packets i =>
      let off := (i * packet_mask_size_ e)%nat in
      let! fec_packet := packet_get packets i in
      if decide (off + packet_mask_size_ e <= length (packet_masks_ e))%nat then
        let mask := take (packet_mask_size_ e) (drop off (packet_masks_ e)) in
        let! fec_packet :=
          FinalizeFecHeader [mkWriterStream media_ssrc seq_num_base mask] fec_packet in
        packet_set packets i fec_packet
      else Fault OutOfBounds)
    (seq 0 num_fec_packets) (generated_fec_packets_ e) in
  Ok (set_packets e packets).

(** The reset of the packets about to be generated: zeroed, size 0. *)
Definition prepare_packets (packets : list Packet) (num_fec_packets : nat) : res (list Packet) :=
  foldM (fun packets i => packet_set packets i []) (seq 0 num_fec_packets) packets.

(** [ForwardErrorCorrection::EncodeFec]: the return code and the packets put
    on [fec_packets] (pointers to the first generated packets). *)
Definition EncodeFec (e : Encoder) (media_packets : list Packet) (protection_factor : Z)
    (num_important_packets : nat) (use_unequal_protection : bool) (fec_mask_type : FecMaskType)
    : res (Encoder * Z * list Packet) :=
  let num_media_packets := length media_packets in
  if decide (MaxMediaPackets < num_media_packets)%nat then Ok (e, -1, []) else
  if existsb (fun p => length p <? kRtpHeaderSize)%nat media_packets then Ok (e, -1, []) else
  let num_fec_packets :=
    Z.to_nat (NumFecPackets (Z.of_nat num_media_packets) protection_factor) in
  if decide (num_fec_packets = 0%nat) then Ok (e, 0, []) else
  let! packets := prepare_packets (generated_fec_packets_ e) num_fec_packets in
  let e := set_packets e packets in
  let table := PickTable fec_mask_type num_media_packets in
  let e := set_mask_size e (PacketMaskSize num_media_packets) in
  let! masks := memset0 (packet_masks_ e) 0 (num_fec_packets * packet_mask_size_ e) in
  let! masks :=
    GeneratePacketMasks num_media_packets num_fec_packets num_important_packets
      use_unequal_protection table masks in
  let e := set_masks e masks in
  let! (e, num_mask_bits) := InsertZerosInPacketMasks e media_packets num_fec_packets in
  if num_mask_bits <? 0 then Ok (e, -1, []) else
  let e := set_mask_size e (PacketMaskSize (Z.to_nat num_mask_bits)) in
  let! e := GenerateFecPayloads e media_packets num_fec_packets in
  let! first := front media_packets in
  let! media_ssrc := ParseSsrc first in
  let! seq_num_base := ParseSequenceNumber first in
  let! e := FinalizeFecHeaders e num_fec_packets media_ssrc seq_num_base in
  Ok (e, 0, take num_fec_packets (generated_fec_packets_ e)).

End Encoder.
