(* ===== verification/ZeroColumns.v ===== *)
(** * ZeroColumns: spreading a packet mask over a gappy sequence-number range

    [InsertZeroColumns] and [CopyColumn] build the widened mask one column at
    a time, using the last byte of every row as a shift register.  The
    invariant [columns_done] says what the register holds; [spread_bit] is the
    mask that has to come out. *)

From S2P Require Import Prelude PacketMasks FecTypes XorCode FecEncoder.

(** ** Loops over one byte of every row *)

Lemma row_index_inj (rb r r' q q' : nat) :
  (q < rb)%nat -> (q' < rb)%nat -> (r * rb + q = r' * rb + q')%nat -> r = r' /\ q = q'.
Proof.
  intros Hq Hq' E. destruct (lt_eq_lt_dec r r') as [[H|H]|H]; nia.
Qed.

Lemma row_loop m rb q n (f : Z -> Z) :
  (q < rb)%nat -> (n * rb <= length m)%nat ->
  exists m',
    foldM (fun m row => let! b := buf_get m (row * rb + q) in buf_set m (row * rb + q) (f b))
          (seq 0 n) m = Ok m' /\
    length m' = length m /\
    (forall r, (r < n)%nat -> byte_at m' (r * rb + q) = u8 (f (byte_at m (r * rb + q)))) /\
    (forall j, (forall r, (r < n)%nat -> j <> r * rb + q)%nat -> byte_at m' j = byte_at m j).
Proof.
  intros Hq. revert m. induction n as [|n IH]; intros m Hlen.
  { exists m. cbn. split_and!; [done..|intros; lia|done]. }
  rewrite seq_S, foldM_app. destruct (IH m) as (m1 & -> & Hl & Hin & Hout); [lia|].
  cbn [foldM mbind res_bind Nat.add].
  rewrite (buf_get_at m1) by nia. cbn [mbind res_bind].
  rewrite buf_set_ok by nia. eexists. split; [done|]. split_and!.
  - by rewrite length_insert.
  - intros r Hr. rewrite byte_at_insert by nia. case_decide as E.
    + assert (r = n) as -> by nia. by rewrite (Hout (n * rb + q)%nat) by (intros; nia).
    + apply Hin. assert (r <> n) by (intros ->; lia). lia.
  - intros j Hj. rewrite byte_at_insert by nia. rewrite decide_False by (apply Hj; lia).
    apply Hout. intros r Hr. apply Hj. lia.
Qed.

(** The body of [CopyColumn]'s loop on the new mask's byte. *)
Definition copy_byte (last : bool) (nb ob : Z) : Z :=
  let v := u8 (Z.lor nb (Z.shiftr (Z.land ob 0x80) 7)) in
  if last then v else u8 (Z.shiftl v 1).

Lemma CopyColumn_spec nm rb om rbo n nbit obit :
  (nbit < 8 * rb)%nat -> (obit < 8 * rbo)%nat ->
  (n * rb <= length nm)%nat -> (n * rbo <= length om)%nat ->
  exists nm' om', CopyColumn nm rb om rbo n nbit obit = Ok (nm', om') /\
    length nm' = length nm /\ length om' = length om /\
    (forall r, (r < n)%nat ->
       byte_at nm' (r * rb + nbit / 8) =
         copy_byte (bool_decide (nbit mod 8 = 7)%nat) (byte_at nm (r * rb + nbit / 8))
                   (byte_at om (r * rbo + obit / 8)) /\
       byte_at om' (r * rbo + obit / 8) = u8 (Z.shiftl (byte_at om (r * rbo + obit / 8)) 1)) /\
    (forall j, (forall r, (r < n)%nat -> j <> r * rb + nbit / 8)%nat -> byte_at nm' j = byte_at nm j) /\
    (forall j, (forall r, (r < n)%nat -> j <> r * rbo + obit / 8)%nat -> byte_at om' j = byte_at om j).
Proof.
  intros Hnb Hob Hn Ho. unfold CopyColumn. rewrite bool_decide_true by done.
  cbn [rtc_check mbind res_bind].
  assert (Hq : (nbit / 8 < rb)%nat) by (apply Nat.Div0.div_lt_upper_bound; lia).
  assert (Hqo : (obit / 8 < rbo)%nat) by (apply Nat.Div0.div_lt_upper_bound; lia).
  set (q := (nbit / 8)%nat) in *. set (qo := (obit / 8)%nat) in *.
  revert nm om Hn Ho. induction n as [|n IH]; intros nm om Hn Ho.
  { exists nm, om. cbn. split_and!; [done..|intros; lia|done|done]. }
  rewrite seq_S, foldM_app.
  destruct (IH nm om) as (nm1 & om1 & -> & Hl1 & Hl2 & Hin & Hout1 & Hout2); [lia..|].
  cbn [foldM mbind res_bind Nat.add].
  rewrite (buf_get_at om1) by nia. cbn [mbind res_bind].
  rewrite (buf_get_at nm1) by nia. cbn [mbind res_bind].
  rewrite Hout1, Hout2 by (intros; nia).
  rewrite (buf_set_ok nm1) by nia. cbn [mbind res_bind].
  set (v := u8 (Z.lor (byte_at nm (n * rb + q))
    (Z.shiftr (Z.land (byte_at om (n * rbo + qo)) 0x80) 7))).
  assert (exists nm2, (if decide (nbit mod 8 <> 7)%nat
      then let! nb := buf_get (<[(n * rb + q)%nat := v]> nm1) (n * rb + q) in
           buf_set (<[(n * rb + q)%nat := v]> nm1) (n * rb + q) (Z.shiftl nb 1)
      else Ok (<[(n * rb + q)%nat := v]> nm1)) = Ok nm2 /\
    nm2 = <[(n * rb + q)%nat := copy_byte (bool_decide (nbit mod 8 = 7)%nat)
      (byte_at nm (n * rb + q)) (byte_at om (n * rbo + qo))]> nm1) as (nm2 & -> & ->).
  { unfold copy_byte. fold v. case_decide as H7; case_bool_decide; try lia; [|eauto].
    rewrite (buf_get_ok _ _ v) by (apply list_lookup_insert_eq; nia). cbn [mbind res_bind].
    rewrite buf_set_ok by (rewrite length_insert; nia). eexists. split; [done|].
    by rewrite list_insert_insert_eq. }
  cbn [mbind res_bind]. rewrite (buf_set_ok om1) by nia. cbn [mbind res_bind].
  do 2 eexists. split; [done|]. rewrite !length_insert. split_and!; [done|done|..].
  - intros r Hr. rewrite !byte_at_insert by nia.
    destruct (decide (r = n)) as [->|Hne]; [by rewrite !decide_True|].
    rewrite !decide_False by nia. apply Hin. lia.
  - intros j Hj. rewrite byte_at_insert by nia. rewrite decide_False by (apply Hj; lia).
    apply Hout1. intros; apply Hj; lia.
  - intros j Hj. rewrite byte_at_insert by nia. rewrite decide_False by (apply Hj; lia).
    apply Hout2. intros; apply Hj; lia.
Qed.

(** ** The shift register *)

(** Bit [i] of byte [q] of a row after [n] columns were pushed: finished bytes
    are in mask order, the current one holds its [n mod 8] columns just above
    the free lowest bit. *)
Definition register_bit (n : nat) (col : nat -> bool) (q i : nat) : bool :=
  if decide (q < n / 8)%nat then col (8 * q + 7 - i)%nat
  else if decide (q = n / 8 /\ 1 <= i <= n mod 8)%nat then col (n - i)%nat
  else false.

Definition columns_done (rb rows n : nat) (col : nat -> nat -> bool) (m : list Z) : Prop :=
  (rows * rb <= length m)%nat /\
  (forall r q i, (r < rows)%nat -> (q < rb)%nat -> (i < 8)%nat ->
     Z.testbit (byte_at m (r * rb + q)) (Z.of_nat i) = register_bit n (col r) q i) /\
  (forall r c, (r < rows)%nat -> (n <= c)%nat -> col r c = false).

Ltac div8 n :=
  pose proof (Nat.div_mod_eq n 8); pose proof (Nat.mod_upper_bound n 8 ltac:(lia)).

Lemma testbit_shl8 b s i :
  (s <= 7)%nat -> (i < 8)%nat ->
  Z.testbit (u8 (Z.shiftl b (Z.of_nat s))) (Z.of_nat i) =
  bool_decide (s <= i)%nat && Z.testbit b (Z.of_nat (i - s)).
Proof.
  intros Hs Hi. rewrite uw_testbit, bool_decide_true, Z.shiftl_spec by lia. cbn [andb].
  case_bool_decide.
  - cbn [andb]. f_equal. lia.
  - apply Z.testbit_neg_r. lia.
Qed.

(** Inserting [z] zero columns advances the register. *)
Lemma InsertZeroColumns_spec rb rows n z col m :
  columns_done rb rows n col m -> (n < 8 * rb)%nat ->
  exists m', InsertZeroColumns z m rb rows n = Ok m' /\ length m' = length m /\
    columns_done rb rows (n + z) col m'.
Proof.
  intros (Hlen & Hbits & Hfuture) Hn. unfold InsertZeroColumns.
  assert (Hq : (n / 8 < rb)%nat) by (apply Nat.Div0.div_lt_upper_bound; lia).
  set (s := Nat.min z (7 - n mod 8)).
  destruct (row_loop m rb (n / 8) rows (fun b => Z.shiftl b (Z.of_nat s)))
    as (m' & Hm & Hl & Hin & Hout); [done|done|].
  exists m'. split_and!; [exact Hm|done|]. split_and!; [lia| |intros; apply Hfuture; lia].
  div8 n. div8 (n + z)%nat.
  intros r q i Hr Hqr Hi. unfold register_bit.
  destruct (decide (q = n / 8)%nat) as [->|Hne].
  - rewrite Hin by done. rewrite testbit_shl8 by (subst s; lia).
    assert (Hreg : (s <= i)%nat -> Z.testbit (byte_at m (r * rb + n / 8)) (Z.of_nat (i - s)) =
      bool_decide (1 <= i - s <= n mod 8)%nat && col r (n - (i - s))%nat).
    { intros Hsi. rewrite Hbits by (done || lia). unfold register_bit.
      rewrite decide_False by lia. case_decide; case_bool_decide; try lia; done. }
    destruct (decide (s <= i)%nat) as [Hsi|Hsi];
      [rewrite bool_decide_true, Hreg by done|rewrite bool_decide_false by done];
      clear Hreg; cbn [andb]; repeat case_decide; try case_bool_decide; cbn [andb]; try lia;
      first [done | f_equal; lia | symmetry; apply Hfuture; (done || lia)
            | apply Hfuture; (done || lia) | idtac].
  - rewrite Hout by (intros r' Hr' E; apply row_index_inj in E as [_ ->]; done).
    rewrite Hbits by done. unfold register_bit.
    repeat case_decide; try lia;
      first [done | f_equal; lia | symmetry; apply Hfuture; (done || lia) | idtac].
Qed.

(** The old mask after [j] of its columns were shifted out. *)
Definition old_ready (rb rows j : nat) (om0 om : list Z) : Prop :=
  length om = length om0 /\ (rows * rb <= length om)%nat /\
  (forall r q i, (r < rows)%nat -> (j / 8 <= q < rb)%nat -> (i < 8)%nat ->
     Z.testbit (byte_at om (r * rb + q)) (Z.of_nat i) =
     if decide (q = j / 8)%nat
     then bool_decide (j mod 8 <= i)%nat &&
          Z.testbit (byte_at om0 (r * rb + q)) (Z.of_nat (i - j mod 8))
     else Z.testbit (byte_at om0 (r * rb + q)) (Z.of_nat i)).

Lemma old_ready_start rb rows om : (rows * rb <= length om)%nat -> old_ready rb rows 0 om om.
Proof.
  intros Hl. split_and!; [done..|]. intros r q i Hr Hq Hi. change (0 mod 8)%nat with 0%nat.
  case_decide; [|done]. rewrite bool_decide_true by lia. by rewrite Nat.sub_0_r.
Qed.

Lemma mask_bit_byte m rb r c :
  mask_bit m rb r c = Z.testbit (byte_at m (r * rb + c / 8)) (7 - Z.of_nat (c mod 8)).
Proof. unfold mask_bit, byte_at. destruct (m !! _); cbn; [done|]. by rewrite Z.bits_0. Qed.

Lemma old_top_bit rb rows j om0 om r :
  old_ready rb rows j om0 om -> (r < rows)%nat -> (j < 8 * rb)%nat ->
  Z.testbit (byte_at om (r * rb + j / 8)) 7 = mask_bit om0 rb r j.
Proof.
  intros (_ & _ & Hold) Hr Hj. div8 j.
  assert (j / 8 < rb)%nat by (apply Nat.Div0.div_lt_upper_bound; lia).
  specialize (Hold r (j / 8)%nat 7%nat Hr ltac:(lia) ltac:(lia)). change 7 with (Z.of_nat 7) at 1.
  rewrite Hold, decide_True, bool_decide_true by lia. rewrite mask_bit_byte. cbn [andb].
  f_equal. lia.
Qed.

Lemma copy_byte_testbit last nb ob i :
  (i < 8)%nat ->
  Z.testbit (copy_byte last nb ob) (Z.of_nat i) =
  if last then Z.testbit nb (Z.of_nat i) || (bool_decide (i = 0)%nat && Z.testbit ob 7)
  else bool_decide (1 <= i)%nat &&
       (Z.testbit nb (Z.of_nat (i - 1)) || (bool_decide (i = 1)%nat && Z.testbit ob 7)).
Proof.
  intros Hi. unfold copy_byte.
  do 8 (destruct i as [|i];
    [cbn [Nat.sub]; destruct last; repeat (case_bool_decide; try lia);
     cbn [Z.of_nat Pos.of_succ_nat Pos.succ andb]; testbits; try reflexivity|]).
  lia.
Qed.

(** Copying one column pushes it into the register. *)
Lemma CopyColumn_push rb rbo rows n j col om0 nm om :
  columns_done rb rows n col nm -> old_ready rbo rows j om0 om ->
  (n < 8 * rb)%nat -> (j < 8 * rbo)%nat ->
  exists nm' om', CopyColumn nm rb om rbo rows n j = Ok (nm', om') /\ length nm' = length nm /\
    columns_done rb rows (n + 1)
      (fun r c => if decide (c = n) then mask_bit om0 rbo r j else col r c) nm' /\
    old_ready rbo rows (j + 1) om0 om'.
Proof.
  intros (Hlen & Hbits & Hfuture) Hold Hn Hj.
  assert (Hq : (n / 8 < rb)%nat) by (apply Nat.Div0.div_lt_upper_bound; lia).
  assert (Hqo : (j / 8 < rbo)%nat) by (apply Nat.Div0.div_lt_upper_bound; lia).
  destruct (CopyColumn_spec nm rb om rbo rows n j) as (nm' & om' & Hc & Hl & Hlo & Hin & Hout & Houto);
    [done|done|done|apply Hold|].
  exists nm', om'. split_and!; [done..| |].
  - div8 n. div8 (n + 1)%nat. split_and!; [lia| |intros; rewrite decide_False by lia; apply Hfuture; lia].
    intros r q i Hr Hqr Hi. unfold register_bit.
    destruct (decide (q = n / 8)%nat) as [->|Hne].
    + destruct (Hin r Hr) as [-> _]. rewrite copy_byte_testbit by done.
      rewrite (old_top_bit rbo rows j om0 om) by done.
      rewrite !Hbits by lia. unfold register_bit.
      repeat case_bool_decide; repeat case_decide; cbn [andb orb]; rewrite ?orb_false_r; try lia;
        first [done | f_equal; lia].
    + rewrite Hout by (intros r' Hr' E; apply row_index_inj in E as [_ ->]; done).
      rewrite Hbits by done. unfold register_bit. repeat case_decide; try lia; first [done | f_equal; lia].
  - destruct Hold as (Hl1 & Hl2 & Hold). div8 j. div8 (j + 1)%nat.
    split_and!; [lia|lia|]. intros r q i Hr Hqr Hi.
    destruct (decide (q = j / 8)%nat) as [->|Hne].
    + destruct (Hin r Hr) as [_ ->].
      change (Z.shiftl (byte_at om (r * rbo + j / 8)) 1)
        with (Z.shiftl (byte_at om (r * rbo + j / 8)) (Z.of_nat 1)).
      rewrite testbit_shl8 by lia. rewrite Hold by lia. rewrite !decide_True by lia.
      repeat case_bool_decide; cbn [andb]; try lia; try done; do 2 f_equal; lia.
    + rewrite Houto by (intros r' Hr' E; apply row_index_inj in E as [_ ->]; (done || lia)).
      rewrite Hold by lia. rewrite (decide_False (P := q = (j / 8)%nat)) by done. destruct (decide (q = (j + 1) / 8)%nat); [|done].
      rewrite bool_decide_true by lia. cbn [andb]. do 2 f_equal. lia.
Qed.

(** ** From the register to the finished mask *)

Lemma shift_last_byte_spec rb rows n col m :
  columns_done rb rows n col m -> (n <= 8 * rb)%nat ->
  exists m', shift_last_byte m rb rows n = Ok m' /\ length m' = length m /\
    forall r c, (r < rows)%nat -> (c < 8 * rb)%nat -> mask_bit m' rb r c = col r c.
Proof.
  intros (Hlen & Hbits & Hfuture) Hn. unfold shift_last_byte. div8 n.
  assert (Hcol : forall r c m', (r < rows)%nat -> (c < 8 * rb)%nat ->
    (forall q i, (q < rb)%nat -> (i < 8)%nat ->
       Z.testbit (byte_at m' (r * rb + q)) (Z.of_nat i) = col r (8 * q + 7 - i)%nat) ->
    mask_bit m' rb r c = col r c).
  { intros r c m' Hr Hc Hm. rewrite mask_bit_byte. div8 c.
    replace (7 - Z.of_nat (c mod 8)) with (Z.of_nat (7 - c mod 8)) by lia.
    rewrite Hm by (try apply Nat.Div0.div_lt_upper_bound; lia). f_equal. lia. }
  case_decide as H8; cycle 1.
  - exists m. split_and!; [done..|]. intros r c Hr Hc. apply Hcol; [done..|].
    intros q i Hq Hi. rewrite Hbits by done. unfold register_bit. repeat case_decide; try lia; [done|].
    symmetry. apply Hfuture; [done|lia].
  - assert (Hq : (n / 8 < rb)%nat) by lia.
    destruct (row_loop m rb (n / 8) rows (fun b => Z.shiftl b (Z.of_nat (7 - n mod 8))))
      as (m' & Hm & Hl & Hin & Hout); [done|done|].
    replace (7 - Z.of_nat (n mod 8)) with (Z.of_nat (7 - n mod 8)) by lia.
    exists m'. split_and!; [exact Hm|done|]. intros r c Hr Hc. apply Hcol; [done..|].
    intros q i Hqr Hi. destruct (decide (q = n / 8)%nat) as [->|Hne].
    + rewrite Hin, testbit_shl8 by lia. destruct (decide (7 - n mod 8 <= i)%nat).
      * rewrite bool_decide_true, Hbits by lia. unfold register_bit. cbn [andb].
        repeat case_decide; try lia; [f_equal; lia|]. symmetry. apply Hfuture; [done|lia].
      * rewrite bool_decide_false by lia. symmetry. apply Hfuture; [done|lia].
    + rewrite Hout by (intros r' Hr' E; apply row_index_inj in E as [_ ->]; done).
      rewrite Hbits by done. unfold register_bit. repeat case_decide; try lia; [done|].
      symmetry. apply Hfuture; [done|lia].
Qed.

(** ** The specification: column [offs !! j] of the new mask is column [j] of
    the old one, every other column is zero *)

Definition spread_bit (om : list Z) (rb : nat) (offs : list nat) (r c : nat) : bool :=
  existsb (fun '(j, o) => (o =? c)%nat && mask_bit om rb r j) (imap pair offs).

Lemma spread_bit_snoc om rb offs o r c :
  spread_bit om rb (offs ++ [o]) r c =
  spread_bit om rb offs r c || ((o =? c)%nat && mask_bit om rb r (length offs)).
Proof.
  unfold spread_bit. rewrite imap_app, existsb_app. cbn. by rewrite Nat.add_0_r, orb_false_r.
Qed.

Lemma spread_bit_none om rb offs r c :
  c ∉ offs -> spread_bit om rb offs r c = false.
Proof.
  intros Hc. induction offs as [|o offs IH] using rev_ind; [done|].
  rewrite spread_bit_snoc, IH by set_solver. cbn [orb].
  destruct (Nat.eqb_spec o c); [|done]. subst. set_solver.
Qed.

Lemma spread_bit_at om rb offs r j o :
  NoDup offs -> offs !! j = Some o -> spread_bit om rb offs r o = mask_bit om rb r j.
Proof.
  induction offs as [|o' offs IH] using rev_ind; [done|].
  intros [Hnd [Hnin _]]%NoDup_app Hj. rewrite spread_bit_snoc.
  destruct (decide (j < length offs)%nat) as [Hlt|Hge].
  - rewrite lookup_app_l in Hj by done. rewrite IH by done.
    destruct (Nat.eqb_spec o' o) as [->|]; [|by rewrite orb_false_r].
    exfalso. apply (Hnin o); [by eapply list_elem_of_lookup_2|set_solver].
  - rewrite lookup_app_r in Hj by lia.
    destruct (j - length offs)%nat eqn:E; [|done]. cbn in Hj. injection Hj as ->.
    rewrite Nat.eqb_refl, spread_bit_none by (intros Hin; by apply (Hnin o Hin), list_elem_of_singleton).
    cbn [orb andb]. f_equal. lia.
Qed.

(** ** The mask arrays stay byte arrays *)

Lemma InsertZeroColumns_bytes z m rb n nbit m' :
  bytes m -> InsertZeroColumns z m rb n nbit = Ok m' -> bytes m'.
Proof.
  intros Hm. apply foldM_preserves; [|done].
  intros x r x' _ Hx (b & _ & Hset)%bind_ok_inv. eapply buf_set_bytes; eassumption.
Qed.

Lemma shift_last_byte_bytes m rb n nbit m' :
  bytes m -> shift_last_byte m rb n nbit = Ok m' -> bytes m'.
Proof.
  intros Hm. unfold shift_last_byte. case_decide; [|congruence].
  apply foldM_preserves; [|done].
  intros x r x' _ Hx (b & _ & Hset)%bind_ok_inv. eapply buf_set_bytes; eassumption.
Qed.

Lemma CopyColumn_bytes nm rb om rbo n nbit obit nm' om' :
  bytes nm -> bytes om -> CopyColumn nm rb om rbo n nbit obit = Ok (nm', om') ->
  bytes nm' /\ bytes om'.
Proof.
  intros Hn Ho. unfold CopyColumn. intros (u & _ & Hf)%bind_ok_inv. revert Hf.
  apply (foldM_preserves (fun '(a, b) => bytes a /\ bytes b)); [|done].
  intros [a b] r [a' b'] _ [Ha Hb].
  intros (ob & _ & (nb & _ & (a1 & H1 & (a2 & H2 & (b1 & H3 & [= <- <-])%bind_ok_inv)%bind_ok_inv)
    %bind_ok_inv)%bind_ok_inv)%bind_ok_inv.
  assert (bytes a1) by (eapply buf_set_bytes; eassumption).
  split; [|eapply buf_set_bytes; eassumption].
  revert H2. case_decide; [|congruence].
  intros (nb' & _ & H2)%bind_ok_inv. eapply buf_set_bytes; eassumption.
Qed.

Lemma insert_zeros_loop_bytes mx rb rbo n rest : forall prev nm om nbit obit nm' om' k,
  bytes nm -> bytes om ->
  insert_zeros_loop mx rb rbo n rest prev nm om nbit obit = Ok (nm', om', k) ->
  bytes nm' /\ bytes om'.
Proof.
  induction rest as [|p rest IH]; intros prev nm om nbit obit nm' om' k Hn Ho; cbn.
  { by intros [= <- <- _]. }
  case_decide; [by intros [= <- <- _]|].
  intros (s & _ & (nm1 & H1 & ([nm2 om2] & H2 & H3)%bind_ok_inv)%bind_ok_inv)%bind_ok_inv.
  assert (Hn1 : bytes nm1).
  { revert H1. clear H2 H3. case_decide; [by apply InsertZeroColumns_bytes|congruence]. }
  destruct (CopyColumn_bytes _ _ _ _ _ _ _ _ _ Hn1 Ho H2) as [??].
  eapply IH; [| |exact H3]; done.
Qed.
