(* ===== verification/EncoderCorrect.v ===== *)
(** * EncoderCorrect: what the generated FEC packets contain

    The encoder run on a batch of media packets in sequence order: which
    columns the widened mask has, that every FEC packet is the parity of the
    packets its mask row names, and that the matching reader recovers exactly
    those sequence numbers. *)

From stdpp Require Import sorting.
From S2P Require Import Prelude PacketMasks MaskDesign FecTypes XorCode FecEncoder ZeroColumns.

(** ** Batches of media packets *)

(** Distance of a packet from the first of its batch, in sequence numbers. *)
Definition offset (base : Z) (p : Packet) : nat := Z.to_nat (u16 (rtp_seq_num p - base)).

Definition base_seq (media : list Packet) : Z :=
  match media with p :: _ => rtp_seq_num p | [] => 0 end.

Definition offsets (media : list Packet) : list nat := map (offset (base_seq media)) media.

(** A batch the encoder is called with: RTP packets of one stream, in sequence
    order (possibly with gaps, possibly wrapping around). *)
Record media_batch (media : list Packet) : Prop := {
  batch_nonempty : media <> [];
  batch_sized : Forall media_sized media;
  batch_sorted : StronglySorted lt (offsets media)
}.

(** The number of sequence numbers the batch spans. *)
Definition span (media : list Packet) : nat := S (default 0%nat (last (offsets media))).

Lemma u16_between a b c :
  u16 (a - c) < u16 (b - c) -> u16 (b - a) = u16 (b - c) - u16 (a - c).
Proof.
  unfold uw. change (2 ^ 16) with 65536. intros H.
  pose proof (Z.mod_pos_bound (a - c) 65536 ltac:(lia)).
  pose proof (Z.mod_pos_bound (b - c) 65536 ltac:(lia)).
  rewrite <- (Z.mod_small ((b - c) mod 65536 - (a - c) mod 65536) 65536) by lia.
  rewrite <- Zminus_mod. f_equal. lia.
Qed.

Lemma offset_Z base p : Z.of_nat (offset base p) = u16 (rtp_seq_num p - base).
Proof. unfold offset. apply Z2Nat.id. apply (uw_range 16). lia. Qed.

Lemma offset_lt base p : Z.of_nat (offset base p) < 65536.
Proof. rewrite offset_Z. apply (uw_range 16). lia. Qed.

Lemma offset_step base p q :
  (offset base p < offset base q)%nat ->
  Z.to_nat (u16 (rtp_seq_num q - rtp_seq_num p)) = (offset base q - offset base p)%nat.
Proof.
  intros H. pose proof (offset_Z base p) as Hp. pose proof (offset_Z base q) as Hq.
  rewrite (u16_between _ _ base) by lia. lia.
Qed.

Lemma offset_gap base p q :
  (offset base p < offset base q)%nat ->
  Z.to_nat (u16 (rtp_seq_num q - rtp_seq_num p - 1)) = (offset base q - offset base p - 1)%nat.
Proof.
  intros H. pose proof (offset_step base p q H) as Hs. pose proof (offset_lt base q).
  assert (Hr : in_uw 16 (u16 (rtp_seq_num q - rtp_seq_num p) - 1)).
  { pose proof (uw_range 16 (rtp_seq_num q - rtp_seq_num p) ltac:(lia)) as [? ?].
    unfold in_uw. lia. }
  assert (u16 (rtp_seq_num q - rtp_seq_num p - 1) = u16 (rtp_seq_num q - rtp_seq_num p) - 1) as ->; [|lia].
  rewrite <- (uw_small 16 _ Hr). unfold uw. by rewrite Zminus_mod_idemp_l.
Qed.

(** ** Widening the mask *)

Lemma columns_done_ext rb rows n col col' m :
  (forall r c, (r < rows)%nat -> col r c = col' r c) ->
  columns_done rb rows n col m -> columns_done rb rows n col' m.
Proof.
  intros Hext (Hl & Hb & Hf). split_and!; [done| |].
  - intros r q i Hr Hq Hi. rewrite Hb by done. unfold register_bit.
    repeat case_decide; [by apply Hext..|done].
  - intros r c Hr Hc. rewrite <- Hext by done. by apply Hf.
Qed.

(** Pushing the next packet's column extends the spread mask. *)
Lemma spread_push rb rows n om rbo done nm :
  columns_done rb rows (n + 1)
    (fun r c => if decide (c = n) then mask_bit om rbo r (length done)
                else spread_bit om rbo done r c) nm ->
  (forall r, (r < rows)%nat -> spread_bit om rbo done r n = false) ->
  columns_done rb rows (n + 1) (spread_bit om rbo (done ++ [n])) nm.
Proof.
  intros Hdone Hn. eapply columns_done_ext; [|exact Hdone].
  intros r c Hr. cbn. rewrite spread_bit_snoc. case_decide as E.
  - subst. by rewrite Hn, Nat.eqb_refl.
  - by rewrite (proj2 (Nat.eqb_neq n c)), orb_false_r by done.
Qed.

Lemma insert_zeros_loop_spec rb rbo rows om0 base rest : forall p done nm om,
  Forall media_sized rest ->
  StronglySorted lt (map (offset base) (p :: rest)) ->
  Forall (fun q => offset base q < 8 * rb /\ offset base q < 48)%nat rest ->
  (length done + length rest <= 8 * rbo)%nat ->
  columns_done rb rows (offset base p + 1) (spread_bit om0 rbo done) nm ->
  old_ready rbo rows (length done) om0 om ->
  exists nm' om',
    insert_zeros_loop 48 rb rbo rows rest (rtp_seq_num p) nm om (offset base p + 1) (length done) =
      Ok (nm', om', (offset base (default p (last rest)) + 1)%nat) /\
    length nm' = length nm /\ length om' = length om0 /\
    columns_done rb rows (offset base (default p (last rest)) + 1)
      (spread_bit om0 rbo (done ++ map (offset base) rest)) nm'.
Proof.
  induction rest as [|q rest IH]; intros p done nm om Hs Hsort Hb Hlen Hc Hold.
  { exists nm, om. cbn. rewrite app_nil_r. split_and!; [done..|apply Hold|done]. }
  apply Forall_cons_1 in Hs as [[Hbq Hlq] Hs]. apply Forall_cons_1 in Hb as [[Hb1 Hb2] Hb].
  cbn [map] in Hsort. apply StronglySorted_inv in Hsort as [Hsort Hlt].
  apply Forall_cons_1 in Hlt as [Hpq _].
  cbn [insert_zeros_loop]. rewrite decide_False by lia.
  destruct (ParseSequenceNumber_ok q Hbq Hlq) as [-> _]. cbn [mbind res_bind].
  rewrite (offset_gap base) by done.
  set (z := (offset base q - offset base p - 1)%nat).
  assert (Hz : (offset base p + 1 + z = offset base q)%nat) by (subst z; lia).
  assert (exists nm1, (if decide (0 < z)%nat
      then InsertZeroColumns z nm rb rows (offset base p + 1) else Ok nm) = Ok nm1 /\
    length nm1 = length nm /\ columns_done rb rows (offset base q) (spread_bit om0 rbo done) nm1)
    as (nm1 & -> & Hl1 & Hc1).
  { rewrite <- Hz. case_decide.
    - apply InsertZeroColumns_spec; [done|lia].
    - exists nm. replace z with 0%nat by lia. by rewrite Nat.add_0_r. }
  cbn [mbind res_bind]. rewrite Hz. cbn [length] in Hlen.
  edestruct (CopyColumn_push rb rbo rows (offset base q) (length done))
    as (nm2 & om2 & -> & Hl2 & Hc2 & Hold2); [exact Hc1|exact Hold|lia|lia|].
  cbn [mbind res_bind].
  destruct (IH q (done ++ [offset base q]) nm2 om2) as (nm' & om' & Hloop & Hl' & Hlo & Hc').
  - done.
  - done.
  - done.
  - rewrite length_app. cbn [length]. lia.
  - apply spread_push; [exact Hc2|]. intros r Hr. by apply Hc1.
  - rewrite length_app. exact Hold2.
  - rewrite length_app in Hloop. cbn [length] in Hloop. exists nm', om'.
    rewrite last_cons. rewrite <- (assoc_L (++)) in Hc'.
    replace (default p match last rest with Some y => Some y | None => Some q end)
      with (default q (last rest)) by (by destruct (last rest)).
    split_and!; [done|lia|done|done].
Qed.

(** ** [InsertZerosInPacketMasks] *)

Lemma offset_self p : offset (rtp_seq_num p) p = 0%nat.
Proof. unfold offset. by rewrite Z.sub_diag. Qed.

Lemma offsets_length media : length (offsets media) = length media.
Proof. apply length_map. Qed.

Lemma offsets_lookup media i p :
  media !! i = Some p -> offsets media !! i = Some (offset (base_seq media) p).
Proof. intros Hp. unfold offsets. by rewrite list_lookup_fmap, Hp. Qed.

Lemma span_last media p :
  last media = Some p -> span media = S (offset (base_seq media) p).
Proof. intros Hp. unfold span, offsets. by rewrite fmap_last, Hp. Qed.

Lemma offsets_below media o : media_batch media -> o ∈ offsets media -> (o < span media)%nat.
Proof.
  intros [Hne _ Hsort] [i Hi]%list_elem_of_lookup.
  destruct (last (offsets media)) as [l|] eqn:Hl.
  - unfold span. rewrite Hl. cbn. pose proof (lookup_lt_Some _ _ _ Hi).
    rewrite last_lookup in Hl.
    pose proof (sorted_gap _ i (pred (length (offsets media))) o l Hsort Hi Hl ltac:(lia)). lia.
  - apply last_None in Hl. by rewrite Hl in Hi.
Qed.

Lemma span_ge media : media_batch media -> (length media <= span media)%nat.
Proof.
  intros Hm. destruct media as [|p rest] eqn:E; [by destruct (batch_nonempty _ Hm)|]. rewrite <- E in *.
  assert (Hl : (length media - 1 < length (offsets media))%nat)
    by (rewrite offsets_length; subst; cbn; lia).
  destruct (lookup_lt_is_Some_2 _ _ Hl) as [o Ho].
  destruct (lookup_lt_is_Some_2 (offsets media) 0) as [a Ha]; [lia|].
  pose proof (sorted_gap _ _ _ _ _ (batch_sorted _ Hm) Ha Ho ltac:(lia)).
  pose proof (offsets_below media o Hm ltac:(by eapply list_elem_of_lookup_2)). lia.
Qed.

Lemma offsets_full media :
  media_batch media -> span media = length media -> offsets media = seq 0 (length media).
Proof.
  intros Hm Hs. apply sorted_full; [apply Hm|apply offsets_length|].
  intros x Hx. rewrite <- Hs. by apply offsets_below.
Qed.

(** With no gap the spread mask is the mask itself. *)
Lemma spread_full m rb rows n :
  (forall r c, (r < rows)%nat -> (n <= c < 8 * rb)%nat -> mask_bit m rb r c = false) ->
  forall r c, (r < rows)%nat -> (c < 8 * rb)%nat ->
    spread_bit m rb (seq 0 n) r c = mask_bit m rb r c.
Proof.
  intros Hr r c Hrow Hc. destruct (decide (c < n)%nat).
  - apply (spread_bit_at m rb (seq 0 n) r c c); [apply NoDup_seq|]. by apply lookup_seq.
  - rewrite Hr by lia. apply spread_bit_none. rewrite elem_of_seq. lia.
Qed.

Section InsertZeros.
Context `{W : FecHeaderWriter} (Hmax : MaxMediaPackets = 48%nat).

Definition masks_sized (e : Encoder) : Prop :=
  length (packet_masks_ e) = 288%nat /\ length (tmp_packet_masks_ e) = 288%nat /\
  bytes (packet_masks_ e) /\ bytes (tmp_packet_masks_ e).

(** Batches spread over more than 48 sequence numbers are refused. *)
Lemma InsertZeros_refuse e media m :
  media_batch media -> (length media <= 48)%nat -> (48 < span media)%nat ->
  InsertZerosInPacketMasks e media m = Ok (e, -1).
Proof.
  intros Hm Hk Hspan. unfold InsertZerosInPacketMasks. pose proof (batch_sized _ Hm) as Hsz.
  destruct media as [|p rest]; [by destruct (batch_nonempty _ Hm)|].
  destruct (last (p :: rest)) as [lst|] eqn:Hlast; [|by apply last_None in Hlast].
  pose proof (span_last _ _ Hlast) as Hsp. cbn [base_seq] in Hsp.
  rewrite decide_False; cycle 1.
  { intros Hle. destruct rest; [|cbn in Hle; lia]. cbn in Hlast. injection Hlast as ->.
    rewrite offset_self in Hsp. lia. }
  unfold back, front. rewrite Hlast. cbn [mbind res_bind].
  assert (Hml : media_sized lst)
    by (rewrite last_lookup in Hlast; exact (Forall_lookup_1 _ _ _ _ Hsz Hlast)).
  apply Forall_cons_1 in Hsz as [[Hb1 Hl1] _].
  destruct (ParseSequenceNumber_ok lst) as [-> _]; [apply Hml..|].
  destruct (ParseSequenceNumber_ok p Hb1 Hl1) as [-> _]. cbn [mbind res_bind].
  rewrite <- offset_Z. pose proof (offset_lt (rtp_seq_num p) lst). rewrite Hmax.
  rewrite !(uw_small 64 (Z.of_nat _ - _ + 1)) by (unfold in_uw; cbn [length] in *; lia).
  rewrite decide_False by (cbn [length] in *; lia).
  rewrite uw_small by (unfold in_uw; cbn [length] in *; lia).
  by rewrite decide_True by (cbn [length] in *; lia).
Qed.

Lemma cleared_columns (m rb : nat) tmp om rbo :
  (m * rb <= length tmp)%nat ->
  exists tmp0, memset0 tmp 0 (m * rb) = Ok tmp0 /\ length tmp0 = length tmp /\
    columns_done rb m 0 (spread_bit om rbo []) tmp0.
Proof.
  intros Hl. rewrite memset0_ok by lia. rewrite take_0, app_nil_l, Nat.add_0_l. eexists. split; [done|].
  rewrite length_app, length_replicate, length_drop. split; [lia|]. split_and!.
  - rewrite length_app, length_replicate, length_drop. lia.
  - intros r q i Hr Hq Hi. unfold byte_at. rewrite lookup_app_l by (rewrite length_replicate; nia).
    rewrite lookup_replicate_2 by nia. cbn [default]. rewrite Z.bits_0. unfold register_bit.
    repeat case_decide; [done..|done].
  - done.
Qed.

(** The gappy case: the columns are moved to the packets' offsets. *)
Lemma InsertZeros_gaps e p rest m :
  let media := p :: rest in
  media_batch media -> (span media <= 48)%nat -> length media <> span media ->
  masks_sized e -> packet_mask_size_ e = PacketMaskSize (length media) ->
  (1 <= m <= length media)%nat ->
  exists e', InsertZerosInPacketMasks e media m = Ok (e', Z.of_nat (span media)) /\
    masks_sized e' /\ generated_fec_packets_ e' = generated_fec_packets_ e /\
    forall r c, (r < m)%nat -> (c < 8 * PacketMaskSize (span media))%nat ->
      mask_bit (packet_masks_ e') (PacketMaskSize (span media)) r c =
      spread_bit (packet_masks_ e) (PacketMaskSize (length media)) (offsets media) r c.
Proof.
  intros media Hm Hspan Hgap (Hl1 & Hl2 & Hb1 & Hb2) Hsize Hmk.
  pose proof (batch_sized _ Hm) as Hsz. pose proof (span_ge _ Hm) as Hge.
  assert (Hlast : last media = Some (default p (last rest)))
    by (subst media; rewrite last_cons; by destruct (last rest)).
  pose proof (span_last _ _ Hlast) as Hsp. cbn [base_seq media] in Hsp.
  set (lst := default p (last rest)) in *. set (base := rtp_seq_num p) in *.
  unfold InsertZerosInPacketMasks. rewrite decide_False; cycle 1.
  { intros Hle. destruct rest; [|subst media; cbn in Hle; lia]. apply Hgap. subst lst base.
    cbn [last default] in Hsp. rewrite Hsp. cbn. by rewrite offset_self. }
  unfold back, front. rewrite Hlast. subst media. cbn [mbind res_bind tail].
  assert (Hml : media_sized lst)
    by (rewrite last_lookup in Hlast; exact (Forall_lookup_1 _ _ _ _ Hsz Hlast)).
  apply Forall_cons_1 in Hsz as [[Hbp Hlp] Hsz].
  destruct (ParseSequenceNumber_ok lst) as [-> _]; [apply Hml..|].
  destruct (ParseSequenceNumber_ok p Hbp Hlp) as [-> _]. cbn [mbind res_bind]. fold base.
  rewrite <- offset_Z, Hmax. set (k := length (p :: rest)) in *.
  rewrite (uw_small 64 (Z.of_nat _ - _ + 1)) by (unfold in_uw; lia).
  rewrite decide_False by lia. rewrite uw_small by (unfold in_uw; lia).
  rewrite decide_False by lia.
  replace (Z.to_nat _) with (span (p :: rest)) by lia. rewrite Hsize.
  set (rb := PacketMaskSize (span (p :: rest))). set (rbo := PacketMaskSize k) in *.
  pose proof (PacketMaskSize_max (span (p :: rest)) m ltac:(lia) Hspan) as Hmrb. fold rb in Hmrb.
  pose proof (PacketMaskSize_max k m ltac:(lia) ltac:(lia)) as Hmrbo. fold rbo in Hmrbo.
  pose proof (PacketMaskSize_fits (span (p :: rest)) Hspan) as Hfit. fold rb in Hfit.
  pose proof (PacketMaskSize_fits k ltac:(lia)) as Hfito. fold rbo in Hfito.
  destruct (cleared_columns m rb (tmp_packet_masks_ e) (packet_masks_ e) rbo ltac:(lia))
    as (tmp0 & Ht0 & Hlt0 & Hc0). rewrite Ht0. cbn [mbind res_bind].
  edestruct (CopyColumn_push rb rbo m 0 0) as (nm1 & om1 & Hcc & Hln1 & Hc1 & Hold1);
    [exact Hc0|apply (old_ready_start rbo m (packet_masks_ e)); lia|lia|lia|].
  rewrite Hcc. cbn [mbind res_bind].
  destruct (insert_zeros_loop_spec rb rbo m (packet_masks_ e) base rest p [0%nat] nm1 om1)
    as (nm2 & om2 & Hloop & Hln2 & Hlo2 & Hc2).
  - done.
  - apply Hm.
  - apply Forall_forall. intros q Hq. assert (offset base q < span (p :: rest))%nat; [|lia].
    apply offsets_below; [done|]. unfold offsets. apply list_elem_of_fmap. exists q.
    split; [done|by right].
  - subst k. cbn [length] in *. lia.
  - subst base. rewrite offset_self. by apply (spread_push rb m 0 (packet_masks_ e) rbo []).
  - exact Hold1.
  - subst base. rewrite offset_self in Hloop. cbn [length Nat.add] in Hloop. rewrite Hloop.
    cbn [mbind res_bind]. fold lst in Hc2 |- *. rewrite Nat.add_1_r, <- Hsp in Hc2 |- *.
    destruct (shift_last_byte_spec rb m (span (p :: rest)) _ nm2 Hc2 Hfit)
      as (nm3 & Hsh & Hl3 & Hbits). rewrite Hsh. cbn [mbind res_bind].
    destruct (memcpy_lookup om2 0 nm3 0 (m * rb)) as (fin & Hcpy & Hlf & Hin & _); [lia..|].
    rewrite Hcpy. cbn [mbind res_bind]. eexists. split; [done|].
    destruct (CopyColumn_bytes _ _ _ _ _ _ _ _ _ (memset0_bytes _ _ _ _ Hb2 Ht0) Hb1 Hcc) as [Hbn1 Hbo1].
    destruct (insert_zeros_loop_bytes _ _ _ _ _ _ _ _ _ _ _ _ _ Hbn1 Hbo1 Hloop) as [Hbn2 Hbo2].
    pose proof (shift_last_byte_bytes _ _ _ _ _ Hbn2 Hsh) as Hbn3.
    unfold masks_sized, set_both_masks. cbn [packet_masks_ tmp_packet_masks_ generated_fec_packets_].
    split_and!;
      [lia|lia|exact (memcpy_bytes _ _ _ _ _ _ Hbo2 Hbn3 Hcpy)|done|done|].
    intros r c Hr Hc. unfold offsets. cbn [base_seq map]. rewrite offset_self.
    transitivity (mask_bit nm3 rb r c); [|exact (Hbits r c Hr Hc)]. unfold mask_bit.
    pose proof (lookup_lt_div rb m r c Hr Hc).
    specialize (Hin (r * rb + c / 8)%nat ltac:(lia)). rewrite !Nat.add_0_l in Hin. by rewrite Hin.
Qed.

Lemma InsertZeros_spread e media m :
  media_batch media -> (span media <= 48)%nat ->
  masks_sized e -> packet_mask_size_ e = PacketMaskSize (length media) ->
  (1 <= m <= length media)%nat ->
  (forall r c, (r < m)%nat -> (length media <= c < 8 * PacketMaskSize (length media))%nat ->
     mask_bit (packet_masks_ e) (PacketMaskSize (length media)) r c = false) ->
  exists e', InsertZerosInPacketMasks e media m = Ok (e', Z.of_nat (span media)) /\
    masks_sized e' /\ generated_fec_packets_ e' = generated_fec_packets_ e /\
    forall r c, (r < m)%nat -> (c < 8 * PacketMaskSize (span media))%nat ->
      mask_bit (packet_masks_ e') (PacketMaskSize (span media)) r c =
      spread_bit (packet_masks_ e) (PacketMaskSize (length media)) (offsets media) r c.
Proof.
  intros Hm Hspan Hsized Hsize Hmk Hrange.
  destruct media as [|p rest]; [by destruct (batch_nonempty _ Hm)|].
  destruct (decide (length (p :: rest) = span (p :: rest))) as [Heq|Hne];
    [|by apply InsertZeros_gaps].
  exists e. rewrite <- Heq. split_and!; [|done..|].
  - pose proof (span_ge _ Hm) as Hge. pose proof (batch_sized _ Hm) as Hsz.
    unfold InsertZerosInPacketMasks. case_decide; [done|].
    destruct (last (p :: rest)) as [lst|] eqn:Hlast; [|by apply last_None in Hlast].
    pose proof (span_last _ _ Hlast) as Hsp. cbn [base_seq] in Hsp.
    unfold back, front. rewrite Hlast. cbn [mbind res_bind].
    assert (Hml : media_sized lst)
      by (rewrite last_lookup in Hlast; exact (Forall_lookup_1 _ _ _ _ Hsz Hlast)).
    apply Forall_cons_1 in Hsz as [[Hbp Hlp] Hsz].
    destruct (ParseSequenceNumber_ok lst) as [-> _]; [apply Hml..|].
    destruct (ParseSequenceNumber_ok p Hbp Hlp) as [-> _]. cbn [mbind res_bind].
    rewrite <- offset_Z. rewrite (uw_small 64) by (unfold in_uw; lia).
    by rewrite decide_True by lia.
  - intros r c Hr Hc. rewrite offsets_full by done. symmetry. by apply (spread_full _ _ m).
Qed.

End InsertZeros.

(** ** Payload generation *)

(** [fec] is the exact parity of [ps] under a header of [hdr] bytes, before
    the header is finalized. *)
Definition parity_length (hdr : nat) (ps : list Packet) : nat :=
  match ps with [] => 0%nat | _ => (hdr + max_list (map (fun p => length p - 12)%nat ps))%nat end.

Record parity (hdr : nat) (fec : Packet) (ps : list Packet) : Prop := {
  parity_bytes : bytes fec;
  parity_size : length fec = parity_length hdr ps;
  parity_header : forall i, (i < 8)%nat -> byte_at fec i = xor_sum ps i;
  parity_payload : forall j, byte_at fec (hdr + j) = xor_sum ps (12 + j)
}.

Lemma xor_sum_snoc ps p i : xor_sum (ps ++ [p]) i = Z.lxor (xor_sum ps i) (contribution p i).
Proof.
  induction ps as [|q ps IH]; cbn [app xor_sum foldr]; [by rewrite Z.lxor_comm|].
  fold (xor_sum (ps ++ [p]) i). fold (xor_sum ps i). by rewrite IH, Z.lxor_assoc.
Qed.

Lemma max_list_snoc l n : max_list (l ++ [n]) = Nat.max (max_list l) n.
Proof. induction l as [|a l IH]; cbn in *; lia. Qed.

Lemma parity_length_snoc hdr ps p :
  parity_length hdr (ps ++ [p]) = Nat.max (parity_length hdr ps) (hdr + (length p - 12)).
Proof.
  destruct ps as [|q ps]; cbn [app parity_length]; [cbn; lia|].
  change (q :: ps ++ [p]) with ((q :: ps) ++ [p]). rewrite map_app. cbn [map]. rewrite max_list_snoc. lia.
Qed.

Lemma parity_nil hdr : parity hdr [] [].
Proof. by split. Qed.

(** One media packet is XORed in. *)
Lemma parity_step hdr fec ps p :
  (8 <= hdr)%nat -> media_sized p -> parity hdr fec ps ->
  exists fec',
    (let fec_packet_length := (hdr + (length p - 12))%nat in
     let fec := if decide (length fec < fec_packet_length)%nat
                then resize_zero fec fec_packet_length else fec in
     let! fec := XorHeaders p fec in XorPayloads p (length p - 12) hdr fec) = Ok fec' /\
    parity hdr fec' (ps ++ [p]).
Proof.
  intros Hh [Hbp Hlp] [Hb Hs Hhd Hpl]. cbv zeta.
  set (f1 := if decide _ then _ else _).
  assert (Hf1 : bytes f1 /\ length f1 = Nat.max (length fec) (hdr + (length p - 12)) /\
    forall j, byte_at f1 j = byte_at fec j).
  { subst f1. case_decide; [|split_and!; [done|lia|done]]. split_and!.
    - by apply bytes_resize.
    - unfold resize_zero. rewrite length_resize. lia.
    - intros j. rewrite byte_at_resize. case_decide; [done|]. symmetry. apply byte_at_beyond. lia. }
  destruct Hf1 as (Hb1 & Hl1 & Hat1).
  destruct (XorHeaders_spec p f1) as (f2 & -> & Hl2 & Hb2 & Hat2); [lia..|done|done|].
  cbn [mbind res_bind].
  destruct (XorPayloads_spec p hdr f2) as (f3 & -> & Hl3 & Hb3 & Hlo & Hhi); [done..|].
  exists f3. split; [done|]. split.
  - done.
  - rewrite parity_length_snoc. lia.
  - intros i Hi. rewrite Hlo, Hat2, Hat1, decide_True, xor_sum_snoc, Hhd by lia. done.
  - intros j. rewrite Hhi, Hat2, Hat1, decide_False, xor_sum_snoc, Hpl by lia. done.
Qed.

(** The packets row [r] of a mask protects, by sequence-number offset. *)
Definition protected_by (masks : list Z) (rb r : nat) (base : Z) (media : list Packet)
    : list Packet :=
  filter (fun p => mask_bit masks rb r (offset base p) = true) media.

Lemma mask_bit_test masks rb r c b :
  masks !! (r * rb + c / 8)%nat = Some b ->
  has_bits b (Z.shiftl 1 (7 - Z.of_nat (c mod 8))) = mask_bit masks rb r c.
Proof.
  intros Hb. unfold mask_bit. rewrite Hb, Z.shiftl_1_l. apply has_bits_pow2.
  pose proof (Nat.mod_upper_bound c 8). lia.
Qed.

Lemma offset_carry (o o' : nat) :
  (o < o')%nat ->
  ((o mod 8 + (o' - o)) / 8 + o / 8 = o' / 8)%nat /\ ((o mod 8 + (o' - o)) mod 8 = o' mod 8)%nat.
Proof.
  intros H. pose proof (Nat.div_mod_eq o 8).
  assert (E : (o' = (o mod 8 + (o' - o)) + (o / 8) * 8)%nat) by lia.
  set (x := (o mod 8 + (o' - o))%nat) in *. rewrite E.
  rewrite Nat.div_add, Nat.Div0.mod_add by lia. done.
Qed.

Lemma xor_media_spec masks rb rows r hdr base : forall media p ps fec,
  (rows * rb <= length masks)%nat -> (r < rows)%nat -> (8 <= hdr)%nat ->
  Forall media_sized (p :: media) ->
  StronglySorted lt (map (offset base) (p :: media)) ->
  Forall (fun q => offset base q < 8 * rb)%nat (p :: media) ->
  parity hdr fec ps ->
  exists fec',
    xor_media masks hdr (p :: media) (r * rb + offset base p / 8) (offset base p mod 8)
      (rtp_seq_num p) fec = Ok fec' /\
    parity hdr fec' (ps ++ protected_by masks rb r base (p :: media)).
Proof.
  induction media as [|q media IH]; intros p ps fec Hlen Hr Hh Hs Hsort Hoff Hpar;
    apply Forall_cons_1 in Hs as [Hsp Hs]; apply Forall_cons_1 in Hoff as [Hop Hoff].
  all: pose proof (lookup_lt_div rb rows r (offset base p) Hr Hop) as Hidx.
  all: destruct (buf_get_lt masks (r * rb + offset base p / 8)) as (mb & Hmb & Hget); [lia|].
  all: assert (exists fec1, (if has_bits mb (Z.shiftl 1 (7 - Z.of_nat (offset base p mod 8))) then
          let! n := size_sub (length p) kRtpHeaderSize in
          let fec_packet_length := (hdr + n)%nat in
          let fec := if decide (length fec < fec_packet_length)%nat
                     then resize_zero fec fec_packet_length else fec in
          let! fec := XorHeaders p fec in XorPayloads p n hdr fec
        else Ok fec) = Ok fec1 /\
      parity hdr fec1 (ps ++ protected_by masks rb r base [p])) as (fec1 & Hf1 & Hpar1).
  1, 3: unfold protected_by; rewrite filter_cons, filter_nil, (mask_bit_test _ _ _ _ _ Hmb);
    destruct (mask_bit masks rb r (offset base p)) eqn:E; case_decide; try done;
    [unfold kRtpHeaderSize; rewrite size_sub_ok by apply Hsp; by apply parity_step
    |exists fec; by rewrite app_nil_r].
  all: cbv zeta in Hf1; cbn [xor_media]; rewrite Hget; cbn [mbind res_bind]; rewrite Hf1; cbn [mbind res_bind].
  - exists fec1. done.
  - destruct (ParseSequenceNumber_ok q) as [-> _];
      [apply Forall_cons_1 in Hs as [Hsq _]; apply Hsq..|].
    cbn [mbind res_bind]. pose proof Hsort as Hsort'.
    cbn [map] in Hsort'. apply StronglySorted_inv in Hsort' as [Hsort' Hlt].
    apply Forall_cons_1 in Hlt as [Hpq _]. rewrite (offset_step base) by done.
    destruct (offset_carry _ _ Hpq) as [Hd Hmd].
    replace (r * rb + offset base p / 8 + _)%nat with (r * rb + offset base q / 8)%nat by lia.
    rewrite Hmd. destruct (IH q (ps ++ protected_by masks rb r base [p]) fec1) as (fec' & Hx & Hp');
      [done..|]. exists fec'. split; [exact Hx|].
    rewrite <- (assoc_L (++)) in Hp'. unfold protected_by in *.
    by rewrite <- filter_app in Hp'.
Qed.

(** ** Loops over the generated packets *)

Lemma packet_loop (F : nat -> Packet -> res Packet) (Q : nat -> Packet -> Packet -> Prop) packets n :
  (n <= length packets)%nat ->
  (forall i p, (i < n)%nat -> packets !! i = Some p -> exists p', F i p = Ok p' /\ Q i p p') ->
  exists packets',
    foldM (fun ps i => let! p := packet_get ps i in let! p' := F i p in packet_set ps i p')
          (seq 0 n) packets = Ok packets' /\
    length packets' = length packets /\
    (forall i, (i < n)%nat -> exists p p',
       packets !! i = Some p /\ packets' !! i = Some p' /\ Q i p p') /\
    (forall i, (n <= i)%nat -> packets' !! i = packets !! i).
Proof.
  induction n as [|n IH]; intros Hlen HF.
  { exists packets. cbn. split_and!; [done..|intros; lia|done]. }
  rewrite seq_S, foldM_app.
  destruct IH as (ps1 & -> & Hl1 & Hin & Hout); [lia|intros; apply HF; [lia|done]|].
  cbn [foldM mbind res_bind Nat.add].
  destruct (lookup_lt_is_Some_2 packets n ltac:(lia)) as [p Hp].
  destruct (HF n p ltac:(lia) Hp) as (p' & HF' & HQ).
  unfold packet_get. rewrite Hout, Hp by lia. cbn [mbind res_bind]. rewrite HF'.
  cbn [mbind res_bind]. unfold packet_set. rewrite decide_True by lia. cbn [mbind res_bind].
  eexists. split; [done|]. split_and!.
  - by rewrite length_insert.
  - intros i Hi. destruct (decide (i = n)) as [->|].
    + exists p, p'. rewrite list_lookup_insert_eq by lia. done.
    + rewrite list_lookup_insert_ne by done. apply Hin. lia.
  - intros i Hi. rewrite list_lookup_insert_ne by lia. apply Hout. lia.
Qed.

Lemma prepare_packets_spec packets n :
  (n <= length packets)%nat ->
  exists packets', prepare_packets packets n = Ok packets' /\ length packets' = length packets /\
    forall i, (i < n)%nat -> packets' !! i = Some [].
Proof.
  intros Hn. unfold prepare_packets. revert packets Hn. induction n as [|n IH]; intros packets Hn.
  { exists packets. cbn. split_and!; [done..|intros; lia]. }
  rewrite seq_S, foldM_app. destruct (IH packets ltac:(lia)) as (ps & -> & Hl & Hin).
  cbn [foldM mbind res_bind Nat.add]. unfold packet_set. rewrite decide_True by lia.
  eexists. split; [done|]. rewrite length_insert. split; [done|]. intros i Hi.
  destruct (decide (i = n)) as [->|]; [by rewrite list_lookup_insert_eq by lia|].
  rewrite list_lookup_insert_ne by done. apply Hin. lia.
Qed.

(** ** Selecting packets by position *)

Fixpoint select (f : nat -> bool) (j : nat) (l : list Packet) : list Packet :=
  match l with
  | [] => []
  | p :: l => if f j then p :: select f (S j) l else select f (S j) l
  end.

Lemma filter_select (P : Packet -> Prop) `{!forall p, Decision (P p)} f j l :
  (forall i p, l !! i = Some p -> P p <-> f (j + i)%nat = true) ->
  filter P l = select f j l.
Proof.
  revert j. induction l as [|p l IH]; intros j HP; [done|]. rewrite filter_cons. cbn [select].
  pose proof (HP 0%nat p eq_refl) as Hp. rewrite Nat.add_0_r in Hp.
  rewrite (IH (S j)); cycle 1.
  { intros i q Hq. rewrite (HP (S i) q Hq). by replace (j + S i)%nat with (S j + i)%nat by lia. }
  destruct (f j), Hp as [Hp1 Hp2]; case_decide as Hd; try done; [by destruct Hd; apply Hp2|].
  by specialize (Hp1 Hd).
Qed.

Lemma select_elem f j l i p :
  l !! i = Some p -> f (j + i)%nat = true -> p ∈ select f j l.
Proof.
  revert j i. induction l as [|q l IH]; intros j i Hi Hf; [done|]. cbn [select].
  destruct i as [|i].
  - cbn in Hi. injection Hi as ->. rewrite Nat.add_0_r in Hf. rewrite Hf. left.
  - cbn in Hi. assert (p ∈ select f (S j) l) by (apply (IH (S j) i Hi); rewrite <- Hf; f_equal; lia).
    destruct (f j); [by right|done].
Qed.

(** ** The protected sequence numbers *)

(** The columns set in row [r] are the offsets of the packets it protects. *)
Lemma mask_indices_protected masks rb rows r media :
  media_batch media -> (r < rows)%nat -> (rows * rb <= length masks)%nat ->
  (span media <= 8 * rb)%nat ->
  (forall c, (c < 8 * rb)%nat -> c ∉ offsets media -> mask_bit masks rb r c = false) ->
  mask_indices (take rb (drop (r * rb) masks)) rb =
  map (offset (base_seq media)) (protected_by masks rb r (base_seq media) media).
Proof.
  intros Hm Hr Hlen Hspan Hzero.
  assert (Hbit : forall c, (c < 8 * rb)%nat ->
    mask_bit (take rb (drop (r * rb) masks)) rb 0 c = mask_bit masks rb r c).
  { intros c Hc. unfold mask_bit. cbn [Nat.mul Nat.add].
    rewrite lookup_take_lt by (apply Nat.Div0.div_lt_upper_bound; lia). by rewrite lookup_drop. }
  assert (Hmap : map (offset (base_seq media)) (protected_by masks rb r (base_seq media) media) =
                 filter (fun c => mask_bit masks rb r c = true) (offsets media)).
  { unfold protected_by, offsets. generalize (base_seq media) as base. intros base.
    clear. induction media as [|p media IH]; [done|].
    rewrite filter_cons. cbn [map]. rewrite filter_cons. case_decide; cbn [map]; by rewrite IH. }
  rewrite Hmap. apply sorted_ext.
  - apply sorted_filter, sorted_seq.
  - apply sorted_filter, Hm.
  - intros c. rewrite mask_indices_bit, list_elem_of_filter. split.
    + intros [Hc Hb]. rewrite Hbit in Hb by done. split; [done|].
      destruct (decide (c ∈ offsets media)); [done|]. by rewrite Hzero in Hb.
    + intros [Hb Hc]. pose proof (offsets_below _ _ Hm Hc). rewrite Hbit by lia. split; [lia|done].
Qed.
