(* ===== verification/EncodeFecSpec.v ===== *)
(** * EncodeFecSpec: the contract of [EncodeFec]

    For any header scheme obeying [FecSchemeLaws]: the FEC packets produced
    from a batch of media packets, parsed by the scheme's reader, are parities
    of the media packets their mask rows select, and together protect every
    media packet. *)

From S2P Require Import Prelude PacketMasks MaskDesign FecTypes XorCode FecEncoder ZeroColumns.
From S2P Require Import EncoderCorrect.

(** ** How many FEC packets *)

Lemma NumFecPackets_bounds k pf :
  1 <= k -> 0 <= pf <= 255 ->
  0 <= NumFecPackets k pf <= k /\ (NumFecPackets k pf = 0 <-> pf = 0).
Proof.
  intros Hk Hpf. unfold NumFecPackets. rewrite Z.shiftr_div_pow2 by lia.
  change (Z.shiftl 1 7) with 128. change (2 ^ 8) with 256.
  assert (0 <= (k * pf + 128) / 256) by (apply Z.div_pos; nia).
  assert ((k * pf + 128) / 256 < k + 1) by (apply Z.div_lt_upper_bound; nia).
  case_decide as Hd; [lia|]. split; [lia|].
  split; [intros Hz; apply not_and_l_alt in Hd as [?|[? ?]]; lia|intros ->].
  by rewrite Z.mul_0_r.
Qed.

Section EncodeFec.
Context {R : FecHeaderReader} {W : FecHeaderWriter} {own : bool} {L : FecSchemeLaws R W own}.

(** What the reader of the scheme gets out of a finished FEC packet that
    protects [prot]. *)
Definition reads_as (ssrc base : Z) (prot : list Packet) (fec : Packet) : Prop :=
  bytes fec /\ forall fssrc fseq, exists fp ps,
    ReadFecHeader (new_fec_packet fssrc fseq fec) = Ok (Some fp) /\
    fp_ssrc fp = fssrc /\ fp_seq_num fp = fseq /\ fp_protected_packets fp = [] /\
    fp_protected_streams fp = [ps] /\
    ps_ssrc ps = (if own then fssrc else ssrc) /\ ps_seq_num_base ps = base /\
    (ps_packet_mask_offset ps + ps_packet_mask_size ps <= length (fp_pkt fp))%nat /\
    mask_indices (drop (ps_packet_mask_offset ps) (fp_pkt fp)) (ps_packet_mask_size ps) =
      map (offset base) prot /\
    (14 <= fp_fec_header_size fp <= 32)%nat /\
    fp_protection_length fp = max_list (map (fun p => length p - 12)%nat prot) /\
    length (fp_pkt fp) = (fp_fec_header_size fp + fp_protection_length fp)%nat /\
    encodes (fp_fec_header_size fp) (fp_pkt fp) prot.

Lemma parity_encodes hdr d d'' ps :
  (14 <= hdr)%nat -> (hdr <= length d)%nat -> parity hdr d ps -> same_recovery hdr d d'' ->
  encodes hdr d'' ps.
Proof.
  intros Hh Hl [Hb _ Hhd Hpl] (Hlen & H0 & H8 & Hrest). split.
  - rewrite <- Hhd by lia.
    apply (H0 (byte_at d 0) (byte_at d'' 0)); apply byte_at_some; lia.
  - intros i Hi. rewrite <- Hhd by lia. unfold byte_at. by rewrite H8.
  - intros j. rewrite <- Hpl. unfold byte_at. by rewrite Hrest by lia.
Qed.

Lemma protected_by_sized masks rb r base media :
  Forall media_sized media -> Forall media_sized (protected_by masks rb r base media).
Proof. intros H. apply Forall_forall. intros p [_ Hp]%list_elem_of_filter. by apply (proj1 (Forall_forall _ _) H). Qed.

Lemma max_payload_bound (prot : list Packet) n :
  Forall (fun p => length p - 12 < n)%nat prot -> prot <> [] ->
  (max_list (map (fun p => length p - 12)%nat prot) < n)%nat.
Proof.
  intros Hf Hne. destruct prot as [|p prot]; [done|]. clear Hne.
  apply Forall_cons_1 in Hf as [Hp Hf]. revert p Hp. induction Hf as [|q prot Hq _ IH]; intros p Hp.
  - cbn. lia.
  - cbn in *. specialize (IH q Hq). lia.
Qed.

(** ** The two passes over the generated packets *)

Definition short_media (media : list Packet) : Prop :=
  Forall (fun p => Z.of_nat (length p) < 65548) media.

Lemma GenerateFecPayloads_spec e media m :
  masks_sized e -> packet_mask_size_ e = 2%nat \/ packet_mask_size_ e = 6%nat ->
  (m * packet_mask_size_ e <= 288)%nat -> (m <= length (generated_fec_packets_ e))%nat ->
  (forall i, (i < m)%nat -> generated_fec_packets_ e !! i = Some []) ->
  media_batch media -> (span media <= 8 * packet_mask_size_ e)%nat ->
  exists packets, GenerateFecPayloads e media m = Ok (set_packets e packets) /\
    length packets = length (generated_fec_packets_ e) /\
    forall i, (i < m)%nat -> exists min fec, packets !! i = Some fec /\
      MinPacketMaskSize (take (packet_mask_size_ e) (drop (i * packet_mask_size_ e) (packet_masks_ e)))
        (packet_mask_size_ e) = Ok min /\
      parity (FecHeaderSize min) fec
        (protected_by (packet_masks_ e) (packet_mask_size_ e) i (base_seq media) media).
Proof.
  intros (Hl1 & _ & Hb & _) Hsz Hm Hlen Hempty Hbatch Hspan. set (rb := packet_mask_size_ e) in *.
  destruct media as [|p rest] eqn:Emedia; [by destruct (batch_nonempty _ Hbatch)|]. rewrite <- Emedia in *.
  pose proof (batch_sized _ Hbatch) as Hsized.
  set (F := fun i fec =>
    let! min := MinPacketMaskSize (drop (i * rb) (packet_masks_ e)) rb in
    let! first := front media in
    let! prev := ParseSequenceNumber first in
    xor_media (packet_masks_ e) (FecHeaderSize min) media (i * rb) 0 prev fec).
  destruct (packet_loop F (fun i _ fec => exists min,
      MinPacketMaskSize (take rb (drop (i * rb) (packet_masks_ e))) rb = Ok min /\
      parity (FecHeaderSize min) fec (protected_by (packet_masks_ e) rb i (base_seq media) media))
    (generated_fec_packets_ e) m Hlen) as (packets & Hloop & Hlp & Hin & _).
  - intros i fec Hi Hfec. rewrite Hempty in Hfec by done. injection Hfec as <-.
    assert (Hdrop : (rb <= length (drop (i * rb) (packet_masks_ e)))%nat)
      by (rewrite length_drop; nia).
    destruct (min_mask_total (drop (i * rb) (packet_masks_ e)) rb Hsz Hdrop) as [min Hmin].
    pose proof (header_size_bounds _ _ _ Hmin Hsz) as Hhdr.
    unfold F. rewrite Hmin. cbn [mbind res_bind]. rewrite Emedia. cbn [front mbind res_bind].
    rewrite Emedia in Hsized. pose proof (Forall_cons_1 _ _ _ Hsized) as [[Hbp Hlp] _].
    destruct (ParseSequenceNumber_ok p Hbp Hlp) as [-> _]. cbn [mbind res_bind].
    destruct (xor_media_spec (packet_masks_ e) rb m i (FecHeaderSize min) (rtp_seq_num p) rest p [] [])
      as (fec & Hx & Hpar); [lia|lia|lia|done| | |apply parity_nil|].
    + rewrite Emedia in Hbatch. apply Hbatch.
    + apply Forall_forall. intros q Hq. rewrite Emedia in Hbatch, Hspan.
      assert (offset (rtp_seq_num p) q < span (p :: rest))%nat; [|lia].
      apply offsets_below; [done|]. apply list_elem_of_fmap. by exists q.
    + rewrite offset_self in Hx. change (0 / 8)%nat with 0%nat in Hx.
      change (0 mod 8)%nat with 0%nat in Hx. rewrite Nat.add_0_r in Hx.
      exists fec. split; [exact Hx|]. exists min. rewrite min_mask_view by done. done.
  - exists packets. unfold GenerateFecPayloads. fold rb. split_and!; [|done|].
    + erewrite foldM_ext; [rewrite Hloop; done|]. intros ps i _. cbn beta.
      destruct (packet_get ps i) as [q|]; [|done]. cbn [mbind res_bind]. unfold F.
      destruct (MinPacketMaskSize _ _) as [min|]; [|done]. cbn [mbind res_bind].
      destruct (front media) as [first|]; [|done]. cbn [mbind res_bind].
      by destruct (ParseSequenceNumber first).
    + intros i Hi. destruct (Hin i Hi) as (_ & fec & _ & Hf & min & Hmin & Hpar). eauto.
Qed.

Lemma FinalizeFecHeaders_spec e media m packets ssrc base :
  packet_mask_size_ e = 2%nat \/ packet_mask_size_ e = 6%nat ->
  masks_sized e -> (m * packet_mask_size_ e <= 288)%nat -> (m <= length packets)%nat ->
  is_u16 base -> is_u32 ssrc -> short_media media ->
  (forall i, (i < m)%nat -> exists min fec, packets !! i = Some fec /\
      let mask := take (packet_mask_size_ e) (drop (i * packet_mask_size_ e) (packet_masks_ e)) in
      let prot := protected_by (packet_masks_ e) (packet_mask_size_ e) i (base_seq media) media in
      MinPacketMaskSize mask (packet_mask_size_ e) = Ok min /\
      parity (FecHeaderSize min) fec prot /\ prot <> [] /\
      mask_indices mask (packet_mask_size_ e) = map (offset base) prot) ->
  exists packets', FinalizeFecHeaders (set_packets e packets) m ssrc base =
      Ok (set_packets e packets') /\
    length packets' = length packets /\
    forall i, (i < m)%nat -> exists fec, packets' !! i = Some fec /\
      reads_as ssrc base
        (protected_by (packet_masks_ e) (packet_mask_size_ e) i (base_seq media) media) fec.
Proof.
  intros Hsz (Hl1 & _ & Hb & _) Hm Hlen Hbase Hssrc Hshort Hrows. set (rb := packet_mask_size_ e) in *.
  set (F := fun i fec => FinalizeFecHeader
    [mkWriterStream ssrc base (take rb (drop (i * rb) (packet_masks_ e)))] fec).
  destruct (packet_loop F (fun i _ fec => reads_as ssrc base
      (protected_by (packet_masks_ e) rb i (base_seq media) media) fec) packets m Hlen)
    as (packets' & Hloop & Hlp & Hin & _).
  - intros i fec Hi Hfec.
    destruct (Hrows i Hi) as (min & fec0 & Hf0 & Hmin & Hpar & Hne & Hidx).
    rewrite Hfec in Hf0. injection Hf0 as <-.
    set (mask := take rb (drop (i * rb) (packet_masks_ e))) in *.
    set (prot := protected_by _ _ _ _ _) in *.
    assert (Hirb : (i * rb + rb <= 288)%nat) by nia.
    assert (Hml : length mask = rb) by (subst mask; rewrite length_take, length_drop; lia).
    pose proof (header_size_bounds _ _ _ Hmin Hsz) as Hhdr.
    assert (Hfl : length fec = (FecHeaderSize min + max_list (map (fun p => length p - 12)%nat prot))%nat).
    { rewrite (parity_size _ _ _ Hpar). unfold parity_length. by destruct prot. }
    assert (Hmax : Z.of_nat (max_list (map (fun p => length p - 12)%nat prot)) < 65536).
    { pose proof (max_payload_bound prot (Z.to_nat 65536)) as Hmp.
      enough (max_list (map (fun p => length p - 12)%nat prot) < Z.to_nat 65536)%nat by lia.
      apply Hmp; [|done]. apply Forall_forall. intros p [_ Hp]%list_elem_of_filter.
      pose proof (proj1 (Forall_forall _ _) Hshort p Hp) as Hs. cbv beta in Hs. lia. }
    destruct (header_roundtrip ssrc base mask min fec) as (d' & Hfin & Hbd' & Hread);
      rewrite ?Hml; try done; [| |lia|lia|].
    { subst mask. by apply Forall_take, Forall_drop. }
    { apply Hpar. }
    exists d'. split; [exact Hfin|]. split; [done|]. intros fssrc fseq.
    destruct (Hread fssrc fseq) as (off & size & d'' & Hr & Hos & Hmi & Hsame).
    do 2 eexists. split; [exact Hr|].
    cbn [fp_ssrc fp_seq_num fp_protected_packets fp_protected_streams fp_fec_header_size
         fp_protection_length fp_pkt with_header new_fec_packet].
    split_and!; try done; cbn [ps_ssrc ps_seq_num_base ps_packet_mask_offset ps_packet_mask_size];
      try done; try lia.
    + rewrite Hml in Hmi. etransitivity; [exact Hmi|exact Hidx].
    + destruct Hsame as (-> & _). lia.
    + eapply parity_encodes; [| |exact Hpar|exact Hsame]; lia.
  - exists packets'. split_and!; [|done|].
    + unfold FinalizeFecHeaders. cbn [packet_mask_size_ packet_masks_ set_packets generated_fec_packets_].
      fold rb. erewrite foldM_ext; [rewrite Hloop; done|]. intros ps i Hi%elem_of_seq. cbn beta.
      destruct (packet_get ps i) as [q|]; [|done]. cbn [mbind res_bind].
      rewrite decide_True by nia. done.
    + intros i Hi. destruct (Hin i Hi) as (_ & fec & _ & Hf & Hreads). eauto.
Qed.

(** ** The whole encoder *)

Definition encoder_ok (e : Encoder) : Prop :=
  masks_sized e /\ length (generated_fec_packets_ e) = 48%nat.

Lemma memset0_cleared masks n :
  length masks = 288%nat -> bytes masks -> (n <= 288)%nat ->
  exists z, memset0 masks 0 n = Ok z /\ cleared n z.
Proof.
  intros Hl Hb Hn. destruct (memset0 masks 0 n) as [z|] eqn:E.
  - exists z. split; [done|]. pose proof (memset0_bytes _ _ _ _ Hb E) as Hz.
    rewrite memset0_ok in E by lia. injection E as <-. split; [|done|].
    + rewrite length_app, length_replicate, length_drop.
      unfold kFECPacketMaskMaxSize. lia.
    + intros i Hi. rewrite lookup_app_l by (by rewrite length_replicate).
      by apply lookup_replicate_2.
  - by rewrite memset0_ok in E by lia.
Qed.

Lemma PacketMaskSize_two_six n : PacketMaskSize n = 2%nat \/ PacketMaskSize n = 6%nat.
Proof. destruct (PacketMaskSize_cases n) as [[_ ->]|[_ ->]]; lia. Qed.

(** The packets the finished mask protects are the ones the designed mask
    selects. *)
Lemma protected_by_select masks rb om rbo media r f :
  media_batch media -> (span media <= 8 * rb)%nat ->
  (forall c, (c < 8 * rb)%nat -> mask_bit masks rb r c = spread_bit om rbo (offsets media) r c) ->
  (forall j, (j < length media)%nat -> mask_bit om rbo r j = f j) ->
  protected_by masks rb r (base_seq media) media = select f 0 media.
Proof.
  intros Hm Hspan Hspread Hf. apply filter_select. intros j p Hp.
  pose proof (offsets_lookup _ _ _ Hp) as Ho.
  pose proof (offsets_below _ _ Hm (list_elem_of_lookup_2 _ _ _ Ho)) as Hlt.
  rewrite Hspread by lia. rewrite (spread_bit_at _ _ _ _ _ _ (sorted_NoDup _ (batch_sorted _ Hm)) Ho).
  rewrite Hf by (by eapply lookup_lt_Some). done.
Qed.

(** The encoder state in which the payloads are generated: [rb]-byte mask rows
    over the batch's sequence numbers, packets cleared. *)
Record masks_ready (e : Encoder) (media : list Packet) (m : nat) (bit : nat -> nat -> bool) : Prop := {
  ready_sized : masks_sized e;
  ready_size : packet_mask_size_ e = PacketMaskSize (span media);
  ready_slots : length (generated_fec_packets_ e) = 48%nat;
  ready_empty : forall i, (i < m)%nat -> generated_fec_packets_ e !! i = Some [];
  ready_bits : exists om rbo, forall r, (r < m)%nat ->
    (forall c, (c < 8 * packet_mask_size_ e)%nat ->
       mask_bit (packet_masks_ e) (packet_mask_size_ e) r c =
       spread_bit om rbo (offsets media) r c) /\
    (forall j, (j < length media)%nat -> mask_bit om rbo r j = bit r j)
}.

(** First half: masks are chosen and adapted to the gaps. *)
Lemma EncodeFec_masks e media m imp uep ty :
  let k := length media in
  encoder_ok e -> media_batch media -> (span media <= 48)%nat -> (imp <= k)%nat ->
  (1 <= m <= k)%nat ->
  exists ps0 z pm e2 masks, valid_table (PickTable ty k) masks /\
    prepare_packets (generated_fec_packets_ e) m = Ok ps0 /\
    memset0 (packet_masks_ e) 0 (m * PacketMaskSize k) = Ok z /\
    GeneratePacketMasks k m imp uep (PickTable ty k) z = Ok pm /\
    InsertZerosInPacketMasks (set_masks (set_mask_size (set_packets e ps0) (PacketMaskSize k)) pm)
      media m = Ok (e2, Z.of_nat (span media)) /\
    masks_ready (set_mask_size e2 (PacketMaskSize (span media))) media m
      (generated_bit masks k m imp uep).
Proof.
  intros k [(Hl1 & Hl2 & Hb1 & Hb2) Hgen] Hm Hspan Himp Hmk. pose proof (span_ge _ Hm) as Hge.
  assert (Hk : (k <= 48)%nat) by (subst k; lia).
  destruct (PickTable_valid ty k) as [masks Ht].
  set (rb := PacketMaskSize k). pose proof (PacketMaskSize_max k m ltac:(lia) Hk) as Hmax. fold rb in Hmax.
  pose proof (PacketMaskSize_fits k Hk) as Hfit. fold rb in Hfit.
  destruct (prepare_packets_spec (generated_fec_packets_ e) m) as (ps0 & Hprep & Hlp0 & Hps0); [lia|].
  destruct (memset0_cleared (packet_masks_ e) (m * rb) Hl1 Hb1 Hmax) as (z & Hz0 & Hz).
  destruct (GeneratePacketMasks_exact _ masks k m imp uep z Hz Ht Hmk Hk Himp)
    as (pm & Hgm & Hlpm & Hbpm & Hbit). fold rb in Hbit.
  destruct (generated_bit_ok masks _ k m imp uep Ht Hmk Hk Himp) as (Hran & _).
  set (e1 := set_masks (set_mask_size (set_packets e ps0) rb) pm).
  destruct (InsertZeros_spread media_limit e1 media m Hm Hspan) as (e2 & Hins & Hsz2 & Hg2 & Hbits2);
    [by split_and!|done|done| |].
  { intros r c Hr Hc. fold k rb in Hc |- *. change (packet_masks_ e1) with pm. rewrite Hbit by (lia || done).
    destruct (generated_bit masks k m imp uep r c) eqn:E; [|done].
    specialize (Hran r c Hr ltac:(fold rb; lia) E). lia. }
  exists ps0, z, pm, e2, masks. split_and!; try done. split; try done.
  - change (length (generated_fec_packets_ e2) = 48%nat). rewrite Hg2.
    change (generated_fec_packets_ e1) with ps0. lia.
  - intros i Hi. change (generated_fec_packets_ e2 !! i = Some []). rewrite Hg2. by apply Hps0.
  - exists pm, rb. intros r Hr. split; [intros c Hc; by apply Hbits2|].
    intros j Hj. apply Hbit; [done|]. fold k in Hj. lia.
Qed.

(** Second half: payloads and headers. *)
Lemma EncodeFec_packets e p rest m bit :
  let media := p :: rest in
  masks_ready e media m bit -> media_batch media -> short_media media -> (span media <= 48)%nat ->
  (m <= length media)%nat ->
  (forall r, (r < m)%nat -> exists c, (c < length media)%nat /\ bit r c = true) ->
  exists e1 packets, GenerateFecPayloads e media m = Ok e1 /\
    FinalizeFecHeaders e1 m (rtp_ssrc p) (rtp_seq_num p) = Ok (set_packets e packets) /\
    length packets = 48%nat /\
    forall r, (r < m)%nat -> exists fec, packets !! r = Some fec /\
      reads_as (rtp_ssrc p) (rtp_seq_num p) (select (bit r) 0 media) fec.
Proof.
  intros media [Hsz Hrb Hslots Hempty (om & rbo & Hbits)] Hm Hshort Hspan Hmk Hrow.
  pose proof (span_ge _ Hm) as Hge.
  set (rb := packet_mask_size_ e) in *.
  assert (Hmax : (m * rb <= 288)%nat) by (rewrite Hrb; apply PacketMaskSize_max; lia).
  assert (Hfit : (span media <= 8 * rb)%nat) by (rewrite Hrb; by apply PacketMaskSize_fits).
  assert (Hrb26 : rb = 2%nat \/ rb = 6%nat) by (rewrite Hrb; apply PacketMaskSize_two_six).
  assert (Hprot : forall r, (r < m)%nat ->
    protected_by (packet_masks_ e) rb r (rtp_seq_num p) media = select (bit r) 0 media).
  { intros r Hr. destruct (Hbits r Hr) as [Hsp Hb].
    by apply (protected_by_select _ _ om rbo media). }
  destruct (GenerateFecPayloads_spec e media m) as (ps1 & Hgen & Hlp1 & Hrows1); [done..|lia|done|done|done|].
  pose proof (batch_sized _ Hm) as [[Hbp Hlp] _]%Forall_cons_1.
  destruct (FinalizeFecHeaders_spec e media m ps1 (rtp_ssrc p) (rtp_seq_num p))
    as (ps2 & Hfin & Hlp2 & Hrows2);
    [done|done|done|lia|by apply ParseSequenceNumber_ok|by apply ParseSsrc_ok|done| |].
  { intros i Hi. destruct (Hrows1 i Hi) as (min & fec & Hf & Hmin & Hpar). exists min, fec.
    split; [done|]. cbv zeta. split_and!; [done|done| |].
    - change (base_seq media) with (rtp_seq_num p). fold rb. rewrite Hprot by done.
      destruct (Hrow i Hi) as (c & Hc & Hbc). destruct (lookup_lt_is_Some_2 media c Hc) as [q Hq].
      intros Hnil. pose proof (select_elem _ 0 media c q Hq Hbc) as Hel.
      rewrite Hnil in Hel. by apply not_elem_of_nil in Hel.
    - apply (mask_indices_protected (packet_masks_ e) rb m i media); [done|done| |done|].
      + destruct Hsz as (-> & _). done.
      + intros c Hc Hno. destruct (Hbits i Hi) as [Hsp _]. rewrite Hsp by done. by apply spread_bit_none. }
  exists (set_packets e ps1), ps2. split_and!; [done|done|lia|].
  intros r Hr. rewrite <- Hprot by done. apply (Hrows2 r Hr).
Qed.

Lemma EncodeFec_success e media pf imp uep ty :
  encoder_ok e -> media_batch media -> short_media media ->
  (span media <= 48)%nat -> 1 <= pf <= 255 -> (imp <= length media)%nat ->
  let k := length media in
  let m := Z.to_nat (NumFecPackets (Z.of_nat k) pf) in
  exists e' fecs masks, valid_table (PickTable ty k) masks /\
    EncodeFec e media pf imp uep ty = Ok (e', 0, fecs) /\ encoder_ok e' /\
    (1 <= m <= k)%nat /\ (k <= 48)%nat /\ length fecs = m /\
    forall r, (r < m)%nat -> exists fec, fecs !! r = Some fec /\
      reads_as (default 0 (rtp_ssrc <$> head media)) (base_seq media)
        (select (generated_bit masks k m imp uep r) 0 media) fec.
Proof.
  intros He Hm Hshort Hspan Hpf Himp k m.
  pose proof (span_ge _ Hm) as Hge. pose proof (batch_sized _ Hm) as Hsized.
  assert (exists p rest, media = p :: rest) as (p & rest & Em)
    by (destruct media; [by destruct (batch_nonempty _ Hm)|eauto]).
  assert (Hk1 : (1 <= k)%nat) by (subst k; rewrite Em; cbn; lia).
  destruct (NumFecPackets_bounds (Z.of_nat k) pf) as [Hn Hnz]; [lia|lia|].
  assert (Hmk : (1 <= m <= k)%nat) by (subst m; lia). assert (Hk : (k <= 48)%nat) by (subst k; lia).
  destruct (EncodeFec_masks e media m imp uep ty He Hm Hspan Himp Hmk)
    as (ps0 & z & pm & e2 & masks & Ht & Hprep & Hz & Hgm & Hins & Hready). fold k in Ht, Hz, Hgm, Hins, Hready.
  destruct (generated_bit_ok masks _ k m imp uep Ht Hmk Hk Himp) as (_ & Hrow & _).
  set (e3 := set_mask_size e2 (PacketMaskSize (span media))) in *.
  assert (Hpk : exists e4 packets, GenerateFecPayloads e3 media m = Ok e4 /\
    FinalizeFecHeaders e4 m (rtp_ssrc p) (rtp_seq_num p) = Ok (set_packets e3 packets) /\
    length packets = 48%nat /\
    forall r, (r < m)%nat -> exists fec, packets !! r = Some fec /\
      reads_as (rtp_ssrc p) (rtp_seq_num p) (select (generated_bit masks k m imp uep r) 0 media) fec).
  { clear Hins Hprep Hz Hgm. subst media. apply EncodeFec_packets; [done|done|done|done|apply Hmk|done]. }
  destruct Hpk as (e4 & packets & Hpay & Hfin & Hlp & Hrows).
  assert (Hp : media_sized p) by (rewrite Em in Hsized; by apply Forall_cons_1 in Hsized as [? _]).
  exists (set_packets e3 packets), (take m packets), masks. split; [done|]. split.
  - unfold EncodeFec. fold k. fold m. rewrite decide_False by (rewrite media_limit; lia).
    replace (existsb _ media) with false; cycle 1.
    { symmetry. apply not_true_is_false. rewrite existsb_exists. intros (q & Hq & Hlt%Nat.ltb_lt).
      apply list_elem_of_In in Hq. destruct (proj1 (Forall_forall _ _) Hsized q Hq) as [_ ?].
      unfold kRtpHeaderSize in Hlt. lia. }
    rewrite (decide_False (P := m = 0%nat)) by lia. rewrite Hprep. cbn [mbind res_bind].
    change (packet_masks_ _) with (packet_masks_ e). change (packet_mask_size_ _) with (PacketMaskSize k).
    rewrite Hz. cbn [mbind res_bind]. rewrite Hgm. cbn [mbind res_bind]. rewrite Hins. cbn [mbind res_bind].
    rewrite (proj2 (Z.ltb_ge _ _)) by lia. rewrite Nat2Z.id. fold e3. rewrite Hpay. cbn [mbind res_bind].
    assert (front media = Ok p) as -> by (by rewrite Em). cbn [mbind res_bind].
    destruct (ParseSsrc_ok p) as [-> _]; [apply Hp..|].
    destruct (ParseSequenceNumber_ok p) as [-> _]; [apply Hp..|]. cbn [mbind res_bind].
    rewrite Hfin. reflexivity.
  - split_and!; try done; try lia.
    + split; [apply Hready|done].
    + rewrite length_take. lia.
    + intros r Hr. rewrite lookup_take_lt by done.
      destruct (Hrows r Hr) as (fec & Hf & Hreads). exists fec. split; [done|].
      replace (head media) with (Some p) by (by rewrite Em).
      by replace (base_seq media) with (rtp_seq_num p) by (by rewrite Em).
Qed.

End EncodeFec.
