(* ===== verification/FecDecoder.v ===== *)
(** * FecDecoder: the decoder half of [ForwardErrorCorrection]

    [DecodeFec] and the member functions it calls
    ([modules/rtp_rtcp/source/forward_error_correction.cc]), over any
    [FecHeaderReader].  [recovered_packets] is the caller's list, threaded
    through.  The rows this repository appends to
    [forward_error_correction.csv] are events of the model, because writing
    one dereferences a raw pointer to the recovered packet. *)

From stdpp Require Import sorting.
From S2P Require Import Prelude PacketMasks FecTypes SeqNum XorCode.

Definition kOldSequenceThreshold : Z := 0x3fff.

(** The members [DecodeFec] uses. *)
Record Decoder : Type := mkDecoder {
  ssrc_ : Z;
  protected_media_ssrc_ : Z;
  received_fec_packets_ : list ReceivedFecPacket
}.

Definition set_fec_packets (st : Decoder) (fps : list ReceivedFecPacket) : Decoder :=
  mkDecoder (ssrc_ st) (protected_media_ssrc_ st) fps.

(** A row of the log: FEC sequence number, recovered sequence number, and the
    protected ones. *)
Inductive LogRow : Type :=
| LogSuccess (fec_seq_num recovered_seq_num : Z) (protect_seq_num : list Z)
| LogFail (fec_seq_num : Z) (protect_seq_num : list Z).

(** [SortablePacket::LessThan] on sequence numbers. *)
Definition LessThan (first second : Z) : bool := IsNewerSequenceNumber second first.

(** [std::list::sort]: a stable bottom-up merge sort.  When [LessThan] orders
    the elements every stable sort returns this list; when it does not
    (sequence numbers spread over half the number space) C++ promises no
    particular order. *)
Section Sort.
Context {A : Type} (seq_num : A -> Z).

Definition not_after (x y : A) : Prop := LessThan (seq_num y) (seq_num x) = false.
#[export] Instance not_after_dec x y : Decision (not_after x y).
Proof. unfold not_after. apply _. Defined.

Definition list_sort (l : list A) : list A := merge_sort not_after l.

End Sort.

(** [absl::c_lower_bound] on a forward range: the halving search of
    [std::lower_bound]; [fuel] bounds its iterations. *)
Fixpoint lower_bound (fuel : nat) (seqs : list Z) (first len : nat) (value : Z) : nat :=
  match fuel with
  | O => first
  | S fuel =>
      if decide (len = 0%nat) then first else
      let half := (len / 2)%nat in
      let m := (first + half)%nat in
      if LessThan (default 0 (seqs !! m)) value
      then lower_bound fuel seqs (m + 1) (len - (half + 1)) value
      else lower_bound fuel seqs first half value
  end.

(** One FEC packet of [UpdateCoveringFecPackets]. *)
Definition update_covering (packet : RecoveredPacket) (fp : ReceivedFecPacket)
    : ReceivedFecPacket :=
  let pps := fp_protected_packets fp in
  let it := lower_bound (length pps) (map pp_seq_num pps) 0 (length pps) (rec_seq_num packet) in
  match pps !! it with
  | Some pp =>
      if pp_seq_num pp =? rec_seq_num packet then
        mkReceivedFecPacket (fp_ssrc fp) (fp_seq_num fp)
          (<[it := mkProtectedPacket (pp_ssrc pp) (pp_seq_num pp) (Some (rec_pkt packet))]> pps)
          (fp_fec_header_size fp) (fp_protected_streams fp) (fp_protection_length fp) (fp_pkt fp)
      else fp
  | None => fp
  end.

(** [ForwardErrorCorrection::UpdateCoveringFecPackets]. *)
Definition UpdateCoveringFecPackets (st : Decoder) (packet : RecoveredPacket) : Decoder :=
  set_fec_packets st (map (update_covering packet) (received_fec_packets_ st)).

(** [ForwardErrorCorrection::ResetState]. *)
Definition ResetState (st : Decoder) : Decoder * list RecoveredPacket :=
  (set_fec_packets st [], []).

(** [ForwardErrorCorrection::InsertMediaPacket]. *)
Definition InsertMediaPacket (st : Decoder) (recovered_packets : list RecoveredPacket)
    (received_packet : ReceivedPacket) : Decoder * list RecoveredPacket :=
  if existsb (fun r => rec_seq_num r =? rp_seq_num received_packet) recovered_packets
  then (st, recovered_packets)
  else
    let recovered_packet :=
      mkRecoveredPacket (rp_ssrc received_packet) (rp_seq_num received_packet) false true
                        (rp_pkt received_packet) in
    let recovered_packets := list_sort rec_seq_num (recovered_packets ++ [recovered_packet]) in
    (UpdateCoveringFecPackets st recovered_packet, recovered_packets).

(** The bit loop of [InsertFecPacket] over one mask byte. *)
Definition mask_byte_packets (ssrc seq_num_base : Z) (byte_idx : nat) (packet_mask : Z)
    : list ProtectedPacket :=
  omap (fun bit_idx =>
    if has_bits packet_mask (Z.shiftl 1 (7 - Z.of_nat bit_idx)) then
      Some (mkProtectedPacket ssrc
              (u16 (seq_num_base + Z.shiftl (Z.of_nat byte_idx) 3 + Z.of_nat bit_idx)) None)
    else None) (seq 0 8).

(** [packet_mask_offset], [packet_mask_size]: the mask as protected packets. *)
Definition parse_packet_mask (protected_media_ssrc : Z) (stream : ProtectedStream) (pkt : Packet)
    : res (list ProtectedPacket) :=
  foldM (fun acc byte_idx =>
    let! packet_mask := buf_get pkt (ps_packet_mask_offset stream + byte_idx) in
    Ok (acc ++ mask_byte_packets protected_media_ssrc (ps_seq_num_base stream) byte_idx packet_mask))
  (seq 0 (ps_packet_mask_size stream)) [].

(** [ForwardErrorCorrection::AssignRecoveredPackets]: the merge of the two
    lists; each iteration drops the head of at least one of them. *)
Fixpoint AssignRecoveredPackets (recovered_packets : list RecoveredPacket)
    : list ProtectedPacket -> list ProtectedPacket :=
  fix assign (protected_packets : list ProtectedPacket) : list ProtectedPacket :=
    match protected_packets, recovered_packets with
    | [], _ => []
    | pps, [] => pps
    | p :: pps, r :: recovered' =>
        if LessThan (pp_seq_num p) (rec_seq_num r) then p :: assign pps
        else if LessThan (rec_seq_num r) (pp_seq_num p)
        then AssignRecoveredPackets recovered' (p :: pps)
        else mkProtectedPacket (pp_ssrc p) (pp_seq_num p) (Some (rec_pkt r)) ::
             AssignRecoveredPackets recovered' pps
    end.

Definition with_protected (fp : ReceivedFecPacket) (pps : list ProtectedPacket)
    : ReceivedFecPacket :=
  mkReceivedFecPacket (fp_ssrc fp) (fp_seq_num fp) pps (fp_fec_header_size fp)
    (fp_protected_streams fp) (fp_protection_length fp) (fp_pkt fp).

Section Decoder.
Context `{R : FecHeaderReader}.

(** [ForwardErrorCorrection::InsertFecPacket]. *)
Definition InsertFecPacket (st : Decoder) (recovered_packets : list RecoveredPacket)
    (received_packet : ReceivedPacket) : res Decoder :=
  if existsb (fun fp => fp_seq_num fp =? rp_seq_num received_packet) (received_fec_packets_ st)
  then Ok st else
  let! ret := ReadFecHeader (new_fec_packet (rp_ssrc received_packet) (rp_seq_num received_packet)
                                            (rp_pkt received_packet)) in
  match ret with
  | None => Ok st
  | Some fec_packet =>
      let! _ := rtc_check (length (fp_protected_streams fec_packet) =? 1)%nat in
      match fp_protected_streams fec_packet with
      | [] => Fault OutOfBounds
      | stream :: _ =>
          if negb (ps_ssrc stream =? protected_media_ssrc_ st) then Ok st else
          if decide (length (fp_pkt fec_packet) <
                     ps_packet_mask_offset stream + ps_packet_mask_size stream)%nat
          then Ok st else
          let! protected_packets :=
            parse_packet_mask (protected_media_ssrc_ st) stream (fp_pkt fec_packet) in
          match protected_packets with
          | [] => Ok st
          | _ =>
              let fec_packet := with_protected fec_packet
                (AssignRecoveredPackets recovered_packets protected_packets) in
              let fps := list_sort fp_seq_num (received_fec_packets_ st ++ [fec_packet]) in
              let fps := if decide (MaxStoredFecPackets < length fps)%nat then tail fps else fps in
              Ok (set_fec_packets st fps)
          end
      end
  end.

(** [ForwardErrorCorrection::DiscardOldRecoveredPackets]. *)
Definition DiscardOldRecoveredPackets {A} (recovered_packets : list A) : list A :=
  drop (length recovered_packets - MaxTrackedPackets) recovered_packets.

(** The loop of [InsertPacket] that drops FEC packets from the front. *)
Fixpoint discard_old_fec (seq_num : Z) (fps : list ReceivedFecPacket) : list ReceivedFecPacket :=
  match fps with
  | [] => []
  | fp :: fps' =>
      if kOldSequenceThreshold <? MinDiff16 seq_num (fp_seq_num fp)
      then discard_old_fec seq_num fps' else fps
  end.

(** [ForwardErrorCorrection::InsertPacket]. *)
Definition InsertPacket (st : Decoder) (received_packet : ReceivedPacket)
    (recovered_packets : list RecoveredPacket) : res (Decoder * list RecoveredPacket) :=
  let st :=
    match received_fec_packets_ st with
    | [] => st
    | front :: _ =>
        if rp_ssrc received_packet =? fp_ssrc front
        then set_fec_packets st
               (discard_old_fec (rp_seq_num received_packet) (received_fec_packets_ st))
        else st
    end in
  let! (st, recovered_packets) :=
    if rp_is_fec received_packet then
      let! st := InsertFecPacket st recovered_packets received_packet in
      Ok (st, recovered_packets)
    else Ok (InsertMediaPacket st recovered_packets received_packet) in
  Ok (st, DiscardOldRecoveredPackets recovered_packets).

(** [ForwardErrorCorrection::NumCoveredPacketsMissing]: the count stops at 2. *)
Fixpoint count_missing (packets_missing : nat) (protected_packets : list ProtectedPacket) : nat :=
  match protected_packets with
  | [] => packets_missing
  | pp :: pps =>
      match pp_pkt pp with
      | Some _ => count_missing packets_missing pps
      | None =>
          if decide (1 < packets_missing + 1)%nat then (packets_missing + 1)%nat
          else count_missing (packets_missing + 1) pps
      end
  end.

Definition NumCoveredPacketsMissing (protected_packets : list ProtectedPacket) : nat :=
  count_missing 0 protected_packets.

(** [ForwardErrorCorrection::IsOldFecPacket]. *)
Definition IsOldFecPacket (fec_packet : ReceivedFecPacket)
    (recovered_packets : list RecoveredPacket) : res bool :=
  match last recovered_packets with
  | None => Ok false
  | Some back =>
      match last (fp_protected_packets fec_packet) with
      | None => Fault OutOfBounds
      | Some pp =>
          Ok (kOldSequenceThreshold <? MinDiff16 (rec_seq_num back) (pp_seq_num pp))
      end
  end.

(** Insertion of a recovered packet into the caller's list, followed by
    [DiscardOldRecoveredPackets]; the flag tells whether the new packet is
    still in the list, that is, whether the raw pointer to it is valid. *)
Definition publish (recovered_packets : list RecoveredPacket) (rec : RecoveredPacket)
    : list RecoveredPacket * bool :=
  let tagged := list_sort (fun x => rec_seq_num (snd x))
                  (map (pair false) recovered_packets ++ [(true, rec)]) in
  let kept := DiscardOldRecoveredPackets tagged in
  (map snd kept, existsb fst kept).

(** The state of the loop of [AttemptRecovery]. *)
Record Attempt : Type := mkAttempt {
  at_st : Decoder;
  at_recovered : list RecoveredPacket;
  at_num : nat;
  at_log : list LogRow;
  at_it : nat
}.

(** One iteration at [fec_packet_it]; [None] when the loop ends. *)
Definition recovery_step (a : Attempt) : res (option Attempt) :=
  let st := at_st a in
  match received_fec_packets_ st !! at_it a with
  | None => Ok None
  | Some fp =>
      let erase (st : Decoder) := set_fec_packets st (delete (at_it a) (received_fec_packets_ st)) in
      let protect_seq_num := map pp_seq_num (fp_protected_packets fp) in
      if (NumCoveredPacketsMissing (fp_protected_packets fp) =? 1)%nat then
        let! recovered := RecoverPacket fp new_recovered_packet in
        match recovered with
        | None => Ok (Some (mkAttempt (erase st) (at_recovered a) (at_num a) (at_log a) (at_it a)))
        | Some rec =>
            let (recovered_packets, alive) := publish (at_recovered a) rec in
            let st := UpdateCoveringFecPackets st rec in
            if alive then
              Ok (Some (mkAttempt (erase st) recovered_packets (at_num a + 1)
                    (at_log a ++ [LogSuccess (fp_seq_num fp) (rec_seq_num rec) protect_seq_num]) 0))
            else Fault UseAfterFree
        end
      else
        let! old :=
          if (NumCoveredPacketsMissing (fp_protected_packets fp) =? 0)%nat then Ok true
          else IsOldFecPacket fp (at_recovered a) in
        if (old : bool) then
          Ok (Some (mkAttempt (erase st) (at_recovered a) (at_num a)
                (at_log a ++ [LogFail (fp_seq_num fp) protect_seq_num]) (at_it a)))
        else Ok (Some (mkAttempt st (at_recovered a) (at_num a) (at_log a) (at_it a + 1)))
  end.

Fixpoint recovery_loop (fuel : nat) (a : Attempt) : res Attempt :=
  match fuel with
  | O => Fault OutOfFuel
  | S fuel =>
      let! next := recovery_step a in
      match next with None => Ok a | Some a => recovery_loop fuel a end
  end.

(** [ForwardErrorCorrection::AttemptRecovery].  Every iteration erases an FEC
    packet (and may restart) or advances, so [(n + 1)^2] iterations are enough
    for [n] stored packets. *)
Definition AttemptRecovery (st : Decoder) (recovered_packets : list RecoveredPacket)
    : res Attempt :=
  let n := S (length (received_fec_packets_ st)) in
  recovery_loop (n * n) (mkAttempt st recovered_packets 0 [] 0).

(** The check [DecodeFec] starts with: a full list and a big jump of the
    sequence number make the buffers useless. *)
Definition reset_on_gap (st : Decoder) (received_packet : ReceivedPacket)
    (recovered_packets : list RecoveredPacket) : Decoder * list RecoveredPacket :=
  let max_media_packets := MaxTrackedPackets in
  match last recovered_packets with
  | Some back =>
      if (length recovered_packets =? max_media_packets)%nat &&
         (rp_ssrc received_packet =? rec_ssrc back) &&
         (Z.of_nat max_media_packets <? MinDiff16 (rp_seq_num received_packet) (rec_seq_num back))
      then ResetState st else (st, recovered_packets)
  | None => (st, recovered_packets)
  end.

(** [ForwardErrorCorrection::DecodeFec]: the new members and list, the number
    of recovered packets, and the rows logged. *)
Definition DecodeFec (st : Decoder) (received_packet : ReceivedPacket)
    (recovered_packets : list RecoveredPacket)
    : res (Decoder * list RecoveredPacket * nat * list LogRow) :=
  let (st, recovered_packets) := reset_on_gap st received_packet recovered_packets in
  let! (st, recovered_packets) := InsertPacket st received_packet recovered_packets in
  let! a := AttemptRecovery st recovered_packets in
  Ok (at_st a, at_recovered a, at_num a, at_log a).

End Decoder.
