(* ===== verification/DecoderLemmas.v ===== *)
(** * DecoderLemmas: the pieces of the decoder

    What the sort, the binary search, the mask parser, the merge and the
    counters of [FecDecoder] compute, and the invariant of the stored FEC
    packets. *)

From stdpp Require Import sorting.
From S2P Require Import Prelude PacketMasks FecTypes SeqNum XorCode FecDecoder.

(** ** Sorting *)

Lemma list_sort_perm {A} (key : A -> Z) l : list_sort key l ≡ₚ l.
Proof. apply merge_sort_Permutation. Qed.

Lemma list_sort_length {A} (key : A -> Z) l : length (list_sort key l) = length l.
Proof. apply Permutation_length, list_sort_perm. Qed.

Lemma list_sort_Forall {A} (key : A -> Z) (P : A -> Prop) l : Forall P l -> Forall P (list_sort key l).
Proof. intros H. by rewrite list_sort_perm. Qed.

(** ** Stored FEC packets *)

(** Protected sequence numbers ascend inside a window of [n] numbers. *)
Definition seqs_window (n : Z) (seqs : list Z) : Prop :=
  exists base offs, is_u16 base /\ StronglySorted lt offs /\
    Forall (fun o => Z.of_nat o < n) offs /\
    seqs = map (fun o => u16 (base + Z.of_nat o)) offs.

Record fec_ok (media_ssrc : Z) (fp : ReceivedFecPacket) : Prop := {
  fok_bytes : bytes (fp_pkt fp);
  fok_header : (12 <= fp_fec_header_size fp)%nat;
  fok_nonempty : fp_protected_packets fp <> [];
  fok_sized : Forall media_sized (present (fp_protected_packets fp));
  fok_seqs : seqs_window 112 (map pp_seq_num (fp_protected_packets fp));
  fok_ssrc : Forall (fun pp => pp_ssrc pp = media_ssrc) (fp_protected_packets fp)
}.

Definition rec_ok (r : RecoveredPacket) : Prop := media_sized (rec_pkt r).

(** ** Parsing the mask *)

Definition protected_packet (ssrc base : Z) (c : nat) : ProtectedPacket :=
  mkProtectedPacket ssrc (u16 (base + Z.of_nat c)) None.

Lemma mask_byte_packets_spec ssrc base n m b :
  m !! n = Some b ->
  mask_byte_packets ssrc base n b =
  map (protected_packet ssrc base) (filter (fun c => mask_bit m 1 0 c = true) (seq (8 * n) 8)).
Proof.
  intros Hb. unfold mask_byte_packets.
  assert (H : forall k i, (i + k <= 8)%nat ->
    omap (fun bit_idx => if has_bits b (Z.shiftl 1 (7 - Z.of_nat bit_idx))
      then Some (mkProtectedPacket ssrc
                  (u16 (base + Z.shiftl (Z.of_nat n) 3 + Z.of_nat bit_idx)) None)
      else None) (seq i k) =
    map (protected_packet ssrc base)
      (filter (fun c => mask_bit m 1 0 c = true) (seq (8 * n + i) k))).
  { induction k as [|k IH]; intros i Hi; [done|]. cbn [seq]. rewrite filter_cons. cbn [omap list_omap].
    assert (Hbit : has_bits b (Z.shiftl 1 (7 - Z.of_nat i)) = mask_bit m 1 0 (8 * n + i)%nat).
    { rewrite Z.shiftl_1_l, has_bits_pow2, mask_bit_row0 by lia.
      replace ((8 * n + i) / 8)%nat with n
        by (rewrite Nat.mul_comm, Nat.div_add_l, Nat.div_small by lia; lia).
      replace ((8 * n + i) mod 8)%nat with i
        by (rewrite Nat.add_comm, Nat.mul_comm, Nat.Div0.mod_add, Nat.mod_small by lia; lia).
      by rewrite Hb. }
    specialize (IH (S i) ltac:(lia)). rewrite Nat.add_succ_r in IH.
    rewrite Hbit, IH. destruct (mask_bit m 1 0 (8 * n + i)); case_decide; try done.
    cbn [map]. f_equal. unfold protected_packet. do 2 f_equal. rewrite Z.shiftl_mul_pow2 by lia. lia. }
  specialize (H 8%nat 0%nat ltac:(lia)). rewrite Nat.add_0_r in H. exact H.
Qed.

Lemma parse_packet_mask_spec ssrc stream pkt :
  (ps_packet_mask_offset stream + ps_packet_mask_size stream <= length pkt)%nat ->
  parse_packet_mask ssrc stream pkt =
  Ok (map (protected_packet ssrc (ps_seq_num_base stream))
        (mask_indices (drop (ps_packet_mask_offset stream) pkt) (ps_packet_mask_size stream))).
Proof.
  unfold parse_packet_mask, mask_indices. intros Hlen. set (off := ps_packet_mask_offset stream) in *.
  induction (ps_packet_mask_size stream) as [|n IH]; [done|].
  rewrite seq_S, foldM_app. rewrite IH by lia. cbn [foldM mbind res_bind Nat.add].
  destruct (buf_get_lt pkt (off + n) ltac:(lia)) as (b & Hb & ->). cbn [mbind res_bind].
  rewrite Nat.mul_succ_r, seq_app, filter_app, map_app. cbn [Nat.add]. do 2 f_equal.
  apply mask_byte_packets_spec. by rewrite lookup_drop.
Qed.

Lemma mask_indices_sorted m size : StronglySorted lt (mask_indices m size).
Proof. apply sorted_filter, sorted_seq. Qed.

Lemma protected_seqs_window ssrc base m size :
  is_u16 base -> (size <= 14)%nat ->
  seqs_window 112 (map pp_seq_num (map (protected_packet ssrc base) (mask_indices m size))).
Proof.
  intros Hb Hs. exists base, (mask_indices m size). split_and!; [done|apply mask_indices_sorted| |].
  - apply Forall_forall. intros c [Hc _]%mask_indices_bit. lia.
  - rewrite map_map. done.
Qed.

Lemma present_protected ssrc base idx : present (map (protected_packet ssrc base) idx) = [].
Proof. unfold present. by induction idx. Qed.

(** ** The window order *)

Lemma rel_window base o : is_u16 base -> 0 <= o < 65536 -> rel base (u16 (base + o)) = o.
Proof.
  intros Hb Ho. unfold rel, uw. change (2 ^ 16) with 65536.
  rewrite Zminus_mod_idemp_l. replace (base + o - base) with o by lia. apply Z.mod_small. lia.
Qed.

Lemma LessThan_window base o o' :
  is_u16 base -> 0 <= o < 2 ^ 15 -> 0 <= o' < 2 ^ 15 ->
  LessThan (u16 (base + o)) (u16 (base + o')) = (o <? o').
Proof.
  intros Hb Ho Ho'. unfold LessThan. change (2 ^ 15) with 32768 in *.
  rewrite (IsNewer_window base); rewrite ?rel_window by (done || lia); try done; try lia;
    by apply uw_range.
Qed.

Lemma window_lookup n seqs i s :
  seqs_window n seqs -> n <= 2 ^ 15 -> seqs !! i = Some s ->
  exists base o, is_u16 base /\ 0 <= o < 2 ^ 15 /\ s = u16 (base + o) /\
    forall j s', seqs !! j = Some s' -> exists o', 0 <= o' < 2 ^ 15 /\ s' = u16 (base + o') /\
      (o' < o <-> (j < i)%nat).
Proof.
  intros (base & offs & Hb & Hsort & Hlt & ->) Hn Hi.
  rewrite list_lookup_fmap in Hi. destruct (offs !! i) as [o|] eqn:Ho; [|done]. injection Hi as <-.
  assert (Hbound : forall j x, offs !! j = Some x -> 0 <= Z.of_nat x < 2 ^ 15)
    by (intros j x Hx; pose proof (Forall_lookup_1 _ _ _ _ Hlt Hx) as Hlx; cbv beta in Hlx; lia).
  exists base, (Z.of_nat o). split_and!; [done|apply (Hbound i o Ho)..|done|].
  intros j s' Hj. rewrite list_lookup_fmap in Hj. destruct (offs !! j) as [x|] eqn:Hx; [|done].
  injection Hj as <-. exists (Z.of_nat x). split; [by apply (Hbound j)|]. split; [done|].
  destruct (decide (j < i)%nat) as [Hji|Hij].
  - pose proof (sorted_gap _ _ _ _ _ Hsort Hx Ho ltac:(lia)). lia.
  - pose proof (sorted_gap _ _ _ _ _ Hsort Ho Hx ltac:(lia)). lia.
Qed.

(** ** The binary search *)

Lemma lower_bound_partition fuel seqs value : forall first len j,
  (len <= fuel)%nat -> (first <= j <= first + len)%nat -> (first + len <= length seqs)%nat ->
  (forall i s, seqs !! i = Some s -> LessThan s value = true <-> (i < j)%nat) ->
  lower_bound fuel seqs first len value = j.
Proof.
  induction fuel as [|fuel IH]; intros first len j Hf Hj Hlen Hpart; cbn; [lia|].
  case_decide; [lia|].
  assert (Hh : (len / 2 < len)%nat) by (apply Nat.div_lt; lia).
  change (fst (Nat.divmod len 1 0 1)) with (len / 2)%nat.
  destruct (lookup_lt_is_Some_2 seqs (first + len / 2) ltac:(lia)) as [s Hs].
  rewrite Hs. change (default 0 (Some s)) with s. pose proof (Hpart _ _ Hs) as Hp.
  destruct (LessThan s value).
  - assert (first + len / 2 < j)%nat by (by apply Hp). apply IH; (lia || done).
  - assert (~ (first + len / 2 < j)%nat) by (intros ?%Hp; done). apply IH; (lia || done).
Qed.

Lemma lower_bound_finds n seqs i value :
  seqs_window n seqs -> n <= 2 ^ 15 -> seqs !! i = Some value ->
  lower_bound (length seqs) seqs 0 (length seqs) value = i.
Proof.
  intros Hw Hn Hi. pose proof (lookup_lt_Some _ _ _ Hi).
  apply lower_bound_partition; [lia..|]. intros j s Hj.
  destruct (window_lookup n seqs i value Hw Hn Hi) as (base & o & Hb & Ho & -> & Hall).
  destruct (Hall j s Hj) as (o' & Ho' & -> & Hiff). rewrite LessThan_window by done.
  rewrite Z.ltb_lt. exact Hiff.
Qed.

(** Giving packet [q] its data wherever it is protected. *)
Definition assign_seq (q : Z) (pkt : Packet) (pps : list ProtectedPacket) : list ProtectedPacket :=
  map (fun pp => if pp_seq_num pp =? q
                 then mkProtectedPacket (pp_ssrc pp) (pp_seq_num pp) (Some pkt) else pp) pps.

Lemma window_inj n seqs i j s :
  seqs_window n seqs -> n <= 2 ^ 15 -> seqs !! i = Some s -> seqs !! j = Some s -> i = j.
Proof.
  intros Hw Hn Hi Hj.
  rewrite <- (lower_bound_finds n seqs i s Hw Hn Hi). by apply (lower_bound_finds n).
Qed.

(** [UpdateCoveringFecPackets] hits exactly the protected packet with the
    sequence number of the new packet. *)
Lemma update_covering_spec n fp packet :
  seqs_window n (map pp_seq_num (fp_protected_packets fp)) -> n <= 2 ^ 15 ->
  update_covering packet fp =
  with_protected fp (assign_seq (rec_seq_num packet) (rec_pkt packet) (fp_protected_packets fp)).
Proof.
  intros Hw Hn. unfold update_covering. set (pps := fp_protected_packets fp) in *.
  set (q := rec_seq_num packet). set (it := lower_bound _ _ _ _ _).
  assert (Hhit : forall i pp, pps !! i = Some pp -> pp_seq_num pp = q -> i = it).
  { intros i pp Hi Hq. symmetry. subst it.
    rewrite <- (length_map pp_seq_num pps). apply (lower_bound_finds n); [done..|].
    rewrite list_lookup_fmap, Hi. cbn. by f_equal. }
  assert (Hno : (forall pp, pps !! it = Some pp -> pp_seq_num pp <> q) -> assign_seq q (rec_pkt packet) pps = pps).
  { intros Hne. unfold assign_seq. rewrite <- (map_id pps) at 2. apply map_ext_in.
    intros pp [i Hi]%list_elem_of_In%list_elem_of_lookup.
    destruct (Z.eqb_spec (pp_seq_num pp) q) as [E|]; [|done]. exfalso.
    apply (Hne pp); [|done]. by rewrite <- (Hhit i pp Hi E). }
  destruct (pps !! it) as [pp|] eqn:Hit; cycle 1.
  { rewrite Hno by done. by destruct fp. }
  destruct (Z.eqb_spec (pp_seq_num pp) q) as [E|E]; cycle 1.
  { rewrite Hno by (by intros ? [= <-]). by destruct fp. }
  unfold with_protected. f_equal. apply list_eq. intros j. unfold assign_seq.
  rewrite list_lookup_fmap. destruct (decide (j = it)) as [->|Hj].
  - rewrite list_lookup_insert_eq by (by eapply lookup_lt_Some). rewrite Hit. cbn.
    by rewrite E, Z.eqb_refl.
  - rewrite list_lookup_insert_ne by done. destruct (pps !! j) as [pj|] eqn:Hpj; [|done]. cbn.
    destruct (Z.eqb_spec (pp_seq_num pj) q) as [E'|]; [|done]. by destruct Hj; apply (Hhit j pj).
Qed.

(** ** Filling in protected packets *)

(** [pp'] is [pp], possibly with data for which [P] holds. *)
Definition refined (P : Z -> Packet -> Prop) (pp pp' : ProtectedPacket) : Prop :=
  pp_ssrc pp' = pp_ssrc pp /\ pp_seq_num pp' = pp_seq_num pp /\
  (pp_pkt pp' = pp_pkt pp \/ exists pkt, pp_pkt pp' = Some pkt /\ P (pp_seq_num pp) pkt).

Lemma refined_refl P pp : refined P pp pp.
Proof. split_and!; auto. Qed.

Lemma assign_seq_refined (P : Z -> Packet -> Prop) q pkt pps :
  P q pkt -> Forall2 (refined P) pps (assign_seq q pkt pps).
Proof.
  intros HP. unfold assign_seq. induction pps as [|pp pps IH]; cbn; constructor; [|done].
  destruct (Z.eqb_spec (pp_seq_num pp) q) as [<-|]; [|apply refined_refl].
  split_and!; cbn; eauto.
Qed.

Lemma LessThan_neither a b :
  is_u16 a -> is_u16 b -> LessThan a b = false -> LessThan b a = false -> a = b.
Proof.
  intros Ha Hb H1 H2. destruct (Z.eq_dec a b) as [|Hne]; [done|].
  unfold LessThan, IsNewerSequenceNumber in *.
  rewrite (IsNewer_total 16 b a) in H1 by (done || lia). by rewrite H2 in H1.
Qed.

Lemma AssignRecovered_refined (P : Z -> Packet -> Prop) recovered pps :
  Forall (fun r => is_u16 (rec_seq_num r) /\ P (rec_seq_num r) (rec_pkt r)) recovered ->
  Forall (fun pp => is_u16 (pp_seq_num pp)) pps ->
  Forall2 (refined P) pps (AssignRecoveredPackets recovered pps).
Proof.
  assert (Hrefl : forall l, Forall2 (refined P) l l)
    by (induction l; constructor; [apply refined_refl|done]).
  revert pps. induction recovered as [|r recovered IHr]; intros pps Hr Hp.
  { destruct pps; apply Hrefl. }
  apply Forall_cons_1 in Hr as [[Hr1 Hr2] Hr].
  induction Hp as [|p pps Hp1 Hp IHp]; [constructor|]. cbn [AssignRecoveredPackets].
  destruct (LessThan (pp_seq_num p) (rec_seq_num r)) eqn:E1.
  { constructor; [apply refined_refl|exact IHp]. }
  destruct (LessThan (rec_seq_num r) (pp_seq_num p)) eqn:E2.
  { apply IHr; [done|by constructor]. }
  constructor; [|by apply IHr].
  pose proof (LessThan_neither _ _ Hp1 Hr1 E1 E2) as E.
  split_and!; cbn; [done..|]. right. exists (rec_pkt r). by rewrite E.
Qed.

Lemma refined_seqs P pps pps' :
  Forall2 (refined P) pps pps' -> map pp_seq_num pps' = map pp_seq_num pps.
Proof. induction 1 as [|x y l l' (_ & H & _) _ IH]; cbn; [done|]. by rewrite H, IH. Qed.

Lemma refined_fec_ok ssrc fp pps :
  fec_ok ssrc fp -> Forall2 (refined (fun _ pkt => media_sized pkt)) (fp_protected_packets fp) pps ->
  fec_ok ssrc (with_protected fp pps).
Proof.
  intros [Hb Hh Hne Hs Hw Hssrc] Hr. split; cbn [with_protected fp_pkt fp_fec_header_size fp_protected_packets].
  - done.
  - done.
  - intros ->. apply Forall2_nil_inv_r in Hr. done.
  - clear -Hs Hr. induction Hr as [|x y l l' Hxy Hl IH]; [done|]. unfold present in *. cbn in *.
    destruct Hxy as (_ & _ & [Hpk|(pkt & Hpk & Hok)]); rewrite Hpk.
    + destruct (pp_pkt x); [|by apply IH]. apply Forall_cons_1 in Hs as [? ?].
      constructor; [done|by apply IH].
    + constructor; [done|]. apply IH. destruct (pp_pkt x); [by apply Forall_cons_1 in Hs as [_ ?]|done].
  - by rewrite (refined_seqs _ _ _ Hr).
  - clear -Hssrc Hr. induction Hr as [|x y l l' (Hxy & _) Hl IH]; [done|].
    apply Forall_cons_1 in Hssrc as [? ?]. constructor; [congruence|by apply IH].
Qed.

Lemma update_covering_fec_ok ssrc fp r :
  fec_ok ssrc fp -> rec_ok r -> fec_ok ssrc (update_covering r fp).
Proof.
  intros Hfp Hr. rewrite (update_covering_spec 112) by (apply Hfp || lia).
  apply refined_fec_ok; [done|]. by apply assign_seq_refined.
Qed.

(** ** Counting the missing packets *)

Lemma count_missing_spec n pps :
  (n <= 1)%nat -> count_missing n pps = Nat.min 2 (n + length (missing pps)).
Proof.
  unfold missing. revert n. induction pps as [|pp pps IH]; intros n Hn; cbn [count_missing].
  { rewrite filter_nil. cbn [length]. lia. }
  rewrite filter_cons. destruct (pp_pkt pp) eqn:E.
  - rewrite decide_False by done. by apply IH.
  - rewrite (decide_True (P := None = None)) by done. cbn [length]. case_decide; [lia|].
    rewrite IH by lia. lia.
Qed.

Lemma NumCovered_spec pps : NumCoveredPacketsMissing pps = Nat.min 2 (length (missing pps)).
Proof. apply count_missing_spec. lia. Qed.
