(* ===== verification/DecoderSafety.v ===== *)
(** * DecoderSafety: the decoder on arbitrary input

    For any header reader obeying [FecReaderLaws], any byte string as FEC
    packet and any RTP packet as media packet: the decoder terminates, keeps
    its buffers within their limits, never reads or writes outside a buffer,
    and stops only when no stored FEC packet can repair anything. *)

From stdpp Require Import sorting.
From S2P Require Import Prelude PacketMasks FecTypes SeqNum XorCode FecDecoder DecoderLemmas.

(** What the RTP layer guarantees about a packet it hands over. *)
Record input_ok (rp : ReceivedPacket) : Prop := {
  in_bytes : bytes (rp_pkt rp);
  in_seq : is_u16 (rp_seq_num rp);
  in_media : rp_is_fec rp = false -> (12 <= length (rp_pkt rp))%nat
}.

Definition tracked_ok (r : RecoveredPacket) : Prop := rec_ok r /\ is_u16 (rec_seq_num r).

Section Safety.
Context {R : FecHeaderReader} {RL : FecReaderLaws R}.

Record decoder_ok (st : Decoder) (recovered : list RecoveredPacket) : Prop := {
  dok_fec : Forall (fec_ok (protected_media_ssrc_ st)) (received_fec_packets_ st);
  dok_fec_count : (length (received_fec_packets_ st) <= MaxStoredFecPackets)%nat;
  dok_recovered : Forall tracked_ok recovered;
  dok_count : (length recovered <= MaxTrackedPackets)%nat
}.

Lemma decoder_init ssrc media_ssrc : decoder_ok (mkDecoder ssrc media_ssrc []) [].
Proof. split; cbn; (done || lia || constructor). Qed.

(** ** Insertion *)

Lemma window_u16 n seqs : seqs_window n seqs -> Forall is_u16 seqs.
Proof.
  intros (base & offs & _ & _ & _ & ->). apply Forall_fmap, Forall_true.
  intros o. by apply uw_range.
Qed.

Lemma InsertFecPacket_ok st recovered rp :
  decoder_ok st recovered -> bytes (rp_pkt rp) ->
  exists st', InsertFecPacket st recovered rp = Ok st' /\ decoder_ok st' recovered /\
    protected_media_ssrc_ st' = protected_media_ssrc_ st.
Proof.
  intros [Hf Hfc Hr Hrc] Hb. unfold InsertFecPacket.
  destruct (existsb _ _); [by exists st|].
  set (fp0 := new_fec_packet _ _ _).
  destruct (read_total fp0 Hb) as [[fp|] Hread]; rewrite Hread; cbn [mbind res_bind]; [|by exists st].
  destruct (read_sound fp0 fp Hb Hread) as (ps & hdr & len & pkt & -> & Hlen & Hbp & Hbase & Hhdr & Hoff & Hsz).
  cbn [with_header fp_protected_streams fp_pkt]. unfold rtc_check. cbn [length Nat.eqb mbind res_bind].
  destruct (negb _); [by exists st|]. case_decide as Hlt; [by exists st|].
  rewrite parse_packet_mask_spec by lia. cbn [mbind res_bind].
  set (idx := mask_indices _ _).
  destruct (map (protected_packet (protected_media_ssrc_ st) (ps_seq_num_base ps)) idx)
    as [|pp pps] eqn:Epps; [by exists st|].
  rewrite <- Epps. eexists. split; [done|]. split; [|done].
  assert (Hwin : seqs_window 112 (map pp_seq_num
    (map (protected_packet (protected_media_ssrc_ st) (ps_seq_num_base ps)) idx)))
    by (by apply protected_seqs_window).
  assert (Hnew : fec_ok (protected_media_ssrc_ st) (with_protected (with_header fp0 hdr [ps] len pkt)
    (AssignRecoveredPackets recovered (map (protected_packet (protected_media_ssrc_ st) (ps_seq_num_base ps)) idx)))).
  { assert (Hbase_ok : fec_ok (protected_media_ssrc_ st) (with_protected (with_header fp0 hdr [ps] len pkt)
      (map (protected_packet (protected_media_ssrc_ st) (ps_seq_num_base ps)) idx))).
    { split; cbn [with_protected with_header fp_pkt fp_fec_header_size fp_protected_packets].
      - done.
      - apply Hhdr.
      - by rewrite Epps.
      - by rewrite present_protected.
      - done.
      - apply Forall_fmap, Forall_true. done. }
    apply (refined_fec_ok _ _ _ Hbase_ok). apply AssignRecovered_refined.
    - eapply Forall_impl; [exact Hr|]. intros r [Hr1 Hr2]. split; [done|exact Hr1].
    - pose proof (window_u16 _ _ Hwin) as Hu. exact (proj1 (List.Forall_map _ _ _) Hu). }
  split; cbn [set_fec_packets received_fec_packets_ protected_media_ssrc_]; [| |done|done].
  - set (l := list_sort _ _).
    assert (Hl : Forall (fec_ok (protected_media_ssrc_ st)) l)
      by (apply list_sort_Forall, Forall_app; split; [done|by constructor]).
    case_decide; [|done]. destruct Hl; [done|]. done.
  - set (l := list_sort _ _).
    assert (Hl : length l = (length (received_fec_packets_ st) + 1)%nat)
      by (subst l; by rewrite list_sort_length, length_app).
    case_decide; [|lia]. destruct l; cbn in *; lia.
Qed.

Lemma UpdateCovering_ok st r :
  Forall (fec_ok (protected_media_ssrc_ st)) (received_fec_packets_ st) -> rec_ok r ->
  Forall (fec_ok (protected_media_ssrc_ st)) (received_fec_packets_ (UpdateCoveringFecPackets st r)).
Proof.
  intros Hf Hr. cbn. apply Forall_fmap. eapply Forall_impl; [exact Hf|].
  intros fp Hfp. by apply update_covering_fec_ok.
Qed.

Lemma Discard_ok recovered :
  Forall tracked_ok recovered ->
  Forall tracked_ok (DiscardOldRecoveredPackets recovered) /\
  (length (DiscardOldRecoveredPackets recovered) <= MaxTrackedPackets)%nat.
Proof.
  intros H. unfold DiscardOldRecoveredPackets. rewrite length_drop. split; [by apply Forall_drop|lia].
Qed.

Lemma discard_old_fec_suffix q fps : exists dropped, fps = dropped ++ discard_old_fec q fps.
Proof.
  induction fps as [|fp fps [d Hd]]; [by exists []|]. cbn. destruct (_ <? _).
  - exists (fp :: d). cbn. by f_equal.
  - by exists [].
Qed.

Lemma decoder_ok_suffix st recovered fps d :
  decoder_ok st recovered -> received_fec_packets_ st = d ++ fps ->
  decoder_ok (set_fec_packets st fps) recovered.
Proof.
  intros [Hf Hfc Hr Hrc] E. rewrite E in Hf, Hfc. rewrite length_app in Hfc.
  apply Forall_app in Hf as [_ Hf]. split; cbn; (done || lia).
Qed.

Lemma InsertPacket_ok st rp recovered :
  decoder_ok st recovered -> input_ok rp ->
  exists st' recovered', InsertPacket st rp recovered = Ok (st', recovered') /\
    decoder_ok st' recovered' /\ protected_media_ssrc_ st' = protected_media_ssrc_ st.
Proof.
  intros Hst [Hb Hq Hm]. unfold InsertPacket. set (st1 := match received_fec_packets_ st with
    [] => st | _ => _ end).
  assert (Hst1 : decoder_ok st1 recovered /\ protected_media_ssrc_ st1 = protected_media_ssrc_ st).
  { subst st1. destruct (received_fec_packets_ st) as [|f fps] eqn:E; [done|].
    destruct (_ =? _); [|done]. split; [|done].
    destruct (discard_old_fec_suffix (rp_seq_num rp) (f :: fps)) as [d Hd].
    apply (decoder_ok_suffix _ _ _ d Hst). by rewrite E. }
  clearbody st1. destruct Hst1 as [Hst1 Hssrc]. destruct (rp_is_fec rp) eqn:Efec.
  - destruct (InsertFecPacket_ok st1 recovered rp Hst1 Hb) as (st2 & -> & [Hf Hfc Hr Hrc] & Hs2).
    cbn [mbind res_bind]. do 2 eexists. split; [done|]. destruct (Discard_ok recovered Hr). 
    split; [by split|congruence].
  - cbn [mbind res_bind]. unfold InsertMediaPacket. destruct Hst1 as [Hf Hfc Hr Hrc].
    destruct (existsb _ _).
    + do 2 eexists. split; [done|]. destruct (Discard_ok recovered Hr). split; [by split|done].
    + do 2 eexists. split; [done|].
      set (r := mkRecoveredPacket _ _ _ _ _). assert (Hro : tracked_ok r) by (split; [split|]; auto).
      destruct (Discard_ok (list_sort rec_seq_num (recovered ++ [r]))) as [Hd1 Hd2].
      { apply list_sort_Forall, Forall_app. split; [done|by constructor]. }
      split; [|done]. split; [exact (UpdateCovering_ok st1 r Hf (proj1 Hro))| |done|done].
      cbn. by rewrite length_map.
Qed.

(** Packets held, media and FEC: a repair trades one for the other. *)
Definition held (st : Decoder) (recovered : list RecoveredPacket) : nat :=
  (length recovered + length (received_fec_packets_ st))%nat.

Lemma InsertFecPacket_held st recovered rp st' :
  InsertFecPacket st recovered rp = Ok st' -> (held st' recovered <= held st recovered + 1)%nat.
Proof.
  unfold InsertFecPacket, held. destruct (existsb _ _); [intros [= <-]; lia|].
  intros (ret & _ & HK)%bind_ok_inv. revert HK. destruct ret as [fp|]; [|intros [= <-]; lia].
  intros (u & _ & HK)%bind_ok_inv. revert HK. destruct (fp_protected_streams fp) as [|ps ?]; [done|].
  destruct (negb _); [intros [= <-]; lia|]. case_decide; [intros [= <-]; lia|].
  intros (pps & _ & HK)%bind_ok_inv. revert HK. destruct pps as [|pp pps]; [intros [= <-]; lia|].
  intros [= <-]. cbn [set_fec_packets received_fec_packets_].
  set (fps := list_sort _ _).
  assert (Hl : length fps = (length (received_fec_packets_ st) + 1)%nat)
    by (subst fps; by rewrite list_sort_length, length_app).
  case_decide; [destruct fps; cbn in *|]; lia.
Qed.

Lemma InsertPacket_held st rp recovered st' recovered' :
  InsertPacket st rp recovered = Ok (st', recovered') ->
  (held st' recovered' <= held st recovered + 1)%nat.
Proof.
  unfold InsertPacket. set (st1 := match received_fec_packets_ st with [] => st | _ => _ end).
  assert (H1 : (held st1 recovered <= held st recovered)%nat).
  { subst st1. unfold held. destruct (received_fec_packets_ st) as [|f fps] eqn:E; [by rewrite E|].
    destruct (_ =? _); [|by rewrite E]. cbn [set_fec_packets received_fec_packets_].
    destruct (discard_old_fec_suffix (rp_seq_num rp) (f :: fps)) as [d Hd].
    apply (f_equal length) in Hd. rewrite length_app in Hd. rewrite <- E in *. lia. }
  clearbody st1. intros ([st2 rec2] & H2 & [= <- <-])%bind_ok_inv.
  unfold DiscardOldRecoveredPackets, held at 1. rewrite length_drop.
  enough (held st2 rec2 <= held st1 recovered + 1)%nat by (unfold held in *; lia).
  revert H2. destruct (rp_is_fec rp).
  - intros (st3 & H3 & [= <- <-])%bind_ok_inv. by apply InsertFecPacket_held in H3.
  - unfold InsertMediaPacket, held. destruct (existsb _ _); intros [= <- <-]; [lia|].
    rewrite list_sort_length, length_app. cbn. rewrite length_map. lia.
Qed.

(** ** One iteration of the recovery loop *)

Lemma publish_ok recovered rec :
  Forall tracked_ok recovered -> tracked_ok rec ->
  Forall tracked_ok (fst (publish recovered rec)) /\
  (length (fst (publish recovered rec)) <= MaxTrackedPackets)%nat /\
  (length (fst (publish recovered rec)) <= length recovered + 1)%nat /\
  ((length recovered < MaxTrackedPackets)%nat ->
     snd (publish recovered rec) = true).
Proof.
  intros Hr Hrec. unfold publish. cbn [fst snd].
  set (tagged := list_sort _ _).
  assert (Hp : tagged ≡ₚ map (pair false) recovered ++ [(true, rec)]) by apply list_sort_perm.
  assert (Hlen : length tagged = (length recovered + 1)%nat)
    by (rewrite Hp, length_app, length_map; done).
  assert (Hall : Forall (fun x => tracked_ok (snd x)) tagged).
  { rewrite Hp. apply Forall_app. split; [|by constructor].
    by apply List.Forall_map. }
  unfold DiscardOldRecoveredPackets. split_and!.
  - apply List.Forall_map. by apply Forall_drop.
  - rewrite length_map, length_drop. lia.
  - rewrite length_map, length_drop. lia.
  - intros Hlt. replace (length tagged - MaxTrackedPackets)%nat with 0%nat by lia.
    rewrite drop_0. apply existsb_exists. exists (true, rec). split; [|done].
    apply list_elem_of_In. rewrite Hp. set_solver.
Qed.

(** An FEC packet that can neither repair nor be discarded yet. *)
Definition stuck (recovered : list RecoveredPacket) (fp : ReceivedFecPacket) : Prop :=
  (2 <= length (missing (fp_protected_packets fp)))%nat /\
  IsOldFecPacket fp recovered = Ok false.

Record attempt_ok (a : Attempt) : Prop := {
  aok_dec : decoder_ok (at_st a) (at_recovered a);
  aok_it : (at_it a <= length (received_fec_packets_ (at_st a)))%nat;
  aok_stuck : Forall (stuck (at_recovered a)) (take (at_it a) (received_fec_packets_ (at_st a)))
}.

Definition potential (a : Attempt) : nat :=
  let n := length (received_fec_packets_ (at_st a)) in (n * (n + 1) + (n - at_it a) + 1)%nat.

Lemma IsOldFecPacket_total ssrc fp recovered :
  fec_ok ssrc fp -> exists b, IsOldFecPacket fp recovered = Ok b.
Proof.
  intros Hfp. unfold IsOldFecPacket. destruct (last recovered) as [back|]; [|eauto].
  destruct (last (fp_protected_packets fp)) as [pp|] eqn:E; [eauto|].
  apply last_None in E. by destruct (fok_nonempty _ _ Hfp).
Qed.

Lemma length_delete_le {A} (l : list A) i : (length (delete i l) <= length l)%nat.
Proof. revert i. induction l as [|x l IH]; intros [|i]; cbn; [lia..|]. apply le_n_S, IH. Qed.

Lemma erase_ok st recovered i :
  decoder_ok st recovered ->
  decoder_ok (set_fec_packets st (delete i (received_fec_packets_ st))) recovered.
Proof.
  intros [Hf Hfc Hr Hrc]. split; cbn; [by apply Forall_delete| |done|done].
  pose proof (length_delete_le (received_fec_packets_ st) i). lia.
Qed.

Lemma take_delete_same {A} (l : list A) i : take i (delete i l) = take i l.
Proof. revert i. induction l as [|x l IH]; intros [|i]; cbn; [done..|]. f_equal. apply IH. Qed.

Lemma RecoverPacket_tracked ssrc fp rec :
  fec_ok ssrc fp -> length (missing (fp_protected_packets fp)) = 1%nat ->
  RecoverPacket fp new_recovered_packet = Ok (Some rec) -> tracked_ok rec.
Proof.
  intros Hfp Hm Hrec.
  destruct (RecoverPacket_total fp new_recovered_packet) as (r & Hr & Hok); [apply Hfp..|].
  rewrite Hrec in Hr. injection Hr as <-. destruct (Hok rec eq_refl) as (Hb & Hl & _ & _ & Hid).
  split; [split; [done|lia]|]. rewrite recovered_id_missing in Hid.
  destruct (missing (fp_protected_packets fp)) as [|pp [|]] eqn:E; [done| |done].
  cbn [last] in Hid. injection Hid as _ ->.
  assert (Hpp : pp ∈ fp_protected_packets fp).
  { assert (pp ∈ missing (fp_protected_packets fp)) as [_ Hin]%list_elem_of_filter
      by (rewrite E; left). done. }
  pose proof (window_u16 _ _ (fok_seqs _ _ Hfp)) as Hu.
  apply (proj1 (Forall_forall _ _) (proj1 (List.Forall_map _ _ _) Hu) pp Hpp).
Qed.

Lemma recovery_step_ok a :
  attempt_ok a ->
  (recovery_step a = Ok None /\ at_it a = length (received_fec_packets_ (at_st a))) \/
  (recovery_step a = Fault UseAfterFree /\
   (MaxTrackedPackets < held (at_st a) (at_recovered a))%nat) \/
  exists a', recovery_step a = Ok (Some a') /\ attempt_ok a' /\ (potential a' < potential a)%nat /\
    protected_media_ssrc_ (at_st a') = protected_media_ssrc_ (at_st a) /\
    (held (at_st a') (at_recovered a') <= held (at_st a) (at_recovered a))%nat.
Proof.
  intros [Hdec Hit Hst]. unfold recovery_step, potential, held.
  destruct (received_fec_packets_ (at_st a) !! at_it a) as [fp|] eqn:Hfp; cycle 1.
  { left. split; [done|]. apply lookup_ge_None in Hfp. lia. }
  right. pose proof (lookup_lt_Some _ _ _ Hfp) as Hlt.
  pose proof (Forall_lookup_1 _ _ _ _ (dok_fec _ _ Hdec) Hfp) as Hok.
  rewrite NumCovered_spec. set (n := length (received_fec_packets_ (at_st a))) in *.
  assert (Hdel : length (delete (at_it a) (received_fec_packets_ (at_st a))) = (n - 1)%nat)
    by (rewrite length_delete by eauto; lia).
  destruct (Nat.eqb_spec (Nat.min 2 (length (missing (fp_protected_packets fp)))) 1) as [H1|H1].
  - destruct (RecoverPacket_total fp new_recovered_packet) as (r & Hr & _); [apply Hok..|].
    rewrite Hr. cbn [mbind res_bind]. destruct r as [rec|]; cycle 1.
    + right. eexists. split; [done|]. cbn [at_st at_recovered at_it received_fec_packets_ set_fec_packets].
      rewrite Hdel. split_and!; [|nia|done|lia].
      split; cbn [at_st at_recovered at_it]; [by apply erase_ok|cbn; lia|].
      cbn. by rewrite take_delete_same.
    + assert (Ht : tracked_ok rec) by (exact (RecoverPacket_tracked _ fp rec Hok ltac:(lia) Hr)).
      pose proof (publish_ok (at_recovered a) rec (dok_recovered _ _ Hdec) Ht) as (Hp1 & Hp2 & Hp4 & Hp3).
      destruct (publish (at_recovered a) rec) as [recovered' alive]. cbn [fst snd] in *.
      destruct alive; cycle 1.
      { left. split; [done|]. pose proof (dok_count _ _ Hdec).
        destruct (decide (length (at_recovered a) < MaxTrackedPackets)%nat) as [Hl|];
          [by specialize (Hp3 Hl)|fold n; lia]. }
      right. eexists. split; [done|].
      cbn [at_st at_recovered at_it received_fec_packets_ set_fec_packets UpdateCoveringFecPackets].
      assert (Hdel2 : length (delete (at_it a) (map (update_covering rec)
                        (received_fec_packets_ (at_st a)))) = (n - 1)%nat).
      { rewrite length_delete; rewrite ?length_map; [subst n; lia|]. rewrite list_lookup_fmap, Hfp. eauto. }
      rewrite Hdel2. split_and!; [|nia|done|].
      * split; cbn [at_st at_recovered at_it]; [|cbn; lia|by rewrite take_0].
        apply erase_ok. destruct Hdec as [Hf Hfc Hr' Hrc].
        split; [exact (UpdateCovering_ok (at_st a) rec Hf (proj1 Ht))| |done|done].
        cbn. by rewrite length_map.
      * fold n. lia.
  - destruct (Nat.eqb_spec (Nat.min 2 (length (missing (fp_protected_packets fp)))) 0) as [H0|H0].
    all: cbn [mbind res_bind].
    + right. eexists. split; [done|]. cbn [at_st at_recovered at_it received_fec_packets_ set_fec_packets].
      rewrite Hdel. split_and!; [|nia|done|lia].
      split; cbn [at_st at_recovered at_it]; [by apply erase_ok|cbn; lia|].
      cbn. by rewrite take_delete_same.
    + destruct (IsOldFecPacket_total _ fp (at_recovered a) Hok) as [[|] Hold]; rewrite Hold;
        cbn [mbind res_bind]; right; (eexists; split; [done|]);
        cbn [at_st at_recovered at_it received_fec_packets_ set_fec_packets].
      * rewrite Hdel. split_and!; [|nia|done|lia].
        split; cbn [at_st at_recovered at_it]; [by apply erase_ok|cbn; lia|].
        cbn. by rewrite take_delete_same.
      * fold n. split_and!; [|lia|done|lia].
        split; cbn [at_st at_recovered at_it]; [done|lia|].
        rewrite Nat.add_1_r, (take_S_r _ _ _ Hfp). apply Forall_app. split; [done|].
        constructor; [|done]. split; [lia|done].
Qed.

(** ** The loop and [DecodeFec] *)

Lemma recovery_loop_ok fuel : forall a,
  attempt_ok a -> (potential a <= fuel)%nat ->
  (exists a', recovery_loop fuel a = Ok a' /\ decoder_ok (at_st a') (at_recovered a') /\
     Forall (stuck (at_recovered a')) (received_fec_packets_ (at_st a')) /\
     protected_media_ssrc_ (at_st a') = protected_media_ssrc_ (at_st a) /\
     (held (at_st a') (at_recovered a') <= held (at_st a) (at_recovered a))%nat) \/
  (recovery_loop fuel a = Fault UseAfterFree /\
   (MaxTrackedPackets < held (at_st a) (at_recovered a))%nat).
Proof.
  induction fuel as [|fuel IH]; intros a Ha Hf; [unfold potential in Hf; lia|]. cbn [recovery_loop].
  destruct (recovery_step_ok a Ha) as [[-> Hit]|[[-> Hfull]|(a' & -> & Ha' & Hpot & Hs & Hroom)]];
    cbn [mbind res_bind].
  - left. exists a. split_and!; [done|apply Ha| |done|lia].
    pose proof (aok_stuck _ Ha) as Hst. by rewrite Hit, firstn_all in Hst.
  - right. done.
  - destruct (IH a' Ha' ltac:(lia)) as [(a2 & Hl & Hd & Hst & Hs2 & Hh)|[Hl Hno]].
    + left. exists a2. split_and!; [done..|congruence|lia].
    + right. split; [done|lia].
Qed.

Lemma AttemptRecovery_ok st recovered :
  decoder_ok st recovered ->
  (exists a, AttemptRecovery st recovered = Ok a /\ decoder_ok (at_st a) (at_recovered a) /\
     Forall (stuck (at_recovered a)) (received_fec_packets_ (at_st a)) /\
     protected_media_ssrc_ (at_st a) = protected_media_ssrc_ st /\
     (held (at_st a) (at_recovered a) <= held st recovered)%nat) \/
  (AttemptRecovery st recovered = Fault UseAfterFree /\
   (MaxTrackedPackets < held st recovered)%nat).
Proof.
  intros Hok. unfold AttemptRecovery.
  apply (recovery_loop_ok _ (mkAttempt st recovered 0 [] 0)).
  - split; cbn; [done|lia|by rewrite take_0].
  - unfold potential. cbn. lia.
Qed.

Lemma reset_on_gap_ok st rp recovered :
  decoder_ok st recovered ->
  decoder_ok (fst (reset_on_gap st rp recovered)) (snd (reset_on_gap st rp recovered)) /\
  protected_media_ssrc_ (fst (reset_on_gap st rp recovered)) = protected_media_ssrc_ st /\
  (held (fst (reset_on_gap st rp recovered)) (snd (reset_on_gap st rp recovered))
     <= held st recovered)%nat.
Proof.
  intros Hok. unfold reset_on_gap. destruct (last recovered) as [back|]; [|done].
  destruct (_ && _ && _); [|done]. split; [|split; [done|unfold held; cbn; lia]].
  split; cbn; (done || lia || constructor).
Qed.

Lemma DecodeFec_ok st rp recovered :
  decoder_ok st recovered -> input_ok rp ->
  (exists st' recovered' n log, DecodeFec st rp recovered = Ok (st', recovered', n, log) /\
     decoder_ok st' recovered' /\ Forall (stuck recovered') (received_fec_packets_ st') /\
     protected_media_ssrc_ st' = protected_media_ssrc_ st /\
     (held st' recovered' <= held st recovered + 1)%nat) \/
  (DecodeFec st rp recovered = Fault UseAfterFree /\ (MaxTrackedPackets <= held st recovered)%nat).
Proof.
  intros Hok Hin. unfold DecodeFec.
  pose proof (reset_on_gap_ok st rp recovered Hok) as (Hok1 & Hs1 & Hh1).
  destruct (reset_on_gap st rp recovered) as [st1 rec1]. cbn [fst snd] in *.
  destruct (InsertPacket_ok st1 rp rec1 Hok1 Hin) as (st2 & rec2 & Hins & Hok2 & Hs2).
  pose proof (InsertPacket_held _ _ _ _ _ Hins) as Hh2. rewrite Hins. cbn [mbind res_bind].
  destruct (AttemptRecovery_ok st2 rec2 Hok2) as [(a & -> & Ha & Hst & Hs3 & Hh3)|[-> Hh3]];
    cbn [mbind res_bind]; [left|right; split; [done|lia]].
  do 4 eexists. split; [done|]. split_and!; [done..|congruence|lia].
Qed.

End Safety.
