(* ===== verification/DecoderSound.v ===== *)
(** * DecoderSound: recovered packets are the lost packets

    A specification-level view of a session: [orig] maps sequence numbers to
    the media packets that were really sent.  If the media packets that arrive
    are among them and the FEC packets that arrive are parities of them, then
    every packet the decoder publishes is one of them, byte for byte, and a
    packet that is the only missing one of some stored FEC packet is always
    repaired. *)

From stdpp Require Import sorting.
From S2P Require Import Prelude PacketMasks FecTypes SeqNum XorCode FecDecoder DecoderLemmas.
From S2P Require Import DecoderSafety.

(** ** Parities and permutations *)

Lemma xor_sum_perm ps ps' i : ps ≡ₚ ps' -> xor_sum ps i = xor_sum ps' i.
Proof.
  induction 1 as [|p l l' _ IH|p q l|l1 l2 l3 _ IH1 _ IH2]; cbn [xor_sum foldr].
  - done.
  - fold (xor_sum l i) (xor_sum l' i). by rewrite IH.
  - rewrite <- !Z.lxor_assoc. f_equal. apply Z.lxor_comm.
  - etransitivity; [exact IH1|exact IH2].
Qed.

Lemma encodes_perm hdr fec ps ps' : ps ≡ₚ ps' -> encodes hdr fec ps -> encodes hdr fec ps'.
Proof.
  intros Hp [H0 H1 H2]. split.
  - by rewrite <- (xor_sum_perm _ _ _ Hp).
  - intros i Hi. rewrite <- (xor_sum_perm _ _ _ Hp). by apply H1.
  - intros j. rewrite <- (xor_sum_perm _ _ _ Hp). apply H2.
Qed.

Section Sound.
Context {R : FecHeaderReader} {RL : FecReaderLaws R}.
Context (media_ssrc : Z) (orig : Z -> option Packet).

(** The packets sent: well-formed RTP packets of one stream. *)
Hypothesis orig_ok : forall q p, orig q = Some p ->
  media_ok 1488 p /\ rtp_seq_num p = q /\ rtp_ssrc p = media_ssrc.

(** A protected packet and the original it stands for. *)
Definition stands_for (pp : ProtectedPacket) (p : Packet) : Prop :=
  orig (pp_seq_num pp) = Some p /\ (pp_pkt pp = None \/ pp_pkt pp = Some p).

Definition rec_sound (r : RecoveredPacket) : Prop := orig (rec_seq_num r) = Some (rec_pkt r).

Record fec_sound (fp : ReceivedFecPacket) : Prop := {
  fs_length : length (fp_pkt fp) = (fp_fec_header_size fp + fp_protection_length fp)%nat;
  fs_max : (length (fp_pkt fp) <= 1500)%nat;
  fs_plen : (fp_protection_length fp <= 1488)%nat;
  fs_code : exists ps, Forall2 stands_for (fp_protected_packets fp) ps /\
    encodes (fp_fec_header_size fp) (fp_pkt fp) ps
}.

Lemma stands_for_present pps ps :
  Forall2 stands_for pps ps -> missing pps = [] -> ps = present pps.
Proof.
  induction 1 as [|pp p pps ps [_ [Hn|Hs]] _ IH]; [done|..]; unfold missing, present in *;
    rewrite filter_cons; cbn [omap list_omap].
  - by rewrite decide_True.
  - rewrite decide_False by (by rewrite Hs). intros Hm. rewrite Hs. f_equal. by apply IH.
Qed.

Lemma stands_for_missing pps ps pm :
  Forall2 stands_for pps ps -> missing pps = [pm] ->
  exists lost, orig (pp_seq_num pm) = Some lost /\ ps ≡ₚ lost :: present pps.
Proof.
  induction 1 as [|pp p pps ps [Ho Hpk] Hrest IH]; [done|]; unfold missing, present in *;
    rewrite filter_cons; cbn [omap list_omap]. destruct (pp_pkt pp) as [s|] eqn:E.
  - rewrite decide_False by done. intros Hm. destruct (IH Hm) as (lost & Hl & Hp).
    exists lost. split; [done|]. destruct Hpk as [Hpk|[= ->]]; [done|]. rewrite Hp. constructor.
  - rewrite decide_True by done. intros [= -> Hm]. exists p. split; [done|].
    by rewrite (stands_for_present _ _ Hrest Hm).
Qed.

(** ** Repair *)

Lemma recover_sound fp pm :
  fec_ok media_ssrc fp -> fec_sound fp -> missing (fp_protected_packets fp) = [pm] ->
  exists lost, orig (pp_seq_num pm) = Some lost /\
    RecoverPacket fp new_recovered_packet =
      Ok (Some (mkRecoveredPacket media_ssrc (pp_seq_num pm) true false lost)).
Proof.
  intros Hok [Hl Hmax Hpl (ps & Hst & Henc)] Hm.
  destruct (stands_for_missing _ _ _ Hst Hm) as (lost & Ho & Hp). exists lost. split; [done|].
  destruct (orig_ok _ _ Ho) as (Hmo & Hq & Hs).
  assert (Hpm : pm ∈ fp_protected_packets fp).
  { assert (pm ∈ missing (fp_protected_packets fp)) as [_ Hin]%list_elem_of_filter
      by (rewrite Hm; left). done. }
  pose proof (proj1 (Forall_forall _ _) (fok_ssrc _ _ Hok) pm Hpm) as Hssrc. cbv beta in Hssrc.
  rewrite <- Hssrc. apply RecoverPacket_exact; try done; try apply Hok; [congruence|].
  by apply (encodes_perm _ _ ps).
Qed.

Lemma refined_sound fp pps :
  fec_sound fp -> Forall2 (refined (fun q pkt => orig q = Some pkt)) (fp_protected_packets fp) pps ->
  fec_sound (with_protected fp pps).
Proof.
  intros [Hl Hmax Hpl (ps & Hst & Henc)] Hr.
  split; cbn [with_protected fp_pkt fp_fec_header_size fp_protection_length fp_protected_packets]; try done.
  exists ps. split; [|done]. clear -Hst Hr. revert ps Hst.
  induction Hr as [|pp pp' l l' (_ & Hq & Hpk) _ IH]; intros ps Hst; inversion Hst; subst; constructor.
  - destruct H1 as [Ho Hn]. unfold stands_for. rewrite Hq. split; [done|].
    destruct Hpk as [->|(pkt & -> & Ho')]; [done|]. right. congruence.
  - by apply IH.
Qed.

Lemma update_covering_sound fp r :
  fec_ok media_ssrc fp -> fec_sound fp -> rec_sound r -> fec_sound (update_covering r fp).
Proof.
  intros Hok Hs Hr. rewrite (update_covering_spec 112) by (apply Hok || lia).
  apply refined_sound; [done|]. by apply assign_seq_refined.
Qed.


(** ** The decoder's state *)

Record dec_sound (st : Decoder) (recovered : list RecoveredPacket) : Prop := {
  ds_ok : decoder_ok st recovered;
  ds_ssrc : protected_media_ssrc_ st = media_ssrc;
  ds_rec : Forall rec_sound recovered;
  ds_fec : Forall fec_sound (received_fec_packets_ st)
}.

Lemma dec_sound_init ssrc : dec_sound (mkDecoder ssrc media_ssrc []) [].
Proof. split; [apply decoder_init|done..]. Qed.

(** What [InsertFecPacket] makes of the header it reads. *)
Definition protected_list (fp : ReceivedFecPacket) (stream : ProtectedStream) : list ProtectedPacket :=
  map (protected_packet media_ssrc (ps_seq_num_base stream))
    (mask_indices (drop (ps_packet_mask_offset stream) (fp_pkt fp)) (ps_packet_mask_size stream)).

(** Packets a sender of [orig] may have produced; FEC packets of other streams
    and malformed ones are unconstrained. *)
Record genuine (rp : ReceivedPacket) : Prop := {
  gen_input : input_ok rp;
  gen_media : rp_is_fec rp = false -> orig (rp_seq_num rp) = Some (rp_pkt rp);
  gen_fec : rp_is_fec rp = true -> forall fp stream,
    ReadFecHeader (new_fec_packet (rp_ssrc rp) (rp_seq_num rp) (rp_pkt rp)) = Ok (Some fp) ->
    fp_protected_streams fp = [stream] -> ps_ssrc stream = media_ssrc ->
    (ps_packet_mask_offset stream + ps_packet_mask_size stream <= length (fp_pkt fp))%nat ->
    fec_sound (with_protected fp (protected_list fp stream))
}.

(** The sequence numbers a received FEC packet protects; none when the decoder
    ignores it. *)
Definition fec_seqs (rp : ReceivedPacket) : list Z :=
  match ReadFecHeader (new_fec_packet (rp_ssrc rp) (rp_seq_num rp) (rp_pkt rp)) with
  | Ok (Some fp) =>
      match fp_protected_streams fp with
      | stream :: _ =>
          if (ps_ssrc stream =? media_ssrc) &&
             bool_decide (ps_packet_mask_offset stream + ps_packet_mask_size stream
                          <= length (fp_pkt fp))%nat
          then map pp_seq_num (protected_list fp stream) else []
      | [] => []
      end
  | _ => []
  end.

Definition trim (fps : list ReceivedFecPacket) : list ReceivedFecPacket :=
  if decide (MaxStoredFecPackets < length fps)%nat then tail fps else fps.

Lemma trim_sub fps fp : fp ∈ trim fps -> fp ∈ fps.
Proof. unfold trim. case_decide; [|done]. destruct fps; [done|]. cbn. by right. Qed.

(** The packet [InsertFecPacket] stores. *)
Definition stored (recovered : list RecoveredPacket) (fp : ReceivedFecPacket)
    (stream : ProtectedStream) : ReceivedFecPacket :=
  with_protected fp (AssignRecoveredPackets recovered (protected_list fp stream)).

(** [InsertFecPacket] skips duplicates and packets that protect nothing, and
    stores the others. *)
Lemma InsertFecPacket_cases st recovered rp :
  bytes (rp_pkt rp) -> protected_media_ssrc_ st = media_ssrc ->
  InsertFecPacket st recovered rp = Ok st /\
    ((exists fp, fp ∈ received_fec_packets_ st /\ fp_seq_num fp = rp_seq_num rp) \/
     fec_seqs rp = []) \/
  exists fp stream,
    ReadFecHeader (new_fec_packet (rp_ssrc rp) (rp_seq_num rp) (rp_pkt rp)) = Ok (Some fp) /\
    fp_protected_streams fp = [stream] /\ ps_ssrc stream = media_ssrc /\
    (ps_packet_mask_offset stream + ps_packet_mask_size stream <= length (fp_pkt fp))%nat /\
    fec_seqs rp = map pp_seq_num (protected_list fp stream) /\ protected_list fp stream <> [] /\
    fp_seq_num fp = rp_seq_num rp /\ fp_ssrc fp = rp_ssrc rp /\
    InsertFecPacket st recovered rp = Ok (set_fec_packets st
      (trim (list_sort fp_seq_num (received_fec_packets_ st ++ [stored recovered fp stream])))).
Proof.
  intros Hb Hs. unfold InsertFecPacket, fec_seqs. destruct (existsb _ _) eqn:Edup.
  { left. split; [done|]. left. apply existsb_exists in Edup as (fp & Hin & Heq%Z.eqb_eq).
    exists fp. by rewrite list_elem_of_In. }
  set (fp0 := new_fec_packet _ _ _).
  destruct (read_total fp0 Hb) as [[fp|] Hread]; rewrite Hread; cbn [mbind res_bind];
    [|left; split; [done|by right]].
  destruct (read_sound fp0 fp Hb Hread) as (ps & hdr & len & pkt & -> & Hlen & Hbp & Hbase & Hhdr & Hoff & Hsz).
  cbn [with_header fp_protected_streams]. unfold rtc_check. cbn [length Nat.eqb mbind res_bind].
  rewrite Hs. destruct (Z.eqb_spec (ps_ssrc ps) media_ssrc) as [Hps|]; cbn [negb andb];
    [|left; split; [done|by right]].
  set (fp1 := with_header _ _ _ _ _). change (fp_pkt (mkReceivedFecPacket _ _ _ _ _ _ _)) with (fp_pkt fp1).
  destruct (decide (length (fp_pkt fp1) < ps_packet_mask_offset ps + ps_packet_mask_size ps)%nat) as [Hlt|Hge].
  { rewrite bool_decide_eq_false_2 by lia. left. split; [done|by right]. }
  rewrite bool_decide_eq_true_2 by lia. rewrite parse_packet_mask_spec by lia. cbn [mbind res_bind].
  fold (protected_list fp1 ps). destruct (protected_list fp1 ps) as [|pp pps] eqn:Epps.
  { left. split; [done|by right]. }
  right. exists fp1, ps. rewrite Epps. split_and!; try done; [lia|].
  unfold stored. by rewrite Epps.
Qed.

Lemma rec_sound_refined recovered :
  Forall rec_sound recovered -> Forall tracked_ok recovered ->
  Forall (fun r => is_u16 (rec_seq_num r) /\ orig (rec_seq_num r) = Some (rec_pkt r)) recovered.
Proof.
  rewrite !Forall_forall. intros Hs Ht r Hr. split; [apply (Ht r Hr)|exact (Hs r Hr)].
Qed.

Lemma sound_seq_u16 q p : orig q = Some p -> is_u16 q.
Proof.
  intros Ho. destruct (orig_ok q p Ho) as ([Hb Hl _] & <- & _).
  apply ParseSequenceNumber_ok; [done|lia].
Qed.

Lemma protected_list_u16 fp stream : Forall (fun pp => is_u16 (pp_seq_num pp)) (protected_list fp stream).
Proof. apply Forall_fmap, Forall_true. intros c. by apply uw_range. Qed.

Lemma InsertFecPacket_sound st recovered rp st' :
  dec_sound st recovered -> genuine rp -> rp_is_fec rp = true ->
  InsertFecPacket st recovered rp = Ok st' -> dec_sound st' recovered.
Proof.
  intros Hd Hg Hfec Hins.
  destruct (InsertFecPacket_ok st recovered rp (ds_ok _ _ Hd) (in_bytes _ (gen_input _ Hg)))
    as (st2 & Hins2 & Hok & Hssrc). rewrite Hins in Hins2. injection Hins2 as <-.
  destruct (InsertFecPacket_cases st recovered rp (in_bytes _ (gen_input _ Hg)) (ds_ssrc _ _ Hd))
    as [[E _]|(fp & stream & Hread & Hst & Hps & Hlen & _ & _ & _ & _ & E)];
    rewrite Hins in E; injection E as ->; [done|].
  destruct Hd as [Hdok Hds Hdr Hdf]. split; [done|congruence|done|]. cbn [set_fec_packets received_fec_packets_].
  apply Forall_forall. intros f Hf%trim_sub. rewrite list_sort_perm in Hf.
  apply elem_of_app in Hf as [Hf|Hf%list_elem_of_singleton]; [by apply (proj1 (Forall_forall _ _) Hdf)|].
  subst f. pose proof (gen_fec _ Hg Hfec fp stream Hread Hst Hps Hlen) as Hs.
  pose proof (refined_sound _ (AssignRecoveredPackets recovered (protected_list fp stream)) Hs) as Hr.
  apply Hr. apply AssignRecovered_refined; [|apply protected_list_u16].
  apply rec_sound_refined; [done|apply Hdok].
Qed.

Lemma UpdateCovering_sound fps r :
  Forall (fec_ok media_ssrc) fps -> Forall fec_sound fps -> rec_sound r ->
  Forall fec_sound (map (update_covering r) fps).
Proof.
  intros Hok Hs Hr. apply Forall_fmap, Forall_forall. intros fp Hfp.
  apply update_covering_sound; [..|done]; by eapply Forall_forall.
Qed.

Lemma Discard_sub {A} (l : list A) x : x ∈ DiscardOldRecoveredPackets l -> x ∈ l.
Proof. unfold DiscardOldRecoveredPackets. intros Hx. rewrite <- (take_drop (length l - MaxTrackedPackets)). apply elem_of_app. by right. Qed.

Lemma Forall_sub {A} (P : A -> Prop) (l l' : list A) :
  (forall x, x ∈ l' -> x ∈ l) -> Forall P l -> Forall P l'.
Proof. rewrite !Forall_forall. auto. Qed.

Lemma InsertPacket_sound st rp recovered st' recovered' :
  dec_sound st recovered -> genuine rp ->
  InsertPacket st rp recovered = Ok (st', recovered') -> dec_sound st' recovered'.
Proof.
  intros Hd Hg Hins.
  destruct (InsertPacket_ok st rp recovered (ds_ok _ _ Hd) (gen_input _ Hg))
    as (st2 & rec2 & Hins2 & Hok & Hssrc). rewrite Hins in Hins2. injection Hins2 as <- <-.
  revert Hins. unfold InsertPacket. set (st1 := match received_fec_packets_ st with
    [] => st | _ => _ end).
  assert (Hd1 : dec_sound st1 recovered).
  { subst st1. destruct (received_fec_packets_ st) as [|f fps] eqn:E; [done|].
    destruct (_ =? _); [|done]. destruct (discard_old_fec_suffix (rp_seq_num rp) (f :: fps)) as [d Hdr].
    destruct Hd as [Ho Hs Hr Hf]. split; [|done..|].
    - apply (decoder_ok_suffix _ _ _ d Ho). by rewrite E.
    - rewrite E, Hdr in Hf. by apply Forall_app in Hf as [_ Hf]. }
  clearbody st1. intros ([st3 rec3] & H3 & [= <- <-])%bind_ok_inv.
  enough (Hd3 : Forall rec_sound rec3 /\ Forall fec_sound (received_fec_packets_ st3)).
  { split; [done|by rewrite Hssrc; apply Hd| |apply Hd3].
    eapply Forall_sub; [apply Discard_sub|apply Hd3]. }
  revert H3. destruct (rp_is_fec rp) eqn:Efec.
  - intros (st4 & H4 & [= <- <-])%bind_ok_inv.
    apply InsertFecPacket_sound in H4; [|done..]. split; apply H4.
  - intros [= H3]. revert H3. unfold InsertMediaPacket. destruct (existsb _ _); intros [= <- <-];
      [split; apply Hd1|].
    set (r := mkRecoveredPacket _ _ _ _ _).
    assert (Hr : rec_sound r) by exact (gen_media _ Hg Efec). split.
    + apply list_sort_Forall, Forall_app. split; [apply Hd1|by constructor].
    + cbn. apply UpdateCovering_sound; [|apply Hd1|done].
      rewrite <- (ds_ssrc _ _ Hd1). apply Hd1.
Qed.

(** ** The recovery loop *)

Lemma publish_sub recovered rec r :
  r ∈ fst (publish recovered rec) -> r ∈ recovered \/ r = rec.
Proof.
  unfold publish. cbn [fst]. intros ([t r'] & -> & Hin%Discard_sub)%list_elem_of_fmap. cbn.
  rewrite list_sort_perm in Hin. apply elem_of_app in Hin as [Hin|Hin%list_elem_of_singleton].
  - apply list_elem_of_fmap in Hin as (r2 & [= -> ->] & Hin). by left.
  - injection Hin as -> ->. by right.
Qed.

(** One repair: the packet published is the lost original. *)
Lemma repair_sound st recovered i fp :
  dec_sound st recovered -> received_fec_packets_ st !! i = Some fp ->
  NumCoveredPacketsMissing (fp_protected_packets fp) = 1%nat ->
  exists pm lost, missing (fp_protected_packets fp) = [pm] /\
    orig (pp_seq_num pm) = Some lost /\
    RecoverPacket fp new_recovered_packet =
      Ok (Some (mkRecoveredPacket media_ssrc (pp_seq_num pm) true false lost)).
Proof.
  intros [Hok Hs Hr Hf] Hi Hn. rewrite NumCovered_spec in Hn.
  destruct (missing (fp_protected_packets fp)) as [|pm [|]] eqn:Em; try (cbn in Hn; lia).
  pose proof (Forall_lookup_1 _ _ _ _ Hf Hi) as Hfs.
  pose proof (Forall_lookup_1 _ _ _ _ (dok_fec _ _ Hok) Hi) as Hfo. rewrite Hs in Hfo.
  destruct (recover_sound fp pm Hfo Hfs Em) as (lost & Ho & Hrec). eauto.
Qed.

Lemma recovery_step_sound a a' :
  attempt_ok a -> dec_sound (at_st a) (at_recovered a) ->
  recovery_step a = Ok (Some a') -> dec_sound (at_st a') (at_recovered a').
Proof.
  intros Ha Hd Hstep.
  destruct (recovery_step_ok a Ha) as [[E _]|[[E _]|(a2 & E & Ha' & _ & Hs & _)]];
    rewrite Hstep in E; [done..|]. injection E as <-.
  enough (Hd' : Forall rec_sound (at_recovered a') /\ Forall fec_sound (received_fec_packets_ (at_st a'))).
  { split; [apply Ha'|rewrite Hs; apply Hd|apply Hd'..]. }
  revert Hstep. unfold recovery_step.
  destruct (received_fec_packets_ (at_st a) !! at_it a) as [fp|] eqn:Hfp; [|done].
  destruct (Nat.eqb_spec (NumCoveredPacketsMissing (fp_protected_packets fp)) 1) as [H1|H1].
  - destruct (repair_sound _ _ _ _ Hd Hfp H1) as (pm & lost & Hm & Ho & ->). cbn [mbind res_bind].
    set (rec := mkRecoveredPacket _ _ _ _ _).
    pose proof (publish_sub (at_recovered a) rec) as Hpub.
    destruct (publish (at_recovered a) rec) as [recovered' [|]]; [|done]. intros [= <-]. cbn. split.
    + apply Forall_forall. intros r Hr. destruct (Hpub r Hr) as [Hin| ->]; [|done].
      by apply (proj1 (Forall_forall _ _) (ds_rec _ _ Hd)).
    + apply Forall_delete, UpdateCovering_sound; [|apply Hd|done].
      rewrite <- (ds_ssrc _ _ Hd). apply Hd.
  - intros (old & _ & H2)%bind_ok_inv. destruct old; injection H2 as <-; cbn;
      (split; [apply Hd|]); [apply Forall_delete|]; apply Hd.
Qed.

Lemma recovery_loop_sound fuel : forall a a',
  attempt_ok a -> dec_sound (at_st a) (at_recovered a) ->
  recovery_loop fuel a = Ok a' -> dec_sound (at_st a') (at_recovered a').
Proof.
  induction fuel as [|fuel IH]; intros a a' Ha Hd; [done|]. cbn [recovery_loop].
  intros (next & Hstep & H2)%bind_ok_inv. destruct next as [a2|]; [|by injection H2 as <-].
  apply (IH a2); [|by eapply recovery_step_sound|done].
  destruct (recovery_step_ok a Ha) as [[E _]|[[E _]|(a3 & E & Ha' & _)]];
    rewrite Hstep in E; [done..|]. by injection E as <-.
Qed.

Lemma AttemptRecovery_sound st recovered a :
  dec_sound st recovered -> AttemptRecovery st recovered = Ok a ->
  dec_sound (at_st a) (at_recovered a).
Proof.
  intros Hd. apply recovery_loop_sound; [|done]. split; cbn; [apply Hd|lia|by rewrite take_0].
Qed.

Lemma reset_on_gap_sound st rp recovered :
  dec_sound st recovered ->
  dec_sound (fst (reset_on_gap st rp recovered)) (snd (reset_on_gap st rp recovered)).
Proof.
  intros Hd. pose proof (reset_on_gap_ok st rp recovered (ds_ok _ _ Hd)) as (Hok & Hs & _).
  split; [done|rewrite Hs; apply Hd|..]; unfold reset_on_gap;
    (destruct (last recovered) as [back|]; [destruct (_ && _ && _); [done|]|]; apply Hd).
Qed.

Lemma DecodeFec_sound_step st rp recovered st' recovered' n log :
  dec_sound st recovered -> genuine rp ->
  DecodeFec st rp recovered = Ok (st', recovered', n, log) -> dec_sound st' recovered'.
Proof.
  intros Hd Hg. unfold DecodeFec. pose proof (reset_on_gap_sound st rp recovered Hd) as Hd1.
  destruct (reset_on_gap st rp recovered) as [st1 rec1]. cbn [fst snd] in Hd1.
  intros ([st2 rec2] & H2 & H3)%bind_ok_inv. apply InsertPacket_sound in H2; [|done..].
  apply bind_ok_inv in H3 as (a & H3 & [= <- <- _ _]). by apply AttemptRecovery_sound in H3.
Qed.

End Sound.
