(* ===== verification/WindowSort.v ===== *)
(** * WindowSort: the decoder's lists inside a sequence number window

    [SortablePacket::LessThan] is not an order on all 16-bit numbers.  On the
    numbers of a half-circle window it is: there [std::list::sort] sorts, and
    the merge of [AssignRecoveredPackets] finds every common number. *)

From stdpp Require Import sorting.
From S2P Require Import Prelude FecTypes SeqNum FecDecoder DecoderLemmas.

(** [n] numbers from [base] on. *)
Definition in_window (base n s : Z) : Prop := is_u16 s /\ rel base s < n.

Definition before (s s' : Z) : Prop := LessThan s s' = true.

Lemma before_rel base n s s' :
  is_u16 base -> n <= 2 ^ 15 -> in_window base n s -> in_window base n s' ->
  before s s' <-> rel base s < rel base s'.
Proof.
  intros Hb Hn [Hs Hs1] [Hs' Hs1']. unfold before, LessThan.
  rewrite (IsNewer_window base) by (done || lia). apply Z.ltb_lt.
Qed.

(** Two numbers of a window are no farther apart than the window is wide. *)
Lemma MinDiff_window base n s s' :
  in_window base n s -> in_window base n s' -> MinDiff16 s s' < Z.max 1 n.
Proof.
  intros [Hs Hs1] [Hs' Hs1']. unfold rel in Hs1, Hs1'.
  unfold MinDiff16, ModOps.MinDiff, ModOps.ForwardDiff, ModOps.ReverseDiff. cbn [Z.eqb].
  unfold uw, in_uw in *. change (2 ^ 16) with 65536 in *. Z.div_mod_to_equations. lia.
Qed.

(** ** Sorting *)

Section MergeExt.
Context {A : Type} (R R' : relation A) `{!RelDecision R, !RelDecision R'} (P : A -> Prop).
Hypothesis agree : forall x y, P x -> P y -> R x y <-> R' x y.

Lemma list_merge_ext l1 l2 :
  Forall P l1 -> Forall P l2 -> list_merge R l1 l2 = list_merge R' l1 l2.
Proof.
  intros H1. revert l2. induction H1 as [|x l1 Hx H1 IH1]; intros l2 H2; [by rewrite !list_merge_nil_l|].
  induction H2 as [|y l2 Hy H2 IH2]; [by rewrite !list_merge_nil_r|]. rewrite !list_merge_cons.
  destruct (agree x y Hx Hy). destruct (decide (R x y)), (decide (R' x y)); try tauto; f_equal;
    [by apply IH1; constructor|done].
Qed.

Lemma list_merge_Forall l1 l2 : Forall P l1 -> Forall P l2 -> Forall P (list_merge R l1 l2).
Proof. intros. rewrite merge_Permutation. by apply Forall_app. Qed.

Definition stack_P (st : list (option (list A))) : Prop :=
  Forall (fun o => match o with Some l => Forall P l | None => True end) st.

Lemma merge_to_stack_ext st : forall l, stack_P st -> Forall P l ->
  merge_list_to_stack R st l = merge_list_to_stack R' st l /\ stack_P (merge_list_to_stack R st l).
Proof.
  induction st as [|[l'|] st IH]; intros l Hst Hl; cbn [merge_list_to_stack].
  - split; [done|]. by repeat constructor.
  - apply Forall_cons_1 in Hst as [Hl' Hst].
    destruct (IH (list_merge R l' l) Hst (list_merge_Forall _ _ Hl' Hl)) as [E HP].
    rewrite <- list_merge_ext by done. rewrite E in *. split; [done|]. by constructor.
  - apply Forall_cons_1 in Hst as [_ Hst]. split; [done|]. by constructor.
Qed.

Lemma merge_stack_ext st : stack_P st -> merge_stack R st = merge_stack R' st /\ Forall P (merge_stack R st).
Proof.
  induction 1 as [|[l|] st Hl Hst [IH IHP]]; cbn [merge_stack]; [done| |done].
  rewrite <- IH. split; [by apply list_merge_ext|by apply list_merge_Forall].
Qed.

Lemma merge_sort_ext l : Forall P l -> merge_sort R l = merge_sort R' l.
Proof.
  unfold merge_sort. intros Hl. assert (Hst : stack_P []) by constructor. revert Hst.
  generalize (@nil (option (list A))). induction Hl as [|x l Hx Hl IH]; intros st Hst; cbn [merge_sort_aux].
  - by apply merge_stack_ext.
  - destruct (merge_to_stack_ext st [x] Hst) as [<- HP]; [by constructor|]. by apply IH.
Qed.
End MergeExt.

Section Sorted.
Context {A : Type} (key : A -> Z) (base n : Z).
Hypothesis base_u16 : is_u16 base.
Hypothesis n_half : n <= 2 ^ 15.

Definition rel_le (x y : A) : Prop := rel base (key x) <= rel base (key y).
#[local] Instance rel_le_dec : RelDecision rel_le.
Proof. intros x y. unfold rel_le. apply _. Defined.
#[local] Instance not_after_reldec : RelDecision (not_after key).
Proof. intros x y. apply _. Defined.
#[local] Instance rel_le_total : Total rel_le.
Proof. intros x y. unfold rel_le. lia. Qed.
#[local] Instance rel_le_trans : Transitive rel_le.
Proof. intros x y z. unfold rel_le. lia. Qed.

(** Distinct numbers of a window come out in strict order. *)
Lemma list_sort_window l :
  Forall (fun x => in_window base n (key x)) l -> NoDup (map key l) ->
  StronglySorted before (map key (list_sort key l)).
Proof.
  intros Hw Hnd.
  assert (E : list_sort key l = merge_sort rel_le l).
  { unfold list_sort. apply (merge_sort_ext (not_after key) rel_le (fun x => in_window base n (key x))); [|done].
    intros x y Hx Hy. unfold not_after, rel_le. rewrite <- not_true_iff_false.
    change (~ before (key y) (key x) <-> rel base (key x) <= rel base (key y)).
    rewrite (before_rel base n) by done. lia. }
  pose proof (StronglySorted_merge_sort rel_le l) as Hs. rewrite <- E in Hs.
  pose proof (list_sort_perm key l) as Hp. rewrite <- Hp in Hw.
  assert (Hnd' : NoDup (map key (list_sort key l))) by (by rewrite Hp).
  clear E Hnd Hp. induction Hs as [|x l' Hs IH Hx]; [constructor|]. cbn [map] in *.
  apply Forall_cons_1 in Hw as [Hwx Hw]. apply NoDup_cons in Hnd' as [Hnx Hnd'].
  constructor; [by apply IH|]. apply List.Forall_map, Forall_forall. intros y Hy.
  pose proof (proj1 (Forall_forall _ _) Hx y Hy) as Hle.
  pose proof (proj1 (Forall_forall _ _) Hw y Hy) as Hwy. cbv beta in Hwy.
  apply (before_rel base n); [done..|]. unfold rel_le in Hle.
  destruct (Z.eq_dec (rel base (key x)) (rel base (key y))) as [Heq|]; [|lia].
  destruct Hnx. rewrite (rel_inj base _ _ (proj1 Hwx) (proj1 Hwy) Heq).
  apply list_elem_of_fmap. eauto.
Qed.
End Sorted.

(** ** The merge *)

(** The data a list of recovered packets has for a sequence number. *)
Definition known (recovered : list RecoveredPacket) : list Z := map rec_seq_num recovered.

Lemma before_irrefl s : ~ before s s.
Proof. unfold before, LessThan, IsNewerSequenceNumber. by rewrite IsNewer_irrefl. Qed.

Section Merge.
Context (base n : Z).
Hypothesis base_u16 : is_u16 base.
Hypothesis n_half : n <= 2 ^ 15.

Let W := in_window base n.

Lemma before_trans s1 s2 s3 : W s1 -> W s2 -> W s3 -> before s1 s2 -> before s2 s3 -> before s1 s3.
Proof. intros H1 H2 H3. rewrite !(before_rel base n) by done. lia. Qed.

Lemma before_total s1 s2 : W s1 -> W s2 -> ~ before s1 s2 -> s1 = s2 \/ before s2 s1.
Proof.
  intros H1 H2. rewrite !(before_rel base n) by done. intros Hn.
  destruct (Z.eq_dec (rel base s1) (rel base s2)) as [E|]; [left|right; lia].
  exact (rel_inj base _ _ (proj1 H1) (proj1 H2) E).
Qed.

(** A number before the head of a sorted list is not in it. *)
Lemma before_not_in s l :
  W s -> Forall W l -> StronglySorted before l -> Forall (fun y => before s y) (take 1 l) -> s ∉ l.
Proof.
  intros Hs Hw Hl Hh Hin. destruct Hl as [|y l Hl Hy]; [by apply not_elem_of_nil in Hin|].
  apply Forall_cons_1 in Hw as [Hwy Hw]. apply Forall_cons_1 in Hh as [Hsy _].
  apply elem_of_cons in Hin as [->|Hin]; [by apply (before_irrefl y)|].
  apply (before_irrefl s), (before_trans s y s); [done..|].
  exact (proj1 (Forall_forall _ _) Hy s Hin).
Qed.

Lemma Assign_seqs recovered pps :
  Forall W (known recovered) -> Forall W (map pp_seq_num pps) ->
  map pp_seq_num (AssignRecoveredPackets recovered pps) = map pp_seq_num pps.
Proof.
  intros Hr Hp. apply (refined_seqs (fun _ _ => True)), AssignRecovered_refined.
  - eapply Forall_impl; [exact (proj1 (List.Forall_map _ _ _) Hr)|]. intros x Hx. split; [apply Hx|done].
  - eapply Forall_impl; [exact (proj1 (List.Forall_map _ _ _) Hp)|]. intros x Hx. apply Hx.
Qed.

(** A data-less protected packet is one whose number is not known. *)
Definition synced (ks : list Z) (pps : list ProtectedPacket) : Prop :=
  Forall (fun pp => pp_pkt pp = None <-> pp_seq_num pp ∉ ks) pps.

Lemma synced_cons q ks pps :
  synced ks pps -> q ∉ map pp_seq_num pps -> synced (q :: ks) pps.
Proof.
  unfold synced. rewrite !Forall_forall. intros Hs Hq pp Hpp. rewrite (Hs pp Hpp), not_elem_of_cons.
  split; [|tauto]. intros Hk. split; [|done]. intros Heq. apply Hq, list_elem_of_fmap. eauto.
Qed.

Lemma Assign_complete recovered : forall pps,
  Forall W (known recovered) -> StronglySorted before (known recovered) ->
  Forall W (map pp_seq_num pps) -> StronglySorted before (map pp_seq_num pps) ->
  Forall (fun pp => pp_pkt pp = None) pps ->
  synced (known recovered) (AssignRecoveredPackets recovered pps).
Proof.
  induction recovered as [|r recovered IHr]; intros pps Hwr Hsr Hwp Hsp Hno.
  { assert (AssignRecoveredPackets [] pps = pps) as -> by (by destruct pps).
    eapply Forall_impl; [exact Hno|]. intros pp Hpp. split; [intros _; apply not_elem_of_nil|done]. }
  cbn [known map] in Hwr, Hsr |- *. fold (known recovered) in Hwr, Hsr |- *.
  pose proof Hwr as [Hwr1 Hwr2]%Forall_cons_1. pose proof Hsr as [Hsr2 Hsr1]%StronglySorted_inv.
  induction pps as [|p pps IHp]; [constructor|]. cbn [map] in Hwp, Hsp.
  pose proof Hwp as [Hwp1 Hwp2]%Forall_cons_1. pose proof Hsp as [Hsp2 Hsp1]%StronglySorted_inv.
  pose proof Hno as [Hno1 Hno2]%Forall_cons_1. cbn [AssignRecoveredPackets].
  destruct (LessThan (pp_seq_num p) (rec_seq_num r)) eqn:E1.
  { constructor; [|by apply IHp]. split; [|done]. intros _.
    apply before_not_in; [done|by constructor|by constructor|by repeat constructor]. }
  destruct (LessThan (rec_seq_num r) (pp_seq_num p)) eqn:E2.
  { apply synced_cons; [by apply IHr|]. rewrite Assign_seqs by done.
    apply before_not_in; [done..|]. by repeat constructor. }
  assert (pp_seq_num p = rec_seq_num r) as E
    by exact (LessThan_neither _ _ (proj1 Hwp1) (proj1 Hwr1) E1 E2).
  constructor.
  { cbn. split; [done|]. intros Hk. destruct Hk. rewrite E. left. }
  apply synced_cons; [by apply IHr|]. rewrite Assign_seqs, <- E by done. intros Hin.
  apply (before_irrefl (pp_seq_num p)). exact (proj1 (Forall_forall _ _) Hsp1 _ Hin).
Qed.
End Merge.
