(* ===== verification/Peeling.v ===== *)
(** * Peeling: a decoding session recovers exactly what peeling can recover

    Refinement of a whole session, packets fed to [DecodeFec] one after the
    other, to an abstract specification: the set of sequence numbers that is
    generated by the media packets received and closed under "all packets of
    a received FEC packet but one". *)

From stdpp Require Import sorting.
From S2P Require Import Prelude PacketMasks FecTypes SeqNum XorCode FecDecoder DecoderLemmas.
From S2P Require Import DecoderSafety DecoderSound WindowSort.

(** A receiver feeding its decoder. *)
Definition decode_session {R : FecHeaderReader} (packets : list ReceivedPacket)
    (st : Decoder) (recovered : list RecoveredPacket) : res (Decoder * list RecoveredPacket) :=
  foldM (fun '(st, recovered) rp =>
    let! (st, recovered, _, _) := DecodeFec st rp recovered in Ok (st, recovered))
  packets (st, recovered).

Section Peeling.
Context {R : FecHeaderReader} {RL : FecReaderLaws R}.
Context (media_ssrc : Z) (orig : Z -> option Packet) (mbase : Z).

(** The specification: what can be known after receiving [session]. *)
Inductive recoverable (session : list ReceivedPacket) : Z -> Prop :=
| recoverable_media rp :
    rp ∈ session -> rp_is_fec rp = false -> recoverable session (rp_seq_num rp)
| recoverable_fec rp q :
    rp ∈ session -> rp_is_fec rp = true -> q ∈ fec_seqs media_ssrc rp ->
    (forall q', q' ∈ fec_seqs media_ssrc rp -> q' <> q -> recoverable session q') ->
    recoverable session q.

(** A stream whose sequence numbers lie in a window the decoder's age limits
    do not cut. *)
Record stream_ok : Prop := {
  so_base : is_u16 mbase;
  so_orig : forall q p, orig q = Some p ->
    media_ok 1488 p /\ rtp_seq_num p = q /\ rtp_ssrc p = media_ssrc;
  so_window : forall q p, orig q = Some p -> rel mbase q <= kOldSequenceThreshold
}.

(** A session the decoder's buffers are made for. *)
Record session_ok (session : list ReceivedPacket) : Prop := {
  se_genuine : Forall (genuine media_ssrc orig) session;
  se_count : (length session <= MaxTrackedPackets)%nat;
  se_fec_count : (length (filter (fun rp => rp_is_fec rp = true) session) <= MaxStoredFecPackets)%nat;
  se_unique : forall rp rp', rp ∈ session -> rp' ∈ session -> rp_is_fec rp = true ->
    rp_is_fec rp' = true -> rp_seq_num rp = rp_seq_num rp' ->
    fec_seqs media_ssrc rp = fec_seqs media_ssrc rp';
  se_fresh : forall rp rp', rp ∈ session -> rp' ∈ session -> rp_is_fec rp' = true ->
    rp_ssrc rp = rp_ssrc rp' -> MinDiff16 (rp_seq_num rp) (rp_seq_num rp') <= kOldSequenceThreshold
}.

Hypothesis Hstream : stream_ok.
Context (session : list ReceivedPacket).
Hypothesis Hsession : session_ok session.

Let window : Z := kOldSequenceThreshold + 1.
Let W := in_window mbase window.

Lemma window_half : window <= 2 ^ 15.
Proof. unfold window, kOldSequenceThreshold. lia. Qed.

Lemma orig_window q p : orig q = Some p -> W q.
Proof.
  intros Ho. split.
  - exact (sound_seq_u16 media_ssrc orig (so_orig Hstream) q p Ho).
  - pose proof (so_window Hstream q p Ho). unfold window. lia.
Qed.

Lemma known_window recovered : Forall (rec_sound orig) recovered -> Forall W (known recovered).
Proof.
  intros Hr. apply List.Forall_map. eapply Forall_impl; [exact Hr|].
  intros r Ho. exact (orig_window _ _ Ho).
Qed.

Lemma fec_window fp : fec_sound orig fp -> Forall W (map pp_seq_num (fp_protected_packets fp)).
Proof.
  intros [_ _ _ (ps & Hst & _)]. apply List.Forall_map. induction Hst as [|pp p l l' [Ho _] _ IH]; [done|].
  constructor; [exact (orig_window _ _ Ho)|done].
Qed.

Lemma sorted_before_NoDup l : StronglySorted before l -> NoDup l.
Proof.
  induction 1 as [|x l Hs IH Hx]; constructor; [|done].
  intros Hin. apply (before_irrefl x). exact (proj1 (Forall_forall _ _) Hx x Hin).
Qed.

Lemma protected_sorted fp :
  fec_ok media_ssrc fp -> StronglySorted before (map pp_seq_num (fp_protected_packets fp)).
Proof.
  intros Hok. destruct (fok_seqs _ _ Hok) as (base & offs & Hb & Hs & Hlt & ->). clear Hok.
  induction Hs as [|o offs Hs IH Ho]; [constructor|].
  apply Forall_cons_1 in Hlt as [Hlo Hlt]. cbn [map]. constructor; [by apply IH|].
  apply List.Forall_map, Forall_forall. intros o' Ho'.
  pose proof (proj1 (Forall_forall _ _) Ho o' Ho') as Hoo.
  pose proof (proj1 (Forall_forall _ _) Hlt o' Ho') as Hlo'. cbv beta in Hlo'.
  unfold before. rewrite LessThan_window by (done || lia). apply Z.ltb_lt. lia.
Qed.

(** ** Inserting into the list of recovered packets *)

Lemma Discard_small {A} (l : list A) : (length l <= MaxTrackedPackets)%nat -> DiscardOldRecoveredPackets l = l.
Proof.
  intros Hl. unfold DiscardOldRecoveredPackets. by replace (length l - MaxTrackedPackets)%nat with 0%nat by lia.
Qed.

Lemma sort_window {A} (key : A -> Z) (l : list A) :
  Forall W (map key l) -> NoDup (map key l) -> StronglySorted before (map key (list_sort key l)).
Proof.
  intros Hw Hn. apply (list_sort_window key mbase window); [apply (so_base Hstream)|apply window_half| |done].
  by apply List.Forall_map.
Qed.

Lemma NoDup_snoc {A} (l : list A) x : NoDup l -> x ∉ l -> NoDup (l ++ [x]).
Proof.
  intros Hl Hx. rewrite Permutation_app_comm. by apply NoDup_cons.
Qed.

Lemma elem_of_snoc {A} (l : list A) x y : x ∈ l ++ [y] <-> x ∈ l \/ x = y.
Proof. by rewrite elem_of_app, list_elem_of_singleton. Qed.

Lemma insert_window recovered r :
  Forall W (known recovered) -> StronglySorted before (known recovered) ->
  W (rec_seq_num r) -> rec_seq_num r ∉ known recovered ->
  StronglySorted before (known (list_sort rec_seq_num (recovered ++ [r]))) /\
  known (list_sort rec_seq_num (recovered ++ [r])) ≡ₚ rec_seq_num r :: known recovered.
Proof.
  intros Hw Hs Hr Hn. split.
  - apply sort_window; rewrite map_app; [by apply Forall_app; split; [|constructor]|].
    by apply NoDup_snoc; [apply sorted_before_NoDup|].
  - unfold known. rewrite list_sort_perm, map_app. by rewrite Permutation_app_comm.
Qed.

Lemma publish_window recovered r :
  Forall W (known recovered) -> StronglySorted before (known recovered) ->
  W (rec_seq_num r) -> rec_seq_num r ∉ known recovered ->
  (length recovered < MaxTrackedPackets)%nat ->
  StronglySorted before (known (fst (publish recovered r))) /\
  known (fst (publish recovered r)) ≡ₚ rec_seq_num r :: known recovered /\
  snd (publish recovered r) = true.
Proof.
  intros Hw Hs Hr Hn Hl. unfold publish. cbn [fst snd].
  set (l := map (pair false) recovered ++ [(true, r)]). set (key := fun x : bool * RecoveredPacket => rec_seq_num (snd x)).
  assert (Hkey : map key l = known recovered ++ [rec_seq_num r]).
  { subst l. rewrite map_app, map_map. done. }
  rewrite Discard_small by (rewrite list_sort_length; subst l; rewrite length_app, length_map; cbn; lia).
  unfold known. rewrite map_map. fold key. split_and!.
  - apply sort_window; rewrite Hkey; [by apply Forall_app; split; [|constructor]|].
    by apply NoDup_snoc; [apply sorted_before_NoDup|].
  - rewrite list_sort_perm, Hkey. by rewrite Permutation_app_comm.
  - apply existsb_exists. exists (true, r). split; [|done].
    apply list_elem_of_In. rewrite list_sort_perm. subst l. apply elem_of_app. right. by left.
Qed.

(** ** The invariant *)

Definition fp_seqs (fp : ReceivedFecPacket) : list Z := map pp_seq_num (fp_protected_packets fp).

(** A received FEC packet is used up or still stored. *)
Definition accounted (st : Decoder) (recovered : list RecoveredPacket) (rp : ReceivedPacket) : Prop :=
  (forall q, q ∈ fec_seqs media_ssrc rp -> q ∈ known recovered) \/
  exists fp, fp ∈ received_fec_packets_ st /\ fp_seqs fp = fec_seqs media_ssrc rp.

(** A stored FEC packet is one of the session. *)
Definition received (fp : ReceivedFecPacket) : Prop :=
  exists rp, rp ∈ session /\ rp_is_fec rp = true /\ fp_seq_num fp = rp_seq_num rp /\
    fp_ssrc fp = rp_ssrc rp /\ fp_seqs fp = fec_seqs media_ssrc rp.

Record peel_inv (st : Decoder) (recovered : list RecoveredPacket) : Prop := {
  pi_sound : dec_sound media_ssrc orig st recovered;
  pi_sorted : StronglySorted before (known recovered);
  pi_sync : Forall (fun fp => synced (known recovered) (fp_protected_packets fp))
              (received_fec_packets_ st);
  pi_known : forall q, q ∈ known recovered -> recoverable session q;
  pi_from : Forall received (received_fec_packets_ st)
}.

Lemma synced_assign ks ks' q pkt pps :
  synced ks pps -> ks' ≡ₚ q :: ks -> synced ks' (assign_seq q pkt pps).
Proof.
  unfold synced, assign_seq. intros Hs Hk. apply Forall_fmap. eapply Forall_impl; [exact Hs|].
  intros pp Hpp. unfold compose. rewrite Hk, not_elem_of_cons.
  destruct (Z.eqb_spec (pp_seq_num pp) q) as [E|E]; cbn [pp_pkt pp_seq_num]; [|rewrite Hpp; tauto].
  split; [done|tauto].
Qed.

Lemma update_covering_fields r fp :
  fp_seqs (update_covering r fp) = fp_seqs fp /\
  fp_seq_num (update_covering r fp) = fp_seq_num fp /\ fp_ssrc (update_covering r fp) = fp_ssrc fp.
Proof.
  unfold update_covering. destruct (_ !! _) as [pp|] eqn:E; [|done]. destruct (_ =? _); [|done].
  split_and!; try done. unfold fp_seqs. cbn. rewrite list_fmap_insert. cbn.
  apply list_insert_id. by rewrite list_lookup_fmap, E.
Qed.

Lemma received_covering r fp : received fp -> received (update_covering r fp).
Proof.
  intros (rp & Hin & Hf & Hq & Hs & Hseqs). destruct (update_covering_fields r fp) as (E1 & E2 & E3).
  exists rp. split_and!; congruence.
Qed.

(** Learning a packet: what [InsertMediaPacket] and a repair have in common. *)
Lemma peel_inv_learn st recovered recovered' r :
  peel_inv st recovered ->
  dec_sound media_ssrc orig (UpdateCoveringFecPackets st r) recovered' ->
  StronglySorted before (known recovered') ->
  known recovered' ≡ₚ rec_seq_num r :: known recovered ->
  recoverable session (rec_seq_num r) ->
  peel_inv (UpdateCoveringFecPackets st r) recovered'.
Proof.
  intros [Hs Hsort Hsync Hk Hfrom] Hs' Hsort' Hperm Hrec. split; [done|done| | |]; cbn.
  - apply Forall_fmap, Forall_forall. intros fp Hfp.
    assert (Hok : fec_ok media_ssrc fp).
    { rewrite <- (ds_ssrc _ _ _ _ Hs). exact (proj1 (Forall_forall _ _) (dok_fec _ _ (ds_ok _ _ _ _ Hs)) fp Hfp). }
    cbn. rewrite (update_covering_spec 112) by (apply Hok || lia).
    eapply synced_assign; [exact (proj1 (Forall_forall _ _) Hsync fp Hfp)|done].
  - intros q. rewrite Hperm, elem_of_cons. intros [->|Hq]; auto.
  - apply Forall_fmap. eapply Forall_impl; [exact Hfrom|]. intros fp. apply received_covering.
Qed.

Lemma accounted_learn st recovered recovered' r rp :
  accounted st recovered rp -> known recovered' ≡ₚ rec_seq_num r :: known recovered ->
  accounted (UpdateCoveringFecPackets st r) recovered' rp.
Proof.
  intros [Hall|(fp & Hin & Hq)] Hp.
  - left. intros q Hq%Hall. rewrite Hp. by right.
  - right. destruct (update_covering_fields r fp) as (E1 & E2 & E3).
    exists (update_covering r fp). split; [|congruence]. cbn. apply list_elem_of_fmap. eauto.
Qed.

(** Erasing a stored packet all of whose packets are known. *)
Lemma dec_sound_erase st recovered i :
  dec_sound media_ssrc orig st recovered ->
  dec_sound media_ssrc orig (set_fec_packets st (delete i (received_fec_packets_ st))) recovered.
Proof. intros [Ho Hs Hr Hf]. split; [by apply erase_ok|done|done|cbn; by apply Forall_delete]. Qed.

Lemma peel_inv_erase st recovered i :
  peel_inv st recovered ->
  peel_inv (set_fec_packets st (delete i (received_fec_packets_ st))) recovered.
Proof.
  intros [Hs Hsort Hsync Hk Hfrom].
  split; [by apply dec_sound_erase|done|cbn; by apply Forall_delete|done|cbn; by apply Forall_delete].
Qed.

Lemma accounted_erase st recovered i fp rp :
  received_fec_packets_ st !! i = Some fp -> (forall q, q ∈ fp_seqs fp -> q ∈ known recovered) ->
  accounted st recovered rp ->
  accounted (set_fec_packets st (delete i (received_fec_packets_ st))) recovered rp.
Proof.
  intros Hi Hall [Hk|(fp' & Hin & Hq)]; [by left|].
  apply list_elem_of_lookup in Hin as [j Hj]. destruct (decide (j = i)) as [->|Hne].
  - left. rewrite <- Hq. rewrite Hi in Hj. injection Hj as <-. done.
  - right. exists fp'. split; [|done]. cbn. apply list_elem_of_lookup.
    destruct (decide (j < i)%nat).
    + exists j. by rewrite list_lookup_delete_lt.
    + exists (j - 1)%nat. rewrite list_lookup_delete_ge by lia. by replace (S (j - 1)) with j by lia.
Qed.

(** ** The recovery loop *)

Record peeled (done : list ReceivedPacket) (st : Decoder) (recovered : list RecoveredPacket) : Prop := {
  pe_inv : peel_inv st recovered;
  pe_media : forall rp, rp ∈ done -> rp_is_fec rp = false -> rp_seq_num rp ∈ known recovered;
  pe_fec : forall rp, rp ∈ done -> rp_is_fec rp = true -> accounted st recovered rp
}.

Lemma synced_known ks pps pp :
  synced ks pps -> pp ∈ pps -> pp ∉ missing pps -> pp_seq_num pp ∈ ks.
Proof.
  intros Hs Hin Hm. destruct (decide (pp_seq_num pp ∈ ks)) as [|Hno]; [done|]. destruct Hm.
  apply list_elem_of_filter. split; [|done]. by apply (proj1 (Forall_forall _ _) Hs pp Hin).
Qed.

Lemma synced_missing ks pps pp : synced ks pps -> pp ∈ missing pps -> pp_seq_num pp ∉ ks.
Proof.
  intros Hs [Hn Hin]%list_elem_of_filter. by apply (proj1 (Forall_forall _ _) Hs pp Hin).
Qed.

(** A repair is a step of the specification. *)
Lemma repair_recoverable st recovered fp pm :
  peel_inv st recovered -> fp ∈ received_fec_packets_ st ->
  missing (fp_protected_packets fp) = [pm] ->
  recoverable session (pp_seq_num pm) /\ (pp_seq_num pm ∉ known recovered) /\
  forall q, q ∈ fp_seqs fp -> q = pp_seq_num pm \/ q ∈ known recovered.
Proof.
  intros [Hs Hsort Hsync Hk Hfrom] Hfp Hm.
  pose proof (proj1 (Forall_forall _ _) Hsync fp Hfp) as Hsy. cbv beta in Hsy.
  assert (Hpm : pm ∈ missing (fp_protected_packets fp)) by (rewrite Hm; left).
  assert (Hothers : forall q, q ∈ fp_seqs fp -> q = pp_seq_num pm \/ q ∈ known recovered).
  { intros q (pp & -> & Hpp)%list_elem_of_fmap.
    destruct (decide (pp_seq_num pp ∈ known recovered)) as [|Hno]; [by right|left].
    assert (pp ∈ missing (fp_protected_packets fp)) as Hin.
    { apply list_elem_of_filter. split; [|done]. by apply (proj1 (Forall_forall _ _) Hsy pp Hpp). }
    rewrite Hm in Hin. apply list_elem_of_singleton in Hin. by subst. }
  split_and!; [|by apply (synced_missing _ _ _ Hsy)|done].
  destruct (proj1 (Forall_forall _ _) Hfrom fp Hfp) as (rp & Hin & Hfec & _ & _ & Hseqs).
  apply (recoverable_fec session rp); [done|done| |].
  - rewrite <- Hseqs. apply list_elem_of_fmap. exists pm. split; [done|].
    by apply list_elem_of_filter in Hpm as [_ ?].
  - rewrite <- Hseqs. intros q' Hq' Hne. apply Hk. by destruct (Hothers q' Hq').
Qed.

Lemma not_old fp recovered :
  Forall (rec_sound orig) recovered -> fec_sound orig fp ->
  IsOldFecPacket fp recovered <> Ok true.
Proof.
  intros Hr Hf. unfold IsOldFecPacket. destruct (last recovered) as [back|] eqn:Eb; [|done].
  destruct (last (fp_protected_packets fp)) as [pp|] eqn:Ep; [|done]. intros [= Hold%Z.ltb_lt].
  apply last_Some_elem_of in Eb, Ep.
  pose proof (orig_window _ _ (proj1 (Forall_forall _ _) Hr back Eb)) as Hw1.
  pose proof (proj1 (Forall_forall _ _) (proj1 (List.Forall_map _ _ _) (fec_window fp Hf)) pp Ep) as Hw2.
  pose proof (MinDiff_window _ _ _ _ Hw1 Hw2). subst window. unfold kOldSequenceThreshold in *. lia.
Qed.

Lemma repair_learn st recovered fp pm lost :
  peel_inv st recovered -> fp ∈ received_fec_packets_ st ->
  missing (fp_protected_packets fp) = [pm] -> orig (pp_seq_num pm) = Some lost ->
  (held st recovered <= MaxTrackedPackets)%nat ->
  let rec := mkRecoveredPacket media_ssrc (pp_seq_num pm) true false lost in
  exists recovered', publish recovered rec = (recovered', true) /\
    peel_inv (UpdateCoveringFecPackets st rec) recovered' /\
    known recovered' ≡ₚ rec_seq_num rec :: known recovered.
Proof.
  intros Hinv Hin Hm Ho Hheld rec. pose proof (pi_sound _ _ Hinv) as Hsound.
  destruct (repair_recoverable _ _ _ _ Hinv Hin Hm) as (Hrec & Hnew & _).
  assert (Hroom : (length recovered < MaxTrackedPackets)%nat).
  { apply list_elem_of_lookup in Hin as [i Hi%lookup_lt_Some]. unfold held in Hheld. lia. }
  destruct (publish_window recovered rec) as (Hsort & Hperm & Halive);
    [apply known_window, Hsound|apply Hinv|exact (orig_window _ _ Ho)|done|done|].
  pose proof (publish_sub recovered rec) as Hsub. pose proof (publish_ok recovered rec) as Hpok.
  destruct (publish recovered rec) as [recovered' alive]. cbn [fst snd] in *. subst alive.
  exists recovered'. split_and!; [done| |done].
  apply (peel_inv_learn _ recovered); try done.
  destruct Hsound as [[Hf Hfc Hr Hrc] Hs Hrs Hfs].
  assert (Ht : tracked_ok rec).
  { destruct (so_orig Hstream _ _ Ho) as ([Hbl Hll _] & _ & _). split; [split; [done|cbn; lia]|].
    exact (sound_seq_u16 _ _ (so_orig Hstream) _ _ Ho). }
  destruct (Hpok Hr Ht) as (Hp1 & Hp2 & _). split; [|done| |].
  - split; [exact (UpdateCovering_ok st rec Hf (proj1 Ht))| |done|done]. cbn. by rewrite length_map.
  - apply Forall_forall. intros r Hr'. destruct (Hsub r Hr') as [Hin'| ->]; [|done].
    exact (proj1 (Forall_forall _ _) Hrs r Hin').
  - apply (UpdateCovering_sound media_ssrc); [by rewrite <- Hs|done|done].
Qed.

Lemma recovery_step_peels done a a' :
  attempt_ok a -> peeled done (at_st a) (at_recovered a) ->
  (held (at_st a) (at_recovered a) <= MaxTrackedPackets)%nat ->
  recovery_step a = Ok (Some a') -> peeled done (at_st a') (at_recovered a').
Proof.
  intros Ha [Hinv Hmed Hfec] Hheld. unfold recovery_step.
  destruct (received_fec_packets_ (at_st a) !! at_it a) as [fp|] eqn:Hfp; [|done].
  pose proof (list_elem_of_lookup_2 _ _ _ Hfp) as Hin. pose proof (pi_sound _ _ Hinv) as Hsound.
  pose proof (proj1 (Forall_forall _ _) (pi_sync _ _ Hinv) fp Hin) as Hsy. cbv beta in Hsy.
  destruct (Nat.eqb_spec (NumCoveredPacketsMissing (fp_protected_packets fp)) 1) as [H1|H1].
  - destruct (repair_sound _ _ (so_orig Hstream) _ _ _ _ Hsound Hfp H1) as (pm & lost & Hm & Ho & ->).
    cbn [mbind res_bind]. destruct (repair_learn _ _ _ _ _ Hinv Hin Hm Ho Hheld) as (rec' & -> & Hlearn & Hperm).
    set (rec := mkRecoveredPacket _ _ _ _ _) in *. intros [= <-]. cbn [at_st at_recovered].
    destruct (repair_recoverable _ _ _ _ Hinv Hin Hm) as (_ & _ & Hothers). split.
    + exact (peel_inv_erase _ _ (at_it a) Hlearn).
    + intros rp Hrp Hf. rewrite Hperm. right. by apply Hmed.
    + intros rp Hrp Hf.
      apply (accounted_erase (UpdateCoveringFecPackets (at_st a) rec) _ (at_it a) (update_covering rec fp)).
      * cbn. by rewrite list_lookup_fmap, Hfp.
      * destruct (update_covering_fields rec fp) as (-> & _ & _). intros q Hq. rewrite Hperm.
        destruct (Hothers q Hq) as [->|]; [left|by right].
      * apply (accounted_learn _ (at_recovered a)); [by apply Hfec|done].
  - rewrite NumCovered_spec.
    destruct (Nat.eqb_spec (Nat.min 2 (length (missing (fp_protected_packets fp)))) 0) as [H0|H0];
      cbn [mbind res_bind].
    + intros [= <-]. cbn [at_st at_recovered].
      assert (Hm : missing (fp_protected_packets fp) = []) by (apply nil_length_inv; lia).
      split; [by apply peel_inv_erase|done|]. intros rp Hrp Hf.
      apply (accounted_erase _ _ (at_it a) fp); [done| |by apply Hfec].
      intros q (pp & -> & Hpp)%list_elem_of_fmap. apply (synced_known _ _ _ Hsy Hpp).
      rewrite Hm. apply not_elem_of_nil.
    + intros (old & Hold & H2)%bind_ok_inv. destruct old.
      * destruct (not_old fp (at_recovered a)); [apply Hsound| |done].
        exact (proj1 (Forall_forall _ _) (ds_fec _ _ _ _ Hsound) fp Hin).
      * injection H2 as <-. by split.
Qed.

Lemma recovery_loop_peels done fuel : forall a a',
  attempt_ok a -> peeled done (at_st a) (at_recovered a) ->
  (held (at_st a) (at_recovered a) <= MaxTrackedPackets)%nat ->
  recovery_loop fuel a = Ok a' -> peeled done (at_st a') (at_recovered a').
Proof.
  induction fuel as [|fuel IH]; intros a a' Ha Hp Hh; [done|]. cbn [recovery_loop].
  intros (next & Hstep & H2)%bind_ok_inv. destruct next as [a2|]; [|by injection H2 as <-].
  destruct (recovery_step_ok a Ha) as [[E _]|[[E _]|(a3 & E & Ha' & _ & _ & Hh')]];
    rewrite Hstep in E; [done..|]. injection E as <-.
  apply (IH a2); [done|exact (recovery_step_peels done a a2 Ha Hp Hh Hstep)|lia|done].
Qed.

(** ** Insertion *)

Lemma skip_old_fec st rp :
  Forall received (received_fec_packets_ st) -> rp ∈ session ->
  match received_fec_packets_ st with
  | [] => st
  | front :: _ =>
      if rp_ssrc rp =? fp_ssrc front
      then set_fec_packets st (discard_old_fec (rp_seq_num rp) (received_fec_packets_ st))
      else st
  end = st.
Proof.
  intros Hf Hrp. destruct (received_fec_packets_ st) as [|front fps] eqn:E; [done|].
  destruct (Z.eqb_spec (rp_ssrc rp) (fp_ssrc front)) as [Hs|]; [|done].
  apply Forall_cons_1 in Hf as [(rp' & Hin & Hfec & Hq & Hs' & _) _]. cbn [discard_old_fec].
  pose proof (se_fresh _ Hsession rp rp' Hrp Hin Hfec ltac:(congruence)) as Hdiff.
  rewrite Hq, (proj2 (Z.ltb_ge _ _)) by done. rewrite <- E. by destruct st.
Qed.

Lemma InsertMedia_peels done st recovered rp :
  peeled done st recovered -> rp ∈ session -> rp_is_fec rp = false ->
  peeled (done ++ [rp]) (fst (InsertMediaPacket st recovered rp))
    (snd (InsertMediaPacket st recovered rp)) \/
  (MaxTrackedPackets <= length recovered)%nat.
Proof.
  intros [Hinv Hmed Hfec] Hrp Ef. pose proof (pi_sound _ _ Hinv) as Hsound.
  pose proof (proj1 (Forall_forall _ _) (se_genuine _ Hsession) rp Hrp) as Hg.
  destruct (decide (MaxTrackedPackets <= length recovered)%nat) as [|Hroom]; [by right|left].
  unfold InsertMediaPacket. destruct (existsb _ _) eqn:Edup; cbn [fst snd].
  { apply existsb_exists in Edup as (r & Hr%list_elem_of_In & Heq%Z.eqb_eq). split; [done| |].
    - intros rp' [Hin| ->]%elem_of_snoc Hf; [by apply Hmed|].
      rewrite <- Heq. apply list_elem_of_fmap. eauto.
    - intros rp' [Hin| ->]%elem_of_snoc Hf; [by apply Hfec|congruence]. }
  set (r := mkRecoveredPacket _ _ _ _ _).
  assert (Ho : orig (rec_seq_num r) = Some (rec_pkt r)) by exact (gen_media _ _ _ Hg Ef).
  assert (Hnew : rec_seq_num r ∉ known recovered).
  { intros (r' & Heq & Hr')%list_elem_of_fmap. apply not_true_iff_false in Edup. apply Edup, existsb_exists.
    exists r'. split; [by apply list_elem_of_In|]. apply Z.eqb_eq. by rewrite <- Heq. }
  destruct (insert_window recovered r) as [Hsort Hperm];
    [apply known_window, Hsound|apply Hinv|exact (orig_window _ _ Ho)|done|].
  set (recovered' := list_sort rec_seq_num (recovered ++ [r])) in *. split.
  - apply (peel_inv_learn _ recovered); try done; [|by apply recoverable_media].
    destruct Hsound as [[Hf Hfc Hr Hrc] Hs Hrs Hfs].
    assert (Ht : tracked_ok r) by (split; [split|]; apply (gen_input _ _ _ Hg); done).
    split; [|done| |].
    + split; [exact (UpdateCovering_ok st r Hf (proj1 Ht))|cbn; by rewrite length_map| |].
      * apply list_sort_Forall, Forall_app. split; [done|by constructor].
      * subst recovered'. rewrite list_sort_length, length_app. cbn. lia.
    + apply list_sort_Forall, Forall_app. split; [done|by constructor].
    + apply (UpdateCovering_sound media_ssrc); [by rewrite <- Hs|done|done].
  - intros rp' [Hin| ->]%elem_of_snoc Hf; rewrite Hperm;
      [right; by apply Hmed|by left].
  - intros rp' [Hin| ->]%elem_of_snoc Hf; [|congruence].
    apply (accounted_learn _ recovered); [by apply Hfec|done].
Qed.

Lemma InsertFec_peels done st recovered rp st' :
  peeled done st recovered -> rp ∈ session -> rp_is_fec rp = true ->
  (length (received_fec_packets_ st) < MaxStoredFecPackets)%nat ->
  InsertFecPacket st recovered rp = Ok st' -> peeled (done ++ [rp]) st' recovered.
Proof.
  intros [Hinv Hmed Hfec] Hrp Ef Hroom Hins. pose proof (pi_sound _ _ Hinv) as Hsound.
  pose proof (proj1 (Forall_forall _ _) (se_genuine _ Hsession) rp Hrp) as Hg.
  pose proof (InsertFecPacket_sound _ _ _ _ _ _ Hsound Hg Ef Hins) as Hsound'.
  assert (Hmed' : forall rp', rp' ∈ done ++ [rp] -> rp_is_fec rp' = false -> rp_seq_num rp' ∈ known recovered)
    by (intros rp' [Hin| ->]%elem_of_snoc Hf; [by apply Hmed|congruence]).
  destruct (InsertFecPacket_cases media_ssrc st recovered rp (in_bytes _ (gen_input _ _ _ Hg))
      (ds_ssrc _ _ _ _ Hsound))
    as [[E Hskip]|(fp & stream & Hread & Hst & Hps & Hlen & Hseqs & _ & Hq & Hs & E)];
    rewrite Hins in E; injection E as ->.
  { split; [done..|]. intros rp' [Hin| ->]%elem_of_snoc Hf; [by apply Hfec|].
    destruct Hskip as [(fp & Hfp & Hq)|Hnil].
    - right. exists fp. split; [done|].
      destruct (proj1 (Forall_forall _ _) (pi_from _ _ Hinv) fp Hfp) as (rp' & Hin' & Hf' & Hq' & _ & ->).
      apply (se_unique _ Hsession); (done || congruence).
    - left. intros q. rewrite Hnil. intros []%not_elem_of_nil. }
  set (f := stored media_ssrc recovered fp stream) in *.
  assert (Htrim : trim (list_sort fp_seq_num (received_fec_packets_ st ++ [f]))
    = list_sort fp_seq_num (received_fec_packets_ st ++ [f])).
  { unfold trim. rewrite decide_False; [done|]. rewrite list_sort_length, length_app. cbn. lia. }
  rewrite Htrim in Hsound' |- *. set (fps' := list_sort _ _) in *.
  assert (Hp : fps' ≡ₚ received_fec_packets_ st ++ [f]) by apply list_sort_perm.
  assert (Hwp : Forall W (map pp_seq_num (protected_list media_ssrc fp stream))).
  { apply (fec_window (with_protected fp (protected_list media_ssrc fp stream))).
    exact (gen_fec _ _ _ Hg Ef fp stream Hread Hst Hps Hlen). }
  assert (Hfseqs : fp_seqs f = map pp_seq_num (protected_list media_ssrc fp stream))
    by (apply (Assign_seqs mbase window); [apply known_window, Hsound|done]).
  assert (Hok : fec_ok media_ssrc f).
  { pose proof (dok_fec _ _ (ds_ok _ _ _ _ Hsound')) as Hall. cbn in Hall. rewrite Hp in Hall.
    rewrite <- (ds_ssrc _ _ _ _ Hsound). apply Forall_app in Hall as [_ Hall].
    by apply Forall_cons_1 in Hall as [? _]. }
  split; [|done|].
  - split; [done|apply Hinv| |apply Hinv|]; cbn; rewrite Hp; apply Forall_app;
      (split; [apply Hinv|constructor; [|done]]).
    + apply (Assign_complete mbase window); [apply (so_base Hstream)|apply window_half|
        apply known_window, Hsound|apply Hinv|done| |].
      * rewrite <- Hfseqs. by apply protected_sorted.
      * apply Forall_fmap, Forall_true. done.
    + exists rp. split_and!; try done. congruence.
  - intros rp' [Hin| ->]%elem_of_snoc Hf.
    + destruct (Hfec rp' Hin Hf) as [Hall|(fp' & Hin' & Hq')]; [by left|right].
      exists fp'. split; [|done]. cbn. rewrite Hp. apply elem_of_app. by left.
    + right. exists f. split; [|congruence]. cbn. rewrite Hp. apply elem_of_app. right. by left.
Qed.

(** ** One packet, and a whole session *)

Definition fec_count (rps : list ReceivedPacket) : nat :=
  length (filter (fun rp => rp_is_fec rp = true) rps).

Lemma recovery_loop_stored fuel : forall a a', recovery_loop fuel a = Ok a' ->
  (length (received_fec_packets_ (at_st a')) <= length (received_fec_packets_ (at_st a)))%nat.
Proof.
  induction fuel as [|fuel IH]; intros a a'; [done|]. cbn [recovery_loop].
  intros (next & Hstep & H2)%bind_ok_inv. destruct next as [a2|]; [|injection H2 as <-; lia].
  apply IH in H2. etransitivity; [exact H2|]. clear H2 IH. revert Hstep. unfold recovery_step.
  destruct (_ !! _) as [fp|]; [|done]. pose proof (length_delete_le (received_fec_packets_ (at_st a)) (at_it a)).
  destruct (_ =? _)%nat.
  - intros (r & _ & H2)%bind_ok_inv. destruct r as [rec|]; [|injection H2 as <-; done].
    destruct (publish _ _) as [recovered' [|]]; [|done]. injection H2 as <-. cbn.
    etransitivity; [apply length_delete_le|]. by rewrite length_map.
  - intros (old & _ & H2)%bind_ok_inv. destruct old; injection H2 as <-; [done|cbn; lia].
Qed.

Lemma InsertPacket_peels done st recovered rp st' recovered' :
  peeled done st recovered -> rp ∈ session ->
  (length recovered < MaxTrackedPackets)%nat ->
  (length (received_fec_packets_ st) + fec_count [rp] <= MaxStoredFecPackets)%nat ->
  InsertPacket st rp recovered = Ok (st', recovered') ->
  peeled (done ++ [rp]) st' recovered' /\
  (length (received_fec_packets_ st') <= length (received_fec_packets_ st) + fec_count [rp])%nat.
Proof.
  intros Hp Hrp Hroom Hfroom. unfold InsertPacket, fec_count in *.
  rewrite (skip_old_fec st rp (pi_from _ _ (pe_inv _ _ _ Hp)) Hrp). rewrite filter_cons, filter_nil in *.
  intros ([st3 rec3] & H3 & [= <- <-])%bind_ok_inv. destruct (rp_is_fec rp) eqn:Ef.
  - rewrite decide_True in * by done. cbn [length] in *. apply bind_ok_inv in H3 as (st4 & H4 & [= <- <-]).
    rewrite Discard_small by lia. split.
    + apply (InsertFec_peels done st recovered rp); (done || lia).
    + pose proof (InsertFecPacket_held _ _ _ _ H4) as Hh. unfold held in Hh. lia.
  - rewrite decide_False in * by done. cbn [length] in *. injection H3 as H3.
    pose proof (f_equal fst H3) as E1. pose proof (f_equal snd H3) as E2. cbn [fst snd] in E1, E2. clear H3.
    assert (Hl : (length rec3 <= MaxTrackedPackets)%nat /\
      length (received_fec_packets_ st3) = length (received_fec_packets_ st)).
    { subst. unfold InsertMediaPacket. destruct (existsb _ _); cbn; [lia|].
      rewrite list_sort_length, length_app, length_map. cbn. lia. }
    rewrite Discard_small by apply Hl. split; [|lia].
    destruct (InsertMedia_peels done st recovered rp Hp Hrp Ef) as [Hok|]; [|lia]. by subst.
Qed.

(** State between two packets of a session. *)
Record resting (done : list ReceivedPacket) (st : Decoder) (recovered : list RecoveredPacket) : Prop := {
  rest_peeled : peeled done st recovered;
  rest_held : (held st recovered <= length done)%nat;
  rest_stored : (length (received_fec_packets_ st) <= fec_count done)%nat;
  rest_stuck : Forall (stuck recovered) (received_fec_packets_ st)
}.

Lemma DecodeFec_peels done rp rest st recovered :
  session = done ++ rp :: rest -> resting done st recovered ->
  exists st' recovered' n log, DecodeFec st rp recovered = Ok (st', recovered', n, log) /\
    resting (done ++ [rp]) st' recovered'.
Proof.
  intros Hsplit [Hp Hh Hst _].
  assert (Hrp : rp ∈ session) by (rewrite Hsplit; apply elem_of_app; right; left).
  pose proof (se_count _ Hsession) as Hcount. pose proof (se_fec_count _ Hsession) as Hfcount.
  rewrite Hsplit, length_app in Hcount. cbn [length] in Hcount.
  assert (Hfc : (fec_count done + fec_count [rp] <= MaxStoredFecPackets)%nat).
  { unfold fec_count. rewrite Hsplit in Hfcount. change (rp :: rest) with ([rp] ++ rest) in Hfcount.
    rewrite !filter_app, !length_app in Hfcount. lia. }
  pose proof (pi_sound _ _ (pe_inv _ _ _ Hp)) as Hsound.
  pose proof (proj1 (Forall_forall _ _) (se_genuine _ Hsession) rp Hrp) as Hg.
  assert (Hroom : (length recovered < MaxTrackedPackets)%nat) by (unfold held in Hh; lia).
  unfold DecodeFec. assert (reset_on_gap st rp recovered = (st, recovered)) as ->.
  { unfold reset_on_gap. destruct (last recovered); [|done].
    by rewrite (proj2 (Nat.eqb_neq _ _)) by lia. }
  destruct (InsertPacket_ok st rp recovered (ds_ok _ _ _ _ Hsound) (gen_input _ _ _ Hg))
    as (st2 & rec2 & Hins & Hok2 & _). rewrite Hins. cbn [mbind res_bind].
  pose proof (InsertPacket_held _ _ _ _ _ Hins) as Hh2.
  destruct (InsertPacket_peels done st recovered rp st2 rec2) as [Hp2 Hst2]; [done..|lia|done|].
  assert (Hheld2 : (held st2 rec2 <= MaxTrackedPackets)%nat) by lia.
  destruct (AttemptRecovery_ok st2 rec2 Hok2) as [(a & Ha & Hoka & Hstuck & _ & Hh3)|[_ Hfull]]; [|lia].
  rewrite Ha. cbn [mbind res_bind]. do 4 eexists. split; [done|]. unfold AttemptRecovery in Ha.
  pose proof (recovery_loop_stored _ _ _ Ha) as Hst3. cbn [at_st] in Hst3.
  apply (recovery_loop_peels (done ++ [rp])) in Ha; [|split; cbn; [done|lia|by rewrite take_0]|done|done].
  split; [done| |unfold fec_count in *; rewrite filter_app, length_app; lia|done].
  rewrite length_app. cbn [length]. lia.
Qed.

Lemma resting_init ssrc : resting [] (mkDecoder ssrc media_ssrc []) [].
Proof.
  split; [|cbn; lia|cbn; lia|done]. split; [|intros ? []%not_elem_of_nil..].
  split; [apply dec_sound_init|constructor|done|intros ? []%not_elem_of_nil|done].
Qed.

Lemma decode_session_resting rest : forall done st recovered,
  session = done ++ rest -> resting done st recovered ->
  exists st' recovered', decode_session rest st recovered = Ok (st', recovered') /\
    resting session st' recovered'.
Proof.
  induction rest as [|rp rest IH]; intros done st recovered Hsplit Hr.
  { rewrite app_nil_r in Hsplit. subst done. eauto. }
  unfold decode_session. cbn [foldM].
  destruct (DecodeFec_peels done rp rest st recovered Hsplit Hr) as (st1 & rec1 & n & log & -> & Hr1).
  cbn [mbind res_bind]. apply (IH (done ++ [rp])); [by rewrite <- (assoc_L (++))|done].
Qed.

(** Nothing is left to peel. *)
Lemma resting_complete st recovered q :
  resting session st recovered -> recoverable session q -> q ∈ known recovered.
Proof.
  intros [[Hinv Hmed Hfec] _ _ Hstuck]. induction 1 as [rp Hin Hf|rp q Hin Hf Hq _ IH]; [by apply Hmed|].
  destruct (decide (q ∈ known recovered)) as [|Hno]; [done|].
  destruct (Hfec rp Hin Hf) as [Hall|(fp & Hfp & Hseqs)]; [by apply Hall|].
  destruct (proj1 (Forall_forall _ _) Hstuck fp Hfp) as [Hm _]. exfalso.
  pose proof (proj1 (Forall_forall _ _) (pi_sync _ _ Hinv) fp Hfp) as Hsy. cbv beta in Hsy.
  assert (Hnd : NoDup (fp_seqs fp)).
  { apply sorted_before_NoDup, protected_sorted.
    rewrite <- (ds_ssrc _ _ _ _ (pi_sound _ _ Hinv)).
    exact (proj1 (Forall_forall _ _) (dok_fec _ _ (ds_ok _ _ _ _ (pi_sound _ _ Hinv))) fp Hfp). }
  assert (Hall : forall pp, pp ∈ missing (fp_protected_packets fp) -> pp_seq_num pp = q).
  { intros pp Hpp. pose proof (synced_missing _ _ _ Hsy Hpp) as Hn.
    destruct (Z.eq_dec (pp_seq_num pp) q) as [|Hne]; [done|]. destruct Hn. apply IH; [|done].
    rewrite <- Hseqs. apply list_elem_of_fmap. exists pp. split; [done|].
    by apply list_elem_of_filter in Hpp as [_ ?]. }
  assert (Hnd' : NoDup (map pp_seq_num (missing (fp_protected_packets fp)))).
  { eapply sublist_NoDup; [exact Hnd|]. unfold fp_seqs. apply (fmap_sublist pp_seq_num), sublist_filter. }
  destruct (missing (fp_protected_packets fp)) as [|p1 [|p2 l]]; [cbn in Hm; lia..|].
  cbn [map] in Hnd'. apply NoDup_cons in Hnd' as [Hn12 _]. apply Hn12.
  rewrite (Hall p1), (Hall p2) by (by repeat constructor). left.
Qed.

End Peeling.
