(* ===== verification/Transmission.v ===== *)
(** * Transmission: encoder and decoder together

    A batch of media packets is protected by [EncodeFec], media and FEC packets
    are sent, some are lost, the rest arrives in any order and is fed to
    [DecodeFec].  The decoder's view of the FEC packets is exactly the mask the
    encoder used, so losses the mask can repair are repaired. *)

From stdpp Require Import sorting.
From S2P Require Import Prelude PacketMasks MaskDesign FecTypes SeqNum XorCode FecEncoder.
From S2P Require Import EncoderCorrect EncodeFecSpec FecDecoder DecoderLemmas DecoderSafety.
From S2P Require Import DecoderSound WindowSort Peeling.

(** The originals of a batch, by sequence number. *)
Definition sent (media : list Packet) (q : Z) : option Packet :=
  snd <$> list_find (fun p => rtp_seq_num p = q) media.

Lemma sent_elem media q p : sent media q = Some p -> p ∈ media /\ rtp_seq_num p = q.
Proof.
  unfold sent. destruct (list_find _ media) as [[i p']|] eqn:E; [|done]. intros [= <-].
  apply list_find_Some in E as (Hi & Hq & _). split; [by eapply list_elem_of_lookup_2|done].
Qed.

Lemma offset_back base p :
  is_u16 (rtp_seq_num p) -> u16 (base + Z.of_nat (offset base p)) = rtp_seq_num p.
Proof.
  intros Hp. rewrite offset_Z. rewrite <- (uw_small 16 (rtp_seq_num p)) at 2 by done.
  unfold uw. rewrite Zplus_mod_idemp_r. f_equal. lia.
Qed.

Lemma sized_seq_u16 p : media_sized p -> is_u16 (rtp_seq_num p).
Proof. intros [Hb Hl]. by apply ParseSequenceNumber_ok. Qed.

Lemma batch_seq_inj media p q :
  media_batch media -> p ∈ media -> q ∈ media -> rtp_seq_num p = rtp_seq_num q -> p = q.
Proof.
  intros Hm [i Hi]%list_elem_of_lookup [j Hj]%list_elem_of_lookup Heq.
  assert (i = j) as ->; [|congruence].
  apply (NoDup_lookup (offsets media) i j (offset (base_seq media) p)).
  - apply sorted_NoDup, Hm.
  - by apply offsets_lookup.
  - rewrite (offsets_lookup _ _ _ Hj). unfold offset. by rewrite Heq.
Qed.

Lemma sent_self media p : media_batch media -> p ∈ media -> sent media (rtp_seq_num p) = Some p.
Proof.
  intros Hm Hp. unfold sent. destruct (list_find _ media) as [[i p']|] eqn:E.
  - apply list_find_Some in E as (Hi & Hq & _). cbn. f_equal.
    by apply (batch_seq_inj media); [|eapply list_elem_of_lookup_2| |].
  - apply list_find_None in E. by destruct (proj1 (Forall_forall _ _) E p Hp).
Qed.

Lemma select_sub f j l p : p ∈ select f j l -> p ∈ l.
Proof.
  revert j. induction l as [|q l IH]; intros j Hp; [done|]. cbn [select] in Hp.
  destruct (f j); [apply elem_of_cons in Hp as [->|Hp]; [left|]|]; right; by eapply IH.
Qed.

Lemma select_lookup f j l p :
  p ∈ select f j l -> exists i, l !! i = Some p /\ f (j + i)%nat = true.
Proof.
  revert j. induction l as [|q l IH]; intros j Hp; [by apply not_elem_of_nil in Hp|]. cbn [select] in Hp.
  assert (Hrest : p ∈ select f (S j) l -> exists i, (q :: l) !! i = Some p /\ f (j + i)%nat = true).
  { intros (i & Hi & Hf)%IH. exists (S i). split; [done|]. by rewrite Nat.add_succ_r. }
  destruct (f j) eqn:Ef; [|by apply Hrest].
  apply elem_of_cons in Hp as [->|Hp]; [|by apply Hrest]. exists 0%nat. by rewrite Nat.add_0_r.
Qed.

(** ** What goes over the wire *)

(** Packets as the receiver's RTP layer presents them. *)
Definition as_media (p : Packet) : ReceivedPacket :=
  mkReceivedPacket (rtp_ssrc p) (rtp_seq_num p) false false p.
Definition as_fec (ssrc seq_num : Z) (p : Packet) : ReceivedPacket :=
  mkReceivedPacket ssrc seq_num true false p.

Definition transmission (media fecs : list Packet) (fec_ssrc : Z) (fec_seq : nat -> Z)
    : list ReceivedPacket :=
  map as_media media ++ imap (fun r fec => as_fec fec_ssrc (fec_seq r) fec) fecs.

Lemma as_media_filter media : filter (fun rp => rp_is_fec rp = true) (map as_media media) = [].
Proof. induction media as [|p media IH]; [done|]. cbn [map]. by rewrite filter_cons, IH. Qed.

(** The sequence numbers FEC packet [r] protects. *)
Definition row_seqs (bit : nat -> nat -> bool) (media : list Packet) (r : nat) : list Z :=
  map rtp_seq_num (select (bit r) 0 media).

Section Transmission.
Context {R : FecHeaderReader} {W : FecHeaderWriter} {own : bool}.
Context {RL : FecReaderLaws R} {L : FecSchemeLaws R W own}.

(** Numbering of [n] FEC packets: in the media stream's own sequence number
    space (ULPFEC) or in a separate stream (FlexFEC). *)
Record numbering_ok (media : list Packet) (n : nat) (ssrc fec_ssrc : Z) (fec_seq : nat -> Z) : Prop := {
  nb_ssrc : own = true -> fec_ssrc = ssrc;
  nb_u16 : forall r, (r < n)%nat -> is_u16 (fec_seq r);
  nb_inj : forall r r', (r < n)%nat -> (r' < n)%nat -> fec_seq r = fec_seq r' -> r = r';
  nb_fec : forall r r', (r < n)%nat -> (r' < n)%nat ->
    MinDiff16 (fec_seq r) (fec_seq r') <= kOldSequenceThreshold;
  nb_media : fec_ssrc = ssrc -> forall p r, p ∈ media -> (r < n)%nat ->
    MinDiff16 (rtp_seq_num p) (fec_seq r) <= kOldSequenceThreshold
}.

(** A batch small enough that media and FEC packets fit into an IP packet. *)
Record batch_ok (media fecs : list Packet) (ssrc fec_ssrc : Z) (fec_seq : nat -> Z)
    (bit : nat -> nat -> bool) : Prop := {
  bo_batch : media_batch media;
  bo_span : (span media <= 48)%nat;
  bo_media : Forall (fun p => media_ok 1480 p /\ rtp_ssrc p = ssrc) media;
  bo_fecs : (length fecs <= 48)%nat;
  bo_reads : forall r fec, fecs !! r = Some fec ->
    reads_as (own := own) ssrc (base_seq media) (select (bit r) 0 media) fec /\
    select (bit r) 0 media <> [];
  bo_numbering : numbering_ok media (length fecs) ssrc fec_ssrc fec_seq
}.

Section Batch.
Context (media fecs : list Packet) (ssrc fec_ssrc : Z) (fec_seq : nat -> Z) (bit : nat -> nat -> bool).
Hypothesis Hb : batch_ok media fecs ssrc fec_ssrc fec_seq bit.

Lemma batch_base_u16 : is_u16 (base_seq media).
Proof.
  pose proof (batch_sized _ (bo_batch _ _ _ _ _ _ Hb)) as Hs. unfold base_seq.
  destruct media as [|p ps]; [split; by vm_compute|]. apply Forall_cons_1 in Hs as [Hp _].
  by apply sized_seq_u16.
Qed.

Lemma batch_stream : stream_ok ssrc (sent media) (base_seq media).
Proof.
  split.
  - apply batch_base_u16.
  - intros q p [Hp Hq]%sent_elem.
    destruct (proj1 (Forall_forall _ _) (bo_media _ _ _ _ _ _ Hb) p Hp) as [[Hbp Hl Hv] Hs].
    split_and!; [split; [done|lia|done]|done|done].
  - intros q p [Hp <-]%sent_elem. unfold rel. rewrite <- offset_Z.
    pose proof (offsets_below media (offset (base_seq media) p) (bo_batch _ _ _ _ _ _ Hb)) as Hlt.
    assert (offset (base_seq media) p < span media)%nat
      by (apply Hlt, list_elem_of_fmap; eauto).
    pose proof (bo_span _ _ _ _ _ _ Hb). unfold kOldSequenceThreshold. lia.
Qed.

(** The decoder reads off a FEC packet what the encoder's mask row says. *)
Lemma fec_row r fec q :
  fecs !! r = Some fec ->
  fec_seqs ssrc (as_fec fec_ssrc q fec) = row_seqs bit media r /\
  (is_u16 q -> genuine ssrc (sent media) (as_fec fec_ssrc q fec)).
Proof.
  intros Hr. destruct (bo_reads _ _ _ _ _ _ Hb r fec Hr) as [[Hbf Hreads] Hne].
  destruct (Hreads fec_ssrc q) as (fp & ps & Hread & _ & _ & _ & Hst & Hps & Hbase & Hmask & Hidx &
    Hhdr & Hplen & Hlen & Henc).
  set (prot := select (bit r) 0 media) in *.
  assert (Hssrc : ps_ssrc ps = ssrc)
    by (rewrite Hps; destruct own eqn:Eo; [by apply (nb_ssrc _ _ _ _ _ (bo_numbering _ _ _ _ _ _ Hb))|done]).
  assert (Hprot : forall p, p ∈ prot -> p ∈ media) by (intros p; apply select_sub).
  assert (Hback : forall p, p ∈ prot -> u16 (base_seq media + Z.of_nat (offset (base_seq media) p)) = rtp_seq_num p).
  { intros p Hp%Hprot. apply offset_back, sized_seq_u16.
    exact (proj1 (Forall_forall _ _) (batch_sized _ (bo_batch _ _ _ _ _ _ Hb)) p Hp). }
  split.
  - unfold fec_seqs. cbn [rp_ssrc rp_seq_num rp_pkt as_fec]. rewrite Hread, Hst, Hssrc, Z.eqb_refl.
    rewrite bool_decide_eq_true_2 by done. unfold protected_list, row_seqs. cbn [andb].
    rewrite Hidx, Hbase, !map_map. apply map_ext_in. intros p Hp%list_elem_of_In. by apply Hback.
  - intros Hq. split; [by split|done|]. cbn [rp_ssrc rp_seq_num rp_pkt as_fec].
    intros _ fp' stream Hread' Hst' _ _. rewrite Hread in Hread'. injection Hread' as <-.
    rewrite Hst in Hst'. injection Hst' as <-.
    assert (Hmax : (fp_protection_length fp < 1469)%nat).
    { rewrite Hplen. apply max_payload_bound; [|done]. apply Forall_forall. intros p Hp%Hprot.
      destruct (proj1 (Forall_forall _ _) (bo_media _ _ _ _ _ _ Hb) p Hp) as [[_ Hl _] _]. lia. }
    split; cbn [with_protected fp_pkt fp_fec_header_size fp_protection_length fp_protected_packets];
      [done|lia|lia|].
    exists prot. split; [|done]. unfold protected_list. rewrite Hidx, Hbase, map_map.
    assert (Hall : forall p, p ∈ prot -> stands_for (sent media)
      (protected_packet ssrc (base_seq media) (offset (base_seq media) p)) p).
    { intros p Hp. unfold stands_for, protected_packet. cbn. rewrite Hback by done.
      split; [|by left]. apply sent_self; [apply Hb|by apply Hprot]. }
    clear -Hall. induction prot as [|p prot IH]; cbn; constructor.
    + apply Hall. left.
    + apply IH. intros q Hq. apply Hall. by right.
Qed.

Lemma transmission_elem rp :
  rp ∈ transmission media fecs fec_ssrc fec_seq <->
  (exists p, p ∈ media /\ rp = as_media p) \/
  (exists r fec, fecs !! r = Some fec /\ rp = as_fec fec_ssrc (fec_seq r) fec).
Proof.
  unfold transmission. rewrite elem_of_app, list_elem_of_fmap, elem_of_lookup_imap.
  split; (intros [(p & H1 & H2)|(r & fec & H1 & H2)]; [left; exists p|right; exists r, fec]; by split).
Qed.

Lemma transmission_genuine rp :
  rp ∈ transmission media fecs fec_ssrc fec_seq -> genuine ssrc (sent media) rp.
Proof.
  intros [(p & Hp & ->)|(r & fec & Hr & ->)]%transmission_elem.
  - destruct (proj1 (Forall_forall _ _) (batch_sized _ (bo_batch _ _ _ _ _ _ Hb)) p Hp) as [Hbp Hlp].
    split; [|intros _; by apply sent_self; [apply Hb|]|done].
    split; [done|by apply sized_seq_u16|done].
  - apply (fec_row r fec (fec_seq r) Hr). apply (nb_u16 _ _ _ _ _ (bo_numbering _ _ _ _ _ _ Hb)). by eapply lookup_lt_Some.
Qed.

Lemma fec_count_transmission session :
  session ⊆+ transmission media fecs fec_ssrc fec_seq -> (fec_count session <= length fecs)%nat.
Proof.
  intros [k Hk]%submseteq_Permutation. unfold fec_count.
  assert (H : (length (filter (fun rp => rp_is_fec rp = true) (transmission media fecs fec_ssrc fec_seq))
    <= length fecs)%nat).
  { unfold transmission. rewrite filter_app, as_media_filter. cbn [app].
    etransitivity; [apply length_filter|]. by rewrite length_imap. }
  rewrite Hk, filter_app, length_app in H. lia.
Qed.

(** Any part of the transmission, in any order. *)
Lemma batch_session session :
  session ⊆+ transmission media fecs fec_ssrc fec_seq -> session_ok ssrc (sent media) session.
Proof.
  intros Hsub. assert (Hin : forall rp, rp ∈ session -> rp ∈ transmission media fecs fec_ssrc fec_seq)
    by (intros rp Hrp; exact (elem_of_submseteq _ _ rp Hrp Hsub)).
  pose proof (span_ge _ (bo_batch _ _ _ _ _ _ Hb)) as Hge. pose proof (bo_span _ _ _ _ _ _ Hb) as Hspan.
  pose proof (bo_fecs _ _ _ _ _ _ Hb) as Hfecs. split.
  - apply Forall_forall. intros rp Hrp. by apply transmission_genuine, Hin.
  - apply submseteq_length in Hsub. etransitivity; [exact Hsub|]. unfold transmission.
    rewrite length_app, length_map, length_imap. pose proof tracked_room. rewrite media_limit in *. lia.
  - etransitivity; [|apply stored_room]. rewrite fec_limit. etransitivity; [|exact Hfecs].
    by apply fec_count_transmission.
  - intros rp rp' Hrp Hrp' Hf Hf' Hq.
    apply Hin, transmission_elem in Hrp as [(p & _ & ->)|(r & fec & Hr & ->)]; [done|].
    apply Hin, transmission_elem in Hrp' as [(p & _ & ->)|(r' & fec' & Hr' & ->)]; [done|].
    cbn in Hq. assert (r = r') as <-; [|congruence].
    apply (nb_inj _ _ _ _ _ (bo_numbering _ _ _ _ _ _ Hb)); [by eapply lookup_lt_Some..|done].
  - intros rp rp' Hrp Hrp' Hf' Hs. pose proof (bo_numbering _ _ _ _ _ _ Hb) as Hn.
    apply Hin, transmission_elem in Hrp' as [(p' & _ & ->)|(r' & fec' & Hr'%lookup_lt_Some & ->)]; [done|].
    apply Hin, transmission_elem in Hrp as [(p & Hp & ->)|(r & fec & Hr%lookup_lt_Some & ->)].
    + apply (nb_media _ _ _ _ _ Hn); [|done|done]. cbn in Hs. rewrite <- Hs.
      by destruct (proj1 (Forall_forall _ _) (bo_media _ _ _ _ _ _ Hb) p Hp) as [_ ?].
    + by apply (nb_fec _ _ _ _ _ Hn).
Qed.

(** ** Peeling by the mask *)

Definition received_row (session : list ReceivedPacket) (r : nat) : Prop :=
  exists fec, fecs !! r = Some fec /\ as_fec fec_ssrc (fec_seq r) fec ∈ session.

(** Position [c] of the batch can be recovered. *)
Definition position_ok (session : list ReceivedPacket) (c : nat) : Prop :=
  forall p, media !! c = Some p -> recoverable ssrc session (rtp_seq_num p).

Lemma position_row session r c :
  received_row session r -> bit r c = true -> (c < length media)%nat ->
  (forall c', (c' < length media)%nat -> c' <> c -> bit r c' = true -> position_ok session c') ->
  position_ok session c.
Proof.
  intros (fec & Hr & Hin) Hc Hlt Hothers p Hp.
  destruct (fec_row r fec (fec_seq r) Hr) as [Hseqs _].
  apply (recoverable_fec _ _ (as_fec fec_ssrc (fec_seq r) fec)); [done|done|..]; rewrite Hseqs.
  - apply list_elem_of_fmap. exists p. split; [done|]. by eapply select_elem.
  - intros q' (p' & -> & (c' & Hc' & Hb')%select_lookup)%list_elem_of_fmap Hne.
    apply (Hothers c'); [by eapply lookup_lt_Some| |done|done]. intros ->. congruence.
Qed.

Lemma peel_step_positions session mask rb missing r :
  received_row session r -> (forall c, (c < length media)%nat -> bit r c = mask_bit mask rb r c) ->
  (forall c, (c < length media)%nat -> c ∉ missing -> position_ok session c) ->
  forall c, (c < length media)%nat -> c ∉ peel_step mask rb missing r -> position_ok session c.
Proof.
  intros Hr Hbit Hknown c Hc. unfold peel_step.
  destruct (row_missing mask rb r missing) as [|c0 [|]] eqn:E; [by apply Hknown| |by apply Hknown].
  intros Hno. destruct (decide (c = c0)) as [->|Hne]; cycle 1.
  { apply Hknown; [done|]. intros Hin. apply Hno, list_elem_of_filter. done. }
  assert (Hc0 : c0 ∈ row_missing mask rb r missing) by (rewrite E; left).
  apply list_elem_of_filter in Hc0 as [Hb0 _].
  apply (position_row session r); [done|by rewrite Hbit|done|]. intros c' Hc' Hne Hb'.
  apply Hknown; [done|]. intros Hin. apply Hne.
  assert (Hrow : c' ∈ row_missing mask rb r missing)
    by (apply list_elem_of_filter; split; [by rewrite <- Hbit|done]).
  rewrite E in Hrow. by apply list_elem_of_singleton in Hrow.
Qed.

Lemma peel_positions session mask rb rows fuel : forall missing,
  (forall r, r ∈ rows -> received_row session r) ->
  (forall r c, r ∈ rows -> (c < length media)%nat -> bit r c = mask_bit mask rb r c) ->
  (forall c, (c < length media)%nat -> c ∉ missing -> position_ok session c) ->
  forall c, (c < length media)%nat -> c ∉ peel fuel mask rb rows missing -> position_ok session c.
Proof.
  induction fuel as [|fuel IH]; intros missing Hr Hbit Hk; [done|]. cbn [peel].
  apply IH; [done|done|]. clear IH. revert missing Hk.
  induction rows as [|r rows IHr]; intros missing Hk; [done|]. cbn [foldl].
  apply IHr.
  - intros r' Hr'. apply Hr. by right.
  - intros r' c' Hr' Hc'. apply Hbit; [by right|done].
  - apply peel_step_positions; [apply Hr; left|intros c Hc; apply Hbit; [left|done]|done].
Qed.

(** ** Decoding *)

(** Every packet of the batch is in the decoder's list, byte for byte. *)
Definition delivered (recovered : list RecoveredPacket) : Prop :=
  forall p, p ∈ media -> exists r, r ∈ recovered /\ rec_seq_num r = rtp_seq_num p /\ rec_pkt r = p.

Lemma decode_batch dec_ssrc session :
  session ⊆+ transmission media fecs fec_ssrc fec_seq ->
  exists st recovered,
    decode_session session (mkDecoder dec_ssrc ssrc []) [] = Ok (st, recovered) /\
    (forall q, q ∈ known recovered <-> recoverable ssrc session q) /\
    (forall r, r ∈ recovered -> rec_pkt r ∈ media /\ rtp_seq_num (rec_pkt r) = rec_seq_num r).
Proof.
  intros Hsub. pose proof (batch_session session Hsub) as Hse.
  destruct (decode_session_resting ssrc (sent media) (base_seq media) batch_stream session Hse session []
    (mkDecoder dec_ssrc ssrc []) [] eq_refl (resting_init _ _ _ _)) as (st & recovered & Hdec & Hrest).
  exists st, recovered. split_and!; [done| |].
  - intros q. split; [|by apply (resting_complete ssrc (sent media) _ st)].
    apply (pi_known _ _ _ _ _ (pe_inv _ _ _ _ _ _ (rest_peeled _ _ _ _ _ _ Hrest))).
  - intros r Hr. apply sent_elem.
    pose proof (ds_rec _ _ _ _ (pi_sound _ _ _ _ _ (pe_inv _ _ _ _ _ _ (rest_peeled _ _ _ _ _ _ Hrest)))) as Hs.
    exact (proj1 (Forall_forall _ _) Hs r Hr).
Qed.

Lemma positions_delivered session recovered :
  (forall q, q ∈ known recovered <-> recoverable ssrc session q) ->
  (forall r, r ∈ recovered -> rec_pkt r ∈ media /\ rtp_seq_num (rec_pkt r) = rec_seq_num r) ->
  (forall c, (c < length media)%nat -> position_ok session c) -> delivered recovered.
Proof.
  intros Hk Hs Hpos p [c Hc]%list_elem_of_lookup.
  pose proof (Hpos c (lookup_lt_Some _ _ _ Hc) p Hc) as (r & Hq & Hr)%Hk%list_elem_of_fmap.
  exists r. split_and!; [done|done|]. destruct (Hs r Hr) as [Hin Heq].
  apply (batch_seq_inj media); [apply Hb|done|by eapply list_elem_of_lookup_2|congruence].
Qed.

(** ** Losses *)

Lemma transmission_media c p :
  media !! c = Some p -> transmission media fecs fec_ssrc fec_seq !! c = Some (as_media p).
Proof.
  intros Hc. unfold transmission. rewrite lookup_app_l by (rewrite length_map; by eapply lookup_lt_Some).
  by rewrite list_lookup_fmap, Hc.
Qed.

Lemma transmission_fec r fec :
  fecs !! r = Some fec ->
  transmission media fecs fec_ssrc fec_seq !! (length media + r)%nat = Some (as_fec fec_ssrc (fec_seq r) fec).
Proof.
  intros Hr. unfold transmission. rewrite lookup_app_r by (rewrite length_map; lia).
  rewrite length_map. replace (length media + r - length media)%nat with r by lia.
  by rewrite list_lookup_imap, Hr.
Qed.

(** [len] consecutive packets, from the [s]-th on, are lost. *)
Definition after_burst (s len : nat) (session : list ReceivedPacket) : Prop :=
  session ≡ₚ take s (transmission media fecs fec_ssrc fec_seq) ++
             drop (s + len) (transmission media fecs fec_ssrc fec_seq).

Lemma after_burst_sub s len session :
  after_burst s len session -> session ⊆+ transmission media fecs fec_ssrc fec_seq.
Proof.
  unfold after_burst. intros ->. set (tr := transmission _ _ _ _).
  rewrite <- (take_drop s tr) at 3. apply submseteq_app; [done|].
  rewrite <- drop_drop. apply sublist_submseteq, sublist_drop.
Qed.

Lemma after_burst_elem s len session i rp :
  after_burst s len session -> transmission media fecs fec_ssrc fec_seq !! i = Some rp ->
  ~ (s <= i < s + len)%nat -> rp ∈ session.
Proof.
  unfold after_burst. intros -> Hi Hout. apply elem_of_app. destruct (decide (i < s)%nat).
  - left. apply list_elem_of_lookup. exists i. by rewrite lookup_take_lt.
  - right. apply list_elem_of_lookup. exists (i - (s + len))%nat. rewrite lookup_drop.
    by replace (s + len + (i - (s + len)))%nat with i by lia.
Qed.

Lemma after_burst_position s len session c :
  after_burst s len session -> ~ (s <= c < s + len)%nat -> position_ok session c.
Proof.
  intros Hs Hc p Hp. apply (recoverable_media _ _ (as_media p)); [|done].
  by eapply after_burst_elem; [|apply transmission_media|].
Qed.

Lemma after_burst_row s len session r :
  after_burst s len session -> (r < length fecs)%nat -> ~ (s <= length media + r < s + len)%nat ->
  received_row session r.
Proof.
  intros Hs Hr Hout. destruct (lookup_lt_is_Some_2 fecs r Hr) as [fec Hf]. exists fec. split; [done|].
  by eapply after_burst_elem; [|apply transmission_fec|].
Qed.

End Batch.

(** ** Numberings *)

Lemma window_offset base o n :
  is_u16 base -> 0 <= o < n -> n <= 65536 -> in_window base n (u16 (base + o)).
Proof. intros Hb Ho Hn. split; [by apply uw_range|]. rewrite rel_window by (done || lia). lia. Qed.

Lemma offset_inj base o o' :
  is_u16 base -> 0 <= o < 65536 -> 0 <= o' < 65536 -> u16 (base + o) = u16 (base + o') -> o = o'.
Proof.
  intros Hb Ho Ho' E. rewrite <- (rel_window base o Hb Ho), <- (rel_window base o' Hb Ho'). by rewrite E.
Qed.

(** FEC packets numbered right after the media packets of the batch. *)
Lemma numbering_following media n ssrc :
  media_batch media -> (span media <= 48)%nat -> (n <= 48)%nat ->
  numbering_ok media n ssrc ssrc (fun r => u16 (base_seq media + Z.of_nat (span media + r))).
Proof.
  intros Hm Hspan Hn.
  assert (Hb : is_u16 (base_seq media)).
  { pose proof (batch_sized _ Hm) as Hs. unfold base_seq. destruct media as [|p ps]; [split; by vm_compute|].
    apply Forall_cons_1 in Hs as [Hp _]. by apply sized_seq_u16. }
  assert (Hw : forall r, (r < n)%nat ->
    in_window (base_seq media) 96 (u16 (base_seq media + Z.of_nat (span media + r))))
    by (intros r Hr; apply window_offset; [done|lia|lia]).
  split; [done| | | |].
  - intros r Hr. by apply uw_range.
  - intros r r' Hr Hr' E. cbv beta in E. apply offset_inj in E; [lia|done|lia|lia].
  - intros r r' Hr Hr'. pose proof (MinDiff_window _ _ _ _ (Hw r Hr) (Hw r' Hr')).
    unfold kOldSequenceThreshold. lia.
  - intros _ p r Hp Hr. unfold kOldSequenceThreshold.
    enough (Hpw : in_window (base_seq media) 96 (rtp_seq_num p))
      by (pose proof (MinDiff_window _ _ _ _ Hpw (Hw r Hr)); lia).
    rewrite <- (offset_back (base_seq media)) by
      (apply sized_seq_u16; exact (proj1 (Forall_forall _ _) (batch_sized _ Hm) p Hp)).
    assert (offset (base_seq media) p < span media)%nat
      by (apply offsets_below; [done|]; apply list_elem_of_fmap; eauto).
    apply window_offset; [done|lia|lia].
Qed.

(** A batch the encoder has protected. *)
Lemma encoded_batch e media pf imp uep ty ssrc :
  encoder_ok e -> media_batch media -> (span media <= 48)%nat ->
  Forall (fun p => media_ok 1480 p /\ rtp_ssrc p = ssrc) media ->
  1 <= pf <= 255 -> (imp <= length media)%nat ->
  let k := length media in
  let m := Z.to_nat (NumFecPackets (Z.of_nat k) pf) in
  exists e' fecs masks, valid_table (PickTable ty k) masks /\
    EncodeFec e media pf imp uep ty = Ok (e', 0, fecs) /\ encoder_ok e' /\
    (1 <= m <= k)%nat /\ (k <= 48)%nat /\ length fecs = m /\
    forall fec_ssrc fec_seq, numbering_ok media m ssrc fec_ssrc fec_seq ->
      batch_ok media fecs ssrc fec_ssrc fec_seq (generated_bit masks k m imp uep).
Proof.
  intros He Hm Hspan Hmedia Hpf Himp k m.
  assert (Hshort : short_media media).
  { eapply Forall_impl; [exact Hmedia|]. intros p [[_ Hl _] _]. lia. }
  destruct (EncodeFec_success e media pf imp uep ty He Hm Hshort Hspan Hpf Himp)
    as (e' & fecs & masks & Ht & Henc & He' & Hmk & Hk & Hlf & Hrows).
  exists e', fecs, masks. do 6 (split; [done|]). intros fec_ssrc fec_seq Hn.
  assert (Hhead : default 0 (rtp_ssrc <$> head media) = ssrc).
  { pose proof (batch_nonempty _ Hm). destruct media as [|p ps]; [done|].
    by apply Forall_cons_1 in Hmedia as [[_ Hs] _]. }
  destruct (generated_bit_ok masks _ k m imp uep Ht Hmk Hk Himp) as (_ & Hrow & _).
  split; try done.
  - lia.
  - intros r fec Hr. pose proof (lookup_lt_Some _ _ _ Hr) as Hlt. rewrite Hlf in Hlt.
    destruct (Hrows r Hlt) as (fec' & Hr' & Hreads). rewrite Hr in Hr'. injection Hr' as <-.
    rewrite Hhead in Hreads. split; [exact Hreads|].
    destruct (Hrow r Hlt) as (c & Hc & Hbc). destruct (lookup_lt_is_Some_2 media c Hc) as [p Hp].
    intros Hnil. pose proof (select_elem _ 0 media c p Hp Hbc) as Hel.
    rewrite Hnil in Hel. by apply not_elem_of_nil in Hel.
  - by rewrite Hlf.
Qed.

(** One packet lost: any FEC packet that protects it brings it back. *)
Lemma single_loss_positions media fecs ssrc fec_ssrc fec_seq masks imp uep ty c session :
  let k := length media in
  let m := length fecs in
  valid_table (PickTable ty k) masks -> (1 <= m <= k)%nat -> (k <= 48)%nat -> (imp <= k)%nat ->
  batch_ok media fecs ssrc fec_ssrc fec_seq (generated_bit masks k m imp uep) ->
  after_burst media fecs fec_ssrc fec_seq c 1 session ->
  forall c', (c' < k)%nat -> position_ok media ssrc session c'.
Proof.
  intros k m Ht Hmk Hk Himp Hbatch Hburst.
  assert (Hother : forall c', c' <> c -> position_ok media ssrc session c').
  { intros c' Hne. apply (after_burst_position media fecs ssrc fec_ssrc fec_seq c 1); [done|lia]. }
  intros c' Hc'. destruct (decide (c' = c)) as [->|Hne]; [|by apply Hother].
  destruct (generated_bit_ok masks _ k m imp uep Ht Hmk Hk Himp) as (_ & _ & Hcol).
  destruct (Hcol c Hc') as (r & Hr & Hbit).
  apply (position_row _ _ _ _ _ _ Hbatch session r); [|done|done|].
  - apply (after_burst_row media fecs fec_ssrc fec_seq c 1); [done|lia|lia].
  - intros c2 _ Hne _. by apply Hother.
Qed.

End Transmission.
