(* ===== verification/EncoderGuarantees.v ===== *)
(** * EncoderGuarantees: the properties of the header codecs, the XOR code and
      [EncodeFec] *)

From stdpp Require Import sorting.
From S2P Require Import Prelude PacketMasks MaskDesign FecTypes UlpfecHeader Flexfec03Header.
From S2P Require Import XorCode FecEncoder ZeroColumns EncoderCorrect EncodeFecSpec.

(** ** Header codecs *)

(** C30. The two header codecs in use, ULPFEC (RFC 5109) and FlexFEC-03.  Each
    reader is total on arbitrary bytes, never reads outside the packet, and an
    accepted packet has one stream whose mask lies inside the header.  Reader
    and writer are inverse: from a finalized packet the reader gets back the
    header size the encoder reserved, the base sequence number, the protection
    length, the protected positions, and every recovery byte in the place the
    XOR decoder expects.  The FlexFEC mask is cut into fields of 15, 31 and 63
    bits, each behind its K-bit and present only as far as the mask needs it,
    and that header carries the SSRC of the protected stream. *)
Theorem header_schemes :
  (FecReaderLaws Ulpfec.UlpfecHeaderReader /\
   FecSchemeLaws Ulpfec.UlpfecHeaderReader Ulpfec.UlpfecHeaderWriter true) /\
  FecReaderLaws Flexfec03.Flexfec03HeaderReader /\
  FecSchemeLaws Flexfec03.Flexfec03HeaderReader Flexfec03.Flexfec03HeaderWriter false.
Proof. split_and!; apply _. Qed.

(** ** The XOR code *)

(** [RecoverPacket] on any bytes: given media packets with at least an RTP
    header it terminates without leaving a buffer, and a recovered packet has
    a full RTP header, is small enough for an IP packet, is marked recovered
    and not returned, and carries the identity of the last missing packet. *)
Lemma RecoverPacket_safe fp rec :
  bytes (fp_pkt fp) -> (12 <= fp_fec_header_size fp)%nat ->
  Forall media_sized (present (fp_protected_packets fp)) ->
  exists r, RecoverPacket fp rec = Ok r /\
    forall rec', r = Some rec' ->
      bytes (rec_pkt rec') /\ (12 <= length (rec_pkt rec') <= 1488)%nat /\
      rec_was_recovered rec' = true /\ rec_returned rec' = false /\
      (rec_ssrc rec', rec_seq_num rec') =
        recovered_id (rec_ssrc rec, rec_seq_num rec) (fp_protected_packets fp).
Proof. apply RecoverPacket_total. Qed.

(** The code corrects one erasure: when exactly one protected packet is
    missing and the FEC packet is the parity of it and the packets present,
    [RecoverPacket] returns that packet, identical in every byte (version
    bits, sequence number and SSRC, which the parity does not carry,
    included). *)
Lemma RecoverPacket_correct fp pm lost :
  bytes (fp_pkt fp) -> (12 <= fp_fec_header_size fp)%nat ->
  length (fp_pkt fp) = (fp_fec_header_size fp + fp_protection_length fp)%nat ->
  (length (fp_pkt fp) <= 1500)%nat -> (fp_protection_length fp <= 1488)%nat ->
  missing (fp_protected_packets fp) = [pm] ->
  Forall media_sized (present (fp_protected_packets fp)) ->
  media_ok 1488 lost -> rtp_seq_num lost = pp_seq_num pm -> rtp_ssrc lost = pp_ssrc pm ->
  encodes (fp_fec_header_size fp) (fp_pkt fp) (lost :: present (fp_protected_packets fp)) ->
  RecoverPacket fp new_recovered_packet =
    Ok (Some (mkRecoveredPacket (pp_ssrc pm) (pp_seq_num pm) true false lost)).
Proof. apply RecoverPacket_exact. Qed.

(** Two media packets of different length. *)
Definition media_a : Packet := [0x80; 96; 0; 5; 1; 2; 3; 4; 0; 0; 0; 9; 10; 20; 30].
Definition media_b : Packet := [0x90; 224; 0; 6; 5; 6; 7; 8; 0; 0; 0; 9; 40].

(** ** The encoder *)

Section Encoder.
Context {R : FecHeaderReader} {W : FecHeaderWriter} {own : bool} {L : FecSchemeLaws R W own}.

(** [InsertZerosInPacketMasks] adapts the masks to gaps in the sequence
    numbers.  A batch spread over more than 48 numbers is refused with -1 and
    nothing changed; otherwise the result is the spread, and in the new mask
    column [offset of packet j] is column [j] of the old mask and every other
    column is zero. *)
Lemma InsertZerosInPacketMasks_correct e media m :
  media_batch media -> masks_sized e ->
  packet_mask_size_ e = PacketMaskSize (length media) -> (1 <= m <= length media)%nat -> (length media <= 48)%nat ->
  (forall r c, (r < m)%nat -> (length media <= c < 8 * PacketMaskSize (length media))%nat ->
     mask_bit (packet_masks_ e) (PacketMaskSize (length media)) r c = false) ->
  ((48 < span media)%nat -> InsertZerosInPacketMasks e media m = Ok (e, -1)) /\
  ((span media <= 48)%nat ->
   exists e', InsertZerosInPacketMasks e media m = Ok (e', Z.of_nat (span media)) /\
     masks_sized e' /\ generated_fec_packets_ e' = generated_fec_packets_ e /\
     forall r c, (r < m)%nat -> (c < 8 * PacketMaskSize (span media))%nat ->
       mask_bit (packet_masks_ e') (PacketMaskSize (span media)) r c =
       spread_bit (packet_masks_ e) (PacketMaskSize (length media)) (offsets media) r c).
Proof.
  intros Hm Hs Hsz Hmk Hk Hr. split; intros Hspan.
  - apply InsertZeros_refuse; [apply media_limit|done|lia|done].
  - apply InsertZeros_spread; try done. apply media_limit.
Qed.

(** C29. [EncodeFec] on a batch in sequence order (gaps and wrap-around allowed)
    that spans at most 48 numbers: it succeeds with as many FEC packets as the
    protection factor asks for, leaves the encoder ready for the next batch,
    and FEC packet [r], parsed by the scheme's own reader, protects exactly the
    media packets that row [r] of the generated mask selects, is their parity,
    and is as long as header plus longest payload. *)
Theorem EncodeFec_correct e media pf imp uep ty :
  encoder_ok e -> media_batch media -> short_media media ->
  (span media <= 48)%nat -> 1 <= pf <= 255 -> (imp <= length media)%nat ->
  let k := length media in
  let m := Z.to_nat (NumFecPackets (Z.of_nat k) pf) in
  exists e' fecs masks, valid_table (PickTable ty k) masks /\
    EncodeFec e media pf imp uep ty = Ok (e', 0, fecs) /\ encoder_ok e' /\
    (1 <= m <= k)%nat /\ (k <= 48)%nat /\ length fecs = m /\
    forall r, (r < m)%nat -> exists fec, fecs !! r = Some fec /\
      reads_as (own := own) (default 0 (rtp_ssrc <$> head media)) (base_seq media)
        (select (generated_bit masks k m imp uep r) 0 media) fec.
Proof. apply EncodeFec_success. Qed.

Lemma EncodeFec_wide e media pf imp uep ty :
  encoder_ok e -> media_batch media -> (length media <= 48)%nat -> (48 < span media)%nat ->
  1 <= pf <= 255 -> (imp <= length media)%nat ->
  exists e', EncodeFec e media pf imp uep ty = Ok (e', -1, []) /\ encoder_ok e'.
Proof.
  intros [(Hl1 & Hl2 & Hb1 & Hb2) Hgen] Hm Hk Hspan Hpf Himp. set (k := length media) in *.
  set (m := Z.to_nat (NumFecPackets (Z.of_nat k) pf)).
  assert (Hk1 : (1 <= k)%nat) by (pose proof (batch_nonempty _ Hm); subst k; destruct media; [done|cbn; lia]).
  destruct (NumFecPackets_bounds (Z.of_nat k) pf) as [Hn Hnz]; [lia|lia|].
  assert (Hmk : (1 <= m <= k)%nat) by (subst m; lia).
  unfold EncodeFec. fold k m. rewrite decide_False by (rewrite media_limit; lia).
  destruct (existsb _ media); [eexists; split; [done|by repeat split]|].
  rewrite (decide_False (P := m = 0%nat)) by lia.
  destruct (prepare_packets_spec (generated_fec_packets_ e) m) as (ps0 & -> & Hps0 & _); [lia|].
  cbn [mbind res_bind]. destruct (PickTable_valid ty k) as [masks Ht].
  pose proof (PacketMaskSize_max k m ltac:(lia) Hk) as Hmax.
  change (packet_mask_size_ _) with (PacketMaskSize k).
  destruct (memset0_cleared (packet_masks_ e) (m * PacketMaskSize k) Hl1 Hb1 Hmax) as (z & Hz0 & Hz).
  change (packet_masks_ (set_mask_size _ _)) with (packet_masks_ e). rewrite Hz0. cbn [mbind res_bind].
  destruct (GeneratePacketMasks_exact _ masks k m imp uep z Hz Ht Hmk Hk Himp) as (pm & -> & Hpm & Hpmb & _).
  cbn [mbind res_bind]. rewrite InsertZeros_refuse by (apply media_limit || done || lia).
  cbn [mbind res_bind]. eexists. split; [done|]. split; [|cbn; congruence]. by split.
Qed.

(** C34. The error paths of [EncodeFec]: more than 48 media packets or a packet
    shorter than an RTP header give -1 before anything is changed; protection
    factor 0 gives success without FEC packets; a batch spread over more than
    48 sequence numbers gives -1 without FEC packets. *)
Theorem EncodeFec_refuses e media pf imp uep ty :
  (((48 < length media)%nat \/ exists p, p ∈ media /\ (length p < 12)%nat) ->
     EncodeFec e media pf imp uep ty = Ok (e, -1, [])) /\
  (encoder_ok e -> media_batch media -> (length media <= 48)%nat -> (imp <= length media)%nat ->
     (pf = 0 -> EncodeFec e media pf imp uep ty = Ok (e, 0, [])) /\
     (1 <= pf <= 255 -> (48 < span media)%nat ->
        exists e', EncodeFec e media pf imp uep ty = Ok (e', -1, []))).
Proof.
  split.
  - intros Hbad. unfold EncodeFec. rewrite media_limit. case_decide; [done|].
    destruct Hbad as [|(p & Hp & Hlt)]; [lia|]. replace (existsb _ media) with true; [done|].
    symmetry. apply existsb_exists. exists p. split; [by apply list_elem_of_In|].
    unfold kRtpHeaderSize. by apply Nat.ltb_lt.
  - intros He Hm Hk Himp. split; [intros ->|intros Hpf Hspan].
    2:{ destruct (EncodeFec_wide e media pf imp uep ty) as (e' & ? & _); [done..|by exists e']. }
    unfold EncodeFec. rewrite decide_False by (rewrite media_limit; lia).
    replace (existsb _ media) with false.
    + unfold NumFecPackets. rewrite Z.mul_0_r. cbn. done.
    + symmetry. apply not_true_is_false. rewrite existsb_exists. intros (p & Hp%list_elem_of_In & Hlt%Nat.ltb_lt).
      destruct (proj1 (Forall_forall _ _) (batch_sized _ Hm) p Hp) as [_ ?].
      unfold kRtpHeaderSize in Hlt. lia.
Qed.
End Encoder.

(** ** Witnesses: a batch of three packets with a gap *)

Definition encoder0 : Encoder := mkEncoder (replicate 48 []) (replicate 288 0) (replicate 288 0) 0.

Definition media_c : Packet := [0x80; 96; 0; 9; 0; 0; 0; 0; 0; 0; 0; 9; 77; 78].
Definition batch_abc : list Packet := [media_a; media_b; media_c].

Lemma encoder0_ok : encoder_ok encoder0.
Proof.
  split; [|done]. split_and!; [done..| |]; apply Forall_replicate; split; by vm_compute.
Qed.

Lemma batch_abc_ok : media_batch batch_abc.
Proof.
  split; [done| |].
  - repeat (apply Forall_cons_2; [split; [compute_bytes|compute_le]|]). done.
  - change (StronglySorted lt [0%nat; 1%nat; 4%nat]). by repeat constructor.
Qed.

Lemma EncodeFec_correct_witness :
  exists e' fecs, EncodeFec (W := Ulpfec.UlpfecHeaderWriter) encoder0 batch_abc 128 0 false kFecMaskRandom
                  = Ok (e', 0, fecs) /\ length fecs = 2%nat.
Proof.
  destruct (EncodeFec_correct (R := Ulpfec.UlpfecHeaderReader) (W := Ulpfec.UlpfecHeaderWriter) (own := true) encoder0 batch_abc 128 0 false kFecMaskRandom
    encoder0_ok batch_abc_ok ltac:(repeat constructor) ltac:(compute_le) ltac:(lia)
    ltac:(compute_le)) as (e' & fecs & masks & _ & H & _ & _ & _ & Hl & _).
  exists e', fecs. split; [exact H|exact Hl].
Defined.

Lemma EncodeFec_refuses_witness :
  EncodeFec (W := Ulpfec.UlpfecHeaderWriter) encoder0 [[1; 2; 3]] 128 0 false kFecMaskRandom
  = Ok (encoder0, -1, []).
Proof.
  apply (EncodeFec_refuses (R := Ulpfec.UlpfecHeaderReader) (W := Ulpfec.UlpfecHeaderWriter) (own := true)). right. exists [1; 2; 3].
  split; [left|compute_le].
Defined.
