(* ===== verification/DecoderGuarantees.v ===== *)
(** * DecoderGuarantees: the properties of [DecodeFec], alone and together with
      [EncodeFec] *)

From stdpp Require Import sorting.
From S2P Require Import Prelude PacketMasks MaskDesign FecTypes SeqNum UlpfecHeader XorCode.
From S2P Require Import FecEncoder EncoderCorrect EncodeFecSpec EncoderGuarantees FecDecoder.
From S2P Require Import DecoderLemmas DecoderSafety DecoderSound WindowSort Peeling Transmission.

(** ** The pieces *)

(** ** The decoder on its own *)

Section Decoder.
Context {R : FecHeaderReader} {RL : FecReaderLaws R}.

(** C13. Safety and termination of [DecodeFec] on arbitrary input: any bytes as FEC
    packet and any packet with an RTP header as media packet.  From a
    well-formed state it ends (the fuel of the recovery loop always suffices),
    reads and writes inside its buffers, keeps the bounds of both packet lists
    and stops only when every stored FEC packet misses at least two packets
    and is not too old.  The only fault possible is the use after free of the
    log statement, and only once the decoder holds as many packets as it
    tracks. *)
Theorem DecodeFec_safe st rp recovered :
  decoder_ok st recovered -> input_ok rp ->
  (exists st' recovered' n log, DecodeFec st rp recovered = Ok (st', recovered', n, log) /\
     decoder_ok st' recovered' /\ Forall (stuck recovered') (received_fec_packets_ st') /\
     protected_media_ssrc_ st' = protected_media_ssrc_ st /\
     (held st' recovered' <= held st recovered + 1)%nat) \/
  (DecodeFec st rp recovered = Fault UseAfterFree /\ (MaxTrackedPackets <= held st recovered)%nat).
Proof. apply DecodeFec_ok. Qed.

(** Soundness of [DecodeFec]: if the media packets that arrive are those sent
    and the FEC packets that arrive and pass the reader are parities of packets
    sent, then in every state every packet on the recovered list, received or
    reconstructed, is the original, byte for byte, and every stored FEC packet
    remains such a parity. *)
Lemma DecodeFec_sound media_ssrc orig st rp recovered :
  (forall q p, orig q = Some p ->
     media_ok 1488 p /\ rtp_seq_num p = q /\ rtp_ssrc p = media_ssrc) ->
  dec_sound media_ssrc orig st recovered -> genuine media_ssrc orig rp ->
  (exists st' recovered' n log, DecodeFec st rp recovered = Ok (st', recovered', n, log) /\
     dec_sound media_ssrc orig st' recovered' /\
     forall r, r ∈ recovered' -> orig (rec_seq_num r) = Some (rec_pkt r)) \/
  DecodeFec st rp recovered = Fault UseAfterFree.
Proof.
  intros Ho Hd Hg. destruct (DecodeFec_ok st rp recovered (ds_ok _ _ _ _ Hd) (gen_input _ _ _ Hg))
    as [(st' & rec' & n & log & Hdec & _)|[Hf _]]; [left|by right].
  pose proof (DecodeFec_sound_step _ _ Ho _ _ _ _ _ _ _ Hd Hg Hdec) as Hd'.
  exists st', rec', n, log. split_and!; [done|done|]. intros r Hr.
  exact (proj1 (Forall_forall _ _) (ds_rec _ _ _ _ Hd') r Hr).
Qed.

(** C4. Refinement of a whole session.  Feed up to [MaxTrackedPackets] packets, in
    any order, of which at most [MaxStoredFecPackets] are FEC packets, to a new
    decoder: every call succeeds, and the sequence numbers recovered at the end
    are exactly those of the specification [recoverable] - the closure of the
    media packets received under "one missing packet of a FEC packet" - each
    with the original's bytes.  Neither the order of arrival nor the
    bookkeeping (sorting, covering updates, early discards) loses a packet. *)
Theorem decode_session_exact media_ssrc orig mbase dec_ssrc session :
  stream_ok media_ssrc orig mbase -> session_ok media_ssrc orig session ->
  exists st recovered,
    decode_session session (mkDecoder dec_ssrc media_ssrc []) [] = Ok (st, recovered) /\
    (forall q, q ∈ known recovered <-> recoverable media_ssrc session q) /\
    (forall r, r ∈ recovered -> orig (rec_seq_num r) = Some (rec_pkt r)).
Proof.
  intros Hs Hse.
  destruct (decode_session_resting media_ssrc orig mbase Hs session Hse session []
    (mkDecoder dec_ssrc media_ssrc []) [] eq_refl (resting_init _ _ _ _)) as (st & recovered & Hdec & Hrest).
  pose proof (pe_inv _ _ _ _ _ _ (rest_peeled _ _ _ _ _ _ Hrest)) as Hinv.
  exists st, recovered. split_and!; [done| |].
  - intros q. split; [apply (pi_known _ _ _ _ _ Hinv)|]. by apply (resting_complete media_ssrc orig _ st).
  - intros r Hr. exact (proj1 (Forall_forall _ _) (ds_rec _ _ _ _ (pi_sound _ _ _ _ _ Hinv)) r Hr).
Qed.
End Decoder.

(** ** Encoder and decoder *)

Section EndToEnd.
Context {R : FecHeaderReader} {W : FecHeaderWriter} {own : bool}.
Context {RL : FecReaderLaws R} {L : FecSchemeLaws R W own}.

(** C5. One loss: a batch protected by [EncodeFec] with any table and with or
    without unequal protection, one of its media packets lost, the other
    packets delivered in any order - the decoder has the whole batch. *)
Theorem single_loss_repaired e media pf imp uep ty ssrc :
  encoder_ok e -> media_batch media -> (span media <= 48)%nat ->
  Forall (fun p => media_ok 1480 p /\ rtp_ssrc p = ssrc) media ->
  1 <= pf <= 255 -> (imp <= length media)%nat ->
  let m := Z.to_nat (NumFecPackets (Z.of_nat (length media)) pf) in
  exists e' fecs, EncodeFec e media pf imp uep ty = Ok (e', 0, fecs) /\ length fecs = m /\
    forall fec_ssrc fec_seq dec_ssrc c session,
      numbering_ok (own := own) media m ssrc fec_ssrc fec_seq -> (c < length media)%nat ->
      after_burst media fecs fec_ssrc fec_seq c 1 session ->
      exists st recovered,
        decode_session session (mkDecoder dec_ssrc ssrc []) [] = Ok (st, recovered) /\
        delivered media recovered.
Proof.
  intros He Hm Hspan Hmedia Hpf Himp m.
  destruct (encoded_batch e media pf imp uep ty ssrc He Hm Hspan Hmedia Hpf Himp)
    as (e' & fecs & masks & Ht & Henc & _ & Hmk & Hk & Hlf & Hbatch). fold m in Hmk, Hlf, Hbatch.
  exists e', fecs. split; [done|]. split; [done|]. intros fec_ssrc fec_seq dec_ssrc c session Hn Hc Hburst.
  specialize (Hbatch fec_ssrc fec_seq Hn).
  destruct (decode_batch _ _ _ _ _ _ Hbatch dec_ssrc session (after_burst_sub _ _ _ _ _ _ _ Hburst))
    as (st & recovered & Hdec & Hex & Hs). exists st, recovered. split; [done|].
  apply (positions_delivered _ _ _ _ _ _ Hbatch session); [done|done|].
  clearbody m. subst m.
  exact (single_loss_positions media fecs ssrc fec_ssrc fec_seq masks imp uep ty c session Ht Hmk Hk Himp Hbatch Hburst).
Qed.

(** C3. Bursts: with the bursty masks (up to 12 media packets, [m] FEC packets)
    any [m] or fewer consecutive packets of the transmission - media first,
    then FEC - may be lost and the rest may arrive in any order: the decoder
    has the whole batch, byte for byte. *)
Theorem burst_loss_repaired e media pf ssrc :
  encoder_ok e -> media_batch media -> (span media <= 48)%nat -> (length media <= 12)%nat ->
  Forall (fun p => media_ok 1480 p /\ rtp_ssrc p = ssrc) media -> 1 <= pf <= 255 ->
  let m := Z.to_nat (NumFecPackets (Z.of_nat (length media)) pf) in
  exists e' fecs, EncodeFec e media pf 0 false kFecMaskBursty = Ok (e', 0, fecs) /\ length fecs = m /\
    forall fec_ssrc fec_seq dec_ssrc s len session,
      numbering_ok (own := own) media m ssrc fec_ssrc fec_seq -> (len <= m)%nat ->
      after_burst media fecs fec_ssrc fec_seq s len session ->
      exists st recovered,
        decode_session session (mkDecoder dec_ssrc ssrc []) [] = Ok (st, recovered) /\
        delivered media recovered.
Proof.
  intros He Hm Hspan Hk12 Hmedia Hpf m.
  destruct (encoded_batch e media pf 0 false kFecMaskBursty ssrc He Hm Hspan Hmedia Hpf ltac:(lia))
    as (e' & fecs & masks & Ht & Henc & _ & Hmk & Hk & Hlf & Hbatch). fold m in Hmk, Hlf, Hbatch.
  exists e', fecs. split; [done|]. split; [done|]. intros fec_ssrc fec_seq dec_ssrc s len session Hn Hlen Hburst.
  specialize (Hbatch fec_ssrc fec_seq Hn).
  destruct (decode_batch _ _ _ _ _ _ Hbatch dec_ssrc session (after_burst_sub _ _ _ _ _ _ _ Hburst))
    as (st & recovered & Hdec & Hex & Hs). exists st, recovered. split; [done|].
  apply (positions_delivered _ _ _ _ _ _ Hbatch session); [done|done|]. intros c Hc.
  rewrite (bursty_table (length media) masks Hk12 Ht) in *.
  eapply (peel_positions _ _ _ _ _ _ Hbatch session (spec_mask bursty_masks (length media) m) 2
    (burst_rows (length media) m s len) m (burst_missing (length media) s len)).
  - intros r [Hr [_ Hr']%elem_of_seq]%list_elem_of_filter.
    apply (after_burst_row media fecs fec_ssrc fec_seq s len); [done|lia|done].
  - intros r c' _ Hc'. unfold generated_bit, lookup_bit. cbn [negb orb]. by rewrite decide_True.
  - intros c' Hc' Hno. apply (after_burst_position media fecs ssrc fec_ssrc fec_seq s len); [done|].
    intros Hin. apply Hno, list_elem_of_filter. split; [done|]. apply elem_of_seq. lia.
  - done.
  - rewrite burst_peels by (done || lia). apply not_elem_of_nil.
Qed.
End EndToEnd.

(** ** Witnesses *)

#[local] Existing Instance Ulpfec.UlpfecHeaderReader.
#[local] Existing Instance Ulpfec.UlpfecHeaderWriter.

Definition decoder0 : Decoder := mkDecoder 9 9 [].
Definition garbage_packet : ReceivedPacket := as_fec 9 4 (replicate 20 0xff).

Lemma DecodeFec_safe_witness :
  exists st' recovered' n log, DecodeFec decoder0 garbage_packet [] = Ok (st', recovered', n, log) /\
    decoder_ok st' recovered'.
Proof.
  destruct (DecodeFec_safe decoder0 garbage_packet []) as [(st' & rec' & n & log & H & Hok & _)|[_ H]].
  - apply decoder_init.
  - split; [compute_bytes|split; by vm_compute|done].
  - exists st', rec', n, log. split; [exact H|exact Hok].
  - exfalso. apply Nat.leb_le in H. vm_compute in H. discriminate H.
Defined.

Lemma batch_abc_media : Forall (fun p => media_ok 1480 p /\ rtp_ssrc p = 9) batch_abc.
Proof.
  repeat (apply Forall_cons_2; [split; [split; [compute_bytes|split; compute_le|]|done]|]); [..|done];
    eexists; done.
Qed.

Lemma batch_abc_sent q p : sent batch_abc q = Some p ->
  media_ok 1488 p /\ rtp_seq_num p = q /\ rtp_ssrc p = 9.
Proof.
  intros [Hp Hq]%sent_elem.
  destruct (proj1 (Forall_forall _ _) batch_abc_media p Hp) as [[Hb Hl Hv] Hs].
  split_and!; [split; [done|lia|done]|done|done].
Qed.

(** The batch of the encoder's witness, numbered as ULPFEC does. *)
Definition abc_fec_seq (r : nat) : Z := u16 (base_seq batch_abc + Z.of_nat (span batch_abc + r)).

Lemma abc_numbering : numbering_ok (own := true) batch_abc 2 9 9 abc_fec_seq.
Proof. apply numbering_following; [apply batch_abc_ok|compute_le|compute_le]. Qed.

Lemma decode_session_exact_witness :
  exists e' fecs, EncodeFec encoder0 batch_abc 128 0 false kFecMaskBursty = Ok (e', 0, fecs) /\
  let session := reverse (transmission batch_abc fecs 9 abc_fec_seq) in
  exists st recovered, decode_session session decoder0 [] = Ok (st, recovered) /\
    forall q, q ∈ known recovered <-> recoverable 9 session q.
Proof.
  destruct (encoded_batch (own := true) encoder0 batch_abc 128 0 false kFecMaskBursty 9
    encoder0_ok batch_abc_ok ltac:(compute_le) batch_abc_media ltac:(lia) ltac:(compute_le))
    as (e' & fecs & masks & _ & Henc & _ & _ & _ & _ & Hb).
  specialize (Hb 9 abc_fec_seq abc_numbering). exists e', fecs. split; [exact Henc|]. intros session.
  destruct (decode_session_exact 9 (sent batch_abc) (base_seq batch_abc) 9 session)
    as (st & recovered & Hdec & Hex & _).
  - exact (batch_stream _ _ _ _ _ _ Hb).
  - apply (batch_session _ _ _ _ _ _ Hb). apply Permutation_submseteq, reverse_Permutation.
  - exists st, recovered. split; [exact Hdec|exact Hex].
Defined.

Lemma single_loss_repaired_witness :
  exists e' fecs, EncodeFec encoder0 batch_abc 128 1 true kFecMaskRandom = Ok (e', 0, fecs) /\
    let tr := transmission batch_abc fecs 9 abc_fec_seq in
    exists st recovered,
      decode_session (take 1 tr ++ drop 2 tr) decoder0 [] = Ok (st, recovered) /\
      delivered batch_abc recovered.
Proof.
  destruct (single_loss_repaired (own := true) encoder0 batch_abc 128 1 true kFecMaskRandom 9
    encoder0_ok batch_abc_ok ltac:(compute_le) batch_abc_media ltac:(lia) ltac:(compute_le))
    as (e' & fecs & Henc & _ & H).
  exists e', fecs. split; [exact Henc|]. intros tr.
  exact (H 9 abc_fec_seq 9 1%nat (take 1 tr ++ drop 2 tr) abc_numbering ltac:(compute_le) (Permutation_refl _)).
Defined.

Lemma burst_loss_repaired_witness :
  exists e' fecs, EncodeFec encoder0 batch_abc 128 0 false kFecMaskBursty = Ok (e', 0, fecs) /\
    let tr := transmission batch_abc fecs 9 abc_fec_seq in
    exists st recovered,
      decode_session (take 1 tr ++ drop 3 tr) decoder0 [] = Ok (st, recovered) /\
      delivered batch_abc recovered.
Proof.
  destruct (burst_loss_repaired (own := true) encoder0 batch_abc 128 9
    encoder0_ok batch_abc_ok ltac:(compute_le) ltac:(compute_le) batch_abc_media ltac:(lia))
    as (e' & fecs & Henc & _ & H).
  exists e', fecs. split; [exact Henc|]. intros tr.
  exact (H 9 abc_fec_seq 9 1%nat 2%nat (take 1 tr ++ drop 3 tr) abc_numbering
    ltac:(compute_le) (Permutation_refl _)).
Defined.

(** ** The log statement reads freed memory *)

(** Empty media packets of stream 1; a FEC packet protecting numbers 0 and 1,
    their exact parity; the FEC packet comes first, numbers 2 to 193 follow,
    number 1 comes last. *)
Definition empty_media (n : Z) : Packet := [0x80; 96; Z.shiftr n 8; Z.land n 255; 0; 0; 0; 0; 0; 0; 0; 1].
Definition late_fec : Packet := [0; 0; 0; 0; 0; 0; 0; 0; 0; 0; 0; 0; 0xc0; 0].
Definition late_session : list ReceivedPacket :=
  as_fec 1 194 late_fec :: map (fun n => as_media (empty_media (Z.of_nat n))) (seq 2 192 ++ [1%nat]).

