(* ===== verification/TimedDecoder.v ===== *)
(** * TimedDecoder: the decoder of [examples/customizationFEC/UlpFEC]

    The example keeps its own [forward_error_correction.cc], and it is that copy
    which is built ([examples/BUILD.gn]; [modules/rtp_rtcp/BUILD.gn] leaves out
    the one under [modules]).  It differs from the engine of [FecDecoder] by a
    clock, the table [fec_receive_time_] and more rows in the log.  Only the
    functions that differ are defined here; what they share is taken from
    [FecDecoder].

    [clock_] is a pointer: [None] is [nullptr], [Some readings] gives its
    successive readings in microseconds.  The wall-clock column of the log is
    left out. *)

From stdpp Require Import sorting gmap.
From S2P Require Import Prelude.
From S2P Require Import PacketMasks.
From S2P Require Import FecTypes.
From S2P Require Import SeqNum.
From S2P Require Import XorCode.
From S2P Require Import FecDecoder.
From S2P Require Import DecoderLemmas.
From S2P Require Import DecoderSafety.
From S2P Require Import Peeling.
From S2P Require Import Flexfec03Header.
From S2P Require Import FecEncoder.
From S2P Require Import EncoderCorrect.
From S2P Require Import EncodeFecSpec.
From S2P Require Import Transmission.
From S2P Require Import EncoderGuarantees.

Module Timed.

(** Why an FEC packet leaves the buffer. *)
Inductive Reason : Set :=
| success | fail_BufferLimit | fail_RecoverFail | fail_NoLoss | fail_OldFEC.

Record Row : Type := mkRow {
  row_seq_num : Z;
  row_reason : Reason;
  row_recovered : option Z;
  row_protected : list Z;
  row_decode_ns : option Z;
  row_drop_ns : Z
}.

(** The members the copy adds; [taken_] counts the readings of the clock so far. *)
Record Timing : Type := mkTiming {
  clock_ : option (nat -> Z);
  taken_ : nat;
  fec_receive_time_ : gmap Z (option Z)
}.

(** [CreateUlpfec] passes the clock of its caller, [CreateFlexfec] [nullptr]. *)
Definition new (clock : option (nat -> Z)) : Timing := mkTiming clock 0 ∅.
Definition CreateFlexfec : Timing := new None.

Definition CurrentTime (t : Timing) : res (Z * Timing) :=
  match clock_ t with
  | None => Fault NullDereference
  | Some readings => Ok (readings (taken_ t), mkTiming (clock_ t) (S (taken_ t)) (fec_receive_time_ t))
  end.

Definition set_times (t : Timing) (m : gmap Z (option Z)) : Timing := mkTiming (clock_ t) (taken_ t) m.

(** How long the FEC packet was kept, in microseconds.  [operator[]] inserts
    [std::nullopt] for a number it does not find. *)
Definition drop_time (t : Timing) (seq_num : Z) : res (Z * Timing) :=
  let! (now, t) := CurrentTime t in
  let! (now', t) := CurrentTime t in
  match fec_receive_time_ t !! seq_num with
  | Some (Some since) =>
      let! (later, t) := CurrentTime t in
      Ok (later - since, set_times t (delete seq_num (fec_receive_time_ t)))
  | _ => Ok (now - now', set_times t (<[seq_num := None]> (fec_receive_time_ t)))
  end.

(** A row about an FEC packet that is dropped. *)
Definition log_drop (t : Timing) (fp : ReceivedFecPacket) (reason : Reason) (recovered decode_us : option Z)
    : res (Row * Timing) :=
  let! (dropped, t) := drop_time t (fp_seq_num fp) in
  Ok (mkRow (fp_seq_num fp) reason recovered (map pp_seq_num (fp_protected_packets fp))
        (Z.mul 1000 <$> decode_us) (1000 * dropped), t).

Section Decoder.
Context `{R : FecHeaderReader}.

(** The front packet goes when there are too many. *)
Definition limit_buffer (t : Timing) (fps : list ReceivedFecPacket)
    : res (list ReceivedFecPacket * list Row * Timing) :=
  if decide (MaxStoredFecPackets < length fps)%nat then
    match fps with
    | [] => Fault OutOfBounds
    | front :: rest =>
        let! (row, t) := log_drop t front fail_BufferLimit None None in Ok (rest, [row], t)
    end
  else Ok (fps, [], t).

Definition InsertFecPacket (st : Decoder) (t : Timing) (recovered_packets : list RecoveredPacket)
    (received_packet : ReceivedPacket) : res (Decoder * list Row * Timing) :=
  if existsb (fun fp => fp_seq_num fp =? rp_seq_num received_packet) (received_fec_packets_ st)
  then Ok (st, [], t) else
  let! ret := ReadFecHeader (new_fec_packet (rp_ssrc received_packet) (rp_seq_num received_packet)
                                            (rp_pkt received_packet)) in
  match ret with
  | None => Ok (st, [], t)
  | Some fec_packet =>
      let! _ := rtc_check (length (fp_protected_streams fec_packet) =? 1)%nat in
      match fp_protected_streams fec_packet with
      | [] => Fault OutOfBounds
      | stream :: _ =>
          if negb (ps_ssrc stream =? protected_media_ssrc_ st) then Ok (st, [], t) else
          if decide (length (fp_pkt fec_packet) <
                     ps_packet_mask_offset stream + ps_packet_mask_size stream)%nat
          then Ok (st, [], t) else
          let! protected_packets :=
            parse_packet_mask (protected_media_ssrc_ st) stream (fp_pkt fec_packet) in
          let! (st, rows, t) :=
            match protected_packets with
            | [] => Ok (st, [], t)
            | _ =>
                let fec_packet := with_protected fec_packet
                  (AssignRecoveredPackets recovered_packets protected_packets) in
                let fps := list_sort fp_seq_num (received_fec_packets_ st ++ [fec_packet]) in
                let! (fps, rows, t) := limit_buffer t fps in
                Ok (set_fec_packets st fps, rows, t)
            end in
          let! (now, t) := CurrentTime t in
          Ok (st, rows, set_times t (<[rp_seq_num received_packet := Some now]> (fec_receive_time_ t)))
      end
  end.

Definition InsertPacket (st : Decoder) (t : Timing) (received_packet : ReceivedPacket)
    (recovered_packets : list RecoveredPacket) : res (Decoder * list RecoveredPacket * list Row * Timing) :=
  let st :=
    match received_fec_packets_ st with
    | [] => st
    | front :: _ =>
        if rp_ssrc received_packet =? fp_ssrc front
        then set_fec_packets st
               (discard_old_fec (rp_seq_num received_packet) (received_fec_packets_ st))
        else st
    end in
  if rp_is_fec received_packet then
    let! (st, rows, t) := InsertFecPacket st t recovered_packets received_packet in
    Ok (st, DiscardOldRecoveredPackets recovered_packets, rows, t)
  else
    let (st, recovered_packets) := InsertMediaPacket st recovered_packets received_packet in
    Ok (st, DiscardOldRecoveredPackets recovered_packets, [], t).

(** The state of the loop of [AttemptRecovery]. *)
Record Attempt : Type := mkAttempt {
  at_st : Decoder;
  at_recovered : list RecoveredPacket;
  at_num : nat;
  at_log : list Row;
  at_it : nat;
  at_time : Timing
}.

Definition recovery_step (a : Attempt) : res (option Attempt) :=
  let st := at_st a in
  match received_fec_packets_ st !! at_it a with
  | None => Ok None
  | Some fp =>
      let erase (st : Decoder) := set_fec_packets st (delete (at_it a) (received_fec_packets_ st)) in
      let packets_missing := NumCoveredPacketsMissing (fp_protected_packets fp) in
      if (packets_missing =? 1)%nat then
        let! (rec_now, t) := CurrentTime (at_time a) in
        let! recovered := RecoverPacket fp new_recovered_packet in
        match recovered with
        | None =>
            let! (row, t) := log_drop t fp fail_RecoverFail None None in
            Ok (Some (mkAttempt (erase st) (at_recovered a) (at_num a) (at_log a ++ [row]) (at_it a) t))
        | Some rec =>
            let! (decoded, t) := CurrentTime t in
            let (recovered_packets, alive) := publish (at_recovered a) rec in
            let st := UpdateCoveringFecPackets st rec in
            let! (row, t) := log_drop t fp success (Some (rec_seq_num rec)) (Some (decoded - rec_now)) in
            if alive then
              Ok (Some (mkAttempt (erase st) recovered_packets (at_num a + 1) (at_log a ++ [row]) 0 t))
            else Fault UseAfterFree
        end
      else
        let! old :=
          if (packets_missing =? 0)%nat then Ok true else IsOldFecPacket fp (at_recovered a) in
        if (old : bool) then
          let! (row, t) := log_drop (at_time a) fp (if (packets_missing =? 0)%nat then fail_NoLoss else fail_OldFEC)
                             None None in
          Ok (Some (mkAttempt (erase st) (at_recovered a) (at_num a) (at_log a ++ [row]) (at_it a) t))
        else Ok (Some (mkAttempt st (at_recovered a) (at_num a) (at_log a) (at_it a + 1) (at_time a)))
  end.

Fixpoint recovery_loop (fuel : nat) (a : Attempt) : res Attempt :=
  match fuel with
  | O => Fault OutOfFuel
  | S fuel =>
      let! next := recovery_step a in
      match next with None => Ok a | Some a => recovery_loop fuel a end
  end.

Definition AttemptRecovery (st : Decoder) (t : Timing) (recovered_packets : list RecoveredPacket) : res Attempt :=
  let n := S (length (received_fec_packets_ st)) in
  recovery_loop (n * n) (mkAttempt st recovered_packets 0 [] 0 t).

(** [DecodeFec]: the members, the caller's list, the number of recovered packets, the rows logged. *)
Definition DecodeFec (st : Decoder) (t : Timing) (received_packet : ReceivedPacket)
    (recovered_packets : list RecoveredPacket)
    : res (Decoder * Timing * list RecoveredPacket * nat * list Row) :=
  let (st, recovered_packets) := reset_on_gap st received_packet recovered_packets in
  let! (st, recovered_packets, rows, t) := InsertPacket st t received_packet recovered_packets in
  let! a := AttemptRecovery st t recovered_packets in
  Ok (at_st a, at_time a, at_recovered a, at_num a, rows ++ at_log a).

End Decoder.
End Timed.
Import Timed.

(** ** The clock only feeds the log *)

(** The row the engine under [modules] writes. *)
Definition engine_row (r : Row) : option LogRow :=
  match row_reason r with
  | success => Some (LogSuccess (row_seq_num r) (default 0 (row_recovered r)) (row_protected r))
  | fail_NoLoss | fail_OldFEC => Some (LogFail (row_seq_num r) (row_protected r))
  | fail_BufferLimit | fail_RecoverFail => None
  end.

Definition running (t : Timing) : Prop := is_Some (clock_ t).

Lemma CurrentTime_ok t : running t -> exists us t', CurrentTime t = Ok (us, t') /\ running t' /\
  fec_receive_time_ t' = fec_receive_time_ t.
Proof. intros [c E]. unfold CurrentTime, running. rewrite E. by eexists _, _. Qed.

Lemma drop_time_ok t seq_num : running t -> exists us t', drop_time t seq_num = Ok (us, t') /\ running t' /\
  forall q, q <> seq_num -> fec_receive_time_ t' !! q = fec_receive_time_ t !! q.
Proof.
  intros Hr. unfold drop_time.
  destruct (CurrentTime_ok t Hr) as (u1 & t1 & -> & Hr1 & E1). cbn [mbind res_bind].
  destruct (CurrentTime_ok t1 Hr1) as (u2 & t2 & -> & Hr2 & E2). cbn [mbind res_bind]. rewrite E2, E1.
  destruct (fec_receive_time_ t !! seq_num) as [[since|]|].
  - destruct (CurrentTime_ok t2 Hr2) as (u3 & t3 & -> & Hr3 & E3). cbn [mbind res_bind]. eexists _, _. split; [done|].
    split; [done|]. intros q Hq. cbn. by rewrite lookup_delete_ne, E3, E2, E1.
  - eexists _, _. split; [done|]. split; [done|]. intros q Hq. cbn. by rewrite lookup_insert_ne.
  - eexists _, _. split; [done|]. split; [done|]. intros q Hq. cbn. by rewrite lookup_insert_ne.
Qed.

Lemma log_drop_ok t fp reason recovered us : running t ->
  exists row t', log_drop t fp reason recovered us = Ok (row, t') /\ running t' /\
    engine_row row = engine_row (mkRow (fp_seq_num fp) reason recovered (map pp_seq_num (fp_protected_packets fp)) None 0) /\
    forall q, q <> fp_seq_num fp -> fec_receive_time_ t' !! q = fec_receive_time_ t !! q.
Proof.
  intros Hr. unfold log_drop. destruct (drop_time_ok t (fp_seq_num fp) Hr) as (u & t' & -> & Hr' & Hq).
  cbn [mbind res_bind]. by eexists _, _.
Qed.

(** The table knows when each stored FEC packet came. *)
Definition dated (fps : list ReceivedFecPacket) (t : Timing) : Prop :=
  NoDup (map fp_seq_num fps) /\
  Forall (fun fp => exists us, fec_receive_time_ t !! fp_seq_num fp = Some (Some us)) fps.

Lemma dated_sublist fps fps' t : fps' `sublist_of` fps -> dated fps t -> dated fps' t.
Proof.
  intros Hs [Hn Hf]. split.
  - clear Hf. induction Hs as [|fp l l' Hs IH|fp l l' Hs IH]; [done| |apply IH; by apply NoDup_cons in Hn as [_ ?]].
    cbn [map] in *. apply NoDup_cons in Hn as [Hx Hn]. apply NoDup_cons. split; [|by apply IH].
    intros (y & E & Hy)%list_elem_of_fmap. apply Hx. rewrite E. apply list_elem_of_fmap_2.
    by apply (elem_of_submseteq l l' y Hy), sublist_submseteq.
  - apply Forall_forall. intros fp Hfp. apply (proj1 (Forall_forall _ _) Hf).
    by apply (elem_of_submseteq fps' fps fp Hfp), sublist_submseteq.
Qed.

Lemma dated_other fps t t' q :
  dated fps t -> q ∉ map fp_seq_num fps -> (forall q', q' <> q -> fec_receive_time_ t' !! q' = fec_receive_time_ t !! q') ->
  dated fps t'.
Proof.
  intros [Hn Hf] Hq Ht. split; [done|]. apply Forall_forall. intros fp Hfp. rewrite Ht; [by apply (proj1 (Forall_forall _ _) Hf)|].
  intros <-. apply Hq. by apply list_elem_of_fmap_2.
Qed.

Lemma dated_seqs fps fps' t : map fp_seq_num fps' = map fp_seq_num fps -> dated fps t -> dated fps' t.
Proof.
  intros E [Hn Hf]. split; [by rewrite E|]. apply Forall_forall. intros fp Hfp.
  assert (Hin : fp_seq_num fp ∈ map fp_seq_num fps) by (rewrite <- E; by apply list_elem_of_fmap_2).
  apply list_elem_of_fmap in Hin as (fp' & -> & Hfp'). by apply (proj1 (Forall_forall _ _) Hf).
Qed.

Lemma update_covering_seqs rec fps : map fp_seq_num (map (update_covering rec) fps) = map fp_seq_num fps.
Proof.
  rewrite map_map. apply map_ext. intros fp. unfold update_covering. destruct (_ !! _) as [pp|]; [|done].
  by destruct (_ =? _).
Qed.

Section Alike.
Context `{R : FecHeaderReader}.

(** One iteration of the recovery loop. *)
Definition strip (a : Attempt) : FecDecoder.Attempt :=
  FecDecoder.mkAttempt (at_st a) (at_recovered a) (at_num a) (omap engine_row (at_log a)) (at_it a).

Definition healthy (a : Attempt) : Prop :=
  running (at_time a) /\ dated (received_fec_packets_ (at_st a)) (at_time a).

Lemma erase_dated fps i fp t t' :
  dated fps t -> fps !! i = Some fp -> (forall q, q <> fp_seq_num fp -> fec_receive_time_ t' !! q = fec_receive_time_ t !! q) ->
  dated (delete i fps) t'.
Proof.
  intros Hd Hi Ht. eapply dated_other; [eapply dated_sublist; [|exact Hd]; apply sublist_delete| |exact Ht].
  destruct Hd as [Hn _]. intros (fp' & E & [j Hj]%list_elem_of_lookup)%list_elem_of_fmap.
  assert (Hex : exists k, k <> i /\ fps !! k = Some fp').
  { destruct (decide (j < i)%nat).
    - exists j. split; [lia|]. by rewrite list_lookup_delete_lt in Hj.
    - exists (S j). split; [lia|]. by rewrite list_lookup_delete_ge in Hj by lia. }
  destruct Hex as (k & Hk & Hfk). apply Hk.
  eapply (NoDup_lookup _ _ _ (fp_seq_num fp)); [exact Hn|..]; rewrite list_lookup_fmap; [by rewrite Hfk, E|by rewrite Hi].
Qed.

(** [c] and [c'] fail alike, or both succeed with related results. *)
Definition alike {A B} (P : A -> B -> Prop) (c : res A) (c' : res B) : Prop :=
  match c, c' with
  | Ok a, Ok b => P a b
  | Fault f, Fault f' => f = f'
  | _, _ => False
  end.

Lemma alike_bind {A B C D} (P : A -> B -> Prop) (Q : C -> D -> Prop) c c' k k' :
  alike P c c' -> (forall a b, P a b -> alike Q (k a) (k' b)) -> alike Q (c ≫= k) (c' ≫= k').
Proof. destruct c, c'; cbn; try done; auto. Qed.

Lemma alike_refl {A} (c : res A) : alike (=) c c.
Proof. by destruct c. Qed.

Definition related (a : Attempt) (b : FecDecoder.Attempt) : Prop := b = strip a /\ healthy a.

Lemma omap_snoc (rows : list Row) row : omap engine_row (rows ++ [row]) =
  omap engine_row rows ++ match engine_row row with Some r => [r] | None => [] end.
Proof. rewrite omap_app. f_equal. Qed.

Lemma step_alike a : healthy a ->
  alike (fun x y => match x, y with None, None => True | Some a', Some b' => related a' b' | _, _ => False end)
    (recovery_step a) (FecDecoder.recovery_step (strip a)).
Proof.
  intros [Hr Hd]. unfold recovery_step, FecDecoder.recovery_step. cbn [FecDecoder.at_st FecDecoder.at_it FecDecoder.at_recovered FecDecoder.at_num FecDecoder.at_log strip].
  destruct (received_fec_packets_ (at_st a) !! at_it a) as [fp|] eqn:Efp; [|done].
  set (miss := NumCoveredPacketsMissing (fp_protected_packets fp)). destruct (Nat.eqb_spec miss 1) as [E1|E1].
  - destruct (CurrentTime_ok (at_time a) Hr) as (u1 & t1 & -> & Hr1 & Et1). cbn [mbind res_bind].
    destruct (RecoverPacket fp new_recovered_packet) as [[rec|]|]; cbn [mbind res_bind]; [| |done].
    + destruct (CurrentTime_ok t1 Hr1) as (u2 & t2 & -> & Hr2 & Et2). cbn [mbind res_bind].
      destruct (publish (at_recovered a) rec) as [recs alive].
      destruct (log_drop_ok t2 fp success (Some (rec_seq_num rec)) (Some (u2 - u1)) Hr2) as (row & t3 & -> & Hr3 & Erow & Hq).
      cbn [mbind res_bind]. destruct alive; [|done]. split; [unfold strip; cbn; by rewrite omap_snoc, Erow|]. split; [done|]. cbn.
      eapply (erase_dated _ _ (update_covering rec fp) t2); [| |].
      * eapply dated_seqs; [apply update_covering_seqs|]. destruct Hd as [Hn Hf]. split; [done|]. by rewrite Et2, Et1.
      * by rewrite list_lookup_fmap, Efp.
      * intros q Hne. apply Hq. intros ->. apply Hne. pose proof (update_covering_seqs rec [fp]) as E. by injection E.
    + destruct (log_drop_ok t1 fp fail_RecoverFail None None Hr1) as (row & t3 & -> & Hr3 & Erow & Hq). cbn [mbind res_bind].
      split; [unfold strip; cbn; by rewrite omap_snoc, Erow, app_nil_r|]. split; [done|]. cbn.
      eapply erase_dated; [exact Hd|exact Efp|]. intros q Hne. by rewrite Hq, Et1.
  - destruct (if (miss =? 0)%nat then Ok true else _) as [[]|]; cbn [mbind res_bind]; [| |done].
    + destruct (log_drop_ok (at_time a) fp (if (miss =? 0)%nat then fail_NoLoss else fail_OldFEC) None None Hr)
        as (row & t3 & -> & Hr3 & Erow & Hq). cbn [mbind res_bind].
      split; [unfold strip; cbn; rewrite omap_snoc, Erow; by destruct (miss =? 0)%nat|]. split; [done|]. cbn.
      by eapply erase_dated.
    + by split.
Qed.

Lemma loop_alike fuel : forall a, healthy a ->
  alike related (recovery_loop fuel a) (FecDecoder.recovery_loop fuel (strip a)).
Proof.
  induction fuel as [|fuel IH]; intros a Ha; [done|]. cbn [recovery_loop FecDecoder.recovery_loop].
  eapply alike_bind; [by apply step_alike|]. intros [a'|] [b'|]; try done. intros [-> Ha']. by apply IH.
Qed.

(** Insertion. *)
Lemma existsb_fresh q fps : existsb (fun fp => fp_seq_num fp =? q) fps = false -> q ∉ map fp_seq_num fps.
Proof.
  intros E (fp & -> & Hfp)%list_elem_of_fmap. apply not_true_iff_false in E. apply E.
  apply existsb_exists. exists fp. split; [by apply list_elem_of_In|]. apply Z.eqb_refl.
Qed.

(** After the buffer is cut, the new packet is dated. *)
Lemma insert_dated fps fps' fp t t' now :
  dated fps t -> fp_seq_num fp ∉ map fp_seq_num fps -> fps' ⊆+ fps ++ [fp] ->
  (forall x, x ∈ fps' -> fp_seq_num x <> fp_seq_num fp -> fec_receive_time_ t' !! fp_seq_num x = fec_receive_time_ t !! fp_seq_num x) ->
  dated fps' (set_times t' (<[fp_seq_num fp := Some now]> (fec_receive_time_ t'))).
Proof.
  intros [Hn Hf] Hfresh Hsub Ht. split.
  - assert (Hs : map fp_seq_num fps' ⊆+ map fp_seq_num (fps ++ [fp])) by by apply fmap_submseteq.
    destruct (submseteq_Permutation _ _ Hs) as (k & Hk).
    assert (Hnd : NoDup (map fp_seq_num (fps ++ [fp]))).
    { rewrite map_app. apply NoDup_app. split; [done|]. split; [|apply NoDup_singleton]. intros q Hq ->%list_elem_of_singleton. done. }
    rewrite Hk in Hnd. by apply NoDup_app in Hnd as [? _].
  - apply Forall_forall. intros x Hx. cbn. destruct (decide (fp_seq_num x = fp_seq_num fp)) as [->|Hne].
    + rewrite lookup_insert_eq. eauto.
    + rewrite lookup_insert_ne, Ht by done. pose proof (elem_of_submseteq _ _ x Hx Hsub) as Hin.
      apply elem_of_app in Hin as [Hin| ->%list_elem_of_singleton]; [|done]. by apply (proj1 (Forall_forall _ _) Hf).
Qed.

Lemma limit_buffer_ok t fps : running t -> NoDup (map fp_seq_num fps) ->
  exists rows t', limit_buffer t fps = Ok (if decide (MaxStoredFecPackets < length fps)%nat then tail fps else fps, rows, t') /\
    omap engine_row rows = [] /\ running t' /\
    forall x, x ∈ (if decide (MaxStoredFecPackets < length fps)%nat then tail fps else fps) ->
      fec_receive_time_ t' !! fp_seq_num x = fec_receive_time_ t !! fp_seq_num x.
Proof.
  intros Hr Hn. unfold limit_buffer. destruct (decide (MaxStoredFecPackets < length fps)%nat) as [Hlt|]; [|by exists [], t].
  destruct fps as [|front rest]; [cbn in Hlt; lia|].
  destruct (log_drop_ok t front fail_BufferLimit None None Hr) as (row & t' & -> & Hr' & Erow & Hq). cbn [mbind res_bind tail].
  exists [row], t'. split; [done|]. split; [cbn; by rewrite Erow|]. split; [done|]. intros x Hx. apply Hq.
  cbn [map] in Hn. apply NoDup_cons in Hn as [Hn _]. intros E. apply Hn. rewrite <- E. by apply list_elem_of_fmap_2.
Qed.

Context {RL : FecReaderLaws R}.

Definition inserted (x : Decoder * list Row * Timing) (y : Decoder) : Prop :=
  x.1.1 = y /\ omap engine_row x.1.2 = [] /\ running x.2 /\ dated (received_fec_packets_ y) x.2.

Lemma InsertFecPacket_alike st t recs rp :
  bytes (rp_pkt rp) -> running t -> dated (received_fec_packets_ st) t ->
  alike inserted (InsertFecPacket st t recs rp) (FecDecoder.InsertFecPacket st recs rp).
Proof.
  intros Hb Hr Hd. unfold InsertFecPacket, FecDecoder.InsertFecPacket.
  assert (Hsame : alike inserted (Ok (st, [], t)) (Ok st)) by (by split).
  destruct (existsb _ _) eqn:Eex; [exact Hsame|]. apply existsb_fresh in Eex.
  destruct (ReadFecHeader _) as [[fp|]|] eqn:Eread; cbn [mbind res_bind]; [|exact Hsame|done].
  destruct (read_sound (new_fec_packet (rp_ssrc rp) (rp_seq_num rp) (rp_pkt rp)) fp Hb Eread) as (ps & hdr & len & pkt & -> & _).
  destruct (rtc_check _); cbn [mbind res_bind]; [|done]. cbn [fp_protected_streams with_header fp_pkt].
  destruct (negb _); [exact Hsame|]. case_decide; [exact Hsame|].
  destruct (parse_packet_mask _ _ _) as [pps|]; cbn [mbind res_bind]; [|done]. destruct pps as [|pp pps].
  - cbn [mbind res_bind]. destruct (CurrentTime_ok t Hr) as (now & t' & -> & Hr' & Et). cbn [mbind res_bind]. split; [done|]. split; [done|].
    split; [done|]. cbn [snd]. eapply dated_other; [exact Hd|exact Eex|]. intros q Hq. cbn. by rewrite lookup_insert_ne, Et.
  - match goal with |- context [received_fec_packets_ st ++ [?x]] => set (fp := x) end.
    set (fps := list_sort fp_seq_num (received_fec_packets_ st ++ [fp])).
    assert (Hp : fps ≡ₚ received_fec_packets_ st ++ [fp]) by apply list_sort_perm.
    assert (Hn : NoDup (map fp_seq_num fps)).
    { rewrite Hp, map_app. destruct Hd as [Hn _]. apply NoDup_app. split; [done|]. split; [|apply NoDup_singleton].
      intros q Hq ->%list_elem_of_singleton. done. }
    destruct (limit_buffer_ok t fps Hr Hn) as (rows & t1 & -> & Erows & Hr1 & Hkept). cbn [mbind res_bind].
    destruct (CurrentTime_ok t1 Hr1) as (now & t2 & -> & Hr2 & Et). cbn [mbind res_bind].
    split; [done|]. split; [done|]. split; [done|]. cbn [snd received_fec_packets_ set_fec_packets].
    apply (insert_dated (received_fec_packets_ st) _ fp t t2 now Hd Eex).
    + etrans; [|apply Permutation_submseteq; exact Hp]. case_decide; [|done]. destruct fps; [done|]. by apply submseteq_cons.
    + intros x Hx _. rewrite Et. by apply Hkept.
Qed.

(** One call of [DecodeFec]. *)
Definition decoded (x : Decoder * Timing * list RecoveredPacket * nat * list Row)
    (y : Decoder * list RecoveredPacket * nat * list LogRow) : Prop :=
  let '(st, t, recs, n, rows) := x in
  y = (st, recs, n, omap engine_row rows) /\ running t /\ dated (received_fec_packets_ st) t.

Lemma discard_old_sublist q fps : discard_old_fec q fps `sublist_of` fps.
Proof. induction fps as [|fp fps IH]; [done|]. cbn. destruct (_ <? _); [by apply sublist_cons|done]. Qed.

Lemma DecodeFec_alike st t rp recs :
  bytes (rp_pkt rp) -> running t -> dated (received_fec_packets_ st) t ->
  alike decoded (DecodeFec st t rp recs) (FecDecoder.DecodeFec st rp recs).
Proof.
  intros Hb Hr Hd. unfold DecodeFec, FecDecoder.DecodeFec.
  assert (Hd0 : dated (received_fec_packets_ (reset_on_gap st rp recs).1) t).
  { unfold reset_on_gap. destruct (last recs); [|done]. destruct (_ && _); [|done]. cbn. split; [apply NoDup_nil_2|constructor]. }
  destruct (reset_on_gap st rp recs) as [st0 recs0]. cbn [fst] in Hd0.
  unfold InsertPacket, FecDecoder.InsertPacket.
  set (st1 := match received_fec_packets_ st0 with [] => st0 | _ => _ end).
  assert (Hd1 : dated (received_fec_packets_ st1) t).
  { unfold st1. destruct (received_fec_packets_ st0) as [|front fps] eqn:E; [by rewrite E|].
    destruct (_ =? _); [|by rewrite E]. eapply dated_sublist; [apply discard_old_sublist|exact Hd0]. }
  clearbody st1. assert (Hloop : forall st2 t2 recs2 rows, omap engine_row rows = [] -> running t2 -> dated (received_fec_packets_ st2) t2 ->
    alike decoded (let! a := AttemptRecovery st2 t2 recs2 in Ok (at_st a, at_time a, at_recovered a, at_num a, rows ++ at_log a))
      (let! a := FecDecoder.AttemptRecovery st2 recs2 in Ok (FecDecoder.at_st a, FecDecoder.at_recovered a, FecDecoder.at_num a, FecDecoder.at_log a))).
  { intros st2 t2 recs2 rows Erows Hr2 Hd2. unfold AttemptRecovery, FecDecoder.AttemptRecovery.
    eapply alike_bind; [apply (loop_alike _ (mkAttempt st2 recs2 0 [] 0 t2)); by split|].
    intros a b [-> [Hra Hda]]. cbn. split; [by rewrite omap_app, Erows|]. by split. }
  destruct (rp_is_fec rp).
  - pose proof (InsertFecPacket_alike st1 t recs0 rp Hb Hr Hd1) as Hins.
    destruct (InsertFecPacket st1 t recs0 rp) as [[[st2 rows] t2]|], (FecDecoder.InsertFecPacket st1 recs0 rp) as [st2'|]; try done.
    destruct Hins as (E2 & Erows & Hr2 & Hd2). cbn [fst snd mbind res_bind] in *. subst st2'. by apply Hloop.
  - destruct (InsertMediaPacket st1 recs0 rp) as [st2 recs2] eqn:Ei. cbn [mbind res_bind]. apply Hloop; [done|done|].
    revert Ei. unfold InsertMediaPacket. destruct (existsb _ _); intros [= <- <-]; [done|].
    cbn. eapply dated_seqs; [apply update_covering_seqs|done].
Qed.

End Alike.

(** ** A session *)

(** The packets [rps] one after the other, with everything that is logged. *)
Definition timed_session `{R : FecHeaderReader} (rps : list ReceivedPacket)
    (x : Decoder * Timing * list RecoveredPacket * list Row)
    : res (Decoder * Timing * list RecoveredPacket * list Row) :=
  foldM (fun '(st, t, recs, rows) rp =>
    let! (st, t, recs, n, rows') := DecodeFec st t rp recs in Ok (st, t, recs, rows ++ rows')) rps x.

Definition engine_session `{R : FecHeaderReader} (rps : list ReceivedPacket)
    (x : Decoder * list RecoveredPacket * list LogRow) : res (Decoder * list RecoveredPacket * list LogRow) :=
  foldM (fun '(st, recs, log) rp =>
    let! (st, recs, n, log') := FecDecoder.DecodeFec st rp recs in Ok (st, recs, log ++ log')) rps x.

Definition session_alike (x : Decoder * Timing * list RecoveredPacket * list Row)
    (y : Decoder * list RecoveredPacket * list LogRow) : Prop :=
  let '(st, t, recs, rows) := x in
  y = (st, recs, omap engine_row rows) /\ running t /\ dated (received_fec_packets_ st) t.

Lemma timed_session_alike `{R : FecHeaderReader} {RL : FecReaderLaws R} rps : forall x y,
  Forall (fun rp => bytes (rp_pkt rp)) rps -> session_alike x y ->
  alike session_alike (timed_session rps x) (engine_session rps y).
Proof.
  induction rps as [|rp rps IH]; intros [[[st t] recs] rows] y Hb (-> & Hr & Hd); [done|].
  apply Forall_cons_1 in Hb as [Hb Hbs]. unfold timed_session, engine_session. cbn [foldM].
  pose proof (DecodeFec_alike st t rp recs Hb Hr Hd) as Hone.
  destruct (DecodeFec st t rp recs) as [[[[[st' t'] recs'] n'] rows']|], (FecDecoder.DecodeFec st rp recs) as [[[[st2 recs2] n2] log2]|];
    cbn [mbind res_bind] in *; try done.
  destruct Hone as ([= -> -> -> ->] & Hr' & Hd'). apply IH; [done|]. split; [by rewrite omap_app|by split].
Qed.

(** C19. The decoder that is built decodes like the engine.  Given a clock, and fed
    any packets, the copy under [examples/customizationFEC/UlpFEC] and the
    decoder under [modules] keep the same FEC packets and return the same packets,
    and stop with the same fault if at all; of what the copy logs, the rows that
    both write are the same; and whenever a call returns, the copy knows for
    every FEC packet it holds when it came. *)
Theorem timed_decoder_alike `{R : FecHeaderReader} {RL : FecReaderLaws R} ssrc media_ssrc clock rps :
  Forall (fun rp => bytes (rp_pkt rp)) rps ->
  match timed_session rps (mkDecoder ssrc media_ssrc [], Timed.new (Some clock), [], []) with
  | Ok (st, t, recs, rows) =>
      engine_session rps (mkDecoder ssrc media_ssrc [], [], []) = Ok (st, recs, omap engine_row rows) /\
      Forall (fun fp => exists us, fec_receive_time_ t !! fp_seq_num fp = Some (Some us)) (received_fec_packets_ st)
  | Fault f => engine_session rps (mkDecoder ssrc media_ssrc [], [], []) = Fault f
  end.
Proof.
  intros Hb.
  assert (H0 : session_alike (mkDecoder ssrc media_ssrc [], Timed.new (Some clock), [], []) (mkDecoder ssrc media_ssrc [], [], [])).
  { split; [done|]. split; [by eexists|]. split; [apply NoDup_nil_2|constructor]. }
  pose proof (timed_session_alike rps _ _ Hb H0) as Hs.
  destruct (timed_session _ _) as [[[[st t] recs] rows]|], (engine_session _ _) as [y|]; try done.
  - destruct Hs as (-> & _ & _ & Hd). done.
  - cbn in Hs. by rewrite Hs.
Qed.

(** ** Without a clock *)

Lemma InsertFecPacket_null `{R : FecHeaderReader} st recs rp fp ps :
  received_fec_packets_ st = [] -> (0 < MaxStoredFecPackets)%nat ->
  ReadFecHeader (new_fec_packet (rp_ssrc rp) (rp_seq_num rp) (rp_pkt rp)) = Ok (Some fp) ->
  fp_protected_streams fp = [ps] -> ps_ssrc ps = protected_media_ssrc_ st ->
  (ps_packet_mask_offset ps + ps_packet_mask_size ps <= length (fp_pkt fp))%nat ->
  InsertFecPacket st CreateFlexfec recs rp = Fault NullDereference.
Proof.
  intros Hst Hmax Eread Eps Hss Hlen. unfold InsertFecPacket. rewrite Hst. cbn [existsb]. rewrite Eread. cbn [mbind res_bind].
  rewrite Eps. cbn [length Nat.eqb rtc_check mbind res_bind]. rewrite Hss, Z.eqb_refl. cbn [negb].
  rewrite decide_False, parse_packet_mask_spec by lia.
  cbn [mbind res_bind]. destruct (map _ _) as [|pp pps]; [done|]. unfold limit_buffer.
  rewrite decide_False by (rewrite list_sort_length; cbn; lia). done.
Qed.

#[local] Existing Instance Flexfec03.Flexfec03HeaderReader.
#[local] Existing Instance Flexfec03.Flexfec03HeaderWriter.

(** C36. Without a clock.  [CreateFlexfec] gives the copy no clock, and the copy reads it
    when it stores an FEC packet: every FEC packet that the FlexFEC encoder makes of
    a batch, whatever its number and whatever media has been received before,
    makes a new FlexFEC decoder dereference the null pointer.  The engine under
    [modules] decodes the same packet. *)
Theorem flexfec_null_clock e media pf ty ssrc media_ssrc :
  encoder_ok e -> media_batch media -> (span media <= 48)%nat ->
  Forall (fun p => media_ok 1480 p /\ rtp_ssrc p = media_ssrc) media -> 1 <= pf <= 255 ->
  exists e' fecs, EncodeFec (W := Flexfec03.Flexfec03HeaderWriter) e media pf 0 false ty = Ok (e', 0, fecs) /\ fecs <> [] /\
    forall fec seq_num, fec ∈ fecs ->
      (forall recs, DecodeFec (R := Flexfec03.Flexfec03HeaderReader) (mkDecoder ssrc media_ssrc []) CreateFlexfec
         (as_fec ssrc seq_num fec) recs = Fault NullDereference) /\
      (is_u16 seq_num -> exists x, FecDecoder.DecodeFec (R := Flexfec03.Flexfec03HeaderReader) (mkDecoder ssrc media_ssrc [])
         (as_fec ssrc seq_num fec) [] = Ok x).
Proof.
  intros He Hm Hspan Hmedia Hpf.
  assert (Hshort : short_media media) by (eapply Forall_impl; [exact Hmedia|]; intros p [[_ Hl _] _]; lia).
  destruct (EncodeFec_success (R := Flexfec03.Flexfec03HeaderReader) (W := Flexfec03.Flexfec03HeaderWriter) (own := false) e media pf 0 false ty He Hm Hshort Hspan Hpf ltac:(lia))
    as (e' & fecs & masks & _ & E & _ & Hmk & _ & Hl & Hr).
  exists e', fecs. split; [done|]. split; [intros ->; cbn in Hl; lia|]. intros fec seq_num [r Hfec]%list_elem_of_lookup.
  assert (Hhead : default 0 (rtp_ssrc <$> head media) = media_ssrc).
  { pose proof (batch_nonempty _ Hm). destruct media as [|p ps]; [done|]. by apply Forall_cons_1 in Hmedia as [[_ Hs] _]. }
  destruct (Hr r) as (fec' & E' & [Hb Hread]); [rewrite <- Hl; by eapply lookup_lt_Some|].
  rewrite Hfec in E'. injection E' as <-. rewrite Hhead in Hread. split.
  - intros recs. destruct (Hread ssrc seq_num) as (fp & ps & Eread & _ & _ & _ & Eps & Ess & _ & Hmask & _). unfold DecodeFec.
    assert (Hgap : (reset_on_gap (mkDecoder ssrc media_ssrc []) (as_fec ssrc seq_num fec) recs).1 = mkDecoder ssrc media_ssrc []).
    { unfold reset_on_gap. destruct (last recs); [|done]. by destruct (_ && _). }
    destruct (reset_on_gap _ _ recs) as [st recs0]. cbn [fst] in Hgap. subst st.
    unfold InsertPacket. cbn [received_fec_packets_ rp_is_fec as_fec].
    by rewrite (InsertFecPacket_null (mkDecoder ssrc media_ssrc []) recs0 (as_fec ssrc seq_num fec) fp ps eq_refl (stored_pos (R := Flexfec03.Flexfec03HeaderReader)) Eread Eps Ess Hmask).
  - intros Hq. destruct (DecodeFec_ok (R := Flexfec03.Flexfec03HeaderReader) (mkDecoder ssrc media_ssrc []) (as_fec ssrc seq_num fec) [])
      as [(st' & recs' & n & log & -> & _)|[_ Hh]]; [..|by eexists|].
    + apply decoder_init.
    + by split.
    + cbn in Hh. pose proof (tracked_pos (R := Flexfec03.Flexfec03HeaderReader)). lia.
Qed.

(** ** Witnesses *)

Definition timed_fec : Packet := Eval vm_compute in
  match EncodeFec encoder0 batch_abc 128 0 false kFecMaskRandom with
  | Ok (_, _, fec :: _) => fec
  | _ => []
  end.

(** A media packet and an FEC packet arrive, at 100 and 200 microseconds. *)
Definition timed_packets : list ReceivedPacket := [as_media media_a; as_fec 33 77 timed_fec].

Lemma timed_decoder_alike_witness :
  exists st t recs rows,
    timed_session timed_packets (mkDecoder 33 (rtp_ssrc media_a) [], Timed.new (Some (fun n => 100 * Z.of_nat (S n))), [], []) =
      Ok (st, t, recs, rows) /\
    engine_session timed_packets (mkDecoder 33 (rtp_ssrc media_a) [], [], []) = Ok (st, recs, omap engine_row rows) /\
    length recs = 2%nat.
Proof.
  pose proof (timed_decoder_alike 33 (rtp_ssrc media_a) (fun n => 100 * Z.of_nat (S n)) timed_packets
    ltac:(repeat (apply Forall_cons_2; [compute_bytes|]); constructor)) as Hs.
  assert (Hc : match timed_session timed_packets (mkDecoder 33 (rtp_ssrc media_a) [], Timed.new (Some (fun n => 100 * Z.of_nat (S n))), [], [])
    with Ok (_, _, recs, _) => length recs | Fault _ => 0%nat end = 2%nat) by (vm_compute; reflexivity).
  destruct (timed_session timed_packets _) as [[[[st t] recs] rows]|]; [|discriminate Hc].
  exists st, t, recs, rows. split; [reflexivity|]. split; [exact (proj1 Hs)|exact Hc].
Defined.

Lemma flexfec_null_clock_witness :
  exists e' fecs, EncodeFec encoder0 batch_abc 128 0 false kFecMaskRandom = Ok (e', 0, fecs) /\ fecs <> [] /\
    forall fec, fec ∈ fecs -> DecodeFec (mkDecoder 33 (rtp_ssrc media_a) []) CreateFlexfec (as_fec 33 77 fec) [] =
      Fault NullDereference.
Proof.
  destruct (flexfec_null_clock encoder0 batch_abc 128 kFecMaskRandom 33 (rtp_ssrc media_a) encoder0_ok batch_abc_ok
    ltac:(compute_le)) as (e' & fecs & E & Hne & Hall).
  - repeat (apply Forall_cons_2; [split; [split; [compute_bytes|split; compute_le|]|done]|]); [..|done]; eexists; done.
  - lia.
  - exists e', fecs. split; [exact E|]. split; [exact Hne|]. intros fec Hfec. exact (proj1 (Hall fec 77 Hfec) []).
Defined.
