(* ===== verification/CowBuffer.v ===== *)
(** * CowBuffer: [rtc_base/buffer.h] and [rtc_base/copy_on_write_buffer.{h,cc}]

    [rtc::Buffer] is a heap block with a used prefix; [rtc::CopyOnWriteBuffer]
    is a slice of a shared, reference-counted [Buffer].  RTP packets write
    beyond [size()] and inside [capacity()] before they grow the size, so the
    model keeps the whole block.  Sharing is the flag [cow_one_ref], the value
    of [HasOneRef()]; a block that is (or may be) shared is copied before it
    is written, and what the copy holds beyond the copied bytes is whatever
    the heap hands out ([Heap]). *)

From S2P Require Import Prelude.

(** The contents of a block returned by [new uint8_t[n]]. *)
Class Heap : Type := {
  fresh : nat -> list Z;
  length_fresh : forall n, length (fresh n) = n;
  bytes_fresh : forall n, bytes (fresh n)
}.

(** A heap that hands out zeroed blocks, for concrete runs. *)
#[export] Instance zero_heap : Heap.
Proof.
  refine {| fresh := fun n => replicate n 0;
            length_fresh := fun n => length_replicate n 0 |}.
  intros n. apply Forall_replicate. by vm_compute.
Defined.

(** ** [BufferT<uint8_t, false>] *)

Module Buffer.

Record t : Type := mk {
  size_ : nat;
  data_ : list Z
}.

(** [capacity_] is the length of the block. *)
Definition capacity_ (b : t) : nat := length (data_ b).

Definition IsConsistent (b : t) : bool := (size_ b <=? capacity_ b)%nat.

Section WithHeap.
Context `{Heap}.

(** [BufferT(size, capacity)]. *)
Definition of_size (size capacity : nat) : t :=
  mk size (fresh (Nat.max size capacity)).

(** [BufferT(data, size, capacity)]: [size = length src]. *)
Definition of_data (src : list Z) (capacity : nat) : t :=
  mk (length src) (src ++ drop (length src) (fresh (Nat.max (length src) capacity))).

Definition EnsureCapacityWithHeadroom (b : t) (capacity : nat) (extra_headroom : bool) : t :=
  if (capacity <=? capacity_ b)%nat then b else
  let new_capacity :=
    if extra_headroom then Nat.max capacity (capacity_ b + capacity_ b / 2) else capacity in
  mk (size_ b) (take (size_ b) (data_ b) ++ drop (size_ b) (fresh new_capacity)).

Definition SetSize (b : t) (size : nat) : t :=
  mk size (data_ (EnsureCapacityWithHeadroom b size true)).

Definition EnsureCapacity (b : t) (capacity : nat) : t :=
  EnsureCapacityWithHeadroom b capacity false.

Definition AppendData (b : t) (src : list Z) : t :=
  if (length src =? 0)%nat then b else
  let new_size := (size_ b + length src)%nat in
  let b1 := EnsureCapacityWithHeadroom b new_size true in
  mk new_size (take (size_ b) (data_ b1) ++ src ++ drop new_size (data_ b1)).

Definition SetData (b : t) (src : list Z) : t := AppendData (mk 0 (data_ b)) src.

Definition Clear (b : t) : t := mk 0 (data_ b).

End WithHeap.
End Buffer.

(** ** [CopyOnWriteBuffer] *)

Module Cow.

Record t : Type := mk {
  buffer_ : option Buffer.t;
  offset_ : nat;
  size_ : nat;
  one_ref : bool
}.

(** [capacity()]. *)
Definition capacity (b : t) : nat :=
  match buffer_ b with
  | Some buf => (Buffer.capacity_ buf - offset_ b)%nat
  | None => 0%nat
  end.

(** [IsConsistent()]: pre- and postcondition of every method. *)
Definition IsConsistent (b : t) : bool :=
  match buffer_ b with
  | Some buf => (0 <? Buffer.capacity_ buf)%nat && (offset_ b <=? Buffer.size_ buf)%nat &&
                (offset_ b + size_ b <=? Buffer.size_ buf)%nat
  | None => (size_ b =? 0)%nat && (offset_ b =? 0)%nat
  end.

(** The block from [cdata()] to its end, and the bytes the slice denotes. *)
Definition view (b : t) : list Z :=
  match buffer_ b with Some buf => drop (offset_ b) (Buffer.data_ buf) | None => [] end.

Definition contents (b : t) : list Z := take (size_ b) (view b).

Section WithHeap.
Context `{Heap}.

(** [CopyOnWriteBuffer(size)]. *)
Definition of_size (size : nat) : t :=
  mk (if (0 <? size)%nat then Some (Buffer.of_size size size) else None) 0 size true.

(** [CopyOnWriteBuffer(data, size)]. *)
Definition of_data (src : list Z) : t :=
  mk (if (0 <? length src)%nat then Some (Buffer.of_data src (length src)) else None)
     0 (length src) true.

(** Copying a [CopyOnWriteBuffer] adds a reference to the block: neither the
    copy nor the original has the only reference any more. *)
Definition share (b : t) : t := mk (buffer_ b) (offset_ b) (size_ b) false.

Definition UnshareAndEnsureCapacity (b : t) (buf : Buffer.t) (new_capacity : nat)
    : Buffer.t * nat * bool :=
  if one_ref b && (new_capacity <=? capacity b)%nat then (buf, offset_ b, one_ref b)
  else (Buffer.of_data (take (size_ b) (drop (offset_ b) (Buffer.data_ buf))) new_capacity,
        0%nat, true).

(** [f] writes through [MutableData()]; a null block has nothing to write to. *)
Definition mutate (f : list Z -> res (list Z)) (b : t) : res t :=
  match buffer_ b with
  | None => Fault OutOfBounds
  | Some buf =>
      let '(buf1, off, one) := UnshareAndEnsureCapacity b buf (capacity b) in
      let! v := f (drop off (Buffer.data_ buf1)) in
      Ok (mk (Some (Buffer.mk (Buffer.size_ buf1) (take off (Buffer.data_ buf1) ++ v)))
             off (size_ b) one)
  end.

(** [cdata()[i]]. *)
Definition read (b : t) (i : nat) : res Z := buf_get (view b) i.

Definition SetData (b : t) (src : list Z) : t :=
  match buffer_ b with
  | None => mk (if (0 <? length src)%nat then Some (Buffer.of_data src (length src)) else None)
               0 (length src) true
  | Some buf =>
      let buf1 := if negb (one_ref b) then Buffer.of_data src (capacity b)
                  else Buffer.SetData buf src in
      mk (Some buf1) 0 (length src) true
  end.

Definition AppendData (b : t) (src : list Z) : t :=
  match buffer_ b with
  | None => mk (Some (Buffer.of_data src (length src))) 0 (length src) true
  | Some buf =>
      let '(buf1, off, one) :=
        UnshareAndEnsureCapacity b buf (Nat.max (capacity b) (size_ b + length src)) in
      let buf2 := Buffer.SetSize buf1 (off + size_ b) in
      let buf3 := Buffer.AppendData buf2 src in
      mk (Some buf3) off (size_ b + length src) one
  end.

Definition SetSize (b : t) (size : nat) : t :=
  match buffer_ b with
  | None => if (0 <? size)%nat then mk (Some (Buffer.of_size size size)) 0 size true else b
  | Some buf =>
      if (size <=? size_ b)%nat then mk (Some buf) (offset_ b) size (one_ref b) else
      let '(buf1, off, one) :=
        UnshareAndEnsureCapacity b buf (Nat.max (capacity b) size) in
      mk (Some (Buffer.SetSize buf1 (size + off))) off size one
  end.

Definition EnsureCapacity (b : t) (new_capacity : nat) : t :=
  match buffer_ b with
  | None => if (0 <? new_capacity)%nat
            then mk (Some (Buffer.of_size 0 new_capacity)) 0 0 true else b
  | Some buf =>
      if (new_capacity <=? capacity b)%nat then b else
      let '(buf1, off, one) := UnshareAndEnsureCapacity b buf new_capacity in
      mk (Some buf1) off (size_ b) one
  end.

Definition Clear (b : t) : t :=
  match buffer_ b with
  | None => b
  | Some buf =>
      let buf1 := if one_ref b then Buffer.Clear buf else Buffer.of_size 0 (capacity b) in
      mk (Some buf1) 0 0 true
  end.

(** [Slice(offset, length)]: shares the block. *)
Definition Slice (b : t) (offset length : nat) : t :=
  mk (buffer_ b) (offset_ b + offset) length false.

End WithHeap.
End Cow.

(** ** Laws: a copy-on-write slice behaves as a value *)

(** The class invariant: [IsConsistent()] of both objects, on bytes. *)
Definition cow_ok (b : Cow.t) : Prop :=
  Cow.IsConsistent b = true /\
  match Cow.buffer_ b with
  | Some buf => Buffer.IsConsistent buf = true /\ bytes (Buffer.data_ buf)
  | None => True
  end.

Lemma cow_ok_some buf off n one :
  cow_ok (Cow.mk (Some buf) off n one) <->
  (0 < length (Buffer.data_ buf) /\ off + n <= Buffer.size_ buf /\
   Buffer.size_ buf <= length (Buffer.data_ buf))%nat /\ bytes (Buffer.data_ buf).
Proof.
  unfold cow_ok, Cow.IsConsistent, Buffer.IsConsistent, Buffer.capacity_.
  cbn [Cow.buffer_ Cow.offset_ Cow.size_].
  rewrite !andb_true_iff, Nat.ltb_lt, !Nat.leb_le.
  split; [intros [[[??]?][??]]|intros [(?&?&?) ?]]; repeat split; auto; lia.
Qed.

Lemma cow_ok_none off n one :
  cow_ok (Cow.mk None off n one) <-> (n = 0 /\ off = 0)%nat.
Proof.
  unfold cow_ok, Cow.IsConsistent. cbn [Cow.buffer_ Cow.offset_ Cow.size_].
  rewrite andb_true_iff, !Nat.eqb_eq. tauto.
Qed.

Lemma cow_ok_view b : cow_ok b -> bytes (Cow.view b) /\ (Cow.size_ b <= length (Cow.view b))%nat.
Proof.
  destruct b as [[buf|] off n one]; unfold Cow.view; cbn.
  - rewrite cow_ok_some, length_drop. intros [? ?]. split; [by apply Forall_drop|lia].
  - rewrite cow_ok_none. cbn. split; [constructor|lia].
Qed.

Lemma length_view b : length (Cow.view b) = Cow.capacity b.
Proof.
  unfold Cow.view, Cow.capacity, Buffer.capacity_.
  destruct (Cow.buffer_ b); [apply length_drop|done].
Qed.

Lemma length_contents b : cow_ok b -> length (Cow.contents b) = Cow.size_ b.
Proof. intros [_ ?]%cow_ok_view. unfold Cow.contents. rewrite length_take. lia. Qed.

Lemma bytes_contents b : cow_ok b -> bytes (Cow.contents b).
Proof. intros [? _]%cow_ok_view. by apply Forall_take. Qed.

Lemma contents_lookup b i : (i < Cow.size_ b)%nat -> Cow.contents b !! i = Cow.view b !! i.
Proof. intros. unfold Cow.contents. by rewrite lookup_take_lt. Qed.

Lemma share_contents b : Cow.contents (Cow.share b) = Cow.contents b.
Proof. reflexivity. Qed.

Lemma share_ok b : cow_ok (Cow.share b) <-> cow_ok b.
Proof. reflexivity. Qed.

Section Laws.
Context `{Heap}.

Lemma of_data_block src cap :
  length (Buffer.data_ (Buffer.of_data src cap)) = Nat.max (length src) cap /\
  take (length src) (Buffer.data_ (Buffer.of_data src cap)) = src /\
  (bytes src -> bytes (Buffer.data_ (Buffer.of_data src cap))).
Proof.
  cbn. rewrite length_app, length_drop, length_fresh, take_app_length.
  split; [lia|]. split; [done|]. intros. apply Forall_app. split; [done|].
  apply Forall_drop, bytes_fresh.
Qed.

(** Unsharing keeps the bytes of the slice and reaches the new capacity. *)
Lemma unshare_block b buf cap :
  Cow.buffer_ b = Some buf -> cow_ok b -> (Cow.capacity b <= cap)%nat -> (0 < cap)%nat ->
  exists buf1 off one, Cow.UnshareAndEnsureCapacity b buf cap = (buf1, off, one) /\
    let b1 := Cow.mk (Some buf1) off (Cow.size_ b) one in
    cow_ok b1 /\ Cow.contents b1 = Cow.contents b /\ Cow.capacity b1 = cap.
Proof.
  destruct b as [ob off n one]; cbn. intros -> Hok Hcap Hpos.
  pose proof Hok as [Hsz Hb]%cow_ok_some.
  unfold Cow.UnshareAndEnsureCapacity. cbn [Cow.one_ref Cow.size_ Cow.offset_].
  destruct (one && _)%bool eqn:E.
  - apply andb_true_iff in E as [-> E%Nat.leb_le].
    exists buf, off, true. split; [done|]. cbn zeta. do 2 (split; [done|]).
    unfold Cow.capacity in *; cbn in *; lia.
  - set (src := take n (drop off (Buffer.data_ buf))).
    assert (Hsrc : length src = n) by (unfold src; rewrite length_take, length_drop; lia).
    destruct (of_data_block src cap) as (Hlen & Htake & Hbytes).
    exists (Buffer.of_data src cap), 0%nat, true. split; [done|]. cbn zeta.
    unfold Cow.capacity, Buffer.capacity_ in Hcap; cbn in Hcap.
    split.
    { apply cow_ok_some. rewrite Hlen. cbn [Buffer.size_ Buffer.of_data]. rewrite Hsrc.
      split; [lia|]. apply Hbytes. by apply Forall_take, Forall_drop. }
    unfold Cow.contents, Cow.view, Cow.capacity, Buffer.capacity_. cbn [Cow.buffer_ Cow.offset_ Cow.size_].
    rewrite drop_0, Nat.sub_0_r, Hlen. split; [|lia]. by rewrite <- Hsrc at 1.
Qed.

(** Writing through [MutableData()]: the writer sees a block of the same
    capacity that holds the contents, and the result is what it wrote. *)
Lemma mutate_spec f b :
  cow_ok b -> (0 < Cow.capacity b)%nat ->
  exists v, length v = Cow.capacity b /\ bytes v /\ take (Cow.size_ b) v = Cow.contents b /\
    forall v', f v = Ok v' -> length v' = length v -> bytes v' ->
      exists b', Cow.mutate f b = Ok b' /\ cow_ok b' /\ Cow.view b' = v' /\
        Cow.size_ b' = Cow.size_ b.
Proof.
  intros Hok Hpos. destruct (Cow.buffer_ b) as [buf|] eqn:Eb;
    [|by unfold Cow.capacity in Hpos; rewrite Eb in Hpos; lia].
  destruct (unshare_block b buf (Cow.capacity b) Eb Hok) as (buf1 & off & one & E & Hb1); [done..|].
  cbn zeta in Hb1. destruct Hb1 as (Hok1 & Hcon & Hcap).
  pose proof Hok1 as [Hsz Hby]%cow_ok_some.
  exists (drop off (Buffer.data_ buf1)).
  split; [by rewrite <- Hcap, <- length_view|].
  split; [by apply Forall_drop|]. split; [exact Hcon|].
  intros v' Hf Hlen Hv'. unfold Cow.mutate. rewrite Eb, E. cbn [mbind res_bind]. rewrite Hf. cbn.
  eexists. split; [done|]. rewrite length_drop in Hlen.
  assert (Hoff : length (take off (Buffer.data_ buf1)) = off) by (rewrite length_take; lia).
  split.
  { apply cow_ok_some. cbn. rewrite length_app, Hoff, Hlen.
    split; [lia|]. apply Forall_app. split; [by apply Forall_take|done]. }
  unfold Cow.view. cbn. split; [|done]. by apply drop_app_length'.
Qed.

(** A write that stays inside the contents acts on the contents alone. *)
Definition local_write (n : nat) (f g : list Z -> res (list Z)) : Prop :=
  forall v, bytes v -> (n <= length v)%nat ->
    exists v', f v = Ok v' /\ g (take n v) = Ok (take n v') /\
      length v' = length v /\ bytes v'.

Lemma mutate_local f g b :
  cow_ok b -> (0 < Cow.capacity b)%nat -> local_write (Cow.size_ b) f g ->
  exists b', Cow.mutate f b = Ok b' /\ cow_ok b' /\ Cow.capacity b' = Cow.capacity b /\
    Cow.size_ b' = Cow.size_ b /\ g (Cow.contents b) = Ok (Cow.contents b').
Proof.
  intros Hok Hpos Hloc. destruct (mutate_spec f b Hok Hpos) as (v & Hlen & Hby & Htake & Hspec).
  destruct (cow_ok_view b Hok) as [_ Hsz]. rewrite length_view in Hsz.
  destruct (Hloc v Hby) as (v' & Hf & Hg & Hlen' & Hby'); [lia|].
  destruct (Hspec v' Hf Hlen' Hby') as (b' & Hm & Hok' & Hview & Hsize).
  exists b'. split; [done|]. split; [done|].
  split; [by rewrite <- length_view, Hview, Hlen', Hlen|]. split; [done|].
  rewrite <- Htake, Hg. unfold Cow.contents. by rewrite Hview, Hsize.
Qed.

Lemma buffer_SetSize_block buf n :
  (n <= Buffer.capacity_ buf)%nat -> Buffer.SetSize buf n = Buffer.mk n (Buffer.data_ buf).
Proof.
  intros Hn. unfold Buffer.SetSize, Buffer.EnsureCapacityWithHeadroom.
  by rewrite (proj2 (Nat.leb_le _ _)) by done.
Qed.

(** [SetSize] keeps the common prefix and grows the block on demand. *)
Lemma SetSize_spec b n :
  cow_ok b -> (0 < Cow.capacity b)%nat ->
  cow_ok (Cow.SetSize b n) /\ Cow.size_ (Cow.SetSize b n) = n /\
  take (Nat.min n (Cow.size_ b)) (Cow.contents (Cow.SetSize b n)) =
    take (Nat.min n (Cow.size_ b)) (Cow.contents b) /\
  Cow.capacity (Cow.SetSize b n) = Nat.max (Cow.capacity b) n.
Proof.
  intros Hok Hpos. destruct (cow_ok_view b Hok) as [_ Hle]. rewrite length_view in Hle.
  unfold Cow.SetSize. destruct (Cow.buffer_ b) as [buf|] eqn:Eb;
    [|by unfold Cow.capacity in Hpos; rewrite Eb in Hpos; lia].
  destruct (n <=? Cow.size_ b)%nat eqn:En.
  { apply Nat.leb_le in En. destruct b as [ob off m one]; cbn in *. subst ob.
    pose proof Hok as [? ?]%cow_ok_some. split; [apply cow_ok_some; split; [lia|done]|].
    split; [done|]. unfold Cow.contents, Cow.view, Cow.capacity in *; cbn in *.
    rewrite !take_take. split; [f_equal; lia|lia]. }
  apply Nat.leb_gt in En.
  destruct (unshare_block b buf (Nat.max (Cow.capacity b) n) Eb Hok)
    as (buf1 & off & one & E & Hb1); [lia..|]. rewrite E.
  cbn zeta in Hb1. destruct Hb1 as (Hok1 & Hcon & Hcap).
  pose proof Hok1 as [Hsz Hby]%cow_ok_some.
  unfold Cow.capacity at 1, Buffer.capacity_ in Hcap; cbn in Hcap.
  rewrite buffer_SetSize_block by (unfold Buffer.capacity_; lia).
  split; [apply cow_ok_some; cbn; split; [lia|done]|]. split; [done|].
  rewrite <- Hcon. unfold Cow.contents, Cow.view, Cow.capacity, Buffer.capacity_; cbn.
  rewrite !take_take. split; [f_equal; lia|exact Hcap].
Qed.

(** Growing inside the capacity of an unshared block exposes what was written
    there. *)
Lemma SetSize_view b n :
  cow_ok b -> (0 < Cow.capacity b)%nat -> Cow.one_ref b = true -> (n <= Cow.capacity b)%nat ->
  Cow.view (Cow.SetSize b n) = Cow.view b.
Proof.
  intros Hok Hpos Hone Hn. unfold Cow.SetSize. destruct (Cow.buffer_ b) as [buf|] eqn:Eb;
    [|by unfold Cow.capacity in Hpos; rewrite Eb in Hpos; lia].
  destruct (n <=? Cow.size_ b)%nat; [by unfold Cow.view; rewrite Eb|].
  unfold Cow.UnshareAndEnsureCapacity. rewrite Hone, Nat.max_l by done.
  rewrite (proj2 (Nat.leb_le _ _)) by done. cbn [andb].
  destruct b as [ob off m one]; cbn in *; subst. apply cow_ok_some in Hok as [??].
  unfold Cow.capacity in Hn, Hpos; cbn in Hn, Hpos. unfold Cow.view. cbn.
  pose proof (buffer_SetSize_block buf (n + off)) as E.
  unfold Buffer.SetSize in E. unfold Buffer.capacity_ in *.
  assert (E' : (n + off <= length (Buffer.data_ buf))%nat) by lia.
  apply E in E'. injection E' as ->. done.
Qed.

Lemma mutate_one_ref f b b' : Cow.mutate f b = Ok b' -> Cow.one_ref b' = true.
Proof.
  unfold Cow.mutate. destruct (Cow.buffer_ b) as [buf|]; [|done].
  unfold Cow.UnshareAndEnsureCapacity. destruct (_ && _)%bool eqn:E.
  - intros (v & _ & [= <-])%bind_ok_inv. by apply andb_true_iff in E as [-> _].
  - by intros (v & _ & [= <-])%bind_ok_inv.
Qed.

Lemma buffer_SetData_block buf src :
  (0 < length src)%nat -> Buffer.size_ (Buffer.SetData buf src) = length src /\
  take (length src) (Buffer.data_ (Buffer.SetData buf src)) = src /\
  (length src <= length (Buffer.data_ (Buffer.SetData buf src)))%nat /\
  (bytes src -> bytes (Buffer.data_ buf) -> bytes (Buffer.data_ (Buffer.SetData buf src))).
Proof.
  intros Hpos. unfold Buffer.SetData, Buffer.AppendData.
  rewrite (proj2 (Nat.eqb_neq _ _)) by lia. cbn. rewrite take_0. cbn.
  rewrite take_app_length. split; [done|]. split; [done|].
  split; [rewrite length_app; lia|]. intros Hs Hb. apply Forall_app. split; [done|].
  apply Forall_drop. unfold Buffer.EnsureCapacityWithHeadroom. cbn.
  destruct (_ <=? _)%nat; [done|]. cbn. by apply bytes_fresh.
Qed.

Lemma SetData_spec b src :
  cow_ok b -> bytes src -> (0 < length src)%nat ->
  cow_ok (Cow.SetData b src) /\ Cow.contents (Cow.SetData b src) = src /\
  Cow.size_ (Cow.SetData b src) = length src.
Proof.
  intros Hok Hsrc Hpos. unfold Cow.SetData.
  destruct (of_data_block src (length src)) as (Hl1 & Ht1 & Hb1).
  destruct (of_data_block src (Cow.capacity b)) as (Hl2 & Ht2 & Hb2).
  destruct (Cow.buffer_ b) as [buf|] eqn:Eb.
  2:{ rewrite (proj2 (Nat.ltb_lt _ _)) by done. split; [|done].
      apply cow_ok_some. rewrite Hl1. cbn [Buffer.size_ Buffer.of_data].
      split; [lia|]. by apply Hb1. }
  destruct b as [ob off n one]; cbn in Eb; subst ob. apply cow_ok_some in Hok as [Hsz Hby].
  cbn [Cow.one_ref]. destruct one; cbn [negb].
  - destruct (buffer_SetData_block buf src Hpos) as (H1 & H2 & H3 & H4).
    split; [|split; [exact H2|done]]. apply cow_ok_some. rewrite H1. split; [lia|auto].
  - split; [|split; [exact Ht2|done]]. apply cow_ok_some. rewrite Hl2.
    cbn [Buffer.size_ Buffer.of_data]. split; [lia|auto].
Qed.

Lemma buffer_AppendData_block buf src :
  (Buffer.size_ buf + length src <= length (Buffer.data_ buf))%nat ->
  (Buffer.size_ (Buffer.AppendData buf src) = Buffer.size_ buf + length src)%nat /\
  Buffer.data_ (Buffer.AppendData buf src) =
    take (Buffer.size_ buf) (Buffer.data_ buf) ++ src ++
    drop (Buffer.size_ buf + length src) (Buffer.data_ buf).
Proof.
  intros Hle. unfold Buffer.AppendData. destruct (length src =? 0)%nat eqn:E.
  - apply Nat.eqb_eq in E. destruct src; [|done]. cbn. rewrite Nat.add_0_r. split; [done|].
    by rewrite take_drop.
  - cbn. unfold Buffer.EnsureCapacityWithHeadroom, Buffer.capacity_.
    by rewrite (proj2 (Nat.leb_le _ _)) by done.
Qed.

(** [AppendData] concatenates, whatever the block was shared with. *)
Lemma AppendData_spec b src :
  cow_ok b -> (0 < Cow.capacity b)%nat -> bytes src ->
  cow_ok (Cow.AppendData b src) /\ Cow.contents (Cow.AppendData b src) = Cow.contents b ++ src.
Proof.
  intros Hok Hpos Hsrc. unfold Cow.AppendData.
  destruct (Cow.buffer_ b) as [buf|] eqn:Eb;
    [|by unfold Cow.capacity in Hpos; rewrite Eb in Hpos; lia].
  destruct (unshare_block b buf (Nat.max (Cow.capacity b) (Cow.size_ b + length src)) Eb Hok)
    as (buf1 & off & one & E & Hb1); [lia..|]. rewrite E. cbn zeta in Hb1.
  destruct Hb1 as (Hok1 & Hcon & Hcap). pose proof Hok1 as [Hsz Hby]%cow_ok_some.
  unfold Cow.capacity at 1, Buffer.capacity_ in Hcap. cbn [Cow.buffer_ Cow.offset_] in Hcap.
  rewrite buffer_SetSize_block by (unfold Buffer.capacity_; lia).
  destruct (buffer_AppendData_block (Buffer.mk (off + Cow.size_ b) (Buffer.data_ buf1)) src)
    as [H1 H2]; cbn [Buffer.size_ Buffer.data_] in *; [lia|].
  assert (Hl : length (take (off + Cow.size_ b) (Buffer.data_ buf1)) = (off + Cow.size_ b)%nat)
    by (rewrite length_take; lia).
  split.
  { apply cow_ok_some. rewrite H1, H2, !length_app, Hl, length_drop. split; [lia|].
    apply Forall_app; split; [by apply Forall_take|].
    apply Forall_app; split; [done|by apply Forall_drop]. }
  rewrite <- Hcon. unfold Cow.contents, Cow.view. cbn [Cow.buffer_ Cow.offset_ Cow.size_].
  rewrite H2, drop_app_le by lia. rewrite <- take_drop_commute.
  rewrite app_assoc, take_app_le, take_ge; [done|..];
    rewrite ?length_app, ?length_take, ?length_drop; lia.
Qed.

Lemma Slice_spec b off n :
  cow_ok b -> (off + n <= Cow.size_ b)%nat ->
  cow_ok (Cow.Slice b off n) /\
  Cow.contents (Cow.Slice b off n) = take n (drop off (Cow.contents b)).
Proof.
  destruct b as [[buf|] o m one]; unfold Cow.Slice; cbn -[cow_ok]; intros Hok Hle.
  - apply cow_ok_some in Hok as [??]. split; [apply cow_ok_some; split; [lia|done]|].
    unfold Cow.contents, Cow.view. cbn.
    rewrite (take_drop_commute _ n off), take_take, Nat.min_l by lia.
    by rewrite <- take_drop_commute, drop_drop.
  - apply cow_ok_none in Hok. split; [apply cow_ok_none; lia|].
    unfold Cow.contents, Cow.view. cbn. by rewrite !take_nil, drop_nil, take_nil.
Qed.

End Laws.
