(* ===== verification/RtpExtensions.v ===== *)
(** * RtpExtensions: [modules/rtp_rtcp/{include/rtp_header_extension_map.h,
      source/rtp_header_extension_map.cc}]

    The map between the header-extension types this implementation knows and
    the ids a session negotiated for them.  [ids_] is the array indexed by
    type; id 0 means "not registered".  The invariant is that it is a partial
    bijection: no two types share an id. *)

From stdpp Require Import strings.
From S2P Require Import Prelude.
#[local] Open Scope Z_scope.

(** [enum RTPExtensionType] (the deprecated aliases are synonyms). *)
Inductive RTPExtensionType : Set :=
| kRtpExtensionNone
| kRtpExtensionTransmissionTimeOffset
| kRtpExtensionAudioLevel
| kRtpExtensionCsrcAudioLevel
| kRtpExtensionInbandComfortNoise
| kRtpExtensionAbsoluteSendTime
| kRtpExtensionAbsoluteCaptureTime
| kRtpExtensionVideoRotation
| kRtpExtensionTransportSequenceNumber
| kRtpExtensionTransportSequenceNumber02
| kRtpExtensionPlayoutDelay
| kRtpExtensionVideoContentType
| kRtpExtensionVideoLayersAllocation
| kRtpExtensionVideoTiming
| kRtpExtensionRtpStreamId
| kRtpExtensionRepairedRtpStreamId
| kRtpExtensionMid
| kRtpExtensionGenericFrameDescriptor
| kRtpExtensionDependencyDescriptor
| kRtpExtensionColorSpace
| kRtpExtensionVideoFrameTrackingId
| kRtpExtensionCorruptionDetection
| kRtpExtensionNumberOfExtensions.

#[export] Instance RTPExtensionType_eq_dec : EqDecision RTPExtensionType.
Proof. solve_decision. Defined.

(** The enumerators in order: [static_cast] between the enum and [int]. *)
Definition all_types : list RTPExtensionType :=
  [kRtpExtensionNone; kRtpExtensionTransmissionTimeOffset; kRtpExtensionAudioLevel;
   kRtpExtensionCsrcAudioLevel; kRtpExtensionInbandComfortNoise;
   kRtpExtensionAbsoluteSendTime; kRtpExtensionAbsoluteCaptureTime;
   kRtpExtensionVideoRotation; kRtpExtensionTransportSequenceNumber;
   kRtpExtensionTransportSequenceNumber02; kRtpExtensionPlayoutDelay;
   kRtpExtensionVideoContentType; kRtpExtensionVideoLayersAllocation;
   kRtpExtensionVideoTiming; kRtpExtensionRtpStreamId; kRtpExtensionRepairedRtpStreamId;
   kRtpExtensionMid; kRtpExtensionGenericFrameDescriptor;
   kRtpExtensionDependencyDescriptor; kRtpExtensionColorSpace;
   kRtpExtensionVideoFrameTrackingId; kRtpExtensionCorruptionDetection;
   kRtpExtensionNumberOfExtensions].

Definition type_index (t : RTPExtensionType) : nat :=
  match t with
  | kRtpExtensionNone => 0 | kRtpExtensionTransmissionTimeOffset => 1
  | kRtpExtensionAudioLevel => 2 | kRtpExtensionCsrcAudioLevel => 3
  | kRtpExtensionInbandComfortNoise => 4 | kRtpExtensionAbsoluteSendTime => 5
  | kRtpExtensionAbsoluteCaptureTime => 6 | kRtpExtensionVideoRotation => 7
  | kRtpExtensionTransportSequenceNumber => 8
  | kRtpExtensionTransportSequenceNumber02 => 9 | kRtpExtensionPlayoutDelay => 10
  | kRtpExtensionVideoContentType => 11 | kRtpExtensionVideoLayersAllocation => 12
  | kRtpExtensionVideoTiming => 13 | kRtpExtensionRtpStreamId => 14
  | kRtpExtensionRepairedRtpStreamId => 15 | kRtpExtensionMid => 16
  | kRtpExtensionGenericFrameDescriptor => 17 | kRtpExtensionDependencyDescriptor => 18
  | kRtpExtensionColorSpace => 19 | kRtpExtensionVideoFrameTrackingId => 20
  | kRtpExtensionCorruptionDetection => 21 | kRtpExtensionNumberOfExtensions => 22
  end%nat.

(** [RtpExtension::kMinId] and its neighbours in [api/rtp_parameters.h]. *)
Definition kMinId : Z := 1.
Definition kMaxId : Z := 255.
Definition kMaxValueSize : nat := 255.
Definition kOneByteHeaderExtensionMaxId : Z := 14.
Definition kOneByteHeaderExtensionMaxValueSize : nat := 16.

(** [kExtensions]: each extension class's [kId] and [Uri()]. *)
Definition kExtensions : list (RTPExtensionType * string) :=
  [(kRtpExtensionTransmissionTimeOffset, "urn:ietf:params:rtp-hdrext:toffset");
   (kRtpExtensionAudioLevel, "urn:ietf:params:rtp-hdrext:ssrc-audio-level");
   (kRtpExtensionCsrcAudioLevel, "urn:ietf:params:rtp-hdrext:csrc-audio-level");
   (kRtpExtensionAbsoluteSendTime,
    "http://www.webrtc.org/experiments/rtp-hdrext/abs-send-time");
   (kRtpExtensionAbsoluteCaptureTime,
    "http://www.webrtc.org/experiments/rtp-hdrext/abs-capture-time");
   (kRtpExtensionVideoRotation, "urn:3gpp:video-orientation");
   (kRtpExtensionTransportSequenceNumber,
    "http://www.ietf.org/id/draft-holmer-rmcat-transport-wide-cc-extensions-01");
   (kRtpExtensionTransportSequenceNumber02,
    "http://www.webrtc.org/experiments/rtp-hdrext/transport-wide-cc-02");
   (kRtpExtensionPlayoutDelay,
    "http://www.webrtc.org/experiments/rtp-hdrext/playout-delay");
   (kRtpExtensionVideoContentType,
    "http://www.webrtc.org/experiments/rtp-hdrext/video-content-type");
   (kRtpExtensionVideoLayersAllocation,
    "http://www.webrtc.org/experiments/rtp-hdrext/video-layers-allocation00");
   (kRtpExtensionVideoTiming,
    "http://www.webrtc.org/experiments/rtp-hdrext/video-timing");
   (kRtpExtensionRtpStreamId, "urn:ietf:params:rtp-hdrext:sdes:rtp-stream-id");
   (kRtpExtensionRepairedRtpStreamId,
    "urn:ietf:params:rtp-hdrext:sdes:repaired-rtp-stream-id");
   (kRtpExtensionMid, "urn:ietf:params:rtp-hdrext:sdes:mid");
   (kRtpExtensionGenericFrameDescriptor,
    "http://www.webrtc.org/experiments/rtp-hdrext/generic-frame-descriptor-00");
   (kRtpExtensionDependencyDescriptor,
    "https://aomediacodec.github.io/av1-rtp-spec/#dependency-descriptor-rtp-header-extension");
   (kRtpExtensionColorSpace,
    "http://www.webrtc.org/experiments/rtp-hdrext/color-space");
   (kRtpExtensionInbandComfortNoise,
    "http://www.webrtc.org/experiments/rtp-hdrext/inband-cn");
   (kRtpExtensionVideoFrameTrackingId,
    "http://www.webrtc.org/experiments/rtp-hdrext/video-frame-tracking-id");
   (kRtpExtensionCorruptionDetection,
    "http://www.webrtc.org/experiments/rtp-hdrext/corruption-detection")]%string.

Module RtpHeaderExtensionMap.

Definition kInvalidType : RTPExtensionType := kRtpExtensionNone.
Definition kInvalidId : Z := 0.

Record t : Type := mk {
  ids_ : list Z;
  extmap_allow_mixed_ : bool
}.

(** [RtpHeaderExtensionMap(bool)]; the default constructor passes [false]. *)
Definition new (extmap_allow_mixed : bool) : t :=
  mk (replicate (type_index kRtpExtensionNumberOfExtensions) kInvalidId) extmap_allow_mixed.

(** [uint8_t GetId(type)]: an array read. *)
Definition GetId (m : t) (type : RTPExtensionType) : res Z :=
  buf_get (ids_ m) (type_index type).

Definition IsRegistered (m : t) (type : RTPExtensionType) : res bool :=
  let! id := GetId m type in Ok (negb (id =? kInvalidId)).

(** The [for] loop over types of [GetType]. *)
Fixpoint find_type (m : t) (id : Z) (types : list RTPExtensionType) : res RTPExtensionType :=
  match types with
  | [] => Ok kInvalidType
  | type :: types =>
      let! id' := GetId m type in
      if id' =? id then Ok type else find_type m id types
  end.

(** The types from [kRtpExtensionNone + 1] below [kRtpExtensionNumberOfExtensions]. *)
Definition known_types : list RTPExtensionType := take 21 (drop 1 all_types).

Definition GetType (m : t) (id : Z) : res RTPExtensionType := find_type m id known_types.

(** The private [Register(id, type, uri)]. *)
Definition Register (m : t) (id : Z) (type : RTPExtensionType) : res (bool * t) :=
  if (id <? kMinId) || (kMaxId <? id) then Ok (false, m) else
  let! registered_type := GetType m id in
  if bool_decide (registered_type = type) then Ok (true, m) else
  if negb (bool_decide (registered_type = kInvalidType)) then Ok (false, m) else
  let! registered := IsRegistered m type in
  if registered : bool then Ok (false, m) else
  let! ids := buf_set (ids_ m) (type_index type) id in
  Ok (true, mk ids (extmap_allow_mixed_ m)).

Definition RegisterByType (m : t) (id : Z) (type : RTPExtensionType) : res (bool * t) :=
  match find (fun ext => bool_decide (type = ext.1)) kExtensions with
  | Some ext => Register m id ext.1
  | None => Ok (false, m)
  end.

Definition RegisterByUri (m : t) (id : Z) (uri : string) : res (bool * t) :=
  match find (fun ext => bool_decide (uri = ext.2)) kExtensions with
  | Some ext => Register m id ext.1
  | None => Ok (false, m)
  end.

Definition Deregister (m : t) (uri : string) : res t :=
  match find (fun ext => bool_decide (ext.2 = uri)) kExtensions with
  | Some ext =>
      let! ids := buf_set (ids_ m) (type_index ext.1) kInvalidId in
      Ok (mk ids (extmap_allow_mixed_ m))
  | None => Ok m
  end.

(** [Reset(extensions)]: forget everything, then register each in turn. *)
Definition Reset (m : t) (extensions : list (Z * string)) : res t :=
  foldM (fun m ext => let! r := RegisterByUri m ext.1 ext.2 in Ok r.2)
        extensions (mk (replicate (length (ids_ m)) kInvalidId) (extmap_allow_mixed_ m)).

Definition ExtmapAllowMixed (m : t) : bool := extmap_allow_mixed_ m.

Definition SetExtmapAllowMixed (m : t) (b : bool) : t := mk (ids_ m) b.

End RtpHeaderExtensionMap.

(** ** The invariant: a partial bijection *)

Definition map_ok (m : RtpHeaderExtensionMap.t) : Prop :=
  let ids := RtpHeaderExtensionMap.ids_ m in
  length ids = 22%nat /\ bytes ids /\ ids !! 0%nat = Some 0 /\
  forall i j v, ids !! i = Some v -> ids !! j = Some v -> v <> 0 -> i = j.

Import RtpHeaderExtensionMap.

(** A type that can carry an id. *)
Definition known (type : RTPExtensionType) : Prop := (1 <= type_index type < 22)%nat.

Lemma type_index_all type : all_types !! type_index type = Some type.
Proof. by destruct type. Qed.

Lemma type_index_inj type type' : type_index type = type_index type' -> type = type'.
Proof.
  intros E. pose proof (type_index_all type) as H. rewrite E, type_index_all in H.
  by injection H.
Qed.

Lemma known_types_spec type : type ∈ known_types <-> known type.
Proof.
  unfold known. destruct type; cbn; split; intros H; try lia;
    solve [repeat (apply list_elem_of_here || apply list_elem_of_further)
          | exfalso; repeat (apply elem_of_cons in H as [H|H]; [discriminate|]);
            by apply elem_of_nil in H].
Qed.

Lemma kExtensions_known ext : ext ∈ kExtensions -> known ext.1.
Proof.
  revert ext. apply Forall_forall. unfold known. repeat constructor; cbn; lia.
Qed.

Lemma GetId_ok m type :
  map_ok m -> (type_index type < 22)%nat ->
  exists id, GetId m type = Ok id /\ ids_ m !! type_index type = Some id /\ is_byte id.
Proof.
  intros (Hlen & Hby & _) Ht. destruct (buf_get_lt (ids_ m) (type_index type)) as (id & H1 & H2);
    [lia|]. exists id. split; [done|]. split; [done|]. by apply (bytes_lookup _ _ _ Hby H1).
Qed.

Lemma find_type_spec m id types :
  map_ok m -> (forall t, t ∈ types -> (type_index t < 22)%nat) ->
  exists type, find_type m id types = Ok type /\
    ((type ∈ types /\ GetId m type = Ok id) \/
     (type = kInvalidType /\ forall t, t ∈ types -> GetId m t <> Ok id)).
Proof.
  intros Hm. induction types as [|t types IH]; intros Ht; cbn.
  { eexists; split; [done|]. right. split; [done|]. by intros t ?%elem_of_nil. }
  destruct (GetId_ok m t Hm) as (id' & E & _); [apply Ht; set_solver|]. rewrite E. cbn.
  destruct (Z.eqb_spec id' id) as [->|Hne].
  { exists t. split; [done|]. left. split; [set_solver|done]. }
  destruct IH as (type & -> & Hcase); [set_solver|]. exists type. split; [done|].
  destruct Hcase as [[? ?]|[-> Hno]]; [left; set_solver|right; split; [done|]].
  intros t' [->|Hin]%elem_of_cons; [congruence|by apply Hno].
Qed.

(** [GetType] inverts [GetId]. *)
Lemma GetType_spec m id :
  map_ok m -> id <> 0 ->
  exists type, GetType m id = Ok type /\
    forall t, known t -> (t = type <-> GetId m t = Ok id).
Proof.
  intros Hm Hid. unfold GetType.
  destruct (find_type_spec m id known_types Hm) as (type & -> & Hcase).
  { intros t Ht%known_types_spec. unfold known in Ht. lia. }
  exists type. split; [done|]. intros t Ht. pose proof Hm as (_ & _ & _ & Hinj).
  assert (Hk : (type_index t < 22)%nat) by (unfold known in Ht; lia).
  destruct (GetId_ok m t Hm Hk) as (idt & Et & Elt & _).
  destruct Hcase as [[Hin E]|[-> Hno]].
  - split; [by intros ->|]. intros Eid. apply known_types_spec in Hin.
    destruct (GetId_ok m type Hm) as (idy & Ey & Ely & _); [unfold known in Hin; lia|].
    apply type_index_inj, (Hinj _ _ id); congruence.
  - split; [intros ->; unfold known in Ht; cbn in Ht; lia|].
    intros E. exfalso. by apply (Hno t); [apply known_types_spec|].
Qed.

Lemma GetType_cases m id :
  map_ok m -> id <> 0 ->
  (exists t, known t /\ GetType m id = Ok t /\ GetId m t = Ok id) \/
  (GetType m id = Ok kInvalidType /\ forall t, known t -> GetId m t <> Ok id).
Proof.
  intros Hm Hid. unfold GetType.
  destruct (find_type_spec m id known_types Hm) as (type & -> & Hcase).
  { intros t Ht%known_types_spec. unfold known in Ht. lia. }
  destruct Hcase as [[?%known_types_spec ?]|[-> Hno]]; [by eauto|right].
  split; [done|]. intros t ?%known_types_spec. by apply Hno.
Qed.

Lemma set_id_ok m type id mixed :
  map_ok m -> known type -> is_byte id ->
  (id = 0 \/ forall t, known t -> GetId m t <> Ok id) ->
  map_ok (mk (<[type_index type := u8 id]> (ids_ m)) mixed).
Proof.
  intros (Hlen & Hby & H0 & Hinj) Ht Hid Hfree. unfold known in Ht.
  unfold map_ok. cbn. rewrite length_insert, list_lookup_insert_ne by lia.
  rewrite (uw_small 8 id) by done.
  split; [done|]. split; [by apply Forall_insert|]. split; [done|].
  assert (Hno : forall i, ids_ m !! i = Some id -> id <> 0 -> False).
  { intros i Hi Hne. destruct Hfree as [|Hfree]; [done|].
    pose proof (lookup_lt_Some _ _ _ Hi) as Hl. rewrite Hlen in Hl.
    destruct i as [|i]; [congruence|].
    destruct (lookup_lt_is_Some_2 all_types (S i)) as [t Et]; [cbn; lia|].
    assert (type_index t = S i).
    { do 21 (destruct i as [|i]; [by injection Et as <-|]). lia. }
    apply (Hfree t); [unfold known; lia|].
    unfold GetId. by rewrite (buf_get_ok _ _ id) by congruence. }
  intros i j v. rewrite !list_lookup_insert_Some.
  intros [(Hi & Hvi & _)|[Hi Hvi]] [(Hj & Hvj & _)|[Hj Hvj]] Hv; [congruence|..].
  - subst v. destruct (Hno j Hvj Hv).
  - subst v. destruct (Hno i Hvi Hv).
  - by apply (Hinj i j v).
Qed.

(** What registering does, on every branch. *)
Definition register_spec (m : t) (id : Z) (type : RTPExtensionType) (b : bool) (m' : t) : Prop :=
  map_ok m' /\
  (b = true <-> kMinId <= id <= kMaxId /\
     (GetId m type = Ok id \/
      (GetId m type = Ok kInvalidId /\ forall t, known t -> GetId m t <> Ok id))) /\
  (b = true -> GetId m' type = Ok id /\ forall t, t <> type -> GetId m' t = GetId m t) /\
  (b = false -> m' = m).

Lemma register_refused m id type :
  map_ok m ->
  (kMinId <= id <= kMaxId -> GetId m type <> Ok id /\
     (GetId m type = Ok kInvalidId -> exists t, known t /\ GetId m t = Ok id)) ->
  register_spec m id type false m.
Proof.
  intros Hm Hno. split; [done|]. split; [|done]. split; [done|].
  intros [Hr Hcase]. destruct (Hno Hr) as [Hne Hused].
  destruct Hcase as [?|[H0 Hfree]]; [done|].
  destruct (Hused H0) as (t & Ht & E). by destruct (Hfree t Ht).
Qed.

Lemma Register_spec m id type :
  map_ok m -> known type ->
  exists b m', Register m id type = Ok (b, m') /\ register_spec m id type b m'.
Proof.
  intros Hm Ht. unfold Register.
  destruct ((id <? kMinId) || (kMaxId <? id)) eqn:Er.
  { exists false, m. split; [done|]. apply register_refused; [done|].
    apply orb_true_iff in Er as [?%Z.ltb_lt|?%Z.ltb_lt]; lia. }
  apply orb_false_iff in Er as [E1%Z.ltb_ge E2%Z.ltb_ge].
  assert (Hne : id <> 0) by (unfold kMinId in E1; lia).
  destruct (GetId_ok m type Hm) as (id' & Eid & Hl & _); [unfold known in Ht; lia|].
  destruct (GetType_cases m id Hm Hne) as [(t & Hkt & -> & Et)|[-> Hno]]; cbn [mbind res_bind].
  - case_bool_decide as Ett.
    { subst t. exists true, m. split; [done|]. split; [done|]. by intuition. }
    rewrite bool_decide_false; cbn.
    2:{ intros ->. unfold known in Hkt. cbn in Hkt. lia. }
    exists false, m. split; [done|]. apply register_refused; [done|]. intros _.
    split; [|by eauto]. intros E. apply Ett.
    destruct (GetType_spec m id Hm Hne) as (y & _ & Hspec).
    transitivity y; [by apply Hspec|symmetry; by apply Hspec].
  - rewrite bool_decide_false by (intros <-; unfold known in Ht; cbn in Ht; lia).
    rewrite bool_decide_true by done. cbn [negb].
    unfold IsRegistered. rewrite Eid. cbn [mbind res_bind].
    destruct (Z.eqb_spec id' kInvalidId) as [->|Hid']; cbn [negb].
    2:{ exists false, m. split; [done|]. apply register_refused; [done|]. intros _.
        split; [by apply Hno|]. rewrite Eid. by intros [= ->]. }
    pose proof Hm as (Hlen & _). pose proof Ht as Ht'. unfold known in Ht'.
    rewrite buf_set_ok by lia. cbn.
    assert (Hby : is_byte id) by (unfold in_uw, kMinId, kMaxId in *; lia).
    eexists true, _. split; [done|]. split; [apply set_id_ok; auto|].
    split; [split; [intros _; split; [lia|by right]|done]|]. split; [|done].
    intros _. unfold GetId, buf_get. cbn.
    rewrite list_lookup_insert_eq, (uw_small 8) by (done || lia). split; [done|].
    intros t Hne'. rewrite list_lookup_insert_ne; [done|]. by intros ?%type_index_inj.
Qed.

Lemma find_kExtensions P ext : find P kExtensions = Some ext -> ext ∈ kExtensions /\ P ext = true.
Proof. intros [H1 H2]%find_some. split; [by apply list_elem_of_In|done]. Qed.

(** ** Sessions: the operations of the class in any order *)

Inductive map_op : Type :=
| OpRegisterByType (id : Z) (type : RTPExtensionType)
| OpRegisterByUri (id : Z) (uri : string)
| OpDeregister (uri : string)
| OpReset (extensions : list (Z * string))
| OpSetMixed (b : bool).

Definition run_op (m : t) (op : map_op) : res t :=
  match op with
  | OpRegisterByType id type => let! r := RegisterByType m id type in Ok r.2
  | OpRegisterByUri id uri => let! r := RegisterByUri m id uri in Ok r.2
  | OpDeregister uri => Deregister m uri
  | OpReset extensions => Reset m extensions
  | OpSetMixed b => Ok (SetExtmapAllowMixed m b)
  end.

Lemma new_ok b : map_ok (new b).
Proof.
  unfold map_ok, new. cbn [ids_]. split; [done|]. split; [by apply Forall_replicate|].
  split; [done|]. intros i j v Hi%lookup_replicate. destruct Hi as [-> _]. done.
Qed.

Lemma RegisterByUri_ok m id uri :
  map_ok m -> exists b m', RegisterByUri m id uri = Ok (b, m') /\ map_ok m'.
Proof.
  intros Hm. unfold RegisterByUri. destruct (find _ _) as [ext|] eqn:E; [|by eauto].
  apply find_kExtensions in E as [?%kExtensions_known _].
  destruct (Register_spec m id ext.1) as (b & m' & -> & ? & _); eauto.
Qed.

Lemma run_op_ok m op : map_ok m -> exists m', run_op m op = Ok m' /\ map_ok m'.
Proof.
  intros Hm. destruct op as [id type|id uri|uri|exts|b]; cbn.
  - unfold RegisterByType. destruct (find _ _) as [ext|] eqn:E; [|by eauto].
    apply find_kExtensions in E as [?%kExtensions_known _].
    destruct (Register_spec m id ext.1) as (b & m' & -> & ? & _); cbn; eauto.
  - destruct (RegisterByUri_ok m id uri Hm) as (b & m' & -> & ?). cbn. eauto.
  - unfold Deregister. destruct (find _ _) as [ext|] eqn:E; [|by eauto].
    apply find_kExtensions in E as [Hk%kExtensions_known _].
    pose proof Hm as (Hlen & _). unfold known in Hk. rewrite buf_set_ok by lia. cbn.
    eexists. split; [done|]. apply set_id_ok; [done..| |by left]. by vm_compute.
  - unfold Reset. pose proof Hm as (Hlen & _). rewrite Hlen.
    apply foldM_inv; [exact (new_ok _)|].
    intros m' [id uri] _ Hm'. destruct (RegisterByUri_ok m' id uri Hm') as (b & m2 & E & ?).
    cbn. rewrite E. cbn. eauto.
  - eexists; split; [done|]. exact Hm.
Qed.

(** ** Properties *)

(** C27. The extension map stays a partial bijection: from either constructor,
    any sequence of [RegisterByType], [RegisterByUri], [Deregister], [Reset]
    and [SetExtmapAllowMixed] runs without an array overrun, and afterwards
    [GetType] and [GetId] are inverse to each other on registered ids, so no
    two extension types share an id. *)
Theorem extension_map_bijection mixed ops :
  exists m, foldM run_op ops (new mixed) = Ok m /\
    forall type id, known type -> id <> 0 ->
      (GetType m id = Ok type <-> GetId m type = Ok id).
Proof.
  destruct (foldM_inv map_ok run_op ops (new mixed)) as (m & -> & Hm);
    [apply new_ok|intros; by apply run_op_ok|].
  exists m. split; [done|]. intros type id Ht Hid.
  destruct (GetType_spec m id Hm Hid) as (type' & -> & Hspec).
  rewrite <- Hspec by done. split; congruence.
Qed.

Lemma extension_map_bijection_witness :
  exists m, foldM run_op
      [OpRegisterByType 5 kRtpExtensionMid; OpRegisterByType 5 kRtpExtensionAudioLevel]
      (new true) = Ok m /\
    GetType m 5 = Ok kRtpExtensionMid /\ GetId m kRtpExtensionMid = Ok 5.
Proof.
  destruct (extension_map_bijection true
    [OpRegisterByType 5 kRtpExtensionMid; OpRegisterByType 5 kRtpExtensionAudioLevel]) as (m & E & H).
  exists m. split; [exact E|]. vm_compute in E. injection E as <-.
  split; [vm_compute; reflexivity|]. apply H; [unfold known; cbn; lia|lia|vm_compute; reflexivity].
Defined.

(** Registration succeeds exactly when the id is in [1, 255] and either the
    pair is already registered or both the id and the type are free; then the
    type has the id and no other type changed.  A refused registration changes
    nothing, and neither can break the bijection. *)
Theorem RegisterByType_exact m id type :
  map_ok m -> known type ->
  exists b m', RegisterByType m id type = Ok (b, m') /\ register_spec m id type b m'.
Proof.
  intros Hm Ht. assert (E : exists uri,
    find (fun ext => bool_decide (type = ext.1)) kExtensions = Some (type, uri)).
  { destruct type; try (eexists; reflexivity); unfold known in Ht; cbn in Ht; lia. }
  destruct E as [uri E]. unfold RegisterByType. rewrite E. by apply Register_spec.
Qed.

Lemma RegisterByType_exact_witness :
  exists m', RegisterByType (new true) 5 kRtpExtensionMid = Ok (true, m') /\ map_ok m'.
Proof.
  destruct (RegisterByType_exact (new true) 5 kRtpExtensionMid) as (b & m' & E & H).
  - apply new_ok.
  - unfold known. cbn. lia.
  - exists m'. destruct b; [|vm_compute in E; discriminate E]. split; [exact E|apply H].
Defined.
