(* ===== verification/RtpPacketModel.v ===== *)
(** * RtpPacketModel: [modules/rtp_rtcp/source/rtp_packet.{h,cc}]

    [RtpPacket] keeps a parsed copy of the RTP header beside the bytes
    ([buffer_]) and updates both in every setter.  This file translates the
    class; [RtpPacketLaws] proves that the two never disagree. *)

From S2P Require Import Prelude.
From S2P Require Import ByteIo.
From S2P Require Import CowBuffer.
From S2P Require Import RtpExtensions.

Definition kFixedHeaderSize : nat := 12.
Definition kRtpVersion : Z := 2.
Definition kOneByteExtensionProfileId : Z := 0xBEDE.
Definition kTwoByteExtensionProfileId : Z := 0x1000.
Definition kTwobyteExtensionProfileIdAppBitsFilter : Z := 0xfff0.
Definition kOneByteExtensionHeaderLength : nat := 1.
Definition kTwoByteExtensionHeaderLength : nat := 2.
Definition kDefaultPacketSize : nat := 1500.
Definition kPacerExitDeltaOffset : nat := 7.

Module RtpPacket.

Record ExtensionInfo : Type := mkExtensionInfo {
  ext_id : Z;
  ext_length : nat;
  ext_offset : nat
}.

Record t : Type := mk {
  marker_ : bool;
  payload_type_ : Z;
  padding_size_ : nat;
  sequence_number_ : Z;
  timestamp_ : Z;
  ssrc_ : Z;
  payload_offset_ : nat;
  payload_size_ : nat;
  extensions_ : RtpHeaderExtensionMap.t;
  extension_entries_ : list ExtensionInfo;
  extensions_size_ : nat;
  buffer_ : Cow.t
}.

(** Accessors. *)
Definition Marker := marker_.
Definition PayloadType := payload_type_.
Definition SequenceNumber := sequence_number_.
Definition Timestamp := timestamp_.
Definition Ssrc := ssrc_.
Definition headers_size := payload_offset_.
Definition payload_size := payload_size_.
Definition padding_size := padding_size_.
Definition capacity (p : t) : nat := Cow.capacity (buffer_ p).
Definition size (p : t) : nat := (payload_offset_ p + payload_size_ p + padding_size_ p)%nat.
Definition FreeCapacity (p : t) : nat := (capacity p - size p)%nat.
Definition MaxPayloadSize (p : t) : nat := (capacity p - headers_size p)%nat.

(** [data()[i]]. *)
Definition data_at (p : t) (i : nat) : res Z := Cow.read (buffer_ p) i.

Definition has_padding (p : t) : res bool :=
  let! b := data_at p 0 in Ok (has_bits b 0x20).

(** [rtc::MakeArrayView(data() + offset, length)], dereferenced. *)
Definition window (p : t) (offset length : nat) : res (list Z) :=
  memcpy (replicate length 0) 0 (Cow.view (buffer_ p)) offset length.

Definition payload (p : t) : res (list Z) := window p (payload_offset_ p) (payload_size_ p).

(** Assignments to member variables. *)
Definition with_buffer (p : t) (b : Cow.t) : t :=
  mk (marker_ p) (payload_type_ p) (padding_size_ p) (sequence_number_ p) (timestamp_ p)
     (ssrc_ p) (payload_offset_ p) (payload_size_ p) (extensions_ p) (extension_entries_ p)
     (extensions_size_ p) b.
Definition with_marker (p : t) (m : bool) : t :=
  mk m (payload_type_ p) (padding_size_ p) (sequence_number_ p) (timestamp_ p)
     (ssrc_ p) (payload_offset_ p) (payload_size_ p) (extensions_ p) (extension_entries_ p)
     (extensions_size_ p) (buffer_ p).
Definition with_payload_type (p : t) (pt : Z) : t :=
  mk (marker_ p) pt (padding_size_ p) (sequence_number_ p) (timestamp_ p)
     (ssrc_ p) (payload_offset_ p) (payload_size_ p) (extensions_ p) (extension_entries_ p)
     (extensions_size_ p) (buffer_ p).
Definition with_sequence_number (p : t) (seq : Z) : t :=
  mk (marker_ p) (payload_type_ p) (padding_size_ p) seq (timestamp_ p)
     (ssrc_ p) (payload_offset_ p) (payload_size_ p) (extensions_ p) (extension_entries_ p)
     (extensions_size_ p) (buffer_ p).
Definition with_timestamp (p : t) (ts : Z) : t :=
  mk (marker_ p) (payload_type_ p) (padding_size_ p) (sequence_number_ p) ts
     (ssrc_ p) (payload_offset_ p) (payload_size_ p) (extensions_ p) (extension_entries_ p)
     (extensions_size_ p) (buffer_ p).
Definition with_ssrc (p : t) (ssrc : Z) : t :=
  mk (marker_ p) (payload_type_ p) (padding_size_ p) (sequence_number_ p) (timestamp_ p)
     ssrc (payload_offset_ p) (payload_size_ p) (extensions_ p) (extension_entries_ p)
     (extensions_size_ p) (buffer_ p).
Definition with_sizes (p : t) (payload_offset payload_size padding_size : nat) : t :=
  mk (marker_ p) (payload_type_ p) padding_size (sequence_number_ p) (timestamp_ p)
     (ssrc_ p) payload_offset payload_size (extensions_ p) (extension_entries_ p)
     (extensions_size_ p) (buffer_ p).
Definition with_extensions (p : t) (entries : list ExtensionInfo) (esize : nat) : t :=
  mk (marker_ p) (payload_type_ p) (padding_size_ p) (sequence_number_ p) (timestamp_ p)
     (ssrc_ p) (payload_offset_ p) (payload_size_ p) (extensions_ p) entries esize (buffer_ p).

Definition IdentifyExtensions (p : t) (extensions : RtpHeaderExtensionMap.t) : t :=
  mk (marker_ p) (payload_type_ p) (padding_size_ p) (sequence_number_ p) (timestamp_ p)
     (ssrc_ p) (payload_offset_ p) (payload_size_ p) extensions (extension_entries_ p)
     (extensions_size_ p) (buffer_ p).

(** [FindExtensionInfo] and [FindOrCreateExtensionInfo]; the reference the
    latter returns is the first entry with the id. *)
Definition FindExtensionInfo (entries : list ExtensionInfo) (id : Z) : option ExtensionInfo :=
  find (fun e => ext_id e =? id) entries.

Definition FindOrCreateExtensionInfo (entries : list ExtensionInfo) (id : Z)
    : list ExtensionInfo :=
  match FindExtensionInfo entries id with
  | Some _ => entries
  | None => entries ++ [mkExtensionInfo (u8 id) 0 0]
  end.

(** [extension_info.offset = offset; extension_info.length = length]. *)
Fixpoint assign_info (entries : list ExtensionInfo) (id : Z) (length offset : nat)
    : list ExtensionInfo :=
  match entries with
  | [] => []
  | e :: entries =>
      if ext_id e =? id then mkExtensionInfo (ext_id e) length offset :: entries
      else e :: assign_info entries id length offset
  end.

(** The loop over the header-extension block of [ParseBuffer]: [esize] is
    [extensions_size_].  Every iteration advances it, so [fuel] beyond the
    block's capacity is enough. *)
Fixpoint parse_extensions (fuel : nat) (buffer : list Z) (profile : Z)
    (extension_offset extensions_capacity extension_header_length esize : nat)
    (entries : list ExtensionInfo) : res (nat * list ExtensionInfo) :=
  match fuel with
  | O => Fault OutOfFuel
  | S fuel =>
      let continue := parse_extensions fuel buffer profile extension_offset
                        extensions_capacity extension_header_length in
      if (esize + extension_header_length <? extensions_capacity)%nat then
        let! b := buf_get buffer (extension_offset + esize) in
        if b =? 0 then continue (esize + 1)%nat entries else
        let! idlen :=
          if profile =? kOneByteExtensionProfileId then
            let id := Z.shiftr b 4 in
            let length := 1 + Z.land b 0xf in
            Ok (if (id =? 15) || ((id =? 0) && negb (length =? 1)) then None
                else Some (id, length))
          else
            let! l := buf_get buffer (extension_offset + esize + 1) in
            Ok (Some (b, l)) in
        match idlen with
        | None => Ok (esize, entries)
        | Some (id, length) =>
            let len := Z.to_nat length in
            if (extensions_capacity <? esize + extension_header_length + len)%nat
            then Ok (esize, entries) else
            let entries1 := FindOrCreateExtensionInfo entries id in
            let offset := (extension_offset + esize + extension_header_length)%nat in
            if 65535 <? Z.of_nat offset then Ok (esize, entries1) else
            continue (esize + (extension_header_length + len))%nat
                     (assign_info entries1 id len offset)
        end
      else Ok (esize, entries)
  end.

(** The rest of [ParseBuffer] once the header extension is behind. *)
Definition parse_padding (p : t) (buffer : list Z) (has_padding : bool) : res (bool * t) :=
  let size := length buffer in
  let! padding :=
    if has_padding && (payload_offset_ p <? size)%nat
    then let! b := buf_get buffer (size - 1) in Ok (Some (Z.to_nat b))
    else Ok None in
  let p1 := with_sizes p (payload_offset_ p) (payload_size_ p) (default 0%nat padding) in
  if bool_decide (padding = Some 0%nat) then Ok (false, p1) else
  if (size <? payload_offset_ p1 + padding_size_ p1)%nat then Ok (false, p1) else
  Ok (true, with_sizes p1 (payload_offset_ p1)
              (size - payload_offset_ p1 - padding_size_ p1) (padding_size_ p1)).

(** The header-extension block of [ParseBuffer]; [None] is [return false]. *)
Definition parse_extension_block (p : t) (buffer : list Z) : res (option t) :=
  let size := length buffer in
  let extension_offset := (payload_offset_ p + 4)%nat in
  if (size <? extension_offset)%nat then Ok None else
  let! profile := ByteReader.ReadBigEndian 16 2 buffer (payload_offset_ p) in
  let! words := ByteReader.ReadBigEndian 16 2 buffer (payload_offset_ p + 2) in
  let extensions_capacity := (Z.to_nat words * 4)%nat in
  if (size <? extension_offset + extensions_capacity)%nat then Ok None else
  let! r :=
    if negb (profile =? kOneByteExtensionProfileId) &&
       negb (Z.land profile kTwobyteExtensionProfileIdAppBitsFilter =?
             kTwoByteExtensionProfileId)
    then Ok (extensions_size_ p, extension_entries_ p)
    else
      let extension_header_length :=
        if profile =? kOneByteExtensionProfileId then kOneByteExtensionHeaderLength
        else kTwoByteExtensionHeaderLength in
      parse_extensions (S extensions_capacity) buffer profile extension_offset
        extensions_capacity extension_header_length (extensions_size_ p)
        (extension_entries_ p) in
  let p1 := with_extensions p r.2 r.1 in
  Ok (Some (with_sizes p1 (extension_offset + extensions_capacity)
              (payload_size_ p1) (padding_size_ p1))).

Definition ParseBuffer (p : t) (buffer : list Z) : res (bool * t) :=
  let size := length buffer in
  if (size <? kFixedHeaderSize)%nat then Ok (false, p) else
  let! b0 := buf_get buffer 0 in
  if negb (Z.shiftr b0 6 =? kRtpVersion) then Ok (false, p) else
  let has_padding := has_bits b0 0x20 in
  let has_extension := has_bits b0 0x10 in
  let number_of_crcs := Z.to_nat (Z.land b0 0x0f) in
  let! b1 := buf_get buffer 1 in
  let! seq := ByteReader.ReadBigEndian 16 2 buffer 2 in
  let! ts := ByteReader.ReadBigEndian 32 4 buffer 4 in
  let! ssrc := ByteReader.ReadBigEndian 32 4 buffer 8 in
  let p1 := with_ssrc (with_timestamp (with_sequence_number
              (with_payload_type (with_marker p (has_bits b1 0x80)) (Z.land b1 0x7f))
              seq) ts) ssrc in
  if (size <? kFixedHeaderSize + number_of_crcs * 4)%nat then Ok (false, p1) else
  let p2 := with_sizes p1 (kFixedHeaderSize + number_of_crcs * 4)
              (payload_size_ p1) (padding_size_ p1) in
  let p3 := with_extensions p2 [] 0 in
  if has_extension then
    let! r := parse_extension_block p3 buffer in
    match r with
    | None => Ok (false, p3)
    | Some p4 => parse_padding p4 buffer has_padding
    end
  else parse_padding p3 buffer has_padding.

Section WithHeap.
Context `{Heap}.

(** [f] writes through [WriteAt]. *)
Definition write (f : list Z -> res (list Z)) (p : t) : res t :=
  let! b := Cow.mutate f (buffer_ p) in Ok (with_buffer p b).

(** [WriteAt(offset, byte)]. *)
Definition WriteAt (p : t) (offset : nat) (byte : Z) : res t :=
  write (fun d => buf_set d offset byte) p.

(** [WriteAt(offset)], for the pointer only: the block is unshared. *)
Definition touch (p : t) : res t := write Ok p.

Definition SetSize (p : t) (n : nat) : t := with_buffer p (Cow.SetSize (buffer_ p) n).

Definition Clear (p : t) : res t :=
  let p1 := mk false 0 0 0 0 0 kFixedHeaderSize 0 (extensions_ p) [] 0 (buffer_ p) in
  let! p2 := write (fun d => memset0 d 0 kFixedHeaderSize) p1 in
  WriteAt (SetSize p2 kFixedHeaderSize) 0 (Z.shiftl kRtpVersion 6).

(** [RtpPacket(extensions, capacity)]: the members other than [extensions_]
    and [buffer_] are set by [Clear]. *)
Definition new (extensions : RtpHeaderExtensionMap.t) (capacity : nat) : res t :=
  Clear (mk false 0 0 0 0 0 0 0 extensions [] 0 (Cow.of_size capacity)).

(** [Parse(const uint8_t*, size_t)], [Parse(ArrayView)]. *)
Definition Parse (p : t) (buffer : list Z) : res (bool * t) :=
  let! r := ParseBuffer p buffer in
  if negb r.1 then let! p' := Clear r.2 in Ok (false, p') else
  Ok (true, with_buffer r.2 (Cow.SetData (buffer_ r.2) buffer)).

(** [Parse(CopyOnWriteBuffer)]. *)
Definition ParseCow (p : t) (buffer : Cow.t) : res (bool * t) :=
  let! r := ParseBuffer p (Cow.contents buffer) in
  if negb r.1 then let! p' := Clear r.2 in Ok (false, p') else
  Ok (true, with_buffer r.2 buffer).

Definition Csrcs (p : t) : res (list Z) :=
  let! b0 := data_at p 0 in
  let num_csrc := Z.to_nat (Z.land b0 0x0F) in
  foldM (fun csrcs i =>
           let! c := ByteReader.ReadBigEndian 32 4 (Cow.view (buffer_ p))
                       (kFixedHeaderSize + i * 4) in
           Ok (csrcs ++ [c]))
        (seq 0 num_csrc) [].

(** [CopyHeaderFrom(packet)]: every header member is [packet]'s. *)
Definition CopyHeaderFrom (packet : t) : t :=
  mk (marker_ packet) (payload_type_ packet) 0 (sequence_number_ packet) (timestamp_ packet)
     (ssrc_ packet) (payload_offset_ packet) 0 (extensions_ packet)
     (extension_entries_ packet) (extensions_size_ packet)
     (Cow.Slice (buffer_ packet) 0 (headers_size packet)).

Definition SetMarker (p : t) (marker_bit : bool) : res t :=
  let p1 := with_marker p marker_bit in
  let! b := data_at p1 1 in
  if marker_bit then WriteAt p1 1 (Z.lor b 0x80) else WriteAt p1 1 (Z.land b 0x7F).

Definition SetPayloadType (p : t) (payload_type : Z) : res t :=
  let p1 := with_payload_type p payload_type in
  let! b := data_at p1 1 in
  WriteAt p1 1 (Z.lor (Z.land b 0x80) payload_type).

Definition SetSequenceNumber (p : t) (seq_no : Z) : res t :=
  write (fun d => ByteWriter.WriteBigEndian 2 d 2 seq_no) (with_sequence_number p seq_no).

Definition SetTimestamp (p : t) (timestamp : Z) : res t :=
  write (fun d => ByteWriter.WriteBigEndian 4 d 4 timestamp) (with_timestamp p timestamp).

Definition SetSsrc (p : t) (ssrc : Z) : res t :=
  write (fun d => ByteWriter.WriteBigEndian 4 d 8 ssrc) (with_ssrc p ssrc).

(** One iteration of [ZeroMutableExtensions]. *)
Definition zero_extension (p : t) (e : ExtensionInfo) : res t :=
  let! type := RtpHeaderExtensionMap.GetType (extensions_ p) (ext_id e) in
  match type with
  | kRtpExtensionVideoTiming =>
      if (kPacerExitDeltaOffset <? ext_length e)%nat then
        write (fun d => memset0 d (ext_offset e + kPacerExitDeltaOffset)
                          (ext_length e - kPacerExitDeltaOffset)) p
      else Ok p
  | kRtpExtensionTransportSequenceNumber
  | kRtpExtensionTransportSequenceNumber02
  | kRtpExtensionTransmissionTimeOffset
  | kRtpExtensionAbsoluteSendTime =>
      write (fun d => memset0 d (ext_offset e) (ext_length e)) p
  | _ => Ok p
  end.

Definition ZeroMutableExtensions (p : t) : res t :=
  foldM zero_extension (extension_entries_ p) p.

Definition SetCsrcs (p : t) (csrcs : list Z) : res t :=
  let p1 := with_sizes p (kFixedHeaderSize + 4 * length csrcs)
              (payload_size_ p) (padding_size_ p) in
  let! b0 := data_at p1 0 in
  let! p2 := WriteAt p1 0 (Z.lor (Z.land b0 0xF0) (u8 (Z.of_nat (length csrcs)))) in
  let! r := foldM (fun st csrc =>
                     let! p' := write (fun d => ByteWriter.WriteBigEndian 4 d st.2 csrc) st.1 in
                     Ok (p', (st.2 + 4)%nat))
                  csrcs (p2, kFixedHeaderSize) in
  Ok (SetSize r.1 (payload_offset_ r.1)).

(** Returns [4 * extensions_words]. *)
Definition SetExtensionLengthMaybeAddZeroPadding (p : t) (extensions_offset : nat)
    : res (nat * t) :=
  let extensions_words := u16 (Z.of_nat ((extensions_size_ p + 3) / 4)) in
  let! p1 := write (fun d => ByteWriter.WriteBigEndian 2 d (extensions_offset - 2)
                               extensions_words) p in
  let! extension_padding_size :=
    size_sub (4 * Z.to_nat extensions_words) (extensions_size_ p) in
  let! p2 := write (fun d => memset0 d (extensions_offset + extensions_size_ p)
                               extension_padding_size) p1 in
  Ok (Z.to_nat (u16 (4 * extensions_words)), p2).

(** One iteration of the rewriting loop of [PromoteToTwoByteHeaderExtension]:
    the state is the block, [write_read_delta] and the entries rewritten so
    far (in source order). *)
Definition promote_entry (st : list Z * nat * list ExtensionInfo) (e : ExtensionInfo)
    : res (list Z * nat * list ExtensionInfo) :=
  let '(d, write_read_delta, done) := st in
  let read_index := ext_offset e in
  let write_index := (read_index + write_read_delta)%nat in
  let! d1 := memcpy d write_index d read_index (ext_length e) in
  let! w1 := size_sub write_index 1 in
  let! d2 := buf_set d1 w1 (Z.of_nat (ext_length e)) in
  let! w2 := size_sub w1 1 in
  let! d3 := buf_set d2 w2 (ext_id e) in
  Ok (d3, (write_read_delta - 1)%nat,
      mkExtensionInfo (ext_id e) (ext_length e)
        (Z.to_nat (u16 (Z.of_nat write_index))) :: done).

Definition PromoteToTwoByteHeaderExtension (p : t) : res t :=
  let! b0 := data_at p 0 in
  let num_csrc := Z.to_nat (Z.land b0 0x0F) in
  let extensions_offset := (kFixedHeaderSize + num_csrc * 4 + 4)%nat in
  let entries := extension_entries_ p in
  let! _ := rtc_check (0 <? length entries)%nat in
  let! _ := rtc_check (payload_size_ p =? 0)%nat in
  let! profile := ByteReader.ReadBigEndian 16 2 (Cow.view (buffer_ p)) (extensions_offset - 4) in
  let! _ := rtc_check (kOneByteExtensionProfileId =? profile) in
  let! p0 := touch p in
  let! st := foldM promote_entry (reverse entries)
               (Cow.view (buffer_ p0), length entries, []) in
  let! p1 := write (fun _ => Ok st.1.1) p0 in
  let! p2 := write (fun d => ByteWriter.WriteBigEndian 2 d (extensions_offset - 4)
                               kTwoByteExtensionProfileId) p1 in
  let p3 := with_extensions p2 st.2 (extensions_size_ p + length entries) in
  let! r := SetExtensionLengthMaybeAddZeroPadding p3 extensions_offset in
  let p4 := with_sizes r.2 (extensions_offset + r.1) (payload_size_ p) (padding_size_ p) in
  Ok (SetSize p4 (payload_offset_ p4)).

(** [AllocateRawExtension]: the view is its offset and length, [None] the
    empty view of a failure. *)
Definition AllocateRawExtension (p : t) (id : Z) (length : nat)
    : res (option (nat * nat) * t) :=
  match FindExtensionInfo (extension_entries_ p) id with
  | Some e =>
      if (ext_length e =? length)%nat
      then let! p' := touch p in Ok (Some (ext_offset e, length), p')
      else Ok (None, p)
  | None =>
  if (0 <? payload_size_ p)%nat then Ok (None, p) else
  if (0 <? padding_size_ p)%nat then Ok (None, p) else
  let! b0 := data_at p 0 in
  let num_csrc := Z.to_nat (Z.land b0 0x0F) in
  let extensions_offset := (kFixedHeaderSize + num_csrc * 4 + 4)%nat in
  let two_byte_header_required :=
    (kOneByteHeaderExtensionMaxId <? id) ||
    (kOneByteHeaderExtensionMaxValueSize <? length)%nat || (length =? 0)%nat in
  let! _ := rtc_check (negb two_byte_header_required ||
                       RtpHeaderExtensionMap.ExtmapAllowMixed (extensions_ p)) in
  (* the profile of the block, promoted when needed; [None]: no room *)
  let! promoted :=
    if (0 <? extensions_size_ p)%nat then
      let! profile_id :=
        ByteReader.ReadBigEndian 16 2 (Cow.view (buffer_ p)) (extensions_offset - 4) in
      if (profile_id =? kOneByteExtensionProfileId) && two_byte_header_required then
        let expected_new_extensions_size :=
          (extensions_size_ p + List.length (extension_entries_ p) +
           kTwoByteExtensionHeaderLength + length)%nat in
        if (capacity p <? extensions_offset + expected_new_extensions_size)%nat
        then Ok None
        else
          let! p' := PromoteToTwoByteHeaderExtension p in
          Ok (Some (kTwoByteExtensionProfileId, p'))
      else Ok (Some (profile_id, p))
    else Ok (Some (if two_byte_header_required then kTwoByteExtensionProfileId
                   else kOneByteExtensionProfileId, p)) in
  match promoted with
  | None => Ok (None, p)
  | Some (profile_id, p1) =>
  let extension_header_size :=
    if profile_id =? kOneByteExtensionProfileId then kOneByteExtensionHeaderLength
    else kTwoByteExtensionHeaderLength in
  let esize := extensions_size_ p1 in
  let new_extensions_size := (esize + extension_header_size + length)%nat in
  if (capacity p1 <? extensions_offset + new_extensions_size)%nat then Ok (None, p1) else
  let! p2 :=
    if (esize =? 0)%nat then
      let! b := data_at p1 0 in
      let! p' := WriteAt p1 0 (Z.lor b 0x10) in
      write (fun d => ByteWriter.WriteBigEndian 2 d (extensions_offset - 4) profile_id) p'
    else Ok p1 in
  let! p3 :=
    if profile_id =? kOneByteExtensionProfileId then
      WriteAt p2 (extensions_offset + esize)
        (Z.lor (u8 (Z.shiftl (u8 id) 4)) (u8 (Z.of_nat length - 1)))
    else
      let! p' := WriteAt p2 (extensions_offset + esize) (u8 id) in
      WriteAt p' (extensions_offset + esize + 1) (u8 (Z.of_nat length)) in
  let extension_info_offset :=
    Z.to_nat (u16 (Z.of_nat (extensions_offset + esize + extension_header_size))) in
  let extension_info_length := Z.to_nat (u8 (Z.of_nat length)) in
  let p4 := with_extensions p3
    (extension_entries_ p3 ++
     [mkExtensionInfo (u8 id) extension_info_length extension_info_offset])
    new_extensions_size in
  let! r := SetExtensionLengthMaybeAddZeroPadding p4 extensions_offset in
  let p5 := with_sizes r.2 (extensions_offset + r.1) (payload_size_ p4) (padding_size_ p4) in
  let! p6 := touch (SetSize p5 (payload_offset_ p5)) in
  Ok (Some (extension_info_offset, extension_info_length), p6)
  end
  end.

(** [SetPayloadSize] returns the pointer [WriteAt(payload_offset_)]. *)
Definition SetPayloadSize (p : t) (size_bytes : nat) : res t :=
  let p1 := with_sizes p (payload_offset_ p) size_bytes (padding_size_ p) in
  touch (SetSize p1 (payload_offset_ p1 + payload_size_ p1)).

Definition AllocatePayload (p : t) (size_bytes : nat) : res t :=
  let! p1 := SetPayloadSize p 0 in SetPayloadSize p1 size_bytes.

Definition SetPadding (p : t) (padding_bytes : nat) : res (bool * t) :=
  if (capacity p <? payload_offset_ p + payload_size_ p + padding_bytes)%nat
  then Ok (false, p) else
  let padding := Z.to_nat (u8 (Z.of_nat padding_bytes)) in
  let p1 := with_sizes p (payload_offset_ p) (payload_size_ p) padding in
  let p2 := SetSize p1 (payload_offset_ p1 + payload_size_ p1 + padding) in
  if (0 <? padding)%nat then
    let padding_offset := (payload_offset_ p2 + payload_size_ p2)%nat in
    let padding_end := (padding_offset + padding)%nat in
    let! p3 := write (fun d => memset0 d padding_offset (padding - 1)) p2 in
    let! p4 := WriteAt p3 (padding_end - 1) (Z.of_nat padding) in
    let! b0 := data_at p4 0 in
    let! p5 := WriteAt p4 0 (Z.lor b0 0x20) in
    Ok (true, p5)
  else
    let! b0 := data_at p2 0 in
    let! p3 := WriteAt p2 0 (Z.land b0 (Z.lnot 0x20)) in
    Ok (true, p3).

(** [FindExtension(type)]: the bytes of the view. *)
Definition FindExtension (p : t) (type : RTPExtensionType) : res (option (list Z)) :=
  let! id := RtpHeaderExtensionMap.GetId (extensions_ p) type in
  if id =? RtpHeaderExtensionMap.kInvalidId then Ok None else
  match FindExtensionInfo (extension_entries_ p) id with
  | None => Ok None
  | Some e => let! w := window p (ext_offset e) (ext_length e) in Ok (Some w)
  end.

Definition AllocateExtension (p : t) (type : RTPExtensionType) (length : nat)
    : res (option (nat * nat) * t) :=
  let mixed := RtpHeaderExtensionMap.ExtmapAllowMixed (extensions_ p) in
  if (length =? 0)%nat || (kMaxValueSize <? length)%nat ||
     (negb mixed && (kOneByteHeaderExtensionMaxValueSize <? length)%nat)
  then Ok (None, p) else
  let! id := RtpHeaderExtensionMap.GetId (extensions_ p) type in
  if id =? RtpHeaderExtensionMap.kInvalidId then Ok (None, p) else
  if negb mixed && (kOneByteHeaderExtensionMaxId <? id) then Ok (None, p) else
  AllocateRawExtension p id length.

Definition HasExtension (p : t) (type : RTPExtensionType) : res bool :=
  let! id := RtpHeaderExtensionMap.GetId (extensions_ p) type in
  if id =? RtpHeaderExtensionMap.kInvalidId then Ok false else
  Ok (bool_decide (is_Some (FindExtensionInfo (extension_entries_ p) id))).

(** The copying loop of [RemoveExtension]: [None] is [return false]. *)
Definition copy_extension (src : t) (id_to_remove : Z) (st : option (t * bool))
    (e : ExtensionInfo) : res (option (t * bool)) :=
  match st with
  | None => Ok None
  | Some (new_packet, found) =>
      if ext_id e =? id_to_remove then Ok (Some (new_packet, true)) else
      let! r := AllocateRawExtension new_packet (ext_id e) (ext_length e) in
      match r.1 with
      | Some (off, n) =>
          if negb (n =? ext_length e)%nat then Ok None else
          let! p' := write (fun d => memcpy d off (Cow.view (buffer_ src)) (ext_offset e)
                                       (ext_length e)) r.2 in
          Ok (Some (p', found))
      | None => if negb (0 =? ext_length e)%nat then Ok None else Ok (Some (r.2, found))
      end
  end.

Definition RemoveExtension (p : t) (type : RTPExtensionType) : res (bool * t) :=
  let! id_to_remove := RtpHeaderExtensionMap.GetId (extensions_ p) type in
  if id_to_remove =? RtpHeaderExtensionMap.kInvalidId then Ok (false, p) else
  let! n0 := new (RtpHeaderExtensionMap.new false) kDefaultPacketSize in
  let! n1 := SetMarker n0 (Marker p) in
  let! n2 := SetPayloadType n1 (PayloadType p) in
  let! n3 := SetSequenceNumber n2 (SequenceNumber p) in
  let! n4 := SetTimestamp n3 (Timestamp p) in
  let! n5 := SetSsrc n4 (Ssrc p) in
  let n6 := IdentifyExtensions n5 (extensions_ p) in
  let! st := foldM (copy_extension p id_to_remove) (extension_entries_ p) (Some (n6, false)) in
  match st with
  | None => Ok (false, p)
  | Some (n7, found_extension) =>
      if negb found_extension then Ok (false, p) else
      let! n8 :=
        if (0 <? payload_size p)%nat then
          let! n' := AllocatePayload n7 (payload_size p) in
          write (fun d => memcpy d (payload_offset_ n') (Cow.view (buffer_ p))
                            (payload_offset_ p) (payload_size p)) n'
        else SetPayloadSize n7 0 in
      let! r := SetPadding n8 (padding_size p) in
      Ok (true, r.2)
  end.

(** The typed extension templates of [rtp_packet.h]: an empty view is
    [return false], then the value is written into the view. *)
Definition fill_extension (p : t) (type : RTPExtensionType) (value_size : nat)
    (f : nat -> list Z -> res (list Z)) : res (bool * t) :=
  let! r := AllocateExtension p type value_size in
  match r.1 with
  | None | Some (_, O) => Ok (false, r.2)
  | Some (off, _) => let! p' := write (f off) r.2 in Ok (true, p')
  end.

Definition ReserveExtension (p : t) (type : RTPExtensionType) (kValueSizeBytes : nat) : res (bool * t) :=
  fill_extension p type kValueSizeBytes (fun off d => memset0 d off kValueSizeBytes).

Definition SetRawExtension (p : t) (type : RTPExtensionType) (data : list Z) : res (bool * t) :=
  fill_extension p type (length data) (fun off d => memcpy d off data 0 (length data)).

(** [SetExtension] of a [BaseRtpStringExtension], whose [Write] refuses more
    than [kMaxValueSizeBytes] bytes once the room is allocated. *)
Definition kMaxValueSizeBytes : nat := 16.

Definition SetStringExtension (p : t) (type : RTPExtensionType) (str : list Z) : res (bool * t) :=
  if (kMaxValueSizeBytes <? length str)%nat then
    let! r := AllocateExtension p type (length str) in Ok (false, r.2)
  else fill_extension p type (length str) (fun off d => memcpy d off str 0 (length str)).

End WithHeap.
End RtpPacket.
