(* ===== verification/RtpPacketLaws.v ===== *)
(** * RtpPacketLaws: the parsed header and the bytes of an [RtpPacket] agree

    [reads d q] is the declarative reading of a datagram: which bytes each
    member variable stands for.  [ParseBuffer] decides it on arbitrary bytes
    without leaving the buffer, and every mutator keeps the packet equal to
    what re-parsing its bytes would give. *)

From S2P Require Import Prelude.
From S2P Require Import ByteIo.
From S2P Require Import CowBuffer.
From S2P Require Import RtpExtensions.
From S2P Require Import RtpPacketModel.
Import RtpPacket.

(** ** The extension loop *)

(** An entry's bytes lie in [lo, hi), or the entry is the empty one that
    [FindOrCreateExtensionInfo] leaves behind when an offset overflows. *)
Definition entry_in (lo hi : nat) (e : ExtensionInfo) : Prop :=
  is_byte (ext_id e) /\ ext_id e <> 0 /\
  ((ext_length e = 0 /\ ext_offset e = 0) \/
   (lo <= ext_offset e /\ ext_offset e + ext_length e <= hi))%nat.

Definition entries_ok (lo hi : nat) (entries : list ExtensionInfo) : Prop :=
  NoDup (ext_id <$> entries) /\ Forall (entry_in lo hi) entries.

Lemma find_info_Some entries id e :
  FindExtensionInfo entries id = Some e -> e ∈ entries /\ ext_id e = id.
Proof. intros [H1 H2%Z.eqb_eq]%find_some. split; [by apply list_elem_of_In|done]. Qed.

Lemma find_info_None entries id : FindExtensionInfo entries id = None -> id ∉ ext_id <$> entries.
Proof.
  intros Hn (e & -> & He)%list_elem_of_fmap. apply list_elem_of_In in He.
  pose proof (find_none _ _ Hn _ He) as E. cbn in E. by rewrite Z.eqb_refl in E.
Qed.

Lemma assign_info_ids entries id len off :
  ext_id <$> assign_info entries id len off = ext_id <$> entries.
Proof.
  induction entries as [|e entries IH]; cbn; [done|]. destruct (_ =? _); cbn; [done|by rewrite IH].
Qed.

Lemma assign_info_elem entries id len off e :
  NoDup (ext_id <$> entries) -> e ∈ assign_info entries id len off ->
  (ext_id e = id /\ ext_length e = len /\ ext_offset e = off) \/ (e ∈ entries /\ ext_id e <> id).
Proof.
  induction entries as [|e' entries IH]; cbn; [by intros _ ?%elem_of_nil|].
  intros [Hni Hnd]%NoDup_cons. destruct (Z.eqb_spec (ext_id e') id) as [Eid|Hne].
  - intros [->|Hin]%elem_of_cons; [left; cbn; by auto|right].
    split; [by right|]. intros E. apply Hni. rewrite Eid, <- E. by apply list_elem_of_fmap_2.
  - intros [->|Hin]%elem_of_cons; [right; split; [by left|done]|].
    destruct (IH Hnd Hin) as [?|[??]]; [by left|right; split; [by right|done]].
Qed.

Lemma find_or_create_ok lo hi entries id :
  entries_ok lo hi entries -> is_byte id -> id <> 0 ->
  entries_ok lo hi (FindOrCreateExtensionInfo entries id) /\
  id ∈ ext_id <$> FindOrCreateExtensionInfo entries id.
Proof.
  intros [Hnd Hin] Hb Hne. unfold FindOrCreateExtensionInfo.
  destruct (FindExtensionInfo entries id) as [e|] eqn:E.
  - apply find_info_Some in E as [E <-]. split; [done|]. by apply list_elem_of_fmap_2.
  - apply find_info_None in E. rewrite (uw_small 8) by done. rewrite fmap_app. cbn.
    split; [|apply elem_of_app; right; by left].
    split.
    + rewrite fmap_app. cbn. apply NoDup_app. split; [done|]. split; [|apply NoDup_singleton].
      intros x Hx Hx'%list_elem_of_singleton. by subst.
    + apply Forall_app. split; [done|]. constructor; [|done]. split; [done|]. split; [done|]. by left.
Qed.

Lemma find_or_create_NoDup entries id :
  NoDup (ext_id <$> entries) -> is_byte id ->
  NoDup (ext_id <$> FindOrCreateExtensionInfo entries id).
Proof.
  intros Hl Hid. unfold FindOrCreateExtensionInfo.
  destruct (FindExtensionInfo entries id) eqn:E; [done|]. apply find_info_None in E.
  rewrite fmap_app. cbn. rewrite (uw_small 8) by done.
  apply NoDup_app. split; [done|]. split; [|apply NoDup_singleton].
  intros x Hx Hx'%list_elem_of_singleton. by subst.
Qed.

Lemma find_or_create_elem entries id e :
  e ∈ FindOrCreateExtensionInfo entries id -> e ∈ entries \/ ext_length e = 0%nat.
Proof.
  unfold FindOrCreateExtensionInfo. destruct (FindExtensionInfo entries id); [by left|].
  intros [?| ->%list_elem_of_singleton]%elem_of_app; [by left|by right].
Qed.

Lemma assign_ok lo hi entries id len off :
  entries_ok lo hi entries -> is_byte id -> id <> 0 -> (lo <= off)%nat -> (off + len <= hi)%nat ->
  entries_ok lo hi (assign_info entries id len off).
Proof.
  intros [Hnd Hin] Hb Hne Hlo Hhi. split; [by rewrite assign_info_ids|].
  apply Forall_forall. intros e He.
  destruct (assign_info_elem _ _ _ _ _ Hnd He) as [(E1 & E2 & E3)|[He' _]].
  - unfold entry_in. rewrite E1, E2, E3. split; [done|]. split; [done|]. by right.
  - by apply (proj1 (Forall_forall _ _) Hin).
Qed.

(** The id and length a position of the block announces, when the loop does
    not stop there. *)
Definition announced (profile b l : Z) : option (Z * Z) :=
  if profile =? kOneByteExtensionProfileId then
    if (Z.shiftr b 4 =? 15) || ((Z.shiftr b 4 =? 0) && negb (1 + Z.land b 0xf =? 1))
    then None else Some (Z.shiftr b 4, 1 + Z.land b 0xf)
  else Some (b, l).

Lemma announced_range profile b l id len :
  is_byte b -> is_byte l -> b <> 0 -> announced profile b l = Some (id, len) ->
  is_byte id /\ id <> 0 /\ 0 <= len.
Proof.
  unfold announced.
  intros Hb Hl Hne. destruct (profile =? _); [|intros [= <- <-]; unfold in_uw in *; lia].
  change 15 with (Z.ones 4). rewrite Z.land_ones by lia.
  rewrite Z.shiftr_div_pow2 by lia. unfold in_uw in *. change (2 ^ 4) with 16.
  change (Z.ones 4) with 15. change (2 ^ 8) with 256 in *.
  destruct (_ || _) eqn:E; [done|]. apply orb_false_iff in E as [_ E].
  apply andb_false_iff in E. rewrite negb_false_iff, Z.eqb_eq, Z.eqb_neq in E.
  intros [= <- <-]. Z.div_mod_to_equations; lia.
Qed.

Section Loop.
Context (buffer : list Z) (profile : Z) (eo cap hdr : nat).
Hypothesis buffer_bytes : bytes buffer.
Hypothesis block_fits : (eo + cap <= length buffer)%nat.
Hypothesis hdr_size : hdr = if profile =? kOneByteExtensionProfileId then 1%nat else 2%nat.

Abbreviation loop := (fun fuel => parse_extensions fuel buffer profile eo cap hdr).

(** One iteration, as the loop branches. *)
Inductive iteration (esize : nat) (entries : list ExtensionInfo)
    : option (nat * list ExtensionInfo) -> nat -> list ExtensionInfo -> Prop :=
| it_done r : (cap <= esize + hdr)%nat -> r = (esize, entries) ->
    iteration esize entries (Some r) esize entries
| it_padding : (esize + hdr < cap)%nat -> buffer !! (eo + esize)%nat = Some 0 ->
    iteration esize entries None (esize + 1) entries
| it_stop r : (esize + hdr < cap)%nat -> r = (esize, entries) ->
    iteration esize entries (Some r) esize entries
| it_overflow r id : (esize + hdr < cap)%nat -> is_byte id -> id <> 0 ->
    r = (esize, FindOrCreateExtensionInfo entries id) ->
    iteration esize entries (Some r) esize entries
| it_entry id len : (esize + hdr < cap)%nat -> is_byte id -> id <> 0 ->
    (esize + hdr + len <= cap)%nat ->
    iteration esize entries None (esize + (hdr + len))
      (assign_info (FindOrCreateExtensionInfo entries id) id len (eo + esize + hdr)).

Lemma loop_step fuel esize entries :
  exists r esize' entries', iteration esize entries r esize' entries' /\
    loop (S fuel) esize entries =
      match r with Some r => Ok r | None => loop fuel esize' entries' end.
Proof.
  cbn [parse_extensions]. destruct (Nat.ltb_spec (esize + hdr) cap) as [Hlt|Hge].
  2:{ eexists (Some _), _, _. split; [by apply it_done|done]. }
  assert (1 <= hdr)%nat by (rewrite hdr_size; destruct (_ =? _); lia).
  destruct (buf_get_lt buffer (eo + esize)) as (b & Eb & ->); [lia|]. cbn [mbind res_bind].
  destruct (Z.eqb_spec b 0) as [->|Hb0].
  { eexists None, _, _. split; [by apply it_padding|done]. }
  pose proof (bytes_lookup _ _ _ buffer_bytes Eb) as Hb.
  assert (exists l, is_byte l /\
    ((profile =? kOneByteExtensionProfileId) = false ->
      buf_get buffer (eo + esize + 1) = Ok l)) as (l & Hl & El).
  { destruct (profile =? _); [by exists 0|].
    destruct (buf_get_lt buffer (eo + esize + 1)) as (l & El & Hl); [lia|].
    exists l. split; [by apply (bytes_lookup _ _ _ buffer_bytes El)|done]. }
  replace (if profile =? kOneByteExtensionProfileId then _ else _)
    with (Ok (announced profile b l)).
  2:{ unfold announced. destruct (profile =? _); [done|]. by rewrite El by done. }
  cbn [mbind res_bind].
  destruct (announced profile b l) as [[id len]|] eqn:Ea.
  2:{ eexists (Some _), _, _. split; [by apply it_stop|done]. }
  destruct (announced_range profile b l id len) as (Hid & Hid0 & _); [done..|].
  destruct (Nat.ltb_spec cap (esize + hdr + Z.to_nat len)) as [Hbig|Hfit].
  { eexists (Some _), _, _. split; [by apply it_stop|done]. }
  destruct (65535 <? _).
  { eexists (Some _), _, _. split; [by eapply it_overflow|done]. }
  eexists None, _, _. split; [by apply it_entry|done].
Qed.

(** The loop ends inside its fuel, at or before the end of the block, and the
    entries it collected point into the block. *)
Lemma loop_total fuel esize entries :
  (cap <= fuel + esize)%nat -> (0 < fuel)%nat -> (esize <= cap)%nat ->
  entries_ok eo (eo + cap) entries ->
  exists esize' entries', loop fuel esize entries = Ok (esize', entries') /\
    (esize' <= cap)%nat /\ entries_ok eo (eo + cap) entries'.
Proof.
  assert (1 <= hdr)%nat by (rewrite hdr_size; destruct (_ =? _); lia).
  revert esize entries. induction fuel as [|fuel IH]; intros esize entries Hf Hpos Hle Hok; [lia|].
  destruct (loop_step fuel esize entries) as (r & esize' & entries' & Hit & E).
  cbn beta in E. rewrite E.
  destruct Hit as [r Hge ->|Hlt H0|r Hlt ->|r id Hlt Hid Hid0 ->|id len Hlt Hid Hid0 Hfit].
  - eauto.
  - apply IH; [lia..|done].
  - eauto.
  - exists esize, (FindOrCreateExtensionInfo entries id). split; [done|]. split; [done|].
    by apply find_or_create_ok.
  - apply IH; [lia..|].
    apply assign_ok; [by apply find_or_create_ok|done|done|lia|lia].
Qed.

(** Where the windows of the final entries are: an entry that was not there
    yet starts after the header of the current position. *)
Lemma loop_windows fuel esize entries r :
  NoDup (ext_id <$> entries) -> loop fuel esize entries = Ok r ->
  forall e, e ∈ r.2 -> e ∈ entries \/ ext_length e = 0%nat \/ (eo + esize + hdr <= ext_offset e)%nat.
Proof.
  revert esize entries. induction fuel as [|fuel IH]; intros esize entries Hnd; [done|].
  destruct (loop_step fuel esize entries) as (o & esize' & entries' & Hit & E).
  cbn beta in E. rewrite E. clear E.
  destruct Hit as [o Hge ->|Hlt H0|o Hlt ->|o id Hlt Hid Hid0 ->|id len Hlt Hid Hid0 Hfit].
  - intros [= <-]. by left.
  - intros Hr e He. destruct (IH _ _ Hnd Hr e He) as [?|[?|?]]; [by left|by right; left|].
    right; right. lia.
  - intros [= <-]. by left.
  - intros [= <-] e He. destruct (find_or_create_elem _ _ _ He); [by left|by right; left].
  - intros Hr e He.
    assert (Hnd1 : NoDup (ext_id <$> FindOrCreateExtensionInfo entries id)) by (by apply find_or_create_NoDup).
    destruct (IH _ _ ltac:(by rewrite assign_info_ids) Hr e He) as [He'|[?|?]];
      [|by right; left|right; right; lia].
    destruct (assign_info_elem _ _ _ _ _ Hnd1 He') as [(_ & _ & ->)|[Hin _]]; [right; right; lia|].
    destruct (find_or_create_elem _ _ _ Hin); [by left|by right; left].
Qed.
End Loop.

Definition in_window (i : nat) (e : ExtensionInfo) : Prop :=
  (ext_offset e <= i < ext_offset e + ext_length e)%nat.

(** Bytes inside the extension data do not influence the parse. *)
Lemma loop_local d d' profile eo cap hdr fuel esize entries r :
  bytes d -> (eo + cap <= length d)%nat ->
  hdr = (if profile =? kOneByteExtensionProfileId then 1%nat else 2%nat) ->
  NoDup (ext_id <$> entries) ->
  (forall e, e ∈ entries -> ext_length e = 0 \/ ext_offset e + ext_length e <= eo + esize)%nat ->
  parse_extensions fuel d profile eo cap hdr esize entries = Ok r ->
  (forall i, (eo <= i < eo + cap)%nat -> (forall e, e ∈ r.2 -> ~ in_window i e) -> d' !! i = d !! i) ->
  parse_extensions fuel d' profile eo cap hdr esize entries = Ok r.
Proof.
  intros Hd Hfit Hhdr. revert esize entries.
  induction fuel as [|fuel IH]; intros esize entries Hnd Hbefore Hr Hag; [done|].
  assert (Hat : (esize + hdr < cap)%nat -> forall k, (k < hdr)%nat ->
    d' !! (eo + esize + k)%nat = d !! (eo + esize + k)%nat).
  { intros Hlt k Hk. apply Hag; [lia|]. intros e He. unfold in_window.
    destruct (loop_windows d profile eo cap hdr Hd Hfit Hhdr _ _ _ _ Hnd Hr e He)
      as [Hin|[Hz|Hafter]]; [|lia..].
    destruct (Hbefore e Hin); lia. }
  cbn [parse_extensions] in Hr |- *. destruct (Nat.ltb_spec (esize + hdr) cap) as [Hlt|]; [|done].
  specialize (Hat Hlt). pose proof (Hat 0%nat) as H0. rewrite Nat.add_0_r in H0.
  destruct (buf_get_lt d (eo + esize)) as (b & Eb & Gb); [lia|]. rewrite Gb in Hr.
  assert (1 <= hdr)%nat by (rewrite Hhdr; destruct (_ =? _); lia).
  rewrite (buf_get_ok d' (eo + esize) b) by (by rewrite H0 by lia).
  cbn [mbind res_bind] in Hr |- *. destruct (b =? 0).
  { apply IH; [done| |done|done]. intros e He. destruct (Hbefore e He); [by left|right; lia]. }
  set (a := if profile =? kOneByteExtensionProfileId
            then Ok (if (Z.shiftr b 4 =? 15) || _ then None else _) else _) in Hr.
  match goal with |- context [mbind _ ?m] => replace m with a end.
  2:{ subst a. destruct (profile =? _); [done|]. unfold buf_get.
      rewrite (Hat 1%nat) by lia. done. }
  destruct a as [[[id len]|]|] eqn:Ea; cbn [mbind res_bind] in Hr |- *; [|done|done].
  assert (Hid : is_byte id).
  { pose proof (bytes_lookup _ _ _ Hd Eb). subst a. destruct (profile =? _).
    - destruct (_ || _); simplify_eq. auto with fec_width.
    - apply bind_ok_inv in Ea as (l & _ & [= <- _]). done. }
  destruct (_ <? _)%nat eqn:Efit; [done|]. apply Nat.ltb_ge in Efit.
  destruct (65535 <? _); [done|].
  pose proof (find_or_create_NoDup entries id Hnd Hid) as Hnd1.
  apply IH; [by rewrite assign_info_ids| |done|done].
  intros e He. destruct (assign_info_elem _ _ _ _ _ Hnd1 He) as [(_ & -> & ->)|[Hin _]];
    [right; lia|].
  destruct (find_or_create_elem _ _ _ Hin) as [Hin'|]; [|by left].
  destruct (Hbefore e Hin'); [by left|right; lia].
Qed.

(** ** The reading of a datagram *)

(** The header extension: where the payload starts, and the entries. *)
Definition ext_layout (d : list Z) (b0 : Z) : res (option (nat * list ExtensionInfo * nat)) :=
  let off := (kFixedHeaderSize + Z.to_nat (Z.land b0 0x0f) * 4)%nat in
  if (length d <? off)%nat then Ok None else
  if has_bits b0 0x10 then
    if (length d <? off + 4)%nat then Ok None else
    let! profile := ByteReader.ReadBigEndian 16 2 d off in
    let! words := ByteReader.ReadBigEndian 16 2 d (off + 2) in
    let cap := (Z.to_nat words * 4)%nat in
    if (length d <? off + 4 + cap)%nat then Ok None else
    let! r :=
      if negb (profile =? kOneByteExtensionProfileId) &&
         negb (Z.land profile kTwobyteExtensionProfileIdAppBitsFilter =?
               kTwoByteExtensionProfileId)
      then Ok (0%nat, [])
      else parse_extensions (S cap) d profile (off + 4) cap
             (if profile =? kOneByteExtensionProfileId then 1%nat else 2%nat) 0 [] in
    Ok (Some ((off + 4 + cap)%nat, r.2, r.1))
  else Ok (Some (off, [], 0%nat)).

(** The padding of a datagram whose payload starts at [po]; [None]: malformed. *)
Definition pad_layout (d : list Z) (b0 : Z) (po : nat) : option nat :=
  if has_bits b0 0x20 && (po <? length d)%nat then
    match d !! (length d - 1)%nat with
    | Some b => if (Z.to_nat b =? 0)%nat || (length d <? po + Z.to_nat b)%nat then None
                else Some (Z.to_nat b)
    | None => None
    end
  else if (length d <? po)%nat then None else Some 0%nat.

(** [q]'s members are what the bytes [d] say. *)
Definition reads (d : list Z) (q : t) : Prop :=
  (kFixedHeaderSize <= length d)%nat /\
  exists b0 b1, d !! 0%nat = Some b0 /\ d !! 1%nat = Some b1 /\
    Z.shiftr b0 6 = kRtpVersion /\
    marker_ q = has_bits b1 0x80 /\ payload_type_ q = Z.land b1 0x7f /\
    ByteReader.ReadBigEndian 16 2 d 2 = Ok (sequence_number_ q) /\
    ByteReader.ReadBigEndian 32 4 d 4 = Ok (timestamp_ q) /\
    ByteReader.ReadBigEndian 32 4 d 8 = Ok (ssrc_ q) /\
    (exists esize, ext_layout d b0 =
       Ok (Some (payload_offset_ q, extension_entries_ q, esize))) /\
    pad_layout d b0 (payload_offset_ q) = Some (padding_size_ q) /\
    length d = size q.

Lemma read_ok tw B d off :
  bytes d -> (off + B <= length d)%nat -> 8 * Z.of_nat B <= tw ->
  exists v, ByteReader.ReadBigEndian tw B d off = Ok v.
Proof.
  intros Hd Hlen Htw. rewrite ReadBigEndian_generic by done.
  destruct (read_window d off B Hd Hlen) as [f Hf].
  rewrite InternalReadBigEndian_loop, (read_loop_lookup _ _ _ _ _ f) by (intros; by apply Hf).
  eauto.
Qed.

Lemma ext_layout_total d b0 :
  bytes d -> exists o, ext_layout d b0 = Ok o /\
    forall po entries esize, o = Some (po, entries, esize) ->
      (kFixedHeaderSize <= po <= length d)%nat /\ entries_ok kFixedHeaderSize po entries.
Proof.
  intros Hd. unfold ext_layout.
  set (off := (kFixedHeaderSize + Z.to_nat (Z.land b0 0x0f) * 4)%nat).
  assert (kFixedHeaderSize <= off)%nat by lia. clearbody off.
  destruct (Nat.ltb_spec (length d) off); [by exists None|].
  destruct (has_bits b0 0x10).
  2:{ eexists (Some _); split; [done|]. intros po es n [= <- <- <-]. split; [lia|].
      split; [apply NoDup_nil_2|done]. }
  destruct (Nat.ltb_spec (length d) (off + 4)); [by exists None|].
  destruct (read_ok 16 2 d off) as [profile ->]; [done|lia..|]. cbn [mbind res_bind].
  destruct (read_ok 16 2 d (off + 2)) as [words ->]; [done|lia..|]. cbn [mbind res_bind].
  set (cap := (Z.to_nat words * 4)%nat). clearbody cap.
  destruct (Nat.ltb_spec (length d) (off + 4 + cap)); [by exists None|].
  destruct (negb _ && negb _).
  { cbn [mbind res_bind fst snd]. eexists (Some _); split; [done|]. intros po es n [= <- <- <-]. split; [lia|].
    split; [apply NoDup_nil_2|done]. }
  destruct (loop_total d profile (off + 4) cap
    (if profile =? kOneByteExtensionProfileId then 1%nat else 2%nat) Hd ltac:(lia) eq_refl
    (S cap) 0 []) as (n & es & E & Hn & [Hnd Hin]); [lia..| |].
  { split; [apply NoDup_nil_2|done]. }
  rewrite E. cbn [mbind res_bind fst snd]. eexists (Some _); split; [done|]. intros po es' n' [= <- <- <-]. split; [lia|].
  split; [done|]. eapply Forall_impl; [exact Hin|]. cbn.
  intros e (? & ? & [?|?]); split; try done; (split; [done|]); [by left|right; lia].
Qed.

(** ** [ParseBuffer] decides the reading *)

Definition crcs_end (b0 : Z) : nat := (kFixedHeaderSize + Z.to_nat (Z.land b0 0x0f) * 4)%nat.

Lemma parse_extension_block_layout p d b0 :
  extension_entries_ p = [] -> extensions_size_ p = 0%nat -> payload_offset_ p = crcs_end b0 ->
  (crcs_end b0 <= length d)%nat -> has_bits b0 0x10 = true ->
  parse_extension_block p d =
  (let! o := ext_layout d b0 in
   Ok (match o with
       | Some (po, es, n) =>
           Some (with_sizes (with_extensions p es n) po (payload_size_ p) (padding_size_ p))
       | None => None
       end)).
Proof.
  intros He Hs Hpo Hle Hx. unfold parse_extension_block, ext_layout. fold (crcs_end b0).
  rewrite He, Hs, Hpo, Hx, (proj2 (Nat.ltb_ge (length d) (crcs_end b0))) by done.
  destruct (_ <? _)%nat; [done|].
  destruct (ByteReader.ReadBigEndian 16 2 d (crcs_end b0)) as [profile|]; [|done].
  cbn [mbind res_bind].
  destruct (ByteReader.ReadBigEndian 16 2 d (crcs_end b0 + 2)) as [words|]; [|done].
  cbn [mbind res_bind].
  destruct (_ <? _)%nat; [done|].
  destruct (negb _ && negb _); [done|].
  unfold kOneByteExtensionHeaderLength, kTwoByteExtensionHeaderLength.
  destruct (parse_extensions _ _ _ _ _ _ _ _); done.
Qed.

(** Parsing leaves the members it does not own alone. *)
Definition same_owner (q p : t) : Prop := buffer_ q = buffer_ p /\ extensions_ q = extensions_ p.

Lemma parse_padding_layout p d b0 :
  (0 < length d)%nat ->
  match pad_layout d b0 (payload_offset_ p) with
  | Some n => parse_padding p d (has_bits b0 0x20) =
      Ok (true, with_sizes p (payload_offset_ p) (length d - payload_offset_ p - n) n) /\
      (payload_offset_ p + n <= length d)%nat
  | None => exists q, parse_padding p d (has_bits b0 0x20) = Ok (false, q) /\ same_owner q p
  end.
Proof.
  intros Hpos. unfold parse_padding, pad_layout. cbv zeta. destruct (has_bits b0 0x20 && _).
  - destruct (buf_get_lt d (length d - 1)) as (b & -> & ->); [lia|]. cbn [mbind res_bind].
    destruct (Nat.eqb_spec (Z.to_nat b) 0) as [E|Hne]; cbn [orb].
    { rewrite E, bool_decide_true by done. eexists. by split. }
    rewrite bool_decide_false by congruence.
    cbn [with_sizes payload_offset_ padding_size_ default]. unfold id.
    destruct (Nat.ltb_spec (length d) (payload_offset_ p + Z.to_nat b)); [eexists; by split|done].
  - cbn [mbind res_bind]. rewrite bool_decide_false by done.
    cbn [with_sizes payload_offset_ padding_size_ default]. unfold id. rewrite Nat.add_0_r.
    destruct (Nat.ltb_spec (length d) (payload_offset_ p)); [eexists; by split|].
    split; [done|lia].
Qed.

Lemma reads_inv d q b0 :
  reads d q -> d !! 0%nat = Some b0 ->
  Z.shiftr b0 6 = kRtpVersion /\
  (exists esize, ext_layout d b0 = Ok (Some (payload_offset_ q, extension_entries_ q, esize))) /\
  pad_layout d b0 (payload_offset_ q) = Some (padding_size_ q).
Proof. intros (_ & b0' & b1 & E & H) E'. simplify_eq. tauto. Qed.

Lemma ParseBuffer_spec p d :
  bytes d ->
  exists b q, ParseBuffer p d = Ok (b, q) /\ same_owner q p /\
    (b = true -> reads d q) /\ (b = false -> forall q', ~ reads d q').
Proof.
  intros Hd. unfold ParseBuffer.
  destruct (Nat.ltb_spec (length d) kFixedHeaderSize) as [Hlt|Hlen].
  { exists false, p. split; [done|]. split; [done|]. split; [done|].
    intros _ q' [? _]. lia. }
  pose proof Hlen as Hlen12. unfold kFixedHeaderSize in Hlen12.
  destruct (buf_get_lt d 0) as (b0 & E0 & ->); [lia|]. cbn [mbind res_bind].
  destruct (Z.eqb_spec (Z.shiftr b0 6) kRtpVersion) as [Ever|Hver]; cbn [negb].
  2:{ exists false, p. split; [done|]. split; [done|]. split; [done|].
      intros _ q' Hq. by destruct (reads_inv d q' b0 Hq E0). }
  destruct (buf_get_lt d 1) as (b1 & E1 & ->); [lia|]. cbn [mbind res_bind].
  destruct (read_ok 16 2 d 2) as [seq Eseq]; [done|lia..|]. rewrite Eseq. cbn [mbind res_bind].
  destruct (read_ok 32 4 d 4) as [ts Ets]; [done|lia..|]. rewrite Ets. cbn [mbind res_bind].
  destruct (read_ok 32 4 d 8) as [ssrc Essrc]; [done|lia..|]. rewrite Essrc. cbn [mbind res_bind].
  fold (crcs_end b0).
  destruct (ext_layout_total d b0 Hd) as (o & Eo & Ho).
  set (p1 := with_ssrc _ _).
  set (p3 := with_extensions (with_sizes p1 (crcs_end b0) _ _) [] 0).
  assert (Hrej : o = None -> forall q', ~ reads d q').
  { intros -> q' Hq. destruct (reads_inv d q' b0 Hq E0) as (_ & [n En] & _). congruence. }
  assert (Hpad : forall po es n, o = Some (po, es, n) ->
    let p4 := with_sizes (with_extensions p3 es n) po (payload_size_ p3) (padding_size_ p3) in
    exists b q, parse_padding p4 d (has_bits b0 0x20) = Ok (b, q) /\ same_owner q p /\
      (b = true -> reads d q) /\ (b = false -> forall q', ~ reads d q')).
  { intros po es n -> p4. pose proof (parse_padding_layout p4 d b0 ltac:(lia)) as Hp.
    change (payload_offset_ p4) with po in Hp.
    destruct (pad_layout d b0 po) as [pad|] eqn:Ep.
    - destruct Hp as [-> Hle]. eexists true, _. split; [done|]. split; [done|]. split; [|done].
      intros _. split; [done|]. exists b0, b1. do 8 (split; [done|]).
      split; [by eauto|]. split; [done|]. unfold size. cbn. lia.
    - destruct Hp as (q & -> & Hq). exists false, q. split; [done|]. split; [exact Hq|].
      split; [done|]. intros _ q' Hq'. destruct (reads_inv d q' b0 Hq' E0) as (_ & [n' En] & Hp').
      congruence. }
  unfold ext_layout in Eo. fold (crcs_end b0) in Eo.
  destruct (Nat.ltb_spec (length d) (crcs_end b0)) as [Hsh|Hcr].
  { injection Eo as <-. eexists false, p1. do 3 (split; [done|]). intros _. by apply Hrej. }
  destruct (has_bits b0 0x10) eqn:Ex.
  - rewrite (parse_extension_block_layout _ _ b0) by done. unfold ext_layout. fold (crcs_end b0).
    rewrite (proj2 (Nat.ltb_ge _ _)), Ex, Eo by done. cbn [mbind res_bind].
    destruct o as [[[po es] n]|]; [by apply (Hpad po es n)|].
    exists false, p3. do 3 (split; [done|]). intros _. by apply Hrej.
  - injection Eo as <-. apply (Hpad (crcs_end b0) [] 0%nat eq_refl).
Qed.

(** The reading is unique, up to the members parsing does not own and the
    unaligned size of the extension block. *)
Lemma reads_unique d q q' :
  reads d q -> reads d q' -> same_owner q q' ->
  exists esize, q' = with_extensions q (extension_entries_ q) esize.
Proof.
  intros (_ & b0 & b1 & E0 & E1 & _ & H1 & H2 & H3 & H4 & H5 & [n H6] & H7 & H8)
         (_ & b0' & b1' & E0' & E1' & _ & K1 & K2 & K3 & K4 & K5 & [n' K6] & K7 & K8) [Hb He].
  rewrite E0 in E0'. rewrite E1 in E1'. injection E0' as <-. injection E1' as <-.
  exists (extensions_size_ q'). destruct q, q'. unfold size, with_extensions in *. cbn in *.
  rewrite H3 in K3. rewrite H4 in K4. rewrite H5 in K5. rewrite H6 in K6.
  injection K3 as <-. injection K4 as <-. injection K5 as <-. injection K6 as <- <- _.
  rewrite H7 in K7. injection K7 as <-. subst. f_equal. lia.
Qed.
