(* ===== verification/RtpPacketOps.v ===== *)
(** * RtpPacketOps: every mutator of [RtpPacket] keeps header and bytes in step *)

From S2P Require Import Prelude.
From S2P Require Import ByteIo.
From S2P Require Import CowBuffer.
From S2P Require Import RtpExtensions.
From S2P Require Import RtpPacketModel.
From S2P Require Import RtpPacketLaws.
Import RtpPacket.

(** The bytes that would be sent. *)
Definition wire (p : t) : list Z := Cow.contents (buffer_ p).

Definition buf_ok (p : t) : Prop :=
  cow_ok (buffer_ p) /\ (kFixedHeaderSize <= capacity p)%nat.

(** The class invariant. *)
Definition consistent (p : t) : Prop := buf_ok p /\ reads (wire p) p.

(** ** What the layout depends on *)

Lemma read2_local d d' off :
  d' !! off = d !! off -> d' !! (off + 1)%nat = d !! (off + 1)%nat ->
  ByteReader.ReadBigEndian 16 2 d' off = ByteReader.ReadBigEndian 16 2 d off.
Proof.
  intros E0 E1. cbn. unfold ByteReader.ReadBigEndian2, buf_get. by rewrite E0, E1.
Qed.

Lemma read4_local d d' off :
  (forall k, (k < 4)%nat -> d' !! (off + k)%nat = d !! (off + k)%nat) ->
  ByteReader.ReadBigEndian 32 4 d' off = ByteReader.ReadBigEndian 32 4 d off.
Proof.
  intros E. cbn. unfold ByteReader.ReadBigEndian4, buf_get.
  pose proof (E 0%nat) as E0. rewrite Nat.add_0_r in E0. by rewrite E0, !E by lia.
Qed.

Lemma ext_layout_local d d' b0 po es n :
  bytes d -> ext_layout d b0 = Ok (Some (po, es, n)) -> (po <= length d')%nat ->
  (forall i, (kFixedHeaderSize <= i < po)%nat -> (forall e, e ∈ es -> ~ in_window i e) ->
     d' !! i = d !! i) ->
  ext_layout d' b0 = Ok (Some (po, es, n)).
Proof.
  unfold ext_layout. fold (crcs_end b0). intros Hd E Hpo Hag.
  assert (Hoff : (kFixedHeaderSize <= crcs_end b0)%nat) by (unfold crcs_end; lia).
  set (off := crcs_end b0) in *. clearbody off.
  destruct (Nat.ltb_spec (length d) (off)); [done|].
  destruct (has_bits b0 0x10).
  2:{ injection E as <- <- <-. by rewrite (proj2 (Nat.ltb_ge _ _)) by done. }
  destruct (Nat.ltb_spec (length d) (off + 4)); [done|].
  apply bind_ok_inv in E as (profile & Eprof & E).
  apply bind_ok_inv in E as (words & Ewords & E).
  set (cap := (Z.to_nat words * 4)%nat) in *. assert (Hcap : cap = (Z.to_nat words * 4)%nat) by done. clearbody cap.
  destruct (Nat.ltb_spec (length d) (off + 4 + cap)); [done|].
  apply bind_ok_inv in E as (r & Er & [= <- <- <-]).
  set (hdr := if profile =? kOneByteExtensionProfileId then 1%nat else 2%nat) in *.
  assert (Hwin : forall i e, e ∈ r.2 -> in_window i e -> (off + 4 + hdr <= i)%nat).
  { intros i e He Hi. unfold in_window in Hi. destruct (negb _ && negb _).
    { injection Er as <-. cbn in He. by apply elem_of_nil in He. }
    destruct (loop_windows d profile (off + 4) cap hdr Hd ltac:(lia) eq_refl
                (S cap) 0%nat [] r (@NoDup_nil_2 Z) Er e He) as [Hn|[?|?]]; [|lia|lia].
    by apply elem_of_nil in Hn. }
  assert (Hhdr : forall k, (k < 4)%nat -> d' !! (off + k)%nat = d !! (off + k)%nat).
  { intros k Hk. apply Hag; [lia|]. intros e He Hi. specialize (Hwin _ e He Hi). lia. }
  rewrite !(proj2 (Nat.ltb_ge _ _)) by lia.
  pose proof (Hhdr 0%nat) as Hhdr0. rewrite Nat.add_0_r in Hhdr0.
  rewrite (read2_local d d' off) by (apply Hhdr0 || apply Hhdr; lia).
  rewrite Eprof. cbn [mbind res_bind].
  rewrite (read2_local d d' (off + 2)) by (rewrite <- ?Nat.add_assoc; apply Hhdr; lia).
  rewrite Ewords. cbn [mbind res_bind]. rewrite <- Hcap. fold hdr.
  rewrite !(proj2 (Nat.ltb_ge _ _)) by lia.
  destruct (negb _ && negb _); [by injection Er as <-|].
  erewrite loop_local; [done|exact Hd| |done|apply NoDup_nil_2| |exact Er|].
  - lia.
  - by intros e ?%elem_of_nil.
  - intros i Hi Hno. apply Hag; [lia|done].
Qed.

Lemma pad_layout_same d d' b0 po :
  length d' = length d -> ((po < length d)%nat -> d' !! (length d - 1)%nat = d !! (length d - 1)%nat) ->
  pad_layout d' b0 po = pad_layout d b0 po.
Proof.
  intros Hlen Hlast. unfold pad_layout. rewrite Hlen.
  destruct (Nat.ltb_spec po (length d)); [by rewrite Hlast|]. by rewrite !andb_false_r.
Qed.

(** The layout members of two packets coincide. *)
Definition same_layout (q q' : t) : Prop :=
  payload_offset_ q' = payload_offset_ q /\ payload_size_ q' = payload_size_ q /\
  padding_size_ q' = padding_size_ q /\ extension_entries_ q' = extension_entries_ q.

(** The fixed-size header members are those of the bytes. *)
Definition reads_fixed (d : list Z) (q : t) : Prop :=
  exists b1, d !! 1%nat = Some b1 /\
    marker_ q = has_bits b1 0x80 /\ payload_type_ q = Z.land b1 0x7f /\
    ByteReader.ReadBigEndian 16 2 d 2 = Ok (sequence_number_ q) /\
    ByteReader.ReadBigEndian 32 4 d 4 = Ok (timestamp_ q) /\
    ByteReader.ReadBigEndian 32 4 d 8 = Ok (ssrc_ q).

Lemma reads_reads_fixed d q : reads d q -> reads_fixed d q.
Proof. intros (_ & b0 & b1 & _ & E1 & _ & H1 & H2 & H3 & H4 & H5 & _). by exists b1. Qed.

(** A change of bytes 1 to 11, or of extension data, keeps the layout. *)
Lemma reads_relayout d d' q q' :
  bytes d -> reads d q -> length d' = length d -> d' !! 0%nat = d !! 0%nat ->
  (forall i, (kFixedHeaderSize <= i)%nat ->
     (forall e, e ∈ extension_entries_ q -> ~ in_window i e) -> d' !! i = d !! i) ->
  reads_fixed d' q' -> same_layout q q' -> reads d' q'.
Proof.
  intros Hd Hr Hlen H0 Hag (b1 & E1 & Hfix) (L1 & L2 & L3 & L4).
  destruct Hr as (Hl & b0 & b1' & E0 & _ & Hver & _ & _ & _ & _ & _ & [n Hext] & Hpad & Hsize).
  pose proof (ext_layout_total d b0 Hd) as (o & Eo & Ho). rewrite Hext in Eo.
  injection Eo as <-. destruct (Ho _ _ _ eq_refl) as [Hpo Hents].
  split; [by rewrite Hlen|]. exists b0, b1. split; [by rewrite H0|]. split; [done|].
  split; [done|]. destruct Hfix as (F1 & F2 & F3 & F4 & F5).
  do 5 (split; [done|]). rewrite L1, L3, L4. split.
  { exists n. apply (ext_layout_local d); [done|done|lia|].
    intros i Hi Hno. apply Hag; [lia|done]. }
  split; [|unfold size in *; lia].
  rewrite <- Hpad. apply pad_layout_same; [done|]. intros Hlt. apply Hag.
  - lia.
  - intros e He [Hw1 Hw2]. destruct Hents as [_ Hin].
    destruct (proj1 (Forall_forall _ _) Hin e He) as (_ & _ & [?|[? ?]]); lia.
Qed.

(** ** Writes through [WriteAt] *)

Lemma local_buf_set n i x :
  (i < n)%nat -> local_write n (fun d => buf_set d i x) (fun d => buf_set d i x).
Proof.
  intros Hi v Hv Hn. rewrite !buf_set_ok by (rewrite ?length_take; lia).
  eexists. split; [done|]. split; [by rewrite take_insert_lt by lia|].
  split; [apply length_insert|by apply bytes_insert].
Qed.

Lemma local_bind n f1 g1 f2 g2 :
  local_write n f1 g1 -> local_write n f2 g2 ->
  local_write n (fun d => let! d' := f1 d in f2 d') (fun d => let! d' := g1 d in g2 d').
Proof.
  intros H1 H2 v Hv Hn. destruct (H1 v Hv Hn) as (v1 & E1 & F1 & L1 & B1).
  destruct (H2 v1 B1) as (v2 & E2 & F2 & L2 & B2); [lia|].
  exists v2. rewrite E1, F1. cbn. split; [done|]. split; [done|]. split; [lia|done].
Qed.

Lemma local_foldM {A} n (h : list Z -> A -> res (list Z)) l :
  (forall a, a ∈ l -> local_write n (fun d => h d a) (fun d => h d a)) ->
  local_write n (fun d => foldM h l d) (fun d => foldM h l d).
Proof.
  induction l as [|a l IH]; intros Hh; cbn.
  - intros v Hv Hn. by exists v.
  - apply (local_bind n (fun d => h d a) (fun d => h d a)); [apply Hh; by left|].
    apply IH. intros a' Ha'. apply Hh. by right.
Qed.

Lemma local_big_endian n B off x :
  (off + B <= n)%nat ->
  local_write n (fun d => ByteWriter.WriteBigEndian B d off x)
                (fun d => ByteWriter.WriteBigEndian B d off x).
Proof.
  intros Hoff v Hv Hn.
  destruct (local_foldM n (fun d i => buf_set d (off + i) (Z.shiftr x (Z.of_nat ((B - 1 - i) * 8))))
    (seq 0 B)) with (v := v) as (v' & E1 & E2 & ?); [|done|done|].
  { intros i Hi%elem_of_seq. apply local_buf_set. lia. }
  exists v'. rewrite !WriteBigEndian_loop. by unfold write_loop.
Qed.

Lemma local_memset0 n off k :
  (off + k <= n)%nat -> local_write n (fun d => memset0 d off k) (fun d => memset0 d off k).
Proof.
  intros Hoff v Hv Hn. unfold memset0. rewrite !decide_True by (rewrite ?length_take; lia).
  eexists. split; [done|].
  assert (Hl : length (take off v) = off) by (rewrite length_take; lia).
  split; [f_equal|].
  - rewrite take_take, Nat.min_l by lia.
    rewrite (take_app_ge _ _ n) by lia. rewrite Hl. f_equal.
    rewrite take_app_ge by (rewrite length_replicate; lia). rewrite length_replicate. f_equal.
    rewrite take_drop_commute. f_equal. f_equal. lia.
  - rewrite !length_app, Hl, length_replicate, length_drop. split; [lia|].
    apply Forall_app. split; [by apply Forall_take|].
    apply Forall_app. split; [by apply Forall_replicate|by apply Forall_drop].
Qed.

Lemma local_memcpy n off src soff k :
  (off + k <= n)%nat -> (soff + k <= length src)%nat -> bytes src ->
  local_write n (fun d => memcpy d off src soff k) (fun d => memcpy d off src soff k).
Proof.
  intros Hoff Hsrc Hb v Hv Hn. rewrite !memcpy_ok by (rewrite ?length_take; lia).
  assert (Hl1 : length (take off v) = off) by (rewrite length_take; lia).
  assert (Hl2 : length (take k (drop soff src)) = k) by (rewrite length_take, length_drop; lia).
  eexists. split; [done|]. split; [f_equal|split].
  - rewrite take_take, Nat.min_l by lia.
    rewrite (take_app_ge _ _ n) by lia. rewrite Hl1. f_equal.
    rewrite take_app_ge by lia. rewrite Hl2. f_equal.
    rewrite take_drop_commute. f_equal. f_equal. lia.
  - rewrite !length_app, Hl1, Hl2, length_drop. lia.
  - apply Forall_app. split; [by apply Forall_take|].
    apply Forall_app. split; [by apply Forall_take, Forall_drop|by apply Forall_drop].
Qed.

Section Ops.
Context `{Heap}.

Lemma capacity_pos p : buf_ok p -> (0 < Cow.capacity (buffer_ p))%nat.
Proof. intros [_ Hc]. unfold capacity, kFixedHeaderSize in Hc. lia. Qed.

Lemma write_wire f g p :
  buf_ok p -> local_write (Cow.size_ (buffer_ p)) f g ->
  exists b', write f p = Ok (with_buffer p b') /\ buf_ok (with_buffer p b') /\
    capacity (with_buffer p b') = capacity p /\ g (wire p) = Ok (Cow.contents b').
Proof.
  intros Hok Hloc. pose proof (capacity_pos p Hok) as Hpos. destruct Hok as [Hcow Hcap].
  destruct (mutate_local f g (buffer_ p) Hcow Hpos Hloc) as (b' & Em & Hok' & Hcap' & _ & Hg).
  exists b'. unfold write. rewrite Em. cbn. split; [done|].
  unfold buf_ok, capacity in *. cbn. rewrite Hcap'. by split.
Qed.

Lemma size_wire p : buf_ok p -> Cow.size_ (buffer_ p) = length (wire p).
Proof. intros [Hc _]. unfold wire. by rewrite length_contents. Qed.

Lemma data_at_wire p i b : wire p !! i = Some b -> data_at p i = Ok b.
Proof.
  intros Hb. unfold data_at, Cow.read. apply buf_get_ok.
  unfold wire, Cow.contents in Hb. by apply lookup_take_Some in Hb as [? _].
Qed.

(** A mutator that rewrites header bytes 1 to 11. *)
Lemma header_write p q f g d' :
  consistent p -> buffer_ q = buffer_ p -> extensions_ q = extensions_ p -> same_layout p q ->
  local_write (length (wire p)) f g -> g (wire p) = Ok d' ->
  length d' = length (wire p) -> d' !! 0%nat = wire p !! 0%nat ->
  (forall i, (kFixedHeaderSize <= i)%nat -> d' !! i = wire p !! i) -> reads_fixed d' q ->
  exists p', write f q = Ok p' /\ consistent p' /\ wire p' = d' /\
    exists b, p' = with_buffer q b.
Proof.
  intros [Hok Hr] Hbuf Hext Hlay Hloc Hg Hlen H0 Hrest Hfix.
  assert (Hokq : buf_ok q) by (unfold buf_ok, capacity in *; by rewrite Hbuf).
  assert (Hwq : wire q = wire p) by (unfold wire; by rewrite Hbuf).
  destruct (write_wire f g q Hokq) as (b' & E & Hok' & _ & Hg').
  { by rewrite size_wire, Hwq by done. }
  exists (with_buffer q b'). split; [done|].
  rewrite Hwq, Hg in Hg'. injection Hg' as Hd'. split; [|split; [by unfold wire|by eauto]].
  split; [done|]. unfold wire at 1. cbn. rewrite <- Hd'.
  apply (reads_relayout (wire p) d' p);
    [by apply bytes_contents; destruct Hok|done|done|done|by auto|exact Hfix|exact Hlay].
Qed.

(** ** The header setters *)

(** [p'] is [q] with another buffer. *)
Definition only_buffer (q p' : t) : Prop := exists b, p' = with_buffer q b.

Lemma consistent_b1 p :
  consistent p -> exists b1, wire p !! 1%nat = Some b1 /\ is_byte b1 /\ data_at p 1 = Ok b1 /\
    (kFixedHeaderSize <= length (wire p))%nat /\ bytes (wire p).
Proof.
  intros [[Hok _] (Hl & b0 & b1 & _ & E1 & _)]. pose proof (bytes_contents _ Hok) as Hb.
  exists b1. split; [done|]. split; [by apply (bytes_lookup _ _ _ Hb E1)|].
  split; [by apply data_at_wire|]. by split.
Qed.

(** Writing byte 1: marker and payload type follow from the new byte. *)
Lemma write_b1 p q x :
  consistent p -> buffer_ q = buffer_ p -> extensions_ q = extensions_ p -> same_layout p q ->
  sequence_number_ q = sequence_number_ p -> timestamp_ q = timestamp_ p -> ssrc_ q = ssrc_ p ->
  marker_ q = has_bits (u8 x) 0x80 -> payload_type_ q = Z.land (u8 x) 0x7f ->
  exists p', WriteAt q 1 x = Ok p' /\ consistent p' /\ wire p' = <[1%nat := u8 x]> (wire p) /\
    only_buffer q p'.
Proof.
  intros Hp Hbuf Hext Hlay Hs Ht Hss Hm Hpt.
  destruct (consistent_b1 p Hp) as (b1 & E1 & _ & _ & Hl & Hb). unfold kFixedHeaderSize in Hl.
  destruct (reads_reads_fixed _ _ (proj2 Hp)) as (b1' & _ & _ & _ & R2 & R4 & R8).
  unfold WriteAt. apply (header_write p q _ (fun d => buf_set d 1 x)); try done.
  - apply local_buf_set. lia.
  - apply buf_set_ok. lia.
  - apply length_insert.
  - by rewrite list_lookup_insert_ne.
  - intros i Hi. rewrite list_lookup_insert_ne; [done|]. unfold kFixedHeaderSize in Hi. lia.
  - exists (u8 x). rewrite list_lookup_insert_eq by lia. split; [done|].
    do 2 (split; [done|]). rewrite Hs, Ht, Hss, <- R2, <- R4, <- R8.
    split; [|split]; [apply read2_local|apply read4_local; intros k Hk..];
      rewrite list_lookup_insert_ne; (done || lia).
Qed.

Lemma SetMarker_ok p m :
  consistent p ->
  exists p', SetMarker p m = Ok p' /\ consistent p' /\ only_buffer (with_marker p m) p'.
Proof.
  intros Hp. destruct (consistent_b1 p Hp) as (b1 & E1 & Hb1 & Hd & _).
  destruct (reads_reads_fixed _ _ (proj2 Hp)) as (b1' & E1' & _ & Hpt & _). simplify_eq.
  unfold SetMarker. change (data_at (with_marker p m) 1) with (data_at p 1). rewrite Hd.
  cbn [mbind res_bind].
  destruct m;
    [destruct (write_b1 p (with_marker p true) (Z.lor b1 0x80)) as (p' & ? & ? & _ & ?)
    |destruct (write_b1 p (with_marker p false) (Z.land b1 0x7f)) as (p' & ? & ? & _ & ?)];
    try done; try by eauto.
  - change 0x80 with (2 ^ 7) at 2. rewrite has_bits_pow2 by lia.
    cbn [marker_ with_marker]. testbits; done.
  - cbn [payload_type_ with_marker]. rewrite Hpt. byte_eq.
  - change 0x80 with (2 ^ 7). rewrite has_bits_pow2 by lia.
    cbn [marker_ with_marker]. testbits; done.
  - cbn [payload_type_ with_marker]. rewrite Hpt. byte_eq.
Qed.

Lemma SetPayloadType_ok p pt :
  consistent p -> 0 <= pt < 128 ->
  exists p', SetPayloadType p pt = Ok p' /\ consistent p' /\ only_buffer (with_payload_type p pt) p'.
Proof.
  intros Hp Hr. destruct (consistent_b1 p Hp) as (b1 & E1 & Hb1 & Hd & _).
  destruct (reads_reads_fixed _ _ (proj2 Hp)) as (b1' & E1' & Hm & _ & _). simplify_eq.
  unfold SetPayloadType. change (data_at (with_payload_type p pt) 1) with (data_at p 1).
  rewrite Hd. cbn [mbind res_bind]. assert (Hpt : in_uw 7 pt) by (unfold in_uw; lia).
  destruct (write_b1 p (with_payload_type p pt) (Z.lor (Z.land b1 0x80) pt))
    as (p' & ? & ? & _ & ?); try done; [..|by eauto].
  - cbn [marker_ with_payload_type]. rewrite Hm. change 0x80 with (2 ^ 7) at 1 3. rewrite !has_bits_pow2 by lia. testbits; done.
  - cbn [payload_type_ with_payload_type]. assert (is_byte pt) by (unfold in_uw; lia). byte_eq.
    by rewrite (in_uw_testbit 7 pt).
Qed.

(** A 16- or 32-bit field of the fixed header. *)
Lemma write_field p q B off v :
  consistent p -> buffer_ q = buffer_ p -> extensions_ q = extensions_ p -> same_layout p q ->
  (2 <= off)%nat -> (off + B <= kFixedHeaderSize)%nat ->
  marker_ q = marker_ p -> payload_type_ q = payload_type_ p ->
  (forall d', written (wire p) d' off B (fun i => B - 1 - i)%nat v ->
     (forall tw, 8 * Z.of_nat B <= tw ->
        ByteReader.ReadBigEndian tw B d' off = Ok (uw (8 * Z.of_nat B) v)) ->
     ByteReader.ReadBigEndian 16 2 d' 2 = Ok (sequence_number_ q) /\
     ByteReader.ReadBigEndian 32 4 d' 4 = Ok (timestamp_ q) /\
     ByteReader.ReadBigEndian 32 4 d' 8 = Ok (ssrc_ q)) ->
  exists p', write (fun d => ByteWriter.WriteBigEndian B d off v) q = Ok p' /\ consistent p' /\
    only_buffer q p'.
Proof.
  intros Hp Hbuf Hext Hlay Hlo Hhi Hm Hpt Hfields.
  destruct (consistent_b1 p Hp) as (b1 & E1 & Hb1 & _ & Hl & Hb).
  destruct (reads_reads_fixed _ _ (proj2 Hp)) as (b1' & E1' & M & P & _). simplify_eq.
  destruct (big_endian_roundtrip (8 * Z.of_nat B) B (wire p) off v) as (d' & Hw & Hwr & _);
    [done|lia|done|].
  destruct (header_write p q (fun d => ByteWriter.WriteBigEndian B d off v)
    (fun d => ByteWriter.WriteBigEndian B d off v) d') as (p' & ? & ? & _ & ?); try done.
  - apply local_big_endian. lia.
  - apply Hwr.
  - apply Hwr. lia.
  - intros i Hi. apply Hwr. lia.
  - pose proof Hwr as (_ & _ & Hout). exists b1. split; [rewrite Hout; [done|lia]|].
    split; [congruence|]. split; [congruence|]. apply Hfields; [done|].
    intros tw Htw. destruct (big_endian_roundtrip tw B (wire p) off v) as (d2 & Hw2 & _ & Hr);
      [done|lia|done|]. congruence.
  - by eauto.
Qed.

Lemma SetSequenceNumber_ok p v :
  consistent p -> is_u16 v ->
  exists p', SetSequenceNumber p v = Ok p' /\ consistent p' /\
    only_buffer (with_sequence_number p v) p'.
Proof.
  intros Hp Hv. destruct (reads_reads_fixed _ _ (proj2 Hp)) as (b1 & _ & _ & _ & R2 & R4 & R8).
  apply (write_field p); try done; [unfold kFixedHeaderSize; lia|].
  intros d' (_ & _ & Hout) Hrd. cbn [sequence_number_ timestamp_ ssrc_ with_sequence_number].
  rewrite <- R4, <- R8. split; [rewrite Hrd by done; by rewrite uw_small|].
  split; apply read4_local; intros k Hk; apply Hout; lia.
Qed.

Lemma SetTimestamp_ok p v :
  consistent p -> is_u32 v ->
  exists p', SetTimestamp p v = Ok p' /\ consistent p' /\ only_buffer (with_timestamp p v) p'.
Proof.
  intros Hp Hv. destruct (reads_reads_fixed _ _ (proj2 Hp)) as (b1 & _ & _ & _ & R2 & R4 & R8).
  apply (write_field p); try done; [unfold kFixedHeaderSize; lia..|].
  intros d' (_ & _ & Hout) Hrd. cbn [sequence_number_ timestamp_ ssrc_ with_timestamp].
  rewrite <- R2, <- R8. split; [apply read2_local; apply Hout; lia|].
  split; [rewrite Hrd by done; by rewrite uw_small|].
  apply read4_local; intros k Hk; apply Hout; lia.
Qed.

Lemma SetSsrc_ok p v :
  consistent p -> is_u32 v ->
  exists p', SetSsrc p v = Ok p' /\ consistent p' /\ only_buffer (with_ssrc p v) p'.
Proof.
  intros Hp Hv. destruct (reads_reads_fixed _ _ (proj2 Hp)) as (b1 & _ & _ & _ & R2 & R4 & R8).
  apply (write_field p); try done; [unfold kFixedHeaderSize; lia..|].
  intros d' (_ & _ & Hout) Hrd. cbn [sequence_number_ timestamp_ ssrc_ with_ssrc].
  rewrite <- R2, <- R4. split; [apply read2_local; apply Hout; lia|].
  split; [apply read4_local; intros k Hk; apply Hout; lia|].
  rewrite Hrd by done; by rewrite uw_small.
Qed.

(** ** Payload and padding *)

Lemma ext_layout_b0 d b0 b0' :
  Z.land b0' 0x0f = Z.land b0 0x0f -> has_bits b0' 0x10 = has_bits b0 0x10 ->
  ext_layout d b0' = ext_layout d b0.
Proof. intros E1 E2. unfold ext_layout. by rewrite E1, E2. Qed.

Lemma reads_offset d q :
  bytes d -> reads d q ->
  (kFixedHeaderSize <= payload_offset_ q)%nat /\
  entries_ok kFixedHeaderSize (payload_offset_ q) (extension_entries_ q).
Proof.
  intros Hd (_ & b0 & b1 & _ & _ & _ & _ & _ & _ & _ & _ & [n Hext] & _).
  destruct (ext_layout_total d b0 Hd) as (o & Eo & Ho). rewrite Hext in Eo. injection Eo as <-.
  destruct (Ho _ _ _ eq_refl). split; [lia|done].
Qed.

(** Everything after the header, and the P bit, may change together. *)
Lemma reads_tail d d' q q' b0 b0' :
  bytes d -> reads d q -> d !! 0%nat = Some b0 -> d' !! 0%nat = Some b0' ->
  Z.shiftr b0' 6 = Z.shiftr b0 6 -> Z.land b0' 0x0f = Z.land b0 0x0f ->
  has_bits b0' 0x10 = has_bits b0 0x10 ->
  (payload_offset_ q <= length d')%nat ->
  (forall i, (1 <= i < payload_offset_ q)%nat -> d' !! i = d !! i) ->
  marker_ q' = marker_ q -> payload_type_ q' = payload_type_ q ->
  sequence_number_ q' = sequence_number_ q -> timestamp_ q' = timestamp_ q ->
  ssrc_ q' = ssrc_ q -> payload_offset_ q' = payload_offset_ q ->
  extension_entries_ q' = extension_entries_ q ->
  pad_layout d' b0' (payload_offset_ q) = Some (padding_size_ q') -> length d' = size q' ->
  reads d' q'.
Proof.
  intros Hd Hr E0 E0' Hver Hcc Hx Hlen Hag F1 F2 F3 F4 F5 F6 F7 Hpad Hsize.
  pose proof (reads_offset d q Hd Hr) as [Hpo _]. unfold kFixedHeaderSize in Hpo.
  destruct Hr as (Hl & b0x & b1 & E0x & E1 & V & M & P & R2 & R4 & R8 & [n Hext] & _).
  assert (b0x = b0) as -> by congruence. split; [unfold kFixedHeaderSize; lia|].
  exists b0', b1. split; [done|]. split; [rewrite Hag by lia; done|]. split; [congruence|].
  rewrite F1, F2, F3, F4, F5, F6, F7. do 2 (split; [done|]).
  split; [rewrite <- R2; apply read2_local; apply Hag; lia|].
  split; [rewrite <- R4; apply read4_local; intros; apply Hag; lia|].
  split; [rewrite <- R8; apply read4_local; intros; apply Hag; lia|].
  split; [|by split]. exists n. rewrite (ext_layout_b0 _ b0 b0') by done.
  apply (ext_layout_local d); [done|done|done|]. intros i Hi _. apply Hag.
  unfold kFixedHeaderSize in Hi. lia.
Qed.

Lemma touch_ok p :
  buf_ok p -> exists b', touch p = Ok (with_buffer p b') /\ buf_ok (with_buffer p b') /\
    capacity (with_buffer p b') = capacity p /\ Cow.contents b' = wire p.
Proof.
  intros Hok. destruct (write_wire Ok Ok p Hok) as (b' & ? & ? & ? & [= ->]); [|by eauto].
  intros v Hv Hn. by exists v.
Qed.

Lemma SetSize_wire p n :
  buf_ok p -> buf_ok (SetSize p n) /\ length (wire (SetSize p n)) = n /\
    capacity (SetSize p n) = Nat.max (capacity p) n /\
    (forall i, (i < n)%nat -> (i < length (wire p))%nat -> wire (SetSize p n) !! i = wire p !! i).
Proof.
  intros Hok. pose proof (capacity_pos p Hok) as Hpos. destruct Hok as [Hc Hcap].
  destruct (SetSize_spec (buffer_ p) n Hc Hpos) as (Hc' & Hs & Htake & Hcap').
  unfold buf_ok, capacity, wire in *. cbn [buffer_ with_buffer SetSize].
  rewrite Hcap', (length_contents _ Hc'), Hs, (length_contents _ Hc).
  split; [split; [done|lia]|]. split; [done|]. split; [done|].
  intros i Hi Hi'. apply (f_equal (.!! i)) in Htake. by rewrite !lookup_take_lt in Htake by lia.
Qed.

(** The precondition of [SetPayloadSize]: no padding, and no stale P bit. *)
Definition unpadded (p : t) : Prop :=
  padding_size_ p = 0%nat /\ has_padding p = Ok false.

Lemma SetPayloadSize_ok p n :
  consistent p -> unpadded p ->
  exists p', SetPayloadSize p n = Ok p' /\ consistent p' /\ unpadded p' /\
    only_buffer (with_sizes p (payload_offset_ p) n 0) p' /\
    forall i, (i < payload_offset_ p + Nat.min n (payload_size_ p))%nat ->
      wire p' !! i = wire p !! i.
Proof.
  intros [Hok Hr] [Hpad Hbit]. unfold SetPayloadSize.
  set (p1 := with_sizes p (payload_offset_ p) n (padding_size_ p)).
  assert (Hok1 : buf_ok p1) by exact Hok.
  destruct (SetSize_wire p1 (payload_offset_ p1 + payload_size_ p1) Hok1)
    as (Hok2 & Hlen2 & _ & Hag2).
  destruct (touch_ok _ Hok2) as (b' & -> & Hok3 & _ & Hw).
  assert (Hby : bytes (wire p)) by (by apply bytes_contents; destruct Hok).
  pose proof (reads_offset _ _ Hby Hr) as [Hpo _]. unfold kFixedHeaderSize in Hpo.
  assert (Hsz : length (wire p) = size p) by (destruct Hr as (_ & ? & ? & Hr'); tauto).
  change (wire p1) with (wire p) in Hag2. cbn in Hlen2, Hag2.
  change (Cow.contents b' = wire (SetSize p1 (payload_offset_ p + n))) in Hw.
  change (length (wire (SetSize p1 (payload_offset_ p + n))) = payload_offset_ p + n)%nat in Hlen2.
  unfold size in Hsz. rewrite Hpad in Hsz.
  set (p' := with_buffer _ b').
  assert (Hw' : wire p' = wire (SetSize p1 (payload_offset_ p + n))) by exact Hw.
  destruct (lookup_lt_is_Some_2 (wire p) 0) as [b0 E0]; [lia|].
  assert (E0' : wire p' !! 0%nat = Some b0) by (rewrite Hw', Hag2 by lia; done).
  assert (Hb0 : has_bits b0 0x20 = false).
  { unfold has_padding in Hbit. rewrite (data_at_wire p 0 b0 E0) in Hbit. by injection Hbit. }
  exists p'. split; [done|]. split; [split; [done|]|].
  - apply (reads_tail (wire p) _ p p' b0 b0); try done.
    + rewrite Hw', Hlen2. lia.
    + intros i Hi. rewrite Hw'. apply Hag2; lia.
    + unfold pad_layout. rewrite Hb0, Hw', Hlen2. cbn [andb].
      rewrite (proj2 (Nat.ltb_ge _ _)) by lia. by cbn; rewrite Hpad.
    + rewrite Hw', Hlen2. unfold size. cbn. rewrite Hpad. lia.
  - split; [split; [exact Hpad|]|].
    + unfold has_padding. rewrite (data_at_wire p' 0 b0 E0'). cbn. by rewrite Hb0.
    + split; [exists b'; unfold p', p1; by rewrite Hpad|].
      intros i Hi. rewrite Hw'. apply Hag2; lia.
Qed.

Lemma consistent_size p :
  consistent p -> length (wire p) = size p /\ bytes (wire p) /\
    (kFixedHeaderSize <= payload_offset_ p)%nat.
Proof.
  intros [[Hc Hcap] Hr]. pose proof (bytes_contents _ Hc) as Hb. split; [|split; [done|]].
  - destruct Hr as (_ & ? & ? & Hr'); tauto.
  - by apply (reads_offset (wire p)).
Qed.

Lemma WriteAt_wire p i x :
  buf_ok p -> (i < length (wire p))%nat ->
  exists b', WriteAt p i x = Ok (with_buffer p b') /\ buf_ok (with_buffer p b') /\
    capacity (with_buffer p b') = capacity p /\ Cow.contents b' = <[i := u8 x]> (wire p).
Proof.
  intros Hok Hi. destruct (write_wire (fun d => buf_set d i x) (fun d => buf_set d i x) p Hok)
    as (b' & E & Hok' & Hcap & Hg).
  { apply local_buf_set. by rewrite size_wire. }
  rewrite buf_set_ok in Hg by done. injection Hg as Hg. by eauto.
Qed.

Lemma memset0_lookup d off k d' :
  memset0 d off k = Ok d' ->
  length d' = length d /\
  (forall i, (off <= i < off + k)%nat -> d' !! i = Some 0) /\
  (forall i, (i < off \/ off + k <= i)%nat -> d' !! i = d !! i).
Proof.
  unfold memset0. case_decide; [|done]. intros [= <-].
  assert (Hl : length (take off d) = off) by (rewrite length_take; lia).
  split; [rewrite !length_app, Hl, length_replicate, length_drop; lia|]. split.
  - intros i Hi. rewrite lookup_app_r, lookup_app_l by (rewrite ?length_replicate; lia).
    apply lookup_replicate. split; [done|lia].
  - intros i [Hi|Hi]; [rewrite lookup_app_l by lia; by rewrite lookup_take_lt|].
    rewrite !lookup_app_r by (rewrite ?length_replicate; lia).
    rewrite lookup_drop, Hl, length_replicate. f_equal. lia.
Qed.

Lemma memset_wire p off k :
  buf_ok p -> (off + k <= length (wire p))%nat ->
  exists b', write (fun d => memset0 d off k) p = Ok (with_buffer p b') /\
    buf_ok (with_buffer p b') /\ capacity (with_buffer p b') = capacity p /\
    memset0 (wire p) off k = Ok (Cow.contents b').
Proof.
  intros Hok Hi. apply (write_wire _ (fun d => memset0 d off k) p Hok).
  apply local_memset0. by rewrite size_wire.
Qed.

(** The P bit of the first byte. *)
Lemma p_bit_set b0 : is_byte b0 ->
  let b := u8 (Z.lor b0 0x20) in
  Z.shiftr b 6 = Z.shiftr b0 6 /\ Z.land b 0x0f = Z.land b0 0x0f /\
  has_bits b 0x10 = has_bits b0 0x10 /\ has_bits b 0x20 = true.
Proof.
  intros Hb b. unfold b. split; [byte_eq|]. split; [byte_eq|].
  split; [change 0x10 with (2 ^ 4); rewrite !has_bits_pow2 by lia; testbits; done|].
  etransitivity; [exact (has_bits_pow2 (u8 (Z.lor b0 32)) 5 ltac:(lia))|]. testbits; done.
Qed.

Lemma p_bit_clear b0 : is_byte b0 ->
  let b := u8 (Z.land b0 (Z.lnot 0x20)) in
  Z.shiftr b 6 = Z.shiftr b0 6 /\ Z.land b 0x0f = Z.land b0 0x0f /\
  has_bits b 0x10 = has_bits b0 0x10 /\ has_bits b 0x20 = false.
Proof.
  intros Hb b. unfold b. replace (Z.land b0 (Z.lnot 0x20)) with (Z.land b0 0xdf).
  2:{ apply Z.bits_inj'. intros i Hi. rewrite !Z.land_spec, Z.lnot_spec by lia.
      destruct (decide (i < 8)) as [Hlt|]; [|by rewrite (in_uw_testbit 8 b0) by (done || lia)].
      f_equal. clear -Hi Hlt. split_index i Hi 8%nat; reflexivity. }
  split; [byte_eq|]. split; [byte_eq|].
  split; [change 0x10 with (2 ^ 4); rewrite !has_bits_pow2 by lia; testbits; done|].
  etransitivity; [exact (has_bits_pow2 (u8 (Z.land b0 223)) 5 ltac:(lia))|]. testbits; done.
Qed.

Lemma SetPadding_ok p n :
  consistent p -> (n < 256)%nat ->
  exists b p', SetPadding p n = Ok (b, p') /\ consistent p' /\
    (b = false <-> capacity p < payload_offset_ p + payload_size_ p + n)%nat /\
    (b = false -> p' = p) /\
    (b = true -> only_buffer (with_sizes p (payload_offset_ p) (payload_size_ p) n) p' /\
       forall i, (1 <= i < payload_offset_ p + payload_size_ p)%nat -> wire p' !! i = wire p !! i).
Proof.
  intros Hp Hn. pose proof Hp as [Hok Hr].
  destruct (consistent_size p Hp) as (Hlen & Hby & Hpo).
  unfold SetPadding. destruct (Nat.ltb_spec (capacity p)
    (payload_offset_ p + payload_size_ p + n)) as [Hbig|Hfit].
  { exists false, p. split; [done|]. split; [done|]. split; [done|]. by split. }
  assert (En : Z.to_nat (u8 (Z.of_nat n)) = n).
  { rewrite uw_small by (unfold in_uw; lia). lia. }
  rewrite En. set (p1 := with_sizes p (payload_offset_ p) (payload_size_ p) n).
  assert (Hok1 : buf_ok p1) by exact Hok.
  set (L := (payload_offset_ p + payload_size_ p)%nat) in *.
  destruct (SetSize_wire p1 (L + n) Hok1) as (Hok2 & Hlen2 & _ & Hag2).
  change (payload_offset_ p1 + payload_size_ p1)%nat with L.
  set (p2 := SetSize p1 (L + n)) in *. change (wire p1) with (wire p) in Hag2.
  change (payload_offset_ p2 + payload_size_ p2)%nat with L.
  assert (HL : (L <= length (wire p))%nat) by (rewrite Hlen; unfold size, L; lia).
  unfold kFixedHeaderSize in Hpo.
  destruct (lookup_lt_is_Some_2 (wire p) 0) as [b0 E0]; [unfold L in HL; lia|].
  pose proof (bytes_lookup _ _ _ Hby E0) as Hb0.
  assert (Hag : forall i, (i < L)%nat -> wire p2 !! i = wire p !! i) by (intros; apply Hag2; lia).
  assert (Hfin : forall d' b0' q, d' !! 0%nat = Some b0' ->
    Z.shiftr b0' 6 = Z.shiftr b0 6 -> Z.land b0' 0x0f = Z.land b0 0x0f ->
    has_bits b0' 0x10 = has_bits b0 0x10 ->
    (forall i, (1 <= i < L)%nat -> d' !! i = wire p !! i) -> length d' = (L + n)%nat ->
    pad_layout d' b0' (payload_offset_ p) = Some n -> only_buffer p1 q -> reads d' q).
  { intros d' b0' q E0' V C X Hd' Hl' Hpad [b ->].
    apply (reads_tail (wire p) d' p (with_buffer p1 b) b0 b0'); try done.
    - unfold L in *. lia.
    - intros i Hi. apply Hd'. unfold L. lia. }
  destruct (Nat.ltb_spec 0 n) as [Hpos|Hz].
  - destruct (memset_wire p2 L (n - 1) Hok2) as (b3 & -> & Hok3 & _ & E3); [lia|].
    cbn [mbind res_bind]. apply memset0_lookup in E3 as (Hl3 & Hz3 & Hout3).
    set (p3 := with_buffer p2 b3) in *.
    change (Cow.contents b3) with (wire p3) in *.
    destruct (WriteAt_wire p3 (L + n - 1) (Z.of_nat n) Hok3) as (b4 & -> & Hok4 & _ & E4); [lia|].
    cbn [mbind res_bind]. set (p4 := with_buffer p3 b4) in *.
    change (Cow.contents b4) with (wire p4) in *.
    assert (E04 : wire p4 !! 0%nat = Some b0).
    { rewrite E4, list_lookup_insert_ne by lia.
      rewrite Hout3, Hag by (unfold L; lia). done. }
    rewrite (data_at_wire p4 0 b0 E04). cbn [mbind res_bind].
    assert (Hl4 : length (wire p4) = (L + n)%nat) by (rewrite E4, length_insert; lia).
    destruct (WriteAt_wire p4 0 (Z.lor b0 0x20) Hok4) as (b5 & -> & Hok5 & _ & E5); [lia|].
    cbn [mbind res_bind]. set (p5 := with_buffer p4 b5) in *.
    change (Cow.contents b5) with (wire p5) in *.
    destruct (p_bit_set b0 Hb0) as (V & C & X & B).
    assert (Hkeep : forall i, (1 <= i < L)%nat -> wire p5 !! i = wire p !! i).
    { intros i Hi. rewrite E5, list_lookup_insert_ne, E4, list_lookup_insert_ne by lia.
      rewrite Hout3, Hag by lia. done. }
    exists true, p5. split; [done|]. split; [split; [done|]|].
    + apply (Hfin _ (u8 (Z.lor b0 0x20))); try done.
      * rewrite E5, list_lookup_insert_eq by lia. done.
      * rewrite E5, length_insert. lia.
      * unfold pad_layout. rewrite B, E5, length_insert, Hl4. cbn [andb].
        rewrite (proj2 (Nat.ltb_lt _ _)) by (unfold L; lia).
        rewrite list_lookup_insert_ne, E4, list_lookup_insert_eq by lia.
        rewrite En, (proj2 (Nat.eqb_neq _ _)), (proj2 (Nat.ltb_ge _ _)) by (unfold L; lia). done.
      * by eexists.
    + split; [split; [done|lia]|]. split; [done|]. intros _. split; [by eexists|done].
  - assert (n = 0)%nat as -> by lia.
    assert (E02 : wire p2 !! 0%nat = Some b0) by (rewrite Hag by (unfold L; lia); done).
    rewrite (data_at_wire p2 0 b0 E02). cbn [mbind res_bind].
    destruct (WriteAt_wire p2 0 (Z.land b0 (Z.lnot 0x20)) Hok2) as (b3 & -> & Hok3 & _ & E3);
      [unfold L in *; lia|].
    cbn [mbind res_bind]. set (p3 := with_buffer p2 b3) in *.
    change (Cow.contents b3) with (wire p3) in *.
    destruct (p_bit_clear b0 Hb0) as (V & C & X & B).
    assert (Hkeep : forall i, (1 <= i < L)%nat -> wire p3 !! i = wire p !! i).
    { intros i Hi. rewrite E3, list_lookup_insert_ne by lia. apply Hag. lia. }
    exists true, p3. split; [done|]. split; [split; [done|]|].
    + apply (Hfin _ (u8 (Z.land b0 (Z.lnot 0x20)))); try done.
      * rewrite E3, list_lookup_insert_eq by (unfold L in *; lia). done.
      * rewrite E3, length_insert. lia.
      * unfold pad_layout. rewrite B, E3, length_insert, Hlen2. cbn [andb].
        rewrite (proj2 (Nat.ltb_ge _ _)) by (unfold L; lia). done.
      * by eexists.
    + split; [split; [done|lia]|]. split; [done|]. intros _. split; [by eexists|done].
Qed.

End Ops.
