(* ===== verification/RtpPacketSession.v ===== *)
(** * RtpPacketSession: constructing, resetting and rewriting [RtpPacket]s

    [Clear] and the constructor establish the class invariant, [SetCsrcs] and
    [ZeroMutableExtensions] keep it, and so does any sequence of mutators
    whose preconditions (the [RTC_DCHECK]s of the class) hold. *)

From S2P Require Import Prelude.
From S2P Require Import ByteIo.
From S2P Require Import CowBuffer.
From S2P Require Import RtpExtensions.
From S2P Require Import RtpPacketModel.
From S2P Require Import RtpPacketLaws.
From S2P Require Import RtpPacketOps.
Import RtpPacket.

Section Ops.
Context `{Heap}.

(** ** Writes beyond the current size *)

Definition pview (p : t) : list Z := Cow.view (buffer_ p).

(** A packet whose block it alone refers to: writes act on the whole block. *)
Definition unshared (p : t) : Prop := buf_ok p /\ Cow.one_ref (buffer_ p) = true.

Lemma length_pview p : length (pview p) = capacity p.
Proof. apply length_view. Qed.

Lemma wire_pview p : wire p = take (Cow.size_ (buffer_ p)) (pview p).
Proof. reflexivity. Qed.

Lemma mutate_unshared f b v' :
  cow_ok b -> (0 < Cow.capacity b)%nat -> Cow.one_ref b = true ->
  f (Cow.view b) = Ok v' -> length v' = Cow.capacity b -> bytes v' ->
  exists b', Cow.mutate f b = Ok b' /\ cow_ok b' /\ Cow.view b' = v' /\
    Cow.size_ b' = Cow.size_ b /\ Cow.one_ref b' = true.
Proof.
  destruct b as [[buf|] off n one]; [|by unfold Cow.capacity; cbn; lia].
  intros Hok Hpos Hone Hf Hlen Hby. cbn in Hone. subst one.
  unfold Cow.mutate, Cow.UnshareAndEnsureCapacity. cbn [Cow.buffer_ Cow.one_ref].
  rewrite Nat.leb_refl. cbn [andb Cow.offset_]. unfold Cow.view in Hf. cbn in Hf.
  cbn [mbind res_bind]. rewrite Hf. cbn. eexists. split; [done|].
  unfold Cow.capacity, Buffer.capacity_ in *. cbn in Hlen, Hpos.
  apply cow_ok_some in Hok as [Hsz Hb].
  assert (Hoff : length (take off (Buffer.data_ buf)) = off) by (rewrite length_take; lia).
  split; [|split; [|done]].
  - apply cow_ok_some. cbn. rewrite length_app, Hoff, Hlen. split; [lia|].
    apply Forall_app. split; [by apply Forall_take|done].
  - unfold Cow.view. cbn. by apply drop_app_length'.
Qed.

Lemma write_view f p v' :
  unshared p -> f (pview p) = Ok v' -> length v' = capacity p -> bytes v' ->
  exists b', write f p = Ok (with_buffer p b') /\ unshared (with_buffer p b') /\
    Cow.view b' = v' /\ Cow.size_ b' = Cow.size_ (buffer_ p).
Proof.
  intros [Hok Hone] Hf Hlen Hby. pose proof (capacity_pos p Hok) as Hpos.
  destruct Hok as [Hc Hcap].
  destruct (mutate_unshared f (buffer_ p) v') as (b' & E & Hc' & Hv & Hs & Ho); try done.
  exists b'. unfold write. rewrite E. cbn. split; [done|].
  split; [|done]. split; [|done]. split; [done|].
  unfold capacity in *. cbn. rewrite <- (length_view b'), Hv, Hlen. done.
Qed.

(** After any write, even one beyond the size, the block is unshared. *)
Lemma write_first f p :
  buf_ok p ->
  exists v, length v = capacity p /\ bytes v /\ take (Cow.size_ (buffer_ p)) v = wire p /\
    forall v', f v = Ok v' -> length v' = capacity p -> bytes v' ->
      exists b', write f p = Ok (with_buffer p b') /\ unshared (with_buffer p b') /\
        Cow.view b' = v' /\ Cow.size_ b' = Cow.size_ (buffer_ p).
Proof.
  intros Hok. pose proof (capacity_pos p Hok) as Hpos. destruct Hok as [Hc Hcap].
  destruct (mutate_spec f (buffer_ p) Hc Hpos) as (v & Hl & Hb & Ht & Hspec).
  exists v. split; [done|]. split; [done|]. split; [done|]. intros v' Hf Hlen Hby.
  destruct (Hspec v' Hf) as (b' & E & Hc' & Hv & Hs); [unfold capacity in Hlen; lia|done|].
  exists b'. unfold write. rewrite E. cbn. split; [done|]. split; [|done].
  split; [split; [done|]|by apply (mutate_one_ref f (buffer_ p))].
  unfold capacity in *. cbn. rewrite <- (length_view b'), Hv, Hlen. done.
Qed.

(** [SetSize] inside the capacity of an unshared block. *)
Lemma SetSize_unshared p n :
  unshared p -> (n <= capacity p)%nat ->
  unshared (SetSize p n) /\ pview (SetSize p n) = pview p /\ wire (SetSize p n) = take n (pview p) /\
  capacity (SetSize p n) = capacity p.
Proof.
  intros [Hok Hone] Hn. pose proof (capacity_pos p Hok) as Hpos.
  destruct (SetSize_wire p n Hok) as (Hok' & Hlen & Hcap & _). rewrite Nat.max_l in Hcap by done.
  pose proof (SetSize_view (buffer_ p) n (proj1 Hok) Hpos Hone Hn) as Hv.
  destruct (SetSize_spec (buffer_ p) n (proj1 Hok) Hpos) as (_ & Hs & _).
  split; [|split; [exact Hv|split; [|done]]].
  - split; [done|]. unfold SetSize. cbn. unfold Cow.SetSize.
    destruct (Cow.buffer_ (buffer_ p)) as [buf|]; [|by destruct (_ <? _)%nat].
    destruct (_ <=? _)%nat; [done|]. unfold Cow.UnshareAndEnsureCapacity.
    rewrite Hone. by destruct (_ && _).
  - rewrite wire_pview. unfold SetSize, pview in *. cbn. by rewrite Hs, Hv.
Qed.

(** ** [Clear] and the constructor *)

Definition cleared_wire : list Z := 0x80 :: replicate 11 0.

Definition cleared (p p' : t) : Prop :=
  exists b, p' = mk false 0 0 0 0 0 kFixedHeaderSize 0 (extensions_ p) [] 0 b.

Lemma Clear_ok p :
  buf_ok p -> exists p', Clear p = Ok p' /\ consistent p' /\ cleared p p' /\
    wire p' = cleared_wire /\ unpadded p' /\ capacity p' = capacity p.
Proof.
  intros Hok. unfold Clear.
  set (p1 := mk _ _ _ _ _ _ _ _ _ _ _ _). assert (Hok1 : buf_ok p1) by exact Hok.
  pose proof (proj2 Hok) as Hcap. unfold kFixedHeaderSize in Hcap.
  destruct (write_first (fun d => memset0 d 0 kFixedHeaderSize) p1 Hok1)
    as (v & Hl & Hb & _ & Hspec). change (capacity p1) with (capacity p) in *.
  destruct (local_memset0 (length v) 0 kFixedHeaderSize) with (v := v)
    as (v' & Ef & _ & Hl' & Hb'); [unfold kFixedHeaderSize; lia|done|done|].
  destruct (Hspec v' Ef) as (b2 & -> & Hun & Hv2 & _); [congruence|done|].
  cbn [mbind res_bind].
  destruct (SetSize_unshared (with_buffer p1 b2) kFixedHeaderSize Hun)
    as ([Hok3 _] & _ & Hw3 & Hc3).
  { rewrite <- length_pview. unfold pview. cbn. rewrite Hv2, Hl', Hl. exact Hcap. }
  assert (Hz : wire (SetSize (with_buffer p1 b2) kFixedHeaderSize) = replicate 12 0).
  { rewrite Hw3. unfold pview. cbn [buffer_ with_buffer]. rewrite Hv2. revert Ef.
    unfold memset0. case_decide; [|done]. intros [= <-]. reflexivity. }
  destruct (WriteAt_wire (SetSize (with_buffer p1 b2) kFixedHeaderSize) 0
    (Z.shiftl kRtpVersion 6) Hok3) as (b4 & -> & Hok4 & Hc4 & Hw4); [rewrite Hz; cbn; lia|].
  rewrite Hz in Hw4.
  set (p4 := with_buffer _ b4) in *.
  assert (Hw : wire p4 = cleared_wire) by exact Hw4.
  exists p4. split; [done|]. split.
  { split; [done|]. rewrite Hw. split; [done|]. exists 0x80, 0.
    do 8 (split; [done|]). split; [by eexists|]. by split. }
  split; [by exists b4|]. split; [done|]. split; [split; [done|]|].
  - unfold has_padding. by rewrite (data_at_wire p4 0 0x80) by (by rewrite Hw).
  - rewrite Hc4, Hc3. rewrite <- length_pview. unfold pview. cbn. by rewrite Hv2, Hl', Hl.
Qed.

Lemma of_size_ok n : (0 < n)%nat -> cow_ok (Cow.of_size n) /\ Cow.capacity (Cow.of_size n) = n.
Proof.
  intros Hn. unfold Cow.of_size. rewrite (proj2 (Nat.ltb_lt _ _)) by done.
  unfold Buffer.of_size. rewrite Nat.max_id. split.
  - apply cow_ok_some. cbn. rewrite length_fresh. split; [lia|apply bytes_fresh].
  - unfold Cow.capacity, Buffer.capacity_. cbn. rewrite length_fresh. lia.
Qed.

Lemma new_packet_ok extensions cap :
  (kFixedHeaderSize <= cap)%nat ->
  exists p, new extensions cap = Ok p /\ consistent p /\ unpadded p /\ wire p = cleared_wire /\
    extensions_ p = extensions /\ capacity p = cap.
Proof.
  intros Hcap. destruct (of_size_ok cap) as [Hc Hn]; [unfold kFixedHeaderSize in Hcap; lia|].
  unfold new. destruct (Clear_ok (mk false 0 0 0 0 0 0 0 extensions [] 0 (Cow.of_size cap)))
    as (p & E & ? & [b ->] & ? & ? & Ecap).
  { split; [done|]. unfold capacity. cbn. by rewrite Hn. }
  eexists. split; [exact E|]. do 4 (split; [done|]). rewrite Ecap. unfold capacity. cbn. done.
Qed.

(** ** [SetCsrcs] *)

Lemma csrc_loop csrcs p off :
  unshared p -> (off + 4 * length csrcs <= capacity p)%nat -> Forall is_u32 csrcs ->
  exists b,
    foldM (fun st csrc =>
             let! p' := write (fun d => ByteWriter.WriteBigEndian 4 d st.2 csrc) st.1 in
             Ok (p', (st.2 + 4)%nat)) csrcs (p, off) =
      Ok (with_buffer p b, (off + 4 * length csrcs)%nat) /\
    unshared (with_buffer p b) /\ capacity (with_buffer p b) = capacity p /\
    (forall i, (i < off \/ off + 4 * length csrcs <= i)%nat -> Cow.view b !! i = pview p !! i) /\
    (forall k c, csrcs !! k = Some c ->
       ByteReader.ReadBigEndian 32 4 (Cow.view b) (off + k * 4) = Ok c).
Proof.
  revert p off. induction csrcs as [|c csrcs IH]; intros p off Hun Hfit Hall.
  { exists (buffer_ p). cbn. rewrite Nat.add_0_r. by destruct p. }
  inversion Hall as [|? ? Hc Hall']; subst. cbn [length] in Hfit |- *.
  pose proof Hun as [[Hcow _] _]. pose proof (proj1 (cow_ok_view _ Hcow)) as Hby.
  destruct (big_endian_roundtrip 32 4 (pview p) off c) as (v & Hw & (Hl & Hin & Hout) & Hr);
    [done|rewrite length_pview; lia|done|].
  destruct (write_view (fun d => ByteWriter.WriteBigEndian 4 d off c) p v Hun Hw)
    as (b1 & E & Hun1 & Hv1 & _).
  { by rewrite Hl, length_pview. }
  { eapply written_bytes; [exact Hby|]. by split; [|split]. }
  assert (Hcap1 : capacity (with_buffer p b1) = capacity p).
  { unfold capacity. cbn. by rewrite <- length_view, Hv1, Hl, length_pview. }
  destruct (IH (with_buffer p b1) (off + 4)%nat Hun1) as (b & Ef & Hun2 & Hcap2 & Hsame & Hread);
    [lia|done|].
  exists b. cbn [foldM fst snd]. rewrite E. cbn [mbind res_bind]. rewrite Ef.
  split; [do 2 f_equal; lia|]. split; [done|]. split; [by rewrite <- Hcap1, <- Hcap2|].
  unfold pview in Hsame. cbn in Hsame. split.
  - intros i Hi. rewrite Hsame, Hv1, Hout by lia. done.
  - intros [|k] c' Hk; cbn in Hk.
    + injection Hk as <-. rewrite Nat.add_0_r, (read4_local v).
      * by rewrite Hr, uw_small.
      * intros j Hj. rewrite Hsame by lia. by rewrite Hv1.
    + rewrite <- (Hread k c' Hk). f_equal. lia.
Qed.

(** The precondition of [SetCsrcs]: a bare header. *)
Definition bare (p : t) : Prop :=
  unpadded p /\ payload_size_ p = 0%nat /\
  exists b0, wire p !! 0%nat = Some b0 /\ has_bits b0 0x10 = false.

Lemma cc_field b0 n :
  is_byte b0 -> 0 <= n <= 15 ->
  let b := u8 (Z.lor (Z.land b0 0xF0) (u8 n)) in
  Z.shiftr b 6 = Z.shiftr b0 6 /\ Z.land b 0x0f = n /\
  has_bits b 0x10 = has_bits b0 0x10 /\ has_bits b 0x20 = has_bits b0 0x20.
Proof.
  intros Hb Hn b. unfold b. assert (Hn4 : in_uw 4 n) by (unfold in_uw; lia).
  rewrite (uw_small 8 n) by (unfold in_uw; lia).
  assert (is_byte n) by (unfold in_uw; lia).
  split; [byte_eq|]. split.
  { byte_eq; by rewrite (in_uw_testbit 4 n). }
  change 0x10 with (2 ^ 4). change 0x20 with (2 ^ 5). rewrite !has_bits_pow2 by lia.
  split; testbits; done.
Qed.

Lemma Csrcs_read p b0 csrcs :
  wire p !! 0%nat = Some b0 -> Z.to_nat (Z.land b0 0x0f) = length csrcs ->
  (forall k c, csrcs !! k = Some c ->
     ByteReader.ReadBigEndian 32 4 (pview p) (kFixedHeaderSize + k * 4) = Ok c) ->
  Csrcs p = Ok csrcs.
Proof.
  intros E0 Hn Hread. unfold Csrcs. rewrite (data_at_wire p 0 b0 E0). cbn [mbind res_bind].
  rewrite Hn. fold (pview p).
  assert (Hgen : forall n, (n <= length csrcs)%nat ->
    foldM (fun csrcs' i =>
             let! c := ByteReader.ReadBigEndian 32 4 (pview p) (kFixedHeaderSize + i * 4) in
             Ok (csrcs' ++ [c])) (seq 0 n) [] = Ok (take n csrcs)).
  { induction n as [|n IH]; intros Hle; [done|]. rewrite seq_S, foldM_app, IH by lia.
    cbn [mbind res_bind foldM]. rewrite Nat.add_0_l.
    destruct (lookup_lt_is_Some_2 csrcs n) as [c Ec]; [lia|].
    rewrite (Hread n c Ec). cbn. by rewrite (take_S_r _ _ c). }
  rewrite Hgen by done. by rewrite firstn_all.
Qed.

(** A header without extension is its fixed part and its CSRC count. *)
Lemma reads_bare d d' q q' b0 b0' :
  reads d q -> d !! 0%nat = Some b0 -> has_bits b0 0x10 = false ->
  d' !! 0%nat = Some b0' -> Z.shiftr b0' 6 = Z.shiftr b0 6 ->
  has_bits b0' 0x10 = false -> has_bits b0' 0x20 = false ->
  length d' = (kFixedHeaderSize + 4 * Z.to_nat (Z.land b0' 0x0f))%nat ->
  (forall i, (1 <= i < kFixedHeaderSize)%nat -> d' !! i = d !! i) ->
  marker_ q' = marker_ q -> payload_type_ q' = payload_type_ q ->
  sequence_number_ q' = sequence_number_ q -> timestamp_ q' = timestamp_ q ->
  ssrc_ q' = ssrc_ q -> payload_offset_ q' = (kFixedHeaderSize + 4 * Z.to_nat (Z.land b0' 0x0f))%nat ->
  extension_entries_ q' = extension_entries_ q -> payload_size_ q' = 0%nat ->
  padding_size_ q' = 0%nat -> reads d' q'.
Proof.
  intros (Hl & b0x & b1 & E0x & E1 & V & M & P & R2 & R4 & R8 & [n Hext] & _) E0 Hx E0' HV Hx' Hp'
    Hlen Hag F1 F2 F3 F4 F5 F6 F7 F8 F9.
  assert (b0x = b0) as -> by congruence. unfold kFixedHeaderSize in Hag.
  split; [rewrite Hlen; lia|]. exists b0', b1. split; [done|].
  split; [rewrite Hag by lia; done|]. split; [congruence|].
  rewrite F1, F2, F3, F4, F5, F6, F7, F9. do 2 (split; [done|]).
  split; [rewrite <- R2; apply read2_local; apply Hag; lia|].
  split; [rewrite <- R4; apply read4_local; intros; apply Hag; lia|].
  split; [rewrite <- R8; apply read4_local; intros; apply Hag; lia|].
  assert (Hes : extension_entries_ q = []).
  { unfold ext_layout in Hext. rewrite Hx in Hext. destruct (_ <? _)%nat; [done|].
    by injection Hext. }
  split; [|split].
  - exists 0%nat. unfold ext_layout. rewrite Hx', Hes, Hlen.
    rewrite (proj2 (Nat.ltb_ge _ _)) by lia. do 4 f_equal. lia.
  - unfold pad_layout. rewrite Hp', Hlen. cbn [andb]. by rewrite Nat.ltb_irrefl.
  - rewrite Hlen. unfold size. rewrite F6, F8, F9. lia.
Qed.

Lemma SetCsrcs_ok p csrcs :
  consistent p -> bare p -> (length csrcs <= 15)%nat -> Forall is_u32 csrcs ->
  (kFixedHeaderSize + 4 * length csrcs <= capacity p)%nat ->
  exists p', SetCsrcs p csrcs = Ok p' /\ consistent p' /\ bare p' /\
    only_buffer (with_sizes p (kFixedHeaderSize + 4 * length csrcs) 0 0) p' /\
    Csrcs p' = Ok csrcs.
Proof.
  intros Hp ([Hpad Hbit] & Hps & b0 & E0 & Hx) Hn Hall Hcap. pose proof Hp as [Hok Hr].
  destruct (consistent_size p Hp) as (Hlen & Hby & Hpo). unfold kFixedHeaderSize in Hpo.
  pose proof (bytes_lookup _ _ _ Hby E0) as Hb0.
  assert (Hp5 : has_bits b0 0x20 = false).
  { unfold has_padding in Hbit. rewrite (data_at_wire p 0 b0 E0) in Hbit. by injection Hbit. }
  unfold SetCsrcs. set (off' := (kFixedHeaderSize + 4 * length csrcs)%nat) in *.
  set (p1 := with_sizes p off' (payload_size_ p) (padding_size_ p)).
  change (data_at p1 0) with (data_at p 0). rewrite (data_at_wire p 0 b0 E0). cbn [mbind res_bind].
  set (x := Z.lor (Z.land b0 0xF0) (u8 (Z.of_nat (length csrcs)))).
  assert (Hok1 : buf_ok p1) by exact Hok.
  destruct (write_first (fun d => buf_set d 0 x) p1 Hok1) as (v & Hl & Hb & Hv & Hspec).
  change (capacity p1) with (capacity p) in *. change (wire p1) with (wire p) in *.
  change (buffer_ p1) with (buffer_ p) in *.
  assert (Hlv : (0 < length v)%nat) by (rewrite Hl; destruct Hok; unfold kFixedHeaderSize in *; lia).
  destruct (Hspec (<[0%nat := u8 x]> v)) as (b2 & E2 & Hun2 & Hv2 & _).
  { by apply buf_set_ok. } { by rewrite length_insert. } { by apply bytes_insert. }
  unfold WriteAt. rewrite E2. cbn [mbind res_bind].
  assert (Hcap2 : capacity (with_buffer p1 b2) = capacity p).
  { unfold capacity at 1. cbn. by rewrite <- length_view, Hv2, length_insert. }
  destruct (csrc_loop csrcs (with_buffer p1 b2) kFixedHeaderSize Hun2)
    as (b3 & E3 & Hun3 & Hcap3 & Hsame & Hread); [rewrite Hcap2; exact Hcap|done|].
  rewrite E3. cbn [mbind res_bind fst]. change (payload_offset_ (with_buffer _ b3)) with off'.
  change (with_buffer (with_buffer p1 b2) b3) with (with_buffer p1 b3) in *.
  destruct (SetSize_unshared (with_buffer p1 b3) off' Hun3) as ([Hok4 _] & Hv4 & Hw4 & _);
    [rewrite Hcap3, Hcap2; exact Hcap|].
  set (p4 := SetSize (with_buffer p1 b3) off') in *.
  change (pview (with_buffer p1 b3)) with (Cow.view b3) in *.
  assert (Hl4 : length (wire p4) = off').
  { rewrite Hw4, length_take, length_view. change (Cow.capacity b3) with (capacity (with_buffer p1 b3)).
    rewrite Hcap3, Hcap2. lia. }
  assert (Hag : forall i, (1 <= i < kFixedHeaderSize)%nat -> wire p4 !! i = wire p !! i).
  { intros i Hi. unfold kFixedHeaderSize in Hi.
    rewrite Hw4, lookup_take_lt by (unfold off', kFixedHeaderSize; lia).
    rewrite Hsame by (unfold kFixedHeaderSize; lia). unfold pview. cbn [buffer_ with_buffer].
    rewrite Hv2, list_lookup_insert_ne by lia. rewrite <- Hv, lookup_take_lt; [done|].
    rewrite size_wire by done. rewrite Hlen. unfold size. lia. }
  destruct (cc_field b0 (Z.of_nat (length csrcs)) Hb0 ltac:(lia)) as (V & C & X & B).
  fold x in V, C, X, B. rewrite Hx in X. rewrite Hp5 in B.
  assert (E04 : wire p4 !! 0%nat = Some (u8 x)).
  { rewrite Hw4, lookup_take_lt by (unfold off', kFixedHeaderSize; lia).
    rewrite Hsame by (unfold kFixedHeaderSize; lia). unfold pview. cbn [buffer_ with_buffer].
    by rewrite Hv2, list_lookup_insert_eq. }
  exists p4. split; [done|]. split; [|split; [|split]].
  - split; [done|]. apply (reads_bare (wire p) _ p p4 b0 (u8 x)); try done.
    + rewrite C. unfold off' in Hl4. lia.
    + rewrite C. unfold p4, off'. cbn. lia.
  - split; [split; [exact Hpad|]|split; [exact Hps|by exists (u8 x)]].
    unfold has_padding. rewrite (data_at_wire p4 0 _ E04). cbn. by rewrite B.
  - unfold p4, p1. rewrite Hps, Hpad. by eexists.
  - apply (Csrcs_read p4 (u8 x)); [done|rewrite C; lia|]. by rewrite Hv4.
Qed.

(** ** [ZeroMutableExtensions] *)

(** The bytes of an extension that are filled in after FEC encoding: offset
    and length. *)
Definition mutable_zone (m : RtpHeaderExtensionMap.t) (e : ExtensionInfo) : nat * nat :=
  match RtpHeaderExtensionMap.GetType m (ext_id e) with
  | Ok kRtpExtensionVideoTiming =>
      if (kPacerExitDeltaOffset <? ext_length e)%nat
      then (ext_offset e + kPacerExitDeltaOffset, ext_length e - kPacerExitDeltaOffset)%nat
      else (0, 0)%nat
  | Ok (kRtpExtensionTransportSequenceNumber | kRtpExtensionTransportSequenceNumber02
        | kRtpExtensionTransmissionTimeOffset | kRtpExtensionAbsoluteSendTime) =>
      (ext_offset e, ext_length e)
  | _ => (0, 0)%nat
  end.

Definition in_zone (m : RtpHeaderExtensionMap.t) (i : nat) (e : ExtensionInfo) : bool :=
  let '(o, n) := mutable_zone m e in ((o <=? i) && (i <? o + n))%nat.

Lemma zone_window m e :
  let '(o, n) := mutable_zone m e in
  (o = 0 /\ n = 0)%nat \/ (ext_offset e <= o /\ o + n = ext_offset e + ext_length e)%nat.
Proof.
  unfold mutable_zone. destruct (RtpHeaderExtensionMap.GetType m (ext_id e)) as [[]|];
    try (left; done); try (right; lia).
  destruct (Nat.ltb_spec kPacerExitDeltaOffset (ext_length e)); cbn; [right; lia|by left].
Qed.

Lemma zero_extension_step p e :
  map_ok (extensions_ p) -> ext_id e <> 0 ->
  zero_extension p e = Ok p /\ (mutable_zone (extensions_ p) e).2 = 0%nat \/
  zero_extension p e =
    let '(o, n) := mutable_zone (extensions_ p) e in write (fun d => memset0 d o n) p.
Proof.
  intros Hm Hid. unfold zero_extension, mutable_zone.
  destruct (GetType_spec (extensions_ p) (ext_id e) Hm Hid) as (type & -> & _).
  destruct type; cbn [mbind res_bind]; try (by left); try (by right).
  destruct (_ <? _)%nat; [by right|by left].
Qed.

Lemma in_zone_empty m e i : (mutable_zone m e).2 = 0%nat -> in_zone m i e = false.
Proof.
  unfold in_zone. destruct (mutable_zone m e) as [o n]. cbn [snd]. intros ->.
  rewrite Nat.add_0_r. destruct (Nat.leb_spec o i), (Nat.ltb_spec i o); (done || (exfalso; lia)).
Qed.

Lemma in_zone_window m i e : in_zone m i e = true -> in_window i e.
Proof.
  unfold in_zone, in_window. pose proof (zone_window m e) as Hz.
  destruct (mutable_zone m e) as [o n].
  intros [H1%Nat.leb_le H2%Nat.ltb_lt]%andb_true_iff. lia.
Qed.

Lemma zero_extension_ok p e :
  consistent p -> map_ok (extensions_ p) -> e ∈ extension_entries_ p ->
  exists p', zero_extension p e = Ok p' /\ consistent p' /\ only_buffer p p' /\
    length (wire p') = length (wire p) /\
    forall i, wire p' !! i = if in_zone (extensions_ p) i e then Some 0 else wire p !! i.
Proof.
  intros Hp Hm He. pose proof Hp as [Hok Hr].
  destruct (consistent_size p Hp) as (Hlen & Hby & Hpo).
  destruct (reads_offset _ _ Hby Hr) as [_ [_ Hents]].
  destruct (proj1 (Forall_forall _ _) Hents e He) as (_ & Hid & Hwin).
  destruct (zero_extension_step p e Hm Hid) as [[-> Hz]| ->].
  { exists p. split; [done|]. split; [done|]. split; [by exists (buffer_ p); destruct p|].
    split; [done|]. intros i. by rewrite in_zone_empty. }
  pose proof (zone_window (extensions_ p) e) as Hzone. pose proof (in_zone_window (extensions_ p)) as Hiw.
  unfold in_zone in *. destruct (mutable_zone (extensions_ p) e) as [o n] eqn:Ez.
  unfold size in Hlen. unfold kFixedHeaderSize in Hpo, Hwin.
  destruct (memset_wire p o n Hok) as (b' & -> & Hok' & _ & Ew); [lia|].
  apply memset0_lookup in Ew as (Hl & Hin & Hout).
  set (p' := with_buffer p b'). change (Cow.contents b') with (wire p') in *.
  assert (Hlook : forall i, wire p' !! i =
    if ((o <=? i) && (i <? o + n))%nat then Some 0 else wire p !! i).
  { intros i. destruct (Nat.leb_spec o i), (Nat.ltb_spec i (o + n)); cbn [andb];
      [apply Hin|apply Hout..]; lia. }
  exists p'. split; [done|]. split; [split; [done|]|split; [by eexists|split; [done|exact Hlook]]].
  apply (reads_relayout (wire p) (wire p') p p'); try done.
  - apply Hout. lia.
  - intros i Hi Hnw. rewrite Hlook. specialize (Hiw i e). rewrite Ez in Hiw.
    destruct (_ && _)%bool; [|done]. destruct (Hnw e He). by apply Hiw.
  - destruct (reads_reads_fixed _ _ Hr) as (b1 & E1 & M & P & R2 & R4 & R8).
    exists b1. split; [rewrite Hout by lia; done|]. do 2 (split; [done|]).
    split; [|split]; [etransitivity; [apply (read2_local (wire p))|done]
      |etransitivity; [apply (read4_local (wire p)); intros k Hk|done]..]; apply Hout; lia.
Qed.

Lemma ZeroMutableExtensions_ok p :
  consistent p -> map_ok (extensions_ p) ->
  exists p', ZeroMutableExtensions p = Ok p' /\ consistent p' /\ only_buffer p p' /\
    length (wire p') = length (wire p) /\
    forall i, wire p' !! i =
      if existsb (in_zone (extensions_ p) i) (extension_entries_ p) then Some 0 else wire p !! i.
Proof.
  intros Hp Hm. unfold ZeroMutableExtensions.
  assert (Hgen : forall l, (forall e, e ∈ l -> e ∈ extension_entries_ p) ->
    exists p', foldM zero_extension l p = Ok p' /\ consistent p' /\ only_buffer p p' /\
      length (wire p') = length (wire p) /\
      forall i, wire p' !! i =
        if existsb (in_zone (extensions_ p) i) l then Some 0 else wire p !! i).
  { induction l as [|e l IH] using rev_ind; intros Hl.
    { exists p. split; [done|]. split; [done|]. split; [by exists (buffer_ p); destruct p|done]. }
    destruct IH as (p1 & E & Hp1 & [b ->] & Hlen & Hlook); [set_solver|].
    rewrite foldM_app, E. cbn [mbind res_bind foldM].
    destruct (zero_extension_ok (with_buffer p b) e Hp1 Hm) as (p2 & -> & Hp2 & [b2 ->] & Hlen2 & Hlook2);
      [apply Hl; set_solver|].
    cbn [mbind res_bind]. eexists. split; [done|]. split; [done|]. split; [by exists b2|].
    split; [congruence|]. intros i. rewrite Hlook2, existsb_app. cbn [existsb].
    rewrite orb_false_r, Hlook. change (extensions_ (with_buffer p b)) with (extensions_ p).
    by destruct (in_zone _ i e), (existsb _ l). }
  by apply Hgen.
Qed.

(** ** [Parse] *)

Lemma Parse_ok p d :
  buf_ok p -> bytes d ->
  exists b p', Parse p d = Ok (b, p') /\ consistent p' /\ extensions_ p' = extensions_ p /\
    (b = true -> wire p' = d) /\
    (b = false -> wire p' = cleared_wire /\ forall q, ~ reads d q).
Proof.
  intros Hok Hd. unfold Parse.
  destruct (ParseBuffer_spec p d Hd) as (b & q & -> & [Hb He] & Ht & Hf). cbn [mbind res_bind fst snd].
  destruct b; cbn [negb].
  - specialize (Ht eq_refl). destruct Hok as [Hc Hcap].
    assert (Hl : (12 <= length d)%nat) by (by destruct Ht).
    destruct (SetData_spec (buffer_ p) d Hc Hd) as (Hc' & Hcon & Hs); [lia|].
    eexists true, _. split; [done|]. rewrite Hb.
    split; [split|by split; [|split]].
    + split; [done|]. unfold capacity. cbn. rewrite <- length_view.
      pose proof (cow_ok_view _ Hc') as [_ Hle]. unfold kFixedHeaderSize. lia.
    + unfold wire. cbn. rewrite Hcon. exact Ht.
  - assert (Hokq : buf_ok q) by (unfold buf_ok, capacity in *; by rewrite Hb).
    destruct (Clear_ok q Hokq) as (p' & -> & Hcons & [b ->] & Hw & _). cbn [mbind res_bind].
    eexists false, _. split; [done|]. split; [done|]. split; [done|]. split; [done|].
    intros _. split; [done|]. by apply Hf.
Qed.

Lemma ParseCow_ok p buf :
  buf_ok p -> cow_ok buf ->
  exists b p', ParseCow p buf = Ok (b, p') /\ consistent p' /\ extensions_ p' = extensions_ p /\
    (b = true -> wire p' = Cow.contents buf) /\
    (b = false -> wire p' = cleared_wire /\ forall q, ~ reads (Cow.contents buf) q).
Proof.
  intros Hok Hc. pose proof (bytes_contents _ Hc) as Hd. unfold ParseCow.
  destruct (ParseBuffer_spec p (Cow.contents buf) Hd) as (b & q & -> & [Hb He] & Ht & Hf).
  cbn [mbind res_bind fst snd]. destruct b; cbn [negb].
  - specialize (Ht eq_refl).
    assert (Hl : (12 <= length (Cow.contents buf))%nat) by (by destruct Ht).
    eexists true, _. split; [done|]. split; [split|by split; [|split]].
    + split; [done|]. unfold capacity. cbn. rewrite <- length_view.
      pose proof (cow_ok_view _ Hc) as [_ Hle]. rewrite length_contents in Hl by done.
      unfold kFixedHeaderSize. lia.
    + exact Ht.
  - assert (Hokq : buf_ok q) by (unfold buf_ok, capacity in *; by rewrite Hb).
    destruct (Clear_ok q Hokq) as (p' & -> & Hcons & [b ->] & Hw & _). cbn [mbind res_bind].
    eexists false, _. split; [done|]. split; [done|]. split; [done|]. split; [done|].
    intros _. split; [done|]. by apply Hf.
Qed.

(** ** Sessions: the mutators in any order *)

Inductive packet_op : Type :=
| OpSetMarker (m : bool)
| OpSetPayloadType (pt : Z)
| OpSetSequenceNumber (seq : Z)
| OpSetTimestamp (ts : Z)
| OpSetSsrc (ssrc : Z)
| OpSetCsrcs (csrcs : list Z)
| OpSetPayloadSize (n : nat)
| OpAllocatePayload (n : nat)
| OpSetPadding (n : nat)
| OpZeroMutableExtensions
| OpIdentifyExtensions (m : RtpHeaderExtensionMap.t)
| OpClear
| OpParse (d : list Z).

(** The types of the arguments and the [RTC_DCHECK]s of each operation. *)
Definition allowed (p : t) (op : packet_op) : Prop :=
  match op with
  | OpSetMarker _ | OpZeroMutableExtensions | OpClear => True
  | OpSetPayloadType pt => 0 <= pt < 128
  | OpSetSequenceNumber v => is_u16 v
  | OpSetTimestamp v | OpSetSsrc v => is_u32 v
  | OpSetCsrcs csrcs => bare p /\ (length csrcs <= 15)%nat /\ Forall is_u32 csrcs /\
      (kFixedHeaderSize + 4 * length csrcs <= capacity p)%nat
  | OpSetPayloadSize _ | OpAllocatePayload _ => unpadded p
  | OpSetPadding n => (n < 256)%nat
  | OpIdentifyExtensions m => map_ok m
  | OpParse d => bytes d
  end.

Definition run_packet_op (p : t) (op : packet_op) : res t :=
  match op with
  | OpSetMarker m => SetMarker p m
  | OpSetPayloadType pt => SetPayloadType p pt
  | OpSetSequenceNumber v => SetSequenceNumber p v
  | OpSetTimestamp v => SetTimestamp p v
  | OpSetSsrc v => SetSsrc p v
  | OpSetCsrcs csrcs => SetCsrcs p csrcs
  | OpSetPayloadSize n => SetPayloadSize p n
  | OpAllocatePayload n => AllocatePayload p n
  | OpSetPadding n => let! r := SetPadding p n in Ok r.2
  | OpZeroMutableExtensions => ZeroMutableExtensions p
  | OpIdentifyExtensions m => Ok (IdentifyExtensions p m)
  | OpClear => Clear p
  | OpParse d => let! r := Parse p d in Ok r.2
  end.

Inductive reachable : t -> Prop :=
| reachable_new m cap p : map_ok m -> (kFixedHeaderSize <= cap)%nat -> new m cap = Ok p ->
    reachable p
| reachable_step p op p' : reachable p -> allowed p op -> run_packet_op p op = Ok p' ->
    reachable p'.

(** A consistent packet with a well-formed extension map: the invariant. *)
Definition packet_ok (p : t) : Prop := consistent p /\ map_ok (extensions_ p).

Lemma only_buffer_extensions q p' : only_buffer q p' -> extensions_ p' = extensions_ q.
Proof. by intros [b ->]. Qed.

Lemma run_packet_op_ok p op :
  packet_ok p -> allowed p op -> exists p', run_packet_op p op = Ok p' /\ packet_ok p'.
Proof.
  intros [Hp Hm] Hal. destruct op; cbn [allowed run_packet_op] in *.
  - destruct (SetMarker_ok p m Hp) as (p' & -> & ? & [b ->]). by eexists.
  - destruct (SetPayloadType_ok p pt Hp Hal) as (p' & -> & ? & [b ->]). by eexists.
  - destruct (SetSequenceNumber_ok p seq Hp Hal) as (p' & -> & ? & [b ->]). by eexists.
  - destruct (SetTimestamp_ok p ts Hp Hal) as (p' & -> & ? & [b ->]). by eexists.
  - destruct (SetSsrc_ok p ssrc Hp Hal) as (p' & -> & ? & [b ->]). by eexists.
  - destruct Hal as (? & ? & ? & ?).
    destruct (SetCsrcs_ok p csrcs) as (p' & -> & ? & _ & [b ->] & _); try done. by eexists.
  - destruct (SetPayloadSize_ok p n Hp Hal) as (p' & -> & ? & _ & [b ->] & _). by eexists.
  - destruct (SetPayloadSize_ok p 0 Hp Hal) as (p1 & E & Hp1 & Hu1 & [b ->] & _).
    unfold AllocatePayload. rewrite E. cbn [mbind res_bind].
    destruct (SetPayloadSize_ok _ n Hp1 Hu1) as (p2 & -> & ? & _ & [b2 ->] & _). by eexists.
  - destruct (SetPadding_ok p n Hp Hal) as (b & p' & -> & Hp' & _ & Hf & Ht). cbn.
    exists p'. split; [done|]. split; [done|].
    destruct b; [by destruct (Ht eq_refl) as [[b' ->] _]|by rewrite Hf].
  - destruct (ZeroMutableExtensions_ok p Hp Hm) as (p' & -> & ? & [b ->] & _). by eexists.
  - eexists. split; [done|]. by split.
  - destruct (Clear_ok p (proj1 Hp)) as (p' & -> & ? & [b ->] & _). by eexists.
  - destruct (Parse_ok p d (proj1 Hp) Hal) as (b & p' & -> & ? & He & _). cbn.
    exists p'. split; [done|]. split; [done|]. by rewrite He.
Qed.

Lemma reachable_ok p : reachable p -> packet_ok p.
Proof.
  induction 1 as [m cap p Hm Hcap E|p op p' _ IH Hal E].
  - destruct (new_packet_ok m cap Hcap) as (p' & E' & ? & _ & _ & He & _).
    rewrite E in E'. injection E' as <-. split; [done|]. by rewrite He.
  - destruct (run_packet_op_ok p op IH Hal) as (p2 & E2 & ?). congruence.
Qed.

(** What each setter reports back through the getters. *)
Definition effect (p : t) (op : packet_op) (p' : t) : Prop :=
  match op with
  | OpSetMarker m => Marker p' = m
  | OpSetPayloadType pt => PayloadType p' = pt
  | OpSetSequenceNumber v => SequenceNumber p' = v
  | OpSetTimestamp v => Timestamp p' = v
  | OpSetSsrc v => Ssrc p' = v
  | OpSetCsrcs csrcs => Csrcs p' = Ok csrcs
  | OpSetPayloadSize n | OpAllocatePayload n => payload_size p' = n
  | OpSetPadding n => (payload_offset_ p + payload_size_ p + n <= capacity p)%nat ->
      padding_size p' = n
  | OpZeroMutableExtensions => forall i, wire p' !! i =
      if existsb (in_zone (extensions_ p) i) (extension_entries_ p) then Some 0 else wire p !! i
  | OpIdentifyExtensions m => extensions_ p' = m
  | OpClear => wire p' = cleared_wire
  | OpParse d => wire p' = d \/ (wire p' = cleared_wire /\ forall q, ~ reads d q)
  end.

Lemma run_packet_op_effect p op p' :
  packet_ok p -> allowed p op -> run_packet_op p op = Ok p' -> effect p op p'.
Proof.
  intros [Hp Hm] Hal. destruct op; cbn [allowed run_packet_op effect] in *.
  - destruct (SetMarker_ok p m Hp) as (q & -> & ? & [b ->]). by intros [= <-].
  - destruct (SetPayloadType_ok p pt Hp Hal) as (q & -> & ? & [b ->]). by intros [= <-].
  - destruct (SetSequenceNumber_ok p seq Hp Hal) as (q & -> & ? & [b ->]). by intros [= <-].
  - destruct (SetTimestamp_ok p ts Hp Hal) as (q & -> & ? & [b ->]). by intros [= <-].
  - destruct (SetSsrc_ok p ssrc Hp Hal) as (q & -> & ? & [b ->]). by intros [= <-].
  - destruct Hal as (? & ? & ? & ?).
    destruct (SetCsrcs_ok p csrcs) as (q & -> & ? & _ & _ & ?); try done. by intros [= <-].
  - destruct (SetPayloadSize_ok p n Hp Hal) as (q & -> & ? & _ & [b ->] & _). by intros [= <-].
  - destruct (SetPayloadSize_ok p 0 Hp Hal) as (p1 & E & Hp1 & Hu1 & [b ->] & _).
    unfold AllocatePayload. rewrite E. cbn [mbind res_bind].
    destruct (SetPayloadSize_ok _ n Hp1 Hu1) as (p2 & -> & ? & _ & [b2 ->] & _).
    by intros [= <-].
  - destruct (SetPadding_ok p n Hp Hal) as (b & q & -> & _ & Hb & _ & Ht). cbn.
    intros [= <-] Hfit. destruct b; [by destruct (Ht eq_refl) as [[b' ->] _]|].
    pose proof (proj1 Hb eq_refl). lia.
  - destruct (ZeroMutableExtensions_ok p Hp Hm) as (q & -> & ? & _ & _ & ?). by intros [= <-].
  - by intros [= <-].
  - destruct (Clear_ok p (proj1 Hp)) as (q & -> & _ & _ & ? & _). by intros [= <-].
  - destruct (Parse_ok p d (proj1 Hp) Hal) as (b & q & -> & _ & _ & Ht & Hf). cbn.
    intros [= <-]. destruct b; [left|right]; auto.
Qed.
End Ops.
