(* ===== verification/RtpPacketBuild.v ===== *)
(** * RtpPacketBuild: packets built field by field

    A packet fresh from the constructor gets its header and then its header
    extensions, one [AllocateExtension] after the other, in the one-byte form of
    RFC 8285.  [built] is the invariant: which bytes the packet consists of, and
    that they parse back to the entries the packet remembers. *)

From S2P Require Import Prelude.
From S2P Require Import ByteIo.
From S2P Require Import FecTypes.
From S2P Require Import Flexfec03Header.
From S2P Require Import CowBuffer.
From S2P Require Import RtpExtensions.
From S2P Require Import RtpPacketModel.
From S2P Require Import RtpPacketLaws.
From S2P Require Import RtpPacketOps.
From S2P Require Import RtpPacketSession.
Import RtpPacket.

(** ** The extension block *)

(** An extension: its id and its value. *)
Abbreviation field := (Z * list Z)%type.

Definition field_ok (f : field) : Prop :=
  1 <= f.1 <= 14 /\ (1 <= length f.2 <= 16)%nat /\ bytes f.2.

Definition field_bytes (f : field) : list Z := (16 * f.1 + (Z.of_nat (length f.2) - 1)) :: f.2.

Definition block (fs : list field) : list Z := concat (map field_bytes fs).

(** The entries a packet keeps for the block at [off]. *)
Fixpoint infos (off : nat) (fs : list field) : list ExtensionInfo :=
  match fs with
  | [] => []
  | f :: fs => mkExtensionInfo f.1 (length f.2) (off + 1) :: infos (off + 1 + length f.2) fs
  end.

Lemma infos_app off fs fs' : infos off (fs ++ fs') = infos off fs ++ infos (off + length (block fs)) fs'.
Proof.
  revert off. induction fs as [|f fs IH]; intros off; cbn; [by rewrite Nat.add_0_r|]. rewrite IH.
  do 2 f_equal. f_equal. unfold block. cbn. rewrite length_app. lia.
Qed.

Lemma infos_ids off fs : ext_id <$> infos off fs = map fst fs.
Proof. revert off. induction fs as [|f fs IH]; intros off; cbn; [done|]. by f_equal. Qed.

Lemma block_app fs fs' : block (fs ++ fs') = block fs ++ block fs'.
Proof. unfold block. by rewrite map_app, concat_app. Qed.

Lemma block_one f : block [f] = field_bytes f.
Proof. unfold block. cbn. by rewrite app_nil_r. Qed.

Lemma field_byte_ok f : field_ok f -> is_byte (16 * f.1 + (Z.of_nat (length f.2) - 1)).
Proof. intros (Hid & Hl & _). unfold in_uw. lia. Qed.

Lemma block_bytes fs : Forall field_ok fs -> bytes (block fs).
Proof.
  induction 1 as [|f fs Hf _ IH]; [constructor|]. unfold block. cbn. constructor; [by apply field_byte_ok|].
  apply Forall_app. split; [apply Hf|exact IH].
Qed.

(** ** The block parses back *)

Lemma announced_field f : field_ok f ->
  let b := 16 * f.1 + (Z.of_nat (length f.2) - 1) in
  Z.shiftr b 4 = f.1 /\ 1 + Z.land b 0xf = Z.of_nat (length f.2).
Proof.
  intros (Hid & Hl & _) b. unfold b. change 0xf with (Z.ones 4). rewrite Z.land_ones, Z.shiftr_div_pow2 by lia.
  change (2 ^ 4) with 16. split; Z.div_mod_to_equations; lia.
Qed.

Lemma FindOrCreate_fresh entries id : is_byte id -> id ∉ ext_id <$> entries ->
  FindOrCreateExtensionInfo entries id = entries ++ [mkExtensionInfo id 0 0].
Proof.
  intros Hb Hn. unfold FindOrCreateExtensionInfo. destruct (FindExtensionInfo entries id) as [e|] eqn:E.
  - apply find_info_Some in E as [E <-]. destruct Hn. by apply list_elem_of_fmap_2.
  - by rewrite (uw_small 8).
Qed.

Lemma assign_fresh entries id len off : id ∉ ext_id <$> entries ->
  assign_info (entries ++ [mkExtensionInfo id 0 0]) id len off = entries ++ [mkExtensionInfo id len off].
Proof.
  induction entries as [|e entries IH]; intros Hn; cbn; [by rewrite Z.eqb_refl|].
  rewrite fmap_cons, not_elem_of_cons in Hn. destruct Hn as [Hne Hn].
  rewrite (proj2 (Z.eqb_neq _ _)) by done. by rewrite IH.
Qed.

Section Parse.
Context (d : list Z) (eo cap : nat).
Hypothesis small : Z.of_nat (eo + cap) <= 65535.

Abbreviation loop := (fun fuel => parse_extensions fuel d kOneByteExtensionProfileId eo cap 1).

Lemma parse_zeros k : forall fuel esize entries rest,
  drop (eo + esize) d = replicate k 0 ++ rest -> cap = (esize + k)%nat -> (k < fuel)%nat ->
  exists n, loop fuel esize entries = Ok (n, entries).
Proof.
  induction k as [|k IH]; intros fuel esize entries rest Hd Hcap Hf; (destruct fuel as [|fuel]; [lia|]);
    cbn [parse_extensions].
  - rewrite (proj2 (Nat.ltb_ge _ _)) by lia. eauto.
  - destruct (Nat.ltb_spec (esize + 1) cap); [|eauto].
    assert (E : d !! (eo + esize)%nat = Some 0).
    { rewrite <- (Nat.add_0_r (eo + esize)), <- lookup_drop, Hd. done. }
    rewrite (buf_get_ok _ _ _ E). cbn [mbind res_bind Z.eqb]. apply (IH _ _ _ rest); [|lia..].
    rewrite Nat.add_assoc, <- drop_drop, Hd. cbn. by rewrite drop_0.
Qed.

Lemma parse_block fs : forall fuel esize entries k rest,
  Forall field_ok fs -> NoDup ((ext_id <$> entries) ++ map fst fs) ->
  drop (eo + esize) d = block fs ++ replicate k 0 ++ rest ->
  cap = (esize + length (block fs) + k)%nat -> (cap - esize < fuel)%nat ->
  exists n, loop fuel esize entries = Ok (n, entries ++ infos (eo + esize) fs).
Proof.
  induction fs as [|f fs IH]; intros fuel esize entries k rest Hfs Hnd Hd Hcap Hf.
  { cbn in Hcap. rewrite app_nil_r. apply (parse_zeros k _ _ _ rest); [done|lia..]. }
  apply Forall_cons_1 in Hfs as [Hf1 Hfs]. pose proof Hf1 as (Hid & Hlen & _).
  unfold block in Hcap, Hd. cbn [map concat field_bytes app] in Hcap, Hd.
  rewrite length_cons, length_app in Hcap.
  fold (block fs) in Hcap, Hd. destruct fuel as [|fuel]; [lia|]. cbn [parse_extensions].
  rewrite (proj2 (Nat.ltb_lt _ _)) by lia.
  set (b := 16 * f.1 + (Z.of_nat (length f.2) - 1)) in *.
  assert (E : d !! (eo + esize)%nat = Some b).
  { rewrite <- (Nat.add_0_r (eo + esize)), <- lookup_drop, Hd. done. }
  rewrite (buf_get_ok _ _ _ E). cbn [mbind res_bind].
  destruct (announced_field f Hf1) as [Eid El]. fold b in Eid, El.
  rewrite (proj2 (Z.eqb_neq b 0)) by (unfold b; lia). rewrite Z.eqb_refl. cbn [mbind res_bind].
  rewrite Eid, El, (proj2 (Z.eqb_neq f.1 15)), (proj2 (Z.eqb_neq f.1 0)) by lia. cbn [orb andb].
  rewrite Nat2Z.id, (proj2 (Nat.ltb_ge _ _)) by lia.
  rewrite (proj2 (Z.ltb_ge _ _)) by lia.
  assert (Hn : f.1 ∉ ext_id <$> entries).
  { intros Hin. apply NoDup_app in Hnd as (_ & Hdis & _). apply (Hdis _ Hin). by left. }
  rewrite FindOrCreate_fresh by (done || (unfold in_uw; lia)). rewrite assign_fresh by done.
  destruct (IH fuel (esize + (1 + length f.2))%nat (entries ++ [mkExtensionInfo f.1 (length f.2) (eo + esize + 1)]) k rest)
    as (n & ->); [done| | |lia..|].
  - rewrite fmap_app, <- (assoc_L (++)). done.
  - replace (eo + (esize + (1 + length f.2)))%nat with (eo + esize + S (length f.2))%nat by lia.
    rewrite <- drop_drop, Hd. cbn [drop]. by rewrite <- (assoc_L (++)), drop_app_length.
  - exists n. f_equal. f_equal. rewrite <- (assoc_L (++)). cbn. do 3 f_equal. lia.
Qed.

End Parse.

(** ** Built packets *)

Definition words (fs : list field) : nat := (length (block fs) + 3) / 4.

(** The extension block with its header and its zero padding. *)
Definition ext_bytes (fs : list field) : list Z :=
  match fs with
  | [] => []
  | _ => [0xBE; 0xDE; u8 (Z.shiftr (Z.of_nat (words fs)) 8); u8 (Z.of_nat (words fs))] ++
         block fs ++ replicate (4 * words fs - length (block fs)) 0
  end.

(** Version 2, no padding, no contributing sources. *)
Definition first_byte (fs : list field) : Z := match fs with [] => 0x80 | _ => 0x90 end.

Record built (fs : list field) (p : t) : Prop := {
  bt_unshared : unshared p;
  bt_fields : Forall field_ok fs;
  bt_ids : NoDup (map fst fs);
  bt_wire : exists h, length h = 11%nat /\ wire p = first_byte fs :: h ++ ext_bytes fs;
  bt_fixed : reads_fixed (wire p) p;
  bt_entries : extension_entries_ p = infos 16 fs;
  bt_size : extensions_size_ p = length (block fs);
  bt_offset : payload_offset_ p = (12 + length (ext_bytes fs))%nat;
  bt_payload : payload_size_ p = 0%nat;
  bt_padding : padding_size_ p = 0%nat;
  bt_small : (length (block fs) <= 1000)%nat
}.

Lemma words_room fs : (length (block fs) <= 4 * words fs < length (block fs) + 4)%nat.
Proof. unfold words. pose proof (Nat.div_mod_eq (length (block fs) + 3) 4). pose proof (Nat.mod_upper_bound (length (block fs) + 3) 4). lia. Qed.

Lemma length_ext_bytes fs : length (ext_bytes fs) = match fs with [] => 0%nat | _ => (4 + 4 * words fs)%nat end.
Proof.
  destruct fs as [|f fs]; [done|]. unfold ext_bytes. rewrite !length_app, length_replicate.
  pose proof (words_room (f :: fs)). cbn [length]. lia.
Qed.

Lemma ext_layout_built fs h d :
  Forall field_ok fs -> NoDup (map fst fs) -> (length (block fs) <= 1000)%nat -> length h = 11%nat ->
  d = first_byte fs :: h ++ ext_bytes fs ->
  exists n, ext_layout d (first_byte fs) = Ok (Some ((12 + length (ext_bytes fs))%nat, infos 16 fs, n)).
Proof.
  intros Hfs Hnd Hsm Hh ->. unfold ext_layout.
  assert (Hl : length (first_byte fs :: h ++ ext_bytes fs) = (12 + length (ext_bytes fs))%nat)
    by (cbn [length]; rewrite length_app, Hh; lia).
  rewrite Hl. destruct fs as [|f fs].
  { cbn. by exists 0%nat. }
  rewrite !length_ext_bytes. set (F := f :: fs) in *.
  change (Z.to_nat (Z.land (first_byte F) 15)) with 0%nat. unfold kFixedHeaderSize. cbn [Nat.mul].
  rewrite Nat.add_0_r, (proj2 (Nat.ltb_ge _ _)) by lia. change (has_bits (first_byte F) 16) with true. cbn [andb].
  rewrite (proj2 (Nat.ltb_ge _ _)) by lia. do 11 (destruct h as [|? h]; [discriminate|]). destruct h; [|discriminate].
  pose proof (words_room F) as Hw.
  assert (Hsw : is_u16 (Z.of_nat (words F))) by (unfold in_uw; lia).
  cbn [app]. unfold ext_bytes, F. fold F. cbn [app].
  cbn [ByteReader.ReadBigEndian]. unfold ByteReader.ReadBigEndian2. cbn [Nat.add]. run.
  rewrite (be16_roundtrip _ Hsw). change (Z.lor (Z.shiftl 190 8) 222) with kOneByteExtensionProfileId. cbn [mbind res_bind].
  rewrite Z.eqb_refl. cbn [negb andb]. rewrite Nat2Z.id, (Nat.mul_comm (words F) 4), (proj2 (Nat.ltb_ge _ _)) by lia.
  match goal with |- context [parse_extensions _ ?d _ _ _ _ _ _] =>
    destruct (parse_block d 16 (4 * words F) ltac:(lia) F (S (4 * words F)) 0 []
      (4 * words F - length (block F)) [] Hfs Hnd) as (n & E) end.
  - by rewrite app_nil_r.
  - lia.
  - lia.
  - rewrite E. cbn [mbind res_bind fst snd app]. exists n. rewrite Nat.add_0_r. do 4 f_equal. lia.
Qed.

Lemma built_consistent fs p : built fs p -> consistent p /\ unpadded p.
Proof.
  intros [[Hok _] Hfs Hnd (h & Hh & Hw) Hfix He _ Ho Hps Hpd Hsm].
  assert (H0 : wire p !! 0%nat = Some (first_byte fs)) by (by rewrite Hw).
  assert (Hl : length (wire p) = (12 + length (ext_bytes fs))%nat).
  { rewrite Hw. cbn [length]. rewrite length_app, Hh. lia. }
  assert (Hp : has_bits (first_byte fs) 0x20 = false) by by destruct fs.
  split; [split; [done|]|].
  - destruct Hfix as (b1 & E1 & F1 & F2 & F3 & F4 & F5). split; [rewrite Hl; unfold kFixedHeaderSize; lia|].
    exists (first_byte fs), b1. split; [done|]. split; [done|]. split; [by destruct fs|].
    do 5 (split; [done|]). rewrite Ho, He.
    split; [by eapply ext_layout_built|]. unfold pad_layout, size. rewrite Hp, Hl, Ho, Hps, Hpd. cbn [andb].
    rewrite (proj2 (Nat.ltb_ge _ _)) by lia. split; [done|lia].
  - split; [done|]. unfold has_padding. rewrite (data_at_wire p 0 _ H0). cbn [mbind res_bind]. by rewrite Hp.
Qed.

Section Build.
Context `{Heap}.

(** The members that allocating an extension leaves alone. *)
Definition header_kept (p p' : t) : Prop :=
  marker_ p' = marker_ p /\ payload_type_ p' = payload_type_ p /\ sequence_number_ p' = sequence_number_ p /\
  timestamp_ p' = timestamp_ p /\ ssrc_ p' = ssrc_ p /\ extensions_ p' = extensions_ p /\ capacity p' = capacity p.

(** The whole block of a built packet, beyond its size. *)
Lemma built_view fs p :
  built fs p -> (16 + length (block fs) <= capacity p)%nat ->
  exists h x0 x1 x2 x3 tl, length h = 11%nat /\ wire p = first_byte fs :: h ++ ext_bytes fs /\
    pview p = first_byte fs :: h ++ x0 :: x1 :: x2 :: x3 :: block fs ++ tl /\ bytes (pview p) /\
    (fs <> [] -> x0 = 0xBE /\ x1 = 0xDE).
Proof.
  intros [[[Hc Hcap] _] Hfs _ (h & Hh & Hw) _ _ _ _ _ _ _] Hle.
  pose proof (length_pview p) as Hlv. pose proof (proj1 (cow_ok_view _ Hc)) as Hbv.
  assert (Hv : pview p = wire p ++ drop (Cow.size_ (buffer_ p)) (pview p)) by (rewrite wire_pview; by rewrite take_drop).
  rewrite Hw in Hv. set (tl := drop _ _) in Hv. clearbody tl. destruct fs as [|f fs].
  - cbn in Hv, Hle. rewrite app_nil_r in Hv.
    assert (Hlt : (4 <= length tl)%nat).
    { rewrite Hv in Hlv. cbn in Hlv. rewrite length_app in Hlv. lia. }
    destruct tl as [|x0 [|x1 [|x2 [|x3 tl]]]]; try (cbn in Hlt; lia).
    exists h, x0, x1, x2, x3, tl. split; [done|]. split; [done|]. split; [exact Hv|]. by split.
  - exists h, 0xBE, 0xDE, (u8 (Z.shiftr (Z.of_nat (words (f :: fs))) 8)), (u8 (Z.of_nat (words (f :: fs)))).
    exists (replicate (4 * words (f :: fs) - length (block (f :: fs))) 0 ++ tl).
    split; [done|]. split; [done|]. split; [|by split]. rewrite Hv. cbn [ext_bytes app].
    rewrite <- (assoc_L (++) h). cbn [app]. by rewrite <- (assoc_L (++) (block _)).
Qed.

Lemma write_one_ref f p p' : write f p = Ok p' -> Cow.one_ref (buffer_ p') = true.
Proof. unfold write. intros (b & Em & [= <-])%bind_ok_inv. by eapply mutate_one_ref. Qed.

(** [write] on the whole block. *)
Lemma write_pview f p v' :
  unshared p -> f (pview p) = Ok v' -> length v' = capacity p -> bytes v' ->
  exists b', write f p = Ok (with_buffer p b') /\ unshared (with_buffer p b') /\ pview (with_buffer p b') = v' /\
    capacity (with_buffer p b') = capacity p.
Proof.
  intros Hu Hf Hl Hb. destruct (write_view f p v' Hu Hf Hl Hb) as (b' & -> & Hu' & Hv & _).
  exists b'. split; [done|]. split; [done|]. split; [done|]. rewrite <- length_pview. unfold pview. cbn. by rewrite Hv.
Qed.

(** The X bit and the profile of the first extension. *)
Definition open_block (p : t) : res t :=
  if (extensions_size_ p =? 0)%nat then
    let! b := data_at p 0 in
    let! p' := WriteAt p 0 (Z.lor b 0x10) in
    write (fun d => ByteWriter.WriteBigEndian 2 d 12 kOneByteExtensionProfileId) p'
  else Ok p.

Lemma open_block_ok fs p h x0 x1 x2 x3 tl :
  built fs p -> length h = 11%nat -> pview p = first_byte fs :: h ++ x0 :: x1 :: x2 :: x3 :: block fs ++ tl ->
  bytes (pview p) -> (fs <> [] -> x0 = 0xBE /\ x1 = 0xDE) ->
  exists b, open_block p = Ok (with_buffer p b) /\ unshared (with_buffer p b) /\
    pview (with_buffer p b) = 0x90 :: h ++ 0xBE :: 0xDE :: x2 :: x3 :: block fs ++ tl /\
    capacity (with_buffer p b) = capacity p.
Proof.
  intros Hbt Hh Hv Hb Hx. pose proof Hbt as [Hu _ _ (h' & _ & Hw) _ _ Hs _ _ _ _]. unfold open_block. rewrite Hs.
  pose proof (length_pview p) as Hl. rewrite Hv in Hl, Hb.
  destruct fs as [|f fs].
  - cbn [block map concat length Nat.eqb first_byte app] in *.
    rewrite (data_at_wire p 0 0x80) by (by rewrite Hw). cbn [mbind res_bind].
    split_bytes. apply Forall_app in Hb as [Hbh Hbt'].
    destruct (write_pview (fun d => buf_set d 0 (Z.lor 0x80 0x10)) p
      (0x90 :: h ++ x0 :: x1 :: x2 :: x3 :: tl)) as (b & E & Hu1 & Hv1 & Hc1); [done| | | |].
    + rewrite Hv. by rewrite buf_set_ok by (cbn; lia).
    + done.
    + constructor; [by vm_compute|]. by apply Forall_app.
    + unfold WriteAt. rewrite E. cbn [mbind res_bind].
      do 11 (destruct h as [|? h]; [discriminate|]). destruct h; [|discriminate]. cbn [app] in *.
      destruct (write_pview (fun d => ByteWriter.WriteBigEndian 2 d 12 kOneByteExtensionProfileId) (with_buffer p b)
        (0x90 :: z :: z0 :: z1 :: z2 :: z3 :: z4 :: z5 :: z6 :: z7 :: z8 :: z9 :: 0xBE :: 0xDE :: x2 :: x3 :: tl)) as (b2 & E2 & Hu2 & Hv2 & Hc2); [done| | | |].
      * rewrite Hv1. cbn [ByteWriter.WriteBigEndian]. unfold ByteWriter.WriteBigEndian2. cbn [Nat.add]. run. done.
      * rewrite Hc1, <- Hl. done.
      * split_bytes. repeat (apply Forall_cons_2; [first [assumption | by vm_compute]|]). assumption.
      * exists b2. split; [exact E2|]. split; [done|]. split; [done|]. etransitivity; [exact Hc2|exact Hc1].
  - destruct Hx as [-> ->]; [done|]. exists (buffer_ p).
    assert (with_buffer p (buffer_ p) = p) as -> by by destruct p.
    split; [|done]. unfold block. cbn. done.
Qed.

(** The length of the block and its padding, in a view whose parts are known. *)
Lemma close_block_ok p h x0 x1 x2 x3 B k rest :
  unshared p -> length h = 11%nat -> length B = extensions_size_ p -> (length B <= 1000)%nat ->
  pview p = 0x90 :: h ++ x0 :: x1 :: x2 :: x3 :: B ++ k ++ rest -> bytes (pview p) ->
  length k = (4 * ((length B + 3) / 4) - length B)%nat ->
  let w := Z.of_nat ((length B + 3) / 4) in
  exists b, SetExtensionLengthMaybeAddZeroPadding p 16 = Ok ((4 * ((length B + 3) / 4))%nat, with_buffer p b) /\
    unshared (with_buffer p b) /\ capacity (with_buffer p b) = capacity p /\
    pview (with_buffer p b) =
      0x90 :: h ++ x0 :: x1 :: u8 (Z.shiftr w 8) :: u8 w :: B ++ replicate (length k) 0 ++ rest.
Proof.
  intros Hu Hh HB Hsm Hv Hb Hk w. unfold SetExtensionLengthMaybeAddZeroPadding. rewrite <- HB.
  set (W := ((length B + 3) / 4)%nat) in *.
  assert (HW : (length B <= 4 * W < length B + 4)%nat).
  { unfold W. pose proof (Nat.div_mod_eq (length B + 3) 4). pose proof (Nat.mod_upper_bound (length B + 3) 4). lia. }
  clearbody W. rewrite (uw_small 16 (Z.of_nat W)) by (unfold in_uw; lia). fold w. cbn [Nat.sub].
  pose proof (length_pview p) as Hl. rewrite Hv in Hl, Hb.
  do 11 (destruct h as [|? h]; [discriminate|]). destruct h; [|discriminate]. cbn [app] in *. split_bytes.
  pose proof Hb as [HbB [_ Hbr]%Forall_app]%Forall_app.
  destruct (write_pview (fun d => ByteWriter.WriteBigEndian 2 d 14 w) p
    (0x90 :: z :: z0 :: z1 :: z2 :: z3 :: z4 :: z5 :: z6 :: z7 :: z8 :: z9 :: x0 :: x1 :: u8 (Z.shiftr w 8) :: u8 w :: B ++ k ++ rest))
    as (b1 & E1 & Hu1 & Hv1 & Hc1); [done| | | |].
  - rewrite Hv. cbn [ByteWriter.WriteBigEndian]. unfold ByteWriter.WriteBigEndian2. cbn [Nat.add]. run. done.
  - done.
  - by repeat (apply Forall_cons_2; [first [assumption | by apply uw_range | by vm_compute]|]).
  - rewrite E1. cbn [mbind res_bind]. replace (Z.to_nat w) with W by (unfold w; lia). rewrite size_sub_ok by lia.
    cbn [mbind res_bind]. rewrite <- Hk.
    destruct (write_pview (fun d => memset0 d (16 + length B) (length k)) (with_buffer p b1)
      (0x90 :: z :: z0 :: z1 :: z2 :: z3 :: z4 :: z5 :: z6 :: z7 :: z8 :: z9 :: x0 :: x1 :: u8 (Z.shiftr w 8) :: u8 w ::
       B ++ replicate (length k) 0 ++ rest)) as (b2 & E2 & Hu2 & Hv2 & Hc2); [done| | | |].
    + rewrite Hv1, memset0_ok by (cbn [length]; rewrite !length_app; lia). cbn [take drop Nat.add app].
      rewrite take_app_length, <- drop_drop, drop_app_length, drop_app_length. done.
    + rewrite Hc1, <- Hl. cbn [length]. by rewrite !length_app, length_replicate.
    + repeat (apply Forall_cons_2; [first [assumption | by apply uw_range | by vm_compute]|]).
      apply Forall_app. split; [done|]. apply Forall_app. split; [by apply Forall_replicate|done].
    + change (with_buffer (with_buffer p b1) b2) with (with_buffer p b2) in *. rewrite E2. cbn [mbind res_bind].
      exists b2. split.
      { do 2 f_equal. unfold w. rewrite uw_small by (unfold in_uw; lia). lia. }
      split; [done|]. split; [|done]. etransitivity; [exact Hc2|exact Hc1].
Qed.

Lemma field_header id n : 1 <= id <= 14 -> (1 <= n <= 16)%nat ->
  u8 (Z.lor (u8 (Z.shiftl (u8 id) 4)) (u8 (Z.of_nat n - 1))) = 16 * id + (Z.of_nat n - 1).
Proof.
  intros Hid Hn. rewrite (uw_small 8 id) by (unfold in_uw; lia).
  rewrite Z.shiftl_mul_pow2 by lia. change (2 ^ 4) with 16.
  rewrite (uw_small 8 (id * 16)), (uw_small 8 (Z.of_nat n - 1)) by (unfold in_uw; lia).
  replace (Z.lor (id * 16) (Z.of_nat n - 1)) with (id * 16 + (Z.of_nat n - 1)); [rewrite uw_small; [lia|unfold in_uw; lia]|].
  rewrite <- Z.add_lor_land. replace (Z.land (id * 16) (Z.of_nat n - 1)) with 0; [lia|].
  apply Z.bits_inj'. intros i Hi. rewrite Z.land_spec, Z.bits_0. change 16 with (2 ^ 4). rewrite <- Z.shiftl_mul_pow2 by lia.
  destruct (decide (i < 4)); [by rewrite Z.shiftl_spec_low|].
  rewrite (in_uw_testbit 4 (Z.of_nat n - 1)), andb_false_r by (unfold in_uw; lia). done.
Qed.

Lemma find_info_fresh entries id : id ∉ ext_id <$> entries -> FindExtensionInfo entries id = None.
Proof.
  intros Hn. destruct (FindExtensionInfo entries id) as [e|] eqn:E; [|done].
  apply find_info_Some in E as [E <-]. destruct Hn. by apply list_elem_of_fmap_2.
Qed.

(** The fixed header is read from the first twelve bytes. *)
Lemma reads_fixed_head b b' h x x' p p' :
  length h = 11%nat -> reads_fixed (b :: h ++ x) p -> header_kept p p' -> reads_fixed (b' :: h ++ x') p'.
Proof.
  intros Hh. do 11 (destruct h as [|? h]; [discriminate|]). destruct h; [|discriminate].
  intros (b1 & E1 & F1 & F2 & F3 & F4 & F5) (K1 & K2 & K3 & K4 & K5 & _). exists b1.
  rewrite K1, K2, K3, K4, K5. split; [exact E1|]. split; [done|]. split; [done|]. split; [exact F3|]. split; [exact F4|exact F5].
Qed.

(** The room behind the block: the header byte of an entry, its value, padding. *)
Lemma split_room (tl : list Z) n k : (1 + n + k <= length tl)%nat ->
  exists y data pad rest, tl = y :: data ++ pad ++ rest /\ length data = n /\ length pad = k.
Proof.
  intros Hl. destruct tl as [|y tl]; [cbn in Hl; lia|]. cbn [length] in Hl.
  exists y, (take n tl), (take k (drop n tl)), (drop k (drop n tl)). rewrite !take_drop, !length_take, length_drop.
  split; [done|]. lia.
Qed.

(** The header byte of a new entry. *)
Lemma write_entry p h x0 x1 x2 x3 B y data tail id n :
  unshared p -> length h = 11%nat -> pview p = 0x90 :: h ++ x0 :: x1 :: x2 :: x3 :: B ++ y :: data ++ tail ->
  length data = n -> 1 <= id <= 14 -> (1 <= n <= 16)%nat ->
  exists b, WriteAt p (16 + length B) (Z.lor (u8 (Z.shiftl (u8 id) 4)) (u8 (Z.of_nat n - 1))) = Ok (with_buffer p b) /\
    unshared (with_buffer p b) /\ capacity (with_buffer p b) = capacity p /\
    pview (with_buffer p b) =
      0x90 :: h ++ x0 :: x1 :: x2 :: x3 :: (B ++ (16 * id + (Z.of_nat n - 1)) :: data) ++ tail.
Proof.
  intros Hu Hh Hv Hld Hid Hn. set (hb := 16 * id + (Z.of_nat n - 1)). pose proof (length_pview p) as Hl.
  assert (Hb : bytes (pview p)) by (apply cow_ok_view, Hu). rewrite Hv in Hl, Hb.
  apply Forall_cons_1 in Hb as [Hb0 [Hbh Hb]%Forall_app]. do 4 (apply Forall_cons_1 in Hb as [? Hb]).
  apply Forall_app in Hb as [HbB [_ [Hbd Hbt]%Forall_app]%Forall_cons_1].
  destruct (write_pview (fun d => buf_set d (16 + length B) (Z.lor (u8 (Z.shiftl (u8 id) 4)) (u8 (Z.of_nat n - 1)))) p
    (0x90 :: h ++ x0 :: x1 :: x2 :: x3 :: (B ++ hb :: data) ++ tail)) as (b & E & Hu' & Hv' & Hc); [done| | | |].
  - rewrite Hv, buf_set_ok by (cbn [length]; rewrite length_app; cbn [length]; rewrite length_app; cbn [length]; lia).
    rewrite field_header by done. fold hb. f_equal. clear -Hh.
    do 11 (destruct h as [|? h]; [discriminate|]). destruct h; [|discriminate]. cbn [app Nat.add].
    do 16 (apply (f_equal2 cons); [reflexivity|]).
    change (<[length B := hb]> (B ++ y :: data ++ tail) = (B ++ hb :: data) ++ tail).
    rewrite <- (assoc_L (++)). rewrite insert_app_r_alt by done. by rewrite Nat.sub_diag.
  - rewrite <- Hl. repeat (rewrite length_app || cbn [length]). lia.
  - apply Forall_cons_2; [done|]. apply Forall_app. split; [done|].
    assert (Hhb : is_byte hb) by (unfold hb, in_uw; lia).
    do 4 (apply Forall_cons_2; [assumption|]). rewrite <- (assoc_L (++)). apply Forall_app. split; [done|].
    cbn [app]. apply Forall_cons_2; [done|]. by apply Forall_app.
  - exists b. by split.
Qed.

(** The packet ends with the padding of its block. *)
Lemma take_ext_block f fs h rest :
  length h = 11%nat -> let F := fs ++ [f] in let W := words F in
  take (16 + 4 * W) (0x90 :: h ++ 0xBE :: 0xDE :: u8 (Z.shiftr (Z.of_nat W) 8) :: u8 (Z.of_nat W) ::
    block F ++ replicate (4 * W - length (block F)) 0 ++ rest) = 0x90 :: h ++ ext_bytes F.
Proof.
  intros Hh F W. pose proof (words_room F) as HW. fold W in HW.
  replace (ext_bytes F) with ([0xBE; 0xDE; u8 (Z.shiftr (Z.of_nat W) 8); u8 (Z.of_nat W)] ++
    block F ++ replicate (4 * W - length (block F)) 0) by (unfold F, W; by destruct fs).
  clear -Hh HW. do 11 (destruct h as [|? h]; [discriminate|]). destruct h; [|discriminate]. cbn [app take Nat.add].
  do 16 f_equal. rewrite (assoc_L (++)), take_app_length'; [done|]. rewrite length_app, length_replicate. lia.
Qed.

Lemma built_snoc fs p p' h id data :
  built fs p -> field_ok (id, data) -> id ∉ map fst fs -> (length (block fs) + 17 <= 1000)%nat ->
  length h = 11%nat -> wire p = first_byte fs :: h ++ ext_bytes fs ->
  header_kept p p' -> unshared p' -> let F := fs ++ [(id, data)] in
  wire p' = 0x90 :: h ++ ext_bytes F ->
  extension_entries_ p' = extension_entries_ p ++ [mkExtensionInfo id (length data) (16 + length (block fs) + 1)] ->
  extensions_size_ p' = length (block F) -> payload_offset_ p' = (16 + 4 * words F)%nat ->
  payload_size_ p' = 0%nat -> padding_size_ p' = 0%nat -> built F p'.
Proof.
  intros [_ Hfs Hnd _ Hfix He _ _ _ _ _] Hf Hfresh Hsm Hh Hw Hkept Hu F Hw' He' Hs' Ho' Hps Hpd.
  split; try done.
  - apply Forall_app. split; [done|]. apply Forall_cons_2; [exact Hf|constructor].
  - unfold F. rewrite map_app. apply NoDup_app. split; [done|]. split; [|apply NoDup_singleton].
    by intros x Hx1 ->%list_elem_of_singleton.
  - exists h. split; [done|]. rewrite Hw'. unfold F. by destruct fs.
  - rewrite Hw'. rewrite Hw in Hfix. by eapply reads_fixed_head.
  - rewrite He', He. unfold F. by rewrite infos_app.
  - rewrite Ho', length_ext_bytes. unfold F. by destruct fs.
  - unfold F. rewrite block_app, block_one, length_app. destruct Hf as (_ & Hl & _). cbn in *. lia.
Qed.

(** The new entry in the whole block: written, counted, padded. *)
Lemma AllocateRaw_built fs p id n :
  built fs p -> 1 <= id <= 14 -> (1 <= n <= 16)%nat -> id ∉ map fst fs ->
  (20 + length (block fs) + n <= capacity p)%nat -> (length (block fs) + 17 <= 1000)%nat ->
  exists data p', AllocateRawExtension p id n = Ok (Some ((17 + length (block fs))%nat, n), p') /\
    length data = n /\ built (fs ++ [(id, data)]) p' /\ header_kept p p'.
Proof.
  intros Hbt Hid Hn Hfresh Hcap Hsm. pose proof Hbt as [Hu _ _ _ _ He Hs _ Hps Hpd _].
  destruct (built_view fs p Hbt) as (h & x0 & x1 & x2 & x3 & tl & Hh & Hw & Hv & Hb & Hx); [lia|].
  unfold AllocateRawExtension. rewrite He, find_info_fresh by (by rewrite infos_ids). rewrite Hps, Hpd. change (0 <? 0)%nat with false. cbn iota.
  rewrite (data_at_wire p 0 (first_byte fs)) by (by rewrite Hw). cbn [mbind res_bind].
  replace (Z.to_nat (Z.land (first_byte fs) 15)) with 0%nat by (by destruct fs).
  replace (kFixedHeaderSize + 0 * 4 + 4)%nat with 16%nat by done.
  rewrite (proj2 (Z.ltb_ge kOneByteHeaderExtensionMaxId id)), (proj2 (Nat.ltb_ge kOneByteHeaderExtensionMaxValueSize n)),
    (proj2 (Nat.eqb_neq n 0))
    by (unfold kOneByteHeaderExtensionMaxId, kOneByteHeaderExtensionMaxValueSize; lia).
  cbn [orb negb rtc_check mbind res_bind].
  replace (if (0 <? extensions_size_ p)%nat then _ else _) with (Ok (Some (kOneByteExtensionProfileId, p))).
  2:{ rewrite Hs. destruct fs as [|f fs]; [done|]. destruct Hx as [-> ->]; [done|].
      cbn [block map concat field_bytes app length Nat.ltb Nat.leb].
      change (Cow.view (buffer_ p)) with (pview p). rewrite Hv.
      do 11 (destruct h as [|? h]; [discriminate|]). destruct h; [|discriminate]. reflexivity. }
  cbn [mbind res_bind]. rewrite !Z.eqb_refl, Hs. unfold kOneByteExtensionHeaderLength.
  rewrite (proj2 (Nat.ltb_ge _ _)) by lia.
  pose proof (length_pview p) as Hl. rewrite Hv in Hl. repeat (rewrite length_app in Hl || cbn [length] in Hl).
  set (es := length (block fs)) in *. set (W := ((es + 1 + n + 3) / 4)%nat).
  assert (HW : (es + 1 + n <= 4 * W < es + 1 + n + 4)%nat).
  { unfold W. pose proof (Nat.div_mod_eq (es + 1 + n + 3) 4). pose proof (Nat.mod_upper_bound (es + 1 + n + 3) 4). lia. }
  destruct (split_room tl n (4 * W - (es + 1 + n))) as (y & data & k & rest & -> & Hld & Hlk); [lia|].
  replace (if (es =? 0)%nat then _ else _) with (open_block p) by (unfold open_block; by rewrite Hs).
  destruct (open_block_ok fs p h x0 x1 x2 x3 (y :: data ++ k ++ rest) Hbt Hh Hv Hb Hx) as (b2 & -> & Hu2 & Hv2 & Hc2).
  cbn [mbind res_bind].
  destruct (write_entry (with_buffer p b2) h 0xBE 0xDE x2 x3 (block fs) y data (k ++ rest) id n Hu2 Hh Hv2 Hld Hid Hn)
    as (b3 & E3 & Hu3 & Hc3 & Hv3).
  fold es in E3. rewrite E3. cbn [mbind res_bind]. change (with_buffer (with_buffer p b2) b3) with (with_buffer p b3) in *.
  rewrite !(uw_small 16), !(uw_small 8 (Z.of_nat n)), (uw_small 8 id), !Nat2Z.id by (unfold in_uw; lia).
  assert (HB : block fs ++ (16 * id + (Z.of_nat n - 1)) :: data = block (fs ++ [(id, data)])).
  { rewrite block_app, block_one. unfold field_bytes. cbn [fst snd]. by rewrite Hld. }
  assert (Hlb : length (block (fs ++ [(id, data)])) = (es + 1 + n)%nat) by (rewrite <- HB, length_app; cbn [length]; fold es; lia).
  assert (HWd : words (fs ++ [(id, data)]) = W) by (unfold words; by rewrite Hlb).
  rewrite HB in Hv3. set (p4 := with_extensions _ _ _).
  destruct (close_block_ok p4 h 0xBE 0xDE x2 x3 (block (fs ++ [(id, data)])) k rest) as (b5 & E5 & Hu5 & Hc5 & Hv5);
    [exact Hu3|exact Hh|exact Hlb|lia|exact Hv3|apply (cow_ok_view (buffer_ (with_buffer p b3))), Hu3|by rewrite Hlb|].
  rewrite E5. cbn [mbind res_bind fst snd]. rewrite Hlb. fold W. cbn [payload_offset_ with_sizes]. set (p5 := with_sizes _ _ _ _).
  assert (Hcap5 : capacity p5 = capacity p) by (etransitivity; [exact Hc5|]; etransitivity; [exact Hc3|exact Hc2]).
  destruct (SetSize_unshared p5 (16 + 4 * W)) as (Hu6 & _ & Hw6 & Hc6); [exact Hu5|rewrite Hcap5; lia|].
  change (pview p5) with (pview (with_buffer p4 b5)) in Hw6. rewrite Hv5, Hlk, Hlb in Hw6.
  destruct (touch_ok (SetSize p5 (16 + 4 * W))) as (b7 & E7 & Hok7 & Hc7 & Hw7); [apply Hu6|].
  rewrite E7. cbn [mbind res_bind]. set (p7 := with_buffer _ b7).
  exists data, p7. split; [by replace (17 + es)%nat with (16 + es + 1)%nat by lia|]. split; [done|].
  assert (Hkept : header_kept p p7).
  { do 6 (split; [done|]). etransitivity; [exact Hc7|]. rewrite Hc6. exact Hcap5. }
  split; [|done]. apply (built_snoc fs p p7 h id data Hbt); try done.
  - split; [done|]. cbn [fst snd]. rewrite Hld. split; [done|].
    assert (Hbv : bytes (pview (with_buffer p b2))) by (apply cow_ok_view, Hu2). rewrite Hv2 in Hbv.
    apply Forall_cons_1 in Hbv as [_ [_ Hbv]%Forall_app]. do 4 (apply Forall_cons_1 in Hbv as [_ Hbv]).
    apply Forall_app in Hbv as [_ [_ [Hbv _]%Forall_app]%Forall_cons_1]. done.
  - split; [exact Hok7|exact (write_one_ref _ _ _ E7)].
  - change (wire p7) with (Cow.contents b7). rewrite Hw7, Hw6, <- (take_ext_block (id, data) fs h rest Hh), HWd, Hlb. done.
  - change (extension_entries_ p7) with (extension_entries_ p ++ [mkExtensionInfo id n (16 + es + 1)]). by rewrite Hld.
  - change (payload_offset_ p7) with (16 + 4 * W)%nat. by rewrite HWd.
Qed.

(** ** Values *)

(** Where the value of the last extension is. *)
Lemma ext_bytes_snoc fs id (data : list Z) :
  exists pre post, length pre = (5 + length (block fs))%nat /\
    forall data', length data' = length data -> ext_bytes (fs ++ [(id, data')]) = pre ++ data' ++ post.
Proof.
  set (n := length data). set (W := ((length (block fs) + S n + 3) / 4)%nat).
  exists ([0xBE; 0xDE; u8 (Z.shiftr (Z.of_nat W) 8); u8 (Z.of_nat W)] ++ block fs ++ [16 * id + (Z.of_nat n - 1)]).
  exists (replicate (4 * W - (length (block fs) + S n)) 0).
  split; [cbn; rewrite length_app; cbn; lia|]. intros data' Hl.
  assert (HB : block (fs ++ [(id, data')]) = (block fs ++ [16 * id + (Z.of_nat n - 1)]) ++ data').
  { rewrite block_app, block_one. unfold field_bytes. cbn [fst snd]. by rewrite Hl, <- (assoc_L (++)). }
  assert (HL : length (block (fs ++ [(id, data')])) = (length (block fs) + S n)%nat).
  { rewrite HB, !length_app, Hl. cbn [length]. unfold n. lia. }
  replace (ext_bytes (fs ++ [(id, data')])) with ([0xBE; 0xDE; u8 (Z.shiftr (Z.of_nat W) 8); u8 (Z.of_nat W)] ++
    block (fs ++ [(id, data')]) ++ replicate (4 * W - (length (block fs) + S n)) 0).
  - rewrite HB, <- !(assoc_L (++)). done.
  - unfold W. rewrite <- HL. by destruct fs.
Qed.

Lemma write_value fs id data data' p f :
  built (fs ++ [(id, data)]) p -> length data' = length data -> bytes data' ->
  local_write (length (wire p)) f f ->
  (forall A C, length A = (17 + length (block fs))%nat -> f (A ++ data ++ C) = Ok (A ++ data' ++ C)) ->
  exists p', write f p = Ok p' /\ built (fs ++ [(id, data')]) p' /\ header_kept p p'.
Proof.
  intros [[Hok Hone] Hfs Hnd (h & Hh & Hw) Hfix He Hs Ho Hps Hpd Hsm] Hl Hb Hloc Hf.
  destruct (ext_bytes_snoc fs id data) as (pre & post & Hpre & Hext).
  assert (HB : length (block (fs ++ [(id, data')])) = length (block (fs ++ [(id, data)]))).
  { rewrite !block_app, !block_one, !length_app. unfold field_bytes. cbn [length fst snd]. lia. }
  assert (Hfb : forall x, first_byte (fs ++ [x]) = 0x90) by by destruct fs.
  rewrite Hext, Hfb in Hw by done.
  destruct (write_wire f f p Hok) as (b & E & Hok' & Hc & Hg); [by rewrite size_wire|].
  assert (Hw' : Cow.contents b = 0x90 :: h ++ ext_bytes (fs ++ [(id, data')])).
  { rewrite Hw in Hg. specialize (Hf (0x90 :: h ++ pre) post). cbn [app length] in Hf.
    rewrite <- !(assoc_L (++)) in Hf. rewrite Hf in Hg by (rewrite length_app, Hh, Hpre; lia).
    injection Hg as <-. by rewrite Hext. }
  set (p' := with_buffer p b) in *. exists p'.
  assert (Hk : header_kept p p') by done.
  split; [done|]. split; [|done]. split.
  - split; [done|]. exact (write_one_ref _ _ _ E).
  - apply Forall_app in Hfs as [Hfs [Hf1 _]%Forall_cons_1]. apply Forall_app. split; [done|].
    apply Forall_cons_2; [|constructor]. destruct Hf1 as (? & ? & ?). split; [done|]. cbn [fst snd] in *. by rewrite Hl.
  - by rewrite map_app in *.
  - exists h. rewrite Hfb. by split.
  - change (wire p') with (Cow.contents b). rewrite Hw'. rewrite Hw in Hfix. by eapply reads_fixed_head.
  - change (extension_entries_ p') with (extension_entries_ p). rewrite He, !infos_app. cbn [infos fst snd]. by rewrite Hl.
  - rewrite HB. exact Hs.
  - change (payload_offset_ p') with (payload_offset_ p). rewrite Ho, !Hext by done. rewrite !length_app. lia.
  - exact Hps.
  - exact Hpd.
  - by rewrite HB.
Qed.

(** ** Registered extensions *)

(** What a packet with the map [m] carries once [v] is written for [type]:
    nothing if the type is not registered or needs the two-byte form, which the
    map does not allow. *)
Definition allocated (m : RtpHeaderExtensionMap.t) (type : RTPExtensionType) (v : list Z) : list field :=
  match RtpHeaderExtensionMap.GetId m type with
  | Ok id => if (1 <=? id) && (id <=? 14) && (1 <=? length v)%nat && (length v <=? 16)%nat then [(id, v)] else []
  | Fault _ => []
  end.

Lemma allocated_elem m type v f : f ∈ allocated m type v ->
  RtpHeaderExtensionMap.GetId m type = Ok f.1 /\ 1 <= f.1 <= 14 /\ f.2 = v /\ (length v <= 16)%nat.
Proof.
  unfold allocated. destruct (RtpHeaderExtensionMap.GetId m type) as [id|]; [|by intros ?%elem_of_nil].
  destruct (_ && _) eqn:E; [|by intros ?%elem_of_nil]. intros ->%list_elem_of_singleton. cbn [fst snd].
  rewrite !andb_true_iff, !Z.leb_le, !Nat.leb_le in E. by destruct E as [[[? ?] ?] ?].
Qed.

(** Different types have different ids. *)
Lemma allocated_fresh m type type' v id :
  map_ok m -> known type -> known type' -> type <> type' ->
  RtpHeaderExtensionMap.GetId m type = Ok id -> id <> 0 -> id ∉ map fst (allocated m type' v).
Proof.
  intros Hm Hk Hk' Hne E Hid (f & -> & Hf)%list_elem_of_fmap. apply allocated_elem in Hf as (E' & _).
  destruct (GetType_spec m f.1 Hm Hid) as (t' & _ & Ht). apply Hne.
  by rewrite (proj2 (Ht type Hk) E), (proj2 (Ht type' Hk') E').
Qed.

Lemma block_allocated m type v : (length (block (allocated m type v)) <= 1 + length v)%nat.
Proof.
  unfold allocated. destruct (RtpHeaderExtensionMap.GetId m type) as [id|]; [|cbn; lia].
  destruct (_ && _); [|cbn; lia]. rewrite block_one. cbn. lia.
Qed.

(** [f] writes [v] at the offset it is given. *)
Definition writes (f : nat -> list Z -> res (list Z)) (v : list Z) : Prop :=
  (forall off n, (off + length v <= n)%nat -> local_write n (f off) (f off)) /\
  (forall A B C, length B = length v -> f (length A) (A ++ B ++ C) = Ok (A ++ v ++ C)).

Lemma writes_zeros n : writes (fun off d => memset0 d off n) (replicate n 0).
Proof.
  split; [intros off k; rewrite length_replicate; apply local_memset0|].
  intros A B C. rewrite length_replicate. intros <-. rewrite memset0_ok by (rewrite !length_app; lia).
  by rewrite take_app_length, <- drop_drop, !drop_app_length.
Qed.

Lemma writes_bytes v : bytes v -> writes (fun off d => memcpy d off v 0 (length v)) v.
Proof.
  intros Hv. split; [intros off k Hk; by apply local_memcpy|].
  intros A B C Hl. rewrite memcpy_ok by (rewrite ?length_app; lia).
  by rewrite drop_0, firstn_all, take_app_length, <- drop_drop, drop_app_length, <- Hl, drop_app_length.
Qed.

Lemma fill_extension_built fs p type v f :
  built fs p -> map_ok (extensions_ p) -> RtpHeaderExtensionMap.ExtmapAllowMixed (extensions_ p) = false ->
  known type -> bytes v -> writes f v ->
  (forall id, RtpHeaderExtensionMap.GetId (extensions_ p) type = Ok id -> id <> 0 -> id ∉ map fst fs) ->
  (36 + length (block fs) <= capacity p)%nat -> (length (block fs) + 17 <= 1000)%nat ->
  exists b p', fill_extension p type (length v) f = Ok (b, p') /\
    built (fs ++ allocated (extensions_ p) type v) p' /\ header_kept p p'.
Proof.
  intros Hbt Hm Hmix Hk Hv [Hloc Hf] Hfresh Hcap Hsm. unfold fill_extension, AllocateExtension, allocated. rewrite Hmix.
  destruct (GetId_ok (extensions_ p) type Hm) as (id & E & _ & Hid); [unfold known in Hk; lia|]. rewrite E.
  assert (Hsame : exists b p', Ok (false, p) = Ok (b, p') /\ built (fs ++ []) p' /\ header_kept p p').
  { exists false, p. rewrite app_nil_r. by split. }
  unfold in_uw in Hid. unfold kMaxValueSize, kOneByteHeaderExtensionMaxValueSize, kOneByteHeaderExtensionMaxId, RtpHeaderExtensionMap.kInvalidId.
  cbn [negb andb]. destruct (Nat.eqb_spec (length v) 0) as [E0|E0]; cbn [orb].
  { rewrite E0. cbn [Nat.leb]. rewrite andb_false_r. exact Hsame. }
  destruct (Nat.ltb_spec 16 (length v)) as [Hbig|Hsmall]; rewrite ?orb_true_r.
  { rewrite (proj2 (Nat.leb_gt _ 16)), andb_false_r by done. exact Hsame. }
  rewrite (proj2 (Nat.ltb_ge 255 _)), (proj2 (Nat.leb_le 1 _)), (proj2 (Nat.leb_le _ 16)), !andb_true_r by lia. cbn [orb mbind res_bind].
  destruct (Z.eqb_spec id 0) as [->|Hne]; [exact Hsame|].
  destruct (Z.ltb_spec 14 id) as [Hlarge|Hle].
  { rewrite (proj2 (Z.leb_gt _ 14)), andb_false_r by done. exact Hsame. }
  rewrite (proj2 (Z.leb_le 1 id)), (proj2 (Z.leb_le id 14)) by lia. cbn [andb].
  destruct (AllocateRaw_built fs p id (length v)) as (data & p1 & -> & Hl & Hbt1 & Hk1); [done|lia|lia|by apply Hfresh|lia|lia|].
  cbn [mbind res_bind fst snd]. destruct (length v) as [|n] eqn:En; [done|].
  destruct (write_value fs id data v p1 (f (17 + length (block fs))%nat) Hbt1) as (p2 & -> & Hbt2 & Hk2).
  - lia.
  - done.
  - apply Hloc. destruct (bt_wire _ _ Hbt1) as (h & Hh & ->). cbn [length]. rewrite length_app, Hh.
    destruct (ext_bytes_snoc fs id data) as (pre & post & Hpre & Hx). rewrite Hx, !length_app by done. lia.
  - intros A C HA. rewrite <- HA. apply Hf. lia.
  - exists true, p2. split; [done|]. split; [done|]. unfold header_kept in *. intuition congruence.
Qed.

(** ** A new packet with its fixed header *)

Definition fixed_header (payload_type seq_no timestamp ssrc : Z) : list Z :=
  [0x80; payload_type; u8 (Z.shiftr seq_no 8); u8 seq_no;
   u8 (Z.shiftr timestamp 24); u8 (Z.shiftr timestamp 16); u8 (Z.shiftr timestamp 8); u8 timestamp;
   u8 (Z.shiftr ssrc 24); u8 (Z.shiftr ssrc 16); u8 (Z.shiftr ssrc 8); u8 ssrc].

Definition holds (b : Cow.t) (d : list Z) : Prop :=
  cow_ok b /\ Cow.capacity b = kDefaultPacketSize /\ Cow.contents b = d.

Lemma setter f q d d' :
  holds (buffer_ q) d -> local_write (length d) f f -> f d = Ok d' ->
  exists b, write f q = Ok (with_buffer q b) /\ holds b d' /\ Cow.one_ref b = true.
Proof.
  intros (Hc & Hn & Hw) Hloc Hf.
  assert (Hok : buf_ok q) by (split; [done|]; unfold capacity; rewrite Hn; compute_le).
  destruct (write_wire f f q Hok) as (b & E & [Hc' _] & Hn' & Hg); [by rewrite size_wire; unfold wire; rewrite ?Hw|].
  exists b. split; [done|]. split; [|exact (write_one_ref _ _ _ E)]. split; [done|]. unfold capacity in Hn'. cbn in Hn'.
  split; [by rewrite Hn'|]. unfold wire in Hg. rewrite Hw, Hf in Hg. by injection Hg as ->.
Qed.

(** The constructor and the setters of the fixed header. *)
Definition start_packet (m : RtpHeaderExtensionMap.t) (payload_type seq_no timestamp ssrc : Z) : res t :=
  let! p := new m kDefaultPacketSize in
  let! p := SetMarker p false in
  let! p := SetPayloadType p payload_type in
  let! p := SetSequenceNumber p seq_no in
  let! p := SetTimestamp p timestamp in
  SetSsrc p ssrc.

#[local] Ltac members :=
  unfold with_marker, with_payload_type, with_sequence_number, with_timestamp, with_ssrc, with_buffer in *;
  cbn [marker_ payload_type_ padding_size_ sequence_number_ timestamp_ ssrc_ payload_offset_ payload_size_
       extensions_ extension_entries_ extensions_size_ buffer_ mbind res_bind] in *.

(** One setter: the bytes before are those of [Hb], the bytes after are computed. *)
#[local] Ltac step Hb b Hb' Ho :=
  lazymatch goal with |- context [write ?f ?q] =>
    lazymatch type of Hb with holds _ ?d =>
    let d' := fresh "d" in let Hd := fresh "Hd" in
    evar (d' : list Z); assert (Hd : f d = Ok d') by (unfold d'; cbv beta;
      unfold ByteWriter.WriteBigEndian, ByteWriter.WriteBigEndian2, ByteWriter.WriteBigEndian4; cbn [Nat.add]; run; reflexivity);
    unfold d' in Hd; clear d';
    destruct (setter f q d _ Hb ltac:(first [apply local_buf_set | apply local_big_endian]; cbn [length]; lia) Hd)
      as (b & -> & Hb' & Ho); clear Hd
  end end; members.

Lemma data_at_holds q d i x : holds (buffer_ q) d -> d !! i = Some x -> data_at q i = Ok x.
Proof. intros (_ & _ & Hw) E. apply data_at_wire. unfold wire. by rewrite Hw. Qed.

Lemma start_packet_ok m payload_type seq_no timestamp ssrc :
  0 <= payload_type < 128 -> is_u16 seq_no -> is_u32 timestamp -> is_u32 ssrc ->
  exists b, start_packet m payload_type seq_no timestamp ssrc =
      Ok (mk false payload_type 0 seq_no timestamp ssrc kFixedHeaderSize 0 m [] 0 b) /\
    built [] (mk false payload_type 0 seq_no timestamp ssrc kFixedHeaderSize 0 m [] 0 b) /\
    Cow.capacity b = kDefaultPacketSize.
Proof.
  intros Hpt Hseq Hts Hss. unfold start_packet, new.
  destruct (of_size_ok kDefaultPacketSize) as [Hc Hn]; [compute_le|].
  destruct (Clear_ok (mk false 0 0 0 0 0 0 0 m [] 0 (Cow.of_size kDefaultPacketSize)))
    as (p & E & [[Hok0 _] _] & [b0 ->] & Hw0 & _ & Hc0).
  { split; [done|]. unfold capacity. cbn [buffer_]. rewrite Hn. compute_le. }
  rewrite E. members.
  assert (Hb0 : holds b0 (0x80 :: 0 :: replicate 10 0)) by (split; [done|]; split; [|exact Hw0]; etransitivity; [exact Hc0|exact Hn]).
  cbn [replicate] in Hb0. clear E Hc Hn Hok0 Hc0 Hw0.
  unfold SetMarker. members. rewrite (data_at_holds (mk _ _ _ _ _ _ _ _ _ _ _ b0) _ 1 _ Hb0 eq_refl). members. unfold WriteAt.
  step Hb0 b1 Hb1 Ho1.
  unfold SetPayloadType. members. rewrite (data_at_holds (mk _ _ _ _ _ _ _ _ _ _ _ b1) _ 1 _ Hb1 eq_refl). members. unfold WriteAt.
  step Hb1 b2 Hb2 Ho2. unfold SetSequenceNumber. members. step Hb2 b3 Hb3 Ho3.
  unfold SetTimestamp. members. step Hb3 b4 Hb4 Ho4. unfold SetSsrc. members. step Hb4 b5 Hb5 Ho5.
  exists b5. split; [done|]. split; [|apply Hb5].
  destruct Hb5 as (Hc5 & Hn5 & Hw5). set (p := mk _ _ _ _ _ _ _ _ _ _ _ _).
  assert (Hw : wire p = fixed_header payload_type seq_no timestamp ssrc).
  { change (wire p) with (Cow.contents b5). rewrite Hw5. unfold fixed_header.
    assert (Hx : u8 (Z.lor (Z.land (u8 (Z.land 0 0x7f)) 0x80) payload_type) = payload_type)
      by (cbn [Z.land]; rewrite Z.lor_0_l; apply uw_small; unfold in_uw; lia).
    by rewrite Hx. }
  split; try done.
  - split; [|done]. split; [done|]. unfold capacity. cbn [buffer_ p]. rewrite Hn5. compute_le.
  - constructor.
  - eexists. split; [|rewrite Hw; unfold fixed_header; cbn [ext_bytes first_byte]; rewrite app_nil_r; reflexivity]. done.
  - rewrite Hw. exists payload_type. split; [done|].
    assert (Hpb : is_byte payload_type) by (unfold in_uw; lia).
    split; [|split; [|split; [|split]]].
    + cbn [marker_ p]. symmetry. rewrite has_bit7. by apply (in_uw_testbit 7).
    + cbn [payload_type_ p]. symmetry. change 0x7f with (Z.ones 7). rewrite Z.land_ones by lia. apply Z.mod_small. lia.
    + exact (f_equal Ok (be16_roundtrip _ Hseq)).
    + exact (f_equal Ok (be32_roundtrip _ Hts)).
    + exact (f_equal Ok (be32_roundtrip _ Hss)).
  - cbn. lia.
Qed.

End Build.
