(* ===== verification/RtpPacketGuarantees.v ===== *)
(** * RtpPacketGuarantees: what [RtpPacket] promises its users *)

From S2P Require Import Prelude.
From S2P Require Import ByteIo.
From S2P Require Import CowBuffer.
From S2P Require Import RtpExtensions.
From S2P Require Import RtpPacketModel.
From S2P Require Import RtpPacketLaws.
From S2P Require Import RtpPacketOps.
From S2P Require Import RtpPacketSession.
Import RtpPacket.

(** The header as the getters report it. *)
Definition header_of (p : t) :=
  (Marker p, PayloadType p, SequenceNumber p, Timestamp p, Ssrc p,
   headers_size p, payload_size p, padding_size p, extension_entries_ p).

Lemma reads_header d q q' : reads d q -> reads d q' -> header_of q = header_of q'.
Proof.
  intros Hq Hq'. set (q2 := with_buffer (IdentifyExtensions q' (extensions_ q)) (buffer_ q)).
  assert (H2 : reads d q2) by exact Hq'.
  destruct (reads_unique d q q2 Hq H2) as [n E]; [done|].
  apply (f_equal header_of) in E. symmetry. exact E.
Qed.

(** ** Properties *)

(** C24. [RtpPacket::Parse] on arbitrary bytes, whatever the packet held before:
    it returns without reading outside the buffer and without looping, accepts
    exactly the datagrams that have a reading as an RTP packet (version, CSRC
    list, extension block and padding all inside the datagram), and then holds
    a copy of the bytes, header members equal to that reading, distinct
    extension ids, and extension windows inside the header.  A rejected
    datagram leaves the packet reset. *)
Theorem Parse_exact `{Heap} p d :
  buf_ok p -> bytes d ->
  exists b p', Parse p d = Ok (b, p') /\ (b = true <-> exists q, reads d q) /\
    (b = true -> wire p' = d /\ reads d p' /\ size p' = length d /\
       entries_ok kFixedHeaderSize (headers_size p') (extension_entries_ p')) /\
    (b = false -> wire p' = cleared_wire /\ consistent p').
Proof.
  intros Hp Hd. destruct (Parse_ok p d Hp Hd) as (b & p' & E & Hc & _ & Ht & Hf).
  exists b, p'. split; [done|]. split; [|split].
  - split; [intros ->; exists p'; rewrite <- (Ht eq_refl); apply Hc|].
    intros [q Hq]. destruct b; [done|]. by destruct (proj2 (Hf eq_refl) q).
  - intros ->. specialize (Ht eq_refl). subst d. destruct (consistent_size p' Hc) as (Hl & Hb & _).
    split; [done|]. split; [apply Hc|]. split; [done|]. by apply (reads_offset (wire p')), Hc.
  - intros ->. by destruct (Hf eq_refl).
Qed.

(** A 20-byte packet with one CSRC and one payload byte before the padding. *)
Definition sample_datagram : list Z :=
  [0xa1; 0x60; 0; 7; 0; 0; 0; 9; 0; 0; 0; 5; 0; 0; 0; 3; 42; 0; 0; 3].

Lemma Parse_exact_witness :
  exists p p', new (RtpHeaderExtensionMap.new false) 64 = Ok p /\
    Parse p sample_datagram = Ok (true, p') /\ payload_size p' = 1%nat /\
    wire p' = sample_datagram.
Proof.
  destruct (new (RtpHeaderExtensionMap.new false) 64) as [p|] eqn:E; [|vm_compute in E; discriminate E].
  destruct (new_packet_ok (RtpHeaderExtensionMap.new false) 64) as (p0 & E0 & Hc & _);
    [compute_le|].
  assert (p0 = p) as -> by congruence.
  destruct (Parse_exact p sample_datagram) as (b & p' & Ep & _ & Ht & _);
    [apply Hc|compute_bytes|].
  exists p, p'. split; [done|].
  vm_compute in E. injection E as <-. vm_compute in Ep. injection Ep as <- <-.
  split; [vm_compute; reflexivity|]. split; [reflexivity|]. apply Ht. reflexivity.
Defined.


Lemma fresh_reachable cap p :
  (kFixedHeaderSize <= cap)%nat -> new (RtpHeaderExtensionMap.new false) cap = Ok p -> reachable p.
Proof. intros. eapply reachable_new; [apply RtpExtensions.new_ok|done..]. Qed.




(** ** Two defects of the extension code *)

Definition one_extension_map : RtpHeaderExtensionMap.t :=
  RtpHeaderExtensionMap.mk
    (<[type_index kRtpExtensionAbsoluteSendTime := 3]> (replicate 22 0)) false.


(** [RemoveExtension] rebuilds the packet without its CSRC list: removing an
    extension from a packet that carries a contributing source silently drops
    the source. *)
Lemma RemoveExtension_drops_csrcs :
  exists p0 p1 v p2 p3, new one_extension_map 64 = Ok p0 /\
    SetCsrcs p0 [77] = Ok p1 /\
    AllocateExtension p1 kRtpExtensionAbsoluteSendTime 3 = Ok (Some v, p2) /\
    Csrcs p2 = Ok [77] /\
    RemoveExtension p2 kRtpExtensionAbsoluteSendTime = Ok (true, p3) /\ Csrcs p3 = Ok [].
Proof.
  do 5 eexists. split; [vm_compute; reflexivity|]. split; [vm_compute; reflexivity|].
  split; [vm_compute; reflexivity|]. split; [vm_compute; reflexivity|].
  split; vm_compute; reflexivity.
Qed.
