(* ===== verification/FecReceivers.v ===== *)
(** * FecReceivers: [ulpfec_receiver.{h,cc}] and [flexfec_receiver.{h,cc}]

    The receivers sit between the RTP stack and [DecodeFec]: they demultiplex
    packets, strip the RED encapsulation (ULPFEC), hand everything to the
    decoder and deliver media packets, received and recovered, through a
    callback.  The callback is modelled by the list of packets handed to it
    (it does not call back into the receiver); the clock by the argument
    [now]; [Timestamp::MinusInfinity()] by [None]. *)

From S2P Require Import Prelude.
From S2P Require Import CowBuffer.
From S2P Require Import RtpExtensions.
From S2P Require Import RtpPacketModel.
From S2P Require Import FecTypes.
From S2P Require Import UlpfecHeader.
From S2P Require Import Flexfec03Header.
From S2P Require Import FecDecoder.

(** [RtpPacketReceived]: an [RtpPacket] and the flag the receivers use. *)
Record RtpPacketReceived : Type := mkRtpPacketReceived {
  rtp_packet : RtpPacket.t;
  recovered : bool
}.

Record FecPacketCounter : Type := mkFecPacketCounter {
  num_packets : nat;
  num_bytes : nat;
  num_fec_packets : nat;
  num_recovered_packets : nat;
  first_packet_time : option Z
}.

Definition empty_counter : FecPacketCounter := mkFecPacketCounter 0 0 0 0 None.

(** A [ReceivedPacket] with its [extensions] member. *)
Abbreviation Received := (ReceivedPacket * RtpHeaderExtensionMap.t)%type.

Definition with_pkt (rp : ReceivedPacket) (pkt : Packet) : ReceivedPacket :=
  mkReceivedPacket (rp_ssrc rp) (rp_seq_num rp) (rp_is_fec rp) (rp_is_recovered rp) pkt.

(** [recovered_packet->returned = true]. *)
Definition set_returned (r : RecoveredPacket) : RecoveredPacket :=
  mkRecoveredPacket (rec_ssrc r) (rec_seq_num r) (rec_was_recovered r) true (rec_pkt r).

Definition count_recovered (c : FecPacketCounter) : FecPacketCounter :=
  mkFecPacketCounter (num_packets c) (num_bytes c) (num_fec_packets c)
    (num_recovered_packets c + 1) (first_packet_time c).

Section Delivery.
Context `{Heap}.

(** The loop over [recovered_packets_] both receivers end with: packets not
    yet returned are marked, counted, parsed and delivered.  [check_size] is
    FlexFEC's [RTC_CHECK_GE(data.size(), kRtpHeaderSize)]. *)
Definition deliver_recovered (check_size : bool) (extensions : RtpHeaderExtensionMap.t)
    (st : list RecoveredPacket * FecPacketCounter * list RtpPacketReceived)
    (r : RecoveredPacket)
    : res (list RecoveredPacket * FecPacketCounter * list RtpPacketReceived) :=
  let '(done, counter, out) := st in
  if rec_returned r then Ok (done ++ [r], counter, out) else
  let counter := count_recovered counter in
  let r := set_returned r in
  let! _ := rtc_check (negb check_size || (kRtpHeaderSize <=? length (rec_pkt r))%nat) in
  let! parsed_packet := RtpPacket.new extensions kDefaultPacketSize in
  let! p := RtpPacket.ParseCow parsed_packet (Cow.of_data (rec_pkt r)) in
  if negb p.1 then Ok (done ++ [r], counter, out) else
  Ok (done ++ [r], counter, out ++ [mkRtpPacketReceived p.2 true]).

End Delivery.

Module UlpfecReceiver.

Record t : Type := mk {
  ssrc_ : Z;
  ulpfec_payload_type_ : Z;
  fec_ : Decoder;
  received_packets_ : list Received;
  recovered_packets_ : list RecoveredPacket;
  packet_counter_ : FecPacketCounter
}.

(** The constructor: [CreateUlpfec(ssrc_)]. *)
Definition new (ssrc ulpfec_payload_type : Z) : t :=
  mk ssrc ulpfec_payload_type (mkDecoder ssrc ssrc []) [] [] empty_counter.

Definition GetPacketCounter := packet_counter_.

Definition kRedHeaderLength : nat := 1.

Section WithHeap.
Context `{Heap}.

(** The packet without its RED header: a FEC packet is what follows it, a
    media packet is the RTP packet with the payload type it announces. *)
Definition strip_red (p : RtpPacket.t) (is_fec : bool) (payload_type : Z) : res Packet :=
  let hs := RtpPacket.headers_size p in
  if is_fec then
    Ok (Cow.contents (Cow.Slice (RtpPacket.buffer_ p) (hs + kRedHeaderLength)
                        (RtpPacket.payload_size p - kRedHeaderLength)))
  else
    let data := Cow.EnsureCapacity (Cow.mk None 0 0 true) (RtpPacket.size p - kRedHeaderLength) in
    let! header := RtpPacket.window p 0 hs in
    let data := Cow.SetData data header in
    let! data := Cow.mutate (fun d =>
      let! b := buf_get d 1 in
      let! d := buf_set d 1 (Z.land b 0x80) in
      let! b := buf_get d 1 in
      buf_set d 1 (b + payload_type)) data in
    let! rest := RtpPacket.window p (hs + kRedHeaderLength)
                   (RtpPacket.size p - hs - kRedHeaderLength) in
    Ok (Cow.contents (Cow.AppendData data rest)).

Definition AddReceivedRedPacket (r : t) (now : Z) (packet : RtpPacketReceived) : res (bool * t) :=
  let p := rtp_packet packet in
  if negb (RtpPacket.Ssrc p =? ssrc_ r) then Ok (false, r) else
  if (IP_PACKET_SIZE <? RtpPacket.size p)%nat then Ok (false, r) else
  if (RtpPacket.payload_size p =? 0)%nat then Ok (false, r) else
  let! b := RtpPacket.data_at p (RtpPacket.headers_size p) in
  let payload_type := Z.land b 0x7f in
  let is_fec := payload_type =? ulpfec_payload_type_ r in
  if has_bits b 0x80 then Ok (false, r) else
  let c := packet_counter_ r in
  let counter := mkFecPacketCounter (num_packets c + 1) (num_bytes c + RtpPacket.size p)
    (if is_fec then num_fec_packets c + 1 else num_fec_packets c)%nat
    (num_recovered_packets c) (Some (default now (first_packet_time c))) in
  let! pkt := strip_red p is_fec payload_type in
  let received := (mkReceivedPacket (RtpPacket.Ssrc p) (RtpPacket.SequenceNumber p) is_fec
                     (recovered packet) pkt, RtpPacket.extensions_ p) in
  Ok (true, mk (ssrc_ r) (ulpfec_payload_type_ r) (fec_ r)
              (if (0 <? length pkt)%nat then received_packets_ r ++ [received]
               else received_packets_ r)
              (recovered_packets_ r) counter).

(** What the first loop of [ProcessReceivedFec] threads. *)
Record Progress : Type := mkProgress {
  pg_fec : Decoder;
  pg_recovered : list RecoveredPacket;
  pg_out : list RtpPacketReceived;
  pg_last_map : option RtpHeaderExtensionMap.t;
  pg_num : nat
}.

(** [packet->data] for the decoder, and the media packet delivered; [None] is
    the [continue] of a corrupted media packet. *)
Definition prepare_received (received : Received)
    : res (option (ReceivedPacket * list RtpPacketReceived)) :=
  let '(rp, extensions) := received in
  if rp_is_fec rp then Ok (Some (rp, [])) else
  let! p0 := RtpPacket.new extensions kDefaultPacketSize in
  let! parsed := RtpPacket.ParseCow p0 (Cow.of_data (rp_pkt rp)) in
  if negb parsed.1 then Ok None else
  let! zeroed := RtpPacket.ZeroMutableExtensions parsed.2 in
  Ok (Some (with_pkt rp (Cow.contents (RtpPacket.buffer_ zeroed)),
            [mkRtpPacketReceived parsed.2 false])).

Definition process_received (st : Progress) (received : Received) : res Progress :=
  let! prepared := prepare_received received in
  match prepared with
  | None => Ok st
  | Some (rp, out) =>
      let st := mkProgress (pg_fec st) (pg_recovered st) (pg_out st ++ out)
                           (pg_last_map st) (pg_num st) in
      if rp_is_recovered rp then Ok st else
      let! (fec, recs, n, _) := DecodeFec (R := Ulpfec.UlpfecHeaderReader) (pg_fec st) rp (pg_recovered st) in
      Ok (mkProgress fec recs (pg_out st) (Some received.2) (pg_num st + n))
  end.

(** The packets handed to the callback, in order. *)
Definition ProcessReceivedFec (r : t) : res (t * list RtpPacketReceived) :=
  let! st := foldM process_received (received_packets_ r)
               (mkProgress (fec_ r) (recovered_packets_ r) [] None 0) in
  if (pg_num st =? 0)%nat then
    Ok (mk (ssrc_ r) (ulpfec_payload_type_ r) (pg_fec st) [] (pg_recovered st)
          (packet_counter_ r), pg_out st)
  else
    let extensions := default (RtpHeaderExtensionMap.new false) (pg_last_map st) in
    let! (recs, counter, out) := foldM (deliver_recovered false extensions) (pg_recovered st)
                                   ([], packet_counter_ r, pg_out st) in
    Ok (mk (ssrc_ r) (ulpfec_payload_type_ r) (pg_fec st) [] recs counter, out).

End WithHeap.
End UlpfecReceiver.

Module FlexfecReceiver.

Definition kMinFlexfecHeaderSize : nat := 20.

Record t : Type := mk {
  ssrc_ : Z;
  protected_media_ssrc_ : Z;
  erasure_code_ : Decoder;
  recovered_packets_ : list RecoveredPacket;
  packet_counter_ : FecPacketCounter
}.

(** The constructor: [CreateFlexfec(ssrc, protected_media_ssrc)]. *)
Definition new (ssrc protected_media_ssrc : Z) : t :=
  mk ssrc protected_media_ssrc (mkDecoder ssrc protected_media_ssrc []) [] empty_counter.

Definition GetPacketCounter := packet_counter_.

Section WithHeap.
Context `{Heap}.

Definition AddReceivedPacket (r : t) (packet : RtpPacketReceived)
    : res (option Received * t) :=
  let p := rtp_packet packet in
  let c := packet_counter_ r in
  let count is_fec := mk (ssrc_ r) (protected_media_ssrc_ r) (erasure_code_ r)
    (recovered_packets_ r)
    (mkFecPacketCounter (num_packets c + 1) (num_bytes c)
       (if is_fec : bool then num_fec_packets c + 1 else num_fec_packets c)%nat
       (num_recovered_packets c) (first_packet_time c)) in
  let received is_fec pkt :=
    (mkReceivedPacket (RtpPacket.Ssrc p) (RtpPacket.SequenceNumber p) is_fec false pkt,
     RtpPacket.extensions_ p) in
  if RtpPacket.Ssrc p =? ssrc_ r then
    if (RtpPacket.payload_size p <? kMinFlexfecHeaderSize)%nat then Ok (None, r) else
    let pkt := Cow.contents (Cow.Slice (RtpPacket.buffer_ p) (RtpPacket.headers_size p)
                               (RtpPacket.payload_size p)) in
    Ok (Some (received true pkt), count true)
  else
    if negb (RtpPacket.Ssrc p =? protected_media_ssrc_ r) then Ok (None, r) else
    let packet_copy := RtpPacket.with_buffer p (Cow.share (RtpPacket.buffer_ p)) in
    let! zeroed := RtpPacket.ZeroMutableExtensions packet_copy in
    Ok (Some (received false (Cow.contents (RtpPacket.buffer_ zeroed))), count false).

Definition ProcessReceivedPacket (r : t) (received : Received)
    : res (t * list RtpPacketReceived) :=
  let! (fec, recs, n, _) :=
    DecodeFec (R := Flexfec03.Flexfec03HeaderReader) (erasure_code_ r) received.1 (recovered_packets_ r) in
  if (n =? 0)%nat then
    Ok (mk (ssrc_ r) (protected_media_ssrc_ r) fec recs (packet_counter_ r), [])
  else
    let! (recs, counter, out) := foldM (deliver_recovered true received.2) recs
                                   ([], packet_counter_ r, []) in
    Ok (mk (ssrc_ r) (protected_media_ssrc_ r) fec recs counter, out).

Definition OnRtpPacket (r : t) (packet : RtpPacketReceived)
    : res (t * list RtpPacketReceived) :=
  if recovered packet then Ok (r, []) else
  let! (received_packet, r1) := AddReceivedPacket r packet in
  match received_packet with
  | None => Ok (r1, [])
  | Some received => ProcessReceivedPacket r1 received
  end.

End WithHeap.
End FlexfecReceiver.
