(* ===== verification/PeelingFresh.v ===== *)
(** * PeelingFresh: which packets one [DecodeFec] call adds to the list

    The receivers deliver the packets of the recovered list whose [returned]
    flag is not set.  Within a session ([Peeling]) those are exactly the
    packets the last call repaired, and none of them was known before. *)

From S2P Require Import Prelude.
From S2P Require Import FecTypes.
From S2P Require Import FecDecoder.
From S2P Require Import DecoderLemmas.
From S2P Require Import DecoderSafety.
From S2P Require Import DecoderSound.
From S2P Require Import WindowSort.
From S2P Require Import Peeling.

Section Fresh.
Context {R : FecHeaderReader} {RL : FecReaderLaws R}.
Context (media_ssrc : Z) (orig : Z -> option Packet) (mbase : Z).
Hypothesis Hstream : stream_ok media_ssrc orig mbase.
Context (session : list ReceivedPacket).
Hypothesis Hsession : session_ok media_ssrc orig session.

Definition media_received (q : Z) : Prop :=
  exists rp, rp ∈ session /\ rp_is_fec rp = false /\ rp_seq_num rp = q.

(** From [old], [new] has grown by media packets received (returned already)
    and, when [n] repairs happened, by repaired ones. *)
Record grown (old new : list RecoveredPacket) (repairs : nat) : Prop := {
  gr_known : forall q, q ∈ known old -> q ∈ known new;
  gr_new : forall r, r ∈ new -> r ∈ old \/ ((rec_seq_num r ∉ known old) /\
    ((rec_returned r = true /\ media_received (rec_seq_num r)) \/
     (rec_returned r = false /\ (0 < repairs)%nat)))
}.

Lemma grown_refl l n : grown l l n.
Proof. split; [done|]. by left. Qed.

Lemma grown_trans l1 l2 l3 n m :
  grown l1 l2 n -> grown l2 l3 m -> grown l1 l3 (n + m).
Proof.
  intros [K1 N1] [K2 N2]. split; [by auto|]. intros r Hr.
  destruct (N2 r Hr) as [Hin|[Hno Hflag]].
  - destruct (N1 r Hin) as [?|[? [?|[? ?]]]]; [by left|right; by auto|].
    right. split; [done|]. right. split; [done|lia].
  - right. split; [by auto|]. destruct Hflag as [?|[? ?]]; [by left|right; split; [done|lia]].
Qed.

Lemma recovery_step_grown done a a' :
  attempt_ok a -> peeled media_ssrc orig session done (at_st a) (at_recovered a) ->
  (held (at_st a) (at_recovered a) <= MaxTrackedPackets)%nat ->
  recovery_step a = Ok (Some a') ->
  exists k, at_num a' = (at_num a + k)%nat /\ grown (at_recovered a) (at_recovered a') k.
Proof.
  intros Ha [Hinv Hmed Hfec] Hheld. unfold recovery_step.
  destruct (received_fec_packets_ (at_st a) !! at_it a) as [fp|] eqn:Hfp; [|done].
  pose proof (list_elem_of_lookup_2 _ _ _ Hfp) as Hin.
  pose proof (pi_sound _ _ _ _ _ Hinv) as Hsound.
  assert (Hstay : forall st l it, Some (mkAttempt st (at_recovered a) (at_num a) l it) = Some a' ->
    exists k, at_num a' = (at_num a + k)%nat /\ grown (at_recovered a) (at_recovered a') k).
  { intros st l it [= <-]. exists 0%nat. split; [cbn; lia|apply grown_refl]. }
  destruct (Nat.eqb_spec (NumCoveredPacketsMissing (fp_protected_packets fp)) 1) as [H1|H1].
  - destruct (repair_sound _ _ (so_orig _ _ _ Hstream) _ _ _ _ Hsound Hfp H1) as (pm & lost & Hm & Ho & ->).
    cbn [mbind res_bind].
    destruct (repair_learn _ _ _ Hstream session _ _ _ _ _ Hinv Hin Hm Ho Hheld)
      as (rec' & Epub & _ & Hperm).
    destruct (repair_recoverable _ _ _ _ _ _ _ Hinv Hin Hm) as (_ & Hnew & _).
    pose proof (publish_sub (at_recovered a) (mkRecoveredPacket media_ssrc (pp_seq_num pm) true false lost)) as Hsub.
    rewrite Epub in *. cbn [fst] in Hsub. intros [= <-]. exists 1%nat. cbn.
    split; [lia|]. split.
    + intros q Hq. rewrite Hperm. by right.
    + intros r Hr. destruct (Hsub r Hr) as [?| ->]; [by left|right]. cbn. split; [done|]. right. split; [done|lia].
  - intros (old & _ & H2)%bind_ok_inv. destruct old; injection H2 as H2; eapply Hstay; by f_equal.
Qed.

Lemma recovery_loop_grown done fuel : forall a a',
  attempt_ok a -> peeled media_ssrc orig session done (at_st a) (at_recovered a) ->
  (held (at_st a) (at_recovered a) <= MaxTrackedPackets)%nat ->
  recovery_loop fuel a = Ok a' ->
  exists k, at_num a' = (at_num a + k)%nat /\ grown (at_recovered a) (at_recovered a') k.
Proof.
  induction fuel as [|fuel IH]; intros a a' Ha Hp Hh; [done|]. cbn [recovery_loop].
  intros (next & Hstep & H2)%bind_ok_inv. destruct next as [a2|].
  2:{ injection H2 as <-. exists 0%nat. split; [lia|apply grown_refl]. }
  destruct (recovery_step_ok a Ha) as [[E _]|[[E _]|(a3 & E & Ha' & _ & _ & Hh')]];
    rewrite Hstep in E; [done..|]. injection E as <-.
  destruct (recovery_step_grown done a a2 Ha Hp Hh Hstep) as (k1 & N1 & G1).
  destruct (IH a2 a') as (k2 & N2 & G2);
    [done|exact (recovery_step_peels _ _ _ Hstream _ done a a2 Ha Hp Hh Hstep)|lia|done|].
  exists (k1 + k2)%nat. split; [lia|]. by eapply grown_trans.
Qed.

Lemma InsertPacket_grown done st rp recovered st' recovered' :
  peeled media_ssrc orig session done st recovered -> rp ∈ session ->
  (length recovered < MaxTrackedPackets)%nat ->
  InsertPacket st rp recovered = Ok (st', recovered') -> grown recovered recovered' 0.
Proof.
  intros Hp Hrp Hroom. unfold InsertPacket.
  rewrite (skip_old_fec _ _ _ Hsession st rp (pi_from _ _ _ _ _ (pe_inv _ _ _ _ _ _ Hp)) Hrp).
  intros ([st3 rec3] & H3 & [= <- <-])%bind_ok_inv. destruct (rp_is_fec rp) eqn:Ef.
  - apply bind_ok_inv in H3 as (st4 & _ & [= <- <-]). rewrite Discard_small by lia. apply grown_refl.
  - injection H3 as H3. unfold InsertMediaPacket in H3. destruct (existsb _ _) eqn:Edup.
    { injection H3 as <- <-. rewrite Discard_small by lia. apply grown_refl. }
    injection H3 as _ <-.
    rewrite Discard_small by (rewrite list_sort_length, length_app; cbn; lia). split.
    + intros q Hq. unfold known. rewrite list_sort_perm, map_app. apply elem_of_app. by left.
    + intros r Hr. rewrite list_sort_perm in Hr. apply elem_of_snoc in Hr as [?| ->]; [by left|right].
      cbn. split; [|left; split; [done|by exists rp]]. intros (r' & Heq & Hr')%list_elem_of_fmap.
      apply not_true_iff_false in Edup. apply Edup, existsb_exists.
      exists r'. split; [by apply list_elem_of_In|]. apply Z.eqb_eq. by rewrite <- Heq.
Qed.

(** One call of [DecodeFec] in a session. *)
Lemma DecodeFec_grows done rp rest st recovered :
  session = done ++ rp :: rest -> resting media_ssrc orig session done st recovered ->
  exists st' recovered' n log, DecodeFec st rp recovered = Ok (st', recovered', n, log) /\
    resting media_ssrc orig session (done ++ [rp]) st' recovered' /\ grown recovered recovered' n.
Proof.
  intros Hsplit Hrest.
  destruct (DecodeFec_peels _ _ _ Hstream _ Hsession done rp rest st recovered Hsplit Hrest)
    as (st' & rec' & n & log & Hdec & Hrest'). exists st', rec', n, log.
  split; [done|]. split; [done|]. destruct Hrest as [Hp Hh Hst _].
  assert (Hrp : rp ∈ session) by (rewrite Hsplit; apply elem_of_app; right; left).
  pose proof (se_count _ _ _ Hsession) as Hcount. pose proof (se_fec_count _ _ _ Hsession) as Hfcount.
  rewrite Hsplit, length_app in Hcount. cbn [length] in Hcount.
  assert (Hfc : (fec_count done + fec_count [rp] <= MaxStoredFecPackets)%nat).
  { unfold fec_count. rewrite Hsplit in Hfcount. change (rp :: rest) with ([rp] ++ rest) in Hfcount.
    rewrite !filter_app, !length_app in Hfcount. lia. }
  assert (Hroom : (length recovered < MaxTrackedPackets)%nat) by (unfold held in Hh; lia).
  pose proof (proj1 (Forall_forall _ _) (se_genuine _ _ _ Hsession) rp Hrp) as Hg.
  pose proof (pi_sound _ _ _ _ _ (pe_inv _ _ _ _ _ _ Hp)) as Hsound.
  revert Hdec. unfold DecodeFec. assert (reset_on_gap st rp recovered = (st, recovered)) as ->.
  { unfold reset_on_gap. destruct (last recovered); [|done]. by rewrite (proj2 (Nat.eqb_neq _ _)) by lia. }
  intros ([st2 rec2] & Hins & Hdec)%bind_ok_inv. apply bind_ok_inv in Hdec as (a & Hatt & [= <- <- <- <-]).
  destruct (InsertPacket_ok st rp recovered (ds_ok _ _ _ _ Hsound) (gen_input _ _ _ Hg))
    as (st2' & rec2' & Hins' & Hok2 & _). rewrite Hins in Hins'. injection Hins' as <- <-.
  pose proof (InsertPacket_held _ _ _ _ _ Hins) as Hh2.
  destruct (InsertPacket_peels _ _ _ Hstream _ Hsession done st recovered rp st2 rec2) as [Hp2 _]; [done..|lia|done|].
  assert (Hheld2 : (held st2 rec2 <= MaxTrackedPackets)%nat) by lia.
  pose proof (InsertPacket_grown done st rp recovered st2 rec2 Hp Hrp Hroom Hins) as G1.
  unfold AttemptRecovery in Hatt.
  apply (recovery_loop_grown (done ++ [rp])) in Hatt as (k & Hk & G2);
    [|split; cbn; [done|lia|by rewrite take_0]|done|done].
  cbn in Hk, G2. rewrite Hk.
  by apply (grown_trans _ rec2 _ 0).
Qed.

(** ** The [returned] flag is not the decoder's business *)

Lemma map_returned_known f recovered :
  (forall r, rec_seq_num (f r) = rec_seq_num r) -> known (map f recovered) = known recovered.
Proof. intros Hf. unfold known. rewrite map_map. by apply map_ext. Qed.

Lemma resting_flags f done st recovered :
  (forall r, rec_ssrc (f r) = rec_ssrc r /\ rec_seq_num (f r) = rec_seq_num r /\ rec_pkt (f r) = rec_pkt r) ->
  resting media_ssrc orig session done st recovered ->
  resting media_ssrc orig session done st (map f recovered).
Proof.
  intros Hf [[[[[Hdf Hdc Hdr Hdn] Hss Hrs Hfs] Hsort Hsync Hk Hfrom] Hmed Hfec] Hh Hst Hstuck].
  assert (Hkn : known (map f recovered) = known recovered) by (apply map_returned_known; apply Hf).
  split; [|unfold held in *; by rewrite length_map|done|].
  - split; [split| |]; rewrite ?Hkn; try done.
    + split; [split; [done|done| |by rewrite length_map]|done| |done]; apply List.Forall_map;
        [eapply Forall_impl; [exact Hdr|]|eapply Forall_impl; [exact Hrs|]];
        intros r Hr; destruct (Hf r) as (E1 & E2 & E3).
      * unfold tracked_ok, rec_ok in *. by rewrite E2, E3.
      * unfold rec_sound in *. by rewrite E2, E3.
    + intros rp Hin He. destruct (Hfec rp Hin He) as [Ha|Ha]; [left|by right]. by rewrite Hkn.
  - eapply Forall_impl; [exact Hstuck|]. intros fp [Hm Hold]. split; [done|].
    unfold IsOldFecPacket in *. rewrite fmap_last. destruct (last recovered) as [b|]; [|done]. cbn.
    by rewrite (proj1 (proj2 (Hf b))).
Qed.

End Fresh.
