(* ===== verification/ReceiverLaws.v ===== *)
(** * ReceiverLaws: the steps of the FEC receivers

    What [AddReceivedRedPacket] extracts from a RED packet, what a received
    packet contributes to decoding and to delivery, and the loop that delivers
    recovered packets. *)

From S2P Require Import Prelude.
From S2P Require Import ByteIo.
From S2P Require Import CowBuffer.
From S2P Require Import RtpExtensions.
From S2P Require Import RtpPacketModel.
From S2P Require Import RtpPacketLaws.
From S2P Require Import RtpPacketOps.
From S2P Require Import RtpPacketSession.
From S2P Require Import FecTypes.
From S2P Require Import FecDecoder.
From S2P Require Import FecReceivers.

(** ** The RED encapsulation *)

(** The RTP packet a RED packet [w] with headers of [hs] bytes carries: byte
    [hs] is the RED header, its payload type replaces the RED payload type. *)
Definition red_media (w : list Z) (hs : nat) (payload_type : Z) : list Z :=
  <[1%nat := Z.land (nth 1 w 0) 0x80 + payload_type]> (take hs w) ++ drop (hs + 1) w.

Definition red_fec (w : list Z) (hs payload_size : nat) : list Z :=
  take (payload_size - 1) (drop (hs + 1) w).

Section Laws.
Context `{Heap}.

Lemma window_wire p off n :
  buf_ok p -> (off + n <= length (wire p))%nat ->
  RtpPacket.window p off n = Ok (take n (drop off (wire p))).
Proof.
  intros [Hc _] Hle. unfold RtpPacket.window.
  destruct (cow_ok_view _ Hc) as [_ Hv]. pose proof (length_contents _ Hc) as Hl.
  unfold wire in *. rewrite Hl in Hle.
  rewrite memcpy_ok by (rewrite ?length_replicate; lia). f_equal.
  rewrite take_0, (drop_ge (replicate _ _)) by (rewrite length_replicate; lia). cbn. rewrite app_nil_r.
  unfold Cow.contents. rewrite !take_drop_commute, take_take. f_equal. f_equal. lia.
Qed.

Lemma ensure_fresh n : (0 < n)%nat ->
  cow_ok (Cow.EnsureCapacity (Cow.mk None 0 0 true) n).
Proof.
  intros Hn. unfold Cow.EnsureCapacity. cbn [Cow.buffer_]. rewrite (proj2 (Nat.ltb_lt _ _)) by done.
  apply cow_ok_some. unfold Buffer.of_size. cbn [Buffer.size_ Buffer.data_].
  rewrite length_fresh. split; [lia|apply bytes_fresh].
Qed.

Lemma high_bit b : is_byte b -> Z.land b 0x80 = if has_bits b 0x80 then 128 else 0.
Proof.
  intros Hb. change 0x80 with (2 ^ 7) at 2. rewrite has_bits_pow2 by lia.
  destruct (Z.testbit b 7) eqn:E; byte_eq; by rewrite ?E.
Qed.

(** The byte with the marker of [b] and another payload type. *)
Lemma payload_type_byte b payload_type :
  is_byte b -> 0 <= payload_type < 128 ->
  let x := Z.land b 0x80 + payload_type in
  is_byte x /\ has_bits x 0x80 = has_bits b 0x80 /\ Z.land x 0x7f = payload_type.
Proof.
  intros Hb Hpt. cbv zeta. rewrite high_bit by done.
  assert (Hx : forall x, has_bits x 0x80 = Z.odd (x / 128) /\ Z.land x 0x7f = x mod 128).
  { intros x. split; [|exact (Z.land_ones x 7 ltac:(lia))].
    change 0x80 with (2 ^ 7). rewrite has_bits_pow2, Z.testbit_odd, Z.shiftr_div_pow2 by lia. done. }
  pose proof (Hx ((if has_bits b 128 then 128 else 0) + payload_type)) as [-> ->].
  destruct (has_bits b 128).
  - split; [unfold in_uw; lia|]. replace ((128 + payload_type) / 128) with 1 by (apply Z.div_unique with payload_type; lia).
    split; [done|]. symmetry. apply Z.mod_unique with 1; lia.
  - split; [unfold in_uw; lia|]. rewrite Z.add_0_l, Z.div_small, Z.mod_small by lia. done.
Qed.

(** The two statements that replace the payload type. *)
Lemma replace_payload_type d payload_type :
  bytes d -> (2 <= length d)%nat -> 0 <= payload_type < 128 ->
  (let! b := buf_get d 1 in
   let! d := buf_set d 1 (Z.land b 0x80) in
   let! b := buf_get d 1 in
   buf_set d 1 (b + payload_type)) =
  Ok (<[1%nat := Z.land (nth 1 d 0) 0x80 + payload_type]> d).
Proof.
  intros Hd Hl Hpt. destruct (buf_get_lt d 1) as (b & E & ->); [lia|]. cbn [mbind res_bind].
  rewrite buf_set_ok by lia. cbn [mbind res_bind].
  rewrite (buf_get_ok _ 1%nat (u8 (Z.land b 128))) by (rewrite list_lookup_insert_eq; [done|lia]).
  cbn [mbind res_bind]. rewrite buf_set_ok by (rewrite length_insert; lia).
  rewrite list_insert_insert_eq, (nth_lookup_Some _ _ _ _ E). do 2 f_equal.
  pose proof (bytes_lookup _ _ _ Hd E) as Hb.
  destruct (payload_type_byte b payload_type Hb Hpt) as [Hx _].
  rewrite (uw_small 8 (Z.land b 128)); [by apply uw_small|].
  rewrite high_bit by done. unfold in_uw. destruct (has_bits b 128); lia.
Qed.

Lemma local_payload_type n payload_type :
  (2 <= n)%nat -> 0 <= payload_type < 128 ->
  let f d := (let! b := buf_get d 1 in
              let! d := buf_set d 1 (Z.land b 0x80) in
              let! b := buf_get d 1 in
              buf_set d 1 (b + payload_type)) in
  local_write n f f.
Proof.
  intros Hn Hpt f v Hv Hl. subst f. cbv beta.
  assert (Htb : bytes (take n v)) by by apply Forall_take.
  rewrite !replace_payload_type by (rewrite ?length_take; (done || lia)).
  eexists. split; [done|]. split.
  - rewrite take_insert_lt by lia. rewrite <- !nth_default_eq. do 2 f_equal.
    rewrite !nth_default_eq. destruct (buf_get_lt v 1) as (b & E & _); [lia|].
    rewrite (nth_lookup_Some _ _ _ _ E), (nth_lookup_Some (take n v) 1 0 b); [done|].
    by rewrite lookup_take_lt by lia.
  - split; [apply length_insert|]. apply Forall_insert; [done|].
    apply payload_type_byte; [|done]. destruct (buf_get_lt v 1) as (b & E & _); [lia|].
    rewrite (nth_lookup_Some _ _ _ _ E). by apply (bytes_lookup _ _ _ Hv E).
Qed.

Lemma strip_red_ok p payload_type :
  consistent p -> (0 < RtpPacket.payload_size p)%nat -> 0 <= payload_type < 128 ->
  UlpfecReceiver.strip_red p true payload_type =
    Ok (red_fec (wire p) (RtpPacket.headers_size p) (RtpPacket.payload_size p)) /\
  UlpfecReceiver.strip_red p false payload_type =
    Ok (red_media (wire p) (RtpPacket.headers_size p) payload_type).
Proof.
  intros Hp Hps Hpt. destruct (consistent_size p Hp) as (Hsz & Hby & Hhs). pose proof Hp as [Hok _].
  assert (Htot : (RtpPacket.headers_size p + RtpPacket.payload_size p <= length (wire p))%nat).
  { rewrite Hsz. unfold RtpPacket.size, RtpPacket.headers_size, RtpPacket.payload_size. lia. }
  change (RtpPacket.payload_offset_ p) with (RtpPacket.headers_size p) in Hhs.
  set (hs := RtpPacket.headers_size p) in *. set (ps := RtpPacket.payload_size p) in *.
  unfold UlpfecReceiver.strip_red. fold hs ps. unfold UlpfecReceiver.kRedHeaderLength. split.
  { destruct (Slice_spec (RtpPacket.buffer_ p) (hs + 1) (ps - 1)) as [_ ->]; [apply Hok| |done].
    rewrite size_wire by done. lia. }
  rewrite <- Hsz, !window_wire by (done || lia). cbn [mbind res_bind]. rewrite drop_0.
  assert (Hhb : bytes (take hs (wire p))) by by apply Forall_take.
  assert (Hhl : length (take hs (wire p)) = hs) by (rewrite length_take; lia).
  unfold kFixedHeaderSize in *.
  destruct (SetData_spec (Cow.EnsureCapacity (Cow.mk None 0 0 true) (length (wire p) - 1))
    (take hs (wire p))) as (Hc & Hcon & Hs); [apply ensure_fresh; lia|done|lia|].
  set (data := Cow.SetData _ _) in *.
  assert (Hcap : (0 < Cow.capacity data)%nat)
    by (rewrite <- length_view; pose proof (cow_ok_view _ Hc) as [_ ?]; lia).
  destruct (mutate_local _ _ data Hc Hcap (local_payload_type (Cow.size_ data) payload_type ltac:(lia) Hpt))
    as (b' & -> & Hc' & Hcap' & _ & Hf). cbn [mbind res_bind].
  rewrite Hcon, replace_payload_type in Hf by (done || lia). injection Hf as Hf.
  destruct (AppendData_spec b' (take (length (wire p) - hs - 1) (drop (hs + 1) (wire p)))) as [_ ->];
    [done|lia|by apply Forall_take, Forall_drop|].
  unfold red_media. rewrite <- Hf, (take_ge (drop _ _)) by (rewrite length_drop; lia).
  destruct (buf_get_lt (wire p) 1) as (b & E & _); [lia|].
  rewrite (nth_lookup_Some _ _ _ _ E), (nth_lookup_Some (take hs (wire p)) 1 0 b); [done|].
  by rewrite lookup_take_lt by lia.
Qed.

(** What the receiver must find in the stripped packet. *)
Definition red_reading (p : RtpPacket.t) (payload_type : Z) : RtpPacket.t :=
  let q := RtpPacket.with_payload_type p payload_type in
  RtpPacket.with_sizes q (RtpPacket.payload_offset_ p) (RtpPacket.payload_size_ p - 1)
    (RtpPacket.padding_size_ p).

Lemma red_media_lookup p payload_type i :
  consistent p -> (0 < RtpPacket.payload_size p)%nat ->
  let hs := RtpPacket.headers_size p in
  red_media (wire p) hs payload_type !! i =
    if (i =? 1)%nat then Some (Z.land (nth 1 (wire p) 0) 0x80 + payload_type)
    else if (i <? hs)%nat then wire p !! i else wire p !! (i + 1)%nat.
Proof.
  intros Hp Hps hs. destruct (consistent_size p Hp) as (Hsz & _ & Hhs).
  change (RtpPacket.payload_offset_ p) with hs in Hhs. unfold kFixedHeaderSize in Hhs.
  assert (Htot : (hs + RtpPacket.payload_size p <= length (wire p))%nat).
  { rewrite Hsz. unfold hs, RtpPacket.size, RtpPacket.headers_size, RtpPacket.payload_size. lia. }
  assert (Hhl : length (take hs (wire p)) = hs) by (rewrite length_take; lia).
  unfold red_media. destruct (Nat.eqb_spec i 1) as [->|Hne].
  { rewrite lookup_app_l by (rewrite length_insert; lia). rewrite list_lookup_insert_eq; [done|lia]. }
  destruct (Nat.ltb_spec i hs).
  - rewrite lookup_app_l by (rewrite length_insert; lia).
    by rewrite list_lookup_insert_ne, lookup_take_lt by lia.
  - rewrite lookup_app_r, length_insert, Hhl, lookup_drop by (rewrite length_insert; lia).
    f_equal. lia.
Qed.

Lemma red_media_length p payload_type :
  consistent p -> (0 < RtpPacket.payload_size p)%nat ->
  S (length (red_media (wire p) (RtpPacket.headers_size p) payload_type)) = length (wire p).
Proof.
  intros Hp Hps. destruct (consistent_size p Hp) as (Hsz & _ & Hhs).
  unfold red_media. rewrite length_app, length_insert, length_take, length_drop, Hsz.
  unfold RtpPacket.size, RtpPacket.headers_size, RtpPacket.payload_size in *. lia.
Qed.

(** Removing the first payload byte of a datagram. *)
Lemma pad_layout_drop1 d d' b0 po ps pad :
  pad_layout d b0 po = Some pad -> length d = (po + S ps + pad)%nat -> S (length d') = length d ->
  (forall i, (po <= i)%nat -> d' !! i = d !! (i + 1)%nat) -> pad_layout d' b0 po = Some pad.
Proof.
  intros Hpad Hlen Hlen' Hlook. unfold pad_layout in *.
  rewrite (proj2 (Nat.ltb_lt po (length d))) in Hpad by lia.
  destruct (has_bits b0 0x20); cbn [andb] in *.
  - destruct (d !! (length d - 1)%nat) as [b|] eqn:Eb; [|done].
    destruct ((Z.to_nat b =? 0)%nat || _) eqn:E; [done|]. injection Hpad as <-.
    apply orb_false_iff in E as [E0%Nat.eqb_neq E1%Nat.ltb_ge].
    rewrite (proj2 (Nat.ltb_lt po (length d'))) by lia.
    rewrite Hlook by lia.
    replace (length d' - 1 + 1)%nat with (length d - 1)%nat by lia. rewrite Eb.
    rewrite (proj2 (Nat.eqb_neq _ _)), (proj2 (Nat.ltb_ge _ _)) by lia. done.
  - rewrite (proj2 (Nat.ltb_ge _ _)) in Hpad by lia. by rewrite (proj2 (Nat.ltb_ge _ _)) by lia.
Qed.

(** Stripping keeps the packet well-formed: same header but for the payload
    type, same extensions, same padding, one payload byte less. *)
Lemma red_media_reads p payload_type :
  consistent p -> (0 < RtpPacket.payload_size p)%nat -> 0 <= payload_type < 128 ->
  bytes (red_media (wire p) (RtpPacket.headers_size p) payload_type) /\
  reads (red_media (wire p) (RtpPacket.headers_size p) payload_type) (red_reading p payload_type).
Proof.
  intros Hp Hps Hpt. destruct (consistent_size p Hp) as (Hsz & Hby & Hhs).
  destruct (consistent_b1 p Hp) as (b1 & E1 & Hb1 & _ & _ & _). pose proof Hp as [Hok Hr].
  destruct (payload_type_byte b1 payload_type Hb1 Hpt) as (Hx & Hm & Hl).
  set (x := Z.land b1 0x80 + payload_type) in *.
  (* first the payload type, then the RED header *)
  set (d1 := <[1%nat := x]> (wire p)). set (q1 := RtpPacket.with_payload_type p payload_type).
  assert (Hd1 : bytes d1) by by apply Forall_insert.
  assert (Hr1 : reads d1 q1).
  { destruct (reads_reads_fixed _ _ Hr) as (b1' & E1' & M & P & R2 & R4 & R8). simplify_eq.
    apply (reads_relayout (wire p) d1 p); try done.
    - apply length_insert.
    - by unfold d1; rewrite list_lookup_insert_ne.
    - intros i Hi _. unfold d1. rewrite list_lookup_insert_ne; [done|].
      unfold kFixedHeaderSize in Hi. lia.
    - exists x. unfold d1. rewrite list_lookup_insert_eq by by apply lookup_lt_Some in E1.
      split; [done|]. split; [by rewrite Hm|]. split; [done|]. cbn.
      split; [|split]; [rewrite <- R2; apply read2_local|rewrite <- R4; apply read4_local; intros k Hk
        |rewrite <- R8; apply read4_local; intros k Hk]; rewrite list_lookup_insert_ne; (done || lia). }
  assert (Hps' : exists ps, RtpPacket.payload_size p = S ps) by (exists (RtpPacket.payload_size p - 1)%nat; lia).
  destruct Hps' as [ps Eps]. pose proof (red_media_length p payload_type Hp Hps) as Hlen.
  pose proof (fun i => red_media_lookup p payload_type i Hp Hps) as Hlook. cbv zeta in Hlook.
  rewrite (nth_lookup_Some _ _ _ _ E1) in Hlook. fold x in Hlook.
  set (d2 := red_media _ _ _) in *. change (RtpPacket.payload_offset_ p) with (RtpPacket.headers_size p) in Hhs.
  unfold kFixedHeaderSize in Hhs.
  assert (Hlow : forall i, (i < RtpPacket.headers_size p)%nat -> d2 !! i = d1 !! i).
  { intros i Hi. rewrite Hlook, (proj2 (Nat.ltb_lt _ _)) by done. unfold d1.
    destruct (Nat.eqb_spec i 1) as [->|]; [by rewrite list_lookup_insert_eq by by apply lookup_lt_Some in E1|].
    by rewrite list_lookup_insert_ne. }
  assert (Hhigh : forall i, (RtpPacket.headers_size p <= i)%nat -> d2 !! i = d1 !! (i + 1)%nat).
  { intros i Hi. rewrite Hlook, (proj2 (Nat.ltb_ge _ _)), (proj2 (Nat.eqb_neq _ _)) by lia.
    unfold d1. by rewrite list_lookup_insert_ne by lia. }
  split.
  { apply Forall_lookup. intros i b Hb. destruct (decide (i < RtpPacket.headers_size p)%nat);
      [rewrite Hlow in Hb by done|rewrite Hhigh in Hb by lia]; exact (bytes_lookup _ _ _ Hd1 Hb). }
  destruct Hr1 as (L1 & b0 & b1' & B0 & Hr1').
  assert (Hld : length d1 = length (wire p)) by apply length_insert.
  assert (Hr1 : reads d1 q1) by (split; [done|]; by exists b0, b1').
  apply (reads_tail d1 d2 q1 _ b0 b0); try done.
  - by rewrite Hlow by lia.
  - change (RtpPacket.payload_offset_ q1) with (RtpPacket.headers_size p).
    unfold RtpPacket.size in Hsz. unfold RtpPacket.headers_size, RtpPacket.payload_size in *. lia.
  - intros i Hi. apply Hlow, Hi.
  - apply (pad_layout_drop1 d1 d2 b0 _ ps); [apply Hr1'| |congruence|done].
    rewrite Hld, Hsz. unfold RtpPacket.size. unfold RtpPacket.payload_size in Eps. by rewrite Eps.
  - unfold RtpPacket.size, RtpPacket.payload_size in *. cbn. lia.
Qed.

(** ** [AddReceivedRedPacket] *)

(** What a RED packet carries for the receiver of [ssrc]; [None]: refused. *)
Definition carried (ssrc ulpfec_payload_type : Z) (packet : RtpPacketReceived) : option Received :=
  let p := rtp_packet packet in
  let hs := RtpPacket.headers_size p in
  let red_header := nth hs (wire p) 0 in
  if negb (RtpPacket.Ssrc p =? ssrc) || (IP_PACKET_SIZE <? RtpPacket.size p)%nat ||
     (RtpPacket.payload_size p =? 0)%nat || has_bits red_header 0x80
  then None
  else
    let is_fec := red_header =? ulpfec_payload_type in
    Some (mkReceivedPacket (RtpPacket.Ssrc p) (RtpPacket.SequenceNumber p) is_fec
            (recovered packet)
            (if is_fec then red_fec (wire p) hs (RtpPacket.payload_size p)
             else red_media (wire p) hs red_header),
          RtpPacket.extensions_ p).

Definition count_received (c : FecPacketCounter) (now : Z) (size : nat) (is_fec : bool)
    : FecPacketCounter :=
  mkFecPacketCounter (num_packets c + 1) (num_bytes c + size)
    (if is_fec then num_fec_packets c + 1 else num_fec_packets c)%nat
    (num_recovered_packets c) (Some (default now (first_packet_time c))).

Lemma low_byte b : is_byte b -> has_bits b 0x80 = false -> 0 <= b < 128 /\ Z.land b 0x7f = b.
Proof.
  intros Hb Hh. change 0x7f with (Z.ones 7). rewrite Z.land_ones by lia.
  assert (Hlt : b < 128); [|split; [unfold in_uw in Hb; lia|apply Z.mod_small; unfold in_uw in Hb; lia]].
  change 0x80 with (2 ^ 7) in Hh. rewrite has_bits_pow2 in Hh by lia.
  rewrite Z.testbit_odd, Z.shiftr_div_pow2 in Hh by lia. change (2 ^ 7) with 128 in Hh.
  destruct (Z_lt_ge_dec b 128) as [|Hge]; [done|]. unfold in_uw in Hb.
  assert (b / 128 = 1) as E by (symmetry; apply Z.div_unique with (b - 128); lia). by rewrite E in Hh.
Qed.

Lemma AddReceivedRedPacket_carried r now packet :
  consistent (rtp_packet packet) ->
  UlpfecReceiver.AddReceivedRedPacket r now packet =
  Ok match carried (UlpfecReceiver.ssrc_ r) (UlpfecReceiver.ulpfec_payload_type_ r) packet with
     | None => (false, r)
     | Some received =>
         (true, UlpfecReceiver.mk (UlpfecReceiver.ssrc_ r) (UlpfecReceiver.ulpfec_payload_type_ r)
            (UlpfecReceiver.fec_ r)
            (UlpfecReceiver.received_packets_ r ++
               (if (0 <? length (rp_pkt received.1))%nat then [received] else []))
            (UlpfecReceiver.recovered_packets_ r)
            (count_received (UlpfecReceiver.packet_counter_ r) now
               (RtpPacket.size (rtp_packet packet)) (rp_is_fec received.1)))
     end.
Proof.
  intros Hp. unfold UlpfecReceiver.AddReceivedRedPacket, carried.
  set (p := rtp_packet packet) in *. destruct (negb _); [done|].
  destruct (_ <? _)%nat; [done|]. destruct (Nat.eqb_spec (RtpPacket.payload_size p) 0) as [|Hps]; [done|].
  destruct (consistent_size p Hp) as (Hsz & Hby & _).
  destruct (buf_get_lt (wire p) (RtpPacket.headers_size p)) as (b & E & _).
  { rewrite Hsz. unfold RtpPacket.size, RtpPacket.headers_size, RtpPacket.payload_size in *. lia. }
  rewrite (data_at_wire _ _ _ E), (nth_lookup_Some _ _ _ _ E). cbn [mbind res_bind orb].
  destruct (has_bits b 128) eqn:Eh; [done|].
  destruct (low_byte b (bytes_lookup _ _ _ Hby E) Eh) as [Hlt ->].
  destruct (strip_red_ok p b Hp) as [Hfec Hmedia]; [lia|done|].
  destruct (b =? _); rewrite ?Hfec, ?Hmedia; cbn [mbind res_bind fst rp_pkt rp_is_fec];
    (destruct (0 <? _)%nat; [done|by rewrite app_nil_r]).
Qed.

(** ** Parsing into a fresh packet *)

Lemma of_data_ok d : bytes d -> cow_ok (Cow.of_data d) /\ Cow.contents (Cow.of_data d) = d.
Proof.
  intros Hd. unfold Cow.of_data. destruct (of_data_block d (length d)) as (Hl & Ht & Hb).
  destruct (Nat.ltb_spec 0 (length d)).
  - split; [|done]. apply cow_ok_some. rewrite Hl. cbn [Buffer.size_ Buffer.of_data]. split; [lia|auto].
  - assert (d = []) as -> by (apply nil_length_inv; lia). split; [by apply cow_ok_none|done].
Qed.

Definition parsed_from (extensions : RtpHeaderExtensionMap.t) (d : list Z) (q : RtpPacket.t) : Prop :=
  consistent q /\ wire q = d /\ RtpPacket.extensions_ q = extensions.

Lemma parse_fresh extensions d :
  bytes d -> exists p0 b q, RtpPacket.new extensions RtpPacketModel.kDefaultPacketSize = Ok p0 /\
    RtpPacket.ParseCow p0 (Cow.of_data d) = Ok (b, q) /\
    (b = true -> parsed_from extensions d q) /\ ((exists q', reads d q') -> b = true).
Proof.
  intros Hd. destruct (new_packet_ok extensions RtpPacketModel.kDefaultPacketSize)
    as (p0 & E0 & Hc0 & _ & _ & He & _); [by compute_le|].
  destruct (of_data_ok d Hd) as [Hcow Hcon].
  destruct (ParseCow_ok p0 (Cow.of_data d) (proj1 Hc0) Hcow) as (b & q & E & Hq & He' & Ht & Hf).
  exists p0, b, q. split; [done|]. split; [done|]. rewrite Hcon in *. split.
  - intros ->. split; [done|]. split; [by apply Ht|congruence].
  - intros [q' Hq']. destruct b; [done|]. by destruct (proj2 (Hf eq_refl) q').
Qed.

(** ** Preparing a received packet *)

(** The bytes of [d] with the fields written after FEC encoding zeroed. *)
Definition zeroed (q : RtpPacket.t) (d' : list Z) : Prop :=
  length d' = length (wire q) /\
  forall i, d' !! i = if existsb (in_zone (RtpPacket.extensions_ q) i) (RtpPacket.extension_entries_ q)
                      then Some 0 else wire q !! i.

Lemma zeroed_unique q d1 d2 : zeroed q d1 -> zeroed q d2 -> d1 = d2.
Proof. intros [_ H1] [_ H2]. apply list_eq. intros i. by rewrite H1, H2. Qed.

(** What the decoder and the callback get. *)
Inductive prepared (rp : ReceivedPacket) (extensions : RtpHeaderExtensionMap.t)
    : ReceivedPacket -> list RtpPacketReceived -> Prop :=
| prepared_fec : rp_is_fec rp = true -> prepared rp extensions rp []
| prepared_media q d :
    rp_is_fec rp = false -> parsed_from extensions (rp_pkt rp) q -> zeroed q d ->
    prepared rp extensions (with_pkt rp d) [mkRtpPacketReceived q false].

Lemma prepare_received_ok rp extensions :
  bytes (rp_pkt rp) -> map_ok extensions ->
  (rp_is_fec rp = false -> exists q, reads (rp_pkt rp) q) ->
  exists rp' out, UlpfecReceiver.prepare_received (rp, extensions) = Ok (Some (rp', out)) /\
    prepared rp extensions rp' out.
Proof.
  intros Hd Hm Hr. unfold UlpfecReceiver.prepare_received. destruct (rp_is_fec rp) eqn:Ef.
  { eexists _, _. split; [done|]. by constructor. }
  destruct (parse_fresh extensions (rp_pkt rp) Hd) as (p0 & b & q & -> & E & Ht & Hb).
  cbn [mbind res_bind]. rewrite E, (Hb (Hr eq_refl)). cbn [mbind res_bind fst snd negb].
  specialize (Ht (Hb (Hr eq_refl))). pose proof Ht as (Hq & Hw & He).
  destruct (ZeroMutableExtensions_ok q Hq) as (q' & -> & _ & _ & Hl & Hz); [by rewrite He|].
  cbn [mbind res_bind]. eexists _, _. split; [done|]. by apply prepared_media.
Qed.

(** ** Delivering recovered packets *)

Definition pending (recs : list RecoveredPacket) : list RecoveredPacket :=
  filter (fun r => rec_returned r = false) recs.

Definition delivered_as (extensions : RtpHeaderExtensionMap.t) (r : RecoveredPacket)
    (out : RtpPacketReceived) : Prop :=
  recovered out = true /\ parsed_from extensions (rec_pkt r) (rtp_packet out).

Lemma set_returned_id r : rec_returned r = true -> set_returned r = r.
Proof. destruct r. cbn. by intros ->. Qed.

(** Every pending packet is marked, counted and, if it parses, delivered. *)
Lemma deliver_loop check_size extensions recs : forall done c out,
  Forall (fun r => bytes (rec_pkt r) /\ (kRtpHeaderSize <= length (rec_pkt r))%nat) recs ->
  exists delivered news,
    foldM (deliver_recovered check_size extensions) recs (done, c, out) =
      Ok (done ++ map set_returned recs, 
          mkFecPacketCounter (num_packets c) (num_bytes c) (num_fec_packets c)
            (num_recovered_packets c + length (pending recs)) (first_packet_time c),
          out ++ news) /\
    delivered `sublist_of` pending recs /\ Forall2 (delivered_as extensions) delivered news /\
    (Forall (fun r => exists q, reads (rec_pkt r) q) recs -> delivered = pending recs).
Proof.
  induction recs as [|r recs IH]; intros done c out Hok.
  { exists [], []. cbn. rewrite !app_nil_r, Nat.add_0_r. by destruct c. }
  apply Forall_cons_1 in Hok as [[Hb Hl] Hok]. cbn [foldM]. unfold deliver_recovered at 2.
  unfold pending. rewrite filter_cons. fold (pending recs).
  destruct (rec_returned r) eqn:Er; cbn [mbind res_bind].
  - rewrite decide_False by done.
    destruct (IH (done ++ [r]) c out Hok) as (dl & news & -> & Hs & Hf & Hall).
    exists dl, news. rewrite <- (assoc_L (++)). cbn [map app]. rewrite set_returned_id by done.
    split; [done|]. split; [done|]. split; [done|]. intros [_ Hall']%Forall_cons_1. by apply Hall.
  - rewrite decide_True by done. cbn [rec_pkt set_returned].
    rewrite (proj2 (Nat.leb_le _ _)) by done. rewrite orb_true_r. cbn [rtc_check mbind res_bind].
    destruct (parse_fresh extensions (rec_pkt r) Hb) as (p0 & b & q & -> & E & Ht & Hp).
    cbn [mbind res_bind]. rewrite E. cbn [mbind res_bind fst snd].
    destruct b; cbn [negb mbind res_bind].
    + destruct (IH (done ++ [set_returned r]) (count_recovered c)
        (out ++ [mkRtpPacketReceived q true]) Hok) as (dl & news & -> & Hs & Hf & Hall).
      exists (r :: dl), (mkRtpPacketReceived q true :: news). rewrite <- !(assoc_L (++)). cbn.
      split; [by rewrite <- Nat.add_assoc|]. split; [by constructor|].
      split; [by constructor; [split; auto|]|]. intros [_ Hall']%Forall_cons_1. f_equal. by apply Hall.
    + destruct (IH (done ++ [set_returned r]) (count_recovered c) out Hok)
        as (dl & news & -> & Hs & Hf & Hall).
      exists dl, news. rewrite <- !(assoc_L (++)). cbn. split; [by rewrite <- Nat.add_assoc|].
      split; [by constructor|]. split; [done|]. intros [Hr _]%Forall_cons_1. by specialize (Hp Hr).
Qed.

End Laws.
