(* ===== verification/ReceiverSession.v ===== *)
(** * ReceiverSession: a FEC receiver over a whole session

    The invariant that holds between two calls into a receiver ([settled]):
    everything recoverable so far is known, every repaired packet has been
    delivered exactly once, with the bytes of the original. *)

From S2P Require Import Prelude.
From S2P Require Import ByteIo.
From S2P Require Import CowBuffer.
From S2P Require Import RtpExtensions.
From S2P Require Import RtpPacketModel.
From S2P Require Import RtpPacketLaws.
From S2P Require Import RtpPacketOps.
From S2P Require Import RtpPacketSession.
From S2P Require Import FecTypes.
From S2P Require Import UlpfecHeader.
From S2P Require Import Flexfec03Header.
From S2P Require Import XorCode.
From S2P Require Import FecDecoder.
From S2P Require Import DecoderLemmas.
From S2P Require Import DecoderSafety.
From S2P Require Import DecoderSound.
From S2P Require Import WindowSort.
From S2P Require Import Peeling.
From S2P Require Import PeelingFresh.
From S2P Require Import FecReceivers.
From S2P Require Import ReceiverLaws.

Definition repaired (out : list RtpPacketReceived) : list Z :=
  map (fun o => RtpPacket.SequenceNumber (rtp_packet o)) (filter (fun o => recovered o = true) out).

Lemma repaired_app out1 out2 : repaired (out1 ++ out2) = repaired out1 ++ repaired out2.
Proof. unfold repaired. by rewrite filter_app, map_app. Qed.

Lemma repaired_none out : Forall (fun o => recovered o = false) out -> repaired out = [].
Proof.
  induction 1 as [|o out Ho _ IH]; [done|]. unfold repaired. rewrite filter_cons, decide_False; [done|].
  by rewrite Ho.
Qed.

Lemma repaired_all out : Forall (fun o => recovered o = true) out ->
  repaired out = map (fun o => RtpPacket.SequenceNumber (rtp_packet o)) out.
Proof.
  induction 1 as [|o out Ho _ IH]; [done|]. unfold repaired in *. rewrite filter_cons, decide_True by done.
  cbn. by rewrite IH.
Qed.

(** The sequence number as the parser and as the FEC decoder read it. *)
Lemma reads_seq d q : reads d q -> RtpPacket.SequenceNumber q = rtp_seq_num d.
Proof.
  intros (Hl & _ & _ & _ & _ & _ & _ & _ & E & _). unfold kFixedHeaderSize in Hl.
  cbn in E. unfold ByteReader.ReadBigEndian2 in E.
  destruct (buf_get_lt d 2) as (b2 & E2 & G2); [lia|]. destruct (buf_get_lt d 3) as (b3 & E3 & G3); [lia|].
  rewrite G2 in E. cbn in E. rewrite G3 in E. cbn in E. injection E as E.
  unfold RtpPacket.SequenceNumber, rtp_seq_num. rewrite <- E.
  by rewrite (byte_at_lookup _ _ _ E2), (byte_at_lookup _ _ _ E3).
Qed.

Section Session.
Context `{Heap} {R : FecHeaderReader} {RL : FecReaderLaws R}.
Context (media_ssrc : Z) (orig : Z -> option Packet) (mbase : Z).
Hypothesis Hstream : stream_ok media_ssrc orig mbase.
Hypothesis Hrtp : forall q p, orig q = Some p -> exists h, reads p h.
Context (session : list ReceivedPacket).
Hypothesis Hsession : session_ok media_ssrc orig session.

Record settled (done : list ReceivedPacket) (st : Decoder) (recs : list RecoveredPacket)
    (out : list RtpPacketReceived) : Prop := {
  set_rest : resting media_ssrc orig session done st recs;
  set_flags : Forall (fun r => rec_returned r = true) recs;
  set_cover : forall q, q ∈ known recs -> media_received session q \/ q ∈ repaired out;
  set_known : forall q, q ∈ repaired out -> q ∈ known recs;
  set_once : NoDup (repaired out);
  set_bytes : forall o, o ∈ out -> recovered o = true ->
    orig (RtpPacket.SequenceNumber (rtp_packet o)) = Some (wire (rtp_packet o))
}.

Lemma settled_init ssrc : settled [] (mkDecoder ssrc media_ssrc []) [] [].
Proof.
  split; [apply resting_init|constructor|by intros ? ?%elem_of_nil|by intros ? ?%elem_of_nil
    |constructor|by intros ? ?%elem_of_nil].
Qed.

Lemma settled_media done st recs out news :
  settled done st recs out -> Forall (fun o => recovered o = false) news ->
  settled done st recs (out ++ news).
Proof.
  intros [Hr Hf Hc Hk Ho Hb] Hn. pose proof (repaired_none _ Hn) as E.
  split; rewrite ?repaired_app, ?E, ?app_nil_r; try done.
  intros o [Hin|Hin]%elem_of_app Hrec; [by apply Hb|].
  pose proof (proj1 (Forall_forall _ _) Hn o Hin). congruence.
Qed.

Lemma known_elem r recs : r ∈ recs -> rec_seq_num r ∈ known recs.
Proof. intros. apply list_elem_of_fmap. eauto. Qed.

(** Nothing was repaired: nothing is pending. *)
Lemma settle_quiet done st recs out done' st' recs' :
  settled done st recs out -> resting media_ssrc orig session done' st' recs' ->
  grown session recs recs' 0 -> settled done' st' recs' out.
Proof.
  intros [Hr Hf Hc Hk Ho Hb] Hr' [Gk Gn]. split; try done.
  - apply Forall_forall. intros r Hin. destruct (Gn r Hin) as [?|[_ [[? _]|[_ ?]]]]; [|done|lia].
    by apply (proj1 (Forall_forall _ _) Hf).
  - intros q (r & -> & Hin)%list_elem_of_fmap.
    destruct (Gn r Hin) as [?|[_ [[_ ?]|[_ ?]]]]; [by apply Hc, known_elem|by left|lia].
  - auto.
Qed.

(** The pending packets are fresh. *)
Lemma pending_fresh recs recs' n r :
  Forall (fun r => rec_returned r = true) recs -> grown session recs recs' n ->
  r ∈ recs' -> rec_returned r = false -> rec_seq_num r ∉ known recs.
Proof.
  intros Hf [_ Gn] Hin Hr. destruct (Gn r Hin) as [Hold|[? _]]; [|done].
  pose proof (proj1 (Forall_forall _ _) Hf r Hold). cbn in *. congruence.
Qed.

Lemma delivered_seqs extensions recs news :
  Forall (rec_sound orig) recs -> Forall2 (delivered_as extensions) recs news ->
  Forall (fun o => recovered o = true) news /\ repaired news = known recs /\
  forall o, o ∈ news -> orig (RtpPacket.SequenceNumber (rtp_packet o)) = Some (wire (rtp_packet o)).
Proof.
  intros Hs Hd. assert (Hall : Forall2 (fun r o => recovered o = true /\
    RtpPacket.SequenceNumber (rtp_packet o) = rec_seq_num r /\
    orig (rec_seq_num r) = Some (wire (rtp_packet o))) recs news).
  { revert Hs. induction Hd as [|r o recs news (Hr & [_ Hread] & Hw & _) _ IH]; [done|].
    intros [Ho Hs]%Forall_cons_1. constructor; [|by apply IH]. split; [done|].
    rewrite Hw in Hread |- *. split; [|done]. rewrite (reads_seq _ _ Hread).
    by apply (so_orig _ _ _ Hstream). }
  assert (Hrec : Forall (fun o => recovered o = true) news).
  { clear -Hall. induction Hall as [|???? [? _] _ IH]; by constructor. }
  split; [done|]. split.
  - rewrite repaired_all by done. clear -Hall. unfold known.
    induction Hall as [|r o recs news (_ & E & _) _ IH]; [done|]. cbn. by rewrite E, IH.
  - clear -Hall. induction Hall as [|r o recs news (_ & E & Ho) _ IH]; [by intros ? ?%elem_of_nil|].
    intros o' [->|Hin]%elem_of_cons; [congruence|by apply IH].
Qed.

(** Packets were repaired: they are delivered. *)
Lemma settle_deliver done st recs out done' st' recs' n extensions news :
  settled done st recs out -> resting media_ssrc orig session done' st' recs' ->
  grown session recs recs' n -> Forall2 (delivered_as extensions) (pending recs') news ->
  settled done' st' (map set_returned recs') (out ++ news).
Proof.
  intros [Hr Hf Hc Hk Ho Hb] Hr' G Hd. pose proof G as [Gk Gn].
  assert (Hkn : known (map set_returned recs') = known recs').
  { apply map_returned_known. done. }
  assert (Hsound : Forall (rec_sound orig) (pending recs')).
  { apply Forall_forall. intros r [_ Hin]%list_elem_of_filter. revert r Hin. apply Forall_forall.
    apply (ds_rec _ _ _ _ (pi_sound _ _ _ _ _ (pe_inv _ _ _ _ _ _ (rest_peeled _ _ _ _ _ _ Hr')))). }
  destruct (delivered_seqs _ _ _ Hsound Hd) as (_ & Eseq & Hbytes).
  assert (Hnew : forall q, q ∈ known (pending recs') -> q ∈ known recs' /\ q ∉ known recs).
  { intros q (r & -> & [Hfl Hin]%list_elem_of_filter)%list_elem_of_fmap.
    split; [by apply known_elem|]. by apply (pending_fresh recs recs' n). }
  split; rewrite ?Hkn, ?repaired_app, ?Eseq.
  - by apply resting_flags.
  - apply List.Forall_map, Forall_true. done.
  - intros q (r & -> & Hin)%list_elem_of_fmap. rewrite elem_of_app.
    destruct (rec_returned r) eqn:Er.
    + destruct (Gn r Hin) as [Hold|[_ [[_ ?]|[? _]]]]; [|by left|congruence].
      destruct (Hc _ (known_elem r recs Hold)) as [?|?]; auto.
    + right. right. apply known_elem. by apply list_elem_of_filter.
  - intros q [Hq|Hq]%elem_of_app; [by apply Gk, Hk|by apply Hnew].
  - apply NoDup_app. split; [done|]. split; [intros q Hq Hq'%Hnew; by apply Hq', Hk|].
    apply (sublist_NoDup _ (known recs')); [|unfold known, pending; apply (fmap_sublist rec_seq_num), sublist_filter].
    apply sorted_before_NoDup. apply (pi_sorted _ _ _ _ _ (pe_inv _ _ _ _ _ _ (rest_peeled _ _ _ _ _ _ Hr'))).
  - intros o [Hin|Hin]%elem_of_app Hrec; [by apply Hb|by apply Hbytes].
Qed.

(** What the recovered list holds can be delivered. *)
Lemma resting_deliverable done st recs :
  resting media_ssrc orig session done st recs ->
  Forall (fun r => bytes (rec_pkt r) /\ (kRtpHeaderSize <= length (rec_pkt r))%nat) recs /\
  Forall (fun r => exists q, reads (rec_pkt r) q) recs.
Proof.
  intros [[[Hsound _ _ _ _] _ _] _ _ _]. pose proof (ds_rec _ _ _ _ Hsound) as Hr.
  split; eapply Forall_impl; [exact Hr| |exact Hr|]; intros r Ho.
  - destruct (so_orig _ _ _ Hstream _ _ Ho) as ([Hb [Hl _] _] & _). split; [done|]. exact Hl.
  - exact (Hrtp _ _ Ho).
Qed.

(** At the end of the session everything recoverable is known. *)
Lemma settled_complete st recs out q :
  settled session st recs out ->
  recoverable media_ssrc session q <-> media_received session q \/ q ∈ repaired out.
Proof.
  intros [Hr _ Hc Hk _ _]. split.
  - intros Hq. apply Hc. by apply (resting_complete media_ssrc orig session st).
  - intros [(rp & Hin & Hf & <-)|Hq]; [by apply recoverable_media|].
    apply (pi_known _ _ _ _ _ (pe_inv _ _ _ _ _ _ (rest_peeled _ _ _ _ _ _ Hr))). by apply Hk.
Qed.

End Session.
