(* ===== verification/ReceiverGuarantees.v ===== *)
(** * ReceiverGuarantees: what the FEC receivers promise

    The properties of [UlpfecReceiver] and [FlexfecReceiver]: demultiplexing
    and RED removal on every branch, and a whole session of calls refined to
    the peeling specification of [Peeling]. *)

From S2P Require Import Prelude.
From S2P Require Import ByteIo.
From S2P Require Import CowBuffer.
From S2P Require Import RtpExtensions.
From S2P Require Import RtpPacketModel.
From S2P Require Import RtpPacketLaws.
From S2P Require Import RtpPacketOps.
From S2P Require Import RtpPacketSession.
From S2P Require Import FecTypes.
From S2P Require Import UlpfecHeader.
From S2P Require Import Flexfec03Header.
From S2P Require Import XorCode.
From S2P Require Import FecDecoder.
From S2P Require Import DecoderLemmas.
From S2P Require Import DecoderSafety.
From S2P Require Import DecoderSound.
From S2P Require Import Peeling.
From S2P Require Import PeelingFresh.
From S2P Require Import FecReceivers.
From S2P Require Import ReceiverLaws.
From S2P Require Import ReceiverSession.
From S2P Require Import PacketMasks.
From S2P Require Import FecEncoder.
From S2P Require Import EncoderCorrect.
From S2P Require Import EncodeFecSpec.
From S2P Require Import Transmission.
From S2P Require Import EncoderGuarantees.

(** ** A session of the ULPFEC receiver *)

(** One burst of arrivals (with the clock at each) followed by processing, and
    all packets handed to the callback so far. *)
Definition receive_batch `{Heap} (st : UlpfecReceiver.t * list RtpPacketReceived)
    (batch : list (Z * RtpPacketReceived)) : res (UlpfecReceiver.t * list RtpPacketReceived) :=
  let! r := foldM (fun r arrival =>
    let! added := UlpfecReceiver.AddReceivedRedPacket r arrival.1 arrival.2 in Ok added.2) batch st.1 in
  let! done := UlpfecReceiver.ProcessReceivedFec r in
  Ok (done.1, st.2 ++ done.2).

(** The packets inside the RED packets that arrive. *)
Definition received_of (ssrc payload_type : Z) (arrivals : list (Z * RtpPacketReceived))
    : list Received :=
  filter (fun rc : Received => rp_pkt rc.1 <> [])
    (omap (fun arrival : Z * RtpPacketReceived => carried ssrc payload_type arrival.2) arrivals).

(** Packets that were recovered by other means are kept from the decoder. *)
Definition decoded (rps : list ReceivedPacket) : list ReceivedPacket :=
  filter (fun rp => rp_is_recovered rp = false) rps.

(** What of them the decoder is fed: mutable extensions zeroed. *)
Definition decoder_input (rcs : list Received) (session : list ReceivedPacket) : Prop :=
  exists rps, Forall2 (fun rc rp => exists out, prepared rc.1 rc.2 rp out) rcs rps /\
    session = decoded rps.

(** The media packets among them, as delivered. *)
Definition media_delivered (rcs : list Received) (out : list RtpPacketReceived) : Prop :=
  Forall2 (fun rc o => recovered o = false /\ parsed_from rc.2 (rp_pkt rc.1) (rtp_packet o))
    (filter (fun rc : Received => rp_is_fec rc.1 = false) rcs) out.

Definition arrival_ok (packet : RtpPacketReceived) : Prop :=
  consistent (rtp_packet packet) /\ map_ok (RtpPacket.extensions_ (rtp_packet packet)).

(** A stripped packet that waits for processing. *)
Definition waiting_ok (rc : Received) : Prop :=
  bytes (rp_pkt rc.1) /\ map_ok rc.2 /\ (rp_is_fec rc.1 = false -> exists q, reads (rp_pkt rc.1) q).

Section Ulpfec.
Context `{Heap}.

Lemma carried_ok ssrc payload_type packet rc :
  arrival_ok packet -> carried ssrc payload_type packet = Some rc -> waiting_ok rc.
Proof.
  intros [Hp Hm]. unfold carried. set (p := rtp_packet packet) in *.
  destruct (_ || _) eqn:E; [done|]. apply orb_false_iff in E as [[[_ _]%orb_false_iff Hps]%orb_false_iff Hh].
  apply Nat.eqb_neq in Hps. destruct (consistent_size p Hp) as (Hsz & Hby & _).
  destruct (buf_get_lt (wire p) (RtpPacket.headers_size p)) as (b & E & _).
  { rewrite Hsz. unfold RtpPacket.size, RtpPacket.headers_size, RtpPacket.payload_size in *. lia. }
  rewrite (nth_lookup_Some _ _ _ _ E) in *.
  destruct (low_byte b (bytes_lookup _ _ _ Hby E) Hh) as [Hlt _].
  destruct (red_media_reads p b Hp) as [Hmb Hmr]; [lia|done|].
  intros [= <-]. unfold waiting_ok. cbn [fst snd rp_pkt rp_is_fec].
  destruct (b =? payload_type); split_and!; try done; [|by eauto].
  by apply Forall_take, Forall_drop.
Qed.

Lemma prepared_unique rp extensions rp1 out1 rp2 out2 :
  prepared rp extensions rp1 out1 -> prepared rp extensions rp2 out2 -> rp1 = rp2.
Proof.
  intros [Hf|q d Hf (Hq & Hw & He) Hz] [Hf'|q' d' Hf' (Hq' & Hw' & He') Hz']; try congruence.
  f_equal. apply (zeroed_unique q); [done|]. destruct Hz' as [Hl Hz']. unfold zeroed.
  assert (Hent : RtpPacket.extension_entries_ q' = RtpPacket.extension_entries_ q).
  { destruct Hq as [_ Hr], Hq' as [_ Hr']. rewrite Hw in Hr. rewrite Hw' in Hr'.
    set (q2 := RtpPacket.with_buffer (RtpPacket.IdentifyExtensions q' (RtpPacket.extensions_ q))
                 (RtpPacket.buffer_ q)).
    destruct (reads_unique _ q q2 Hr Hr') as [n E]; [done|].
    exact (f_equal RtpPacket.extension_entries_ E). }
  rewrite Hent, He', Hw' in Hz'. rewrite Hw, He. split; [congruence|done].
Qed.

Section Session.
Let U := Ulpfec.UlpfecHeaderReader.
Context (ssrc : Z) (orig : Z -> option Packet) (mbase : Z).
Hypothesis Hstream : stream_ok ssrc orig mbase.
Hypothesis Hrtp : forall q p, orig q = Some p -> exists h, reads p h.
Context (session : list ReceivedPacket).
Hypothesis Hsession : session_ok (R := U) ssrc orig session.

Lemma process_loop old rcs : forall rps done rest st,
  Forall waiting_ok rcs ->
  Forall2 (fun rc rp => exists out, prepared rc.1 rc.2 rp out) rcs rps ->
  session = done ++ decoded rps ++ rest ->
  resting (R := U) ssrc orig session done (UlpfecReceiver.pg_fec st) (UlpfecReceiver.pg_recovered st) ->
  grown session old (UlpfecReceiver.pg_recovered st) (UlpfecReceiver.pg_num st) ->
  exists st' news, foldM UlpfecReceiver.process_received rcs st = Ok st' /\
    resting (R := U) ssrc orig session (done ++ decoded rps) (UlpfecReceiver.pg_fec st')
      (UlpfecReceiver.pg_recovered st') /\
    grown session old (UlpfecReceiver.pg_recovered st') (UlpfecReceiver.pg_num st') /\
    UlpfecReceiver.pg_out st' = UlpfecReceiver.pg_out st ++ news /\ media_delivered rcs news.
Proof.
  induction rcs as [|[rp ext] rcs IH]; intros rps done rest st Hok Hprep Hsplit Hrest G.
  { apply Forall2_nil_inv_l in Hprep as ->. exists st, []. cbn. rewrite !app_nil_r.
    split; [done|]. split; [done|]. split; [done|]. split; [done|]. constructor. }
  apply Forall_cons_1 in Hok as [(Hb & Hm & Hr) Hok].
  apply Forall2_cons_inv_l in Hprep as (rp' & rps' & [out' Hpr'] & Hprep & ->). cbn [fst snd] in *.
  destruct (prepare_received_ok rp ext Hb Hm Hr) as (rp1 & out & Eprep & Hpr).
  pose proof (prepared_unique _ _ _ _ _ _ Hpr Hpr') as ->.
  cbn [foldM]. unfold UlpfecReceiver.process_received at 2. rewrite Eprep. cbn [mbind res_bind].
  assert (Hout : media_delivered [(rp, ext)] out).
  { unfold media_delivered. destruct Hpr as [Hf|q d Hf Hq _]; rewrite filter_cons; cbn [fst].
    - rewrite decide_False by congruence. constructor.
    - rewrite decide_True by done. constructor; [done|constructor]. }
  assert (Hcat : forall news, media_delivered rcs news -> media_delivered ((rp, ext) :: rcs) (out ++ news)).
  { intros news Hn. unfold media_delivered. change ((rp, ext) :: rcs) with ([(rp, ext)] ++ rcs).
    rewrite filter_app. by apply Forall2_app. }
  unfold decoded in *. rewrite filter_cons in *.
  destruct (rp_is_recovered rp') eqn:Erec; cbn [mbind res_bind].
  - rewrite decide_False in * by done.
    destruct (IH rps' done rest (UlpfecReceiver.mkProgress (UlpfecReceiver.pg_fec st)
      (UlpfecReceiver.pg_recovered st) (UlpfecReceiver.pg_out st ++ out)
      (UlpfecReceiver.pg_last_map st) (UlpfecReceiver.pg_num st))) as (st' & news & -> & ? & ? & Eo & Hn);
      [done..|]. exists st', (out ++ news). cbn in Eo. rewrite Eo, <- (assoc_L (++)). by auto 10.
  - rewrite decide_True in * by done.
    destruct (DecodeFec_grows (R := U) ssrc orig mbase Hstream session Hsession done rp'
      (filter (fun rp => rp_is_recovered rp = false) rps' ++ rest) (UlpfecReceiver.pg_fec st)
      (UlpfecReceiver.pg_recovered st)) as (fec & recs & n & log & E & Hrest' & G'); [done..|].
    cbn [UlpfecReceiver.pg_fec UlpfecReceiver.pg_recovered]. unfold U in E. rewrite E.
    cbn [mbind res_bind]. cbn [UlpfecReceiver.pg_out UlpfecReceiver.pg_num snd].
    destruct (IH rps' (done ++ [rp']) rest (UlpfecReceiver.mkProgress fec recs
      (UlpfecReceiver.pg_out st ++ out) (Some ext) (UlpfecReceiver.pg_num st + n)))
      as (st' & news & -> & Hr2 & ? & Eo & Hn); [done|done| |done|by eapply grown_trans|].
    { by rewrite <- (assoc_L (++)). }
    exists st', (out ++ news). cbn in Eo. rewrite Eo, <- (assoc_L (++)).
    split; [done|]. split; [|by auto]. rewrite <- (assoc_L (++)) in Hr2. exact Hr2.
Qed.

(** The receiver between two batches. *)
Record idle (payload_type : Z) (done : list ReceivedPacket)
    (st : UlpfecReceiver.t * list RtpPacketReceived) : Prop := {
  idle_ssrc : UlpfecReceiver.ssrc_ st.1 = ssrc;
  idle_type : UlpfecReceiver.ulpfec_payload_type_ st.1 = payload_type;
  idle_empty : UlpfecReceiver.received_packets_ st.1 = [];
  idle_settled : settled (R := U) ssrc orig session done (UlpfecReceiver.fec_ st.1)
    (UlpfecReceiver.recovered_packets_ st.1) st.2
}.

Definition received_media (out : list RtpPacketReceived) : list RtpPacketReceived :=
  filter (fun o => recovered o = false) out.

Lemma media_not_recovered rcs news :
  media_delivered rcs news -> Forall (fun o => recovered o = false) news.
Proof. unfold media_delivered. induction 1 as [|???? [? _] _ IH]; by constructor. Qed.

Lemma received_media_all news : Forall (fun o => recovered o = false) news -> received_media news = news.
Proof.
  induction 1 as [|o news Ho _ IH]; [done|]. unfold received_media in *.
  rewrite filter_cons, decide_True by done. by f_equal.
Qed.

Lemma received_media_none news : Forall (fun o => recovered o = true) news -> received_media news = [].
Proof.
  induction 1 as [|o news Ho _ IH]; [done|]. unfold received_media in *.
  rewrite filter_cons, decide_False; [done|]. congruence.
Qed.

Lemma ProcessReceivedFec_settles payload_type done rest rcs rps r out :
  idle payload_type done
    (UlpfecReceiver.mk ssrc payload_type (UlpfecReceiver.fec_ r) []
       (UlpfecReceiver.recovered_packets_ r) (UlpfecReceiver.packet_counter_ r), out) ->
  UlpfecReceiver.ssrc_ r = ssrc -> UlpfecReceiver.ulpfec_payload_type_ r = payload_type ->
  UlpfecReceiver.received_packets_ r = rcs -> Forall waiting_ok rcs ->
  Forall2 (fun rc rp => exists out, prepared rc.1 rc.2 rp out) rcs rps ->
  session = done ++ decoded rps ++ rest ->
  exists r' news, UlpfecReceiver.ProcessReceivedFec r = Ok (r', news) /\
    idle payload_type (done ++ decoded rps) (r', out ++ news) /\
    media_delivered rcs (received_media news).
Proof.
  intros [_ _ _ Hset] Hs Ht <- Hok Hprep Hsplit. cbn in Hset.
  unfold UlpfecReceiver.ProcessReceivedFec.
  destruct (process_loop (UlpfecReceiver.recovered_packets_ r) (UlpfecReceiver.received_packets_ r)
    rps done rest (UlpfecReceiver.mkProgress (UlpfecReceiver.fec_ r)
      (UlpfecReceiver.recovered_packets_ r) [] None 0)) as (st & media & -> & Hrest & G & Eo & Hm);
    [done|done|done|apply Hset|apply grown_refl|].
  cbn [UlpfecReceiver.pg_out app] in Eo. rewrite <- Eo in Hm. cbn [mbind res_bind].
  pose proof (media_not_recovered _ _ Hm) as Hnr.
  pose proof (settled_media _ _ _ _ _ _ _ _ Hset Hnr) as Hset'.
  destruct (Nat.eqb_spec (UlpfecReceiver.pg_num st) 0) as [E0|E0].
  - eexists _, _. split; [done|]. split; [|by rewrite received_media_all].
    split; [done|done|done|]. cbn. rewrite E0 in G. by eapply settle_quiet.
  - destruct (resting_deliverable _ _ _ Hstream Hrtp _ _ _ _ Hrest) as [Hdel Hread].
    destruct (deliver_loop false (default (RtpHeaderExtensionMap.new false) (UlpfecReceiver.pg_last_map st))
      (UlpfecReceiver.pg_recovered st) [] (UlpfecReceiver.packet_counter_ r) (UlpfecReceiver.pg_out st) Hdel)
      as (dl & news & -> & _ & Hnews & Hall). rewrite (Hall Hread) in Hnews. cbn [mbind res_bind app].
    eexists _, _. split; [done|]. split.
    + split; [done|done|done|]. cbn. rewrite (assoc_L (++)). by eapply settle_deliver.
    + unfold received_media. rewrite filter_app. fold (received_media news).
      fold (received_media (UlpfecReceiver.pg_out st)). rewrite received_media_all by done.
      rewrite received_media_none, app_nil_r; [done|].
      clear -Hnews. induction Hnews as [|???? [? _] _ IH]; by constructor.
Qed.

End Session.

Lemma add_loop payload_type ssrc batch : forall r,
  UlpfecReceiver.ssrc_ r = ssrc -> UlpfecReceiver.ulpfec_payload_type_ r = payload_type ->
  Forall (fun arrival => arrival_ok arrival.2) batch ->
  exists counter, foldM (fun r arrival =>
    let! added := UlpfecReceiver.AddReceivedRedPacket r arrival.1 arrival.2 in Ok added.2) batch r =
  Ok (UlpfecReceiver.mk ssrc payload_type (UlpfecReceiver.fec_ r)
        (UlpfecReceiver.received_packets_ r ++ received_of ssrc payload_type batch)
        (UlpfecReceiver.recovered_packets_ r) counter).
Proof.
  induction batch as [|[now packet] batch IH]; intros r Hs Ht Hok; cbn [foldM].
  { exists (UlpfecReceiver.packet_counter_ r). cbn. rewrite app_nil_r, <- Hs, <- Ht. by destruct r. }
  apply Forall_cons_1 in Hok as [[Hp _] Hok]. cbn [fst snd].
  rewrite AddReceivedRedPacket_carried, Hs, Ht by done. unfold received_of. cbn [omap list_omap snd].
  destruct (carried ssrc payload_type packet) as [rc|] eqn:Ec; cbn [mbind res_bind snd].
  2:{ destruct (IH r Hs Ht Hok) as [counter ->]. by exists counter. }
  match goal with |- exists _, foldM _ _ ?r' = _ => destruct (IH r') as [counter ->]; [done..|] end.
  exists counter. cbn [UlpfecReceiver.fec_ UlpfecReceiver.received_packets_ UlpfecReceiver.recovered_packets_].
  do 2 f_equal. rewrite filter_cons, <- (assoc_L (++)). f_equal. cbn [option_map].
  destruct (Nat.ltb_spec 0 (length (rp_pkt rc.1))) as [Hl|Hl].
  - rewrite decide_True; [done|]. intros E. rewrite E in Hl. cbn in Hl. lia.
  - rewrite decide_False; [done|]. intros Hne. apply Hne, nil_length_inv. lia.
Qed.

Lemma received_of_ok ssrc payload_type arrivals :
  Forall (fun arrival => arrival_ok arrival.2) arrivals ->
  Forall waiting_ok (received_of ssrc payload_type arrivals).
Proof.
  intros Hok. apply Forall_forall. intros rc [_ Hin]%list_elem_of_filter.
  apply list_elem_of_omap in Hin as (arrival & Ha & Hc).
  apply (carried_ok ssrc payload_type arrival.2); [|done].
  exact (proj1 (Forall_forall _ _) Hok arrival Ha).
Qed.

Lemma received_of_app ssrc payload_type l1 l2 :
  received_of ssrc payload_type (l1 ++ l2) =
  received_of ssrc payload_type l1 ++ received_of ssrc payload_type l2.
Proof. unfold received_of. by rewrite omap_app, filter_app. Qed.

Lemma media_delivered_app rcs1 rcs2 out1 out2 :
  media_delivered rcs1 out1 -> media_delivered rcs2 out2 ->
  media_delivered (rcs1 ++ rcs2) (out1 ++ out2).
Proof. unfold media_delivered. rewrite filter_app. apply Forall2_app. Qed.

Lemma batches_settle ssrc orig mbase session payload_type batches : 
  stream_ok ssrc orig mbase -> (forall q p, orig q = Some p -> exists h, reads p h) ->
  session_ok (R := Ulpfec.UlpfecHeaderReader) ssrc orig session ->
  forall done rps st,
  idle ssrc orig session payload_type done st ->
  Forall (fun arrival => arrival_ok arrival.2) (concat batches) ->
  Forall2 (fun rc rp => exists out, prepared rc.1 rc.2 rp out)
    (received_of ssrc payload_type (concat batches)) rps ->
  session = done ++ decoded rps ->
  exists r' news, foldM receive_batch batches st = Ok (r', st.2 ++ news) /\
    idle ssrc orig session payload_type session (r', st.2 ++ news) /\
    media_delivered (received_of ssrc payload_type (concat batches)) (received_media news).
Proof.
  intros Hstream Hrtp Hsession.
  induction batches as [|batch batches IH]; intros done rps [r out] Hidle Hok Hprep Hsplit; cbn [concat foldM].
  { cbn in Hprep. apply Forall2_nil_inv_l in Hprep as ->. cbn in Hsplit. rewrite app_nil_r in Hsplit. subst done.
    exists r, []. cbn [snd]. rewrite app_nil_r. split; [done|]. split; [done|]. constructor. }
  apply Forall_app in Hok as [Hok1 Hok2]. cbn [concat] in Hprep. rewrite received_of_app in Hprep |- *.
  apply Forall2_app_inv_l in Hprep as (rps1 & rps2 & Hprep1 & Hprep2 & ->).
  unfold decoded in Hsplit. rewrite filter_app in Hsplit. fold (decoded rps1) (decoded rps2) in Hsplit.
  unfold receive_batch at 2. cbn [fst snd]. pose proof Hidle as [Hs Ht He Hset]. cbn [fst snd] in *.
  destruct (add_loop payload_type ssrc batch r Hs Ht Hok1) as [counter ->]. cbn [mbind res_bind].
  rewrite He. cbn [app].
  match goal with |- context [UlpfecReceiver.ProcessReceivedFec ?r1] =>
    destruct (ProcessReceivedFec_settles ssrc orig mbase Hstream Hrtp session Hsession payload_type done
      (decoded rps2) (received_of ssrc payload_type batch) rps1 r1 out) as (r2 & news1 & -> & Hidle2 & Hm1)
  end; [by split|done|done|done|by apply received_of_ok|done|done|].
  cbn [mbind res_bind fst snd].
  destruct (IH (done ++ decoded rps1) rps2 (r2, out ++ news1)) as (r3 & news2 & -> & Hidle3 & Hm2);
    [done|done|done|by rewrite <- (assoc_L (++))|].
  exists r3, (news1 ++ news2). cbn [snd]. rewrite (assoc_L (++)). split; [done|]. split; [done|].
  unfold received_media. rewrite filter_app. by apply media_delivered_app.
Qed.

End Ulpfec.

(** ** Properties *)

(** C25. [AddReceivedRedPacket] on every branch.  A packet of another stream, one
    larger than an IP packet, one without payload and one with several RED
    blocks are refused and change nothing.  Every other packet is counted and
    stripped of its RED header: a FEC packet leaves its payload, a media packet
    leaves an RTP packet with the announced payload type, one payload byte
    less, and otherwise the header, extensions and padding it had, so that
    [ProcessReceivedFec] never drops it as corrupt. *)
Theorem AddReceivedRedPacket_exact `{Heap} r now packet :
  arrival_ok packet ->
  let p := rtp_packet packet in
  let hs := RtpPacket.headers_size p in
  let pt := UlpfecReceiver.ulpfec_payload_type_ r in
  exists accepted r', UlpfecReceiver.AddReceivedRedPacket r now packet = Ok (accepted, r') /\
    (accepted = true <-> RtpPacket.Ssrc p = UlpfecReceiver.ssrc_ r /\
       (RtpPacket.size p <= IP_PACKET_SIZE)%nat /\ (0 < RtpPacket.payload_size p)%nat /\
       has_bits (nth hs (wire p) 0) 0x80 = false) /\
    (accepted = false -> r' = r) /\
    (accepted = true -> exists rc, carried (UlpfecReceiver.ssrc_ r) pt packet = Some rc /\
       UlpfecReceiver.received_packets_ r' = UlpfecReceiver.received_packets_ r ++
         (if (0 <? length (rp_pkt rc.1))%nat then [rc] else []) /\
       UlpfecReceiver.packet_counter_ r' =
         count_received (UlpfecReceiver.packet_counter_ r) now (RtpPacket.size p) (rp_is_fec rc.1) /\
       (rp_is_fec rc.1 = true ->
          rp_pkt rc.1 = take (RtpPacket.payload_size p - 1) (drop (hs + 1) (wire p))) /\
       (rp_is_fec rc.1 = false ->
          reads (rp_pkt rc.1) (red_reading p (nth hs (wire p) 0)) /\
          drop hs (rp_pkt rc.1) = drop (hs + 1) (wire p))).
Proof.
  intros Hok p hs pt. pose proof Hok as [Hp _].
  pose proof (fun rc => carried_ok (UlpfecReceiver.ssrc_ r) pt packet rc Hok) as Hwait.
  rewrite AddReceivedRedPacket_carried by done. fold p pt.
  assert (Hcond : negb (RtpPacket.Ssrc p =? UlpfecReceiver.ssrc_ r) ||
    (IP_PACKET_SIZE <? RtpPacket.size p)%nat || (RtpPacket.payload_size p =? 0)%nat ||
    has_bits (nth hs (wire p) 0) 0x80 = false <->
    RtpPacket.Ssrc p = UlpfecReceiver.ssrc_ r /\ (RtpPacket.size p <= IP_PACKET_SIZE)%nat /\
    (0 < RtpPacket.payload_size p)%nat /\ has_bits (nth hs (wire p) 0) 0x80 = false).
  { rewrite !orb_false_iff, negb_false_iff, Z.eqb_eq, Nat.ltb_ge, Nat.eqb_neq. intuition lia. }
  destruct (carried _ pt packet) as [rc|] eqn:Ec; eexists _, _; (split; [done|]).
  2:{ split; [|done]. split; [done|]. intros Hc%Hcond. unfold carried in Ec. fold p hs in Ec.
      by rewrite Hc in Ec. }
  specialize (Hwait rc eq_refl). unfold carried in Ec. fold p hs in Ec.
  destruct (_ || _) eqn:E; [done|]. pose proof (proj1 Hcond eq_refl) as (H1 & H2 & H3 & H4).
  split; [by split|]. split; [done|]. intros _. exists rc.
  split; [done|]. split; [done|]. split; [done|].
  injection Ec as <-. cbn [fst rp_is_fec rp_pkt].
  destruct (nth hs (wire p) 0 =? pt); (split; [done|]); [done|]. intros _.
  destruct (consistent_size p Hp) as (Hsz & Hby & Hhs). change (RtpPacket.payload_offset_ p) with hs in Hhs.
  destruct (buf_get_lt (wire p) hs) as (b & Eb & _).
  { rewrite Hsz. unfold hs, RtpPacket.size, RtpPacket.headers_size, RtpPacket.payload_size in *. lia. }
  rewrite (nth_lookup_Some _ _ _ _ Eb) in *.
  destruct (low_byte b (bytes_lookup _ _ _ Hby Eb) H4) as [Hlt _].
  split; [by apply red_media_reads|]. unfold red_media. apply drop_app_length'.
  rewrite length_insert, length_take. apply lookup_lt_Some in Eb. fold hs. lia.
Qed.


(** ** Witnesses: two media packets, one of them lost *)

(** A datagram parsed with the session's extension map. *)
Definition datagram `{Heap} (extensions : RtpHeaderExtensionMap.t) (d : list Z) : RtpPacketReceived :=
  match (let! p := RtpPacket.new extensions RtpPacketModel.kDefaultPacketSize in
         let! parsed := RtpPacket.Parse p d in Ok parsed.2) with
  | Ok p => mkRtpPacketReceived p false
  | Fault _ => mkRtpPacketReceived (RtpPacket.mk false 0 0 0 0 0 0 0 extensions [] 0 (Cow.of_size 0)) false
  end.

Lemma datagram_arrival `{Heap} extensions d :
  map_ok extensions -> bytes d -> arrival_ok (datagram extensions d).
Proof.
  intros Hm Hd. unfold datagram.
  destruct (new_packet_ok extensions RtpPacketModel.kDefaultPacketSize) as (p & -> & Hc & _ & _ & He & _);
    [compute_le|]. cbn [mbind res_bind].
  destruct (Parse_ok p d (proj1 Hc) Hd) as (b & p' & -> & Hc' & He' & _). cbn [mbind res_bind snd].
  split; [done|]. cbn. by rewrite He', He.
Qed.

Definition rtp_batch : list Packet := [media_a; media_c].

Lemma rtp_batch_ok : media_batch rtp_batch.
Proof.
  split; [done| |].
  - repeat (apply Forall_cons_2; [split; [compute_bytes|compute_le]|]). done.
  - change (StronglySorted lt [0%nat; 4%nat]). by repeat constructor.
Qed.

Lemma rtp_batch_media : Forall (fun p => media_ok 1480 p /\ rtp_ssrc p = 9) rtp_batch.
Proof.
  repeat (apply Forall_cons_2; [split; [split; [compute_bytes|split; compute_le|]|done]|]); [..|done];
    eexists; done.
Qed.

Lemma rtp_batch_reads q p : sent rtp_batch q = Some p -> exists h, reads p h.
Proof.
  intros [Hp _]%sent_elem. assert (Hd : bytes p).
  { destruct (proj1 (Forall_forall _ _) rtp_batch_media p Hp) as [[Hb _ _] _]. exact Hb. }
  destruct (ParseBuffer_spec (RtpPacket.mk false 0 0 0 0 0 0 0 (RtpHeaderExtensionMap.new false) [] 0
    (Cow.mk None 0 0 true)) p Hd) as (b & h & E & _ & Ht & _).
  exists h. apply Ht. unfold rtp_batch in Hp. rewrite !elem_of_cons in Hp.
  destruct Hp as [->|[->|Hp]]; [vm_compute in E; by injection E as <- _..|by apply elem_of_nil in Hp].
Qed.

Lemma decoder_input_compute `{Heap} rcs rps :
  Forall waiting_ok rcs ->
  Forall2 (fun rc rp => exists out, UlpfecReceiver.prepare_received rc = Ok (Some (rp, out))) rcs rps ->
  decoder_input rcs (decoded rps).
Proof.
  intros Hok Hprep. exists rps. split; [|done]. revert Hok.
  induction Hprep as [|[rp ext] rp' rcs rps [out E] _ IH]; intros Hok; [constructor|].
  apply Forall_cons_1 in Hok as [(Hb & Hm & Hr) Hok]. constructor; [|by apply IH].
  destruct (prepare_received_ok rp ext Hb Hm Hr) as (rp2 & out2 & E2 & Hp). rewrite E in E2.
  injection E2 as <- <-. by exists out.
Qed.

#[local] Existing Instance Ulpfec.UlpfecHeaderReader.
#[local] Existing Instance Ulpfec.UlpfecHeaderWriter.

Definition rtp_fec_seq (r : nat) : Z := u16 (base_seq rtp_batch + Z.of_nat (span rtp_batch + r)).

(** RED payload type 100, ULPFEC payload type 101; packet 9 is lost. *)
Definition red_a : list Z := [0x80; 100; 0; 5; 1; 2; 3; 4; 0; 0; 0; 9; 96; 10; 20; 30].
Definition red_parity : list Z :=
  [0x80; 100; 0; 10; 0; 0; 0; 0; 0; 0; 0; 9; 101] ++
  [0; 0; 0; 5; 1; 2; 3; 4; 0; 1; 0; 3; 0x88; 0; 71; 90; 30].
Definition red_arrivals : list (Z * RtpPacketReceived) :=
  [(0, datagram (H := zero_heap) (RtpHeaderExtensionMap.new false) red_a);
   (1, datagram (H := zero_heap) (RtpHeaderExtensionMap.new false) red_parity)].

Lemma red_arrivals_ok : Forall (fun arrival => arrival_ok arrival.2) red_arrivals.
Proof.
  repeat (apply Forall_cons_2; [apply datagram_arrival; [apply RtpExtensions.new_ok|compute_bytes]|]). done.
Qed.

(** The decoder's view of the two arrivals. *)
Definition rtp_session : list ReceivedPacket :=
  [as_media media_a; as_fec 9 10 (drop 13 red_parity)].

Lemma rtp_numbering : numbering_ok (own := true) rtp_batch 1 9 9 rtp_fec_seq.
Proof. apply numbering_following; [apply rtp_batch_ok|compute_le|compute_le]. Qed.

Lemma rtp_batch_parity :
  match EncodeFec encoder0 rtp_batch 128 0 false kFecMaskBursty with
  | Ok (_, _, fecs) => fecs
  | Fault _ => []
  end = [drop 13 red_parity].
Proof. vm_compute. reflexivity. Qed.

Lemma rtp_batch_protected :
  exists bit, batch_ok (own := true) rtp_batch [drop 13 red_parity] 9 9 rtp_fec_seq bit.
Proof.
  destruct (encoded_batch (own := true) encoder0 rtp_batch 128 0 false kFecMaskBursty 9
    encoder0_ok rtp_batch_ok ltac:(compute_le) rtp_batch_media ltac:(lia) ltac:(compute_le))
    as (e' & fecs & masks & _ & Henc & _ & _ & _ & _ & Hb).
  specialize (Hb 9 rtp_fec_seq rtp_numbering).
  pose proof rtp_batch_parity as Hf. rewrite Henc in Hf. subst fecs. exact (ex_intro _ _ Hb).
Qed.

Lemma rtp_transmission :
  transmission rtp_batch [drop 13 red_parity] 9 rtp_fec_seq =
  [as_media media_a; as_media media_c; as_fec 9 10 (drop 13 red_parity)].
Proof. vm_compute. reflexivity. Qed.

Lemma rtp_session_ok :
  stream_ok 9 (sent rtp_batch) (base_seq rtp_batch) /\ session_ok 9 (sent rtp_batch) rtp_session.
Proof.
  destruct rtp_batch_protected as [bit Hb].
  split; [exact (batch_stream _ _ _ _ _ _ Hb)|]. apply (batch_session _ _ _ _ _ _ Hb).
  rewrite rtp_transmission. by apply submseteq_skip, submseteq_cons.
Qed.

Lemma red_received :
  received_of 9 101 red_arrivals = map (fun rp => (rp, RtpHeaderExtensionMap.new false)) rtp_session.
Proof. vm_compute. reflexivity. Qed.

Lemma red_prepared rp : rp ∈ rtp_session ->
  match UlpfecReceiver.prepare_received (H := zero_heap) (rp, RtpHeaderExtensionMap.new false) with
  | Ok (Some (rp', _)) => rp' = rp
  | _ => False
  end.
Proof.
  unfold rtp_session. rewrite !elem_of_cons.
  intros [->|[->|[]%elem_of_nil]]; vm_compute; reflexivity.
Qed.

Lemma red_session_input :
  decoder_input (received_of 9 101 red_arrivals) rtp_session.
Proof.
  apply (decoder_input_compute (H := zero_heap) _ rtp_session); [apply received_of_ok, red_arrivals_ok|].
  rewrite red_received. pose proof red_prepared as Hp. revert Hp. generalize rtp_session.
  induction l as [|rp l IH]; intros Hp; cbn [map]; [constructor|]. constructor.
  - specialize (Hp rp ltac:(left)). destruct (UlpfecReceiver.prepare_received _) as [[[rp' out]|]|]; [|done..].
    subst rp'. by exists out.
  - apply IH. intros rp' Hin. apply Hp. by right.
Qed.

Lemma AddReceivedRedPacket_exact_witness :
  exists r', UlpfecReceiver.AddReceivedRedPacket (H := zero_heap) (UlpfecReceiver.new 9 101) 7
      (datagram (H := zero_heap) (RtpHeaderExtensionMap.new false) red_a) = Ok (true, r') /\
    map (fun rc => rp_pkt rc.1) (UlpfecReceiver.received_packets_ r') = [media_a].
Proof.
  destruct (AddReceivedRedPacket_exact (H := zero_heap) (UlpfecReceiver.new 9 101) 7
    (datagram (H := zero_heap) (RtpHeaderExtensionMap.new false) red_a)) as (b & r' & E & Hb & _ & Ht).
  - apply datagram_arrival; [apply RtpExtensions.new_ok|compute_bytes].
  - assert (b = true) as -> by (apply Hb; split; [reflexivity|split; [compute_le|split; [compute_le|reflexivity]]]).
    exists r'. split; [exact E|]. destruct (Ht eq_refl) as (rc & Hrc & -> & _).
    vm_compute in Hrc. injection Hrc as <-. reflexivity.
Defined.

