(* ===== verification/FlexfecSession.v ===== *)
(** * FlexfecSession: [FlexfecReceiver] over a whole session *)

From S2P Require Import Prelude.
From S2P Require Import ByteIo.
From S2P Require Import CowBuffer.
From S2P Require Import RtpExtensions.
From S2P Require Import RtpPacketModel.
From S2P Require Import RtpPacketLaws.
From S2P Require Import RtpPacketOps.
From S2P Require Import RtpPacketSession.
From S2P Require Import FecTypes.
From S2P Require Import Flexfec03Header.
From S2P Require Import FecDecoder.
From S2P Require Import DecoderSafety.
From S2P Require Import DecoderSound.
From S2P Require Import Peeling.
From S2P Require Import PeelingFresh.
From S2P Require Import FecReceivers.
From S2P Require Import ReceiverLaws.
From S2P Require Import ReceiverSession.
From S2P Require Import ReceiverGuarantees.
From S2P Require Import XorCode.
From S2P Require Import PacketMasks.
From S2P Require Import SeqNum.
From S2P Require Import FecEncoder.
From S2P Require Import EncoderCorrect.
From S2P Require Import EncodeFecSpec.
From S2P Require Import Transmission.
From S2P Require Import EncoderGuarantees.

(** What an arriving packet contributes to decoding. *)
Inductive contributes (ssrc media_ssrc : Z) (packet : RtpPacketReceived)
    : list ReceivedPacket -> Prop :=
| contributes_ignored :
    recovered packet = true \/
    (RtpPacket.Ssrc (rtp_packet packet) = ssrc /\
     (RtpPacket.payload_size (rtp_packet packet) < FlexfecReceiver.kMinFlexfecHeaderSize)%nat) \/
    (RtpPacket.Ssrc (rtp_packet packet) <> ssrc /\ RtpPacket.Ssrc (rtp_packet packet) <> media_ssrc) ->
    contributes ssrc media_ssrc packet []
| contributes_fec :
    recovered packet = false -> RtpPacket.Ssrc (rtp_packet packet) = ssrc ->
    (FlexfecReceiver.kMinFlexfecHeaderSize <= RtpPacket.payload_size (rtp_packet packet))%nat ->
    contributes ssrc media_ssrc packet
      [mkReceivedPacket ssrc (RtpPacket.SequenceNumber (rtp_packet packet)) true false
         (take (RtpPacket.payload_size (rtp_packet packet))
            (drop (RtpPacket.headers_size (rtp_packet packet)) (wire (rtp_packet packet))))]
| contributes_media d :
    recovered packet = false -> RtpPacket.Ssrc (rtp_packet packet) = media_ssrc -> media_ssrc <> ssrc ->
    zeroed (rtp_packet packet) d ->
    contributes ssrc media_ssrc packet
      [mkReceivedPacket media_ssrc (RtpPacket.SequenceNumber (rtp_packet packet)) false false d].

(** All arrivals, and the packets handed to the callback so far. *)
Definition on_packets `{Heap} (st : FlexfecReceiver.t * list RtpPacketReceived)
    (packet : RtpPacketReceived) : res (FlexfecReceiver.t * list RtpPacketReceived) :=
  let! done := FlexfecReceiver.OnRtpPacket st.1 packet in
  Ok (done.1, st.2 ++ done.2).

Section Flexfec.
Context `{Heap}.

(** Demultiplexing: what [OnRtpPacket] makes of a packet. *)
Lemma OnRtpPacket_contributes r packet rps :
  arrival_ok packet ->
  contributes (FlexfecReceiver.ssrc_ r) (FlexfecReceiver.protected_media_ssrc_ r) packet rps ->
  (rps = [] /\ FlexfecReceiver.OnRtpPacket r packet = Ok (r, [])) \/
  exists rp counter extensions, rps = [rp] /\
    FlexfecReceiver.OnRtpPacket r packet =
    FlexfecReceiver.ProcessReceivedPacket
      (FlexfecReceiver.mk (FlexfecReceiver.ssrc_ r) (FlexfecReceiver.protected_media_ssrc_ r)
         (FlexfecReceiver.erasure_code_ r) (FlexfecReceiver.recovered_packets_ r) counter)
      (rp, extensions).
Proof.
  intros [Hp Hm] Hc. unfold FlexfecReceiver.OnRtpPacket, FlexfecReceiver.AddReceivedPacket.
  destruct Hc as [Hno|Hrec Hs Hps|d Hrec Hs Hne Hz]; set (p := rtp_packet packet) in *.
  - left. split; [done|]. destruct (recovered packet); [done|].
    destruct Hno as [?|[[Hs Hps]|[Hs1 Hs2]]]; [done| |].
    + rewrite Hs, Z.eqb_refl, (proj2 (Nat.ltb_lt _ _)) by done. done.
    + by rewrite (proj2 (Z.eqb_neq _ _) Hs1), (proj2 (Z.eqb_neq _ _) Hs2).
  - right. rewrite Hrec, Hs, Z.eqb_refl, (proj2 (Nat.ltb_ge _ _)) by done. cbn [mbind res_bind].
    destruct (consistent_size p Hp) as (Hsz & _ & _). destruct Hp as [Hok _].
    destruct (Slice_spec (RtpPacket.buffer_ p) (RtpPacket.headers_size p) (RtpPacket.payload_size p))
      as [_ ->]; [apply Hok| |by eexists _, _, _].
    rewrite size_wire, Hsz by done.
    unfold RtpPacket.size, RtpPacket.headers_size, RtpPacket.payload_size. lia.
  - right. rewrite Hrec, Hs, (proj2 (Z.eqb_neq _ _) Hne), Z.eqb_refl. cbn [negb].
    set (copy := RtpPacket.with_buffer p (Cow.share (RtpPacket.buffer_ p))).
    assert (Hw : wire copy = wire p) by apply share_contents.
    assert (Hcopy : consistent copy).
    { destruct Hp as [[Hc Hcap] Hr]. split; [split; [by apply share_ok|exact Hcap]|]. by rewrite Hw. }
    destruct (ZeroMutableExtensions_ok copy Hcopy Hm) as (z & -> & _ & _ & Hl & Hlook).
    cbn [mbind res_bind]. rewrite Hw in *.
    assert (Cow.contents (RtpPacket.buffer_ z) = d) as ->; [|by eexists _, _, _].
    by apply (zeroed_unique p).
Qed.

Section Session.
Let F := Flexfec03.Flexfec03HeaderReader.
Context (ssrc media_ssrc : Z) (orig : Z -> option Packet) (mbase : Z).
Hypothesis Hstream : stream_ok media_ssrc orig mbase.
Hypothesis Hrtp : forall q p, orig q = Some p -> exists h, reads p h.
Context (session : list ReceivedPacket).
Hypothesis Hsession : session_ok (R := F) media_ssrc orig session.

Record idle (done : list ReceivedPacket) (st : FlexfecReceiver.t * list RtpPacketReceived) : Prop := {
  idle_ssrc : FlexfecReceiver.ssrc_ st.1 = ssrc;
  idle_media : FlexfecReceiver.protected_media_ssrc_ st.1 = media_ssrc;
  idle_all : Forall (fun o => recovered o = true) st.2;
  idle_settled : settled (R := F) media_ssrc orig session done (FlexfecReceiver.erasure_code_ st.1)
    (FlexfecReceiver.recovered_packets_ st.1) st.2
}.

Lemma ProcessReceivedPacket_settles done rp rest extensions r out :
  idle done (r, out) -> session = done ++ rp :: rest ->
  exists r' news, FlexfecReceiver.ProcessReceivedPacket r (rp, extensions) = Ok (r', news) /\
    idle (done ++ [rp]) (r', out ++ news).
Proof.
  intros [Hs Hm Hall Hset] Hsplit. cbn in *. unfold FlexfecReceiver.ProcessReceivedPacket.
  destruct (DecodeFec_grows (R := F) media_ssrc orig mbase Hstream session Hsession done rp rest
    (FlexfecReceiver.erasure_code_ r) (FlexfecReceiver.recovered_packets_ r) Hsplit)
    as (fec & recs & n & log & E & Hrest & G); [apply Hset|].
  cbn [fst snd]. unfold F in E. rewrite E. cbn [mbind res_bind].
  destruct (Nat.eqb_spec n 0) as [->|Hn].
  - eexists _, _. split; [done|]. rewrite app_nil_r. split; [done|done|done|]. cbn. by eapply settle_quiet.
  - destruct (resting_deliverable _ _ _ Hstream Hrtp _ _ _ _ Hrest) as [Hdel Hread].
    destruct (deliver_loop true extensions recs [] (FlexfecReceiver.packet_counter_ r) [] Hdel)
      as (dl & news & -> & _ & Hnews & Hdl). rewrite (Hdl Hread) in Hnews. cbn [mbind res_bind app].
    eexists _, _. split; [done|]. split; [done|done| |by eapply settle_deliver].
    apply Forall_app. split; [done|]. clear -Hnews. induction Hnews as [|???? [? _] _ IH]; by constructor.
Qed.

Lemma on_packets_settle packets : forall done parts st,
  idle done st -> Forall arrival_ok packets -> Forall2 (contributes ssrc media_ssrc) packets parts ->
  session = done ++ concat parts ->
  exists st', foldM on_packets packets st = Ok st' /\ idle session st'.
Proof.
  induction packets as [|packet packets IH]; intros done parts [r out] Hidle Hok Hc Hsplit; cbn [foldM].
  { apply Forall2_nil_inv_l in Hc as ->. cbn in Hsplit. rewrite app_nil_r in Hsplit. subst done. eauto. }
  apply Forall_cons_1 in Hok as [Hp Hok].
  apply Forall2_cons_inv_l in Hc as (rps & parts' & Hc1 & Hc2 & ->). cbn [concat] in Hsplit.
  pose proof Hidle as [Hs Hm Hall Hset]. cbn [fst snd] in *. rewrite <- Hs, <- Hm in Hc1.
  unfold on_packets at 2. cbn [fst snd].
  destruct (OnRtpPacket_contributes r packet rps Hp Hc1)
    as [[-> ->]|(rp & counter & ext & -> & ->)]; cbn [mbind res_bind fst snd].
  - apply (IH done parts'); [|done|done|done]. by rewrite app_nil_r.
  - match goal with |- context [FlexfecReceiver.ProcessReceivedPacket ?r1 _] =>
      destruct (ProcessReceivedPacket_settles done rp (concat parts') ext r1 out)
        as (r2 & news & -> & Hidle2) end; [by split; rewrite ?Hs, ?Hm|done|].
    cbn [mbind res_bind fst snd].
    apply (IH (done ++ [rp]) parts'); [done|done|done|]. by rewrite <- (assoc_L (++)).
Qed.

End Session.
End Flexfec.


(** ** Witness: the batch of the ULPFEC witness, FlexFEC stream 33 *)

#[local] Existing Instance Flexfec03.Flexfec03HeaderReader.
#[local] Existing Instance Flexfec03.Flexfec03HeaderWriter.

Definition flex_parity : list Z :=
  [0; 0; 0; 1; 1; 2; 3; 4; 1; 0; 0; 0; 0; 0; 0; 9; 0; 5; 196; 0; 71; 90; 30].
Definition flex_datagram : list Z := [0x80; 110; 0; 77; 0; 0; 0; 0; 0; 0; 0; 33] ++ flex_parity.
Definition flex_packets : list RtpPacketReceived :=
  [datagram (H := zero_heap) (RtpHeaderExtensionMap.new false) flex_datagram;
   datagram (H := zero_heap) (RtpHeaderExtensionMap.new false) media_a].
Definition flex_parts : list (list ReceivedPacket) :=
  [[as_fec 33 77 flex_parity]; [as_media media_a]].

Lemma flex_batch_parity :
  match EncodeFec encoder0 rtp_batch 128 0 false kFecMaskBursty with
  | Ok (_, _, fecs) => fecs
  | Fault _ => []
  end = [flex_parity].
Proof. vm_compute. reflexivity. Qed.

Lemma flex_numbering : numbering_ok (own := false) rtp_batch 1 9 33 (fun _ => 77).
Proof.
  split; [done|intros; split; by vm_compute|intros; lia|intros; by vm_compute|done].
Qed.

Lemma flex_batch_protected :
  exists bit, batch_ok (own := false) rtp_batch [flex_parity] 9 33 (fun _ => 77) bit.
Proof.
  destruct (encoded_batch (own := false) encoder0 rtp_batch 128 0 false kFecMaskBursty 9
    encoder0_ok rtp_batch_ok ltac:(compute_le) rtp_batch_media ltac:(lia) ltac:(compute_le))
    as (e' & fecs & masks & _ & Henc & _ & _ & _ & _ & Hb).
  specialize (Hb 33 (fun _ => 77) flex_numbering).
  pose proof flex_batch_parity as Hf. rewrite Henc in Hf. subst fecs. exact (ex_intro _ _ Hb).
Qed.

Lemma flex_session_ok :
  stream_ok 9 (sent rtp_batch) (base_seq rtp_batch) /\ session_ok 9 (sent rtp_batch) (concat flex_parts).
Proof.
  destruct flex_batch_protected as [bit Hb].
  split; [exact (batch_stream _ _ _ _ _ _ Hb)|]. apply (batch_session _ _ _ _ _ _ Hb).
  change ([as_fec 33 77 flex_parity; as_media media_a] ⊆+
          [as_media media_a; as_media media_c; as_fec 33 77 flex_parity]).
  etrans; [apply Permutation_submseteq, Permutation_swap|]. by apply submseteq_skip, submseteq_cons.
Qed.

Lemma flex_fec_fields :
  let p := rtp_packet (datagram (H := zero_heap) (RtpHeaderExtensionMap.new false) flex_datagram) in
  RtpPacket.Ssrc p = 33 /\ RtpPacket.SequenceNumber p = 77 /\ RtpPacket.payload_size p = 23%nat /\
  RtpPacket.headers_size p = 12%nat /\ wire p = flex_datagram.
Proof. vm_compute. by split_and!. Qed.

Lemma flex_media_fields :
  let p := rtp_packet (datagram (H := zero_heap) (RtpHeaderExtensionMap.new false) media_a) in
  RtpPacket.Ssrc p = 9 /\ RtpPacket.SequenceNumber p = 5 /\
  RtpPacket.extension_entries_ p = [] /\ wire p = media_a.
Proof. vm_compute. by split_and!. Qed.

Lemma datagram_not_recovered extensions d : recovered (datagram (H := zero_heap) extensions d) = false.
Proof. unfold datagram. by destruct (mbind _ _). Qed.

Lemma flex_contributes : Forall2 (contributes 33 9) flex_packets flex_parts.
Proof.
  destruct flex_fec_fields as (Hs & Hq & Hps & Hhs & Hw).
  destruct flex_media_fields as (Hs' & Hq' & He' & Hw').
  unfold flex_packets, flex_parts. constructor; [|constructor; [|constructor]].
  - pose proof (contributes_fec 33 9 _ (datagram_not_recovered _ _) Hs) as C.
    rewrite Hq, Hps, Hhs, Hw in C. apply C. compute_le.
  - pose proof (contributes_media 33 9 _ media_a (datagram_not_recovered _ _) Hs') as C.
    rewrite Hq' in C. apply C; [done|]. unfold zeroed. rewrite He', Hw'. by split.
Qed.

