(* ===== verification/ReceiverSafety.v ===== *)
(** * ReceiverSafety: the receivers on hostile input

    Whatever well-formed RTP packets arrive, with any payload bytes: the state
    invariant of [DecoderSafety] is kept and the only fault is the use after
    free of the decoder's log statement. *)

From S2P Require Import Prelude.
From S2P Require Import ByteIo.
From S2P Require Import CowBuffer.
From S2P Require Import RtpExtensions.
From S2P Require Import RtpPacketModel.
From S2P Require Import RtpPacketLaws.
From S2P Require Import RtpPacketOps.
From S2P Require Import RtpPacketSession.
From S2P Require Import FecTypes.
From S2P Require Import UlpfecHeader.
From S2P Require Import Flexfec03Header.
From S2P Require Import XorCode.
From S2P Require Import FecDecoder.
From S2P Require Import DecoderLemmas.
From S2P Require Import DecoderSafety.
From S2P Require Import Transmission.
From S2P Require Import FecReceivers.
From S2P Require Import ReceiverLaws.
From S2P Require Import ReceiverSession.
From S2P Require Import ReceiverGuarantees.
From S2P Require Import FlexfecSession.

(** A result with property [P], or the use after free. *)
Definition safe {A} (P : A -> Prop) (x : res A) : Prop :=
  match x with Ok a => P a | Fault f => f = UseAfterFree end.

Lemma safe_bind {A B} (P : A -> Prop) (Q : B -> Prop) (x : res A) (k : A -> res B) :
  safe P x -> (forall a, P a -> safe Q (k a)) -> safe Q (let! a := x in k a).
Proof. destruct x as [a|f]; cbn; auto. Qed.

Lemma safe_foldM {A B} (P : B -> Prop) (f : B -> A -> res B) l b :
  P b -> (forall b a, a ∈ l -> P b -> safe P (f b a)) -> safe P (foldM f l b).
Proof.
  revert b. induction l as [|a l IH]; intros b Hb Hf; [done|]. cbn [foldM].
  apply (safe_bind P); [apply Hf; [left|done]|]. intros b' Hb'. apply IH; [done|].
  intros b2 a2 Ha2. apply Hf. by right.
Qed.

Lemma safe_impl {A} (P Q : A -> Prop) x : safe P x -> (forall a, P a -> Q a) -> safe Q x.
Proof. destruct x; cbn; auto. Qed.

Lemma reads_seq_u16 d q : bytes d -> reads d q -> is_u16 (RtpPacket.SequenceNumber q).
Proof.
  intros Hd Hr. rewrite (reads_seq _ _ Hr). destruct Hr as [Hl _]. by apply sized_seq_u16.
Qed.

Lemma zeroed_sized q d : consistent q -> zeroed q d -> media_sized d.
Proof.
  intros Hq [Hl Hz]. destruct (consistent_size q Hq) as (_ & Hb & _).
  split; [|rewrite Hl; by destruct Hq as [_ [? _]]].
  apply Forall_lookup. intros i b E. rewrite Hz in E. destruct (existsb _ _).
  - injection E as <-. split; lia.
  - exact (bytes_lookup _ _ _ Hb E).
Qed.

Section Safety.
Context `{Heap}.

Lemma DecodeFec_state {R : FecHeaderReader} {RL : FecReaderLaws R} st rp recs :
  decoder_ok st recs -> input_ok rp ->
  safe (fun x => decoder_ok x.1.1.1 x.1.1.2) (DecodeFec st rp recs).
Proof.
  intros Hst Hrp. destruct (DecodeFec_ok st rp recs Hst Hrp)
    as [(st' & recs' & n & log & -> & Hok & _)|[-> _]]; [exact Hok|done].
Qed.

Lemma decoder_ok_returned {R : FecHeaderReader} st recs :
  decoder_ok st recs -> decoder_ok st (map set_returned recs).
Proof.
  intros [Hf Hn Hr Hc]. split; [done|done| |by rewrite length_map].
  apply List.Forall_map. exact Hr.
Qed.

(** The delivery loop, whatever the decoder recovered. *)
Lemma deliver_safe {R : FecHeaderReader} st check_size extensions recs c out :
  decoder_ok st recs ->
  exists c' out', foldM (deliver_recovered check_size extensions) recs ([], c, out) =
    Ok (map set_returned recs, c', out').
Proof.
  intros [_ _ Hr _].
  destruct (deliver_loop check_size extensions recs [] c out) as (dl & news & -> & _).
  - eapply Forall_impl; [exact Hr|]. intros r [[Hb Hl] _]. split; [done|exact Hl].
  - by eexists _, _.
Qed.

(** ** ULPFEC *)

Definition waiting_input (rc : Received) : Prop := waiting_ok rc /\ is_u16 (rp_seq_num rc.1).

Definition ulpfec_state (r : UlpfecReceiver.t) : Prop :=
  decoder_ok (R := Ulpfec.UlpfecHeaderReader) (UlpfecReceiver.fec_ r) (UlpfecReceiver.recovered_packets_ r) /\
  Forall waiting_input (UlpfecReceiver.received_packets_ r).

Lemma AddReceivedRedPacket_safe r now packet :
  ulpfec_state r -> arrival_ok packet ->
  safe (fun x => ulpfec_state x.2) (UlpfecReceiver.AddReceivedRedPacket r now packet).
Proof.
  intros [Hd Hw] Hp. rewrite AddReceivedRedPacket_carried by apply Hp.
  destruct (carried _ _ packet) as [rc|] eqn:Ec; [|by split].
  split; [done|]. cbn [UlpfecReceiver.received_packets_ snd]. apply Forall_app. split; [done|].
  destruct (0 <? _)%nat; [|done].
  constructor; [|done]. split; [by eapply carried_ok|]. revert Ec. unfold carried.
  destruct (_ || _); [done|]. intros [= <-]. cbn. destruct Hp as [Hc _].
  destruct (consistent_size _ Hc) as (_ & Hb & _). destruct Hc as [_ Hr]. by eapply reads_seq_u16.
Qed.

Lemma prepared_input rp extensions rp' out :
  waiting_input (rp, extensions) -> prepared rp extensions rp' out -> input_ok rp'.
Proof.
  intros [(Hb & _ & _) Hq] [Hf|q d Hf (Hc & _ & _) Hz]; [split; [done|done|congruence]|].
  destruct (zeroed_sized q d Hc Hz) as [Hbd Hl]. by split.
Qed.

Lemma ProcessReceivedFec_safe r :
  ulpfec_state r -> safe (fun x => ulpfec_state x.1) (UlpfecReceiver.ProcessReceivedFec r).
Proof.
  intros [Hd Hw]. unfold UlpfecReceiver.ProcessReceivedFec.
  apply (safe_bind (fun st => decoder_ok (R := Ulpfec.UlpfecHeaderReader)
    (UlpfecReceiver.pg_fec st) (UlpfecReceiver.pg_recovered st))).
  - apply safe_foldM; [done|]. intros st [rp ext] Hin Hst.
    pose proof (proj1 (Forall_forall _ _) Hw _ Hin) as Hwait. pose proof Hwait as [(Hb & Hm & Hr) _].
    destruct (prepare_received_ok rp ext Hb Hm Hr) as (rp' & out & E & Hp).
    unfold UlpfecReceiver.process_received. rewrite E. cbn [mbind res_bind].
    destruct (rp_is_recovered rp'); [done|].
    eapply safe_bind; [apply (DecodeFec_state (R := Ulpfec.UlpfecHeaderReader));
      [exact Hst|by eapply prepared_input]|]. by intros [[[fec recs] n] log].
  - intros st Hst. destruct (_ =? 0)%nat; [by split|].
    destruct (deliver_safe (UlpfecReceiver.pg_fec st) false
      (default (RtpHeaderExtensionMap.new false) (UlpfecReceiver.pg_last_map st))
      (UlpfecReceiver.pg_recovered st) (UlpfecReceiver.packet_counter_ r) (UlpfecReceiver.pg_out st) Hst)
      as (c' & out' & ->). split; [|done]. by apply decoder_ok_returned.
Qed.

Lemma receive_batches_safe batches st :
  ulpfec_state st.1 -> Forall (fun arrival => arrival_ok arrival.2) (concat batches) ->
  safe (fun x => ulpfec_state x.1) (foldM receive_batch batches st).
Proof.
  intros Hst Hok. apply safe_foldM; [done|]. intros [r out] batch Hin Hr. unfold receive_batch. cbn [fst snd].
  apply (safe_bind ulpfec_state).
  - apply safe_foldM; [done|]. intros r1 arrival Ha Hr1.
    eapply safe_bind; [apply AddReceivedRedPacket_safe; [done|]|done].
    apply (proj1 (Forall_forall _ _) Hok arrival). apply list_elem_of_In, in_concat. exists batch.
    by rewrite <- !list_elem_of_In.
  - intros r1 Hr1. eapply safe_bind; [by apply ProcessReceivedFec_safe|]. by intros [r2 news] Hr2.
Qed.

(** ** FlexFEC *)

Definition flexfec_state (r : FlexfecReceiver.t) : Prop :=
  decoder_ok (R := Flexfec03.Flexfec03HeaderReader) (FlexfecReceiver.erasure_code_ r)
    (FlexfecReceiver.recovered_packets_ r).

Lemma ProcessReceivedPacket_safe r received :
  flexfec_state r -> input_ok received.1 ->
  safe (fun x => flexfec_state x.1) (FlexfecReceiver.ProcessReceivedPacket r received).
Proof.
  intros Hr Hin. unfold FlexfecReceiver.ProcessReceivedPacket.
  eapply safe_bind; [by apply (DecodeFec_state (R := Flexfec03.Flexfec03HeaderReader))|].
  intros [[[fec recs] n] log] Hst. cbn in Hst. destruct (n =? 0)%nat; [done|].
  destruct (deliver_safe fec true received.2 recs (FlexfecReceiver.packet_counter_ r) [] Hst)
    as (c' & out' & ->). by apply decoder_ok_returned.
Qed.

Lemma contributes_total ssrc media_ssrc packet :
  arrival_ok packet -> exists rps, contributes ssrc media_ssrc packet rps /\ Forall input_ok rps.
Proof.
  intros [Hp Hm]. set (p := rtp_packet packet) in *.
  destruct (consistent_size p Hp) as (_ & Hb & _).
  pose proof (reads_seq_u16 _ _ Hb (proj2 Hp)) as Hq.
  destruct (recovered packet) eqn:Er; [exists []; split; [constructor; by left|done]|].
  destruct (decide (RtpPacket.Ssrc p = ssrc)) as [E|E].
  - destruct (decide (RtpPacket.payload_size p < FlexfecReceiver.kMinFlexfecHeaderSize)%nat).
    { exists []. split; [constructor; right; by left|done]. }
    eexists. split; [apply contributes_fec; (done || by apply Nat.nlt_ge)|]. constructor; [|done].
    split; [by apply Forall_take, Forall_drop|done|done].
  - destruct (decide (RtpPacket.Ssrc p = media_ssrc)) as [E'|E'].
    2:{ exists []. split; [constructor; by do 2 right|done]. }
    destruct (ZeroMutableExtensions_ok p Hp Hm) as (z & _ & _ & _ & Hl & Hz).
    assert (Hzd : zeroed p (wire z)) by by split.
    eexists. split; [apply contributes_media; (done || congruence)|]. constructor; [|done].
    destruct (zeroed_sized p _ Hp Hzd) as [Hbd Hld]. by split.
Qed.

Lemma on_packets_safe packets st :
  flexfec_state st.1 -> Forall arrival_ok packets ->
  safe (fun x => flexfec_state x.1) (foldM on_packets packets st).
Proof.
  intros Hst Hok. apply safe_foldM; [done|]. intros [r out] packet Hin Hr. unfold on_packets. cbn [fst snd] in *.
  pose proof (proj1 (Forall_forall _ _) Hok packet Hin) as Hp.
  destruct (contributes_total (FlexfecReceiver.ssrc_ r) (FlexfecReceiver.protected_media_ssrc_ r) packet Hp)
    as (rps & Hc & Hrps).
  apply (safe_bind (fun x => flexfec_state x.1)); [|by intros [r2 news] Hr2].
  destruct (OnRtpPacket_contributes r packet rps Hp Hc) as [[-> ->]|(rp & c & ext & -> & ->)]; [done|].
  apply ProcessReceivedPacket_safe; [done|]. by apply Forall_cons_1 in Hrps as [? _].
Qed.

End Safety.

(** C16. Both receivers survive any traffic.  Whatever RTP packets arrive - RED
    with any content, FEC packets with arbitrary bytes, duplicates, any order,
    any number, any streams - no call of [AddReceivedRedPacket],
    [ProcessReceivedFec] or [OnRtpPacket] leaves a buffer, fails a check or
    loops; the only fault there can be is the use after free of the decoder's
    log statement.  The bounds of the decoder's lists hold after every run. *)
Theorem fec_receivers_safe `{Heap} ssrc payload_type media_ssrc batches packets :
  Forall (fun arrival => arrival_ok arrival.2) (concat batches) -> Forall arrival_ok packets ->
  safe (fun x => ulpfec_state x.1)
    (foldM receive_batch batches (UlpfecReceiver.new ssrc payload_type, [])) /\
  safe (fun x => flexfec_state x.1)
    (foldM on_packets packets (FlexfecReceiver.new ssrc media_ssrc, [])).
Proof.
  intros Hb Hp. split.
  - apply receive_batches_safe; [|done]. split; [apply decoder_init|done].
  - apply on_packets_safe; [|done]. apply decoder_init.
Qed.

(** A RED packet whose ULPFEC payload is garbage, and a garbage FlexFEC packet. *)
Definition garbage_red : list Z := [0x80; 100; 0; 1; 0; 0; 0; 0; 0; 0; 0; 9; 101] ++ replicate 30 0xff.
Definition garbage_flex : list Z := [0x80; 110; 0; 1; 0; 0; 0; 0; 0; 0; 0; 9] ++ replicate 30 0xff.

Lemma fec_receivers_safe_witness :
  safe (fun x => ulpfec_state x.1)
    (foldM (receive_batch (H := zero_heap))
      [[(0, datagram (H := zero_heap) (RtpHeaderExtensionMap.new false) garbage_red)]]
      (UlpfecReceiver.new 9 101, [])) /\
  safe (fun x => flexfec_state x.1)
    (foldM (on_packets (H := zero_heap))
      [datagram (H := zero_heap) (RtpHeaderExtensionMap.new false) garbage_flex]
      (FlexfecReceiver.new 9 33, [])).
Proof.
  apply (fec_receivers_safe (H := zero_heap) 9 101 33
    [[(0, datagram (H := zero_heap) (RtpHeaderExtensionMap.new false) garbage_red)]]
    [datagram (H := zero_heap) (RtpHeaderExtensionMap.new false) garbage_flex]).
  - constructor; [|constructor]. apply datagram_arrival; [apply RtpExtensions.new_ok|compute_bytes].
  - constructor; [|constructor]. apply datagram_arrival; [apply RtpExtensions.new_ok|compute_bytes].
Defined.
