(* ===== verification/RateModel.v ===== *)
(** * RateModel: [rtc_base/rate_statistics.{h,cc}] and
      [rtc_base/bitrate_tracker.{h,cc}]

    The sliding-window counter behind the reported FEC bitrate.  Counts and
    times are [int64_t]; the [float] computation of the rate is done in the
    binary32 format of [SpecFloat].  A [DCHECK]ed precondition is a hypothesis
    of the theorems. *)

From Stdlib Require Import SpecFloat.
From stdpp Require Import sorting.
From S2P Require Import Prelude.

(** ** Single-precision arithmetic *)

Definition f32_of_Z (z : Z) : spec_float := binary_normalize 24 128 z 0 false.
Definition f32_half : spec_float := binary_normalize 24 128 1 (-1) false.
Definition f32_div := SFdiv 24 128.
Definition f32_mul := SFmul 24 128.
Definition f32_add := SFadd 24 128.

(** Conversion to an integer type: truncation; [None] for infinities and NaN. *)
Definition f32_to_Z (x : spec_float) : option Z :=
  match x with
  | S754_zero _ => Some 0
  | S754_finite s m e =>
      let a := if e <? 0 then Z.pos m / 2 ^ (- e) else Z.pos m * 2 ^ e in
      Some (if s then - a else a)
  | _ => None
  end.

Definition int64_max : Z := 2 ^ 63 - 1.

Module RateStatistics.

Record Bucket : Type := mkBucket {
  sum : Z;
  num_samples : Z;
  timestamp : Z
}.

Record t : Type := mk {
  buckets_ : list Bucket;
  accumulated_count_ : Z;
  first_timestamp_ : Z;
  overflow_ : bool;
  num_samples_ : Z;
  scale_ : Z;
  max_window_size_ms_ : Z;
  current_window_size_ms_ : Z
}.

Definition kBpsScale : Z := 8000.

Definition new (window_size_ms scale : Z) : t :=
  mk [] 0 (-1) false 0 scale window_size_ms window_size_ms.

Definition Reset (r : t) : t :=
  mk [] 0 (-1) false 0 (scale_ r) (max_window_size_ms_ r) (max_window_size_ms_ r).

(** The [while] loop of [EraseOld] pops from the front. *)
Fixpoint erase_loop (new_oldest_time : Z) (buckets : list Bucket) (count samples : Z)
    : list Bucket * Z * Z :=
  match buckets with
  | b :: rest =>
      if timestamp b <? new_oldest_time
      then erase_loop new_oldest_time rest (count - sum b) (samples - num_samples b)
      else (buckets, count, samples)
  | [] => ([], count, samples)
  end.

Definition EraseOld (r : t) (now_ms : Z) : t :=
  let new_oldest_time := now_ms - current_window_size_ms_ r + 1 in
  let '(buckets, count, samples) :=
    erase_loop new_oldest_time (buckets_ r) (accumulated_count_ r) (num_samples_ r) in
  mk buckets count (first_timestamp_ r) (overflow_ r) samples (scale_ r)
     (max_window_size_ms_ r) (current_window_size_ms_ r).

(** Adding a sample to the last bucket. *)
Definition add_to_last (count : Z) (buckets : list Bucket) : list Bucket :=
  match last buckets with
  | Some b => removelast buckets ++ [mkBucket (sum b + count) (num_samples b + 1) (timestamp b)]
  | None => []
  end.

Definition Update (r : t) (count now_ms : Z) : t :=
  let r := EraseOld r now_ms in
  let first := if (first_timestamp_ r =? -1) || (num_samples_ r =? 0) then now_ms
               else first_timestamp_ r in
  let buckets :=
    match last (buckets_ r) with
    | Some b =>
        if now_ms =? timestamp b then buckets_ r
        else buckets_ r ++ [mkBucket 0 0 (if now_ms <? timestamp b then timestamp b else now_ms)]
    | None => [mkBucket 0 0 now_ms]
    end in
  let buckets := add_to_last count buckets in
  let fits := count <? int64_max - accumulated_count_ r in
  mk buckets (if fits then accumulated_count_ r + count else accumulated_count_ r) first
     (if fits then overflow_ r else true) (num_samples_ r + 1) (scale_ r)
     (max_window_size_ms_ r) (current_window_size_ms_ r).

(** [active_window_size] of [Rate]. *)
Definition active_window_size (r : t) (now_ms : Z) : Z :=
  if first_timestamp_ r =? -1 then 0 else
  if first_timestamp_ r <=? now_ms - current_window_size_ms_ r
  then current_window_size_ms_ r
  else now_ms - first_timestamp_ r + 1.

(** [Rate] moves the window although it is a const member. *)
Definition Rate (r : t) (now_ms : Z) : option Z * t :=
  let r := EraseOld r now_ms in
  let window := active_window_size r now_ms in
  if (num_samples_ r =? 0) || (window <=? 1) ||
     ((num_samples_ r <=? 1) && (window <? current_window_size_ms_ r)) || overflow_ r
  then (None, r)
  else
    let scale := f32_div (f32_of_Z (scale_ r)) (f32_of_Z window) in
    let result := f32_add (f32_mul (f32_of_Z (accumulated_count_ r)) scale) f32_half in
    if SFltb (f32_of_Z int64_max) result then (None, r) else (f32_to_Z result, r).

Definition SetWindowSize (r : t) (window_size_ms now_ms : Z) : bool * t :=
  if (window_size_ms <=? 0) || (max_window_size_ms_ r <? window_size_ms) then (false, r) else
  let first := if first_timestamp_ r =? -1 then first_timestamp_ r
               else Z.max (first_timestamp_ r) (now_ms - window_size_ms + 1) in
  (true, EraseOld (mk (buckets_ r) (accumulated_count_ r) first (overflow_ r) (num_samples_ r)
                     (scale_ r) (max_window_size_ms_ r) window_size_ms) now_ms).

End RateStatistics.

(** [BitrateTracker] over milliseconds. *)
Module BitrateTracker.

Definition t := RateStatistics.t.
Definition new (max_window_size_ms : Z) : t :=
  RateStatistics.new max_window_size_ms RateStatistics.kBpsScale.
Definition Reset : t -> t := RateStatistics.Reset.
Definition Update (r : t) (bytes now_ms : Z) : t := RateStatistics.Update r bytes now_ms.
Definition Rate (r : t) (now_ms : Z) : option Z * t := RateStatistics.Rate r now_ms.
Definition SetWindowSize (r : t) (window_size_ms now_ms : Z) : bool * t :=
  RateStatistics.SetWindowSize r window_size_ms now_ms.

End BitrateTracker.

(** ** The sliding window *)

Import RateStatistics.

Section Window.

Definition total {A} (f : A -> Z) (l : list A) : Z := foldr (fun a acc => f a + acc) 0 l.

Lemma total_app {A} (f : A -> Z) l1 l2 : total f (l1 ++ l2) = total f l1 + total f l2.
Proof. induction l1 as [|a l1 IH]; cbn; [done|]. fold (total f (l1 ++ l2)). rewrite IH. cbn. unfold total. lia. Qed.

(** The samples at or after [from]: samples are pairs of a count and a time. *)
Definition recent (from : Z) (history : list (Z * Z)) : list (Z * Z) :=
  filter (fun s => from <= s.2) history.
Definition recent_buckets (from : Z) (buckets : list Bucket) : list Bucket :=
  filter (fun b => from <= timestamp b) buckets.

(** The window state stands for the samples of [history] from [from] on. *)
Record stands_for (from : Z) (history : list (Z * Z)) (r : t) : Prop := {
  sf_sorted : StronglySorted Z.lt (map timestamp (buckets_ r));
  sf_count : accumulated_count_ r = total sum (buckets_ r);
  sf_samples : num_samples_ r = total num_samples (buckets_ r);
  sf_sum : forall T, from <= T ->
    total sum (recent_buckets T (buckets_ r)) = total fst (recent T history);
  sf_num : forall T, from <= T ->
    total num_samples (recent_buckets T (buckets_ r)) = total (fun _ => 1) (recent T history);
  sf_recent : Forall (fun b => from <= timestamp b) (buckets_ r)
}.

Lemma recent_all from buckets :
  Forall (fun b => from <= timestamp b) buckets -> recent_buckets from buckets = buckets.
Proof.
  induction 1 as [|b l Hb _ IH]; [done|]. unfold recent_buckets in *.
  rewrite filter_cons, decide_True by done. by f_equal.
Qed.

Lemma sorted_recent from b rest :
  from <= timestamp b -> StronglySorted Z.lt (map timestamp (b :: rest)) ->
  Forall (fun b => from <= timestamp b) (b :: rest).
Proof.
  cbn [map]. intros Hb [_ Hs]%StronglySorted_inv. constructor; [done|]. rewrite List.Forall_map in Hs.
  eapply Forall_impl; [exact Hs|]. cbn. lia.
Qed.

Lemma erase_loop_spec from buckets count samples :
  StronglySorted Z.lt (map timestamp buckets) ->
  let kept := recent_buckets from buckets in
  erase_loop from buckets count samples =
    (kept, count - (total sum buckets - total sum kept),
     samples - (total num_samples buckets - total num_samples kept)).
Proof.
  revert count samples. induction buckets as [|b rest IH]; intros count samples Hs; cbn zeta.
  { cbn. repeat f_equal; lia. }
  cbn [erase_loop]. destruct (Z.ltb_spec (timestamp b) from) as [Hlt|Hge].
  - assert (Hk : recent_buckets from (b :: rest) = recent_buckets from rest)
      by (unfold recent_buckets; rewrite filter_cons, decide_False; [done|lia]).
    cbn [map] in Hs. apply StronglySorted_inv in Hs as [Hs _]. rewrite (IH _ _ Hs), Hk. cbn.
    unfold total. f_equal; [f_equal|]; lia.
  - rewrite (recent_all from (b :: rest)) by by apply sorted_recent. repeat f_equal; lia.
Qed.

Lemma recent_recent from T buckets : from <= T ->
  recent_buckets T (recent_buckets from buckets) = recent_buckets T buckets.
Proof.
  intros HT. induction buckets as [|b l IH]; [done|]. unfold recent_buckets in *. rewrite !filter_cons.
  destruct (decide (from <= timestamp b)), (decide (T <= timestamp b)); try lia; rewrite ?filter_cons;
    rewrite ?decide_True, ?decide_False by lia; by rewrite IH.
Qed.

Lemma sorted_sub_filter from buckets :
  StronglySorted Z.lt (map timestamp buckets) ->
  StronglySorted Z.lt (map timestamp (recent_buckets from buckets)).
Proof.
  induction buckets as [|b l IH]; [done|]. cbn [map]. intros [Hs Hb]%StronglySorted_inv.
  unfold recent_buckets in *. rewrite filter_cons. destruct (decide _); [|by apply IH].
  cbn [map]. constructor; [by apply IH|]. apply List.Forall_map, Forall_forall.
  intros b' [_ Hin]%list_elem_of_filter. rewrite List.Forall_map in Hb.
  exact (proj1 (Forall_forall _ _) Hb b' Hin).
Qed.

Lemma EraseOld_stands from history r now :
  stands_for from history r -> from <= now - current_window_size_ms_ r + 1 ->
  stands_for (now - current_window_size_ms_ r + 1) history (EraseOld r now).
Proof.
  intros [Hs Hc Hn Hsum Hnum Hr] Hle. unfold EraseOld. set (T := now - _ + 1) in *.
  rewrite (erase_loop_spec T) by done. split; cbn [buckets_ accumulated_count_ num_samples_].
  - by apply sorted_sub_filter.
  - lia.
  - lia.
  - intros T' HT'. rewrite recent_recent by done. apply Hsum. lia.
  - intros T' HT'. rewrite recent_recent by done. apply Hnum. lia.
  - apply Forall_forall. by intros b [Hb _]%list_elem_of_filter.
Qed.

Lemma add_to_last_snoc count init b :
  add_to_last count (init ++ [b]) = init ++ [mkBucket (sum b + count) (num_samples b + 1) (timestamp b)].
Proof. unfold add_to_last. by rewrite last_snoc, removelast_last. Qed.

(** The buckets after [Update] has found the one for [now]. *)
Lemma update_buckets buckets now :
  StronglySorted Z.lt (map timestamp buckets) -> Forall (fun b => timestamp b <= now) buckets ->
  exists init b,
    match last buckets with
    | Some b =>
        if now =? timestamp b then buckets
        else buckets ++ [mkBucket 0 0 (if now <? timestamp b then timestamp b else now)]
    | None => [mkBucket 0 0 now]
    end = init ++ [b] /\ timestamp b = now /\
    StronglySorted Z.lt (map timestamp init) /\ Forall (fun b => timestamp b < now) init /\
    (buckets = init ++ [b] \/ (buckets = init /\ sum b = 0 /\ num_samples b = 0)).
Proof.
  destruct buckets as [|bl init _] using rev_ind; intros Hs Hle.
  { exists [], (mkBucket 0 0 now). cbn. split_and!; try done. by right. }
  rewrite last_snoc. apply Forall_app in Hle as [_ Hl]. apply Forall_cons_1 in Hl as [Hl _].
  rewrite map_app in Hs. pose proof (StronglySorted_app_1_l _ _ _ Hs) as Hs1.
  assert (Hlt : Forall (fun b => timestamp b < timestamp bl) init).
  { apply Forall_forall. intros b Hb. apply (StronglySorted_app_1_elem_of _ _ _ _ _ Hs); [by apply list_elem_of_fmap_2|left]. }
  destruct (Z.eqb_spec now (timestamp bl)) as [->|Hne].
  - exists init, bl. split_and!; try done. by left.
  - rewrite (proj2 (Z.ltb_ge _ _)) by lia. exists (init ++ [bl]), (mkBucket 0 0 now).
    split_and!; try done; [by rewrite map_app| |by right].
    apply Forall_app. split; [|constructor; [lia|done]]. eapply Forall_impl; [exact Hlt|]. cbn. lia.
Qed.

Lemma recent_snoc T buckets b :
  recent_buckets T (buckets ++ [b]) =
  recent_buckets T buckets ++ (if decide (T <= timestamp b) then [b] else []).
Proof. unfold recent_buckets. rewrite filter_app, filter_cons, filter_nil. done. Qed.

Lemma history_snoc T history s :
  recent T (history ++ [s]) = recent T history ++ (if decide (T <= s.2) then [s] else []).
Proof. unfold recent. rewrite filter_app, filter_cons, filter_nil. done. Qed.

Lemma Update_stands from history r count now :
  stands_for from history r -> from <= now - current_window_size_ms_ r + 1 ->
  0 < current_window_size_ms_ r -> Forall (fun b => timestamp b <= now) (buckets_ r) ->
  overflow_ r = false -> 0 <= count ->
  accumulated_count_ (EraseOld r now) + count < int64_max ->
  let r' := Update r count now in
  stands_for (now - current_window_size_ms_ r + 1) (history ++ [(count, now)]) r' /\
  overflow_ r' = false /\ current_window_size_ms_ r' = current_window_size_ms_ r /\
  Forall (fun b => timestamp b <= now) (buckets_ r').
Proof.
  intros Hst Hle Hw Hnow Hov Hcount Hfit. cbv zeta.
  pose proof (EraseOld_stands _ _ _ _ Hst Hle) as [Hs Hc Hn Hsum Hnum Hr].
  set (T := now - current_window_size_ms_ r + 1) in *.
  assert (Hnow' : Forall (fun b => timestamp b <= now) (buckets_ (EraseOld r now))).
  { unfold EraseOld. rewrite erase_loop_spec by apply Hst. cbn. apply Forall_forall.
    intros b [_ Hin]%list_elem_of_filter. exact (proj1 (Forall_forall _ _) Hnow b Hin). }
  assert (Hw' : current_window_size_ms_ (EraseOld r now) = current_window_size_ms_ r /\
    overflow_ (EraseOld r now) = overflow_ r).
  { unfold EraseOld. by rewrite erase_loop_spec by apply Hst. }
  unfold Update. set (e := EraseOld r now) in *. clearbody e.
  destruct (update_buckets (buckets_ e) now Hs Hnow') as (init & b & -> & Hb & Hsi & Hlt & Hcase).
  rewrite add_to_last_snoc, (proj2 (Z.ltb_lt _ _)) by lia.
  assert (Hsame : forall f, f = sum \/ f = num_samples -> forall T',
    total f (recent_buckets T' (buckets_ e)) =
    total f (recent_buckets T' init) + (if decide (T' <= now) then f b else 0)).
  { intros f Hf T'. destruct Hcase as [->|(-> & E1 & E2)].
    - rewrite recent_snoc, total_app, Hb. destruct (decide _); cbn; lia.
    - assert (f b = 0) as -> by (destruct Hf as [->| ->]; done). destruct (decide _); lia. }
  assert (Hall : forall f, f = sum \/ f = num_samples ->
    total f (buckets_ e) = total f init + f b).
  { intros f Hf. destruct Hcase as [->|(-> & E1 & E2)]; [rewrite total_app; cbn; lia|].
    assert (f b = 0) as -> by (destruct Hf as [->| ->]; done). lia. }
  split; [|split; [|split]]; [split| | |];
    cbn [buckets_ accumulated_count_ num_samples_ overflow_ current_window_size_ms_].
  - rewrite map_app. cbn. apply StronglySorted_app_2; [|done|repeat constructor].
    intros x y Hx Hy. apply list_elem_of_fmap in Hx as (b' & -> & Hb').
    apply list_elem_of_singleton in Hy as ->. rewrite Hb. exact (proj1 (Forall_forall _ _) Hlt b' Hb').
  - rewrite Hc, Hall, total_app by auto. cbn. lia.
  - rewrite Hn, Hall, total_app by auto. cbn. lia.
  - intros T' HT'. specialize (Hsum T' HT'). rewrite Hsame in Hsum by auto.
    rewrite recent_snoc, history_snoc, !total_app. cbn [timestamp snd]. rewrite Hb, <- Hsum.
    destruct (decide (T' <= now)); cbn; lia.
  - intros T' HT'. specialize (Hnum T' HT'). rewrite Hsame in Hnum by auto.
    rewrite recent_snoc, history_snoc, !total_app. cbn [timestamp snd]. rewrite Hb, <- Hnum.
    destruct (decide (T' <= now)); cbn; lia.
  - apply Forall_app. split; [|constructor; [cbn; lia|done]]. destruct Hcase as [E|[<- _]]; [|done].
    rewrite E in Hr. by apply Forall_app in Hr as [? _].
  - by rewrite (proj2 Hw').
  - apply Hw'.
  - apply Forall_app. split; [|constructor; [cbn; lia|done]]. eapply Forall_impl; [exact Hlt|]. cbn. lia.
Qed.

Lemma stands_totals from history r :
  stands_for from history r ->
  accumulated_count_ r = total fst (recent from history) /\
  num_samples_ r = Z.of_nat (length (recent from history)).
Proof.
  intros [_ Hc Hn Hsum Hnum Hr]. specialize (Hsum from ltac:(lia)). specialize (Hnum from ltac:(lia)).
  rewrite recent_all in Hsum, Hnum by done. split; [congruence|].
  rewrite Hn, Hnum. clear. induction (recent from history) as [|s l IH]; [done|].
  cbn [length total foldr]. fold (total (fun _ : Z * Z => 1) l). rewrite IH. lia.
Qed.

Lemma recent_total from history :
  Forall (fun s => 0 <= s.1) history -> total fst (recent from history) <= total fst history.
Proof.
  induction 1 as [|s l Hs _ IH]; [done|]. unfold recent in *. rewrite filter_cons.
  destruct (decide _); cbn; unfold total in *; lia.
Qed.

Definition updates (history : list (Z * Z)) (r : t) : t :=
  foldl (fun r s => Update r s.1 s.2) r history.

Lemma updates_stand W scale history :
  0 < W -> Forall (fun s => 0 <= s.1) history -> StronglySorted Z.le (map snd history) ->
  total fst history < int64_max ->
  forall now, Forall (fun s => s.2 <= now) history ->
  let r := updates history (new W scale) in
  current_window_size_ms_ r = W /\ overflow_ r = false /\
  Forall (fun b => timestamp b <= now) (buckets_ r) /\
  exists from, from <= now - W + 1 /\ stands_for from history r.
Proof.
  intros HW. induction history as [|[count time] history IH] using rev_ind; intros Hpos Hs Hmax now Hnow r.
  { subst r. cbn. split_and!; try done. exists (now - W + 1). split; [lia|]. split; by try constructor. }
  apply Forall_app in Hpos as [Hpos Hc]. apply Forall_cons_1 in Hc as [Hc _].
  apply Forall_app in Hnow as [_ Hl]. apply Forall_cons_1 in Hl as [Hl _]. cbn in Hc, Hl.
  rewrite map_app in Hs. pose proof (StronglySorted_app_1_l _ _ _ Hs) as Hs1.
  rewrite total_app in Hmax. cbn in Hmax.
  destruct (IH Hpos Hs1 ltac:(lia) time) as (EW & Eo & Hts & from & Hfrom & Hst).
  { apply Forall_forall. intros s Hin.
    apply (StronglySorted_app_1_elem_of _ _ _ _ _ Hs); [by apply list_elem_of_fmap_2|left]. }
  subst r. unfold updates in *. rewrite foldl_app. cbn [foldl fst snd].
  set (r0 := foldl _ _ history) in *. clearbody r0. rewrite <- EW in Hfrom.
  assert (Hfit : accumulated_count_ (EraseOld r0 time) + count < int64_max).
  { destruct (stands_totals _ _ _ (EraseOld_stands _ _ _ _ Hst Hfrom)) as [-> _].
    pose proof (recent_total (time - current_window_size_ms_ r0 + 1) history Hpos). lia. }
  destruct (Update_stands from history r0 count time Hst Hfrom ltac:(lia) Hts Eo Hc Hfit)
    as (Hst' & Eo' & EW' & Hts'). rewrite EW', EW in *. split_and!; try done.
  - eapply Forall_impl; [exact Hts'|]. cbn. lia.
  - exists (time - W + 1). split; [lia|done].
Qed.

End Window.


