(* ===== verification/UlpfecSender.v ===== *)
(** * UlpfecSender: the sending side of ULPFEC

    [ulpfec_generator.{h,cc}], the RED encapsulation of media packets
    ([BuildRedPayload] of [rtp_sender_video.cc]) and its inverse where media
    packets are handed to the generator ([rtp_sender_egress.cc]).

    The mutex and race checker are not modelled: the members are called one
    after the other.  [generated_fec_packets_] holds pointers into the
    encoder's packets; here it holds their contents. *)

From Stdlib Require Import SpecFloat.
From S2P Require Import Prelude.
From S2P Require Import CowBuffer.
From S2P Require Import RtpPacketModel.
From S2P Require Import PacketMasks.
From S2P Require Import FecTypes.
From S2P Require Import FecEncoder.
From S2P Require Import RateModel.

Inductive RtpPacketMediaType : Set :=
| kAudio | kVideo | kRetransmission | kForwardErrorCorrection | kPadding.

(** A point in time, in microseconds. *)
Inductive Timestamp : Set := MinusInfinity | Micros (us : Z).

(** [RtpPacketToSend], with the members the FEC code and the sequencer use. *)
Record RtpPacketToSend : Type := mkToSend {
  packet : RtpPacket.t;
  capture_time : Timestamp;
  packet_type : option RtpPacketMediaType;
  allow_retransmission : bool;
  is_key_frame : bool;
  fec_protect_packet : bool;
  is_red : bool
}.

Definition with_packet (s : RtpPacketToSend) (p : RtpPacket.t) : RtpPacketToSend :=
  mkToSend p (capture_time s) (packet_type s) (allow_retransmission s) (is_key_frame s) (fec_protect_packet s) (is_red s).

(** Copying a packet shares its buffer. *)
Definition copy (s : RtpPacketToSend) : RtpPacketToSend :=
  with_packet s (RtpPacket.with_buffer (packet s) (Cow.share (RtpPacket.buffer_ (packet s)))).

Definition kRedForFecHeaderLength : nat := 1.

Section Red.
Context `{Heap}.

Definition BuildRedPayload (media_packet red_packet : RtpPacket.t) : res RtpPacket.t :=
  let! p := RtpPacket.AllocatePayload red_packet
              (kRedForFecHeaderLength + RtpPacket.payload_size media_packet) in
  let! p := RtpPacket.WriteAt p (RtpPacket.payload_offset_ p) (RtpPacket.PayloadType media_packet) in
  let! media_payload := RtpPacket.payload media_packet in
  RtpPacket.write (fun d => memcpy d (RtpPacket.payload_offset_ p + kRedForFecHeaderLength)
                              media_payload 0 (length media_payload)) p.

(** The RED copy of a media packet that [SendVideo] sends instead of it. *)
Definition red_packet_of (s : RtpPacketToSend) (red_payload_type : Z) : res RtpPacketToSend :=
  let c := copy s in
  let! p := BuildRedPayload (packet s) (packet c) in
  let! p := RtpPacket.SetPayloadType p red_payload_type in
  Ok (mkToSend p (capture_time s) (Some kVideo) (allow_retransmission s) (is_key_frame s) (fec_protect_packet s) true).

(** What [SendPacket] adds to the generator for a RED packet. *)
Definition unpack_red (s : RtpPacketToSend) : res RtpPacketToSend :=
  let p := packet s in
  let! media_type := RtpPacket.data_at p (RtpPacket.headers_size p) in
  let! u := RtpPacket.SetPayloadType (packet (copy s)) media_type in
  let! n := size_sub (RtpPacket.payload_size p) 1 in
  let! u := RtpPacket.SetPayloadSize u n in
  let! payload := RtpPacket.payload p in
  let! u := RtpPacket.write (fun d => memcpy d (RtpPacket.payload_offset_ u) payload 1 n) u in
  Ok (with_packet s u).

End Red.

Record FecProtectionParams : Type := mkFecProtectionParams {
  fec_rate : Z;
  max_fec_frames : Z;
  fec_mask_type : FecMaskType
}.

Definition default_params : FecProtectionParams := mkFecProtectionParams 0 0 kFecMaskRandom.

Module UlpfecGenerator.

Record Params : Type := mkParams {
  delta_params : FecProtectionParams;
  keyframe_params : FecProtectionParams
}.

Record t : Type := mk {
  red_payload_type_ : Z;
  ulpfec_payload_type_ : Z;
  fec_ : Encoder;
  media_packets_ : list Packet;
  last_media_packet_ : option RtpPacketToSend;
  generated_fec_packets_ : list Packet;
  num_protected_frames_ : Z;
  min_num_media_packets_ : Z;
  current_params_ : Params;
  media_contains_keyframe_ : bool;
  pending_params_ : option Params;
  fec_bitrate_ : BitrateTracker.t
}.

Definition kMaxExcessOverhead : Z := 50.
Definition kMinMediaPackets : Z := 4.
Definition kHighProtectionThreshold : Z := 80.

(** [CreateUlpfec] makes a fresh encoder. *)
Definition new (red_payload_type ulpfec_payload_type : Z) (fec : Encoder) : t :=
  mk red_payload_type ulpfec_payload_type fec [] None [] 0 1
     (mkParams default_params default_params) false None (BitrateTracker.new 1000).

Definition SetProtectionParameters (g : t) (delta_params key_params : FecProtectionParams) : t :=
  mk (red_payload_type_ g) (ulpfec_payload_type_ g) (fec_ g) (media_packets_ g)
     (last_media_packet_ g) (generated_fec_packets_ g) (num_protected_frames_ g)
     (min_num_media_packets_ g) (current_params_ g) (media_contains_keyframe_ g)
     (Some (mkParams delta_params key_params)) (fec_bitrate_ g).

Definition CurrentParams (g : t) : FecProtectionParams :=
  if media_contains_keyframe_ g then keyframe_params (current_params_ g)
  else delta_params (current_params_ g).

Definition ResetState (g : t) : t :=
  mk (red_payload_type_ g) (ulpfec_payload_type_ g) (fec_ g) [] None [] 0
     (min_num_media_packets_ g) (current_params_ g) false (pending_params_ g) (fec_bitrate_ g).

(** Overhead in Q8; an [int] shifted, then divided as [size_t]. *)
Definition Overhead (g : t) : res Z :=
  let size := Z.of_nat (length (media_packets_ g)) in
  let num_fec_packets := NumFecPackets size (fec_rate (CurrentParams g)) in
  if size =? 0 then Fault DivideByZero else Ok (Z.shiftl num_fec_packets 8 / size).

Definition ExcessOverheadBelowMax (g : t) : res bool :=
  let! overhead := Overhead g in
  Ok (overhead - fec_rate (CurrentParams g) <? kMaxExcessOverhead).

(** [average_num_packets_per_frame < kMinMediaPacketsAdaptationThreshold]. *)
Definition few_packets_per_frame (media_packets frames : Z) : bool :=
  SFltb (f32_div (f32_of_Z media_packets) (f32_of_Z frames)) (f32_of_Z 2).

Definition MinimumMediaPacketsReached (g : t) : bool :=
  let num_media_packets := Z.of_nat (length (media_packets_ g)) in
  if few_packets_per_frame num_media_packets (num_protected_frames_ g)
  then min_num_media_packets_ g <=? num_media_packets
  else min_num_media_packets_ g + 1 <=? num_media_packets.

(** Pending parameters take effect with the next packet. *)
Definition apply_pending (g : t) : t :=
  match pending_params_ g with
  | None => g
  | Some params =>
      let g1 := mk (red_payload_type_ g) (ulpfec_payload_type_ g) (fec_ g) (media_packets_ g)
        (last_media_packet_ g) (generated_fec_packets_ g) (num_protected_frames_ g)
        (min_num_media_packets_ g) params (media_contains_keyframe_ g) None (fec_bitrate_ g) in
      mk (red_payload_type_ g1) (ulpfec_payload_type_ g1) (fec_ g1) (media_packets_ g1)
        (last_media_packet_ g1) (generated_fec_packets_ g1) (num_protected_frames_ g1)
        (if kHighProtectionThreshold <? fec_rate (CurrentParams g1) then kMinMediaPackets else 1)
        (current_params_ g1) (media_contains_keyframe_ g1) (pending_params_ g1) (fec_bitrate_ g1)
  end.

(** Storing the packet and counting its frame. *)
Definition add_packet (g : t) (s : RtpPacketToSend) : t :=
  let room := (length (media_packets_ g) <? kUlpfecMaxMediaPackets)%nat in
  mk (red_payload_type_ g) (ulpfec_payload_type_ g) (fec_ g)
     (if room then media_packets_ g ++ [Cow.contents (RtpPacket.buffer_ (packet s))]
      else media_packets_ g)
     (if room then Some (copy s) else last_media_packet_ g)
     (generated_fec_packets_ g)
     (if RtpPacket.Marker (packet s) then num_protected_frames_ g + 1 else num_protected_frames_ g)
     (min_num_media_packets_ g) (current_params_ g)
     (is_key_frame s || media_contains_keyframe_ g) (pending_params_ g) (fec_bitrate_ g).

(** The condition under which FEC is produced. *)
Definition enough_media (g : t) (complete_frame : bool) : res bool :=
  if negb complete_frame then Ok false else
  if max_fec_frames (CurrentParams g) <=? num_protected_frames_ g then Ok true else
  let! below := ExcessOverheadBelowMax g in
  Ok (below && MinimumMediaPacketsReached g).

Section WithHeap.
Context `{Heap} {W : FecHeaderWriter}.

Definition MaxPacketOverhead (g : t) : nat := FecTypes.MaxPacketOverhead.

Definition AddPacketAndGenerateFec (g : t) (s : RtpPacketToSend) : res t :=
  let g := add_packet (apply_pending g) s in
  let! produce := enough_media g (RtpPacket.Marker (packet s)) in
  if negb produce then Ok g else
  let params := CurrentParams g in
  let! (fec, _, packets) := EncodeFec (fec_ g) (media_packets_ g) (u8 (fec_rate params)) 0 false
                              (fec_mask_type params) in
  let generated := generated_fec_packets_ g ++ packets in
  let g := mk (red_payload_type_ g) (ulpfec_payload_type_ g) fec (media_packets_ g)
     (last_media_packet_ g) generated (num_protected_frames_ g) (min_num_media_packets_ g)
     (current_params_ g) (media_contains_keyframe_ g) (pending_params_ g) (fec_bitrate_ g) in
  Ok match generated with [] => ResetState g | _ => g end.

(** One FEC packet as RED packet with the header of the last media packet. *)
Definition red_fec_packet (g : t) (last : RtpPacketToSend) (fec_packet : Packet)
    : res RtpPacketToSend :=
  let! p := RtpPacket.SetPayloadType (packet (copy last)) (red_payload_type_ g) in
  let! p := RtpPacket.SetMarker p false in
  let! p := RtpPacket.SetPayloadSize p (kRedForFecHeaderLength + length fec_packet) in
  let! p := RtpPacket.WriteAt p (RtpPacket.payload_offset_ p) (ulpfec_payload_type_ g) in
  let! p := RtpPacket.write (fun d => memcpy d (RtpPacket.payload_offset_ p + 1) fec_packet 0
                                        (length fec_packet)) p in
  Ok (mkToSend p (capture_time last) (Some kForwardErrorCorrection) false (is_key_frame last) false true).

Definition GetFecPackets (g : t) (now_ms : Z) : res (list RtpPacketToSend * t) :=
  match generated_fec_packets_ g with
  | [] => Ok ([], g)
  | generated =>
      match last_media_packet_ g with
      | None => Fault CheckFailed
      | Some last =>
          let! p := RtpPacket.SetPayloadSize (packet last) 0 in
          let last := with_packet last p in
          let! fec_packets := foldM (fun out fec_packet =>
            let! red := red_fec_packet g last fec_packet in Ok (out ++ [red])) generated [] in
          let total := foldr (fun s n => (RtpPacket.size (packet s) + n)%nat) 0%nat fec_packets in
          let g := ResetState g in
          Ok (fec_packets,
              mk (red_payload_type_ g) (ulpfec_payload_type_ g) (fec_ g) (media_packets_ g)
                 (last_media_packet_ g) (generated_fec_packets_ g) (num_protected_frames_ g)
                 (min_num_media_packets_ g) (current_params_ g) (media_contains_keyframe_ g)
                 (pending_params_ g) (BitrateTracker.Update (fec_bitrate_ g) (Z.of_nat total) now_ms))
      end
  end.

(** In bits per second; the query moves the window of the tracker. *)
Definition CurrentFecRate (g : t) (now_ms : Z) : Z * t :=
  let '(rate, tracker) := BitrateTracker.Rate (fec_bitrate_ g) now_ms in
  (default 0 rate,
   mk (red_payload_type_ g) (ulpfec_payload_type_ g) (fec_ g) (media_packets_ g)
      (last_media_packet_ g) (generated_fec_packets_ g) (num_protected_frames_ g)
      (min_num_media_packets_ g) (current_params_ g) (media_contains_keyframe_ g)
      (pending_params_ g) tracker).

End WithHeap.
End UlpfecGenerator.
