(* ===== verification/SequencerModel.v ===== *)
(** * SequencerModel: sequence numbers for outgoing packets

    [packet_sequencer.{h,cc}].  The clock is read once per call and is an
    argument here.  The start values, drawn at random by the constructor, are
    arguments of [new]. *)

From S2P Require Import Prelude.
From S2P Require Import CowBuffer.
From S2P Require Import RtpPacketModel.
From S2P Require Import UlpfecSender.

(** [DivideRoundToNearest] of an [int64_t] by a positive divisor; [/] and [%]
    truncate towards zero. *)
Definition DivideRoundToNearest (dividend divisor : Z) : Z :=
  let half_of_divisor := if dividend <? 0 then Z.quot divisor 2 else Z.quot (divisor - 1) 2 in
  let quotient := Z.quot dividend divisor in
  let remainder := Z.rem dividend divisor in
  if dividend <? 0
  then if half_of_divisor <? - remainder then quotient - 1 else quotient
  else if half_of_divisor <? remainder then quotient + 1 else quotient.

Definition kTimestampTicksPerMs : Z := 90.

Module PacketSequencer.

Record t : Type := mk {
  media_ssrc_ : Z;
  rtx_ssrc_ : option Z;
  require_marker_before_media_padding_ : bool;
  media_sequence_number_ : Z;
  rtx_sequence_number_ : Z;
  last_payload_type_ : Z;
  last_rtp_timestamp_ : Z;
  last_capture_time_ : Timestamp;
  last_timestamp_time_ : Timestamp;
  last_packet_marker_bit_ : bool
}.

Definition new (media_ssrc : Z) (rtx_ssrc : option Z) (require_marker : bool)
    (media_start rtx_start : Z) : t :=
  mk media_ssrc rtx_ssrc require_marker media_start rtx_start (-1) 0 MinusInfinity MinusInfinity false.

Definition set_media_sequence_number (q : t) (sequence_number : Z) : t :=
  mk (media_ssrc_ q) (rtx_ssrc_ q) (require_marker_before_media_padding_ q) sequence_number
     (rtx_sequence_number_ q) (last_payload_type_ q) (last_rtp_timestamp_ q) (last_capture_time_ q)
     (last_timestamp_time_ q) (last_packet_marker_bit_ q).

Definition set_rtx_sequence_number (q : t) (sequence_number : Z) : t :=
  mk (media_ssrc_ q) (rtx_ssrc_ q) (require_marker_before_media_padding_ q) (media_sequence_number_ q)
     sequence_number (last_payload_type_ q) (last_rtp_timestamp_ q) (last_capture_time_ q)
     (last_timestamp_time_ q) (last_packet_marker_bit_ q).

(** The members of [RtpState] the sequencer keeps. *)
Record RtpState : Type := mkRtpState {
  sequence_number : Z;
  timestamp : Z;
  state_capture_time : Timestamp;
  last_timestamp_time : Timestamp
}.

Definition SetRtpState (q : t) (state : RtpState) : t :=
  mk (media_ssrc_ q) (rtx_ssrc_ q) (require_marker_before_media_padding_ q) (sequence_number state)
     (rtx_sequence_number_ q) (last_payload_type_ q) (timestamp state) (state_capture_time state)
     (last_timestamp_time state) (last_packet_marker_bit_ q).

Definition PopulateRtpState (q : t) : RtpState :=
  mkRtpState (media_sequence_number_ q) (last_rtp_timestamp_ q) (last_capture_time_ q)
             (last_timestamp_time_ q).

Definition CanSendPaddingOnMediaSsrc (q : t) : bool :=
  if last_payload_type_ q =? -1 then false
  else if require_marker_before_media_padding_ q && negb (last_packet_marker_bit_ q) then false
  else true.

(** [Timestamp::Zero() < time]. *)
Definition after_zero (time : Timestamp) : bool :=
  match time with MinusInfinity => false | Micros us => 0 <? us end.

Definition plus (time : Timestamp) (delta : Z) : Timestamp :=
  match time with MinusInfinity => MinusInfinity | Micros us => Micros (us + delta) end.

Definition with_capture_time (s : RtpPacketToSend) (time : Timestamp) : RtpPacketToSend :=
  mkToSend (packet s) time (packet_type s) (allow_retransmission s) (is_key_frame s)
           (fec_protect_packet s) (is_red s).

(** An [int8_t]. *)
Definition to_int8 (v : Z) : Z := if v <? 128 then v else v - 256.

Section WithHeap.
Context `{Heap}.

Definition UpdateLastPacketState (q : t) (now_us : Z) (s : RtpPacketToSend) : res t :=
  let p := packet s in
  let! payload_type :=
    if is_red s then RtpPacket.data_at p (RtpPacket.payload_offset_ p)
    else Ok (RtpPacket.PayloadType p) in
  Ok (mk (media_ssrc_ q) (rtx_ssrc_ q) (require_marker_before_media_padding_ q)
         (media_sequence_number_ q) (rtx_sequence_number_ q) (to_int8 payload_type)
         (RtpPacket.Timestamp p) (capture_time s) (Micros now_us) (RtpPacket.Marker p)).

Definition PopulatePaddingFields (q : t) (now_us : Z) (s : RtpPacketToSend) : res RtpPacketToSend :=
  if RtpPacket.Ssrc (packet s) =? media_ssrc_ q then
    let! p := RtpPacket.SetTimestamp (packet s) (last_rtp_timestamp_ q) in
    let s := with_capture_time (with_packet s p) (last_capture_time_ q) in
    let! p := RtpPacket.SetPayloadType (packet s) (u8 (last_payload_type_ q)) in
    Ok (with_packet s p)
  else if (0 <? RtpPacket.payload_size (packet s))%nat then Ok s
  else
    let! p := RtpPacket.SetTimestamp (packet s) (last_rtp_timestamp_ q) in
    let s := with_capture_time (with_packet s p) (last_capture_time_ q) in
    match last_timestamp_time_ q with
    | Micros last =>
        if 0 <? last then
          let since_last_media := now_us - last in
          let! p := RtpPacket.SetTimestamp (packet s)
                      (uw 32 (RtpPacket.Timestamp (packet s) +
                              DivideRoundToNearest since_last_media 1000 * kTimestampTicksPerMs)) in
          let s := with_packet s p in
          Ok (if after_zero (capture_time s)
              then with_capture_time s (plus (capture_time s) since_last_media) else s)
        else Ok s
    | MinusInfinity => Ok s
    end.

Definition has_type (s : RtpPacketToSend) (type : RtpPacketMediaType) : bool :=
  match packet_type s, type with
  | Some kAudio, kAudio | Some kVideo, kVideo | Some kRetransmission, kRetransmission
  | Some kForwardErrorCorrection, kForwardErrorCorrection | Some kPadding, kPadding => true
  | _, _ => false
  end.

Definition Sequence (q : t) (now_us : Z) (s : RtpPacketToSend) : res (RtpPacketToSend * t) :=
  if RtpPacket.Ssrc (packet s) =? media_ssrc_ q then
    if has_type s kRetransmission then Ok (s, q) else
    let! s := if has_type s kPadding then PopulatePaddingFields q now_us s else Ok s in
    let! p := RtpPacket.SetSequenceNumber (packet s) (media_sequence_number_ q) in
    let s := with_packet s p in
    let q := set_media_sequence_number q (u16 (media_sequence_number_ q + 1)) in
    let! q := if negb (has_type s kPadding) then UpdateLastPacketState q now_us s else Ok q in
    Ok (s, q)
  else if decide (Some (RtpPacket.Ssrc (packet s)) = rtx_ssrc_ q) then
    let! s := if has_type s kPadding then PopulatePaddingFields q now_us s else Ok s in
    let! p := RtpPacket.SetSequenceNumber (packet s) (rtx_sequence_number_ q) in
    Ok (with_packet s p, set_rtx_sequence_number q (u16 (rtx_sequence_number_ q + 1)))
  else Ok (s, q).

End WithHeap.
End PacketSequencer.
