(* ===== verification/GeneratorLaws.v ===== *)
(** * GeneratorLaws: writing payloads, and the RED encapsulation *)

From S2P Require Import Prelude.
From S2P Require Import ByteIo.
From S2P Require Import CowBuffer.
From S2P Require Import RtpExtensions.
From S2P Require Import RtpPacketModel.
From S2P Require Import RtpPacketLaws.
From S2P Require Import RtpPacketOps.
From S2P Require Import RtpPacketSession.
From S2P Require Import PacketMasks.
From S2P Require Import FecTypes.
From S2P Require Import FecEncoder.
From S2P Require Import FecReceivers.
From S2P Require Import ReceiverLaws.
From S2P Require Import UlpfecSender.

(** A packet without padding is its header followed by its payload. *)
Definition sendable (p : RtpPacket.t) : Prop := consistent p /\ unpadded p.

Definition header_bytes (p : RtpPacket.t) : list Z := take (RtpPacket.headers_size p) (wire p).
Definition payload_bytes (p : RtpPacket.t) : list Z := drop (RtpPacket.headers_size p) (wire p).

Lemma sendable_split p : sendable p ->
  wire p = header_bytes p ++ payload_bytes p /\
  length (header_bytes p) = RtpPacket.headers_size p /\
  length (payload_bytes p) = RtpPacket.payload_size p /\
  (12 <= RtpPacket.headers_size p)%nat /\ bytes (wire p).
Proof.
  intros [Hc [Hpad _]]. destruct (consistent_size p Hc) as (Hsz & Hb & Hhs).
  unfold header_bytes, payload_bytes. rewrite take_drop, length_take, length_drop.
  unfold RtpPacket.size, RtpPacket.headers_size, RtpPacket.payload_size, kFixedHeaderSize in *.
  rewrite Hpad in Hsz. split_and!; (done || lia).
Qed.

Section Laws.
Context `{Heap}.

(** A write that leaves the header alone. *)
Lemma payload_write p f g d' :
  sendable p -> local_write (length (wire p)) f g -> g (wire p) = Ok d' ->
  length d' = length (wire p) ->
  (forall i, (i < RtpPacket.headers_size p)%nat -> d' !! i = wire p !! i) ->
  exists p', RtpPacket.write f p = Ok p' /\ sendable p' /\ wire p' = d' /\ only_buffer p p'.
Proof.
  intros [[Hok Hr] [Hpad Hbit]] Hloc Hg Hlen Hag.
  destruct (consistent_size p (conj Hok Hr)) as (Hsz & Hby & Hhs).
  change (RtpPacket.payload_offset_ p) with (RtpPacket.headers_size p) in Hhs.
  unfold kFixedHeaderSize in Hhs.
  assert (Hhl : (RtpPacket.headers_size p <= length (wire p))%nat).
  { rewrite Hsz. unfold RtpPacket.size, RtpPacket.headers_size. lia. }
  destruct (write_wire f g p Hok) as (b' & E & Hok' & _ & Hg'); [by rewrite size_wire|].
  rewrite Hg in Hg'. injection Hg' as Hd'. set (p' := RtpPacket.with_buffer p b') in *.
  assert (Hw : wire p' = d') by done.
  destruct (lookup_lt_is_Some_2 (wire p) 0) as [b0 E0]; [lia|].
  assert (E0' : d' !! 0%nat = Some b0) by (rewrite Hag by lia; done).
  assert (Hb0 : has_bits b0 0x20 = false).
  { unfold RtpPacket.has_padding in Hbit. rewrite (data_at_wire p 0 b0 E0) in Hbit. by injection Hbit. }
  exists p'. split; [done|]. split; [|split; [done|by exists b']]. split; [split; [done|]|split; [exact Hpad|]].
  - rewrite Hw. apply (reads_tail (wire p) d' p p' b0 b0); try done.
    + change (RtpPacket.payload_offset_ p) with (RtpPacket.headers_size p). lia.
    + intros i Hi. apply Hag, Hi.
    + unfold pad_layout. rewrite Hb0. cbn [andb].
      change (RtpPacket.payload_offset_ p) with (RtpPacket.headers_size p).
      rewrite (proj2 (Nat.ltb_ge _ _)) by lia. f_equal. symmetry. exact Hpad.
    + rewrite Hlen, Hsz. done.
  - unfold RtpPacket.has_padding. rewrite (data_at_wire p' 0 b0) by (by rewrite Hw). cbn. by rewrite Hb0.
Qed.

Lemma write_payload_byte p off x :
  sendable p -> (RtpPacket.headers_size p <= off)%nat -> (off < length (wire p))%nat ->
  exists p', RtpPacket.WriteAt p off x = Ok p' /\ sendable p' /\
    wire p' = <[off := u8 x]> (wire p) /\ only_buffer p p'.
Proof.
  intros Hp Hlo Hhi. apply (payload_write p _ (fun d => buf_set d off x)); [done| | | |].
  - by apply local_buf_set.
  - by apply buf_set_ok.
  - apply length_insert.
  - intros i Hi. by rewrite list_lookup_insert_ne by lia.
Qed.

Lemma write_payload_bytes p off src soff n :
  sendable p -> (RtpPacket.headers_size p <= off)%nat -> (off + n <= length (wire p))%nat ->
  (soff + n <= length src)%nat -> bytes src ->
  exists p', RtpPacket.write (fun d => memcpy d off src soff n) p = Ok p' /\ sendable p' /\
    wire p' = take off (wire p) ++ take n (drop soff src) ++ drop (off + n) (wire p) /\ only_buffer p p'.
Proof.
  intros Hp Hlo Hhi Hsrc Hb.
  apply (payload_write p _ (fun d => memcpy d off src soff n)); [done| | | |].
  - by apply local_memcpy.
  - by apply memcpy_ok.
  - rewrite !length_app, !length_take, !length_drop. lia.
  - intros i Hi. rewrite lookup_app_l by (rewrite length_take; lia). by rewrite lookup_take_lt by lia.
Qed.

(** The setters, with the bytes they leave. *)
Lemma write_b1_wire p q x p' :
  buf_ok p -> (1 < length (wire p))%nat -> RtpPacket.buffer_ q = RtpPacket.buffer_ p ->
  RtpPacket.WriteAt q 1 x = Ok p' -> wire p' = <[1%nat := u8 x]> (wire p).
Proof.
  intros Hok Hl Hb E. assert (Hw : wire q = wire p) by (unfold wire; by rewrite Hb).
  assert (Hokq : buf_ok q) by (unfold buf_ok, RtpPacket.capacity in *; by rewrite Hb).
  destruct (WriteAt_wire q 1 x Hokq) as (b' & E' & _ & _ & Hc); [by rewrite Hw|].
  rewrite E in E'. injection E' as ->. unfold wire at 1. cbn. by rewrite Hc, Hw.
Qed.

Lemma unpadded_b1 p p' x :
  unpadded p -> (1 < length (wire p))%nat -> wire p' = <[1%nat := x]> (wire p) ->
  RtpPacket.padding_size_ p' = RtpPacket.padding_size_ p -> unpadded p'.
Proof.
  intros [Hpad Hbit] Hl Hw Hs. split; [congruence|].
  destruct (lookup_lt_is_Some_2 (wire p) 0) as [b0 E0]; [lia|].
  unfold RtpPacket.has_padding in *. rewrite (data_at_wire p 0 b0 E0) in Hbit.
  rewrite (data_at_wire p' 0 b0); [done|]. by rewrite Hw, list_lookup_insert_ne.
Qed.

Lemma SetPayloadType_sendable p pt :
  sendable p -> 0 <= pt < 128 ->
  exists p', RtpPacket.SetPayloadType p pt = Ok p' /\ sendable p' /\
    only_buffer (RtpPacket.with_payload_type p pt) p' /\
    wire p' = <[1%nat := Z.land (nth 1 (wire p) 0) 0x80 + pt]> (wire p).
Proof.
  intros [Hp Hu] Hpt. destruct (SetPayloadType_ok p pt Hp Hpt) as (p' & E & Hc & Hob).
  destruct (consistent_b1 p Hp) as (b1 & E1 & Hb1 & Hd & Hl & _). unfold kFixedHeaderSize in Hl.
  assert (Hw : wire p' = <[1%nat := Z.land (nth 1 (wire p) 0) 0x80 + pt]> (wire p)).
  { revert E. unfold RtpPacket.SetPayloadType.
    change (RtpPacket.data_at (RtpPacket.with_payload_type p pt) 1) with (RtpPacket.data_at p 1).
    rewrite Hd. cbn [mbind res_bind]. intros E.
    rewrite (write_b1_wire p (RtpPacket.with_payload_type p pt) _ p' (proj1 Hp) ltac:(lia) eq_refl E).
    rewrite (nth_lookup_Some _ _ _ _ E1). f_equal.
    destruct (payload_type_byte b1 pt Hb1 Hpt) as [Hx _]. rewrite high_bit in * by done.
    destruct (has_bits b1 128).
    - rewrite <- (uw_small 8 (128 + pt)) by done. f_equal.
      rewrite <- Z.add_lor_land. replace (Z.land 128 pt) with 0; [lia|].
      apply Z.bits_inj'. intros i Hi. rewrite Z.land_spec, Z.bits_0. change 128 with (2 ^ 7).
      destruct (decide (i = 7)) as [->|]; [|by rewrite Z.pow2_bits_false].
      by rewrite (in_uw_testbit 7 pt) by (unfold in_uw; lia).
    - rewrite Z.add_0_l, Z.lor_0_l in *. by apply uw_small. }
  exists p'. split; [done|]. split; [split; [done|]|by split].
  apply (unpadded_b1 p p' _ Hu ltac:(lia) Hw). by destruct Hob as [b ->].
Qed.

Lemma SetMarker_sendable p :
  sendable p ->
  exists p', RtpPacket.SetMarker p false = Ok p' /\ sendable p' /\
    only_buffer (RtpPacket.with_marker p false) p'.
Proof.
  intros [Hp Hu]. destruct (SetMarker_ok p false Hp) as (p' & E & Hc & Hob).
  destruct (consistent_b1 p Hp) as (b1 & E1 & Hb1 & Hd & Hl & _). unfold kFixedHeaderSize in Hl.
  exists p'. split; [done|]. split; [split; [done|]|done].
  revert E. unfold RtpPacket.SetMarker.
  change (RtpPacket.data_at (RtpPacket.with_marker p false) 1) with (RtpPacket.data_at p 1).
  rewrite Hd. cbn [mbind res_bind]. intros E.
  pose proof (write_b1_wire p (RtpPacket.with_marker p false) _ p' (proj1 Hp) ltac:(lia) eq_refl E) as Hw.
  apply (unpadded_b1 p p' _ Hu ltac:(lia) Hw). by destruct Hob as [b ->].
Qed.

Lemma SetPayloadSize_sendable p n :
  sendable p ->
  exists p', RtpPacket.SetPayloadSize p n = Ok p' /\ sendable p' /\
    only_buffer (RtpPacket.with_sizes p (RtpPacket.payload_offset_ p) n 0) p' /\
    header_bytes p' = header_bytes p.
Proof.
  intros Hp. pose proof Hp as [Hc Hu]. destruct (SetPayloadSize_ok p n Hc Hu) as (p' & E & Hc' & Hu' & Hob & Hag).
  exists p'. split; [done|]. split; [done|]. split; [done|].
  assert (Hhs : RtpPacket.headers_size p' = RtpPacket.headers_size p) by by destruct Hob as [b ->].
  destruct (sendable_split p Hp) as (_ & Hl & _). destruct (sendable_split p' (conj Hc' Hu')) as (_ & Hl' & _).
  apply list_eq_same_length with (RtpPacket.headers_size p); [done|congruence|].
  intros i x y Hi. unfold header_bytes. rewrite Hhs, !lookup_take_lt by done.
  rewrite Hag; [congruence|]. unfold RtpPacket.headers_size in Hi. lia.
Qed.

(** Renumbering changes two bytes of the header. *)
Lemma SetSequenceNumber_wire p v p' :
  consistent p -> RtpPacket.SetSequenceNumber p v = Ok p' ->
  written (wire p) (wire p') 2 2 (fun i => 2 - 1 - i)%nat v.
Proof.
  intros Hc E. destruct (consistent_size p Hc) as (Hsz & Hby & Hhs).
  assert (Hl : (12 <= length (wire p))%nat).
  { rewrite Hsz. unfold kFixedHeaderSize, RtpPacket.size in *. lia. }
  destruct (big_endian_roundtrip 16 2 (wire p) 2 v Hby ltac:(lia) ltac:(lia)) as (d' & Hd & Hwr & _).
  destruct (write_wire (fun d => ByteWriter.WriteBigEndian 2 d 2 v) (fun d => ByteWriter.WriteBigEndian 2 d 2 v)
    (RtpPacket.with_sequence_number p v)) as (b' & E' & _ & _ & Hg); [apply Hc|apply local_big_endian|].
  { change (2 + 2 <= Cow.size_ (RtpPacket.buffer_ p))%nat. rewrite (size_wire p) by apply Hc. lia. }
  unfold RtpPacket.SetSequenceNumber in E. rewrite E in E'. injection E' as ->.
  change (wire (RtpPacket.with_sequence_number p v)) with (wire p) in Hg. rewrite Hd in Hg.
  injection Hg as ->. exact Hwr.
Qed.

Lemma SetSequenceNumber_sendable p v :
  sendable p -> is_u16 v ->
  exists p', RtpPacket.SetSequenceNumber p v = Ok p' /\ sendable p' /\
    only_buffer (RtpPacket.with_sequence_number p v) p' /\ payload_bytes p' = payload_bytes p.
Proof.
  intros Hp Hv. pose proof Hp as [Hc [Hpad Hbit]].
  destruct (SetSequenceNumber_ok p v Hc Hv) as (p' & E & Hc' & Hob).
  destruct (SetSequenceNumber_wire p v p' Hc E) as (Hlen & _ & Hout).
  destruct (sendable_split p Hp) as (Hsplit & Hlh & _ & Hhs & Hby).
  assert (Hl : (12 <= length (wire p))%nat) by (rewrite Hsplit, length_app; lia).
  destruct Hob as [b ->]. eexists. split; [exact E|].
  set (p' := RtpPacket.with_buffer _ b) in *. split; [split; [done|split; [exact Hpad|]]|split; [by eexists|]].
  - destruct (lookup_lt_is_Some_2 (wire p) 0) as [b0 E0]; [lia|].
    unfold RtpPacket.has_padding in *. rewrite (data_at_wire p 0 b0 E0) in Hbit.
    rewrite (data_at_wire p' 0 b0); [done|]. by rewrite Hout by lia.
  - unfold payload_bytes. change (RtpPacket.headers_size p') with (RtpPacket.headers_size p).
    apply list_eq. intros i. rewrite !lookup_drop. apply Hout. lia.
Qed.

Lemma copy_sendable s : sendable (packet s) -> sendable (packet (copy s)) /\
  wire (packet (copy s)) = wire (packet s) /\
  only_buffer (packet s) (packet (copy s)).
Proof.
  intros [[[Hc Hcap] Hr] [Hpad Hbit]].
  assert (Hw : wire (packet (copy s)) = wire (packet s)) by apply share_contents.
  split; [|by split; [|eexists]]. split; [split; [split; [by apply share_ok|exact Hcap]|by rewrite Hw]|].
  split; [exact Hpad|]. exact Hbit.
Qed.

(** ** The RED encapsulation *)

(** [q] has the header of [p] but for the payload type (and maybe the marker). *)
Definition same_stream (p q : RtpPacket.t) : Prop :=
  RtpPacket.SequenceNumber q = RtpPacket.SequenceNumber p /\
  RtpPacket.Timestamp q = RtpPacket.Timestamp p /\ RtpPacket.Ssrc q = RtpPacket.Ssrc p /\
  RtpPacket.headers_size q = RtpPacket.headers_size p /\
  RtpPacket.extension_entries_ q = RtpPacket.extension_entries_ p.

Lemma same_stream_refl p : same_stream p p.
Proof. done. Qed.

Lemma same_stream_trans p q r : same_stream p q -> same_stream q r -> same_stream p r.
Proof. unfold same_stream. intuition congruence. Qed.

Lemma payload_type_range p : consistent p ->
  0 <= RtpPacket.PayloadType p < 128 /\ Z.land (nth 1 (wire p) 0) 0x7f = RtpPacket.PayloadType p.
Proof.
  intros Hp. destruct (reads_reads_fixed _ _ (proj2 Hp)) as (b1 & E1 & _ & Hpt & _).
  rewrite (nth_lookup_Some _ _ _ _ E1). unfold RtpPacket.PayloadType. rewrite Hpt. split; [|done].
  pose proof (Z.land_ones b1 7 ltac:(lia)) as E. change (Z.ones 7) with 0x7f in E. rewrite E.
  apply Z.mod_pos_bound. lia.
Qed.

Lemma split_byte b : is_byte b -> Z.land b 0x80 + Z.land b 0x7f = b.
Proof.
  intros [Hlo Hhi].
  assert (Hall : forallb (fun n => Z.land (Z.of_nat n) 0x80 + Z.land (Z.of_nat n) 0x7f =? Z.of_nat n)
    (seq 0 256) = true) by (vm_compute; reflexivity).
  rewrite forallb_forall in Hall. specialize (Hall (Z.to_nat b)).
  rewrite Z2Nat.id in Hall by done. apply Z.eqb_eq, Hall, in_seq. change (2 ^ 8) with 256 in Hhi. lia.
Qed.

(** Replacing the payload type and putting the old one back. *)
Lemma payload_type_back h payload_type :
  bytes h -> (2 <= length h)%nat -> 0 <= payload_type < 128 ->
  let h' := <[1%nat := Z.land (nth 1 h 0) 0x80 + payload_type]> h in
  <[1%nat := Z.land (nth 1 h' 0) 0x80 + Z.land (nth 1 h 0) 0x7f]> h' = h.
Proof.
  intros Hb Hl Hpt h'. destruct (buf_get_lt h 1) as (b & E & _); [lia|].
  pose proof (bytes_lookup _ _ _ Hb E) as Hbb. subst h'.
  rewrite (nth_lookup_Some h _ _ _ E). set (x := Z.land b 0x80 + payload_type).
  rewrite (nth_lookup_Some _ 1%nat 0 x) by (rewrite list_lookup_insert_eq; [done|lia]).
  rewrite list_insert_insert_eq. apply list_insert_id. rewrite E. f_equal.
  destruct (payload_type_byte b payload_type Hbb Hpt) as (Hx & Hm & _). fold x in Hx, Hm.
  rewrite (high_bit x), Hm, <- (high_bit b) by done.
  by rewrite split_byte.
Qed.

(** The payload type byte, then the data. *)
Lemma fill_red p x data :
  sendable p -> RtpPacket.payload_size p = S (length data) -> is_byte x -> bytes data ->
  exists q p', RtpPacket.WriteAt p (RtpPacket.payload_offset_ p) x = Ok q /\
    RtpPacket.payload_offset_ q = RtpPacket.payload_offset_ p /\
    RtpPacket.write (fun d => memcpy d (RtpPacket.payload_offset_ p + 1) data 0 (length data)) q = Ok p' /\
    sendable p' /\ only_buffer p p' /\ header_bytes p' = header_bytes p /\ payload_bytes p' = x :: data.
Proof.
  intros Hp Hps Hx Hd. destruct (sendable_split p Hp) as (Hsplit & Hlh & Hlp & Hhs & Hb).
  change (RtpPacket.payload_offset_ p) with (RtpPacket.headers_size p) in *.
  set (hs := RtpPacket.headers_size p) in *.
  assert (Hlen : length (wire p) = (hs + S (length data))%nat) by (rewrite Hsplit, length_app; lia).
  destruct (write_payload_byte p hs x Hp ltac:(done) ltac:(lia)) as (q & E & Hq & Hwq & Hobq).
  assert (Hhq : RtpPacket.headers_size q = hs) by by destruct Hobq as [b ->].
  assert (Hlq : length (wire q) = length (wire p)) by (rewrite Hwq; apply length_insert).
  destruct (write_payload_bytes q (hs + 1) data 0 (length data) Hq ltac:(lia) ltac:(lia) ltac:(lia) Hd)
    as (p' & E' & Hp' & Hw' & Hob').
  exists q, p'. split; [done|]. split; [exact Hhq|]. split; [done|]. split; [done|].
  assert (Hob : only_buffer p p') by (destruct Hobq as [b ->], Hob' as [b' ->]; by exists b').
  split; [done|]. assert (Hhp : RtpPacket.headers_size p' = hs) by by destruct Hob as [b ->].
  rewrite drop_0, (take_ge data), (drop_ge (wire q)), app_nil_r in Hw' by lia.
  assert (Hw : wire p' = header_bytes p ++ x :: data).
  { rewrite Hw', Hwq, Hsplit, (uw_small 8 x) by done.
    destruct (payload_bytes p) as [|y rest] eqn:Ep; [cbn in Hlp; lia|].
    rewrite insert_app_r_alt, Hlh, Nat.sub_diag by lia. cbn [insert list_insert].
    rewrite take_app_ge, Hlh by lia. replace (hs + 1 - hs)%nat with 1%nat by lia. cbn.
    by rewrite <- (assoc_L (++)). }
  unfold header_bytes at 1, payload_bytes. rewrite Hhp, Hw. fold hs in Hlh.
  split; [by rewrite take_app_length'|by rewrite drop_app_length'].
Qed.

Lemma payload_read p : sendable p -> RtpPacket.payload p = Ok (payload_bytes p).
Proof.
  intros Hp. destruct (sendable_split p Hp) as (Hsplit & Hlh & Hlp & _). unfold RtpPacket.payload.
  change (RtpPacket.payload_offset_ p) with (RtpPacket.headers_size p).
  change (RtpPacket.payload_size_ p) with (RtpPacket.payload_size p).
  rewrite window_wire; [|apply Hp|rewrite Hsplit, length_app; lia]. f_equal.
  fold (payload_bytes p). apply take_ge. lia.
Qed.

Lemma header_insert p x : sendable p ->
  take (RtpPacket.headers_size p) (<[1%nat := x]> (wire p)) = <[1%nat := x]> (header_bytes p) /\
  drop (RtpPacket.headers_size p) (<[1%nat := x]> (wire p)) = payload_bytes p /\
  nth 1 (wire p) 0 = nth 1 (header_bytes p) 0.
Proof.
  intros Hp. destruct (sendable_split p Hp) as (Hsplit & Hlh & _ & Hhs & _).
  rewrite Hsplit, insert_app_l, app_nth1 by lia. split; [|split; [|done]].
  - by rewrite take_app_length' by (rewrite length_insert; lia).
  - by rewrite drop_app_length' by (rewrite length_insert; lia).
Qed.

Lemma payload_bytes_bytes p : sendable p -> bytes (payload_bytes p).
Proof. intros Hp. destruct (sendable_split p Hp) as (_ & _ & _ & _ & Hb). by apply Forall_drop. Qed.

Lemma header_bytes_bytes p : sendable p -> bytes (header_bytes p) /\ (2 <= length (header_bytes p))%nat.
Proof.
  intros Hp. destruct (sendable_split p Hp) as (_ & Hl & _ & Hhs & Hb). split; [by apply Forall_take|lia].
Qed.

(** [q] is [p] inside RED with payload type [red]. *)
Record red_form (p q : RtpPacket.t) (red : Z) : Prop := {
  rf_sendable : sendable q;
  rf_stream : same_stream p q;
  rf_header : header_bytes q = <[1%nat := Z.land (nth 1 (header_bytes p) 0) 0x80 + red]> (header_bytes p);
  rf_payload : payload_bytes q = RtpPacket.PayloadType p :: payload_bytes p
}.

Lemma BuildRedPayload_ok p c :
  sendable p -> sendable c -> only_buffer p c -> header_bytes c = header_bytes p ->
  exists q, BuildRedPayload p c = Ok q /\ sendable q /\ same_stream p q /\
    RtpPacket.Marker q = RtpPacket.Marker p /\
    header_bytes q = header_bytes p /\ payload_bytes q = RtpPacket.PayloadType p :: payload_bytes p.
Proof.
  intros Hp Hc [b ->] Hhc. unfold BuildRedPayload, RtpPacket.AllocatePayload.
  destruct (SetPayloadSize_sendable _ 0 Hc) as (c1 & -> & Hc1 & [b1 ->] & Hh1). cbn [mbind res_bind].
  destruct (SetPayloadSize_sendable _ (kRedForFecHeaderLength + RtpPacket.payload_size p) Hc1)
    as (c2 & -> & Hc2 & [b2 ->] & Hh2). cbn [mbind res_bind].
  destruct (sendable_split p Hp) as (_ & _ & Hlp & _).
  destruct (payload_type_range p (proj1 Hp)) as [Hpt _].
  match goal with |- context [RtpPacket.WriteAt ?c2 _ _] =>
    destruct (fill_red c2 (RtpPacket.PayloadType p) (payload_bytes p) Hc2)
      as (q & p' & -> & Hoff & Hw & Hp' & [b' Hb'] & Hh & Hpb) end.
  - cbn. by rewrite Hlp.
  - unfold in_uw. lia.
  - by apply payload_bytes_bytes.
  - cbn [mbind res_bind]. rewrite (payload_read p Hp). cbn [mbind res_bind]. unfold kRedForFecHeaderLength.
    rewrite Hoff, Hw. exists p'. split; [done|]. split; [done|]. split; [by rewrite Hb'|].
    split; [by rewrite Hb'|]. split; [congruence|done].
Qed.

Lemma red_packet_of_ok s red :
  sendable (packet s) -> 0 <= red < 128 ->
  exists r, red_packet_of s red = Ok r /\ red_form (packet s) (packet r) red /\
    packet_type r = Some kVideo /\ is_red r = true /\ is_key_frame r = is_key_frame s /\
    fec_protect_packet r = fec_protect_packet s /\ RtpPacket.Marker (packet r) = RtpPacket.Marker (packet s).
Proof.
  intros Hs Hred. unfold red_packet_of. destruct (copy_sendable s Hs) as (Hc & Hw & Hob).
  assert (Hhc : header_bytes (packet (copy s)) = header_bytes (packet s)) by (unfold header_bytes; by rewrite Hw).
  destruct (BuildRedPayload_ok (packet s) (packet (copy s)) Hs Hc Hob Hhc)
    as (q & E & Hq & Hst & Hmk & Hhq & Hpq). rewrite E. cbn [mbind res_bind].
  destruct (SetPayloadType_sendable q red Hq Hred) as (q2 & -> & Hq2 & [b ->] & Hw2). cbn [mbind res_bind].
  eexists. split; [done|]. cbn [packet packet_type is_red is_key_frame fec_protect_packet].
  destruct (header_insert q (Z.land (nth 1 (wire q) 0) 0x80 + red) Hq) as (Ht & Hd & Hn).
  set (q2 := RtpPacket.with_buffer _ b) in *.
  split; [split|]; [done|done| | |done].
  - unfold header_bytes at 1. change (RtpPacket.headers_size q2) with (RtpPacket.headers_size q).
    by rewrite Hw2, Ht, Hn, Hhq.
  - unfold payload_bytes at 1. change (RtpPacket.headers_size q2) with (RtpPacket.headers_size q).
    by rewrite Hw2, Hd.
Qed.

(** RED takes one byte. *)
Lemma red_form_size p q red : sendable p -> red_form p q red -> length (wire q) = S (length (wire p)).
Proof.
  intros Hp [Hq _ Hh Hpb]. destruct (sendable_split p Hp) as (-> & _). destruct (sendable_split q Hq) as (-> & _).
  rewrite !length_app, Hh, Hpb, length_insert. cbn. lia.
Qed.

Lemma red_packet_type s red r : sendable (packet s) -> 0 <= red < 128 -> red_packet_of s red = Ok r ->
  RtpPacket.PayloadType (packet r) = red.
Proof.
  intros Hs Hred. unfold red_packet_of. destruct (copy_sendable s Hs) as (Hc & Hw & Hob).
  assert (Hhc : header_bytes (packet (copy s)) = header_bytes (packet s)) by (unfold header_bytes; by rewrite Hw).
  destruct (BuildRedPayload_ok (packet s) (packet (copy s)) Hs Hc Hob Hhc) as (q & E & Hq & _). rewrite E. cbn [mbind res_bind].
  destruct (SetPayloadType_sendable q red Hq Hred) as (q2 & -> & _ & [b ->] & _). cbn [mbind res_bind]. by intros [= <-].
Qed.

(** Removing RED, on the sending side before FEC ... *)
Lemma unpack_red_ok s r red :
  sendable (packet s) -> red_form (packet s) (packet r) red -> 0 <= red < 128 ->
  exists u, unpack_red r = Ok u /\ sendable (packet u) /\ wire (packet u) = wire (packet s) /\
    same_stream (packet s) (packet u) /\ RtpPacket.Marker (packet u) = RtpPacket.Marker (packet r) /\
    is_key_frame u = is_key_frame r.
Proof.
  intros Hs [Hr Hst Hh Hpb] Hred. destruct (sendable_split _ Hr) as (Hsplit & Hlh & Hlp & Hhs & Hb).
  destruct (sendable_split _ Hs) as (Hsplit' & Hlh' & Hlp' & _ & _).
  destruct (payload_type_range _ (proj1 Hs)) as [Hpt Hptn].
  destruct (header_bytes_bytes _ Hs) as [Hhb Hh2].
  unfold unpack_red. set (p := packet r) in *. set (m := packet s) in *.
  assert (Hat : wire p !! RtpPacket.headers_size p = Some (RtpPacket.PayloadType m)).
  { rewrite Hsplit, lookup_app_r, Hlh, Nat.sub_diag, Hpb by lia. done. }
  rewrite (data_at_wire _ _ _ Hat). cbn [mbind res_bind].
  destruct (copy_sendable r Hr) as (Hc & Hwc & [b0 Hbc]). fold p in Hwc, Hbc.
  destruct (SetPayloadType_sendable _ (RtpPacket.PayloadType m) Hc Hpt) as (u1 & -> & Hu1 & Hob1 & Hw1).
  cbn [mbind res_bind]. rewrite Hwc in Hw1. rewrite Hbc in Hob1.
  assert (Hps : RtpPacket.payload_size p = S (length (payload_bytes m))) by (rewrite <- Hlp, Hpb; done).
  rewrite size_sub_ok by lia. cbn [mbind res_bind]. rewrite Hps. replace (S _ - 1)%nat with (length (payload_bytes m)) by lia.
  destruct (SetPayloadSize_sendable u1 (length (payload_bytes m)) Hu1) as (u2 & -> & Hu2 & [b2 Hb2] & Hh2').
  cbn [mbind res_bind]. rewrite (payload_read p Hr). cbn [mbind res_bind].
  destruct (sendable_split _ Hu2) as (Hsp2 & Hlh2 & Hlp2 & _).
  destruct Hob1 as [b1 Hob1].
  assert (Hhu : RtpPacket.headers_size u2 = RtpPacket.headers_size p) by (rewrite Hb2, Hob1; done).
  assert (Hpu : RtpPacket.payload_size u2 = length (payload_bytes m)) by (rewrite Hb2; done).
  change (RtpPacket.payload_offset_ u2) with (RtpPacket.headers_size u2).
  destruct (write_payload_bytes u2 (RtpPacket.headers_size u2) (payload_bytes p) 1 (length (payload_bytes m))
    Hu2 ltac:(done)) as (u3 & -> & Hu3 & Hw3 & [b3 Hb3]).
  - rewrite Hsp2, length_app. lia.
  - rewrite Hpb. cbn. lia.
  - by apply payload_bytes_bytes.
  - cbn [mbind res_bind]. eexists. split; [done|]. cbn [packet with_packet is_key_frame].
    split; [done|]. split; [|split; [|split]]; [|by rewrite Hb3, Hb2, Hob1|by rewrite Hb3, Hb2, Hob1|done].
    rewrite Hw3, Hpb. cbn [drop]. rewrite (take_ge (drop 0 _)) by (rewrite drop_0; lia). rewrite drop_0.
    rewrite (drop_ge (wire u2)), app_nil_r by (rewrite Hsp2, length_app; lia).
    fold (header_bytes u2). rewrite Hh2'. rewrite Hsplit' at 1. f_equal.
    unfold header_bytes at 1.
    assert (RtpPacket.headers_size u1 = RtpPacket.headers_size p) as -> by (rewrite Hob1; done).
    rewrite Hw1. destruct (header_insert p (Z.land (nth 1 (wire p) 0) 0x80 + RtpPacket.PayloadType m) Hr)
      as (-> & _ & Hn). rewrite Hn, Hh.
    destruct (header_insert m 0 Hs) as (_ & _ & Hnm). rewrite Hnm in Hptn. rewrite <- Hptn.
    by apply payload_type_back.
Qed.

(** ... and on the receiving side. *)
Lemma carried_media p q r red ssrc ulpfec rec :
  sendable p -> red_form p q red -> 0 <= red < 128 ->
  consistent r -> wire r = wire q -> same_stream q r -> RtpPacket.payload_size r = RtpPacket.payload_size q ->
  RtpPacket.Ssrc p = ssrc -> (length (wire q) <= IP_PACKET_SIZE)%nat -> RtpPacket.PayloadType p <> ulpfec ->
  carried ssrc ulpfec (mkRtpPacketReceived r rec) =
    Some (mkReceivedPacket ssrc (RtpPacket.SequenceNumber p) false rec (wire p), RtpPacket.extensions_ r).
Proof.
  intros Hp [Hq Hst Hh Hpb] Hred Hr Hw (Sq & _ & Ss & Sh & _) Hps Hss Hsize Hne.
  destruct Hst as (Tq & _ & Ts & Th & _).
  destruct (sendable_split _ Hq) as (Hsplit & Hlh & Hlp & _). destruct (sendable_split _ Hp) as (Hsplit' & Hlh' & _).
  destruct (payload_type_range _ (proj1 Hp)) as [Hpt Hptn]. destruct (header_bytes_bytes _ Hp) as [Hhb Hh2].
  destruct (consistent_size r Hr) as (Hszr & _ & _).
  unfold carried. cbn [rtp_packet recovered]. rewrite Ss, Ts, Hss, Z.eqb_refl, <- Hszr, Hw. cbn [negb orb].
  rewrite (proj2 (Nat.ltb_ge _ _)) by done. rewrite Hps, <- Hlp, Hpb. cbn [length Nat.eqb orb].
  rewrite Sh, Th, <- Th. rewrite Hsplit at 1. rewrite app_nth2, Hlh, Nat.sub_diag, Hpb by lia. cbn [nth].
  assert (has_bits (RtpPacket.PayloadType p) 0x80 = false) as ->.
  { change 0x80 with (2 ^ 7). rewrite has_bits_pow2 by lia.
    by rewrite (in_uw_testbit 7 (RtpPacket.PayloadType p)) by (unfold in_uw; lia). }
  assert (Hnth : nth (RtpPacket.headers_size q) (wire q) 0 = RtpPacket.PayloadType p)
    by (rewrite Hsplit, app_nth2, Hlh, Nat.sub_diag, Hpb by lia; done).
  rewrite ?Hnth, (proj2 (Z.eqb_neq _ _) Hne), Sq, Tq. do 3 f_equal.
  unfold red_media. fold (header_bytes q).
  destruct (header_insert q 0 Hq) as (_ & _ & Hnq). rewrite Hnq, Hh.
  destruct (header_insert p 0 Hp) as (_ & _ & Hnp). rewrite Hnp in Hptn. rewrite <- Hptn.
  rewrite payload_type_back by done. rewrite Hsplit' at 1. f_equal.
  rewrite Hsplit, drop_app_ge, Hlh, Hpb by lia. by replace (_ + 1 - _)%nat with 1%nat by lia.
Qed.

(** ** FEC packets in RED *)

(** [q] carries the FEC packet [fec] behind the header of [p]. *)
Record fec_form (p q : RtpPacket.t) (ulpfec : Z) (fec : Packet) : Prop := {
  ff_sendable : sendable q;
  ff_stream : same_stream p q;
  ff_payload : payload_bytes q = ulpfec :: fec
}.

Definition types_ok (g : UlpfecGenerator.t) : Prop :=
  0 <= UlpfecGenerator.red_payload_type_ g < 128 /\ 0 <= UlpfecGenerator.ulpfec_payload_type_ g < 128.

Lemma red_fec_packet_ok g s fec :
  types_ok g -> sendable (packet s) -> bytes fec ->
  exists r, UlpfecGenerator.red_fec_packet g s fec = Ok r /\
    fec_form (packet s) (packet r) (UlpfecGenerator.ulpfec_payload_type_ g) fec /\
    RtpPacket.PayloadType (packet r) = UlpfecGenerator.red_payload_type_ g /\
    RtpPacket.Marker (packet r) = false /\ packet_type r = Some kForwardErrorCorrection /\
    allow_retransmission r = false /\ fec_protect_packet r = false /\ is_red r = true.
Proof.
  intros [Hred Hul] Hs Hf. unfold UlpfecGenerator.red_fec_packet.
  destruct (copy_sendable s Hs) as (Hc & _ & [b0 Hb0]).
  destruct (SetPayloadType_sendable _ _ Hc Hred) as (p1 & -> & Hp1 & [b1 Hb1] & _). cbn [mbind res_bind].
  destruct (SetMarker_sendable p1 Hp1) as (p2 & -> & Hp2 & [b2 Hb2]). cbn [mbind res_bind].
  destruct (SetPayloadSize_sendable p2 (kRedForFecHeaderLength + length fec) Hp2) as (p3 & -> & Hp3 & [b3 Hb3] & _).
  cbn [mbind res_bind].
  destruct (fill_red p3 (UlpfecGenerator.ulpfec_payload_type_ g) fec Hp3)
    as (q & p4 & -> & Hoff & Hw & Hp4 & [b4 Hb4] & _ & Hpb); [by rewrite Hb3|unfold in_uw; lia|done|].
  cbn [mbind res_bind]. rewrite Hoff, Hw. cbn [mbind res_bind]. eexists. split; [done|].
  cbn [packet packet_type allow_retransmission fec_protect_packet is_red].
  split; [split; [done| |done]|]; rewrite Hb4, Hb3, Hb2, Hb1, Hb0; done.
Qed.

Lemma carried_fec q r ssrc ulpfec fec rec :
  sendable q -> payload_bytes q = ulpfec :: fec -> 0 <= ulpfec < 128 ->
  consistent r -> wire r = wire q -> same_stream q r -> RtpPacket.payload_size r = RtpPacket.payload_size q ->
  RtpPacket.Ssrc q = ssrc -> (length (wire q) <= IP_PACKET_SIZE)%nat ->
  carried ssrc ulpfec (mkRtpPacketReceived r rec) =
    Some (mkReceivedPacket ssrc (RtpPacket.SequenceNumber r) true rec fec, RtpPacket.extensions_ r).
Proof.
  intros Hq Hpb Hul Hr Hw (_ & _ & Ss & Sh & _) Hps Hss Hsize.
  destruct (sendable_split _ Hq) as (Hsplit & Hlh & Hlp & _).
  destruct (consistent_size r Hr) as (Hszr & _ & _).
  unfold carried. cbn [rtp_packet recovered]. rewrite Ss, Hss, Z.eqb_refl, <- Hszr, Hw. cbn [negb orb].
  rewrite (proj2 (Nat.ltb_ge _ _)) by done. rewrite Hps, <- Hlp, Hpb, Sh. cbn [length Nat.eqb orb].
  assert (Hnth : nth (RtpPacket.headers_size q) (wire q) 0 = ulpfec)
    by (rewrite Hsplit, app_nth2, Hlh, Nat.sub_diag, Hpb by lia; done).
  rewrite Hnth.
  assert (has_bits ulpfec 0x80 = false) as ->.
  { change 0x80 with (2 ^ 7). rewrite has_bits_pow2 by lia.
    by rewrite (in_uw_testbit 7 ulpfec) by (unfold in_uw; lia). }
  rewrite Z.eqb_refl. do 3 f_equal. unfold red_fec.
  rewrite Hsplit, drop_app_ge, Hlh, Hpb by lia. replace (_ + 1 - _)%nat with 1%nat by lia.
  cbn [drop]. rewrite drop_0. apply take_ge. lia.
Qed.

(** A receiver that parses the bytes sent sees the same header. *)
Lemma same_bytes_stream q r :
  consistent q -> consistent r -> wire r = wire q ->
  same_stream q r /\ RtpPacket.payload_size r = RtpPacket.payload_size q /\
  RtpPacket.Marker r = RtpPacket.Marker q /\ RtpPacket.PayloadType r = RtpPacket.PayloadType q.
Proof.
  intros [_ Hq] [_ Hr] Hw. rewrite Hw in Hr.
  set (r2 := RtpPacket.with_buffer (RtpPacket.IdentifyExtensions r (RtpPacket.extensions_ q))
               (RtpPacket.buffer_ q)).
  destruct (reads_unique _ q r2 Hq Hr) as [n E]; [by split|].
  assert (Hm : forall A (f : RtpPacket.t -> A), f r2 = f (RtpPacket.with_extensions q (RtpPacket.extension_entries_ q) n))
    by (intros; by rewrite E).
  pose proof (Hm _ RtpPacket.SequenceNumber) as E1. pose proof (Hm _ RtpPacket.Timestamp) as E2.
  pose proof (Hm _ RtpPacket.Ssrc) as E3. pose proof (Hm _ RtpPacket.headers_size) as E4.
  pose proof (Hm _ RtpPacket.extension_entries_) as E5. pose proof (Hm _ RtpPacket.payload_size) as E6.
  pose proof (Hm _ RtpPacket.Marker) as E7. pose proof (Hm _ RtpPacket.PayloadType) as E8.
  split; [|by split]. by unfold same_stream.
Qed.

(** ** [GetFecPackets] *)

Lemma red_fec_loop g s fecs : forall out,
  types_ok g -> sendable (packet s) -> Forall bytes fecs ->
  exists reds, foldM (fun out fec_packet =>
      let! red := UlpfecGenerator.red_fec_packet g s fec_packet in Ok (out ++ [red])) fecs out =
    Ok (out ++ reds) /\
    Forall2 (fun fec r => fec_form (packet s) (packet r) (UlpfecGenerator.ulpfec_payload_type_ g) fec /\
      RtpPacket.PayloadType (packet r) = UlpfecGenerator.red_payload_type_ g /\
      RtpPacket.Marker (packet r) = false /\ packet_type r = Some kForwardErrorCorrection /\
      allow_retransmission r = false /\ fec_protect_packet r = false /\ is_red r = true) fecs reds.
Proof.
  induction fecs as [|fec fecs IH]; intros out Hg Hs Hf; cbn [foldM].
  { exists []. rewrite app_nil_r. by split. }
  apply Forall_cons_1 in Hf as [Hf Hfs].
  destruct (red_fec_packet_ok g s fec Hg Hs Hf) as (r & -> & Hr). cbn [mbind res_bind].
  destruct (IH (out ++ [r]) Hg Hs Hfs) as (reds & -> & Hreds).
  exists (r :: reds). rewrite <- (assoc_L (++)). split; [done|]. by constructor.
Qed.

End Laws.
