(* ===== verification/SequencerLaws.v ===== *)
(** * SequencerLaws: consecutive sequence numbers on every stream *)

From S2P Require Import Prelude.
From S2P Require Import ByteIo.
From S2P Require Import CowBuffer.
From S2P Require Import RtpPacketModel.
From S2P Require Import RtpPacketLaws.
From S2P Require Import RtpPacketOps.
From S2P Require Import UlpfecSender.
From S2P Require Import SequencerModel.
From S2P Require Import GeneratorLaws.
Import PacketSequencer.

Record sequencer_ok (q : t) : Prop := {
  sq_media : is_u16 (media_sequence_number_ q);
  sq_rtx : is_u16 (rtx_sequence_number_ q);
  sq_type : last_payload_type_ q = -1 \/ 0 <= last_payload_type_ q < 128;
  sq_timestamp : is_u32 (last_rtp_timestamp_ q);
  sq_streams : rtx_ssrc_ q <> Some (media_ssrc_ q)
}.

(** A packet that may be handed to the sequencer: of one of its streams; with
    RED, the payload starts with a RED header. *)
Record sequenceable (q : t) (s : RtpPacketToSend) : Prop := {
  sb_packet : consistent (packet s);
  sb_stream : RtpPacket.Ssrc (packet s) = media_ssrc_ q \/ Some (RtpPacket.Ssrc (packet s)) = rtx_ssrc_ q;
  sb_red : is_red s = true -> exists b, wire (packet s) !! RtpPacket.headers_size (packet s) = Some b /\ 0 <= b < 128
}.

(** Apart from its number and, for padding, timestamp and payload type, the
    packet stays as it was. *)
Definition sequenced (s s' : RtpPacketToSend) : Prop :=
  consistent (packet s') /\ RtpPacket.Ssrc (packet s') = RtpPacket.Ssrc (packet s) /\
  packet_type s' = packet_type s /\ is_red s' = is_red s /\ is_key_frame s' = is_key_frame s /\
  RtpPacket.payload_size (packet s') = RtpPacket.payload_size (packet s) /\
  RtpPacket.headers_size (packet s') = RtpPacket.headers_size (packet s) /\
  (has_type s kPadding = false -> RtpPacket.Timestamp (packet s') = RtpPacket.Timestamp (packet s) /\
     RtpPacket.PayloadType (packet s') = RtpPacket.PayloadType (packet s) /\
     RtpPacket.Marker (packet s') = RtpPacket.Marker (packet s) /\
     RtpPacket.padding_size_ (packet s') = RtpPacket.padding_size_ (packet s) /\
     forall i, (i < 2 \/ 4 <= i)%nat -> wire (packet s') !! i = wire (packet s) !! i).

Section Laws.
Context `{Heap}.

Lemma be32_range a b c d : is_byte a -> is_byte b -> is_byte c -> is_byte d ->
  is_u32 (Z.lor (Z.lor (Z.lor (Z.shiftl a 24) (Z.shiftl b 16)) (Z.shiftl c 8)) d).
Proof.
  intros Ha Hb Hc Hd. apply in_uw_bits; [lia|]. intros i Hi.
  rewrite !Z.lor_spec, !Z.shiftl_spec by lia.
  by rewrite (in_uw_testbit 8 a), (in_uw_testbit 8 b), (in_uw_testbit 8 c), (in_uw_testbit 8 d) by (done || lia).
Qed.

Lemma timestamp_range p : consistent p -> is_u32 (RtpPacket.Timestamp p).
Proof.
  intros Hp. destruct (consistent_size p Hp) as (_ & Hb & _).
  destruct Hp as [_ (Hl & b0 & b1 & _ & _ & _ & _ & _ & _ & E & _)]. unfold kFixedHeaderSize in Hl.
  cbn in E. unfold ByteReader.ReadBigEndian4 in E. cbn [Nat.add] in E.
  destruct (buf_get_lt (wire p) 4) as (x4 & E4 & G4); [lia|]. destruct (buf_get_lt (wire p) 5) as (x5 & E5 & G5); [lia|].
  destruct (buf_get_lt (wire p) 6) as (x6 & E6 & G6); [lia|]. destruct (buf_get_lt (wire p) 7) as (x7 & E7 & G7); [lia|].
  rewrite G4 in E. cbn [mbind res_bind] in E. rewrite G5 in E. cbn [mbind res_bind] in E. rewrite G6 in E.
  cbn [mbind res_bind] in E. rewrite G7 in E. injection E as E. unfold RtpPacket.Timestamp. rewrite <- E. apply be32_range; by eapply bytes_lookup.
Qed.

Lemma SetSequenceNumber_laws p v :
  consistent p -> is_u16 v ->
  exists p', RtpPacket.SetSequenceNumber p v = Ok p' /\ consistent p' /\
    only_buffer (RtpPacket.with_sequence_number p v) p' /\
    forall i, (i < 2 \/ 4 <= i)%nat -> wire p' !! i = wire p !! i.
Proof.
  intros Hp Hv. destruct (SetSequenceNumber_ok p v Hp Hv) as (p' & E & Hc & Hob).
  destruct (SetSequenceNumber_wire p v p' Hp E) as (_ & _ & Hout).
  exists p'. split; [done|]. split; [done|]. split; [done|]. intros i Hi. apply Hout. lia.
Qed.

(** What filling in padding keeps. *)
Definition same_kind (s s' : RtpPacketToSend) : Prop :=
  consistent (packet s') /\ RtpPacket.Ssrc (packet s') = RtpPacket.Ssrc (packet s) /\
  packet_type s' = packet_type s /\ is_red s' = is_red s /\ is_key_frame s' = is_key_frame s /\
  RtpPacket.payload_size (packet s') = RtpPacket.payload_size (packet s) /\
  RtpPacket.headers_size (packet s') = RtpPacket.headers_size (packet s).

Lemma PopulatePaddingFields_ok q now s :
  sequencer_ok q -> consistent (packet s) ->
  (RtpPacket.Ssrc (packet s) = media_ssrc_ q -> CanSendPaddingOnMediaSsrc q = true) ->
  exists s', PopulatePaddingFields q now s = Ok s' /\ same_kind s s'.
Proof.
  intros [_ _ Hty Hts _] Hs Hcan. unfold PopulatePaddingFields.
  destruct (SetTimestamp_ok (packet s) (last_rtp_timestamp_ q) Hs Hts) as (p1 & E1 & Hc1 & [b1 Hb1]).
  destruct (Z.eqb_spec (RtpPacket.Ssrc (packet s)) (media_ssrc_ q)) as [Hm|_].
  - specialize (Hcan Hm). unfold CanSendPaddingOnMediaSsrc in Hcan.
    destruct (Z.eqb_spec (last_payload_type_ q) (-1)); [done|]. destruct Hty as [?|Hty]; [done|].
    rewrite E1. cbn [mbind res_bind packet with_capture_time with_packet].
    rewrite uw_small by (unfold in_uw; lia).
    destruct (SetPayloadType_ok p1 _ Hc1 Hty) as (p2 & -> & Hc2 & [b2 Hb2]).
    eexists. split; [done|]. unfold same_kind. cbn. by rewrite Hb2, Hb1 in *.
  - destruct (_ <? _)%nat; [by exists s|]. rewrite E1.
    cbn [mbind res_bind packet with_capture_time with_packet].
    assert (Hdone : same_kind s (with_capture_time (with_packet s p1) (last_capture_time_ q)))
      by (unfold same_kind; cbn; by rewrite Hb1 in *).
    destruct (last_timestamp_time_ q) as [|last]; [by eexists|]. destruct (0 <? last); [|by eexists].
    match goal with |- context [RtpPacket.SetTimestamp p1 (uw 32 ?v)] =>
      destruct (SetTimestamp_ok p1 (uw 32 v) Hc1 (uw_range 32 v ltac:(lia))) as (p2 & -> & Hc2 & [b2 Hb2]) end.
    eexists. split; [done|]. unfold same_kind. cbn. destruct (after_zero _); cbn; by rewrite Hb2, Hb1 in *.
Qed.

(** Does the packet take a number of the media stream, of the RTX stream? *)
Definition on_media (q : t) (s : RtpPacketToSend) : bool :=
  (RtpPacket.Ssrc (packet s) =? media_ssrc_ q) && negb (has_type s kRetransmission).
Definition on_rtx (q : t) (s : RtpPacketToSend) : bool :=
  negb (RtpPacket.Ssrc (packet s) =? media_ssrc_ q) && bool_decide (Some (RtpPacket.Ssrc (packet s)) = rtx_ssrc_ q).

(** Padding on the media stream is held back unless it is allowed. *)
Definition held_back (q : t) (s : RtpPacketToSend) : bool :=
  (RtpPacket.Ssrc (packet s) =? media_ssrc_ q) && has_type s kPadding && negb (CanSendPaddingOnMediaSsrc q).

Lemma has_type_kind s s' type : packet_type s' = packet_type s -> has_type s' type = has_type s type.
Proof. intros E. unfold has_type. by rewrite E. Qed.

Lemma update_last_ok q now s :
  sequencer_ok q -> sequenceable q s ->
  exists q', UpdateLastPacketState q now s = Ok q' /\ sequencer_ok q' /\
    media_ssrc_ q' = media_ssrc_ q /\ rtx_ssrc_ q' = rtx_ssrc_ q /\
    media_sequence_number_ q' = media_sequence_number_ q /\ rtx_sequence_number_ q' = rtx_sequence_number_ q.
Proof.
  intros [Hm Hr _ _ Hd] [Hp _ Hred]. unfold UpdateLastPacketState.
  assert (Hty : exists ty, (if is_red s then RtpPacket.data_at (packet s) (RtpPacket.payload_offset_ (packet s))
                            else Ok (RtpPacket.PayloadType (packet s))) = Ok ty /\ 0 <= ty < 128).
  { destruct (is_red s); [|by eexists; split; [|apply payload_type_range]].
    destruct (Hred eq_refl) as (b & E & Hb). exists b. split; [by apply data_at_wire|done]. }
  destruct Hty as (ty & -> & Hty). cbn [mbind res_bind]. eexists. split; [done|]. cbn. split; [|done].
  assert (to_int8 ty = ty) as Hi by (unfold to_int8; destruct (Z.ltb_spec ty 128); lia).
  split; cbn; rewrite ?Hi; try done; [by right|by apply timestamp_range].
Qed.

Lemma numbered_sequenced q s s1 v :
  sequenceable q s -> is_u16 v -> same_kind s s1 -> (has_type s kPadding = false -> s1 = s) ->
  exists p, RtpPacket.SetSequenceNumber (packet s1) v = Ok p /\ sequenced s (with_packet s1 p) /\
    RtpPacket.SequenceNumber p = v /\ (has_type s kPadding = false -> sequenceable q (with_packet s1 p)).
Proof.
  intros [Hs Hst Hred] Hv (Hc & Hss & Hty & Hr & Hk & Hps & Hhs) Hpad.
  destruct (SetSequenceNumber_laws (packet s1) v Hc Hv) as (p & E & Hp & [b Hb] & Hw).
  exists p. split; [done|]. split; [|split; [by rewrite Hb|]].
  - unfold sequenced. cbn [packet with_packet packet_type is_red is_key_frame]. split; [done|].
    split; [by rewrite Hb|]. split; [done|]. split; [done|]. split; [done|]. split; [by rewrite Hb|].
    split; [by rewrite Hb|]. intros Hn. rewrite (Hpad Hn) in *. by rewrite Hb in *.
  - intros Hn. rewrite (Hpad Hn) in *. split; cbn [packet with_packet is_red]; [done|by rewrite Hb|].
    intros Hred'. destruct (Hred Hred') as (x & E' & Hx). exists x. split; [|done].
    destruct (consistent_size _ Hs) as (_ & _ & Hlo). unfold kFixedHeaderSize in Hlo.
    rewrite Hb in *. rewrite Hw; [done|].
    right. change (4 <= RtpPacket.payload_offset_ (packet s))%nat. lia.
Qed.

(** One packet. *)
Lemma Sequence_ok q now s :
  sequencer_ok q -> sequenceable q s -> held_back q s = false ->
  exists s' q', Sequence q now s = Ok (s', q') /\ sequencer_ok q' /\
    media_ssrc_ q' = media_ssrc_ q /\ rtx_ssrc_ q' = rtx_ssrc_ q /\ sequenced s s' /\
    (on_media q s = true -> RtpPacket.SequenceNumber (packet s') = media_sequence_number_ q) /\
    (on_rtx q s = true -> RtpPacket.SequenceNumber (packet s') = rtx_sequence_number_ q) /\
    (on_media q s = false -> on_rtx q s = false -> s' = s) /\
    media_sequence_number_ q' = u16 (media_sequence_number_ q + (if on_media q s then 1 else 0)) /\
    rtx_sequence_number_ q' = u16 (rtx_sequence_number_ q + (if on_rtx q s then 1 else 0)).
Proof.
  intros Hq Hs Hheld. pose proof Hq as [Hm Hr Hty Hts Hd]. pose proof Hs as [Hc Hst _].
  assert (Hpop : exists s1, (if has_type s kPadding then PopulatePaddingFields q now s else Ok s) = Ok s1 /\
    same_kind s s1 /\ (has_type s kPadding = false -> s1 = s)).
  { destruct (has_type s kPadding) eqn:Ep; [|by exists s].
    destruct (PopulatePaddingFields_ok q now s Hq Hc) as (s1 & E & Hk); [|by exists s1].
    intros E. unfold held_back in Hheld. rewrite E, Z.eqb_refl, Ep in Hheld. by destruct (CanSendPaddingOnMediaSsrc q). }
  destruct Hpop as (s1 & E1 & Hk & Hpad). pose proof Hk as (_ & _ & Hty1 & _).
  unfold Sequence, on_media, on_rtx.
  destruct (Z.eqb_spec (RtpPacket.Ssrc (packet s)) (media_ssrc_ q)) as [Hmed|Hmed]; cbn [andb negb].
  - destruct (has_type s kRetransmission) eqn:Et; cbn [negb].
    { exists s, q. split; [done|]. split; [done|]. rewrite !Z.add_0_r, !uw_small by done. split_and!; done. }
    rewrite E1. cbn [mbind res_bind].
    destruct (numbered_sequenced q s s1 (media_sequence_number_ q) Hs Hm Hk Hpad) as (p & -> & Hseq & Hn & Hsb).
    cbn [mbind res_bind].
    assert (Hq1 : sequencer_ok (set_media_sequence_number q (u16 (media_sequence_number_ q + 1))))
      by (split; cbn; try done; by apply uw_range).
    rewrite (has_type_kind s) by done. destruct (has_type s kPadding) eqn:Ep; cbn [negb mbind res_bind].
    + eexists _, _. split; [done|]. split; [done|]. cbn. rewrite Z.add_0_r, (uw_small 16 (rtx_sequence_number_ q)) by done.
      split_and!; done.
    + destruct (update_last_ok _ now (with_packet s1 p) Hq1) as (q' & -> & Hq' & A & B & C & D).
      { destruct (Hsb eq_refl). by split. }
      cbn [mbind res_bind]. eexists _, _. split; [done|]. split; [done|].
      rewrite A, B, C, D. cbn. rewrite Z.add_0_r, (uw_small 16 (rtx_sequence_number_ q)) by done. split_and!; done.
  - destruct Hst as [?|Hrtx]; [done|]. rewrite decide_True, bool_decide_true by done. rewrite E1. cbn [mbind res_bind].
    destruct (numbered_sequenced q s s1 (rtx_sequence_number_ q) Hs Hr Hk Hpad) as (p & -> & Hseq & Hn & _).
    cbn [mbind res_bind]. eexists _, _. split; [done|]. split; [split; cbn; try done; by apply uw_range|].
    cbn. rewrite Z.add_0_r, (uw_small 16 (media_sequence_number_ q)) by done. split_and!; done.
Qed.

(** ** A run of packets *)

(** Packets with the time at which they are offered; the outcome for each. *)
Fixpoint sequence_all (q : t) (ss : list (RtpPacketToSend * Z)) : res (list (option RtpPacketToSend) * t) :=
  match ss with
  | [] => Ok ([], q)
  | (s, now) :: ss =>
      if held_back q s then
        let! (outs, q') := sequence_all q ss in Ok (None :: outs, q')
      else
        let! (s', q1) := Sequence q now s in
        let! (outs, q') := sequence_all q1 ss in Ok (Some s' :: outs, q')
  end.

Definition numbers (on : RtpPacketToSend -> bool) (outs : list (option RtpPacketToSend)) : list Z :=
  map (fun s => RtpPacket.SequenceNumber (packet s)) (filter (fun s => on s = true) (omap id outs)).

Definition consecutive (start : Z) (n : nat) : list Z := map (fun i => u16 (start + Z.of_nat i)) (seq 0 n).

Lemma consecutive_cons start n : is_u16 start ->
  start :: consecutive (u16 (start + 1)) n = consecutive start (S n).
Proof.
  intros Hs. unfold consecutive. cbn [seq map]. change (Z.of_nat 0) with 0. rewrite Z.add_0_r, (uw_small 16 start) by done. f_equal.
  rewrite <- seq_shift, map_map. apply map_ext. intros i. unfold uw. rewrite Zplus_mod_idemp_l. f_equal. lia.
Qed.

Lemma consecutive_distinct start n : Z.of_nat n <= 65536 -> NoDup (consecutive start n).
Proof.
  intros Hn. apply (NoDup_fmap_2_strong (fun i => u16 (start + Z.of_nat i))); [|apply NoDup_seq].
  intros i j [_ Hi]%elem_of_seq [_ Hj]%elem_of_seq E. cbv beta in E. apply Nat2Z.inj. unfold uw in E.
  assert (Hd : (Z.of_nat i - Z.of_nat j) mod 2 ^ 16 = 0).
  { replace (Z.of_nat i - Z.of_nat j) with ((start + Z.of_nat i) - (start + Z.of_nat j)) by lia.
    by rewrite Zminus_mod, E, Z.sub_diag. }
  apply Z.mod_divide in Hd as [k Hk]; [|lia]. change (2 ^ 16) with 65536 in Hk. lia.
Qed.

Lemma on_streams q q' s :
  media_ssrc_ q' = media_ssrc_ q -> rtx_ssrc_ q' = rtx_ssrc_ q ->
  on_media q' s = on_media q s /\ on_rtx q' s = on_rtx q s /\ (sequenceable q s -> sequenceable q' s).
Proof.
  intros Em Er. unfold on_media, on_rtx. rewrite Em, Er. split; [done|]. split; [done|].
  intros [? ? ?]. split; try done. by rewrite Em, Er.
Qed.

Lemma sequenced_streams q s s' : sequenced s s' -> on_media q s' = on_media q s /\ on_rtx q s' = on_rtx q s.
Proof.
  intros (_ & Es & Et & _). unfold on_media, on_rtx. by rewrite Es, (has_type_kind s) by done.
Qed.

Lemma numbers_cons on s outs :
  numbers on (Some s :: outs) = (if on s then [RtpPacket.SequenceNumber (packet s)] else []) ++ numbers on outs.
Proof. unfold numbers. cbn [omap list_omap id]. rewrite filter_cons. by destruct (on s). Qed.

Lemma sequence_all_numbers ss : forall q,
  sequencer_ok q -> Forall (fun sn => sequenceable q sn.1) ss ->
  exists outs q', sequence_all q ss = Ok (outs, q') /\
    Forall2 (fun sn o => match o with
      | Some s' => sequenced sn.1 s'
      | None => has_type sn.1 kPadding = true /\ RtpPacket.Ssrc (packet sn.1) = media_ssrc_ q end) ss outs /\
    numbers (on_media q) outs = consecutive (media_sequence_number_ q) (length (numbers (on_media q) outs)) /\
    numbers (on_rtx q) outs = consecutive (rtx_sequence_number_ q) (length (numbers (on_rtx q) outs)).
Proof.
  induction ss as [|[s now] ss IH]; intros q Hq Hss; cbn [sequence_all].
  { exists [], q. split; [done|]. split; [constructor|]. done. }
  apply Forall_cons_1 in Hss as [Hs Hss]. cbn [fst] in Hs. destruct (held_back q s) eqn:Eh.
  { destruct (IH q Hq Hss) as (outs & q' & -> & Hf & Hm & Hr). cbn [mbind res_bind]. exists (None :: outs), q'.
    split; [done|]. split; [|by split]. constructor; [|done]. unfold held_back in Eh.
    apply andb_true_iff in Eh as [[E1%Z.eqb_eq E2]%andb_true_iff _]. done. }
  destruct (Sequence_ok q now s Hq Hs Eh) as (s' & q1 & -> & Hq1 & Em & Er & Hseq & Nm & Nr & _ & Sm & Sr).
  cbn [mbind res_bind]. destruct (IH q1 Hq1) as (outs & q' & -> & Hf & Hm & Hr).
  { eapply Forall_impl; [exact Hss|]. intros sn. by apply on_streams. }
  cbn [mbind res_bind]. exists (Some s' :: outs), q'. split; [done|].
  split; [by constructor; [|rewrite Em in Hf]|].
  assert (Hnm : forall outs, numbers (on_media q1) outs = numbers (on_media q) outs).
  { intros os. unfold numbers. f_equal. apply list_filter_iff. intros x. by rewrite (proj1 (on_streams q q1 x Em Er)). }
  assert (Hnr : forall outs, numbers (on_rtx q1) outs = numbers (on_rtx q) outs).
  { intros os. unfold numbers. f_equal. apply list_filter_iff. intros x. by rewrite (proj1 (proj2 (on_streams q q1 x Em Er))). }
  rewrite Hnm in Hm. rewrite Hnr in Hr. rewrite Sm in Hm. rewrite Sr in Hr.
  destruct (sequenced_streams q s s' Hseq) as [Om Or]. rewrite !numbers_cons, Om, Or. split.
  - destruct (on_media q s); cbn [app length].
    + by rewrite Nm, <- consecutive_cons, <- Hm by (done || apply Hq).
    + by rewrite Z.add_0_r, uw_small in Hm by apply Hq.
  - destruct (on_rtx q s); cbn [app length].
    + by rewrite Nr, <- consecutive_cons, <- Hr by (done || apply Hq).
    + by rewrite Z.add_0_r, uw_small in Hr by apply Hq.
Qed.

(** A packet that is not padding is sent as it was, renumbered. *)
Lemma sequenced_sendable s s' :
  sendable (packet s) -> has_type s kPadding = false -> sequenced s s' ->
  sendable (packet s') /\ payload_bytes (packet s') = payload_bytes (packet s).
Proof.
  intros Hs Hty (Hc & _ & _ & _ & _ & _ & Hhs & Hn). destruct (Hn Hty) as (_ & _ & _ & Hp & Hw).
  destruct (sendable_split _ Hs) as (Hsplit & Hlh & _ & Hlo & _). destruct Hs as [Hcs [Hpad Hbit]].
  assert (Hl : (12 <= length (wire (packet s)))%nat) by (rewrite Hsplit, length_app; lia).
  split; [split; [done|split; [congruence|]]|].
  - destruct (lookup_lt_is_Some_2 (wire (packet s)) 0) as [b0 E0]; [lia|].
    unfold RtpPacket.has_padding in *. rewrite (data_at_wire _ 0 b0 E0) in Hbit.
    rewrite (data_at_wire _ 0 b0); [done|]. by rewrite Hw by lia.
  - unfold payload_bytes. rewrite Hhs. apply list_eq. intros i. rewrite !lookup_drop. apply Hw. lia.
Qed.

(** Media and FEC packets of the media stream are numbered one after the other. *)
Lemma sequence_media ss now : forall q,
  sequencer_ok q -> Forall (sequenceable q) ss ->
  Forall (fun s => on_media q s = true /\ has_type s kPadding = false) ss ->
  exists outs q', sequence_all q (map (fun s => (s, now)) ss) = Ok (map Some outs, q') /\ Forall2 sequenced ss outs /\
    forall r s', outs !! r = Some s' ->
      RtpPacket.SequenceNumber (packet s') = u16 (media_sequence_number_ q + Z.of_nat r).
Proof.
  induction ss as [|s ss IH]; intros q Hq Hss Hon; cbn [sequence_all map].
  { exists [], q. split; [done|]. split; [constructor|]. by intros [|r] s' ?. }
  apply Forall_cons_1 in Hss as [Hs Hss]. apply Forall_cons_1 in Hon as [[Hm Hp] Hon].
  assert (Eh : held_back q s = false) by (unfold held_back; by rewrite Hp, andb_false_r).
  rewrite Eh. destruct (Sequence_ok q now s Hq Hs Eh) as (s' & q1 & -> & Hq1 & Em & Er & Hseq & Nm & _ & _ & Sm & _).
  rewrite Hm in Sm. cbn [mbind res_bind]. destruct (IH q1 Hq1) as (outs & q' & -> & Hf & Hn).
  { eapply Forall_impl; [exact Hss|]. intros x. by apply on_streams. }
  { eapply Forall_impl; [exact Hon|]. intros x. by rewrite (proj1 (on_streams q q1 x Em Er)). }
  cbn [mbind res_bind]. exists (s' :: outs), q'. split; [done|]. split; [by constructor|].
  intros [|r] x Hx; cbn in Hx.
  - injection Hx as <-. change (Z.of_nat 0) with 0. rewrite Z.add_0_r, uw_small by apply Hq. by apply Nm.
  - rewrite (Hn r x Hx), Sm. unfold uw. rewrite Zplus_mod_idemp_l. f_equal. lia.
Qed.

End Laws.
