(* ===== verification/GeneratorRun.v ===== *)
(** * GeneratorRun: [UlpfecGenerator] fed with a stream of packets

    The invariant between two packets ([gen_ok]), one packet with the call of
    [GetFecPackets] that follows it, and the delay until media is protected. *)

From stdpp Require Import sorting.
From S2P Require Import Prelude.
From S2P Require Import CowBuffer.
From S2P Require Import RtpPacketModel.
From S2P Require Import RtpPacketLaws.
From S2P Require Import RtpPacketOps.
From S2P Require Import RtpPacketSession.
From S2P Require Import PacketMasks.
From S2P Require Import FecTypes.
From S2P Require Import XorCode.
From S2P Require Import FecEncoder.
From S2P Require Import EncoderCorrect.
From S2P Require Import EncodeFecSpec.
From S2P Require Import EncoderGuarantees.
From S2P Require Import ReceiverSession.
From S2P Require Import UlpfecSender.
From S2P Require Import GeneratorLaws.
Import UlpfecGenerator.

(** Keeping the first [n] packets can be done once, at the end. *)
Lemma take_app_take (l l' : list Packet) n : take n (take n l ++ l') = take n (l ++ l').
Proof.
  destruct (decide (n <= length l)%nat).
  - rewrite !take_app_le, take_take, Nat.min_id by (rewrite ?length_take; lia). done.
  - by rewrite (take_ge l) by lia.
Qed.

Section Run.
Context `{Heap} {R : FecHeaderReader} {W : FecHeaderWriter} {own : bool} {L : FecSchemeLaws R W own}.
Context (ssrc : Z).

(** ** Batches *)

Lemma EncodeFec_zero e media ty :
  (length media <= 48)%nat -> media_batch media ->
  EncodeFec e media 0 0 false ty = Ok (e, 0, []).
Proof.
  intros Hk Hm. unfold EncodeFec. rewrite decide_False by (rewrite media_limit; lia).
  replace (existsb _ media) with false.
  - unfold NumFecPackets. rewrite Z.mul_0_r. cbn. done.
  - symmetry. apply not_true_is_false. rewrite existsb_exists. intros (p & Hp%list_elem_of_In & Hlt%Nat.ltb_lt).
    destruct (proj1 (Forall_forall _ _) (batch_sized _ Hm) p Hp) as [_ ?].
    unfold kRtpHeaderSize in Hlt. lia.
Qed.

(** [EncodeFec] on any batch the generator collects. *)
Lemma EncodeFec_total e media pf ty :
  encoder_ok e -> media_batch media -> (length media <= 48)%nat -> short_media media -> 0 <= pf <= 255 ->
  exists e' ret fecs, EncodeFec e media pf 0 false ty = Ok (e', ret, fecs) /\ encoder_ok e' /\
    Forall bytes fecs /\ (fecs = [] <-> pf = 0 \/ (48 < span media)%nat).
Proof.
  intros He Hm Hk Hs Hpf. destruct (decide (pf = 0)) as [->|Hne].
  { exists e, 0, []. rewrite EncodeFec_zero by done. split_and!; try done. split; [by left|done]. }
  destruct (decide (48 < span media)%nat) as [Hw|Hw].
  { destruct (EncodeFec_wide e media pf 0 false ty He Hm Hk Hw) as (e' & -> & He'); [lia..|].
    exists e', (-1), []. split_and!; try done. split; [by right|done]. }
  destruct (EncodeFec_success e media pf 0 false ty He Hm Hs)
    as (e' & fecs & masks & _ & -> & He' & Hmk & _ & Hl & Hr); [lia..|].
  exists e', 0, fecs. split_and!; try done.
  - apply Forall_lookup. intros r fec Hfec. destruct (Hr r) as (fec' & E & Hread & _).
    { rewrite <- Hl. by eapply lookup_lt_Some. }
    congruence.
  - split; [intros ->; cbn in Hl; lia|]. intros [?|?]; [done|lia].
Qed.

(** Sequence numbers go up, by at most 1000 from packet to packet. *)
Definition steady (p q : Packet) : Prop := 1 <= u16 (rtp_seq_num q - rtp_seq_num p) <= 1000.

Record storable (media : list Packet) : Prop := {
  bk_batch : media_batch media;
  bk_count : (length media <= 48)%nat;
  bk_short : short_media media;
  bk_span : (span media <= S (1000 * (length media - 1)))%nat
}.

Definition packet_sized (p : Packet) : Prop := media_sized p /\ Z.of_nat (length p) < 65548.

Lemma batch_one p : packet_sized p -> storable [p].
Proof.
  intros [Hp Hs]. split; [|cbn; lia|by constructor|].
  - split; [done|by constructor|]. cbn. by repeat constructor.
  - unfold span. cbn. rewrite offset_self. lia.
Qed.

Lemma batch_snoc media lst p :
  storable media -> last media = Some lst -> steady lst p -> packet_sized p -> (length media < 48)%nat ->
  storable (media ++ [p]).
Proof.
  intros [[Hne Hsz Hsort] Hc Hs Hsp] Hl Hst [Hp Hps] Hroom.
  pose proof (span_last _ _ Hl) as Hspl. set (base := base_seq media) in *.
  assert (Hbase : base_seq (media ++ [p]) = base) by by destruct media.
  assert (Hoff : (offset base p = offset base lst + Z.to_nat (u16 (rtp_seq_num p - rtp_seq_num lst)))%nat).
  { apply Nat2Z.inj. rewrite Nat2Z.inj_add, !offset_Z, Z2Nat.id by (pose proof Hst as [? _]; unfold steady in *; lia).
    pose proof (offset_Z base lst) as Hz. unfold steady in Hst.
    replace (rtp_seq_num p - base) with ((rtp_seq_num lst - base) + (rtp_seq_num p - rtp_seq_num lst)) by lia.
    unfold uw in *. rewrite Z.add_mod by lia. apply Z.mod_small.
    change (2 ^ 16) with 65536 in *.
    pose proof (Z.mod_pos_bound (rtp_seq_num lst - base) 65536 ltac:(lia)). lia. }
  unfold steady in Hst. split; [split| | |].
  - by destruct media.
  - apply Forall_app. split; [done|by constructor].
  - unfold offsets. rewrite Hbase, map_app. apply StronglySorted_app_2; [|done|by repeat constructor].
    intros o o' Ho Ho'. apply list_elem_of_singleton in Ho' as ->.
    pose proof (offsets_below media o (Build_media_batch _ Hne Hsz Hsort) Ho). lia.
  - rewrite length_app. cbn. lia.
  - apply Forall_app. split; [done|by constructor].
  - rewrite (span_last _ p) by apply last_snoc. rewrite Hbase, Hoff, length_app. cbn.
    assert (1 <= length media)%nat by (destruct media; [done|cbn; lia]). lia.
Qed.

(** ** The invariant *)

Definition params_ok (params : Params) : Prop :=
  0 <= fec_rate (delta_params params) <= 255 /\ 0 <= fec_rate (keyframe_params params) <= 255.

(** [prev] is the packet added last. *)
Record gen_ok (g : t) (prev : option Packet) : Prop := {
  go_types : types_ok g;
  go_encoder : encoder_ok (fec_ g);
  go_taken : generated_fec_packets_ g = [];
  go_frames : 0 <= num_protected_frames_ g;
  go_params : params_ok (current_params_ g);
  go_pending : forall params, pending_params_ g = Some params -> params_ok params;
  go_media : media_packets_ g = [] \/
    storable (media_packets_ g) /\
    (exists last, last_media_packet_ g = Some last /\ sendable (packet last) /\
       RtpPacket.Ssrc (packet last) = ssrc) /\
    ((length (media_packets_ g) < 48)%nat -> last (media_packets_ g) = prev)
}.

Lemma apply_pending_ok g prev : gen_ok g prev -> gen_ok (apply_pending g) prev.
Proof.
  intros [Ht He Hg Hf Hp Hq Hm]. unfold apply_pending.
  destruct (pending_params_ g) as [params|] eqn:E; [|split; try done; by rewrite E].
  split; try done. cbn. by apply Hq.
Qed.

Definition stream_packet (prev : option Packet) (s : RtpPacketToSend) : Prop :=
  sendable (packet s) /\ packet_sized (wire (packet s)) /\ RtpPacket.Ssrc (packet s) = ssrc /\
  match prev with Some p => steady p (wire (packet s)) | None => True end.

Record added_ok (g : t) (s : RtpPacketToSend) : Prop := {
  ao_types : types_ok g;
  ao_encoder : encoder_ok (fec_ g);
  ao_taken : generated_fec_packets_ g = [];
  ao_frames : 0 <= num_protected_frames_ g;
  ao_params : params_ok (current_params_ g);
  ao_pending : forall params, pending_params_ g = Some params -> params_ok params;
  ao_batch : storable (media_packets_ g);
  ao_last : exists last, last_media_packet_ g = Some last /\ sendable (packet last) /\
    RtpPacket.Ssrc (packet last) = ssrc;
  ao_prev : (length (media_packets_ g) < 48)%nat -> last (media_packets_ g) = Some (wire (packet s))
}.

Lemma add_packet_ok g prev s :
  gen_ok g prev -> (prev = None -> media_packets_ g = []) -> stream_packet prev s ->
  added_ok (add_packet g s) s /\
  num_protected_frames_ (add_packet g s) =
    num_protected_frames_ g + (if RtpPacket.Marker (packet s) then 1 else 0).
Proof.
  intros [Ht He Hg Hf Hp Hq Hm] Hprev (Hs & Hsz & Hss & Hst). split.
  2:{ unfold add_packet. cbn. destruct (RtpPacket.Marker _); lia. }
  destruct (copy_sendable s Hs) as (Hcs & _ & _).
  unfold add_packet. split; cbn; try done.
  - destruct (RtpPacket.Marker _); lia.
  - change (Cow.contents (RtpPacket.buffer_ (packet s))) with (wire (packet s)).
    destruct Hm as [->|(Hb & _ & Hl)]; [by apply batch_one|].
    destruct (Nat.leb_spec (length (media_packets_ g)) 47); [|done].
    destruct prev as [p|]; [|by destruct (batch_nonempty _ (bk_batch _ Hb) (Hprev eq_refl))].
    apply (batch_snoc _ p); try done; [apply Hl|]; lia.
  - destruct (Nat.leb_spec (length (media_packets_ g)) 47) as [|Hge]; [by eexists|].
    destruct Hm as [E|(_ & Hl & _)]; [rewrite E in Hge; cbn in Hge; lia|done].
  - destruct (Nat.leb_spec (length (media_packets_ g)) 47); [|lia]. intros _. apply last_snoc.
Qed.

(** ** Collecting *)

(** The generator with the packet stored, before it decides. *)
Definition collected (g : t) (s : RtpPacketToSend) : t := add_packet (apply_pending g) s.

(** Protection is due: always after [max_fec_frames] frames. *)
Definition due (g : t) (complete_frame : bool) : bool :=
  match enough_media g complete_frame with Ok b => b | Fault _ => false end.

Lemma enough_media_due g complete_frame :
  media_packets_ g <> [] -> enough_media g complete_frame = Ok (due g complete_frame).
Proof.
  intros Hne. unfold due. destruct (enough_media g complete_frame) eqn:E; [done|]. exfalso. revert E.
  unfold enough_media, ExcessOverheadBelowMax, Overhead.
  rewrite (proj2 (Z.eqb_neq _ 0)) by (destruct (media_packets_ g); [done|cbn; lia]). cbn [mbind res_bind].
  destruct (negb complete_frame); [done|]. by destruct (_ <=? _).
Qed.

Lemma not_due g : due g true = false -> num_protected_frames_ g < max_fec_frames (CurrentParams g).
Proof.
  unfold due, enough_media. cbn [negb]. destruct (Z.leb_spec (max_fec_frames (CurrentParams g)) (num_protected_frames_ g)); [done|lia].
Qed.

(** Parameters in force from the next packet on. *)
Definition next_params (g : t) : Params := default (current_params_ g) (pending_params_ g).

(** The payload types do not change. *)
Definition same_types (g g' : t) : Prop :=
  red_payload_type_ g' = red_payload_type_ g /\ ulpfec_payload_type_ g' = ulpfec_payload_type_ g.

Lemma collected_types g s :
  same_types g (collected g s) /\ fec_ (collected g s) = fec_ g /\
  pending_params_ (collected g s) = None /\ current_params_ (collected g s) = next_params g.
Proof. unfold same_types, collected, add_packet, apply_pending, next_params. destruct (pending_params_ g) eqn:E; cbn; by rewrite ?E. Qed.

Lemma rate_ok g : params_ok (current_params_ g) -> 0 <= fec_rate (CurrentParams g) <= 255.
Proof. intros [Hd Hk]. unfold CurrentParams. by destruct (media_contains_keyframe_ g). Qed.

Lemma added_gen_ok g s : added_ok g s -> gen_ok g (Some (wire (packet s))).
Proof. intros [Ht He Hg Hf Hp Hq Hb Hl Hpr]. split; try done. right. by split. Qed.

Lemma collected_ok g prev s :
  gen_ok g prev -> (prev = None -> media_packets_ g = []) -> stream_packet prev s -> added_ok (collected g s) s.
Proof.
  intros Hg Hprev Hs. apply (add_packet_ok (apply_pending g) prev); [by apply apply_pending_ok| |done].
  intros E. specialize (Hprev E). unfold apply_pending. by destruct (pending_params_ g).
Qed.

(** The first 48 packets are kept. *)
Lemma collected_media g prev s : gen_ok g prev ->
  media_packets_ (collected g s) = take 48 (media_packets_ g ++ [wire (packet s)]).
Proof.
  intros Hg. assert (Hl : (length (media_packets_ g) <= 48)%nat).
  { destruct (go_media _ _ Hg) as [->|[Hb _]]; [cbn; lia|apply Hb]. }
  assert (Hm : media_packets_ (apply_pending g) = media_packets_ g)
    by (unfold apply_pending; by destruct (pending_params_ g)).
  unfold collected, add_packet. cbn [media_packets_]. rewrite Hm. change kUlpfecMaxMediaPackets with 48%nat.
  destruct (Nat.ltb_spec (length (media_packets_ g)) 48).
  - rewrite (take_ge (_ ++ _)) by (rewrite length_app; cbn; lia). done.
  - by rewrite take_app_length' by lia.
Qed.

Lemma collected_frames g s : num_protected_frames_ (collected g s) =
  num_protected_frames_ g + (if RtpPacket.Marker (packet s) then 1 else 0).
Proof. unfold collected, add_packet, apply_pending. destruct (pending_params_ g); cbn; destruct (RtpPacket.Marker _); lia. Qed.

(** What [ResetState] leaves, with any encoder. *)
Record emptied (g g' : t) : Prop := {
  em_types : same_types g g';
  em_encoder : fec_ g' = fec_ g;
  em_media : media_packets_ g' = [];
  em_frames : num_protected_frames_ g' = 0;
  em_generated : generated_fec_packets_ g' = [];
  em_params : current_params_ g' = current_params_ g;
  em_pending : pending_params_ g' = pending_params_ g
}.

Lemma emptied_gen_ok g g' prev :
  types_ok g -> encoder_ok (fec_ g) -> params_ok (current_params_ g) -> pending_params_ g = None ->
  emptied g g' -> gen_ok g' prev.
Proof.
  intros Ht He Hp Hq [[Er Eu] Ee Hm Hf Hg Ep Eq].
  split; rewrite ?Ee, ?Hf, ?Ep, ?Eq, ?Hq; try done; [by unfold types_ok; rewrite Er, Eu|by left].
Qed.

(** ** The interface [VideoFecGenerator] *)

(** A generator collects media in a [UlpfecGenerator]; [Now] is what a call of
    [GetFecPackets] sees of the clock. *)
Class VideoFecGenerator (G Now : Type) := {
  collector : G -> t;
  with_collector : G -> t -> G;
  AddPacket : G -> RtpPacketToSend -> res G;
  GetFecPackets : G -> Now -> res (list RtpPacketToSend * G)
}.

(** What the sender relies on.  [usable] is an invariant of the members that
    [sends] needs; [sends g fecs out] says that [out] carries [fecs], and
    [follows g out g'] how sending [out] changes the generator, apart from its
    collector. *)
Class VideoFecGeneratorLaws (G Now : Type) `{!VideoFecGenerator G Now} (usable : G -> Prop)
    (sends : G -> list Packet -> list RtpPacketToSend -> Prop)
    (follows : G -> list RtpPacketToSend -> G -> Prop) := {
  collector_set g c : collector (with_collector g c) = c;
  add_collects g s : AddPacket g s = (let! c := AddPacketAndGenerateFec (collector g) s in Ok (with_collector g c));
  follows_set g c : usable g -> same_types (collector g) c -> follows g [] (with_collector g c);
  follows_app g out g1 out' g2 : follows g out g1 -> follows g1 out' g2 -> follows g (out ++ out') g2;
  follows_usable g out g' : usable g -> follows g out g' -> usable g';
  sends_follows g g' fecs out : follows g [] g' -> sends g' fecs out -> sends g fecs out;
  sends_nil g : sends g [] [];
  get_nothing g now : usable g -> generated_fec_packets_ (collector g) = [] ->
    exists g', GetFecPackets g now = Ok ([], g') /\ collector g' = collector g /\ follows g [] g';
  get_fec g last now : usable g -> types_ok (collector g) ->
    last_media_packet_ (collector g) = Some last -> sendable (packet last) -> RtpPacket.Ssrc (packet last) = ssrc ->
    Forall bytes (generated_fec_packets_ (collector g)) -> generated_fec_packets_ (collector g) <> [] ->
    exists out g', GetFecPackets g now = Ok (out, g') /\ emptied (collector g) (collector g') /\
      follows g out g' /\ sends g (generated_fec_packets_ (collector g)) out
}.

Context {G Now : Type} {VG : VideoFecGenerator G Now}.
Context {usable : G -> Prop} {sends : G -> list Packet -> list RtpPacketToSend -> Prop}.
Context {follows : G -> list RtpPacketToSend -> G -> Prop}.
Context {VL : VideoFecGeneratorLaws G Now usable sends follows}.

(** ** One packet *)

(** A packet is added and the FEC packets are fetched. *)
Definition push (g : G) (s : RtpPacketToSend) (now : Now) : res (list RtpPacketToSend * G) :=
  let! g := AddPacket g s in GetFecPackets g now.

(** The generator is empty again; [out] carries the FEC packets of the media collected. *)
Record flushed (g : G) (s : RtpPacketToSend) (out : list RtpPacketToSend) (g' : G) : Prop := {
  fl_out : exists e' ret fecs,
    let c := collected (collector g) s in
    EncodeFec (fec_ (collector g)) (media_packets_ c) (fec_rate (CurrentParams c)) 0 false
      (fec_mask_type (CurrentParams c)) = Ok (e', ret, fecs) /\
    (fecs = [] <-> fec_rate (CurrentParams c) = 0 \/ (48 < span (media_packets_ c))%nat) /\
    sends g fecs out;
  fl_media : media_packets_ (collector g') = [];
  fl_frames : num_protected_frames_ (collector g') = 0;
  fl_generated : generated_fec_packets_ (collector g') = []
}.

(** Between two packets. *)
Definition ready (g : G) (prev : option Packet) : Prop := usable g /\ gen_ok (collector g) prev.

Definition pushed (g : G) (s : RtpPacketToSend) (out : list RtpPacketToSend) (g' : G) : Prop :=
  ready g' (Some (wire (packet s))) /\ follows g out g' /\
  current_params_ (collector g') = next_params (collector g) /\ pending_params_ (collector g') = None /\
  (if due (collected (collector g) s) (RtpPacket.Marker (packet s)) then flushed g s out g'
   else out = [] /\ collector g' = collected (collector g) s).

(** The call of [GetFecPackets] after [AddPacketAndGenerateFec] left [c]. *)
Lemma fetch_nothing g c now :
  usable g -> same_types (collector g) c -> generated_fec_packets_ c = [] ->
  exists g', GetFecPackets (with_collector g c) now = Ok ([], g') /\ collector g' = c /\ follows g [] g' /\ usable g'.
Proof.
  intros Hu Ht Hg. pose proof (follows_set g c Hu Ht) as Hf.
  destruct (get_nothing (with_collector g c) now) as (g' & E & Hc & Hf'); [by eapply follows_usable|by rewrite collector_set|].
  exists g'. rewrite collector_set in Hc. pose proof (follows_app _ [] _ _ _ Hf Hf') as Hff.
  split; [done|]. split; [done|]. split; [done|]. by eapply follows_usable.
Qed.

Lemma fetch_fec g c last now :
  usable g -> same_types (collector g) c -> types_ok c -> last_media_packet_ c = Some last ->
  sendable (packet last) -> RtpPacket.Ssrc (packet last) = ssrc ->
  Forall bytes (generated_fec_packets_ c) -> generated_fec_packets_ c <> [] ->
  exists out g', GetFecPackets (with_collector g c) now = Ok (out, g') /\ emptied c (collector g') /\
    follows g out g' /\ usable g' /\ sends g (generated_fec_packets_ c) out.
Proof.
  intros Hu Ht Hty Hl Hs Hss Hb Hne. pose proof (follows_set g c Hu Ht) as Hf.
  destruct (get_fec (with_collector g c) last now) as (out & g' & E & Hem & Hf' & Hsd);
    rewrite ?collector_set; try done; [by eapply follows_usable|]. rewrite collector_set in *.
  pose proof (follows_app _ [] _ _ _ Hf Hf') as Hff. exists out, g'. split; [done|]. split; [done|]. split; [done|].
  split; [by eapply follows_usable|]. by eapply sends_follows.
Qed.

Lemma push_ok g prev s now :
  ready g prev -> (prev = None -> media_packets_ (collector g) = []) -> stream_packet prev s ->
  exists out g', push g s now = Ok (out, g') /\ pushed g s out g'.
Proof.
  intros [Hu Hg] Hprev Hs. unfold push, pushed. rewrite add_collects. unfold AddPacketAndGenerateFec. fold (collected (collector g) s).
  destruct (collected_types (collector g) s) as (Et & Ee & Ep & Ec).
  pose proof (collected_ok _ prev s Hg Hprev Hs) as Hadd. set (c := collected (collector g) s) in *.
  rewrite enough_media_due by apply (bk_batch _ (ao_batch _ _ Hadd)). cbn [mbind res_bind].
  destruct (due c (RtpPacket.Marker (packet s))) eqn:Ed; cbn [negb].
  2:{ cbn [mbind res_bind]. destruct (fetch_nothing g c now Hu Et (ao_taken _ _ Hadd)) as (g' & -> & Hc & Hf & Hu').
      exists [], g'. rewrite Hc. split; [done|]. split; [|done]. split; [done|]. rewrite Hc. by apply added_gen_ok. }
  pose proof (rate_ok _ (ao_params _ _ Hadd)) as Hrate.
  replace (u8 (fec_rate (CurrentParams c))) with (fec_rate (CurrentParams c)) by (unfold uw; rewrite Z.mod_small; lia).
  destruct (EncodeFec_total (fec_ c) (media_packets_ c) (fec_rate (CurrentParams c)) (fec_mask_type (CurrentParams c)))
    as (e' & ret & fecs & E & He' & Hb & Hnil); try apply Hadd; try done.
  rewrite E. cbn [mbind res_bind]. rewrite (ao_taken _ _ Hadd). cbn [app]. rewrite Ee in E.
  destruct (ao_last _ _ Hadd) as (last & Hl & Hls & Hss). destruct fecs as [|fec fecs].
  - match goal with |- context [with_collector g ?c1] => destruct (fetch_nothing g c1 now Hu Et eq_refl) as (g' & -> & Hc & Hf & Hu') end.
    exists [], g'. split; [done|]. rewrite Hc. split; [split; [done|]; rewrite Hc|split; [done|split; [done|split; [done|]]]].
    + destruct Hadd. split; cbn; try done. by left.
    + split; rewrite ?Hc; try done. exists e', ret, []. cbn zeta. split; [done|]. split; [done|]. apply sends_nil.
  - match goal with |- context [with_collector g ?c1] =>
      destruct (fetch_fec g c1 last now Hu Et (ao_types _ _ Hadd) Hl Hls Hss Hb ltac:(done)) as (out & g' & -> & Hem & Hf & Hu' & Hsd) end.
    exists out, g'. split; [done|]. pose proof Hem as [_ _ Em Ef Eg Epa Epe].
    split; [split; [done|]|split; [done|split; [by rewrite Epa|split; [by rewrite Epe|]]]].
    + refine (emptied_gen_ok _ _ _ _ _ _ _ Hem); [apply Hadd|exact He'|apply Hadd|exact Ep].
    + split; try done. exists e', ret, (fec :: fecs). cbn zeta. by split_and!.
Qed.

(** ** A stream *)

(** Every packet with the time at which it is sent. *)
Definition run (ss : list (RtpPacketToSend * Now)) (st : list RtpPacketToSend * G)
    : res (list RtpPacketToSend * G) :=
  foldM (fun st sn => let! (out, g) := push st.2 sn.1 sn.2 in Ok (st.1 ++ out, g)) ss st.

Fixpoint stream (prev : option Packet) (ss : list (RtpPacketToSend * Now)) : Prop :=
  match ss with
  | [] => True
  | sn :: ss => stream_packet prev sn.1 /\ stream (Some (wire (packet sn.1))) ss
  end.

Definition complete_frames (ss : list (RtpPacketToSend * Now)) : Z :=
  Z.of_nat (length (filter (fun sn => RtpPacket.Marker (packet sn.1) = true) ss)).

Lemma complete_frames_cons sn ss :
  complete_frames (sn :: ss) = (if RtpPacket.Marker (packet sn.1) then 1 else 0) + complete_frames ss.
Proof.
  unfold complete_frames. rewrite filter_cons. destruct (RtpPacket.Marker _); cbn [length];
    [rewrite decide_True by done; cbn [length]; lia|by rewrite decide_False].
Qed.

Lemma run_cons sn ss st : run (sn :: ss) st =
  (let! (out, g) := push st.2 sn.1 sn.2 in run ss (st.1 ++ out, g)).
Proof. unfold run. cbn [foldM]. by destruct (push st.2 sn.1 sn.2) as [[]|]. Qed.

(** A state between two packets. *)
Definition between (st : list RtpPacketToSend * G) (prev : option Packet) : Prop :=
  ready st.2 prev /\ (prev = None -> media_packets_ (collector st.2) = []).

Lemma between_next out g p : ready g (Some p) -> between (out, g) (Some p).
Proof. intros Hg. by split. Qed.

Lemma run_between ss : forall st prev,
  between st prev -> stream prev ss ->
  exists st', run ss st = Ok st' /\
    (forall ss', stream prev (ss ++ ss') -> exists prev', between st' prev' /\ stream prev' ss') /\
    (ss = [] \/ exists out, st'.1 = st.1 ++ out /\ follows st.2 out st'.2) /\
    next_params (collector st'.2) = next_params (collector st.2).
Proof.
  induction ss as [|[s now] ss IH]; intros st prev [Hg Hp] Hss.
  { exists st. split; [done|]. split; [|by split; [left|]]. intros ss' Hss'. by exists prev. }
  destruct Hss as [Hs Hss]. rewrite run_cons. cbn [fst snd] in *.
  destruct (push_ok _ _ _ now Hg Hp Hs) as (out & g' & E & Hg' & Hf & Hc & Hq & _). rewrite E. cbn [mbind res_bind].
  destruct (IH (st.1 ++ out, g') _ (between_next _ _ _ Hg') Hss) as (st' & E' & Hpre & Hfl & Hpar).
  exists st'. split; [done|]. split; [intros ss' [_ Hss']; by apply Hpre|]. split.
  - right. destruct Hfl as [->|(out' & -> & Hf')]; [injection E' as <-; by exists out|].
    exists (out ++ out'). cbn [fst snd] in *. split; [by rewrite <- (assoc_L (++))|]. by eapply follows_app.
  - rewrite Hpar. unfold next_params at 1. cbn [snd]. by rewrite Hq.
Qed.

Lemma run_app ss ss' st : run (ss ++ ss') st = (let! st' := run ss st in run ss' st').
Proof.
  revert st. induction ss as [|sn ss IH]; intros st; [done|]. cbn [app]. rewrite !run_cons.
  destruct (push st.2 sn.1 sn.2) as [[out g]|]; [|done]. cbn [mbind res_bind]. apply IH.
Qed.

(** The batch is protected before [frames] more frames are complete. *)
Definition max_frames (params : Params) : Z :=
  Z.max (max_fec_frames (delta_params params)) (max_fec_frames (keyframe_params params)).

Definition wires (ss : list (RtpPacketToSend * Now)) : list Packet := map (fun sn => wire (packet sn.1)) ss.

Lemma flush_in_time ss : forall st prev,
  between st prev -> stream prev ss ->
  max_frames (next_params (collector st.2)) <= num_protected_frames_ (collector st.2) + complete_frames ss ->
  0 < complete_frames ss ->
  exists before sn after st0 out g',
    ss = before ++ sn :: after /\ run before st = Ok st0 /\ push st0.2 sn.1 sn.2 = Ok (out, g') /\
    flushed st0.2 sn.1 out g' /\ st0.1 = st.1 /\
    media_packets_ (collected (collector st0.2) sn.1) =
      take 48 (media_packets_ (collector st.2) ++ wires (before ++ [sn])).
Proof.
  induction ss as [|[s now] ss IH]; intros st prev [Hg Hp] Hss Hle Hpos; [by destruct (Z.lt_irrefl 0 Hpos)|].
  destruct Hss as [Hs Hss]. cbn [fst snd] in *. rewrite complete_frames_cons in Hle, Hpos. cbn [fst] in Hle, Hpos.
  destruct (push_ok _ _ _ now Hg Hp Hs) as (out & g' & E & Hg' & _ & Hc & Hq & Hd).
  destruct (due (collected (collector st.2) s) (RtpPacket.Marker (packet s))) eqn:Ed.
  { exists [], (s, now), ss, st, out, g'. split_and!; try done. by eapply collected_media, Hg. }
  destruct Hd as [-> Hcol]. pose proof (collected_frames (collector st.2) s) as Hn.
  destruct (IH (st.1 ++ [], g') _ (between_next _ _ _ Hg') Hss)
    as (before & sn & after & st0 & out' & g'' & -> & Hrun & Hpush & Hfl & Hout & Hmed).
  - cbn [snd]. unfold next_params at 1. rewrite Hq, Hcol, Hn. cbn [default]. rewrite <- Hcol, Hc. destruct (RtpPacket.Marker _); lia.
  - destruct (RtpPacket.Marker (packet s)); [|lia].
    apply not_due in Ed. rewrite Hn in Ed. unfold CurrentParams in Ed. unfold max_frames in Hle.
    cbn [snd] in *. rewrite <- Hcol, Hc in Ed. destruct (media_contains_keyframe_ _); lia.
  - exists ((s, now) :: before), sn, after, st0, out', g''. split; [done|].
    split; [rewrite run_cons; cbn [fst snd]; rewrite E; exact Hrun|]. split; [done|]. split; [done|].
    split; [rewrite Hout; apply app_nil_r|]. rewrite Hmed. cbn [snd].
    rewrite Hcol, (collected_media _ _ _ (proj2 Hg)), take_app_take, <- (assoc_L (++)). done.
Qed.

(** What holds of the packets of every batch holds of all packets sent. *)
Lemma run_sent (Q : Packet -> Prop) (P : RtpPacketToSend -> Prop) ss : forall st prev st',
  between st prev -> stream prev ss -> run ss st = Ok st' ->
  Forall (fun sn => Q (wire (packet sn.1))) ss -> Forall Q (media_packets_ (collector st.2)) -> Forall P st.1 ->
  (forall g s out g', g = st.2 \/ (exists o, follows st.2 o g) -> added_ok (collected (collector g) s) s ->
     Forall Q (media_packets_ (collected (collector g) s)) -> flushed g s out g' -> Forall P out) ->
  Forall P st'.1.
Proof.
  induction ss as [|[s now] ss IH]; intros st prev st' [Hg Hp] Hss Hrun HQ Hm HP Hfl; [by injection Hrun as <-|].
  destruct Hss as [Hs Hss]. rewrite run_cons in Hrun. apply Forall_cons_1 in HQ as [HQs HQ]. cbn [fst snd] in *.
  destruct (push_ok _ _ _ now Hg Hp Hs) as (out & g' & E & Hg' & Hf & _ & _ & Hd). rewrite E in Hrun. cbn [mbind res_bind] in Hrun.
  assert (Hcm : Forall Q (media_packets_ (collected (collector st.2) s))).
  { rewrite (collected_media _ _ _ (proj2 Hg)). apply Forall_take, Forall_app. split; [done|by constructor]. }
  pose proof (collected_ok _ _ _ (proj2 Hg) Hp Hs) as Hadd.
  eapply (IH (st.1 ++ out, g')); [by apply between_next|exact Hss|exact Hrun|exact HQ| | |].
  - cbn [snd]. destruct (due _ _); [|by destruct Hd as [_ ->]]. rewrite (fl_media _ _ _ _ Hd). constructor.
  - cbn [fst]. apply Forall_app. split; [done|]. destruct (due _ _) eqn:Ed; [|by destruct Hd as [-> _]].
    by eapply (Hfl st.2 s); [left|..].
  - intros g0 s0 out0 g0' Hg0 Hadd0. apply Hfl; [right|done]. cbn [snd] in Hg0.
    destruct Hg0 as [->|(o & Ho)]; [by exists out|]. exists (out ++ o). by eapply follows_app.
Qed.

Lemma stream_prefix prev ss ss' : stream prev (ss ++ ss') -> stream prev ss.
Proof. revert prev. induction ss as [|sn ss IH]; intros prev; [done|]. intros [? ?]. split; [done|by apply IH]. Qed.

(** The first batch of a stream that starts with nothing collected. *)
Lemma first_batch g prev ss :
  ready g prev -> media_packets_ (collector g) = [] -> stream prev ss ->
  max_frames (next_params (collector g)) <= complete_frames ss -> 0 < complete_frames ss ->
  exists before sn rest g0 out g', ss = before ++ sn :: rest /\ run (before ++ [sn]) ([], g) = Ok (out, g') /\
    added_ok (collected (collector g0) sn.1) sn.1 /\ flushed g0 sn.1 out g' /\
    media_packets_ (collected (collector g0) sn.1) = take 48 (wires (before ++ [sn])) /\
    (g0 = g \/ follows g [] g0) /\ usable g0 /\ follows g out g' /\
    current_params_ (collected (collector g0) sn.1) = next_params (collector g) /\
    exists prev', ready g' prev' /\ stream prev' rest.
Proof.
  intros Hg Hm Hs Hle Hpos.
  assert (Hbt : between ([], g) prev) by by split.
  destruct (flush_in_time ss ([], g) prev Hbt Hs)
    as (before & sn & rest & st0 & out & g' & -> & Hrun & Hpush & Hfl & Hout & Hmed); [|done|].
  { cbn [snd]. pose proof (go_frames _ _ (proj2 Hg)). lia. }
  destruct (run_between before _ prev Hbt (stream_prefix _ _ _ Hs)) as (st0' & Hrun' & Hpre & Hf & Hpar).
  rewrite Hrun in Hrun'. injection Hrun' as <-. destruct (Hpre _ Hs) as (prev0 & [[Hu0 Hg0] Hp0] & [Hsn _]).
  cbn [snd fst] in *. rewrite Hm in Hmed. cbn [app] in Hmed.
  assert (Hall : run (before ++ [sn]) ([], g) = Ok (out, g')).
  { rewrite run_app, Hrun. cbn [mbind res_bind]. rewrite run_cons, Hpush. cbn [mbind res_bind]. by rewrite Hout. }
  rewrite (cons_middle sn), (assoc_L (++)) in Hs.
  destruct (run_between (before ++ [sn]) ([], g) prev Hbt (stream_prefix _ _ _ Hs)) as (st & Hst & Hnext & Hf2 & _).
  rewrite Hall in Hst. injection Hst as <-. destruct (Hnext _ Hs) as (prev' & [Hg' _] & Hrest).
  exists before, sn, rest, st0.2, out, g'. split; [by rewrite (cons_middle sn), (assoc_L (++))|]. split; [done|].
  split; [by eapply collected_ok|]. split; [done|]. split; [done|]. split.
  { destruct Hf as [->|(o & Ho & Hf)]; [injection Hrun as <-; by left|]. rewrite Hout in Ho. right. by destruct o. }
  split; [done|]. split.
  { destruct Hf2 as [E|(o & Ho & Hf2)]; [by destruct before|]. cbn in Ho. by subst o. }
  split; [destruct (collected_types (collector st0.2) sn.1) as (_ & _ & _ & ->); done|]. by exists prev'.
Qed.

End Run.

(** ** [UlpfecGenerator] implements the interface *)

Section Ulpfec.
Context `{Heap} {R : FecHeaderReader} {W : FecHeaderWriter} {own : bool} {L : FecSchemeLaws R W own}.
Context (ssrc : Z).

#[global] Instance ulpfec_video_generator : VideoFecGenerator t Z := {
  collector g := g;
  with_collector _ c := c;
  AddPacket := AddPacketAndGenerateFec;
  GetFecPackets := UlpfecGenerator.GetFecPackets
}.

(** An FEC packet leaves in RED with the header of a media packet. *)
Definition fec_sent (g : t) (fec : Packet) (r : RtpPacketToSend) : Prop :=
  (exists last, RtpPacket.Ssrc (packet last) = ssrc /\
     fec_form (packet last) (packet r) (ulpfec_payload_type_ g) fec) /\
  RtpPacket.PayloadType (packet r) = red_payload_type_ g /\ RtpPacket.Marker (packet r) = false /\
  packet_type r = Some kForwardErrorCorrection /\ allow_retransmission r = false /\
  fec_protect_packet r = false /\ is_red r = true.

Definition all_sent (g : t) : list Packet -> list RtpPacketToSend -> Prop := Forall2 (fec_sent g).

Lemma GetFecPackets_ok g last now_ms :
  types_ok g -> last_media_packet_ g = Some last -> sendable (packet last) -> RtpPacket.Ssrc (packet last) = ssrc ->
  Forall bytes (generated_fec_packets_ g) -> generated_fec_packets_ g <> [] ->
  exists out g', UlpfecGenerator.GetFecPackets g now_ms = Ok (out, g') /\ emptied g g' /\
    all_sent g (generated_fec_packets_ g) out.
Proof.
  intros Hg Hl Hs Hss Hb Hne. unfold UlpfecGenerator.GetFecPackets.
  destruct (generated_fec_packets_ g) as [|fec fecs] eqn:E; [done|]. rewrite Hl.
  destruct (SetPayloadSize_sendable (packet last) 0 Hs) as (p & -> & Hp & [b Hpb] & _). cbn [mbind res_bind].
  destruct (red_fec_loop g (with_packet last p) (fec :: fecs) [] Hg Hp Hb) as (reds & -> & Hreds).
  cbn [mbind res_bind app]. eexists _, _. split; [done|]. split; [done|].
  eapply Forall2_impl; [exact Hreds|]. intros f r (Hf & Hrest). split; [|done].
  exists (with_packet last p). split; [|done]. cbn [packet with_packet]. by rewrite Hpb.
Qed.

#[global] Instance ulpfec_generator_laws :
  VideoFecGeneratorLaws ssrc t Z (fun _ => True) all_sent (fun g _ g' => same_types g g').
Proof.
  split; try done.
  - intros g s. cbn. by destruct (AddPacketAndGenerateFec g s).
  - intros g out g1 out' g2 [??] [??]. split; congruence.
  - intros g g' fecs out [Er Eu]. unfold all_sent, fec_sent. by rewrite Er, Eu.
  - by constructor.
  - intros g now _ E. exists g. split; [|done]. cbn in *. unfold UlpfecGenerator.GetFecPackets. by rewrite E.
  - intros g last now _ Ht Hl Hs Hss Hb Hne. cbn in *.
    destruct (GetFecPackets_ok g last now Ht Hl Hs Hss Hb Hne) as (out & g' & E & Hem & Hout).
    exists out, g'. split; [done|]. split; [done|]. split; [|done]. apply Hem.
Qed.

End Ulpfec.
