(* ===== verification/EndToEnd.v ===== *)
(** * EndToEnd: from the ULPFEC sender to the ULPFEC receiver

    Media packets go through [UlpfecGenerator]; they and the FEC packets are
    sent in RED, one of them is lost, and [UlpfecReceiver] gets the rest. *)

From stdpp Require Import sorting.
From S2P Require Import Prelude.
From S2P Require Import ByteIo.
From S2P Require Import SeqNum.
From S2P Require Import CowBuffer.
From S2P Require Import RtpExtensions.
From S2P Require Import RtpPacketModel.
From S2P Require Import RtpPacketLaws.
From S2P Require Import RtpPacketOps.
From S2P Require Import RtpPacketSession.
From S2P Require Import PacketMasks.
From S2P Require Import FecTypes.
From S2P Require Import UlpfecHeader.
From S2P Require Import XorCode.
From S2P Require Import FecEncoder.
From S2P Require Import EncoderCorrect.
From S2P Require Import EncodeFecSpec.
From S2P Require Import FecDecoder.
From S2P Require Import Peeling.
From S2P Require Import Transmission.
From S2P Require Import FecReceivers.
From S2P Require Import ReceiverLaws.
From S2P Require Import ReceiverSession.
From S2P Require Import ReceiverGuarantees.
From S2P Require Import UlpfecSender.
From S2P Require Import GeneratorLaws.
From S2P Require Import GeneratorRun.
From S2P Require Import SequencerModel.
From S2P Require Import SequencerLaws.
Import UlpfecGenerator.

(** ** What the FEC code reads from an RTP packet *)

Lemma reads_ssrc d q : reads d q -> RtpPacket.Ssrc q = rtp_ssrc d.
Proof.
  intros (Hl & b0 & b1 & _ & _ & _ & _ & _ & _ & _ & E & _). unfold kFixedHeaderSize in Hl.
  cbn in E. unfold ByteReader.ReadBigEndian4 in E. revert E.
  cbn [Nat.add].
  destruct (buf_get_lt d 8) as (x8 & E8 & G8); [lia|]. destruct (buf_get_lt d 9) as (x9 & E9 & G9); [lia|].
  destruct (buf_get_lt d 10) as (x10 & E10 & G10); [lia|]. destruct (buf_get_lt d 11) as (x11 & E11 & G11); [lia|].
  rewrite G8. cbn [mbind res_bind]. rewrite G9. cbn [mbind res_bind]. rewrite G10. cbn [mbind res_bind].
  rewrite G11. cbn [mbind res_bind]. intros [= E]. unfold RtpPacket.Ssrc, rtp_ssrc. rewrite <- E.
  by rewrite (byte_at_lookup _ _ _ E8), (byte_at_lookup _ _ _ E9), (byte_at_lookup _ _ _ E10),
    (byte_at_lookup _ _ _ E11).
Qed.

Lemma reads_version d q : bytes d -> reads d q ->
  exists b0, d !! 0%nat = Some b0 /\ Z.testbit b0 7 = true /\ Z.testbit b0 6 = false.
Proof.
  intros Hb (_ & b0 & _ & E & _ & Hv & _). exists b0. split; [done|].
  assert (Hbit : forall i, 0 <= i -> Z.testbit b0 (i + 6) = Z.testbit 2 i).
  { intros i Hi. rewrite <- Z.shiftr_spec by done. by rewrite Hv. }
  split; [by apply (Hbit 1)|by apply (Hbit 0)].
Qed.

(** ** Arrivals *)

(** The packet has no extension that is rewritten after FEC encoding. *)
Definition no_mutable (q : RtpPacket.t) : Prop :=
  Forall (fun e => (mutable_zone (RtpPacket.extensions_ q) e).2 = 0%nat) (RtpPacket.extension_entries_ q).

(** The datagram [a] carries the bytes of [q], for the first time. *)
Record arrives (q : RtpPacket.t) (a : Z * RtpPacketReceived) : Prop := {
  ar_ok : arrival_ok a.2;
  ar_plain : no_mutable (rtp_packet a.2);
  ar_first : recovered a.2 = false;
  ar_wire : wire (rtp_packet a.2) = wire q
}.

Section Arrivals.
Context `{Heap} (ssrc ulpfec : Z).
Hypothesis Hulpfec : 0 <= ulpfec < 128.

(** The receiver feeds [rp] to the decoder for it. *)
Definition feeds (a : Z * RtpPacketReceived) (rp : ReceivedPacket) : Prop :=
  exists rc, carried ssrc ulpfec a.2 = Some rc /\ rp_pkt rc.1 = rp_pkt rp /\ rp_pkt rp <> [] /\
    rp_is_fec rc.1 = rp_is_fec rp /\ rp_is_recovered rp = false /\ exists out, prepared rc.1 rc.2 rp out.

Lemma zeroed_plain q : no_mutable q -> zeroed q (wire q).
Proof.
  intros Hn. split; [done|]. intros i. replace (existsb _ _) with false; [done|]. symmetry.
  apply not_true_is_false. rewrite existsb_exists. intros (e & Hin%list_elem_of_In & He).
  by rewrite (in_zone_empty _ e i (proj1 (Forall_forall _ _) Hn e Hin)) in He.
Qed.

Lemma media_arrives p q red a :
  sendable p -> red_form p q red -> 0 <= red < 128 -> RtpPacket.Ssrc p = ssrc ->
  RtpPacket.PayloadType p <> ulpfec -> (length (wire q) <= IP_PACKET_SIZE)%nat ->
  arrives q a -> feeds a (as_media (wire p)).
Proof.
  intros Hp Hred Hr Hss Hpt Hsz [[Hc Hm] Hn Hf Hw]. destruct a as [now [r rec]]. cbn in *. subst rec.
  destruct (same_bytes_stream q r (proj1 (rf_sendable _ _ _ Hred)) Hc Hw) as (Hst & Hps & _).
  destruct (proj2 (proj1 Hp)) as [Hl _]. pose proof (consistent_size p (proj1 Hp)) as (_ & Hb & _).
  exists (mkReceivedPacket ssrc (RtpPacket.SequenceNumber p) false false (wire p), RtpPacket.extensions_ r).
  split; [by apply (carried_media p q r red)|]. cbn. split; [done|].
  split; [by destruct (wire p); [unfold kFixedHeaderSize in Hl; cbn in Hl; lia|]|]. split; [done|]. split; [done|].
  destruct (parse_fresh (RtpPacket.extensions_ r) (wire p) Hb) as (p0 & b & q' & _ & _ & Hpar & Hread).
  destruct (Hpar (Hread (ex_intro _ p (proj2 (proj1 Hp))))) as (Hc' & Hw' & He').
  eexists. 
  assert (Hz : zeroed q' (wire p)).
  { rewrite <- Hw'. apply zeroed_plain. unfold no_mutable. rewrite He'.
    destruct (same_bytes_stream p q' (proj1 Hp) Hc' Hw') as ((_ & _ & _ & _ & ->) & _).
    destruct Hst as (_ & _ & _ & _ & Ee), (rf_stream _ _ _ Hred) as (_ & _ & _ & _ & <-). by rewrite <- Ee. }
  pose proof (prepared_media (mkReceivedPacket ssrc (RtpPacket.SequenceNumber p) false false (wire p))
    (RtpPacket.extensions_ r) q' (wire p) eq_refl (conj Hc' (conj Hw' He')) Hz) as Hprep.
  unfold as_media. rewrite <- (reads_ssrc _ _ (proj2 (proj1 Hp))), <- (reads_seq _ _ (proj2 (proj1 Hp))), Hss.
  exact Hprep.
Qed.

Lemma fec_arrives q fec a :
  sendable q -> payload_bytes q = ulpfec :: fec -> fec <> [] -> RtpPacket.Ssrc q = ssrc ->
  (length (wire q) <= IP_PACKET_SIZE)%nat -> arrives q a ->
  feeds a (as_fec ssrc (RtpPacket.SequenceNumber q) fec).
Proof.
  intros Hq Hpb Hne Hss Hsz [[Hc Hm] Hn Hf Hw]. destruct a as [now [r rec]]. cbn in *. subst rec.
  destruct (same_bytes_stream q r (proj1 Hq) Hc Hw) as (Hst & Hps & _).
  exists (mkReceivedPacket ssrc (RtpPacket.SequenceNumber r) true false fec, RtpPacket.extensions_ r).
  split; [by apply (carried_fec q r)|]. cbn. split_and!; try done. exists [].
  destruct Hst as (<- & _). by constructor.
Qed.

Lemma feeds_input arrivals session :
  Forall2 feeds arrivals session ->
  decoder_input (received_of ssrc ulpfec arrivals) session /\
  Forall2 (fun rc rp => rp_pkt rc.1 = rp_pkt rp /\ rp_is_fec rc.1 = rp_is_fec rp)
    (received_of ssrc ulpfec arrivals) session.
Proof.
  intros Hf. enough (Hx : Forall2 (fun rc rp => (exists out, prepared rc.1 rc.2 rp out) /\
    rp_pkt rc.1 = rp_pkt rp /\ rp_is_fec rc.1 = rp_is_fec rp) (received_of ssrc ulpfec arrivals) session /\
    decoded session = session).
  { destruct Hx as [Hx Hd]. split.
    - exists session. split; [|done]. eapply Forall2_impl; [exact Hx|]. by intros ?? [? _].
    - eapply Forall2_impl; [exact Hx|]. by intros ?? [_ ?]. }
  induction Hf as [|a rp arrivals session (rc & Hc & Hp & Hne & Hfec & Hrec & Hprep) _ [IH IHd]]; [by split|].
  split.
  - unfold received_of. cbn [omap list_omap]. rewrite Hc, filter_cons, decide_True by (by rewrite Hp).
    by constructor.
  - unfold decoded in *. rewrite filter_cons, decide_True by done. by rewrite IHd.
Qed.

End Arrivals.

(** What is made of the datagrams that survive the loss of the [c]-th one. *)
Lemma survivors_session {A B C} (Rx : A -> C -> Prop) (F : C -> B -> Prop) datagrams (tr : list B) c survivors arrivals :
  Forall2 (fun s rp => forall a, Rx s a -> F a rp) datagrams tr ->
  survivors ≡ₚ delete c datagrams -> Forall2 Rx survivors arrivals ->
  exists session, session ≡ₚ delete c tr /\ Forall2 F arrivals session.
Proof.
  intros Hd Hp Ha. apply (Forall2_delete _ _ _ c) in Hd. symmetry in Hp.
  destruct (Permutation_Forall2 Hp Hd) as (session & Hps & Hf). exists session. split; [done|].
  clear Hd Hp Hps. revert session Hf. induction Ha as [|s a survivors arrivals Ha _ IH]; intros session Hf.
  - inversion Hf. constructor.
  - inversion Hf as [|? rp ? rps Hrp Hrps]; subst. constructor; [by apply Hrp|by apply IH].
Qed.

(** ** The receiver *)

Section Receiver.
Context `{Heap} (ssrc ulpfec : Z).
Context (media fecs : list Packet) (fec_seq : nat -> Z) (bit : nat -> nat -> bool).
Hypothesis Hbatch : batch_ok (R := Ulpfec.UlpfecHeaderReader) (own := true) media fecs ssrc ssrc fec_seq bit.
Hypothesis Hread : Forall (fun p => exists h, reads p h) media.

(** The media packets that arrive are delivered. *)
Lemma received_delivered arrivals session out p :
  Forall2 (fun rc rp => rp_pkt rc.1 = rp_pkt rp /\ rp_is_fec rc.1 = rp_is_fec rp)
    (received_of ssrc ulpfec arrivals) session ->
  media_delivered (received_of ssrc ulpfec arrivals) (received_media out) ->
  as_media p ∈ session -> exists o, o ∈ out /\ wire (rtp_packet o) = p.
Proof.
  intros Hf Hm [i Hi]%list_elem_of_lookup. destruct (Forall2_lookup_r _ _ _ _ _ Hf Hi) as (rc & Hrc & Ep & Ef).
  assert (Hin : rc ∈ filter (fun rc : Received => rp_is_fec rc.1 = false) (received_of ssrc ulpfec arrivals)).
  { apply list_elem_of_filter. split; [exact Ef|]. by eapply list_elem_of_lookup_2. }
  apply list_elem_of_lookup in Hin as [j Hj]. destruct (Forall2_lookup_l _ _ _ _ _ Hm Hj) as (o & Ho & _ & _ & Hw & _).
  exists o. split; [|by rewrite Hw, Ep].
  apply list_elem_of_lookup_2 in Ho. by apply list_elem_of_filter in Ho as [_ ?].
Qed.

Lemma batch_delivered batches session :
  session ⊆+ transmission media fecs ssrc fec_seq ->
  (forall c, (c < length media)%nat -> position_ok (R := Ulpfec.UlpfecHeaderReader) media ssrc session c) ->
  Forall (fun arrival => arrival_ok arrival.2) (concat batches) ->
  Forall2 (feeds ssrc ulpfec) (concat batches) session ->
  exists r out, foldM receive_batch batches (UlpfecReceiver.new ssrc ulpfec, []) = Ok (r, out) /\
    (forall p, p ∈ media -> exists o, o ∈ out /\ wire (rtp_packet o) = p) /\ NoDup (repaired out).
Proof.
  intros Hsub Hpos Hok Hfeeds. pose proof (batch_session (W := Ulpfec.UlpfecHeaderWriter) _ _ _ _ _ _ Hbatch session Hsub) as Hse.
  pose proof (batch_stream _ _ _ _ _ _ Hbatch) as Hst. pose proof (bo_batch _ _ _ _ _ _ Hbatch) as Hmb.
  destruct (feeds_input ssrc ulpfec _ _ Hfeeds) as [(rps & Hprep & Hsplit) Hrel].
  assert (Hrtp : forall q p, sent media q = Some p -> exists h, reads p h).
  { intros q p [Hin _]%sent_elem. by apply (proj1 (Forall_forall _ _) Hread). }
  destruct (batches_settle ssrc (sent media) (base_seq media) session ulpfec batches Hst Hrtp Hse [] rps
    (UlpfecReceiver.new ssrc ulpfec, [])) as (r & out & E & [_ _ _ Hset] & Hm);
    [split; [done|done|done|apply settled_init]|done|done|done|].
  exists r, out. split; [exact E|]. cbn in Hset. split; [|apply Hset]. intros p Hp.
  apply list_elem_of_lookup in Hp as Hc. destruct Hc as [c Hc].
  pose proof (Hpos c (lookup_lt_Some _ _ _ Hc) p Hc) as Hrec.
  eapply (settled_complete ssrc (sent media) session) in Hrec; [|exact Hset].
  destruct Hrec as [(rp & Hin & Hf & Hq)|(o & Hq & [Hro Ho]%list_elem_of_filter)%list_elem_of_fmap].
  - pose proof (elem_of_submseteq _ _ rp Hin Hsub) as Htr.
    apply (transmission_elem media fecs ssrc fec_seq) in Htr as [(p' & Hp' & ->)|(? & ? & _ & ->)]; [|done].
    assert (p' = p) as -> by by apply (batch_seq_inj media).
    by eapply received_delivered.
  - exists o. split; [done|]. pose proof (set_bytes _ _ _ _ _ _ _ Hset o Ho Hro) as Hw.
    rewrite <- Hq, (sent_self media p Hmb Hp) in Hw. by injection Hw.
Qed.

End Receiver.

(** ** Sending a batch *)

Section Sender.
Context `{Heap} (ssrc : Z).

Fixpoint red_packets (red : Z) (srcs : list RtpPacketToSend) : res (list RtpPacketToSend) :=
  match srcs with
  | [] => Ok []
  | s :: srcs => let! r := red_packet_of s red in let! rs := red_packets red srcs in Ok (r :: rs)
  end.

Lemma red_packets_ok red srcs :
  0 <= red < 128 -> Forall (fun s => sendable (packet s)) srcs ->
  exists reds, red_packets red srcs = Ok reds /\
    Forall2 (fun s r => red_form (packet s) (packet r) red) srcs reds.
Proof.
  intros Hred. induction 1 as [|s srcs Hs _ (reds & E & IH)]; cbn [red_packets]; [by exists []|].
  destruct (red_packet_of_ok s red Hs Hred) as (r & -> & Hr & _). cbn [mbind res_bind]. rewrite E.
  exists (r :: reds). split; [done|]. by constructor.
Qed.

(** The FEC packets of the generator, numbered by the sequencer. *)
Lemma fec_numbered g fecs out q now :
  types_ok g -> all_sent ssrc g fecs out ->
  sequencer_ok q -> PacketSequencer.media_ssrc_ q = ssrc ->
  exists outs q', sequence_all q (map (fun s => (s, now)) out) = Ok (map Some outs, q') /\
    length outs = length fecs /\
    forall r s fec, outs !! r = Some s -> fecs !! r = Some fec ->
      sendable (packet s) /\ payload_bytes (packet s) = ulpfec_payload_type_ g :: fec /\
      RtpPacket.Ssrc (packet s) = ssrc /\
      RtpPacket.SequenceNumber (packet s) = u16 (PacketSequencer.media_sequence_number_ q + Z.of_nat r).
Proof.
  intros [Hred Hulp] Hout Hq Hqs.
  assert (Hform : forall s, s ∈ out -> exists fec, fec_sent ssrc g fec s).
  { intros s [i Hi]%list_elem_of_lookup. destruct (Forall2_lookup_r _ _ _ _ _ Hout Hi) as (fec & _ & ?). by exists fec. }
  destruct (sequence_media out now q Hq) as (outs & q' & E & Hseq & Hnum).
  - apply Forall_forall. intros s (fec & (last & Hss & [Hs (_ & _ & Ts & _) Hpb]) & _)%Hform.
    split; [apply Hs|left; congruence|]. intros _.
    exists (ulpfec_payload_type_ g). split; [|done].
    destruct (sendable_split _ Hs) as (Hsplit & Hlh & _). rewrite Hsplit, lookup_app_r, Hlh, Nat.sub_diag, Hpb by lia. done.
  - apply Forall_forall. intros s (fec & (last & Hss & [Hs (_ & _ & Ts & _) _]) & _ & _ & Hty & _)%Hform.
    unfold on_media, PacketSequencer.has_type. rewrite Hty, Ts, Hss, Hqs, Z.eqb_refl. done.
  - exists outs, q'. split; [done|].
    split; [by rewrite <- (Forall2_length _ _ _ Hseq), <- (Forall2_length _ _ _ Hout)|].
    intros r s fec Hs Hfec. destruct (Forall2_lookup_r _ _ _ _ _ Hseq Hs) as (s0 & Hs0 & Hsq).
    destruct (Forall2_lookup_l _ _ _ _ _ Hout Hfec) as (s0' & Hs0' & Hsent). rewrite Hs0 in Hs0'. injection Hs0' as <-.
    destruct Hsent as ((last & Hss & [Hsd (_ & _ & Ts & _) Hpb]) & _ & _ & Hty & _).
    destruct (sequenced_sendable s0 s Hsd) as [Hs' Hpb']; [unfold PacketSequencer.has_type; by rewrite Hty|done|].
    split; [done|]. split; [congruence|]. split; [|by apply Hnum].
    destruct Hsq as (_ & -> & _). congruence.
Qed.

(** A media packet the sender protects. *)
Definition protectable (g : t) (s : RtpPacketToSend) : Prop :=
  sendable (packet s) /\ RtpPacket.Ssrc (packet s) = ssrc /\
  RtpPacket.PayloadType (packet s) <> ulpfec_payload_type_ g /\ (length (wire (packet s)) <= 1480)%nat.

Lemma protectable_media g srcs : Forall (protectable g) srcs ->
  Forall (fun p => media_ok 1480 p /\ rtp_ssrc p = ssrc) (map (fun s => wire (packet s)) srcs) /\
  Forall (fun p => exists h, reads p h) (map (fun s => wire (packet s)) srcs).
Proof.
  intros Hs. rewrite !List.Forall_map. split; (eapply Forall_impl; [exact Hs|]); intros s (Hsd & Hss & _ & Hl); cbv beta.
  - destruct Hsd as [Hc _]. destruct (consistent_size _ Hc) as (_ & Hb & _). pose proof (proj2 Hc) as Hr.
    split; [|by rewrite <- (reads_ssrc _ _ Hr)]. split; [done| |by eapply reads_version].
    destruct Hr as [Hlo _]. unfold kFixedHeaderSize in Hlo. lia.
  - exists (packet s). apply Hsd.
Qed.

(** Every datagram sent for the batch feeds its packet to the decoder. *)
Lemma datagrams_feed g srcs fecs reds fec_reds (fec_seq : nat -> Z) :
  types_ok g -> Forall (protectable g) srcs ->
  Forall2 (fun s r => red_form (packet s) (packet r) (red_payload_type_ g)) srcs reds ->
  length fec_reds = length fecs -> Forall (fun fec => fec <> []) fecs ->
  (forall r s fec, fec_reds !! r = Some s -> fecs !! r = Some fec ->
      sendable (packet s) /\ payload_bytes (packet s) = ulpfec_payload_type_ g :: fec /\
      RtpPacket.Ssrc (packet s) = ssrc /\ RtpPacket.SequenceNumber (packet s) = fec_seq r) ->
  Forall (fun s => (length (wire (packet s)) <= IP_PACKET_SIZE)%nat) (reds ++ fec_reds) ->
  Forall2 (fun s rp => forall a, arrives (packet s) a -> feeds ssrc (ulpfec_payload_type_ g) a rp) (reds ++ fec_reds)
    (transmission (map (fun s => wire (packet s)) srcs) fecs ssrc fec_seq).
Proof.
  intros [Hred Hulp] Hsrcs Hreds Hlen Hne Hfec [Hsz Hszf]%Forall_app. apply Forall2_app.
  - apply Forall2_same_length_lookup. rewrite !length_map. split; [by rewrite (Forall2_length _ _ _ Hreds)|].
    intros i r rp Hr Hrp. destruct (Forall2_lookup_r _ _ _ _ _ Hreds Hr) as (s & Hs & Hform).
    rewrite !list_lookup_fmap, Hs in Hrp. injection Hrp as <-.
    destruct (proj1 (Forall_lookup _ _) Hsrcs i s Hs) as (Hsd & Hss & Hpt & _).
    pose proof (proj1 (Forall_lookup _ _) Hsz i r Hr) as Hle. intros a Ha.
    by apply (media_arrives ssrc _ (packet s) (packet r) (red_payload_type_ g)).
  - apply Forall2_same_length_lookup. rewrite length_imap. split; [done|]. intros i s rp Hs Hrp.
    rewrite list_lookup_imap in Hrp. destruct (fecs !! i) as [fec|] eqn:Ef; [|done]. injection Hrp as <-.
    destruct (Hfec i s fec Hs Ef) as (Hsd & Hpb & Hss & Hn). intros a Ha. rewrite <- Hn.
    apply fec_arrives; try done.
    + by apply (proj1 (Forall_lookup _ _) Hne i).
    + by apply (proj1 (Forall_lookup _ _) Hszf i).
Qed.

Lemma reads_as_nonempty base prot fec :
  reads_as (R := Ulpfec.UlpfecHeaderReader) (own := true) ssrc base prot fec -> fec <> [].
Proof. intros [_ Hr] ->. by destruct (Hr 0 0) as (fp & ps & E & _). Qed.

(** What reaches a new receiver after the loss of the [c]-th datagram. *)
Definition loss_repaired (g : t) (srcs datagrams : list RtpPacketToSend) : Prop :=
  Forall (fun s => (length (wire (packet s)) <= IP_PACKET_SIZE)%nat) datagrams ->
  forall c survivors batches,
    survivors ≡ₚ delete c datagrams ->
    Forall2 (fun s a => arrives (packet s) a) survivors (concat batches) ->
    exists r delivered,
      foldM receive_batch batches (UlpfecReceiver.new ssrc (ulpfec_payload_type_ g), []) = Ok (r, delivered) /\
      (forall s, s ∈ srcs -> exists o, o ∈ delivered /\ wire (rtp_packet o) = wire (packet s)) /\
      NoDup (repaired delivered).

Lemma arrivals_feed g survivors arrivals tr c datagrams :
  Forall2 (fun s rp => forall a, arrives (packet s) a -> feeds ssrc (ulpfec_payload_type_ g) a rp) datagrams tr ->
  survivors ≡ₚ delete c datagrams -> Forall2 (fun s a => arrives (packet s) a) survivors arrivals ->
  exists session, session ≡ₚ delete c tr /\ Forall2 (feeds ssrc (ulpfec_payload_type_ g)) arrivals session /\
    Forall (fun a => arrival_ok a.2) arrivals.
Proof.
  intros Hd Hp Ha. destruct (survivors_session _ (feeds ssrc (ulpfec_payload_type_ g)) datagrams tr c _ _ Hd Hp Ha) as (session & Hps & Hf).
  exists session. split; [done|]. split; [done|]. eapply Forall2_Forall_r; [exact Ha|]. apply Forall_true. by intros s a [].
Qed.

Lemma batch_repaired g s srcs out g' q now :
  let c := collected g s in
  let media := map (fun s => wire (packet s)) srcs in
  types_ok g -> encoder_ok (fec_ g) -> flushed (W := Ulpfec.UlpfecHeaderWriter) (VG := ulpfec_video_generator (W := Ulpfec.UlpfecHeaderWriter)) (sends := all_sent ssrc) g s out g' ->
  media_packets_ c = media -> 1 <= fec_rate (CurrentParams c) <= 255 ->
  media_batch media -> (span media <= 48)%nat -> Forall (protectable g) srcs ->
  sequencer_ok q -> PacketSequencer.media_ssrc_ q = ssrc ->
  PacketSequencer.media_sequence_number_ q = u16 (base_seq media + Z.of_nat (span media)) ->
  exists reds fec_reds q', red_packets (red_payload_type_ g) srcs = Ok reds /\
    sequence_all q (map (fun s => (s, now)) out) = Ok (map Some fec_reds, q') /\ fec_reds <> [] /\
    loss_repaired g srcs (reds ++ fec_reds).
Proof.
  intros c media Hg He [(e' & ret & fecs & E & _ & Hout) _ _ _] Hmed Hrate Hmb Hspan Hsrcs Hq Hqs Hqn.
  cbv zeta in E. cbn [collector ulpfec_video_generator] in E. fold c in E. rewrite Hmed in E. destruct (protectable_media g srcs Hsrcs) as [Hmok Hread]. fold media in Hmok, Hread.
  destruct (encoded_batch (R := Ulpfec.UlpfecHeaderReader) (W := Ulpfec.UlpfecHeaderWriter) (own := true) _ media _ 0 false (fec_mask_type (CurrentParams c)) ssrc
    He Hmb Hspan Hmok Hrate ltac:(lia)) as (e2 & fecs2 & masks & Ht & E2 & _ & Hmk & Hk & Hlf & Hb).
  rewrite E in E2. injection E2 as <- -> <-. rewrite <- Hlf in Hb, Hmk.
  assert (Hn48 : (length fecs <= 48)%nat) by lia.
  specialize (Hb _ _ (numbering_following media (length fecs) ssrc Hmb Hspan Hn48)).
  set (fec_seq := fun r => u16 (base_seq media + Z.of_nat (span media + r))) in Hb.
  destruct (red_packets_ok (red_payload_type_ g) srcs) as (reds & Hre & Hreds); [apply Hg|by eapply Forall_impl; [exact Hsrcs|]; intros ? [? _]|].
  destruct (fec_numbered g fecs out q now Hg Hout Hq Hqs) as (fec_reds & q' & Hsa & Hlen & Hfr).
  exists reds, fec_reds, q'. split; [done|]. split; [done|]. split; [intros ->; cbn in Hlen; lia|].
  intros Hsz c0 survivors batches Hperm Harr.
  assert (Hne : Forall (fun fec => fec <> []) fecs).
  { apply Forall_lookup. intros r fec Hr. destruct (bo_reads _ _ _ _ _ _ Hb r fec Hr) as [Hrd _].
    by eapply reads_as_nonempty. }
  assert (Hnum : forall r x fec, fec_reds !! r = Some x -> fecs !! r = Some fec ->
    sendable (packet x) /\ payload_bytes (packet x) = ulpfec_payload_type_ g :: fec /\
    RtpPacket.Ssrc (packet x) = ssrc /\ RtpPacket.SequenceNumber (packet x) = fec_seq r).
  { intros r x fec Hx Hfec. destruct (Hfr r x fec Hx Hfec) as (? & ? & ? & ->). split_and!; try done.
    rewrite Hqn. unfold fec_seq, uw. rewrite Zplus_mod_idemp_l. f_equal. lia. }
  pose proof (datagrams_feed g srcs fecs reds fec_reds fec_seq Hg Hsrcs Hreds Hlen Hne Hnum Hsz) as Hfeed.
  destruct (arrivals_feed g survivors (concat batches) _ c0 _ Hfeed Hperm Harr) as (session & Hps & Hf & Hok).
  fold media in Hps.
  assert (Hburst : after_burst media fecs ssrc fec_seq c0 1 session).
  { unfold after_burst. rewrite Hps, delete_take_drop. by rewrite Nat.add_1_r. }
  destruct (batch_delivered ssrc (ulpfec_payload_type_ g) media fecs fec_seq _ Hb Hread batches session)
    as (r & delivered & Er & Hdel & Hnd); [by eapply after_burst_sub|..|done|done|].
  - exact (single_loss_positions (R := Ulpfec.UlpfecHeaderReader) (W := Ulpfec.UlpfecHeaderWriter) (own := true) media fecs ssrc ssrc fec_seq masks 0 false _ c0 session Ht Hmk Hk ltac:(lia) Hb Hburst).
  - exists r, delivered. split; [done|]. split; [|done]. intros x Hx. apply Hdel. unfold media. apply list_elem_of_fmap.
    by exists x.
Qed.

End Sender.

(** ** A datagram without extensions *)

Lemma datagram_arrives `{Heap} q d now :
  let a := datagram (RtpHeaderExtensionMap.new false) d in
  bytes d -> wire q = d -> wire (rtp_packet a) = d ->
  RtpPacket.extension_entries_ (rtp_packet a) = [] -> recovered a = false -> arrives q (now, a).
Proof.
  intros a Hd Hq Hw He Hr. split; cbn [snd].
  - apply datagram_arrival; [apply RtpExtensions.new_ok|done].
  - unfold no_mutable. by rewrite He.
  - done.
  - by rewrite Hq.
Qed.
