(* ===== verification/GeneratorGuarantees.v ===== *)
(** * GeneratorGuarantees: the sending side, and sender and receiver together *)

From S2P Require Import Prelude.
From S2P Require Import CowBuffer.
From S2P Require Import RtpExtensions.
From S2P Require Import RtpPacketModel.
From S2P Require Import RtpPacketLaws.
From S2P Require Import RtpPacketOps.
From S2P Require Import FecTypes.
From S2P Require Import UlpfecHeader.
From S2P Require Import XorCode.
From S2P Require Import FecEncoder.
From S2P Require Import EncoderCorrect.
From S2P Require Import EncodeFecSpec.
From S2P Require Import EncoderGuarantees.
From S2P Require Import Transmission.
From S2P Require Import FecReceivers.
From S2P Require Import ReceiverLaws.
From S2P Require Import ReceiverSession.
From S2P Require Import ReceiverGuarantees.
From S2P Require Import RateModel.
From S2P Require Import UlpfecSender.
From S2P Require Import SequencerModel.
From S2P Require Import GeneratorLaws.
From S2P Require Import SequencerLaws.
From S2P Require Import GeneratorRun.
From S2P Require Import EndToEnd.
Import UlpfecGenerator.

#[local] Existing Instance Ulpfec.UlpfecHeaderReader.
#[local] Existing Instance Ulpfec.UlpfecHeaderWriter.

Section Guarantees.
Context `{Heap}.

Lemma next_number media lst :
  Forall media_sized media -> last media = Some lst ->
  u16 (base_seq media + Z.of_nat (span media)) = u16 (rtp_seq_num lst + 1).
Proof.
  intros Hs Hl. rewrite (span_last _ _ Hl), Nat2Z.inj_succ.
  assert (Hin : lst ∈ media) by by apply last_Some_elem_of.
  rewrite <- (offset_back (base_seq media) lst).
  - unfold uw. rewrite Zplus_mod_idemp_l. f_equal. lia.
  - apply sized_seq_u16. by apply (proj1 (Forall_forall _ _) Hs).
Qed.

End Guarantees.

(** C1. From sender to receiver.  Frames of media packets go to a [UlpfecGenerator]
    that has collected nothing, with protection switched on.  Within
    [max_fec_frames] frames a first batch [srcs] is complete: no call faults and
    the generator is empty again, ready for the rest of the stream.  When the
    batch is no larger than 48 packets and sequence numbers, it has been turned
    into FEC packets; the media packets in RED and the FEC packets in RED, numbered
    by [PacketSequencer] after the last media packet, go to a new [UlpfecReceiver].
    Whatever single datagram is lost, and in whatever order and bursts the
    others arrive, every media packet of the batch is delivered, byte for byte. *)
Theorem ulpfec_end_to_end `{Heap} ssrc g prev ss :
  gen_ok ssrc g prev -> media_packets_ g = [] -> stream ssrc prev ss ->
  Forall (fun sn => protectable ssrc g sn.1) ss ->
  1 <= fec_rate (delta_params (next_params g)) -> 1 <= fec_rate (keyframe_params (next_params g)) ->
  max_frames (next_params g) <= complete_frames ss -> 0 < complete_frames ss ->
  exists srcs rest out g' prev', ss = srcs ++ rest /\ srcs <> [] /\ run srcs ([], g) = Ok (out, g') /\
    gen_ok ssrc g' prev' /\ media_packets_ g' = [] /\ stream ssrc prev' rest /\
    ((length srcs <= 48)%nat -> (span (wires srcs) <= 48)%nat ->
     forall q now lst, sequencer_ok q -> PacketSequencer.media_ssrc_ q = ssrc -> last srcs = Some lst ->
       PacketSequencer.media_sequence_number_ q = u16 (RtpPacket.SequenceNumber (packet lst.1) + 1) ->
       exists reds fec_reds q', red_packets (red_payload_type_ g) (map fst srcs) = Ok reds /\
         sequence_all q (map (fun s => (s, now)) out) = Ok (map Some fec_reds, q') /\ fec_reds <> [] /\
         loss_repaired ssrc g (map fst srcs) (reds ++ fec_reds)).
Proof.
  intros Hg Hm Hs Hprot Hd Hk Hle Hpos.
  destruct (first_batch (VL := ulpfec_generator_laws ssrc) ssrc g prev ss (conj I Hg) Hm Hs Hle Hpos)
    as (before & sn & rest & g0 & out & g' & -> & Hrun & [Ht He _ _ Hpar _ Hsto _ _] & Hfl & Hmed & Hst & _ & _ & Ec & prev' & [_ Hg'] & Hrest).
  assert (same_types g g0) as [Er Eu] by (destruct Hst as [->|]; done).
  destruct (collected_types g0 sn.1) as ([Er0 Eu0] & Ee0 & _). cbn [collector ulpfec_video_generator] in *.
  exists (before ++ [sn]), rest, out, g', prev'. split; [by rewrite <- (assoc_L (++))|].
  split; [by destruct before|]. split; [done|]. split; [done|]. split; [apply Hfl|]. split; [done|]. intros Hlen Hspan q now lst Hq Hqs Hl Hqn.
  rewrite (cons_middle sn), (assoc_L (++)) in Hprot. apply Forall_app in Hprot as [Hprot _].
  pose proof (proj1 (Forall_forall _ _) Hprot lst (last_Some_elem_of _ _ Hl)) as [[[_ Hlst] _] _].
  rewrite (take_ge (wires _)) in Hmed by (unfold wires; by rewrite length_map).
  unfold wires in *. rewrite <- (map_map fst (fun s => wire (packet s))) in *.
  destruct (batch_repaired ssrc g0 sn.1 (map fst (before ++ [sn])) out g' q now) as (reds & fec_reds & q' & R & S & Hne & Hlr); try done.
  - unfold types_ok in *. by rewrite Er0, Eu0 in Ht.
  - by rewrite <- Ee0.
  - pose proof (rate_ok _ Hpar) as Hr. unfold CurrentParams in *. rewrite Ec in *. destruct (media_contains_keyframe_ _); lia.
  - rewrite <- Hmed. apply Hsto.
  - rewrite List.Forall_map. eapply Forall_impl; [exact Hprot|]. intros x. unfold protectable. by rewrite Eu.
  - rewrite Hqn. rewrite (next_number _ (wire (packet lst.1))).
    + by rewrite (reads_seq _ _ Hlst).
    + rewrite <- Hmed. apply Hsto.
    + by rewrite !fmap_last, Hl.
  - exists reds, fec_reds, q'. rewrite <- Er. split; [done|]. split; [done|]. split; [done|].
    unfold loss_repaired in *. by rewrite <- Eu.
Qed.

(** C17. Media does not wait for protection.  A new [UlpfecGenerator], any protection
    parameters (rates of 0 to 255), any stream of media packets with sequence
    numbers that go up by 1 to 1000: no call faults, at most 48 packets are
    stored, and from any point [ss1] of the stream on, before
    [max_fec_frames] more frames are complete, there is a packet with which the
    batch ends: the encoder is given what was collected - the first 48 packets
    since the batch began -, its FEC packets leave in RED with the header of a media
    packet, and the generator is empty. *)
Theorem generator_bounded_delay `{Heap} {R : FecHeaderReader} {W : FecHeaderWriter} {own : bool}
    {L : FecSchemeLaws R W own} ssrc red ulpfec e delta key ss1 ss2 :
  0 <= red < 128 -> 0 <= ulpfec < 128 -> encoder_ok e ->
  0 <= fec_rate delta <= 255 -> 0 <= fec_rate key <= 255 -> stream ssrc None (ss1 ++ ss2) ->
  Z.max (max_fec_frames delta) (max_fec_frames key) <= complete_frames ss2 -> 0 < complete_frames ss2 ->
  exists st, run ss1 ([], SetProtectionParameters (new red ulpfec e) delta key) = Ok st /\
    (length (media_packets_ st.2) <= 48)%nat /\
    exists before sn after st0 out g', ss2 = before ++ sn :: after /\
      run before st = Ok st0 /\ push st0.2 sn.1 sn.2 = Ok (out, g') /\
      media_packets_ (collected st0.2 sn.1) = take 48 (media_packets_ st.2 ++ wires (before ++ [sn])) /\
      flushed (sends := all_sent ssrc) st0.2 sn.1 out g'.
Proof.
  intros Hr Hu He Hd Hk Hs Hle Hpos.
  set (g := SetProtectionParameters (new red ulpfec e) delta key).
  assert (Hg : gen_ok ssrc g None) by (split; try done; [by intros ? [= <-]|by left]).
  destruct (run_between (VL := ulpfec_generator_laws ssrc) ssrc ss1 ([], g) None (conj (conj I Hg) (fun _ => eq_refl)) (stream_prefix _ _ _ _ Hs))
    as (st & Hrun & Hpre & _ & Hpar).
  destruct (Hpre _ Hs) as (prev & Hbt & Hs2). exists st. split; [done|]. split.
  { change (length (media_packets_ (collector st.2)) <= 48)%nat. destruct (go_media _ _ _ (proj2 (proj1 Hbt))) as [->|[Hb _]]; [cbn; lia|apply Hb]. }
  destruct (flush_in_time (VL := ulpfec_generator_laws ssrc) ssrc ss2 st prev Hbt Hs2)
    as (before & sn & after & st0 & out & g' & E & Hrun' & Hpush & Hfl & _ & Hmed); [|done|].
  { rewrite Hpar. change (max_frames (next_params (collector ([], g).2))) with (Z.max (max_fec_frames delta) (max_fec_frames key)).
    pose proof (go_frames _ _ _ (proj2 (proj1 Hbt))). cbn [collector ulpfec_video_generator] in *. lia. }
  exists before, sn, after, st0, out, g'. by split_and!.
Qed.

(** RED and back.  [BuildRedPayload] and the payload type of RED turn a media
    packet into a RED packet; what the sender takes out of it again for FEC, and
    what a receiver of the same bytes takes out of it, is the packet: every byte,
    marker bit and payload type included. *)
Lemma red_media_roundtrip `{Heap} s red ulpfec :
  sendable (packet s) -> 0 <= red < 128 -> RtpPacket.PayloadType (packet s) <> ulpfec ->
  (length (wire (packet s)) < IP_PACKET_SIZE)%nat ->
  exists r u, red_packet_of s red = Ok r /\ RtpPacket.PayloadType (packet r) = red /\
    RtpPacket.Marker (packet r) = RtpPacket.Marker (packet s) /\
    unpack_red r = Ok u /\ wire (packet u) = wire (packet s) /\
    forall q, consistent q -> wire q = wire (packet r) ->
      carried (RtpPacket.Ssrc (packet s)) ulpfec (mkRtpPacketReceived q false) =
        Some (mkReceivedPacket (RtpPacket.Ssrc (packet s)) (RtpPacket.SequenceNumber (packet s)) false false
                (wire (packet s)), RtpPacket.extensions_ q).
Proof.
  intros Hs Hred Hne Hsz. destruct (red_packet_of_ok s red Hs Hred) as (r & E & Hf & _ & _ & _ & _ & Hm).
  destruct (unpack_red_ok s r red Hs Hf Hred) as (u & Eu & _ & Hw & _).
  exists r, u. split; [done|]. split; [by eapply red_packet_type|]. split; [done|]. split; [done|]. split; [done|].
  intros q Hq Hwq. pose proof Hf as [[Hcr _] _ _ _]. destruct (same_bytes_stream (packet r) q Hcr Hq Hwq) as (Hst & Hps & _).
  apply (carried_media _ (packet r) q red); try done. by rewrite (red_form_size _ _ _ Hs Hf).
Qed.


(** ** Witnesses: a frame of two packets *)

Definition video_a : Packet := [0x80; 96; 0; 5; 0; 0; 3; 4; 0; 0; 0; 9; 10; 20; 30].
Definition video_b : Packet := [0x80; 224; 0; 6; 0; 0; 3; 4; 0; 0; 0; 9; 40; 50; 60; 70].

Definition to_send (d : Packet) : RtpPacketToSend :=
  mkToSend (rtp_packet (datagram (H := zero_heap) (RtpHeaderExtensionMap.new false) d)) (Micros 0) (Some kVideo)
           true false true false.

#[local] Abbreviation zero_generator := (ulpfec_video_generator (H := zero_heap)).

Definition video : list (RtpPacketToSend * Z) := [(to_send video_a, 0); (to_send video_b, 5)].

Definition video_params : FecProtectionParams := mkFecProtectionParams 100 1 PacketMasks.kFecMaskBursty.

Definition video_generator : t := SetProtectionParameters (new 100 101 encoder0) video_params video_params.

Lemma video_sendable d : d ∈ [video_a; video_b] ->
  sendable (packet (to_send d)) /\ wire (packet (to_send d)) = d /\ RtpPacket.Ssrc (packet (to_send d)) = 9 /\
  RtpPacket.PayloadType (packet (to_send d)) = 96.
Proof.
  intros Hd. rewrite !elem_of_cons in Hd.
  destruct Hd as [->|[->|[]%elem_of_nil]]; (split; [split; [|by vm_compute]|by vm_compute]);
    (apply datagram_arrival; [apply RtpExtensions.new_ok|compute_bytes]).
Qed.

Lemma video_sized d : d ∈ [video_a; video_b] -> packet_sized d.
Proof.
  rewrite !elem_of_cons. intros [->|[->|[]%elem_of_nil]]; (split; [split; [compute_bytes|compute_le]|by vm_compute]).
Qed.

Lemma video_stream : stream 9 None video.
Proof.
  assert (Hs : forall d prev, d ∈ [video_a; video_b] -> (forall p, prev = Some p -> steady p d) ->
    stream_packet 9 prev (to_send d)).
  { intros d prev Hd Hp. destruct (video_sendable d Hd) as (H1 & H2 & H3 & _). unfold stream_packet. rewrite H2.
    split; [done|]. split; [by apply video_sized|]. split; [done|]. destruct prev; [by apply Hp|done]. }
  split; [by apply Hs; [left|]|]. split; [|done]. cbn [fst]. destruct (video_sendable video_a ltac:(left)) as (_ & -> & _).
  apply Hs; [right; left|]. intros p [= <-]. by vm_compute.
Qed.

Lemma video_generator_ok : gen_ok 9 video_generator None.
Proof. split; try done; [apply encoder0_ok|by intros ? [= <-]|by left]. Qed.

Lemma video_protectable : Forall (fun sn => protectable 9 video_generator sn.1) video.
Proof.
  assert (Hs : forall d, d ∈ [video_a; video_b] -> protectable 9 video_generator (to_send d)).
  { intros d Hd. destruct (video_sendable d Hd) as (H1 & H2 & H3 & H4). unfold protectable. rewrite H2, H3, H4.
    split; [done|]. split; [done|]. split; [done|]. rewrite !elem_of_cons in Hd.
    destruct Hd as [->|[->|[]%elem_of_nil]]; compute_le. }
  repeat (apply Forall_cons_2; [apply Hs; by repeat constructor|]). done.
Qed.

Definition video_sequencer : PacketSequencer.t := PacketSequencer.new 9 (Some 10) true 7 1.

Lemma video_sequencer_ok : sequencer_ok video_sequencer.
Proof. split; try done. by left. Qed.

(** The RED packets of the frame; the second one is lost. *)
Definition video_red_a : list Z := [0x80; 100; 0; 5; 0; 0; 3; 4; 0; 0; 0; 9; 96; 10; 20; 30].
Definition video_red_b : list Z := [0x80; 228; 0; 6; 0; 0; 3; 4; 0; 0; 0; 9; 96; 40; 50; 60; 70].

Definition red_wires (reds : res (list RtpPacketToSend)) : list (list Z) :=
  match reds with Ok reds => map (fun s => wire (packet s)) reds | Fault _ => [] end.

Definition fec_wires (st : res (list RtpPacketToSend * t)) : list (list Z) :=
  match st with
  | Ok (out, _) =>
      match sequence_all (H := zero_heap) video_sequencer (map (fun s => (s, 0)) out) with
      | Ok (outs, _) => omap (option_map (fun s => wire (packet s))) outs
      | Fault _ => []
      end
  | Fault _ => []
  end.

Definition video_fec : list Z := Eval vm_compute in
  nth 0 (fec_wires (run (VG := zero_generator) video ([], video_generator))) [].

Definition video_arrivals : list (Z * RtpPacketReceived) :=
  map (fun d => (0, datagram (H := zero_heap) (RtpHeaderExtensionMap.new false) d)) [video_fec; video_red_a].

Lemma video_sent reds out g' fec_reds q' :
  red_packets (H := zero_heap) 100 (map fst video) = Ok reds -> run (VG := zero_generator) video ([], video_generator) = Ok (out, g') ->
  sequence_all (H := zero_heap) video_sequencer (map (fun s => (s, 0)) out) = Ok (map Some fec_reds, q') ->
  map (fun s => wire (packet s)) (reds ++ fec_reds) = [video_red_a; video_red_b; video_fec].
Proof.
  intros R Hrun S.
  assert (Hr : red_wires (red_packets (H := zero_heap) 100 (map fst video)) = [video_red_a; video_red_b]) by (vm_compute; reflexivity).
  assert (Hf : fec_wires (run (VG := zero_generator) video ([], video_generator)) = [video_fec]) by (vm_compute; reflexivity).
  rewrite R in Hr. rewrite Hrun in Hf. cbn [red_wires] in Hr. unfold fec_wires in Hf. rewrite S in Hf.
  change [video_red_a; video_red_b; video_fec] with ([video_red_a; video_red_b] ++ [video_fec]).
  rewrite map_app, Hr, <- Hf. f_equal. clear. induction fec_reds as [|s l IH]; [done|]. cbn. by f_equal.
Qed.

Lemma video_loss ra rb rf :
  wire (packet ra) = video_red_a -> wire (packet rb) = video_red_b -> wire (packet rf) = video_fec ->
  loss_repaired (H := zero_heap) 9 video_generator (map fst video) [ra; rb; rf] ->
  exists r delivered, foldM (receive_batch (H := zero_heap)) [video_arrivals] (UlpfecReceiver.new 9 101, []) = Ok (r, delivered) /\
    forall s, s ∈ map fst video -> exists o, o ∈ delivered /\ wire (rtp_packet o) = wire (packet s).
Proof.
  intros Ha Hb Hf Hlr. unfold loss_repaired in Hlr. change (ulpfec_payload_type_ video_generator) with 101 in Hlr.
  destruct (Hlr ltac:(repeat (apply Forall_cons_2; [rewrite ?Ha, ?Hb, ?Hf; compute_le|]); done) 1%nat [rf; ra] [video_arrivals])
    as (r & delivered & Er & Hdel & _).
  - cbn [delete list_delete]. apply Permutation_swap.
  - cbn [concat app]. rewrite app_nil_r. unfold video_arrivals. cbn [map].
    do 2 (apply Forall2_cons_2; [apply datagram_arrives; [compute_bytes|exact Hf || exact Ha|vm_compute; reflexivity..]|]). apply Forall2_nil_2.
  - exists r, delivered. split; [exact Er|exact Hdel].
Qed.

Lemma ulpfec_end_to_end_witness :
  exists r delivered, foldM (receive_batch (H := zero_heap)) [video_arrivals] (UlpfecReceiver.new 9 101, []) = Ok (r, delivered) /\
    forall s, s ∈ map fst video -> exists o, o ∈ delivered /\ wire (rtp_packet o) = wire (packet s).
Proof.
  destruct (ulpfec_end_to_end (H := zero_heap) 9 video_generator None video video_generator_ok eq_refl video_stream
    video_protectable ltac:(vm_compute; discriminate) ltac:(vm_compute; discriminate)
    ltac:(vm_compute; discriminate) ltac:(vm_compute; reflexivity))
    as (srcs & rest & out & g' & prev' & E & Hne & Hrun & _ & Hm & _ & Hloss).
  destruct srcs as [|sa [|sb [|sc srcs]]]; [done| | |done].
  - injection E as <- _. exfalso. revert Hm.
    assert (Hc : match run (VG := zero_generator) [(to_send video_a, 0)] ([], video_generator) with
      | Ok st => length (media_packets_ st.2) | Fault _ => 0%nat end = 1%nat) by (vm_compute; reflexivity).
    rewrite Hrun in Hc. cbn in Hc. intros Hm. rewrite Hm in Hc. done.
  - injection E as <- <- _. fold video in Hrun, Hloss.
    destruct (Hloss ltac:(compute_le) ltac:(compute_le) video_sequencer 0 (to_send video_b, 5) video_sequencer_ok
      eq_refl eq_refl ltac:(vm_compute; reflexivity)) as (reds & fec_reds & q' & R & S & _ & Hlr).
    pose proof (video_sent reds out g' fec_reds q' R Hrun S) as Hd.
    destruct (reds ++ fec_reds) as [|ra [|rb [|rf [|]]]]; try discriminate Hd. injection Hd as Ha Hb Hf.
    exact (video_loss ra rb rf Ha Hb Hf Hlr).
Defined.

Lemma generator_bounded_delay_witness :
  exists before sn after st0 out g', video = before ++ sn :: after /\
    run (VG := zero_generator) before ([], video_generator) = Ok st0 /\
    push (VG := zero_generator) st0.2 sn.1 sn.2 = Ok (out, g') /\ media_packets_ g' = [].
Proof.
  destruct (generator_bounded_delay (H := zero_heap) (R := Ulpfec.UlpfecHeaderReader)
    (W := Ulpfec.UlpfecHeaderWriter) (own := true) 9 100 101 encoder0 video_params video_params [] video
    ltac:(lia) ltac:(lia) encoder0_ok ltac:(cbn; lia) ltac:(cbn; lia) video_stream
    ltac:(vm_compute; discriminate) ltac:(vm_compute; reflexivity))
    as (st & Hst & _ & before & sn & after & st0 & out & g' & E & Hrun & Hpush & _ & Hfl).
  injection Hst as <-. exists before, sn, after, st0, out, g'. by split_and!; [| | |apply Hfl].
Defined.

Lemma video_sequenceable : Forall (fun sn => sequenceable video_sequencer sn.1) video.
Proof.
  assert (Hs : forall d, d ∈ [video_a; video_b] -> sequenceable video_sequencer (to_send d)).
  { intros d Hd. destruct (video_sendable d Hd) as ([H1 _] & _ & H3 & _). split; [done|by left|done]. }
  repeat (apply Forall_cons_2; [apply Hs; by repeat constructor|]). done.
Qed.

