(* ===== verification/FlexfecSend.v ===== *)
(** * FlexfecSend: the sending side of FlexFEC

    [flexfec_sender.{h,cc}] and [rtp_header_extension_size.cc].  A
    [FlexfecSender] collects media in a [UlpfecGenerator] whose encoder writes
    FlexFEC headers; it sends the FEC packets on a stream of its own, with header
    extensions for bandwidth estimation and MID.  It implements the interface
    [VideoFecGenerator] of [GeneratorRun].

    The clock is read several times by one call: [readings] gives the successive
    readings, in microseconds.  [Random] is not modelled: its two values are
    arguments of the constructor.  Logging is left out. *)

From stdpp Require Import strings.
From S2P Require Import Prelude.
From S2P Require Import PacketMasks.
From S2P Require Import FecTypes.
From S2P Require Import FecEncoder.
From S2P Require Import CowBuffer.
From S2P Require Import RtpExtensions.
From S2P Require Import RtpPacketModel.
From S2P Require Import RtpPacketLaws.
From S2P Require Import RtpPacketOps.
From S2P Require Import RtpPacketSession.
From S2P Require Import RtpPacketBuild.
From S2P Require Import RateModel.
From S2P Require Import UlpfecSender.
From S2P Require Import SequencerModel.
From S2P Require Import GeneratorLaws.
From S2P Require Import GeneratorRun.

(** ** Room for header extensions *)

Record RtpExtensionSize : Type := mkExtensionSize { es_type : RTPExtensionType; value_size : nat }.

(** The sums of the loop: the values, how many there are, and the bytes of header for each. *)
Definition add_extension_size (registered : RtpHeaderExtensionMap.t) (acc : nat * nat * nat)
    (extension : RtpExtensionSize) : res (nat * nat * nat) :=
  let '(values_size, num_extensions, each_header) := acc in
  let! id := RtpHeaderExtensionMap.GetId registered (es_type extension) in
  if id =? RtpHeaderExtensionMap.kInvalidId then Ok acc else
  let each_header :=
    if (kOneByteHeaderExtensionMaxId <? id) || (kOneByteHeaderExtensionMaxValueSize <? value_size extension)%nat
    then 2%nat else each_header in
  Ok ((values_size + value_size extension)%nat, S num_extensions, each_header).

Definition RtpHeaderExtensionSize (extensions : list RtpExtensionSize) (registered : RtpHeaderExtensionMap.t)
    : res nat :=
  let! sums := foldM (add_extension_size registered) extensions (0, 0, 1)%nat in
  let '(values_size, num_extensions, each_header) := sums in
  if (values_size =? 0)%nat then Ok 0%nat else
  let size := (4 + each_header * num_extensions + values_size)%nat in
  Ok (size + 3 - (size + 3) mod 4)%nat.

(** The list that [RTPSender::FecExtensionSizes] hands to the constructor. *)
Definition kFecOrPaddingExtensionSizes : list RtpExtensionSize :=
  [mkExtensionSize kRtpExtensionAbsoluteSendTime 3; mkExtensionSize kRtpExtensionTransmissionTimeOffset 3;
   mkExtensionSize kRtpExtensionTransportSequenceNumber 2; mkExtensionSize kRtpExtensionPlayoutDelay 3;
   mkExtensionSize kRtpExtensionMid 16; mkExtensionSize kRtpExtensionVideoTiming 13].

Module FlexfecSender.

(** The part of [RtpState] that survives. *)
Record RtpState : Type := mkRtpState { sequence_number : Z; start_timestamp : Z }.

Record t : Type := mk {
  last_generated_packet_ : Timestamp;
  payload_type_ : Z;
  timestamp_offset_ : Z;
  ssrc_ : Z;
  protected_media_ssrc_ : Z;
  mid_ : list Z;
  seq_num_ : Z;
  ulpfec_generator_ : UlpfecGenerator.t;
  rtp_header_extension_map_ : RtpHeaderExtensionMap.t;
  header_extensions_size_ : nat;
  fec_bitrate_ : BitrateTracker.t
}.

Definition kFlexfecMaxHeaderSize : nat := 32.
Definition kMsToRtpTimestamp : Z := 90000 / 1000.
Definition kPacketLogInterval : Z := 10000000.

(** The extensions for bandwidth estimation and MID; [uri] names one of [kExtensions]. *)
Definition uri_of (type : RTPExtensionType) : string :=
  match find (fun ext => bool_decide (ext.1 = type)) kExtensions with Some ext => ext.2 | None => "" end.

Definition RegisterSupportedExtensions (rtp_header_extensions : list (Z * string))
    : res RtpHeaderExtensionMap.t :=
  foldM (fun m extension =>
    let register type := let! r := RtpHeaderExtensionMap.Register m extension.1 type in Ok r.2 in
    if bool_decide (extension.2 = uri_of kRtpExtensionTransportSequenceNumber)
    then register kRtpExtensionTransportSequenceNumber
    else if bool_decide (extension.2 = uri_of kRtpExtensionAbsoluteSendTime)
    then register kRtpExtensionAbsoluteSendTime
    else if bool_decide (extension.2 = uri_of kRtpExtensionTransmissionTimeOffset)
    then register kRtpExtensionTransmissionTimeOffset
    else if bool_decide (extension.2 = uri_of kRtpExtensionMid) then register kRtpExtensionMid
    else Ok m) rtp_header_extensions (RtpHeaderExtensionMap.new false).

(** [fec] is the encoder that [CreateFlexfec] makes. *)
Definition new (payload_type ssrc protected_media_ssrc : Z) (mid : list Z)
    (rtp_header_extensions : list (Z * string)) (extension_sizes : list RtpExtensionSize)
    (rtp_state : option RtpState) (rand_timestamp rand_seq_num : Z) (fec : Encoder) : res t :=
  let! extension_map := RegisterSupportedExtensions rtp_header_extensions in
  let! extensions_size := RtpHeaderExtensionSize extension_sizes extension_map in
  Ok (mk MinusInfinity payload_type
        (match rtp_state with Some state => start_timestamp state | None => rand_timestamp end)
        ssrc protected_media_ssrc mid
        (match rtp_state with Some state => sequence_number state | None => rand_seq_num end)
        (UlpfecGenerator.new 0 0 fec) extension_map extensions_size (BitrateTracker.new 1000)).

Definition with_generator (f : t) (g : UlpfecGenerator.t) : t :=
  mk (last_generated_packet_ f) (payload_type_ f) (timestamp_offset_ f) (ssrc_ f) (protected_media_ssrc_ f)
     (mid_ f) (seq_num_ f) g (rtp_header_extension_map_ f) (header_extensions_size_ f) (fec_bitrate_ f).

Definition with_bitrate (f : t) (tracker : BitrateTracker.t) : t :=
  mk (last_generated_packet_ f) (payload_type_ f) (timestamp_offset_ f) (ssrc_ f) (protected_media_ssrc_ f)
     (mid_ f) (seq_num_ f) (ulpfec_generator_ f) (rtp_header_extension_map_ f) (header_extensions_size_ f) tracker.

Definition with_seq_num (f : t) (seq_num : Z) : t :=
  mk (last_generated_packet_ f) (payload_type_ f) (timestamp_offset_ f) (ssrc_ f) (protected_media_ssrc_ f)
     (mid_ f) seq_num (ulpfec_generator_ f) (rtp_header_extension_map_ f) (header_extensions_size_ f) (fec_bitrate_ f).

Definition with_last_generated (f : t) (now : Timestamp) : t :=
  mk now (payload_type_ f) (timestamp_offset_ f) (ssrc_ f) (protected_media_ssrc_ f)
     (mid_ f) (seq_num_ f) (ulpfec_generator_ f) (rtp_header_extension_map_ f) (header_extensions_size_ f) (fec_bitrate_ f).

Definition SetProtectionParameters (f : t) (delta_params key_params : FecProtectionParams) : t :=
  with_generator f (UlpfecGenerator.SetProtectionParameters (ulpfec_generator_ f) delta_params key_params).

Definition MaxPacketOverhead (f : t) : nat := (header_extensions_size_ f + kFlexfecMaxHeaderSize)%nat.

Definition CurrentFecRate (f : t) (now_ms : Z) : Z * t :=
  let '(rate, tracker) := BitrateTracker.Rate (fec_bitrate_ f) now_ms in (default 0 rate, with_bitrate f tracker).

Definition GetRtpState (f : t) : RtpState := mkRtpState (seq_num_ f) (timestamp_offset_ f).

(** [TimeInMilliseconds] of a reading, converted to the 90 kHz clock. *)
Definition rtp_timestamp (f : t) (us : Z) : Z :=
  u32 (timestamp_offset_ f + u32 (kMsToRtpTimestamp * DivideRoundToNearest us 1000)).

(** [now - last_generated_packet_ > kPacketLogInterval]. *)
Definition log_due (f : t) (us : Z) : bool :=
  match last_generated_packet_ f with MinusInfinity => true | Micros last => kPacketLogInterval <? us - last end.

Section WithHeap.
Context `{Heap} {W : FecHeaderWriter}.

Definition AddPacketAndGenerateFec (f : t) (packet : RtpPacketToSend) : res t :=
  let! g := UlpfecGenerator.AddPacketAndGenerateFec (ulpfec_generator_ f) packet in
  Ok (with_generator f g).

(** The header extensions of an FEC packet. *)
Definition reserve_extensions (f : t) (p : RtpPacket.t) : res RtpPacket.t :=
  let! r := RtpPacket.ReserveExtension p kRtpExtensionAbsoluteSendTime 3 in
  let! r := RtpPacket.ReserveExtension r.2 kRtpExtensionTransmissionTimeOffset 3 in
  let! r := RtpPacket.ReserveExtension r.2 kRtpExtensionTransportSequenceNumber 2 in
  match mid_ f with
  | [] => Ok r.2
  | mid => let! r := RtpPacket.SetStringExtension r.2 kRtpExtensionMid mid in Ok r.2
  end.

(** One FEC packet, and the sender with its next sequence number. *)
Definition fec_packet_to_send (f : t) (time_us capture_us : Z) (fec_packet : Packet)
    : res (RtpPacketToSend * t) :=
  let! p := start_packet (rtp_header_extension_map_ f) (payload_type_ f) (seq_num_ f) (rtp_timestamp f time_us)
              (ssrc_ f) in
  let! p := reserve_extensions f p in
  let! p := RtpPacket.AllocatePayload p (length fec_packet) in
  let! p := RtpPacket.write (fun d => memcpy d (RtpPacket.payload_offset_ p) fec_packet 0 (length fec_packet)) p in
  Ok (mkToSend p (Micros capture_us) (Some kForwardErrorCorrection) false false false false,
      with_seq_num f (u16 (seq_num_ f + 1))).

(** The loop; the [i]-th packet reads the clock for its timestamp and again for its capture time. *)
Definition fec_packets_to_send (f : t) (readings : nat -> Z) (generated : list Packet)
    : res (list RtpPacketToSend * t) :=
  foldM (fun st fec_packet =>
    let i := length st.1 in
    let! r := fec_packet_to_send st.2 (readings (2 * i)) (readings (2 * i + 1)) fec_packet in
    Ok (st.1 ++ [r.1], r.2))%nat generated ([], f).

Definition total_size (packets : list RtpPacketToSend) : nat :=
  foldr (fun s n => (RtpPacket.size (packet s) + n)%nat) 0%nat packets.

Definition GetFecPackets (f : t) (readings : nat -> Z) : res (list RtpPacketToSend * t) :=
  let! st := fec_packets_to_send f readings (UlpfecGenerator.generated_fec_packets_ (ulpfec_generator_ f)) in
  let '(out, f) := st in
  let now := readings (2 * length out)%nat in
  let f := match out with [] => f | _ => with_generator f (UlpfecGenerator.ResetState (ulpfec_generator_ f)) end in
  let f := match out with [] => f | _ => if log_due f now then with_last_generated f (Micros now) else f end in
  Ok (out, with_bitrate f (BitrateTracker.Update (fec_bitrate_ f) (Z.of_nat (total_size out))
                             (DivideRoundToNearest now 1000))).

End WithHeap.
End FlexfecSender.
Import FlexfecSender.

(** ** [FlexfecSender] as a [VideoFecGenerator] *)

Section Laws.
Context `{Heap}.

(** ** Header extensions *)

(** [op] adds the extension [type] with the value [v] to a packet under construction. *)
Definition adds (op : RtpPacket.t -> res (bool * RtpPacket.t)) (type : RTPExtensionType) (v : list Z) : Prop :=
  forall fs p, built fs p -> map_ok (RtpPacket.extensions_ p) ->
  RtpHeaderExtensionMap.ExtmapAllowMixed (RtpPacket.extensions_ p) = false -> known type ->
  (forall id, RtpHeaderExtensionMap.GetId (RtpPacket.extensions_ p) type = Ok id -> id <> 0 -> id ∉ map fst fs) ->
  (36 + length (block fs) <= RtpPacket.capacity p)%nat -> (length (block fs) + 17 <= 1000)%nat ->
  exists b p', op p = Ok (b, p') /\ built (fs ++ allocated (RtpPacket.extensions_ p) type v) p' /\ header_kept p p'.

Lemma SetStringExtension_adds type v :
  bytes v -> adds (fun p => RtpPacket.SetStringExtension p type v) type v.
Proof.
  intros Hv fs p Hbt Hm Hmix Hk Hfresh Hcap Hsm. unfold RtpPacket.SetStringExtension, RtpPacket.kMaxValueSizeBytes.
  destruct (Nat.ltb_spec 16 (length v)) as [Hbig|Hle].
  - unfold RtpPacket.AllocateExtension, kOneByteHeaderExtensionMaxValueSize.
    rewrite Hmix, (proj2 (Nat.ltb_lt 16 _)) by done. cbn [negb andb]. rewrite orb_true_r. cbn [mbind res_bind snd].
    exists false, p. split; [done|]. unfold allocated. destruct (RtpHeaderExtensionMap.GetId _ _);
      rewrite ?(proj2 (Nat.leb_gt (length v) 16)), ?andb_false_r, app_nil_r by lia; done.
  - by apply fill_extension_built; try done; apply writes_bytes.
Qed.

Lemma ReserveExtension_adds type n : adds (fun p => RtpPacket.ReserveExtension p type n) type (replicate n 0).
Proof.
  intros fs p Hbt Hm Hmix Hk Hfresh Hcap Hsm. unfold RtpPacket.ReserveExtension.
  pose proof (writes_zeros n) as Hw. set (v := replicate n 0) in *.
  assert (En : n = length v) by (unfold v; by rewrite length_replicate).
  destruct (fill_extension_built fs p type v _ Hbt Hm Hmix Hk ltac:(by apply Forall_replicate) Hw Hfresh Hcap Hsm)
    as (b & p' & E & HB). exists b, p'. split; [|done]. by rewrite En at 1.
Qed.

(** The extensions [tvs], one after the other. *)
Definition fields (m : RtpHeaderExtensionMap.t) (tvs : list (RTPExtensionType * list Z)) : list field :=
  concat (map (fun tv => allocated m tv.1 tv.2) tvs).

Lemma fields_snoc m tvs tv : fields m (tvs ++ [tv]) = fields m tvs ++ allocated m tv.1 tv.2.
Proof. unfold fields. rewrite map_app, concat_app. cbn. by rewrite app_nil_r. Qed.

Lemma fields_fresh m type id tvs :
  map_ok m -> known type -> RtpHeaderExtensionMap.GetId m type = Ok id -> id <> 0 ->
  Forall (fun tv => known tv.1 /\ type <> tv.1) tvs -> id ∉ map fst (fields m tvs).
Proof.
  intros Hm Hk E Hid. unfold fields. induction 1 as [|tv tvs [Hk' Hne] _ IH]; cbn; [apply not_elem_of_nil|].
  rewrite map_app, not_elem_of_app. split; [by apply (allocated_fresh m type)|done].
Qed.

Lemma block_fields m tvs : Forall (fun tv => (length tv.2 <= 16)%nat) tvs ->
  (length (block (fields m tvs)) <= 17 * length tvs)%nat.
Proof.
  unfold fields. induction 1 as [|tv tvs Hl _ IH]; cbn [map concat length]; [cbn; lia|]. rewrite block_app, length_app.
  pose proof (block_allocated m tv.1 tv.2). lia.
Qed.

(** A packet that started as [p0] and carries [tvs]. *)
Record under_way (m : RtpHeaderExtensionMap.t) (p0 : RtpPacket.t) (tvs : list (RTPExtensionType * list Z))
    (p : RtpPacket.t) : Prop := {
  uw_built : built (fields m tvs) p;
  uw_kept : header_kept p0 p;
  uw_few : (length tvs <= 9)%nat;
  uw_values : Forall (fun tv => (length tv.2 <= 16)%nat) tvs
}.

Lemma add_under_way m p0 tvs p op type v :
  map_ok m -> RtpHeaderExtensionMap.ExtmapAllowMixed m = false -> RtpPacket.extensions_ p0 = m ->
  RtpPacket.capacity p0 = kDefaultPacketSize -> adds op type v -> known type ->
  Forall (fun tv => known tv.1 /\ type <> tv.1) tvs -> under_way m p0 tvs p ->
  exists b p', op p = Ok (b, p') /\ built (fields m (tvs ++ [(type, v)])) p' /\ header_kept p0 p' /\
    ((length v <= 16)%nat -> (length tvs <= 8)%nat -> under_way m p0 (tvs ++ [(type, v)]) p').
Proof.
  intros Hm Hmix Hext Hcap Hadd Hk Hfresh [Hbt Hkept Hfew Hval].
  assert (Ep : RtpPacket.extensions_ p = m) by (unfold header_kept in Hkept; intuition congruence).
  assert (Ec : RtpPacket.capacity p = kDefaultPacketSize) by (unfold header_kept in Hkept; intuition congruence).
  pose proof (block_fields m tvs Hval) as Hb. assert (Hbig : (1000 <= kDefaultPacketSize)%nat) by compute_le.
  destruct (Hadd (fields m tvs) p) as (b & p' & E & HB & HK); rewrite ?Ep, ?Ec; try done; [|lia|lia|].
  { intros id Hid Hne. by eapply fields_fresh. }
  assert (HK' : header_kept p0 p') by (unfold header_kept in *; intuition congruence).
  exists b, p'. rewrite Ep in HB. rewrite fields_snoc. split; [done|]. split; [done|]. split; [done|].
  intros Hv Hl. split; [by rewrite fields_snoc|done|rewrite length_app; cbn; lia|].
  apply Forall_app. split; [done|]. by constructor.
Qed.

(** [usable]: what the constructor establishes. *)
Record sender_ok (f : t) : Prop := {
  so_payload_type : 0 <= payload_type_ f < 128;
  so_ssrc : is_u32 (ssrc_ f);
  so_seq : is_u16 (seq_num_ f);
  so_mid : bytes (mid_ f);
  so_map : map_ok (rtp_header_extension_map_ f);
  so_mixed : RtpHeaderExtensionMap.ExtmapAllowMixed (rtp_header_extension_map_ f) = false
}.

(** The extensions reserved for the pacer, and MID. *)
Definition reserved : list (RTPExtensionType * list Z) :=
  [(kRtpExtensionAbsoluteSendTime, replicate 3 0); (kRtpExtensionTransmissionTimeOffset, replicate 3 0);
   (kRtpExtensionTransportSequenceNumber, replicate 2 0)].

Definition fec_fields (f : t) : list field :=
  fields (rtp_header_extension_map_ f) (reserved ++ [(kRtpExtensionMid, mid_ f)]).

Lemma allocated_nil m type : allocated m type [] = [].
Proof.
  unfold allocated. destruct (RtpHeaderExtensionMap.GetId m type); [|done]. cbn [length Nat.leb]. by rewrite andb_false_r.
Qed.

Lemma reserve_extensions_built f p :
  sender_ok f -> built [] p -> RtpPacket.extensions_ p = rtp_header_extension_map_ f ->
  RtpPacket.capacity p = kDefaultPacketSize ->
  exists p', reserve_extensions f p = Ok p' /\ built (fec_fields f) p' /\ header_kept p p'.
Proof.
  intros [_ _ _ Hmid Hm Hmix] Hbt Hext Hcap. unfold reserve_extensions, fec_fields.
  set (m := rtp_header_extension_map_ f) in *.
  assert (U0 : under_way m p [] p) by (split; [exact Hbt|done|cbn; lia|constructor]).
  destruct (add_under_way m p [] p _ _ _ Hm Hmix Hext Hcap (ReserveExtension_adds kRtpExtensionAbsoluteSendTime 3)
    ltac:(by repeat constructor) ltac:(by repeat constructor) U0) as (b1 & p1 & -> & _ & _ & U1). cbn [mbind res_bind snd app] in *.
  destruct (add_under_way m p (take 1 reserved) p1 _ _ _ Hm Hmix Hext Hcap (ReserveExtension_adds kRtpExtensionTransmissionTimeOffset 3)
    ltac:(by repeat constructor) ltac:(by repeat constructor) (U1 ltac:(cbn; lia) ltac:(cbn; lia))) as (b2 & p2 & -> & _ & _ & U2).
  cbn [mbind res_bind snd app] in *.
  destruct (add_under_way m p (take 2 reserved) p2 _ _ _ Hm Hmix Hext Hcap (ReserveExtension_adds kRtpExtensionTransportSequenceNumber 2)
    ltac:(by repeat constructor) ltac:(by repeat constructor) (U2 ltac:(cbn; lia) ltac:(cbn; lia))) as (b3 & p3 & -> & B3 & K3 & U3).
  cbn [mbind res_bind snd app] in *. fold reserved in *. destruct (mid_ f) as [|x mid].
  { exists p3. split; [done|]. by rewrite fields_snoc, allocated_nil, app_nil_r. }
  destruct (add_under_way m p reserved p3 _ _ _ Hm Hmix Hext Hcap (SetStringExtension_adds kRtpExtensionMid (x :: mid) Hmid)
    ltac:(by repeat constructor) ltac:(by repeat constructor) (U3 ltac:(cbn; lia) ltac:(cbn; lia))) as (b4 & p4 & -> & B4 & K4 & _).
  cbn [mbind res_bind snd]. by exists p4.
Qed.

(** ** One FEC packet *)

Record fec_packet (f : t) (seq_num us : Z) (fec : Packet) (s : RtpPacketToSend) : Prop := {
  fp_sendable : sendable (packet s);
  fp_payload : payload_bytes (packet s) = fec;
  fp_header : exists h, length h = 11%nat /\
    header_bytes (packet s) = first_byte (fec_fields f) :: h ++ ext_bytes (fec_fields f);
  fp_ssrc : RtpPacket.Ssrc (packet s) = ssrc_ f;
  fp_type : RtpPacket.PayloadType (packet s) = payload_type_ f;
  fp_marker : RtpPacket.Marker (packet s) = false;
  fp_seq : RtpPacket.SequenceNumber (packet s) = seq_num;
  fp_time : RtpPacket.Timestamp (packet s) = rtp_timestamp f us;
  fp_entries : RtpPacket.extension_entries_ (packet s) = infos 16 (fec_fields f);
  fp_kind : packet_type s = Some kForwardErrorCorrection /\ allow_retransmission s = false /\
    fec_protect_packet s = false /\ is_red s = false
}.

(** The payload of a packet under construction. *)
Lemma payload_filled p (data : Packet) :
  sendable p -> bytes data ->
  exists p1 p2, RtpPacket.AllocatePayload p (length data) = Ok p1 /\
    RtpPacket.write (fun d => memcpy d (RtpPacket.payload_offset_ p1) data 0 (length data)) p1 = Ok p2 /\
    sendable p2 /\ header_bytes p2 = header_bytes p /\ payload_bytes p2 = data /\
    only_buffer (RtpPacket.with_sizes p (RtpPacket.payload_offset_ p) (length data) 0) p2.
Proof.
  intros Hp Hd. unfold RtpPacket.AllocatePayload.
  destruct (SetPayloadSize_sendable p 0 Hp) as (q & -> & Hq & [bq ->] & Hh). cbn [mbind res_bind].
  destruct (SetPayloadSize_sendable _ (length data) Hq) as (p1 & -> & Hp1 & Hob & Hh1).
  assert (Hhs : RtpPacket.headers_size p1 = RtpPacket.headers_size p) by by destruct Hob as [b ->].
  assert (Hps : RtpPacket.payload_size p1 = length data) by by destruct Hob as [b ->].
  destruct (sendable_split p1 Hp1) as (Hsplit & Hlh & Hlp & _).
  assert (Hlen : length (wire p1) = (RtpPacket.headers_size p1 + length data)%nat) by (rewrite Hsplit, length_app; lia).
  change (RtpPacket.payload_offset_ p1) with (RtpPacket.headers_size p1).
  destruct (write_payload_bytes p1 (RtpPacket.headers_size p1) data 0 (length data) Hp1) as (p2 & E & Hp2 & Hw & [b2 Hb2]);
    [done|lia|lia|done|].
  exists p1, p2. split; [done|]. split; [done|]. split; [done|].
  rewrite drop_0, (take_ge data), (drop_ge (wire p1)), app_nil_r in Hw by lia. fold (header_bytes p1) in Hw.
  assert (Hhs2 : RtpPacket.headers_size p2 = RtpPacket.headers_size p1) by by rewrite Hb2.
  split; [|split].
  - unfold header_bytes at 1. rewrite Hhs2, Hw, take_app_length' by done. congruence.
  - unfold payload_bytes. rewrite Hhs2, Hw. by rewrite drop_app_length'.
  - destruct Hob as [b ->]. rewrite Hb2. by exists b2.
Qed.

Lemma built_header fs p : built fs p -> exists h, length h = 11%nat /\
  header_bytes p = first_byte fs :: h ++ ext_bytes fs.
Proof.
  intros [_ _ _ (h & Hh & Hw) _ _ _ Ho _ _ _]. exists h. split; [done|].
  unfold header_bytes. rewrite Hw. apply take_ge. change (RtpPacket.headers_size p) with (RtpPacket.payload_offset_ p).
  rewrite Ho. cbn [length]. rewrite length_app, Hh. lia.
Qed.

Lemma fec_packet_to_send_ok f time_us capture_us fec :
  sender_ok f -> bytes fec ->
  exists s, fec_packet_to_send f time_us capture_us fec = Ok (s, with_seq_num f (u16 (seq_num_ f + 1))) /\
    fec_packet f (seq_num_ f) time_us fec s.
Proof.
  intros Hf Hb. pose proof Hf as [Hpt Hss Hseq _ _ _]. unfold fec_packet_to_send.
  destruct (start_packet_ok (rtp_header_extension_map_ f) (payload_type_ f) (seq_num_ f) (rtp_timestamp f time_us)
    (ssrc_ f) Hpt Hseq (uw_range 32 _ ltac:(lia)) Hss) as (b & -> & Hbt & Hcap). cbn [mbind res_bind].
  match goal with |- context [reserve_extensions f ?p] => set (p0 := p) in * end.
  destruct (reserve_extensions_built f p0 Hf Hbt eq_refl Hcap) as (p1 & -> & Hbt1 & K). cbn [mbind res_bind].
  pose proof (built_consistent _ _ Hbt1) as Hsd. pose proof (built_header _ _ Hbt1) as (h & Hh & Hhead).
  destruct (payload_filled p1 fec Hsd Hb) as (p2 & p3 & -> & E & Hs3 & Hh3 & Hp3 & [b3 Hb3]). cbn [mbind res_bind].
  rewrite E. cbn [mbind res_bind]. eexists. split; [done|].
  destruct K as (K1 & K2 & K3 & K4 & K5 & _). cbn [p0 RtpPacket.marker_ RtpPacket.payload_type_ RtpPacket.sequence_number_ RtpPacket.timestamp_ RtpPacket.ssrc_] in *.
  split; cbn [packet]; try done.
  - exists h. split; [done|]. congruence.
  - rewrite Hb3. exact K5.
  - rewrite Hb3. exact K2.
  - rewrite Hb3. exact K1.
  - rewrite Hb3. exact K3.
  - rewrite Hb3. exact K4.
  - rewrite Hb3. exact (bt_entries _ _ Hbt1).
Qed.

(** ** The loop *)

(** [f] with another number to use next. *)
Definition renumbered (f : t) (n : nat) : t := with_seq_num f (u16 (seq_num_ f + Z.of_nat n)).

Lemma renumbered_ok f n : sender_ok f -> sender_ok (renumbered f n).
Proof. intros []. split; try done. apply uw_range. lia. Qed.

Lemma renumbered_0 f : sender_ok f -> renumbered f 0 = f.
Proof.
  intros []. unfold renumbered. rewrite Z.add_0_r, (uw_small 16) by done. by destruct f.
Qed.

Lemma renumbered_S f n : with_seq_num (renumbered f n) (u16 (seq_num_ (renumbered f n) + 1)) = renumbered f (S n).
Proof.
  unfold renumbered. cbn. unfold with_seq_num. cbn. f_equal. unfold uw. rewrite Zplus_mod_idemp_l. f_equal. lia.
Qed.

(** [out] carries [fecs], numbered from the [n]-th number of [f] on. *)
Definition fec_packets (f : t) (n : nat) (fecs : list Packet) (out : list RtpPacketToSend) : Prop :=
  length out = length fecs /\
  forall i fec s, fecs !! i = Some fec -> out !! i = Some s ->
    exists us, fec_packet f (u16 (seq_num_ f + Z.of_nat (n + i))) us fec s.

Lemma fec_packets_nil f n : fec_packets f n [] [].
Proof. split; [done|]. by intros. Qed.

Lemma fec_packets_cons f n fec fecs s out us :
  fec_packet f (u16 (seq_num_ f + Z.of_nat n)) us fec s -> fec_packets f (S n) fecs out ->
  fec_packets f n (fec :: fecs) (s :: out).
Proof.
  intros Hs [Hl Hn]. split; [cbn; lia|]. intros [|i] fec' s' Hfec Hs'.
  - injection Hfec as <-. injection Hs' as <-. rewrite Nat.add_0_r. by exists us.
  - rewrite <- Nat.add_succ_comm. by apply Hn.
Qed.

Lemma fec_loop f readings fecs : forall sent,
  sender_ok f -> Forall bytes fecs ->
  exists out, foldM (fun st fec_packet =>
      let i := length st.1 in
      let! r := fec_packet_to_send st.2 (readings (2 * i)) (readings (2 * i + 1)) fec_packet in
      Ok (st.1 ++ [r.1], r.2))%nat fecs (sent, renumbered f (length sent)) =
    Ok (sent ++ out, renumbered f (length sent + length out)) /\ fec_packets f (length sent) fecs out.
Proof.
  induction fecs as [|fec fecs IH]; intros sent Hf Hb; cbn [foldM].
  { exists []. rewrite app_nil_r, Nat.add_0_r. split; [done|apply fec_packets_nil]. }
  apply Forall_cons_1 in Hb as [Hb1 Hb]. cbn [fst snd].
  destruct (fec_packet_to_send_ok (renumbered f (length sent)) (readings (2 * length sent)%nat)
    (readings (2 * length sent + 1)%nat) fec (renumbered_ok f _ Hf) Hb1) as (s & -> & Hs).
  cbn [mbind res_bind fst snd]. rewrite renumbered_S.
  destruct (IH (sent ++ [s]) Hf Hb) as (out & E & Hout). rewrite length_app, Nat.add_1_r in *.
  exists (s :: out). split; [etransitivity; [exact E|]; rewrite <- (assoc_L (++)); cbn [app length]; by rewrite Nat.add_succ_r|].
  eapply fec_packets_cons; [|exact Hout]. destruct Hs. by split.
Qed.

Lemma fec_packets_to_send_ok f readings fecs :
  sender_ok f -> Forall bytes fecs ->
  exists out, fec_packets_to_send f readings fecs = Ok (out, renumbered f (length out)) /\ fec_packets f 0 fecs out.
Proof.
  intros Hf Hb. destruct (fec_loop f readings fecs [] Hf Hb) as (out & E & Hout).
  cbn [length Nat.add app] in E. rewrite renumbered_0 in E by done. by exists out.
Qed.

(** ** The interface *)

Context {W : FecHeaderWriter}.

#[global] Instance flexfec_video_generator : VideoFecGenerator t (nat -> Z) := {
  collector := ulpfec_generator_;
  with_collector := with_generator;
  AddPacket := FlexfecSender.AddPacketAndGenerateFec;
  GetFecPackets := FlexfecSender.GetFecPackets
}.

(** The constant members. *)
Definition config (f : t) :=
  (payload_type_ f, timestamp_offset_ f, ssrc_ f, protected_media_ssrc_ f, mid_ f, rtp_header_extension_map_ f,
   header_extensions_size_ f).

(** Sending [out] uses up consecutive numbers of the FEC stream. *)
Definition numbered (f : t) (out : list RtpPacketToSend) (f' : t) : Prop :=
  config f' = config f /\ seq_num_ f' = u16 (seq_num_ f + Z.of_nat (length out)) /\
  forall i s, out !! i = Some s ->
    RtpPacket.Ssrc (packet s) = ssrc_ f /\ RtpPacket.SequenceNumber (packet s) = u16 (seq_num_ f + Z.of_nat i).

Lemma u16_shift a b : u16 (u16 a + b) = u16 (a + b).
Proof. unfold uw. by rewrite Zplus_mod_idemp_l. Qed.

Lemma fec_packet_config f f' seq_num us fec s :
  config f' = config f -> fec_packet f' seq_num us fec s -> fec_packet f seq_num us fec s.
Proof.
  intros [= Ept Ets Ess _ Emid Emap _] [? ? ? ? ? ? ? Ht ? ?].
  assert (Ef : fec_fields f' = fec_fields f) by (unfold fec_fields; by rewrite Emap, Emid).
  rewrite Ef in *. split; try congruence; try done. rewrite Ht. unfold rtp_timestamp. by rewrite Ets.
Qed.

Lemma numbered_app f out f1 out' f2 : numbered f out f1 -> numbered f1 out' f2 -> numbered f (out ++ out') f2.
Proof.
  intros (Hc & Hs & Hn) (Hc' & Hs' & Hn'). split; [congruence|]. rewrite Hs in Hs', Hn'.
  split; [rewrite Hs', u16_shift, length_app; f_equal; lia|].
  intros i s [Hi|[Hge Hi]]%lookup_app_Some; [by apply Hn|]. destruct (Hn' _ _ Hi) as [-> ->].
  split; [by injection Hc|]. rewrite u16_shift. f_equal. lia.
Qed.

Lemma numbered_ok f out f' : sender_ok f -> numbered f out f' -> sender_ok f'.
Proof.
  intros [] ([= Ept _ Ess _ Emid Emap _] & Hs & _). split; try congruence. rewrite Hs. apply uw_range. lia.
Qed.

Lemma numbered_same f f' : sender_ok f -> config f' = config f -> seq_num_ f' = seq_num_ f -> numbered f [] f'.
Proof.
  intros Hf Hc Hs. split; [done|]. split; [|by intros]. cbn. rewrite Hs, Z.add_0_r. symmetry. apply uw_small, Hf.
Qed.

Lemma fec_packets_numbered f fecs out f' :
  fec_packets f 0 fecs out -> config f' = config f -> seq_num_ f' = u16 (seq_num_ f + Z.of_nat (length out)) ->
  numbered f out f'.
Proof.
  intros [Hl Hp] Hc Hs. split; [done|]. split; [done|]. intros i s Hi.
  destruct (lookup_lt_is_Some_2 fecs i) as [fec Hfec]; [rewrite <- Hl; by eapply lookup_lt_Some|].
  destruct (Hp i fec s Hfec Hi) as (us & []). by split.
Qed.

(** [GetFecPackets] on every branch. *)
Lemma GetFecPackets_spec f readings :
  sender_ok f -> Forall bytes (UlpfecGenerator.generated_fec_packets_ (ulpfec_generator_ f)) ->
  exists out f', FlexfecSender.GetFecPackets f readings = Ok (out, f') /\
    fec_packets f 0 (UlpfecGenerator.generated_fec_packets_ (ulpfec_generator_ f)) out /\ numbered f out f' /\
    ulpfec_generator_ f' = match out with [] => ulpfec_generator_ f
                           | _ => UlpfecGenerator.ResetState (ulpfec_generator_ f) end.
Proof.
  intros Hf Hb. unfold FlexfecSender.GetFecPackets.
  destruct (fec_packets_to_send_ok f readings _ Hf Hb) as (out & -> & Hout). cbn [mbind res_bind].
  eexists out, _. split; [done|]. split; [done|].
  split; [eapply fec_packets_numbered; [exact Hout|..]|]; (destruct out as [|s out]; [done|]);
    by destruct (log_due _ _).
Qed.

#[global] Instance flexfec_generator_laws ssrc :
  VideoFecGeneratorLaws ssrc t (nat -> Z) sender_ok (fun f => fec_packets f 0) numbered.
Proof.
  split; try done.
  - intros f c Hf _. by apply numbered_same.
  - apply numbered_app.
  - apply numbered_ok.
  - intros f f' fecs out (Hc & Hs & _) [Hl Hp]. cbn in Hs. rewrite Hs in Hp. split; [done|].
    intros i fec s Hfec Hi. destruct (Hp i fec s Hfec Hi) as (us & Hpk). exists us.
    rewrite u16_shift in Hpk. apply (fec_packet_config f f'); [done|]. by rewrite Z.add_0_r in Hpk.
  - intros f now Hf E. cbn in *. destruct (GetFecPackets_spec f now Hf) as (out & f' & -> & [Hl _] & Hn & Hg); rewrite ?E in *; [constructor|].
    destruct out; [|done]. exists f'. done.
  - intros f last now Hf _ _ _ _ Hb Hne. cbn in *. destruct (GetFecPackets_spec f now Hf Hb) as (out & f' & -> & Hp & Hn & Hg).
    exists out, f'. split; [done|]. split; [|done]. destruct out as [|s out]; [|by rewrite Hg].
    destruct Hp as [Hl _]. by destruct (UlpfecGenerator.generated_fec_packets_ (ulpfec_generator_ f)).
Qed.

End Laws.
