(* ===== verification/FlexfecGuarantees.v ===== *)
(** * FlexfecGuarantees: the FlexFEC sender, and sender and receiver together *)

From stdpp Require Import strings.
From S2P Require Import Prelude.
From S2P Require Import CowBuffer.
From S2P Require Import RtpExtensions.
From S2P Require Import RtpPacketModel.
From S2P Require Import RtpPacketLaws.
From S2P Require Import RtpPacketOps.
From S2P Require Import RtpPacketSession.
From S2P Require Import RtpPacketBuild.
From S2P Require Import PacketMasks.
From S2P Require Import FecTypes.
From S2P Require Import Flexfec03Header.
From S2P Require Import XorCode.
From S2P Require Import FecEncoder.
From S2P Require Import EncoderCorrect.
From S2P Require Import EncodeFecSpec.
From S2P Require Import EncoderGuarantees.
From S2P Require Import Transmission.
From S2P Require Import SeqNum.
From S2P Require Import FecDecoder.
From S2P Require Import DecoderSound.
From S2P Require Import WindowSort.
From S2P Require Import Peeling.
From S2P Require Import PeelingFresh.
From S2P Require Import FecReceivers.
From S2P Require Import ReceiverLaws.
From S2P Require Import ReceiverSession.
From S2P Require Import ReceiverGuarantees.
From S2P Require Import FlexfecSession.
From S2P Require Import RateModel.
From S2P Require Import UlpfecSender.
From S2P Require Import GeneratorLaws.
From S2P Require Import GeneratorRun.
From S2P Require Import EndToEnd.
From S2P Require Import GeneratorGuarantees.
From S2P Require Import FlexfecSend.
Import FlexfecSender.

#[local] Existing Instance Flexfec03.Flexfec03HeaderReader.
#[local] Existing Instance Flexfec03.Flexfec03HeaderWriter.

(** ** Room for the extensions *)

(** What an extension takes in a packet in the one-byte form, if it is registered. *)
Definition need (m : RtpHeaderExtensionMap.t) (e : RtpExtensionSize) : nat :=
  match RtpHeaderExtensionMap.GetId m (es_type e) with
  | Ok id => if id =? 0 then 0%nat else S (value_size e)
  | Fault _ => 0%nat
  end.

Definition needs (m : RtpHeaderExtensionMap.t) (es : list RtpExtensionSize) : nat :=
  foldr (fun e n => (need m e + n)%nat) 0%nat es.

Lemma sums_ok m es : forall v n h,
  map_ok m -> Forall (fun e => RtpExtensions.known (es_type e) /\ (1 <= value_size e)%nat) es -> (1 <= h)%nat -> (n <= v)%nat ->
  exists v' n' h', foldM (add_extension_size m) es (v, n, h) = Ok (v', n', h') /\
    (1 <= h')%nat /\ (n' <= v')%nat /\ (v' + n' = v + n + needs m es)%nat.
Proof.
  induction es as [|e es IH]; intros v n h Hm Hes Hh Hnv; cbn [foldM].
  { exists v, n, h. cbn. split_and!; try done; lia. }
  apply Forall_cons_1 in Hes as [[Hk Hv] Hes].
  destruct (GetId_ok m (es_type e) Hm) as (id & E & _ & Hid); [unfold RtpExtensions.known in Hk; lia|].
  unfold add_extension_size at 2. rewrite E. cbn [mbind res_bind]. unfold RtpHeaderExtensionMap.kInvalidId.
  assert (Hn : need m e = if id =? 0 then 0%nat else S (value_size e)) by (unfold need; by rewrite E).
  change (needs m (e :: es)) with (need m e + needs m es)%nat. rewrite Hn.
  destruct (id =? 0); cbn [mbind res_bind].
  - destruct (IH v n h Hm Hes Hh Hnv) as (v' & n' & h' & -> & ? & ? & ?). exists v', n', h'. by split_and!.
  - match goal with |- context [(_, _, if ?b then _ else _)] => set (c := b) end.
    destruct (IH (v + value_size e)%nat (S n) (if c then 2 else h)%nat Hm Hes) as (v' & n' & h' & -> & ? & ? & ?);
      [destruct c; lia|lia|]. exists v', n', h'. split_and!; try done; lia.
Qed.

Lemma RtpHeaderExtensionSize_ok m es :
  map_ok m -> Forall (fun e => RtpExtensions.known (es_type e) /\ (1 <= value_size e)%nat) es ->
  exists n, RtpHeaderExtensionSize es m = Ok n /\
    forall b, (1 <= b <= needs m es)%nat -> (4 + 4 * ((b + 3) / 4) <= n)%nat.
Proof.
  intros Hm Hes. unfold RtpHeaderExtensionSize.
  destruct (sums_ok m es 0 0 1 Hm Hes ltac:(lia) ltac:(lia)) as (v & n & h & -> & Hh & Hnv & Hsum). cbn [mbind res_bind].
  destruct (Nat.eqb_spec v 0) as [->|Hv]; (eexists; split; [done|]); intros b Hb; [lia|].
  assert (n <= h * n)%nat by nia. set (x := (4 + h * n + v)%nat) in *. assert (4 + b <= x)%nat by lia. clearbody x.
  pose proof (Nat.div_mod_eq (b + 3) 4). pose proof (Nat.div_mod_eq (x + 3) 4).
  pose proof (Nat.mod_upper_bound (b + 3) 4 ltac:(lia)). pose proof (Nat.mod_upper_bound (x + 3) 4 ltac:(lia)). lia.
Qed.

Lemma allocated_need m type (v : list Z) n :
  (length v <= n)%nat \/ n = 16%nat -> (length (block (allocated m type v)) <= need m (mkExtensionSize type n))%nat.
Proof.
  unfold allocated, need. cbn [es_type value_size]. destruct (RtpHeaderExtensionMap.GetId m type) as [id|]; [|cbn; lia].
  intros Hn. destruct (_ && _) eqn:E; [|cbn; lia]. rewrite !andb_true_iff, !Z.leb_le, !Nat.leb_le in E.
  rewrite (proj2 (Z.eqb_neq id 0)), block_one by lia. cbn. lia.
Qed.

Lemma fec_extensions_fit f :
  map_ok (rtp_header_extension_map_ f) ->
  RtpHeaderExtensionSize kFecOrPaddingExtensionSizes (rtp_header_extension_map_ f) = Ok (header_extensions_size_ f) ->
  (length (ext_bytes (fec_fields f)) <= header_extensions_size_ f)%nat.
Proof.
  intros Hm Hsz. set (m := rtp_header_extension_map_ f) in *.
  destruct (RtpHeaderExtensionSize_ok m kFecOrPaddingExtensionSizes Hm) as (n & E & Hn);
    [repeat (apply Forall_cons_2; [by repeat constructor|]); constructor|].
  rewrite E in Hsz. injection Hsz as ->. rewrite length_ext_bytes.
  assert (Hle : (length (block (fec_fields f)) <= needs m kFecOrPaddingExtensionSizes)%nat).
  { unfold fec_fields, fields, reserved. cbn [map concat app]. rewrite !block_app, !length_app. fold m.
    pose proof (allocated_need m kRtpExtensionAbsoluteSendTime (replicate 3 0) 3 ltac:(left; cbn; lia)).
    pose proof (allocated_need m kRtpExtensionTransmissionTimeOffset (replicate 3 0) 3 ltac:(left; cbn; lia)).
    pose proof (allocated_need m kRtpExtensionTransportSequenceNumber (replicate 2 0) 2 ltac:(left; cbn; lia)).
    pose proof (allocated_need m kRtpExtensionMid (mid_ f) 16 ltac:(by right)).
    unfold kFecOrPaddingExtensionSizes, needs. cbn [foldr fst snd]. cbn [block map concat length]. lia. }
  destruct (fec_fields f) as [|x fs] eqn:Ef; [lia|]. rewrite <- Ef in *. apply Hn. split; [|exact Hle].
  rewrite Ef. unfold block. cbn. lia.
Qed.

(** ** The constructor *)

Lemma Register_mixed m id type b m' :
  RtpHeaderExtensionMap.Register m id type = Ok (b, m') ->
  RtpHeaderExtensionMap.ExtmapAllowMixed m' = RtpHeaderExtensionMap.ExtmapAllowMixed m.
Proof.
  unfold RtpHeaderExtensionMap.Register. destruct (_ || _); [by intros [= _ <-]|].
  intros (t & _ & E)%bind_ok_inv. destruct (bool_decide _); [by injection E as _ <-|].
  destruct (negb _); [by injection E as _ <-|]. apply bind_ok_inv in E as ([] & _ & E); [by injection E as _ <-|].
  apply bind_ok_inv in E as (ids & _ & E). by injection E as _ <-.
Qed.

Lemma RegisterSupportedExtensions_ok extensions :
  exists m, RegisterSupportedExtensions extensions = Ok m /\ map_ok m /\
    RtpHeaderExtensionMap.ExtmapAllowMixed m = false.
Proof.
  unfold RegisterSupportedExtensions.
  assert (Hgen : forall m, map_ok m -> RtpHeaderExtensionMap.ExtmapAllowMixed m = false ->
    exists m', foldM (fun m extension =>
      let register type := let! r := RtpHeaderExtensionMap.Register m extension.1 type in Ok r.2 in
      if bool_decide (extension.2 = uri_of kRtpExtensionTransportSequenceNumber)
      then register kRtpExtensionTransportSequenceNumber
      else if bool_decide (extension.2 = uri_of kRtpExtensionAbsoluteSendTime)
      then register kRtpExtensionAbsoluteSendTime
      else if bool_decide (extension.2 = uri_of kRtpExtensionTransmissionTimeOffset)
      then register kRtpExtensionTransmissionTimeOffset
      else if bool_decide (extension.2 = uri_of kRtpExtensionMid) then register kRtpExtensionMid
      else Ok m) extensions m = Ok m' /\ map_ok m' /\ RtpHeaderExtensionMap.ExtmapAllowMixed m' = false).
  { induction extensions as [|[id uri] extensions IH]; intros m Hm Hmix; cbn [foldM]; [by exists m|].
    assert (Hreg : forall type, RtpExtensions.known type -> exists m', (let! r := RtpHeaderExtensionMap.Register m id type in Ok r.2) = Ok m' /\
      map_ok m' /\ RtpHeaderExtensionMap.ExtmapAllowMixed m' = false).
    { intros type Hk. destruct (Register_spec m id type Hm Hk) as (b & m' & E & Hm' & _). rewrite E. exists m'.
      split; [done|]. split; [done|]. by rewrite (Register_mixed _ _ _ _ _ E). }
    cbn [fst snd] in *. repeat case_bool_decide;
      try (edestruct Hreg as (m' & Em & Hm' & Hx'); [|rewrite Em; cbn [mbind res_bind]; by apply IH]; by repeat constructor).
    cbn [mbind res_bind]. by apply IH. }
  apply Hgen; [apply RtpExtensions.new_ok|done].
Qed.

(** The number and the timestamp a sender starts with. *)
Definition first_seq (state : option RtpState) (rand_seq_num : Z) : Z :=
  match state with Some state => sequence_number state | None => rand_seq_num end.

Lemma new_sender payload_type ssrc media_ssrc mid extensions state rand_timestamp rand_seq_num e :
  0 <= payload_type < 128 -> is_u32 ssrc -> bytes mid -> is_u16 (first_seq state rand_seq_num) ->
  exists f, FlexfecSender.new payload_type ssrc media_ssrc mid extensions kFecOrPaddingExtensionSizes state
      rand_timestamp rand_seq_num e = Ok f /\ sender_ok f /\
    payload_type_ f = payload_type /\ ssrc_ f = ssrc /\ protected_media_ssrc_ f = media_ssrc /\ mid_ f = mid /\
    seq_num_ f = first_seq state rand_seq_num /\ ulpfec_generator_ f = UlpfecGenerator.new 0 0 e /\
    (length (ext_bytes (fec_fields f)) <= header_extensions_size_ f)%nat.
Proof.
  intros Hpt Hss Hmid Hseq. unfold FlexfecSender.new.
  destruct (RegisterSupportedExtensions_ok extensions) as (m & -> & Hm & Hmix). cbn [mbind res_bind].
  destruct (RtpHeaderExtensionSize_ok m kFecOrPaddingExtensionSizes Hm) as (n & E & _);
    [repeat (apply Forall_cons_2; [by repeat constructor|]); constructor|].
  rewrite E. cbn [mbind res_bind]. eexists. split; [done|]. split; [by split|]. do 6 (split; [done|]).
  by apply fec_extensions_fit.
Qed.

(** ** The size of FEC packets *)

Lemma reads_as_length ssrc base prot fec N :
  reads_as (own := false) ssrc base prot fec -> Forall (fun p => (length p <= N)%nat) prot ->
  (20 <= length fec <= 32 + (N - 12))%nat.
Proof.
  intros [Hb Hr] Hp. destruct (Hr 0 0) as (fp & ps & E & _ & _ & _ & _ & _ & _ & _ & _ & Hhdr & Hpl & Hlen & _).
  destruct (read_sound (new_fec_packet 0 0 fec) fp Hb E) as (ps' & hdr & len & pkt & -> & Hl & _). cbn in Hl, Hlen, Hhdr, Hpl. split.
  - destruct (decide (20 <= length fec)%nat); [done|]. exfalso. revert E. cbn.
    unfold Flexfec03.ReadFecHeader. cbn [fp_pkt new_fec_packet]. case_decide; [done|].
    intros (b0 & _ & E)%bind_ok_inv. destruct (has_bits b0 0x80); [done|]. destruct (has_bits b0 0x40); [done|].
    apply bind_ok_inv in E as (c & _ & E). destruct (negb _); [done|].
    apply bind_ok_inv in E as (s & _ & E). apply bind_ok_inv in E as (q & _ & E).
    rewrite decide_True in E by (change (length fec < 20)%nat; lia). done.
  - rewrite <- Hl, Hlen. rewrite Hpl. enough (max_list (map (fun p => length p - 12) prot) <= N - 12)%nat by lia.
    clear -Hp. induction Hp as [|p prot Hp _ IH]; cbn; lia.
Qed.

Lemma sent_batch_length e media pf ty e' ret fecs N :
  encoder_ok e -> storable media -> 0 <= pf <= 255 -> Forall (fun p => (length p <= N)%nat) media ->
  EncodeFec e media pf 0 false ty = Ok (e', ret, fecs) -> (fecs = [] <-> pf = 0 \/ (48 < span media)%nat) ->
  Forall (fun fec => length fec <= 32 + (N - 12))%nat fecs.
Proof.
  intros He [Hm Hk Hs _] Hpf HN E Hnil. destruct fecs as [|fec fecs]; [constructor|].
  destruct (decide (pf = 0)) as [->|Hne]; [by discriminate (proj2 Hnil (or_introl eq_refl))|].
  destruct (decide (48 < span media)%nat) as [Hw|Hw]; [by discriminate (proj2 Hnil (or_intror Hw))|].
  destruct (EncodeFec_success (R := Flexfec03.Flexfec03HeaderReader) (own := false) e media pf 0 false ty He Hm Hs)
    as (e2 & fecs2 & masks & _ & E2 & _ & _ & _ & Hl & Hr); [lia..|].
  rewrite E in E2. injection E2 as _ _ <-. apply Forall_lookup. intros r fec' Hfec'.
  destruct (Hr r) as (fec2 & E2 & Hread); [rewrite <- Hl; by eapply lookup_lt_Some|].
  rewrite Hfec' in E2. injection E2 as <-. eapply reads_as_length; [exact Hread|].
  apply Forall_forall. intros p Hp%select_sub. by apply (proj1 (Forall_forall _ _) HN).
Qed.

Section Sender.
Context `{Heap}.

Lemma fec_packet_length f seq_num us fec s :
  fec_packet f seq_num us fec s -> length (wire (packet s)) = (12 + length (ext_bytes (fec_fields f)) + length fec)%nat.
Proof.
  intros [Hs Hp (h & Hh & Hhead) _ _ _ _ _ _ _]. destruct (sendable_split _ Hs) as (-> & _).
  rewrite length_app, Hhead, Hp. cbn [length]. rewrite length_app, Hh. lia.
Qed.

(** An FEC packet of [f] that is no larger than [n]. *)
Definition fec_packet_within (f : t) (n : nat) (s : RtpPacketToSend) : Prop :=
  (exists seq_num us fec, fec_packet f seq_num us fec s) /\ (length (wire (packet s)) <= n)%nat.

(** The FEC packets of one batch. *)
Lemma flush_within media_ssrc f N g s out g' :
  (length (ext_bytes (fec_fields f)) <= header_extensions_size_ f)%nat -> (12 <= N)%nat ->
  g = f \/ (exists o, numbered f o g) -> added_ok media_ssrc (collected (collector g) s) s ->
  Forall (fun p => length p <= N)%nat (UlpfecGenerator.media_packets_ (collected (collector g) s)) ->
  flushed (sends := fun f => fec_packets f 0) g s out g' -> Forall (fec_packet_within f (N + MaxPacketOverhead f)) out.
Proof.
  intros Hfit HN Hg Hadd Hm [(e' & ret & fecs & E & Hnil & Hl & Hp) _ _ _]. cbv zeta in E, Hnil.
  assert (Hc : config g = config f) by (destruct Hg as [->|(o & Hc & _)]; done).
  assert (Hlen : Forall (fun fec => length fec <= 32 + (N - 12))%nat fecs).
  { destruct (collected_types (collector g) s) as (_ & Ee & _). rewrite <- Ee in E.
    eapply sent_batch_length; [apply (ao_encoder _ _ _ Hadd)|apply (ao_batch _ _ _ Hadd)|apply rate_ok, (ao_params _ _ _ Hadd)|exact Hm|exact E|exact Hnil]. }
  apply Forall_lookup. intros i x Hi.
  destruct (lookup_lt_is_Some_2 fecs i) as [fec Hfec]; [rewrite <- Hl; by eapply lookup_lt_Some|].
  destruct (Hp i fec x Hfec Hi) as (us & Hpk). apply (fec_packet_config f g) in Hpk; [|done].
  split; [by eexists _, _, _|]. rewrite (fec_packet_length _ _ _ _ _ Hpk).
  pose proof (proj1 (Forall_lookup _ _) Hlen i fec Hfec) as Hf. cbv beta in Hf.
  unfold MaxPacketOverhead, kFlexfecMaxHeaderSize. lia.
Qed.

Lemma SetProtectionParameters_ready media_ssrc f e delta key :
  sender_ok f -> ulpfec_generator_ f = UlpfecGenerator.new 0 0 e -> encoder_ok e ->
  0 <= fec_rate delta <= 255 -> 0 <= fec_rate key <= 255 ->
  ready media_ssrc (usable := sender_ok) (SetProtectionParameters f delta key) None /\
  UlpfecGenerator.media_packets_ (ulpfec_generator_ (SetProtectionParameters f delta key)) = [].
Proof.
  intros [] Hg He Hd Hk. unfold SetProtectionParameters, ready. cbn. rewrite Hg. split; [|done]. split; [by split|].
  split; try done; [by intros ? [= <-]|by left].
Qed.

End Sender.

(** C18. The FlexFEC stream.  A [FlexfecSender] constructed with any extensions, MID
    and RTP state, any protection parameters (rates of 0 to 255), any stream of
    media packets of at most [N] bytes with numbers that go up by 1 to 1000: no
    call faults; the FEC packets of the whole stream carry consecutive numbers
    modulo 2^16, from the number the RTP state gives (or the random one) on, and
    [GetRtpState] is the next one; each parses as an RTP packet of the FEC
    stream, with the extensions registered, no marker, and its payload type; and
    no FEC packet is longer than the longest media packet by more than
    [MaxPacketOverhead]. *)
Theorem flexfec_sender_stream `{Heap} payload_type ssrc media_ssrc mid extensions state rand_timestamp rand_seq_num e
    delta key ss N :
  0 <= payload_type < 128 -> is_u32 ssrc -> bytes mid -> is_u16 (first_seq state rand_seq_num) -> encoder_ok e ->
  0 <= fec_rate delta <= 255 -> 0 <= fec_rate key <= 255 -> stream media_ssrc None ss -> (12 <= N)%nat ->
  Forall (fun sn => (length (wire (packet sn.1)) <= N)%nat) ss ->
  exists f out f',
    FlexfecSender.new payload_type ssrc media_ssrc mid extensions kFecOrPaddingExtensionSizes state
      rand_timestamp rand_seq_num e = Ok f /\
    run ss ([], SetProtectionParameters f delta key) = Ok (out, f') /\
    map (fun s => RtpPacket.SequenceNumber (packet s)) out =
      map (fun i => u16 (first_seq state rand_seq_num + Z.of_nat i)) (seq 0 (length out)) /\
    sequence_number (GetRtpState f') = u16 (first_seq state rand_seq_num + Z.of_nat (length out)) /\
    Forall (fun s => consistent (packet s) /\ RtpPacket.Ssrc (packet s) = ssrc /\
      RtpPacket.PayloadType (packet s) = payload_type /\ RtpPacket.Marker (packet s) = false /\
      RtpPacket.extension_entries_ (packet s) = infos 16 (fec_fields f) /\
      (length (wire (packet s)) <= N + MaxPacketOverhead f)%nat) out.
Proof.
  intros Hpt Hss Hmid Hseq He Hd Hk Hs HN Hlen.
  destruct (new_sender payload_type ssrc media_ssrc mid extensions state rand_timestamp rand_seq_num e Hpt Hss Hmid Hseq)
    as (f & E & Hf & Ept & Ess & _ & _ & Eseq & Eg & Hfit).
  destruct (SetProtectionParameters_ready media_ssrc f e delta key Hf Eg He Hd Hk) as [Hr Hm].
  set (f0 := SetProtectionParameters f delta key) in *.
  assert (Hbt : between media_ssrc (usable := sender_ok) ([], f0) None) by by split.
  destruct (run_between (VL := flexfec_generator_laws media_ssrc) media_ssrc ss ([], f0) None Hbt Hs) as ([out f'] & Hrun & _ & Hfol & _).
  assert (Hnum : numbered f0 out f').
  { cbn [fst snd app] in Hfol. destruct Hfol as [->|(o & -> & Hn)]; [injection Hrun as <- <-; apply numbered_same; [by apply Hr|done..]|done]. }
  exists f, out, f'. split; [done|]. split; [done|]. destruct Hnum as (_ & Hnext & Hnum).
  change (seq_num_ f0) with (seq_num_ f) in Hnum, Hnext. rewrite Eseq in Hnum, Hnext. split.
  { apply list_eq_same_length with (length out); [by rewrite length_map, length_seq|by rewrite length_map|].
    intros i x y Hi Hx Hy. rewrite list_lookup_fmap in Hx. rewrite list_lookup_fmap in Hy. rewrite lookup_seq_lt in Hy by done. injection Hy as <-.
    destruct (out !! i) as [s|] eqn:Es; [|done]. injection Hx as <-. by apply Hnum. }
  split; [exact Hnext|].
  pose proof (run_sent (VL := flexfec_generator_laws media_ssrc) media_ssrc (fun p => length p <= N)%nat
    (fec_packet_within f0 (N + MaxPacketOverhead f0)) ss ([], f0) None (out, f') Hbt Hs Hrun Hlen) as Hall.
  cbn [fst snd] in Hall. change (ulpfec_generator_ f0) with (collector f0) in Hm. rewrite Hm in Hall.
  eapply Forall_impl; [apply Hall; [constructor..|]|].
  - intros g s out' g' Hg Hadd HQ Hfl. by eapply flush_within.
  - intros s [(seq_num & us & fec & [Hsd _ _ Hssrc Htype Hmk _ _ Hent _]) Hle]. change (fec_fields f0) with (fec_fields f) in *.
    split; [apply Hsd|]. split; [by rewrite Hssrc|]. split; [by rewrite Htype|]. done.
Qed.

(** ** From sender to receiver *)

(** FEC packets of a stream of their own. *)
Lemma numbering_separate media n ssrc fec_ssrc start :
  fec_ssrc <> ssrc -> is_u16 start -> (n <= 48)%nat ->
  numbering_ok (own := false) media n ssrc fec_ssrc (fun r => u16 (start + Z.of_nat r)).
Proof.
  intros Hne Hs Hn.
  assert (Hw : forall r, (r < n)%nat -> WindowSort.in_window start 96 (u16 (start + Z.of_nat r)))
    by (intros r Hr; apply window_offset; [done|lia|lia]).
  split; [done| | | |done].
  - intros r Hr. by apply uw_range.
  - intros r r' Hr Hr' E. cbv beta in E. apply offset_inj in E; [lia|done|lia|lia].
  - intros r r' Hr Hr'. pose proof (MinDiff_window _ _ _ _ (Hw r Hr) (Hw r' Hr')). unfold kOldSequenceThreshold. lia.
Qed.

Definition received_payload (p : RtpPacket.t) : list Z :=
  take (RtpPacket.payload_size p) (drop (RtpPacket.headers_size p) (wire p)).

(** [a] is [q] as it reaches the receiver, for the first time.  On the way out the
    sender fills in extensions that change from hop to hop: a media packet is
    the packet protected once these are zeroed, an FEC packet has its payload. *)
Record reaches (media_ssrc : Z) (q : RtpPacket.t) (a : RtpPacketReceived) : Prop := {
  re_ok : arrival_ok a;
  re_first : recovered a = false;
  re_ssrc : RtpPacket.Ssrc (rtp_packet a) = RtpPacket.Ssrc q;
  re_seq : RtpPacket.SequenceNumber (rtp_packet a) = RtpPacket.SequenceNumber q;
  re_media : RtpPacket.Ssrc q = media_ssrc -> zeroed (rtp_packet a) (wire q);
  re_fec : RtpPacket.Ssrc q <> media_ssrc -> received_payload (rtp_packet a) = payload_bytes q
}.

Lemma reaches_contributes_media ssrc media_ssrc q a :
  sendable q -> RtpPacket.Ssrc q = media_ssrc -> media_ssrc <> ssrc -> reaches media_ssrc q a ->
  contributes ssrc media_ssrc a [as_media (wire q)].
Proof.
  intros [[_ Hr] _] Hs Hne [_ Hrec Es Eq Hz _]. unfold as_media. rewrite <- (reads_ssrc _ _ Hr), <- (reads_seq _ _ Hr), Hs, <- Eq.
  apply contributes_media; [done|congruence|done|by apply Hz].
Qed.

Lemma reaches_contributes_fec f seq_num us media_ssrc fec s a :
  fec_packet f seq_num us fec s -> ssrc_ f <> media_ssrc -> (20 <= length fec)%nat -> reaches media_ssrc (packet s) a ->
  contributes (ssrc_ f) media_ssrc a [as_fec (ssrc_ f) seq_num fec].
Proof.
  intros [_ Hp _ Hss _ _ Hseq _ _ _] Hne Hl [_ Hrec Es Eq _ Hpl]. unfold as_fec.
  rewrite Hss in Es, Hpl. specialize (Hpl Hne). rewrite Hp in Hpl. rewrite <- Hseq, <- Eq, <- Hpl.
  apply contributes_fec; [done|done|]. rewrite <- Hpl in Hl. unfold received_payload in Hl. rewrite length_take in Hl.
  unfold FlexfecReceiver.kMinFlexfecHeaderSize. lia.
Qed.

Section Batch.
Context `{Heap} (ssrc media_ssrc : Z).
Hypothesis Hne : ssrc <> media_ssrc.

(** A new receiver fed with [arrivals]: every packet of [srcs] arrived or is recovered. *)
Definition all_repaired (srcs : list RtpPacketToSend) (arrivals : list RtpPacketReceived) : Prop :=
  exists r out, foldM on_packets arrivals (FlexfecReceiver.new ssrc media_ssrc, []) = Ok (r, out) /\
    (forall s, s ∈ srcs -> (exists a, a ∈ arrivals /\ zeroed (rtp_packet a) (wire (packet s))) \/
       exists o, o ∈ out /\ recovered o = true /\ wire (rtp_packet o) = wire (packet s)) /\
    NoDup (repaired out).

Lemma session_repaired media fecs fec_seq bit session arrivals :
  batch_ok (own := false) media fecs media_ssrc ssrc fec_seq bit ->
  Forall (fun p => exists h, reads p h) media ->
  session ⊆+ transmission media fecs ssrc fec_seq ->
  (forall c, (c < length media)%nat -> position_ok media media_ssrc session c) ->
  Forall arrival_ok arrivals -> Forall2 (fun a rp => contributes ssrc media_ssrc a [rp]) arrivals session ->
  exists r out, foldM on_packets arrivals (FlexfecReceiver.new ssrc media_ssrc, []) = Ok (r, out) /\
    (forall p, p ∈ media -> (exists a, a ∈ arrivals /\ zeroed (rtp_packet a) p) \/
       exists o, o ∈ out /\ recovered o = true /\ wire (rtp_packet o) = p) /\ NoDup (repaired out).
Proof.
  intros Hb Hread Hsub Hpos Hok Hc. pose proof (batch_session _ _ _ _ _ _ Hb session Hsub) as Hse.
  pose proof (batch_stream _ _ _ _ _ _ Hb) as Hst. pose proof (bo_batch _ _ _ _ _ _ Hb) as Hmb.
  assert (Hrtp : forall q p, sent media q = Some p -> exists h, reads p h).
  { intros q p [Hin _]%sent_elem. by apply (proj1 (Forall_forall _ _) Hread). }
  assert (Hparts : Forall2 (contributes ssrc media_ssrc) arrivals (map (fun rp => [rp]) session))
    by (by apply Forall2_fmap_r).
  assert (Hcat : concat (map (fun rp => [rp]) session) = session).
  { clear. induction session as [|rp session IH]; [done|]. cbn. by rewrite IH. }
  destruct (on_packets_settle ssrc media_ssrc (sent media) (base_seq media) Hst Hrtp session Hse arrivals []
    (map (fun rp => [rp]) session) (FlexfecReceiver.new ssrc media_ssrc, [])) as ([r out] & E & [_ _ Hall Hset]);
    [split; [done|done|constructor|apply settled_init]|done|done|by rewrite Hcat|].
  exists r, out. split; [done|]. cbn in Hall, Hset. split; [|apply Hset]. intros p Hp.
  apply list_elem_of_lookup in Hp as Hpos'. destruct Hpos' as [c Hcp].
  pose proof (Hpos c (lookup_lt_Some _ _ _ Hcp) p Hcp) as Hrec.
  eapply (settled_complete media_ssrc (sent media) session) in Hrec; [|exact Hset].
  destruct Hrec as [(rp & Hin & Hf & Hq)|(o & Hq & [Hro Ho]%list_elem_of_filter)%list_elem_of_fmap].
  - left. pose proof (elem_of_submseteq _ _ rp Hin Hsub) as Htr.
    apply (transmission_elem media fecs ssrc fec_seq) in Htr as [(p' & Hp' & ->)|(? & ? & _ & ->)]; [|done].
    assert (p' = p) as -> by by apply (batch_seq_inj media).
    apply list_elem_of_lookup in Hin as [i Hi]. destruct (Forall2_lookup_r _ _ _ _ _ Hc Hi) as (a & Ha & Hca).
    exists a. split; [by eapply list_elem_of_lookup_2|]. by inversion Hca; subst.
  - right. exists o. split; [done|]. split; [done|]. pose proof (set_bytes _ _ _ _ _ _ _ Hset o Ho Hro) as Hw.
    rewrite <- Hq, (sent_self media p Hmb Hp) in Hw. by injection Hw.
Qed.

(** Every datagram sent for the batch contributes its packet. *)
Lemma datagrams_contribute f srcs fecs out :
  ssrc_ f = ssrc -> Forall (fun s => sendable (packet s) /\ RtpPacket.Ssrc (packet s) = media_ssrc) srcs ->
  fec_packets f 0 fecs out -> Forall (fun fec => (20 <= length fec)%nat) fecs ->
  Forall2 (fun s rp => forall a, reaches media_ssrc (packet s) a -> contributes ssrc media_ssrc a [rp]) (srcs ++ out)
    (transmission (map (fun s => wire (packet s)) srcs) fecs ssrc (fun r => u16 (seq_num_ f + Z.of_nat r))).
Proof.
  intros Hs Hsrcs [Hl Hp] Hlen. apply Forall2_app.
  - rewrite !Forall2_fmap_r. apply Forall_Forall2_diag. eapply Forall_impl; [exact Hsrcs|].
    intros s [Hsd Hss] a Ha. by apply reaches_contributes_media.
  - apply Forall2_same_length_lookup. rewrite length_imap. split; [done|]. intros i s rp Hi Hrp.
    rewrite list_lookup_imap in Hrp. destruct (fecs !! i) as [fec|] eqn:Ef; [|done]. injection Hrp as <-.
    destruct (Hp i fec s Ef Hi) as (us & Hpk). intros a Ha. rewrite <- Hs.
    eapply reaches_contributes_fec; [exact Hpk|by rewrite Hs|by apply (proj1 (Forall_lookup _ _) Hlen i)|done].
Qed.

Lemma flex_batch_repaired f s srcs out f' :
  let c := collected (ulpfec_generator_ f) s in
  let media := map (fun s => wire (packet s)) srcs in
  ssrc_ f = ssrc -> is_u16 (seq_num_ f) -> encoder_ok (UlpfecGenerator.fec_ (ulpfec_generator_ f)) ->
  flushed (sends := fun f => fec_packets f 0) f s out f' ->
  UlpfecGenerator.media_packets_ c = media -> 1 <= fec_rate (UlpfecGenerator.CurrentParams c) <= 255 ->
  media_batch media -> (span media <= 48)%nat ->
  Forall (fun s => sendable (packet s) /\ RtpPacket.Ssrc (packet s) = media_ssrc /\ (length (wire (packet s)) <= 1480)%nat) srcs ->
  out <> [] /\ forall lost survivors arrivals,
    survivors ≡ₚ delete lost (srcs ++ out) ->
    Forall2 (fun s a => reaches media_ssrc (packet s) a) survivors arrivals -> all_repaired srcs arrivals.
Proof.
  intros c media Hs Hseq He [(e' & ret & fecs & E & _ & Hout) _ _ _] Hmed Hrate Hmb Hspan Hsrcs.
  cbv zeta in E. cbn [collector flexfec_video_generator] in E. fold c in E. rewrite Hmed in E.
  assert (Hmok : Forall (fun p => media_ok 1480 p /\ rtp_ssrc p = media_ssrc) media).
  { unfold media. rewrite List.Forall_map. eapply Forall_impl; [exact Hsrcs|]. intros x ([Hc _] & Hss & Hl). cbv beta.
    destruct (consistent_size _ Hc) as (_ & Hb & _). pose proof (proj2 Hc) as Hr.
    split; [|by rewrite <- (reads_ssrc _ _ Hr)]. split; [done| |by eapply reads_version].
    destruct Hr as [Hlo _]. unfold kFixedHeaderSize in Hlo. lia. }
  destruct (encoded_batch (R := Flexfec03.Flexfec03HeaderReader) (own := false) _ media _ 0 false
    (fec_mask_type (UlpfecGenerator.CurrentParams c)) media_ssrc He Hmb Hspan Hmok Hrate ltac:(lia))
    as (e2 & fecs2 & masks & Ht & E2 & _ & Hmk & Hk & Hlf & Hb).
  rewrite E in E2. injection E2 as <- -> <-. rewrite <- Hlf in Hb, Hmk.
  specialize (Hb _ _ (numbering_separate media (length fecs) media_ssrc ssrc (seq_num_ f) Hne Hseq ltac:(lia))).
  split; [intros ->; destruct Hout as [Hl _]; cbn in Hl; lia|]. intros lost survivors arrivals Hperm Harr.
  assert (Hlong : Forall (fun fec => (20 <= length fec)%nat) fecs).
  { apply Forall_lookup. intros r fec Hr. destruct (bo_reads _ _ _ _ _ _ Hb r fec Hr) as [Hrd _].
    eapply (reads_as_length _ _ _ _ 1480); [exact Hrd|]. apply Forall_forall. intros p Hp%select_sub.
    destruct (proj1 (Forall_forall _ _) Hmok p Hp) as [[_ Hl _] _]. lia. }
  assert (Hsd : Forall (fun s => sendable (packet s) /\ RtpPacket.Ssrc (packet s) = media_ssrc) srcs)
    by (eapply Forall_impl; [exact Hsrcs|]; by intros x (? & ? & _)).
  destruct (survivors_session (fun s a => reaches media_ssrc (packet s) a)
    (fun a rp => contributes ssrc media_ssrc a [rp]) _ _ lost survivors arrivals
    (datagrams_contribute f srcs fecs out Hs Hsd Hout Hlong) Hperm Harr) as (session & Hps & Hc). fold media in Hps.
  assert (Hburst : after_burst media fecs ssrc (fun r => u16 (seq_num_ f + Z.of_nat r)) lost 1 session).
  { unfold after_burst. rewrite Hps, delete_take_drop. by rewrite Nat.add_1_r. }
  destruct (session_repaired media fecs _ _ session arrivals Hb) as (r & rec & Er & Hall & Hnd); [..|done|].
  - unfold media. rewrite List.Forall_map. eapply Forall_impl; [exact Hsd|]. intros x [[[_ Hr] _] _]. by exists (packet x).
  - by eapply after_burst_sub.
  - exact (single_loss_positions (R := Flexfec03.Flexfec03HeaderReader) (own := false) media fecs media_ssrc ssrc _ masks 0 false _ lost session Ht Hmk Hk ltac:(lia) Hb Hburst).
  - eapply Forall2_Forall_r; [exact Harr|]. apply Forall_true. by intros x a [].
  - exists r, rec. split; [done|]. split; [|done]. intros x Hx. apply Hall. apply list_elem_of_fmap. by exists x.
Qed.

End Batch.

(** C2. From FlexFEC sender to FlexFEC receiver.  Frames of media packets go to a
    [FlexfecSender] that has collected nothing, with protection switched on.
    Within [max_fec_frames] frames a first batch [srcs] is complete: no call
    faults, and the sender is empty again and ready for the rest of the stream.
    When the batch is no larger than 48 packets and sequence numbers, FEC packets
    come with it, on their own stream.  Whatever single datagram is lost, and in
    whatever order the others reach a new [FlexfecReceiver], with the extensions
    that change on the way filled in: every media packet of the batch has
    arrived, or the callback gets it, byte for byte, and nothing twice. *)
Theorem flexfec_end_to_end `{Heap} f prev ss :
  let media_ssrc := protected_media_ssrc_ f in
  ready media_ssrc (usable := sender_ok) f prev -> UlpfecGenerator.media_packets_ (ulpfec_generator_ f) = [] ->
  ssrc_ f <> media_ssrc -> stream media_ssrc prev ss ->
  Forall (fun sn => (length (wire (packet sn.1)) <= 1480)%nat) ss ->
  let params := next_params (ulpfec_generator_ f) in
  1 <= fec_rate (UlpfecGenerator.delta_params params) -> 1 <= fec_rate (UlpfecGenerator.keyframe_params params) ->
  max_frames params <= complete_frames ss -> 0 < complete_frames ss ->
  exists srcs rest out f' prev', ss = srcs ++ rest /\ srcs <> [] /\ run srcs ([], f) = Ok (out, f') /\
    ready media_ssrc (usable := sender_ok) f' prev' /\ UlpfecGenerator.media_packets_ (ulpfec_generator_ f') = [] /\
    stream media_ssrc prev' rest /\
    ((length srcs <= 48)%nat -> (span (wires srcs) <= 48)%nat ->
     out <> [] /\ forall lost survivors arrivals,
       survivors ≡ₚ delete lost (map fst srcs ++ out) ->
       Forall2 (fun s a => reaches media_ssrc (packet s) a) survivors arrivals ->
       all_repaired (ssrc_ f) media_ssrc (map fst srcs) arrivals).
Proof.
  intros media_ssrc Hr Hm Hne Hs Hlen params Hd Hk Hle Hpos.
  destruct (first_batch (VL := flexfec_generator_laws media_ssrc) media_ssrc f prev ss Hr Hm Hs Hle Hpos)
    as (before & sn & rest & f0 & out & f' & -> & Hrun & Hadd & Hfl & Hmed & Hf0 & Hu0 & _ & Ec & prev' & Hr' & Hrest).
  assert (Hconf : config f0 = config f) by (destruct Hf0 as [->|[? _]]; done).
  exists (before ++ [sn]), rest, out, f', prev'. split; [by rewrite <- (assoc_L (++))|]. split; [by destruct before|].
  split; [done|]. split; [done|]. split; [exact (fl_media _ _ _ _ Hfl)|]. split; [done|]. intros Hl Hspan.
  assert (Hsent : Forall (fun s => sendable (packet s) /\ RtpPacket.Ssrc (packet s) = media_ssrc /\
    (length (wire (packet s)) <= 1480)%nat) (map fst (before ++ [sn]))).
  { rewrite (cons_middle sn), (assoc_L (++)) in Hs, Hlen. apply stream_prefix in Hs. apply Forall_app in Hlen as [Hlen _].
    clear -Hs Hlen. revert prev Hs. induction Hlen as [|x l Hx _ IH]; intros prev Hs; [constructor|].
    destruct Hs as [(Hsd & _ & Hss & _) Hs]. cbn [map]. constructor; [done|by eapply IH]. }
  rewrite (take_ge (wires _)) in Hmed by (unfold wires; by rewrite length_map).
  unfold wires in *. rewrite <- (map_map fst (fun s => wire (packet s))) in *.
  destruct (collected_types (collector f0) sn.1) as (_ & Ee & _).
  assert (Ess : ssrc_ f0 = ssrc_ f) by by injection Hconf.
  eapply (flex_batch_repaired (ssrc_ f) media_ssrc Hne f0 sn.1); [done|apply Hu0| |exact Hfl|exact Hmed| | |exact Hspan|exact Hsent].
  - change (ulpfec_generator_ f0) with (collector f0). rewrite <- Ee. apply (ao_encoder _ _ _ Hadd).
  - pose proof (rate_ok _ (ao_params _ _ _ Hadd)) as Hrt. unfold UlpfecGenerator.CurrentParams in *. cbn [collector flexfec_video_generator] in *.
    rewrite Ec in *. fold params in Hrt |- *. destruct (UlpfecGenerator.media_contains_keyframe_ _); lia.
  - rewrite <- Hmed. apply (bk_batch _ (ao_batch _ _ _ Hadd)).
Qed.

(** ** Witnesses: the frame of two packets, protected by FlexFEC *)

#[local] Abbreviation flex_generator := (flexfec_video_generator (H := zero_heap)).

Definition flex_video : list (RtpPacketToSend * (nat -> Z)) :=
  [(to_send video_a, fun _ => 0); (to_send video_b, fun i => 5000 + Z.of_nat i)].

Definition flex_extensions : list (Z * string) :=
  [(3, uri_of kRtpExtensionAbsoluteSendTime); (5, uri_of kRtpExtensionMid)].

Definition flex_mid : list Z := [118; 48].

Definition flex_map : RtpHeaderExtensionMap.t :=
  match RegisterSupportedExtensions flex_extensions with Ok m => m | Fault _ => RtpHeaderExtensionMap.new false end.

Definition flex_sender : t :=
  SetProtectionParameters
    (mk MinusInfinity 110 1000 33 9 flex_mid 77 (UlpfecGenerator.new 0 0 encoder0) flex_map 28 (BitrateTracker.new 1000))
    video_params video_params.

Lemma flex_video_stream : stream 9 None flex_video.
Proof. exact video_stream. Qed.

Lemma flex_video_short N : (16 <= N)%nat -> Forall (fun sn => (length (wire (packet sn.1)) <= N)%nat) flex_video.
Proof.
  intros HN. repeat (apply Forall_cons_2; [eapply Nat.le_trans; [|exact HN]; compute_le|]). constructor.
Qed.

Lemma flexfec_sender_stream_witness :
  exists f out f',
    FlexfecSender.new 110 33 9 flex_mid flex_extensions kFecOrPaddingExtensionSizes None 1000 77 encoder0 = Ok f /\
    run (VG := flex_generator) flex_video ([], SetProtectionParameters f video_params video_params) = Ok (out, f') /\
    Forall (fun s => (length (wire (packet s)) <= 16 + MaxPacketOverhead f)%nat) out.
Proof.
  destruct (flexfec_sender_stream (H := zero_heap) 110 33 9 flex_mid flex_extensions None 1000 77 encoder0
    video_params video_params flex_video 16 ltac:(lia) ltac:(by vm_compute) ltac:(compute_bytes) ltac:(by vm_compute)
    encoder0_ok ltac:(cbn; lia) ltac:(cbn; lia) flex_video_stream ltac:(lia) (flex_video_short 16 ltac:(lia)))
    as (f & out & f' & E & Hrun & _ & _ & Hall).
  exists f, out, f'. split; [exact E|]. split; [exact Hrun|]. eapply Forall_impl; [exact Hall|]. by intros s (_ & _ & _ & _ & _ & ?).
Defined.

Lemma flex_map_ok : map_ok flex_map /\ RtpHeaderExtensionMap.ExtmapAllowMixed flex_map = false.
Proof. unfold flex_map. by destruct (RegisterSupportedExtensions_ok flex_extensions) as (m & -> & ? & ?). Qed.

Lemma flex_sender_ready : ready 9 (usable := sender_ok) flex_sender None.
Proof.
  destruct flex_map_ok as [Hm Hmix].
  apply (SetProtectionParameters_ready 9 _ encoder0); [|done|apply encoder0_ok|cbn; lia..].
  split; [cbn; lia|by vm_compute|by vm_compute|compute_bytes|exact Hm|exact Hmix].
Qed.

(** The FEC packet; on the way its absolute send time is filled in. *)
Definition flex_fec (send_time : list Z) : list Z :=
  [144; 110; 0; 77; 0; 0; 5; 170; 0; 0; 0; 33; 190; 222; 0; 2; 50] ++ send_time ++
  [81; 118; 48; 0; 0; 128; 0; 7; 0; 0; 0; 0; 1; 0; 0; 0; 0; 0; 0; 9; 0; 5; 224; 0; 34; 38; 34; 70].

Definition flex_arrivals : list RtpPacketReceived :=
  [datagram (H := zero_heap) flex_map (flex_fec [1; 2; 3]);
   datagram (H := zero_heap) (RtpHeaderExtensionMap.new false) video_a].

Definition sent_wires (st : res (list RtpPacketToSend * t)) : list (list Z * Z * Z * list Z) :=
  match st with
  | Ok (out, _) => map (fun s => (wire (packet s), RtpPacket.Ssrc (packet s), RtpPacket.SequenceNumber (packet s),
                                  payload_bytes (packet s))) out
  | Fault _ => []
  end.

Lemma flex_sent :
  sent_wires (run (VG := flex_generator) flex_video ([], flex_sender)) =
    [(flex_fec [0; 0; 0], 33, 77, drop 24 (flex_fec [0; 0; 0]))].
Proof. vm_compute. reflexivity. Qed.

Lemma flex_fec_reaches s :
  RtpPacket.Ssrc (packet s) = 33 -> RtpPacket.SequenceNumber (packet s) = 77 ->
  payload_bytes (packet s) = drop 24 (flex_fec [0; 0; 0]) ->
  reaches 9 (packet s) (datagram (H := zero_heap) flex_map (flex_fec [1; 2; 3])).
Proof.
  intros Hs Hq Hp. split; rewrite ?Hs, ?Hq, ?Hp; try (vm_compute; reflexivity).
  - apply datagram_arrival; [apply flex_map_ok|compute_bytes].
  - done.
Qed.

Lemma flex_media_reaches :
  reaches 9 (packet (to_send video_a)) (datagram (H := zero_heap) (RtpHeaderExtensionMap.new false) video_a).
Proof.
  destruct (video_sendable video_a ltac:(left)) as (_ & Hw & Hs & _). split; rewrite ?Hw, ?Hs; try (vm_compute; reflexivity).
  - apply datagram_arrival; [apply RtpExtensions.new_ok|compute_bytes].
  - intros _. assert (E : wire (rtp_packet (datagram (H := zero_heap) (RtpHeaderExtensionMap.new false) video_a)) = video_a)
      by (vm_compute; reflexivity).
    rewrite <- E at 2. apply zeroed_plain. unfold no_mutable. vm_compute. constructor.
Qed.

Lemma flexfec_end_to_end_witness :
  exists r out, foldM (on_packets (H := zero_heap)) flex_arrivals (FlexfecReceiver.new 33 9, []) = Ok (r, out) /\
    repaired out = [6] /\ forall s, s ∈ map fst flex_video ->
      (exists a, a ∈ flex_arrivals /\ zeroed (rtp_packet a) (wire (packet s))) \/
      exists o, o ∈ out /\ recovered o = true /\ wire (rtp_packet o) = wire (packet s).
Proof.
  destruct (flexfec_end_to_end (H := zero_heap) flex_sender None flex_video flex_sender_ready eq_refl ltac:(done)
    flex_video_stream (flex_video_short 1480 ltac:(compute_le)) ltac:(vm_compute; discriminate) ltac:(vm_compute; discriminate)
    ltac:(vm_compute; discriminate) ltac:(vm_compute; reflexivity))
    as (srcs & rest & out & f' & prev' & E & Hne & Hrun & _ & Hm & _ & Hloss).
  destruct srcs as [|sa [|sb [|sc srcs]]]; [done| | |done].
  - injection E as <- _. exfalso. revert Hm.
    assert (Hc : match run (VG := flex_generator) [(to_send video_a, fun _ => 0)] ([], flex_sender) with
      | Ok st => length (UlpfecGenerator.media_packets_ (ulpfec_generator_ st.2)) | Fault _ => 0%nat end = 1%nat) by (vm_compute; reflexivity).
    rewrite Hrun in Hc. cbn in Hc. intros Hm. rewrite Hm in Hc. done.
  - injection E as <- <- _. fold flex_video in Hrun, Hloss.
    destruct (Hloss ltac:(compute_le) ltac:(compute_le)) as [_ Hlr].
    pose proof flex_sent as Hsent. rewrite Hrun in Hsent. cbn [sent_wires] in Hsent.
    destruct out as [|s [|]]; try discriminate Hsent. injection Hsent as _ Hs Hq Hp.
    destruct (Hlr 1%nat [s; to_send video_a] flex_arrivals) as (r & rec & Er & Hall & _).
    + cbn [delete list_delete map app fst flex_video]. apply Permutation_swap.
    + apply Forall2_cons_2; [exact (flex_fec_reaches s Hs Hq Hp)|].
      apply Forall2_cons_2; [exact flex_media_reaches|apply Forall2_nil_2].
    + assert (Hr : match foldM (on_packets (H := zero_heap)) flex_arrivals (FlexfecReceiver.new 33 9, []) with
        | Ok (_, o) => repaired o | Fault _ => [] end = [6]) by (vm_compute; reflexivity).
      change (ssrc_ flex_sender) with 33 in Er. change (protected_media_ssrc_ flex_sender) with 9 in Er.
      rewrite Er in Hr. exists r, rec. split; [exact Er|]. split; [exact Hr|exact Hall].
Defined.
