(* ===== verification/Galois.v ===== *)
(** * Galois: the field arithmetic of the Reed-Solomon code

    [RS_FEC/Galois/galois.h] declares the operations of GF-Complete; the code
    behind them is not part of the repository (a prebuilt object file), so they
    are an interface here: the functions the Reed-Solomon code calls, for the
    field of 256 elements ([w = 8]), and the laws of that field.  Addition is
    exclusive or.  [gf256], arithmetic modulo x^8+x^4+x^3+x^2+1 (the default
    polynomial of GF-Complete), is an instance. *)

From S2P Require Import Prelude.

Class Galois : Type := {
  galois_single_multiply : Z -> Z -> Z;
  galois_single_divide : Z -> Z -> Z
}.

Class GaloisLaws (G : Galois) : Prop := {
  gf_byte a b : is_byte a -> is_byte b -> is_byte (galois_single_multiply a b);
  gf_comm a b : is_byte a -> is_byte b -> galois_single_multiply a b = galois_single_multiply b a;
  gf_assoc a b c : is_byte a -> is_byte b -> is_byte c ->
    galois_single_multiply a (galois_single_multiply b c) =
    galois_single_multiply (galois_single_multiply a b) c;
  gf_one a : is_byte a -> galois_single_multiply 1 a = a;
  gf_distr a b c : is_byte a -> is_byte b -> is_byte c ->
    galois_single_multiply a (Z.lxor b c) =
    Z.lxor (galois_single_multiply a b) (galois_single_multiply a c);
  gf_divide a b : is_byte a -> is_byte b -> b <> 0 ->
    is_byte (galois_single_divide a b) /\ galois_single_multiply (galois_single_divide a b) b = a
}.

(** Powers. *)
Fixpoint gf_pow `{Galois} (a : Z) (n : nat) : Z :=
  match n with O => 1 | S n => galois_single_multiply (gf_pow a n) a end.

(** The element 2 generates the field. *)
Class GaloisGenerator (G : Galois) : Prop :=
  gf_order n : (0 < n < 255)%nat -> gf_pow 2 n <> 1.

(** ** Sums *)

Definition gf_sum (f : nat -> Z) (n : nat) : Z := foldr (fun i acc => Z.lxor (f i) acc) 0 (seq 0 n).

Lemma lxor_foldr (f : nat -> Z) l a :
  foldr (fun i acc => Z.lxor (f i) acc) a l = Z.lxor (foldr (fun i acc => Z.lxor (f i) acc) 0 l) a.
Proof. induction l as [|i l IH]; cbn; [done|]. by rewrite IH, Z.lxor_assoc. Qed.

Lemma gf_sum_S f n : gf_sum f (S n) = Z.lxor (gf_sum f n) (f n).
Proof.
  unfold gf_sum. rewrite seq_S, foldr_app, lxor_foldr. cbn. by rewrite Z.lxor_0_r.
Qed.

Lemma gf_sum_ext f g n : (forall i, (i < n)%nat -> f i = g i) -> gf_sum f n = gf_sum g n.
Proof.
  induction n as [|n IH]; intros E; [done|]. rewrite !gf_sum_S, IH, E by auto with lia. done.
Qed.

Lemma gf_sum_zero n : gf_sum (fun _ => 0) n = 0.
Proof. induction n as [|n IH]; [done|]. by rewrite gf_sum_S, IH. Qed.

Lemma lxor_shuffle a b c d : Z.lxor (Z.lxor a b) (Z.lxor c d) = Z.lxor (Z.lxor a c) (Z.lxor b d).
Proof.
  rewrite !Z.lxor_assoc. f_equal. rewrite <- !Z.lxor_assoc. f_equal. apply Z.lxor_comm.
Qed.

Lemma gf_sum_lxor f g n : gf_sum (fun i => Z.lxor (f i) (g i)) n = Z.lxor (gf_sum f n) (gf_sum g n).
Proof.
  induction n as [|n IH]; [done|]. rewrite !gf_sum_S, IH. apply lxor_shuffle.
Qed.

Lemma gf_sum_swap f n m : gf_sum (fun i => gf_sum (fun j => f i j) m) n = gf_sum (fun j => gf_sum (fun i => f i j) n) m.
Proof.
  induction n as [|n IH]; [symmetry; apply gf_sum_zero|]. rewrite gf_sum_S, IH, <- gf_sum_lxor.
  apply gf_sum_ext. intros j _. by rewrite gf_sum_S.
Qed.

(** One term. *)
Lemma gf_sum_single f n k :
  (k < n)%nat -> (forall i, (i < n)%nat -> i <> k -> f i = 0) -> gf_sum f n = f k.
Proof.
  induction n as [|n IH]; intros Hk E; [lia|]. rewrite gf_sum_S. destruct (decide (k = n)) as [->|Hne].
  - rewrite (gf_sum_ext _ (fun _ => 0)), gf_sum_zero by (intros; apply E; lia). done.
  - rewrite (E n), Z.lxor_0_r by lia. apply IH; [lia|]. intros; apply E; lia.
Qed.

Section Laws.
Context {G : Galois} {GL : GaloisLaws G}.

Lemma byte_zero : is_byte 0.
Proof. by vm_compute. Qed.
Lemma byte_one : is_byte 1.
Proof. by vm_compute. Qed.
Lemma byte_lxor a b : is_byte a -> is_byte b -> is_byte (Z.lxor a b).
Proof. apply lxor_in_uw. lia. Qed.

Lemma gf_zero_r a : is_byte a -> galois_single_multiply a 0 = 0.
Proof.
  intros Ha. rewrite <- (Z.lxor_nilpotent 0) at 1. rewrite gf_distr by (done || apply byte_zero).
  apply Z.lxor_nilpotent.
Qed.

Lemma gf_zero_l a : is_byte a -> galois_single_multiply 0 a = 0.
Proof. intros Ha. rewrite gf_comm by (done || apply byte_zero). by apply gf_zero_r. Qed.

Lemma gf_one_r a : is_byte a -> galois_single_multiply a 1 = a.
Proof. intros Ha. rewrite gf_comm by (done || apply byte_one). by apply gf_one. Qed.

Lemma gf_distr_l a b c : is_byte a -> is_byte b -> is_byte c ->
  galois_single_multiply (Z.lxor a b) c = Z.lxor (galois_single_multiply a c) (galois_single_multiply b c).
Proof.
  intros Ha Hb Hc. rewrite gf_comm by (done || by apply byte_lxor). rewrite gf_distr by done.
  by rewrite (gf_comm c a), (gf_comm c b).
Qed.

(** A field has no zero divisors. *)
Lemma gf_integral a b : is_byte a -> is_byte b -> galois_single_multiply a b = 0 -> a = 0 \/ b = 0.
Proof.
  intros Ha Hb E. destruct (decide (b = 0)) as [|Hne]; [by right|]. left.
  destruct (gf_divide 1 b byte_one Hb Hne) as [Hd Ed].
  rewrite <- (gf_one_r a Ha), <- Ed, (gf_comm _ b), gf_assoc, E by done. by apply gf_zero_l.
Qed.

Lemma gf_sum_byte f n : (forall i, (i < n)%nat -> is_byte (f i)) -> is_byte (gf_sum f n).
Proof.
  induction n as [|n IH]; intros Hf; [apply byte_zero|]. rewrite gf_sum_S. apply byte_lxor; auto with lia.
Qed.

Lemma gf_sum_mul_l a f n : is_byte a -> (forall i, (i < n)%nat -> is_byte (f i)) ->
  gf_sum (fun i => galois_single_multiply a (f i)) n = galois_single_multiply a (gf_sum f n).
Proof.
  intros Ha. induction n as [|n IH]; intros Hf; [by rewrite gf_zero_r|].
  rewrite !gf_sum_S, IH, gf_distr by (auto with lia; apply gf_sum_byte; auto with lia). done.
Qed.

Lemma gf_sum_mul_r a f n : is_byte a -> (forall i, (i < n)%nat -> is_byte (f i)) ->
  gf_sum (fun i => galois_single_multiply (f i) a) n = galois_single_multiply (gf_sum f n) a.
Proof.
  intros Ha Hf. rewrite gf_comm by (done || by apply gf_sum_byte). rewrite <- gf_sum_mul_l by done.
  apply gf_sum_ext. intros i Hi. apply gf_comm; auto.
Qed.

Lemma gf_pow_byte a n : is_byte a -> is_byte (gf_pow a n).
Proof. intros Ha. induction n as [|n IH]; cbn; [apply byte_one|by apply gf_byte]. Qed.

Lemma gf_pow_add a n m : is_byte a -> gf_pow a (n + m) = galois_single_multiply (gf_pow a n) (gf_pow a m).
Proof.
  intros Ha. pose proof (gf_pow_byte a) as Hb. induction m as [|m IH].
  - by rewrite Nat.add_0_r, gf_one_r by auto.
  - rewrite Nat.add_succ_r. cbn. rewrite IH, gf_assoc by auto. done.
Qed.

Lemma gf_pow_mul a n m : is_byte a -> gf_pow a (n * m) = gf_pow (gf_pow a n) m.
Proof.
  intros Ha. induction m as [|m IH]; [by rewrite Nat.mul_0_r|].
  rewrite Nat.mul_succ_r, gf_pow_add by done. cbn. by rewrite IH.
Qed.

Lemma gf_pow_nonzero a n : is_byte a -> a <> 0 -> gf_pow a n <> 0.
Proof.
  intros Ha Hne. induction n as [|n IH]; [done|]. cbn. intros [E|E]%gf_integral; try done. by apply gf_pow_byte.
Qed.

Lemma gf_cancel a b c : is_byte a -> is_byte b -> is_byte c -> a <> 0 ->
  galois_single_multiply a b = galois_single_multiply a c -> b = c.
Proof.
  intros Ha Hb Hc Hne E. apply Z.lxor_eq. apply (f_equal (fun x => Z.lxor x (galois_single_multiply a c))) in E.
  rewrite Z.lxor_nilpotent, <- gf_distr in E by done.
  apply gf_integral in E as [?|?]; [done|done|done|by apply byte_lxor].
Qed.

End Laws.

(** ** The field modulo x^8+x^4+x^3+x^2+1 *)

Module Gf256.

Definition xtime (b : Z) : Z := Z.lxor (Z.shiftl b 1) (if Z.testbit b 7 then 0x11d else 0).

Definition multiply (a b : Z) : Z :=
  gf_sum (fun i => if Z.testbit a (Z.of_nat i) then Nat.iter i xtime b else 0) 8.

Definition invert (b : Z) : Z := Nat.iter 253 (multiply b) b.
Definition divide (a b : Z) : Z := multiply a (invert b).

(** Every byte. *)
Definition all_bytes : list Z := map Z.of_nat (seq 0 256).

Lemma all_bytes_elem b : is_byte b -> b ∈ all_bytes.
Proof.
  unfold in_uw. change (2 ^ 8) with 256. intros Hb. apply list_elem_of_fmap. exists (Z.to_nat b).
  split; [lia|]. apply elem_of_seq. lia.
Qed.

Lemma bytes_check (P : Z -> bool) : forallb P all_bytes = true -> forall b, is_byte b -> P b = true.
Proof.
  intros H b Hb. rewrite forallb_forall in H. apply H. apply list_elem_of_In. by apply all_bytes_elem.
Qed.

Definition in_range (b : Z) : bool := (0 <=? b) && (b <? 256).

Lemma in_range_byte b : in_range b = true <-> is_byte b.
Proof.
  unfold in_range, in_uw. change (2 ^ 8) with 256. rewrite andb_true_iff, Z.leb_le, Z.ltb_lt. done.
Qed.

Lemma xtime_byte b : is_byte b -> is_byte (xtime b).
Proof. intros Hb. apply in_range_byte. revert b Hb. apply bytes_check. vm_compute. reflexivity. Qed.

Lemma xtimes_byte i b : is_byte b -> is_byte (Nat.iter i xtime b).
Proof. intros Hb. induction i as [|i IH]; [done|]. rewrite Nat.iter_succ. by apply xtime_byte. Qed.

Lemma xtime_lxor a b : xtime (Z.lxor a b) = Z.lxor (xtime a) (xtime b).
Proof.
  unfold xtime. rewrite Z.shiftl_lxor, Z.lxor_spec, lxor_shuffle. f_equal.
  by destruct (Z.testbit a 7), (Z.testbit b 7).
Qed.

Lemma xtimes_lxor i a b : Nat.iter i xtime (Z.lxor a b) = Z.lxor (Nat.iter i xtime a) (Nat.iter i xtime b).
Proof. induction i as [|i IH]; [done|]. by rewrite !Nat.iter_succ, IH, xtime_lxor. Qed.

Lemma multiply_byte a b : is_byte b -> is_byte (multiply a b).
Proof.
  intros Hb. apply gf_sum_byte. intros i _. destruct (Z.testbit a _); [by apply xtimes_byte|apply byte_zero].
Qed.

Lemma multiply_lxor_r a b c : multiply a (Z.lxor b c) = Z.lxor (multiply a b) (multiply a c).
Proof.
  unfold multiply. rewrite <- gf_sum_lxor. apply gf_sum_ext. intros i _.
  destruct (Z.testbit a _); [apply xtimes_lxor|done].
Qed.

Lemma multiply_lxor_l a b c : multiply (Z.lxor a b) c = Z.lxor (multiply a c) (multiply b c).
Proof.
  unfold multiply. rewrite <- gf_sum_lxor. apply gf_sum_ext. intros i _. rewrite Z.lxor_spec.
  destruct (Z.testbit a _), (Z.testbit b _); cbn; by rewrite ?Z.lxor_0_r, ?Z.lxor_0_l, ?Z.lxor_nilpotent.
Qed.

(** A property of all bytes that is additive holds if it holds for the bits. *)
Definition basis : list Z := [0; 1; 2; 4; 8; 16; 32; 64; 128].

Lemma additive_ind (P : Z -> Prop) :
  (forall b, b ∈ basis -> P b) -> (forall a b, is_byte a -> is_byte b -> P a -> P b -> P (Z.lxor a b)) ->
  forall b, is_byte b -> P b.
Proof.
  intros Hbase Hadd b Hb. set (bit := fun i => if Z.testbit b (Z.of_nat i) then 2 ^ Z.of_nat i else 0).
  assert (E : b = gf_sum bit 8).
  { apply Z.eqb_eq. revert b Hb bit. apply (bytes_check (fun b =>
      b =? gf_sum (fun i => if Z.testbit b (Z.of_nat i) then 2 ^ Z.of_nat i else 0) 8)). vm_compute. reflexivity. }
  assert (Hbit : forall i, (i < 8)%nat -> P (bit i) /\ is_byte (bit i)).
  { intros i Hi. assert (bit i ∈ basis) as Hin.
    { unfold bit. destruct (Z.testbit b (Z.of_nat i)); [|left].
      do 8 (destruct i as [|i]; [unfold basis; cbn; rewrite !elem_of_cons; auto 12|]). lia. }
    split; [by apply Hbase|]. apply in_range_byte.
    assert (Hall : forallb in_range basis = true) by reflexivity.
    rewrite forallb_forall in Hall. by apply Hall, list_elem_of_In. }
  rewrite E. clear E. assert (Hn : (8 <= 8)%nat) by lia. revert Hn. generalize 8%nat at 1 3. intros n.
  enough (Hs : (n <= 8)%nat -> P (gf_sum bit n) /\ is_byte (gf_sum bit n)) by (intros ?; by apply Hs).
  induction n as [|n IH]; intros Hn; [split; [apply Hbase; left|apply byte_zero]|].
  destruct IH as [IH1 IH2]; [lia|]. destruct (Hbit n Hn) as [H1 H2]. rewrite gf_sum_S.
  split; [by apply Hadd|by apply byte_lxor].
Qed.

Lemma basis_check3 (P : Z -> Z -> Z -> bool) :
  forallb (fun a => forallb (fun b => forallb (P a b) basis) basis) basis = true ->
  forall a b c, a ∈ basis -> b ∈ basis -> c ∈ basis -> P a b c = true.
Proof.
  rewrite forallb_forall. intros H a b c Ha%list_elem_of_In Hb%list_elem_of_In Hc%list_elem_of_In.
  specialize (H a Ha). rewrite forallb_forall in H. specialize (H b Hb). rewrite forallb_forall in H. by apply H.
Qed.

Lemma multiply_comm a b : is_byte a -> is_byte b -> multiply a b = multiply b a.
Proof.
  intros Ha Hb. revert a Ha. apply additive_ind.
  2:{ intros a a' _ _ E E'. by rewrite multiply_lxor_l, multiply_lxor_r, E, E'. }
  intros a Ha. revert b Hb. apply additive_ind.
  2:{ intros b b' _ _ E E'. by rewrite multiply_lxor_l, multiply_lxor_r, E, E'. }
  intros b Hb. apply Z.eqb_eq.
  apply (basis_check3 (fun a b _ => multiply a b =? multiply b a)) with (c := 0); [|done|done|left].
  vm_compute. reflexivity.
Qed.

Lemma multiply_assoc a b c : is_byte a -> is_byte b -> is_byte c ->
  multiply a (multiply b c) = multiply (multiply a b) c.
Proof.
  intros Ha Hb Hc. revert a Ha. apply additive_ind.
  2:{ intros a a' _ _ E E'. by rewrite !multiply_lxor_l, E, E'. }
  intros a Ha. revert b Hb. apply additive_ind.
  2:{ intros b b' _ _ E E'. by rewrite !multiply_lxor_l, !multiply_lxor_r, multiply_lxor_l, E, E'. }
  intros b Hb. revert c Hc. apply additive_ind.
  2:{ intros c c' _ _ E E'. by rewrite !multiply_lxor_r, E, E'. }
  intros c Hc. apply Z.eqb_eq.
  apply (basis_check3 (fun a b c => multiply a (multiply b c) =? multiply (multiply a b) c)); [|done..].
  vm_compute. reflexivity.
Qed.

End Gf256.

#[export] Instance gf256 : Galois := {|
  galois_single_multiply := Gf256.multiply;
  galois_single_divide := Gf256.divide
|}.

#[export] Instance gf256_laws : GaloisLaws gf256.
Proof.
  split.
  - intros a b _ Hb. by apply Gf256.multiply_byte.
  - apply Gf256.multiply_comm.
  - apply Gf256.multiply_assoc.
  - intros a Ha. apply Z.eqb_eq. revert a Ha. apply (Gf256.bytes_check (fun a => Gf256.multiply 1 a =? a)).
    vm_compute. reflexivity.
  - intros a b c _ _ _. apply Gf256.multiply_lxor_r.
  - intros a b Ha Hb Hne. change (galois_single_divide a b) with (Gf256.multiply a (Gf256.invert b)).
    change galois_single_multiply with Gf256.multiply.
    assert (Hinv : Gf256.in_range (Gf256.invert b) && ((b =? 0) || (Gf256.multiply (Gf256.invert b) b =? 1)) = true).
    { revert b Hb Hne. intros b Hb _. revert b Hb. apply Gf256.bytes_check. vm_compute. reflexivity. }
    apply andb_true_iff in Hinv as [Hi%Gf256.in_range_byte [?%Z.eqb_eq|Hone%Z.eqb_eq]%orb_true_iff]; [done|].
    split; [by apply Gf256.multiply_byte|].
    rewrite <- Gf256.multiply_assoc, Hone, Gf256.multiply_comm by (done || apply byte_one).
    apply Z.eqb_eq. revert a Ha. apply (Gf256.bytes_check (fun a => Gf256.multiply 1 a =? a)).
    vm_compute. reflexivity.
Qed.

#[export] Instance gf256_generator : GaloisGenerator gf256.
Proof.
  intros n Hn. assert (Hall : forallb (fun n => negb (gf_pow 2 n =? 1)) (seq 1 254) = true)
    by (vm_compute; reflexivity).
  rewrite forallb_forall in Hall. assert (Hin : In n (seq 1 254)) by (apply in_seq; lia).
  apply Hall, negb_true_iff, Z.eqb_neq in Hin. exact Hin.
Qed.
