(* ===== verification/ReedSolMatrix.v ===== *)
(** * ReedSolMatrix: [examples/customizationFEC/RS_FEC/reed_sol_matrix.cc]

    Coding and decoding matrices of the Reed-Solomon code, as flat byte arrays
    with the index arithmetic of the source, and
    [RS_forward_error_correction_internal.cc], which chooses the base numbers.

    [malloc] succeeds; its contents are those of the [Heap].  The arrays
    [s_list] and [r_list] with their counters are lists that fault when they
    grow past their capacity; [v_list], which is only written, is left out.  A
    [std::bitset] is an integer, read with [Z.testbit].  [NULL] is [None]. *)

From S2P Require Import Prelude.
From S2P Require Import CowBuffer.
From S2P Require Import Galois.

Section Matrix.
Context `{Heap} {G : Galois}.

(** ** Coding matrices *)

(** [tmp] runs through the powers of [mul_num]. *)
Definition power_row (vdm : list Z) (offset cols : nat) (mul_num : Z) : res (list Z) :=
  let! (vdm, _) := foldM (fun '(vdm, tmp) j =>
      let! vdm := buf_set vdm (offset + j) tmp in
      Ok (vdm, galois_single_multiply tmp mul_num)) (seq 0 cols) (vdm, 1) in
  Ok vdm.

(** Row [i] of the identity, [width] entries from [offset] on. *)
Definition unit_row (vdm : list Z) (offset width i : nat) : res (list Z) :=
  foldM (fun vdm j => buf_set vdm (offset + j) (if (i =? j)%nat then 1 else 0)) (seq 0 width) vdm.

Definition reed_sol_full_coding_matrix (n k : nat) (list : list Z) : res (option (Datatypes.list Z)) :=
  let vdm := fresh ((n + k) * n) in
  let! vdm := foldM (fun vdm i => unit_row vdm (i * n) n i) (seq 0 n) vdm in
  let! vdm := foldM (fun vdm i =>
      let! mul_num := buf_get list i in power_row vdm ((i + n) * n) n mul_num) (seq 0 k) vdm in
  Ok (Some vdm).

Definition reed_sol_sub_coding_matrix (n k : nat) (list : list Z) : res (option (Datatypes.list Z)) :=
  let! vdm := foldM (fun vdm i =>
      let! mul_num := buf_get list i in power_row vdm (i * n) n mul_num) (seq 0 k) (fresh (k * n)) in
  Ok (Some vdm).

(** The [while] loop over positions without a packet; [None] when [mask_len]
    is reached. *)
Fixpoint skip_unset (fuel : nat) (mask : list Z) (mask_len mask_id : nat) (tmp mul_num : Z)
    : res (option (nat * Z)) :=
  match fuel with
  | O => Fault OutOfFuel
  | S fuel =>
      let! m := buf_get mask mask_id in
      if Z.land m 1 =? 0 then
        let mask_id := (mask_id + 1)%nat in
        if (mask_len <=? mask_id)%nat then Ok None
        else skip_unset fuel mask mask_len mask_id (galois_single_multiply tmp mul_num) mul_num
      else Ok (Some (mask_id, tmp))
  end.

(** One row: [mask_id] and [tmp] go on together. *)
Fixpoint stream_row (cols : nat) (vdm : list Z) (index : nat) (mask : list Z) (mask_len mask_id : nat)
    (tmp mul_num : Z) : res (option (list Z)) :=
  match cols with
  | O => Ok (Some vdm)
  | S cols =>
      let! found := skip_unset (S mask_len) mask mask_len mask_id tmp mul_num in
      match found with
      | None => Ok None
      | Some (mask_id, tmp) =>
          let! vdm := buf_set vdm index tmp in
          stream_row cols vdm (index + 1) mask mask_len (mask_id + 1) (galois_single_multiply tmp mul_num) mul_num
      end
  end.

Fixpoint stream_rows (rows : nat) (vdm : list Z) (i cols : nat) (list mask : list Z) (mask_len : nat)
    : res (option (Datatypes.list Z)) :=
  match rows with
  | O => Ok (Some vdm)
  | S rows =>
      let! mul_num := buf_get list i in
      let! row := stream_row cols vdm (i * cols) mask mask_len 0 1 mul_num in
      match row with
      | None => Ok None
      | Some vdm => stream_rows rows vdm (i + 1) cols list mask mask_len
      end
  end.

Definition reed_sol_sub_stream_coding_matrix (n k : nat) (list mask : list Z) (mask_len : nat)
    : res (option (Datatypes.list Z)) :=
  stream_rows k (fresh (k * n)) 0 n list mask mask_len.

(** ** Gauss-Jordan elimination on [n] rows of [2 n] entries *)

Definition scale_row (vdm : list Z) (cols row : nat) (factor : Z) : res (list Z) :=
  foldM (fun vdm j =>
    let! v := buf_get vdm (row * cols + j) in
    buf_set vdm (row * cols + j) (galois_single_multiply v factor)) (seq 0 cols) vdm.

(** [to_i] gets [mul_num] times row [from_i] added. *)
Definition add_row (vdm : list Z) (cols from_i to_i : nat) (mul_num : Z) : res (list Z) :=
  foldM (fun vdm j =>
    let! v := buf_get vdm (from_i * cols + j) in
    let tmp := galois_single_multiply v mul_num in
    let! w := buf_get vdm (to_i * cols + j) in
    buf_set vdm (to_i * cols + j) (Z.lxor w tmp)) (seq 0 cols) vdm.

(** The rows of packets that arrived are unit rows: clearing their columns
    changes two entries per row. *)
Definition clear_known (n : nat) (s_list r_list : list nat) (vdm : list Z) : res (list Z) :=
  let cols := (n * 2)%nat in
  foldM (fun vdm from_i =>
    foldM (fun vdm to_i =>
      let! mul_num := buf_get vdm (to_i * cols + from_i) in
      let! vdm := buf_set vdm (to_i * cols + from_i) (Z.lxor mul_num mul_num) in
      let! w := buf_get vdm (to_i * cols + n + from_i) in
      buf_set vdm (to_i * cols + n + from_i) (Z.lxor w mul_num)) r_list vdm) s_list vdm.

(** The pivot of row [from_i] becomes 1. *)
Definition normalize (cols : nat) (vdm : list Z) (from_i : nat) : res (list Z) :=
  let! p := buf_get vdm (from_i * cols + from_i) in
  if p =? 1 then Ok vdm
  else scale_row vdm cols from_i (galois_single_divide 1 p).

(** ... and its column is cleared in the rows [targets]. *)
Definition eliminate (cols : nat) (vdm : list Z) (from_i : nat) (targets : list nat) : res (list Z) :=
  foldM (fun vdm to_i =>
    let! mul_num := buf_get vdm (to_i * cols + from_i) in
    add_row vdm cols from_i to_i mul_num) targets vdm.

(** Down the rows; with [checked], a zero pivot is refused. *)
Fixpoint forward (checked : bool) (cols : nat) (r_list : list nat) (vdm : list Z) : res (option (list Z)) :=
  match r_list with
  | [] => Ok (Some vdm)
  | from_i :: below =>
      let! p := buf_get vdm (from_i * cols + from_i) in
      if checked && (p =? 0) then Ok None else
      let! vdm := normalize cols vdm from_i in
      let! vdm := eliminate cols vdm from_i below in
      forward checked cols below vdm
  end.

(** Up the rows; [r_list] is given last row first. *)
Fixpoint backward (cols : nat) (r_list : list nat) (vdm : list Z) : res (list Z) :=
  match r_list with
  | [] => Ok vdm
  | from_i :: above =>
      let! vdm := normalize cols vdm from_i in
      let! vdm := eliminate cols vdm from_i above in
      backward cols above vdm
  end.

(** The right half of the rows [rows]. *)
Definition copy_right (n : nat) (vdm : list Z) (rows : list nat) (dist : list Z) : res (list Z) :=
  foldM (fun dist (ir : nat * nat) =>
    foldM (fun dist j =>
      let! v := buf_get vdm (ir.2 * (n * 2) + n + j) in
      buf_set dist (ir.1 * n + j) v) (seq 0 n) dist) (combine (seq 0 (length rows)) rows) dist.

(** ** Decoding matrices *)

(** The rows built so far. *)
Record Rows : Type := mkRows {
  rows_vdm : list Z;
  list_i : nat;
  s_list : list nat;
  r_list : list nat
}.

Definition push_index (capacity : nat) (l : list nat) (i : nat) : res (list nat) :=
  if (length l <? capacity)%nat then Ok (l ++ [i]) else Fault OutOfBounds.

(** A packet that arrived. *)
Definition known_row (n : nat) (st : Rows) (i : nat) : res Rows :=
  let! vdm := unit_row (rows_vdm st) (i * (n * 2)) n i in
  let! s := push_index n (s_list st) i in
  Ok (mkRows vdm (list_i st) s (r_list st)).

(** A lost packet: row [i] is that of the FEC packet that replaces it. *)
Definition lost_row (n k : nat) (list : list Z) (st : Rows) (i : nat)
    (fill : Datatypes.list Z -> nat -> Z -> res (option (Datatypes.list Z))) : res (option Rows) :=
  if (k <=? list_i st)%nat then Ok None else
  let! mul_num := buf_get list (list_i st) in
  let! vdm := fill (rows_vdm st) (list_i st) mul_num in
  match vdm with
  | None => Ok None
  | Some vdm =>
      let! r := push_index k (r_list st) i in
      Ok (Some (mkRows vdm (list_i st + 1) (s_list st) r))
  end.

(** The identity in the right half. *)
Definition right_identity (n : nat) (vdm : list Z) : res (list Z) :=
  foldM (fun vdm i => unit_row vdm (i * (n * 2) + n) n i) (seq 0 n) vdm.

(** From the rows to the decoding matrix; [out] are the rows returned. *)
Definition solve (checked : bool) (n size : nat) (st : Rows) (out : list nat) : res (option (list Z)) :=
  let cols := (n * 2)%nat in
  let! vdm := right_identity n (rows_vdm st) in
  let! vdm := clear_known n (s_list st) (r_list st) vdm in
  let! vdm := forward checked cols (r_list st) vdm in
  match vdm with
  | None => Ok None
  | Some vdm =>
      let! vdm := backward cols (rev (r_list st)) vdm in
      let! dist := copy_right n vdm out (fresh size) in
      Ok (Some dist)
  end.

(** A row for each of the [n] packets, by [known]. *)
Fixpoint build (rows n k : nat) (list : list Z) (known : nat -> res bool)
    (fill : nat -> Datatypes.list Z -> nat -> Z -> res (option (Datatypes.list Z))) (i : nat) (st : Rows)
    : res (option Rows) :=
  match rows with
  | O => Ok (Some st)
  | S rows =>
      let! arrived := known i in
      let! st := if (arrived : bool) then let! st := known_row n st i in Ok (Some st)
                 else lost_row n k list st i (fill i) in
      match st with
      | None => Ok None
      | Some st => build rows n k list known fill (i + 1) st
      end
  end.

Definition no_rows (n : nat) : Rows := mkRows (fresh (n * (n * 2))) 0 [] [].

Definition decoding_matrix (n k : nat) (list : list Z) (known : nat -> res bool)
    (fill : nat -> Datatypes.list Z -> nat -> Z -> res (option (Datatypes.list Z)))
    : res (option (Datatypes.list Z)) :=
  let! st := build n n k list known fill 0 (no_rows n) in
  match st with
  | None => Ok None
  | Some st => solve false n (n * n) st (seq 0 n)
  end.

(** Every packet is protected. *)
Definition block_fill (n i : nat) (vdm : list Z) (fec : nat) (mul_num : Z) : res (option (list Z)) :=
  let! vdm := power_row vdm (i * (n * 2)) n mul_num in Ok (Some vdm).

(** Only the packets of the mask of the FEC packet are protected; their
    exponents count the packets of the mask. *)
Definition masked_fill (n : nat) (bit : nat -> nat -> res bool) (i : nat) (vdm : list Z) (fec : nat) (mul_num : Z)
    : res (option (list Z)) :=
  let! (vdm, _) := foldM (fun '(vdm, tmp) j =>
      let! b := bit fec j in
      if (b : bool) then
        let! vdm := buf_set vdm (i * (n * 2) + j) tmp in
        Ok (vdm, galois_single_multiply tmp mul_num)
      else
        let! vdm := buf_set vdm (i * (n * 2) + j) 0 in Ok (vdm, tmp)) (seq 0 n) (vdm, 1) in
  Ok (Some vdm).

(** A mask as an array of [int]. *)
Definition array_bit (mask : list Z) (i : nat) : res bool :=
  let! m := buf_get mask i in Ok (negb (Z.land m 1 =? 0)).

(** A mask as a [std::bitset<N>], first packet in bit [n-1]. *)
Definition bitset_bit (n : nat) (mask : Z) (i : nat) : res bool := Ok (Z.testbit mask (Z.of_nat (n - 1 - i))).

Definition reed_sol_block_decoding_matrix (n k : nat) (list mask : list Z) : res (option (Datatypes.list Z)) :=
  decoding_matrix n k list (array_bit mask) (block_fill n).

Definition reed_sol_stream_decoding_matrix (n k : nat) (list mask k_mask : list Z)
    : res (option (Datatypes.list Z)) :=
  decoding_matrix n k list (array_bit mask) (masked_fill n (fun fec j => array_bit k_mask (fec * n + j))).

Definition reed_sol_block_decoding_matrix_bits (n k : nat) (list : list Z) (mask : Z)
    : res (option (Datatypes.list Z)) :=
  decoding_matrix n k list (bitset_bit n mask) (block_fill n).

Definition reed_sol_stream_decoding_matrix_bits (n k : nat) (list : list Z) (mask : Z) (k_mask : Datatypes.list Z)
    : res (option (Datatypes.list Z)) :=
  decoding_matrix n k list (bitset_bit n mask)
    (masked_fill n (fun fec j => let! m := buf_get k_mask fec in bitset_bit n m j)).

(** ** [reed_sol_skipped_stream_decoding_matrix]

    [mask] is a bitset of [N] positions: bit [p] is set when position [p] is
    considered, and the [n] packets are its set positions, in order. *)

(** [while (mask_i < N && mask[mask_i] == 0) mask_i++]. *)
Fixpoint next_set (fuel : nat) (N : nat) (mask : Z) (mask_i : nat) : res nat :=
  match fuel with
  | O => Fault OutOfFuel
  | S fuel =>
      if (mask_i <? N)%nat && negb (Z.testbit mask (Z.of_nat mask_i))
      then next_set fuel N mask (mask_i + 1)
      else Ok mask_i
  end.

(** The same loop inside a row: after the first packet of the FEC packet every
    position multiplies [tmp]. *)
Fixpoint next_power (fuel : nat) (N : nat) (mask : Z) (kmask_j : nat) (first_one : bool) (tmp mul_num : Z)
    : res (nat * Z) :=
  match fuel with
  | O => Fault OutOfFuel
  | S fuel =>
      if (kmask_j <? N)%nat && negb (Z.testbit mask (Z.of_nat kmask_j))
      then next_power fuel N mask (kmask_j + 1) first_one
             (if first_one then galois_single_multiply tmp mul_num else tmp) mul_num
      else Ok (kmask_j, tmp)
  end.

Fixpoint skipped_row (cols : nat) (vdm : list Z) (index N : nat) (mask k_mask : Z) (kmask_j : nat)
    (first_one : bool) (tmp mul_num : Z) : res (option (list Z)) :=
  match cols with
  | O => Ok (Some vdm)
  | S cols =>
      let! (kmask_j, tmp) := next_power (S N) N mask kmask_j first_one tmp mul_num in
      if (N <=? kmask_j)%nat then Ok None else
      let set := Z.testbit k_mask (Z.of_nat kmask_j) in
      let! vdm := buf_set vdm index (if set then tmp else 0) in
      let first_one := first_one || set in
      skipped_row cols vdm (index + 1) N mask k_mask (kmask_j + 1) first_one
        (if first_one then galois_single_multiply tmp mul_num else tmp) mul_num
  end.

Definition skipped_fill (n N : nat) (mask : Z) (k_mask : list Z) (i : nat) (vdm : list Z) (fec : nat)
    (mul_num : Z) : res (option (list Z)) :=
  let! m := buf_get k_mask fec in
  skipped_row n vdm (i * (n * 2)) N mask m 0 false 1 mul_num.

Fixpoint skipped_build (rows n k N : nat) (list : list Z) (mask arrive : Z) (k_mask : Datatypes.list Z)
    (i mask_i : nat) (st : Rows) : res (option Rows) :=
  match rows with
  | O => Ok (Some st)
  | S rows =>
      let! mask_i := next_set (S N) N mask mask_i in
      if (N <=? mask_i)%nat then Ok None else
      let! st := if Z.testbit arrive (Z.of_nat mask_i)
                 then let! st := known_row n st i in Ok (Some st)
                 else lost_row n k list st i (skipped_fill n N mask k_mask i) in
      match st with
      | None => Ok None
      | Some st => skipped_build rows n k N list mask arrive k_mask (i + 1) (mask_i + 1) st
      end
  end.

(** The rows returned are those of the lost packets. *)
Definition reed_sol_skipped_stream_decoding_matrix (N n k : nat) (list : list Z) (mask arrive : Z)
    (k_mask : Datatypes.list Z) : res (option (Datatypes.list Z)) :=
  let! st := skipped_build n n k N list mask arrive k_mask 0 0 (no_rows n) in
  match st with
  | None => Ok None
  | Some st => solve true n (k * n) st (r_list st)
  end.

(** ** [RS_forward_error_correction_internal.cc] *)

Definition kRSfecMaxMediaPackets : nat := 40.
Definition baseMulNum : Z := 2.

(** [curBaseNum] is a global, [1] at first. *)
Definition curBaseNum_init : Z := 1.

Definition GenerateBaseNumList (curBaseNum : Z) (n k : nat) : option (list Z) * Z :=
  if (kRSfecMaxMediaPackets <? n)%nat then (None, curBaseNum) else
  let '(dist, curBaseNum) := foldl (fun '(dist, curBaseNum) _ =>
      (dist ++ [curBaseNum], galois_single_multiply curBaseNum baseMulNum)) ([], curBaseNum) (seq 0 k) in
  (Some dist, curBaseNum).

Definition GenerateCodingMatrix (n k : nat) (baseNumList pktMask : list Z) (maskLen : nat) : res (option (list Z)) :=
  reed_sol_sub_stream_coding_matrix n k baseNumList pktMask maskLen.

(** Instantiated at [N = 128] only. *)
Definition GenerateDecodingMatrix (n k : nat) (baseNumList : list Z) (mask arrive : Z) (k_mask : list Z)
    : res (option (list Z)) :=
  reed_sol_skipped_stream_decoding_matrix 128 n k baseNumList mask arrive k_mask.

End Matrix.
