(* ===== verification/ReedSolInverse.v ===== *)
(** * ReedSolInverse: the elimination of reed_sol_matrix.cc inverts the matrix

    The byte array of [n] rows of [2 n] entries represents a matrix; every loop
    of the elimination is a row operation on it.  A row [(a | b)] stands for the
    equation [a . x = b . y], which row operations keep true; at the end the left
    half is the identity, so that the right half computes [x] from [y]. *)

From S2P Require Import Prelude.
From S2P Require Import CowBuffer.
From S2P Require Import Galois.
From S2P Require Import ReedSolMatrix.

(** ** Loops over one row *)

Lemma window_loop (d : list Z) off m (body : list Z -> nat -> res (list Z)) (v : nat -> Z) :
  (off + m <= length d)%nat ->
  (forall d' j, (j < m)%nat -> length d' = length d ->
     (forall p, (p < off \/ off + j <= p)%nat -> d' !! p = d !! p) -> body d' j = buf_set d' (off + j) (v j)) ->
  exists d', foldM body (seq 0 m) d = Ok d' /\ length d' = length d /\
    (forall i, (i < m)%nat -> d' !! (off + i)%nat = Some (u8 (v i))) /\
    (forall j, (j < off \/ off + m <= j)%nat -> d' !! j = d !! j).
Proof.
  induction m as [|m IH]; intros Hlen Hbody.
  { exists d. cbn. split_and!; [done..|intros; lia|done]. }
  rewrite seq_S, foldM_app.
  destruct IH as (d' & -> & Hlen' & Hin & Hout); [lia|intros; apply Hbody; auto with lia|].
  cbn. rewrite Hbody by auto with lia. rewrite buf_set_ok by lia. cbn. eexists; split; [done|].
  split_and!.
  - by rewrite length_insert.
  - intros i Hi. destruct (decide (i = m)) as [->|].
    + by rewrite list_lookup_insert_eq by lia.
    + rewrite list_lookup_insert_ne by lia. apply Hin. lia.
  - intros j Hj. rewrite list_lookup_insert_ne by lia. apply Hout. lia.
Qed.

(** The same with an accumulator, [acc j] before iteration [j]. *)
Lemma window_acc_loop {A} (d : list Z) off m (body : list Z * A -> nat -> res (list Z * A)) (v : nat -> Z)
    (acc : nat -> A) :
  (off + m <= length d)%nat ->
  (forall d' j, (j < m)%nat -> length d' = length d ->
     body (d', acc j) j = (let! d'' := buf_set d' (off + j) (v j) in Ok (d'', acc (S j)))) ->
  exists d', foldM body (seq 0 m) (d, acc 0%nat) = Ok (d', acc m) /\ length d' = length d /\
    (forall i, (i < m)%nat -> d' !! (off + i)%nat = Some (u8 (v i))) /\
    (forall j, (j < off \/ off + m <= j)%nat -> d' !! j = d !! j).
Proof.
  induction m as [|m IH]; intros Hlen Hbody.
  { exists d. cbn. split_and!; [done..|intros; lia|done]. }
  rewrite seq_S, foldM_app.
  destruct IH as (d' & -> & Hlen' & Hin & Hout); [lia|intros; apply Hbody; auto with lia|].
  cbn. rewrite Hbody by auto with lia. rewrite buf_set_ok by lia. cbn. eexists; split; [done|].
  split_and!.
  - by rewrite length_insert.
  - intros i Hi. destruct (decide (i = m)) as [->|].
    + by rewrite list_lookup_insert_eq by lia.
    + rewrite list_lookup_insert_ne by lia. apply Hin. lia.
  - intros j Hj. rewrite list_lookup_insert_ne by lia. apply Hout. lia.
Qed.

(** Rows do not overlap. *)
Lemma other_row i row j cols :
  (j < cols)%nat -> i <> row -> (i * cols + j < row * cols \/ row * cols + cols <= i * cols + j)%nat.
Proof. intros. destruct (decide (i < row)%nat); [left|right]; nia. Qed.

Lemma same_cell i i' j j' cols :
  (j < cols)%nat -> (j' < cols)%nat -> (i * cols + j = i' * cols + j')%nat -> i = i' /\ j = j'.
Proof.
  intros Hj Hj' E. assert (i = i'); [|split; [done|subst; lia]].
  destruct (decide (i < i')%nat), (decide (i' < i)%nat); nia.
Qed.

Section Elimination.
Context {G : Galois} {GL : GaloisLaws G}.
Variable n : nat.

Abbreviation cols := (n * 2)%nat.
Abbreviation mul := galois_single_multiply.

(** ** The matrix an array represents *)

Definition mat : Type := nat -> nat -> Z.

Record repr (vdm : list Z) (m : mat) : Prop := {
  repr_length : length vdm = (n * cols)%nat;
  repr_entry i j : (i < n)%nat -> (j < cols)%nat -> vdm !! (i * cols + j)%nat = Some (m i j) /\ is_byte (m i j)
}.

Lemma repr_get vdm m i j : repr vdm m -> (i < n)%nat -> (j < cols)%nat -> buf_get vdm (i * cols + j) = Ok (m i j).
Proof. intros R Hi Hj. apply buf_get_ok. by apply R. Qed.

Lemma repr_byte vdm m i j : repr vdm m -> (i < n)%nat -> (j < cols)%nat -> is_byte (m i j).
Proof. intros R Hi Hj. by apply R. Qed.

Lemma repr_bound vdm m i j : repr vdm m -> (i < n)%nat -> (j < cols)%nat -> (i * cols + j < length vdm)%nat.
Proof. intros R Hi Hj. rewrite (repr_length _ _ R). nia. Qed.

(** A loop that rewrites row [row]. *)
Lemma repr_row vdm m row vdm' (v : nat -> Z) :
  repr vdm m -> (row < n)%nat -> (forall j, (j < cols)%nat -> is_byte (v j)) -> length vdm' = length vdm ->
  (forall j, (j < cols)%nat -> vdm' !! (row * cols + j)%nat = Some (u8 (v j))) ->
  (forall p, (p < row * cols \/ row * cols + cols <= p)%nat -> vdm' !! p = vdm !! p) ->
  repr vdm' (fun i j => if decide (i = row) then v j else m i j).
Proof.
  intros R Hrow Hv Hlen Hin Hout. split; [rewrite Hlen; apply R|]. intros i j Hi Hj.
  case_decide as Ei; [subst i|].
  - rewrite Hin by done. split; [|by apply Hv]. by rewrite uw_small by (by apply Hv).
  - rewrite Hout by (by apply other_row). by apply R.
Qed.

Definition scale_fn (m : mat) (row : nat) (factor : Z) : mat :=
  fun i j => if decide (i = row) then mul (m row j) factor else m i j.

Lemma scale_row_repr vdm m row factor :
  repr vdm m -> (row < n)%nat -> is_byte factor ->
  exists vdm', scale_row vdm cols row factor = Ok vdm' /\ repr vdm' (scale_fn m row factor).
Proof.
  intros R Hrow Hf. unfold scale_row.
  assert (Hall : (row * cols + cols <= length vdm)%nat) by (rewrite (repr_length _ _ R); nia).
  edestruct (window_loop vdm (row * cols) cols) with (v := fun j => mul (m row j) factor)
    as (vdm' & -> & Hlen & Hin & Hout); [done| |].
  2:{ exists vdm'. split; [done|]. eapply repr_row; try done. intros j Hj. apply gf_byte; [|done].
      by eapply repr_byte. }
  intros d' j Hj Hlen Hsame. cbn beta.
  rewrite (buf_get_ok _ _ (m row j)); [done|]. rewrite Hsame by lia. by apply R.
Qed.

Definition add_fn (m : mat) (from_i to_i : nat) (c : Z) : mat :=
  fun i j => if decide (i = to_i) then Z.lxor (m to_i j) (mul (m from_i j) c) else m i j.

Lemma add_row_repr vdm m from_i to_i c :
  repr vdm m -> (from_i < n)%nat -> (to_i < n)%nat -> from_i <> to_i -> is_byte c ->
  exists vdm', add_row vdm cols from_i to_i c = Ok vdm' /\ repr vdm' (add_fn m from_i to_i c).
Proof.
  intros R Hfrom Hto Hne Hc. unfold add_row.
  assert (Hall : (to_i * cols + cols <= length vdm)%nat) by (rewrite (repr_length _ _ R); nia).
  edestruct (window_loop vdm (to_i * cols) cols) with (v := fun j => Z.lxor (m to_i j) (mul (m from_i j) c))
    as (vdm' & -> & Hlen & Hin & Hout); [done| |].
  2:{ exists vdm'. split; [done|]. eapply repr_row; try done. intros j Hj.
      apply byte_lxor; [by eapply repr_byte|]. apply gf_byte; [by eapply repr_byte|done]. }
  intros d' j Hj Hlen Hsame. cbn beta.
  rewrite (buf_get_ok _ (from_i * cols + j) (m from_i j)), bind_ok.
  2:{ rewrite Hsame; [by apply R|]. pose proof (other_row from_i to_i j cols Hj Hne). lia. }
  rewrite (buf_get_ok _ (to_i * cols + j) (m to_i j)); [done|]. rewrite Hsame by lia. by apply R.
Qed.

(** One entry. *)
Definition set_fn (m : mat) (row col : nat) (v : Z) : mat :=
  fun i j => if decide (i = row /\ j = col) then v else m i j.

Lemma buf_set_repr vdm m row col v :
  repr vdm m -> (row < n)%nat -> (col < cols)%nat -> is_byte v ->
  exists vdm', buf_set vdm (row * cols + col) v = Ok vdm' /\ repr vdm' (set_fn m row col v).
Proof.
  intros R Hr Hc Hv. rewrite buf_set_ok by (by eapply repr_bound). eexists; split; [done|].
  split; [rewrite length_insert; apply R|]. intros i j Hi Hj. unfold set_fn. case_decide as E.
  - destruct E as [-> ->]. rewrite list_lookup_insert_eq by (by eapply repr_bound). by rewrite uw_small.
  - rewrite list_lookup_insert_ne; [by apply R|]. intros E'. apply E.
    symmetry in E'. by apply same_cell in E'.
Qed.

(** ** The elimination on matrices *)

Definition clear_fn (m : mat) (from_i to_i : nat) : mat :=
  set_fn (set_fn m to_i from_i 0) to_i (n + from_i) (Z.lxor (m to_i (n + from_i)%nat) (m to_i from_i)).

Definition clear_known_fn (s_list r_list : list nat) (m : mat) : mat :=
  foldl (fun m from_i => foldl (fun m to_i => clear_fn m from_i to_i) m r_list) m s_list.

Definition normalize_fn (m : mat) (r : nat) : mat :=
  if m r r =? 1 then m else scale_fn m r (galois_single_divide 1 (m r r)).

Definition eliminate_fn (m : mat) (r : nat) (targets : list nat) : mat :=
  foldl (fun m t => add_fn m r t (m t r)) m targets.

Fixpoint forward_fn (r_list : list nat) (m : mat) : option mat :=
  match r_list with
  | [] => Some m
  | r :: below => if m r r =? 0 then None else forward_fn below (eliminate_fn (normalize_fn m r) r below)
  end.

Lemma clear_known_repr s_list r_list vdm m :
  repr vdm m -> Forall (fun i => i < n)%nat s_list -> Forall (fun i => i < n)%nat r_list ->
  exists vdm', clear_known n s_list r_list vdm = Ok vdm' /\ repr vdm' (clear_known_fn s_list r_list m).
Proof.
  intros R Hs Hr. unfold clear_known, clear_known_fn. revert vdm m R.
  induction Hs as [|s s_list Hs0 Hs IH]; intros vdm m R; cbn [foldM foldl]; [eauto|].
  enough (Hin : exists vdm', foldM (fun vdm to_i =>
      let! mul_num := buf_get vdm (to_i * cols + s) in
      let! vdm := buf_set vdm (to_i * cols + s) (Z.lxor mul_num mul_num) in
      let! w := buf_get vdm (to_i * cols + n + s) in
      buf_set vdm (to_i * cols + n + s) (Z.lxor w mul_num)) r_list vdm = Ok vdm' /\
      repr vdm' (foldl (fun m to_i => clear_fn m s to_i) m r_list)).
  { destruct Hin as (vdm' & -> & R'). apply IH, R'. }
  clear IH Hs. revert vdm m R. induction Hr as [|t r_list Ht Hr IH]; intros vdm m R; cbn [foldM foldl]; [eauto|].
  rewrite (repr_get _ m t s) by (done || lia). rewrite bind_ok, Z.lxor_nilpotent.
  destruct (buf_set_repr vdm m t s 0) as (vdm1 & -> & R1); [done|done|lia|apply byte_zero|].
  rewrite bind_ok, <- Nat.add_assoc, (repr_get _ _ t (n + s) R1) by lia. rewrite bind_ok.
  unfold set_fn at 1. rewrite decide_False by lia.
  destruct (buf_set_repr vdm1 _ t (n + s) (Z.lxor (m t (n + s)%nat) (m t s)) R1) as (vdm2 & -> & R2);
    [done|lia|apply byte_lxor; eapply repr_byte; eauto; lia|].
  rewrite bind_ok. apply IH, R2.
Qed.

Lemma normalize_repr vdm m r :
  repr vdm m -> (r < n)%nat -> m r r <> 0 ->
  exists vdm', normalize cols vdm r = Ok vdm' /\ repr vdm' (normalize_fn m r).
Proof.
  intros R Hr Hne. unfold normalize, normalize_fn. rewrite (repr_get _ m r r), bind_ok by (done || lia).
  destruct (m r r =? 1); [eauto|]. apply scale_row_repr; [done|done|].
  apply gf_divide; [apply byte_one| |done]. eapply repr_byte; eauto; lia.
Qed.

Lemma eliminate_repr vdm m r targets :
  repr vdm m -> (r < n)%nat -> Forall (fun i => i < n)%nat targets -> r ∉ targets ->
  exists vdm', eliminate cols vdm r targets = Ok vdm' /\ repr vdm' (eliminate_fn m r targets).
Proof.
  intros R Hr Ht. revert vdm m R. induction Ht as [|t targets Ht0 Ht IH]; intros vdm m R Hni; [by eauto|].
  apply not_elem_of_cons in Hni as [Hne Hni]. unfold eliminate, eliminate_fn. cbn [foldM foldl].
  rewrite (repr_get _ m t r), bind_ok by (done || lia).
  destruct (add_row_repr vdm m r t (m t r)) as (vdm1 & -> & R1); try done; [eapply repr_byte; eauto; lia|].
  rewrite bind_ok. by apply IH.
Qed.

Lemma forward_repr checked r_list vdm m m' :
  repr vdm m -> Forall (fun i => i < n)%nat r_list -> NoDup r_list -> forward_fn r_list m = Some m' ->
  exists vdm', forward checked cols r_list vdm = Ok (Some vdm') /\ repr vdm' m'.
Proof.
  intros R Hr. revert vdm m R. induction Hr as [|r r_list Hr0 Hr IH]; intros vdm m R Hnd E; cbn in E |- *.
  { injection E as <-. eauto. }
  apply NoDup_cons in Hnd as [Hni Hnd]. destruct (m r r =? 0) eqn:Ep; [done|].
  rewrite (repr_get _ m r r) by (done || lia). rewrite bind_ok, Ep, andb_false_r.
  destruct (normalize_repr vdm m r) as (vdm1 & -> & R1); [done|done|by apply Z.eqb_neq|]. rewrite bind_ok.
  destruct (eliminate_repr vdm1 (normalize_fn m r) r r_list) as (vdm2 & -> & R2); try done.
  rewrite bind_ok. by eapply IH.
Qed.

Lemma forward_refused r_list vdm m :
  repr vdm m -> Forall (fun i => i < n)%nat r_list -> NoDup r_list -> forward_fn r_list m = None ->
  forward true cols r_list vdm = Ok None.
Proof.
  intros R Hr. revert vdm m R. induction Hr as [|r r_list Hr0 Hr IH]; intros vdm m R Hnd E; cbn in E |- *; [done|].
  apply NoDup_cons in Hnd as [Hni Hnd]. rewrite (repr_get _ m r r) by (done || lia). rewrite bind_ok.
  destruct (m r r =? 0) eqn:Ep; [done|]. cbn [andb].
  destruct (normalize_repr vdm m r) as (vdm1 & -> & R1); [done|done|by apply Z.eqb_neq|]. rewrite bind_ok.
  destruct (eliminate_repr vdm1 (normalize_fn m r) r r_list) as (vdm2 & -> & R2); try done.
  rewrite bind_ok. by eapply IH.
Qed.

(** ** The operations entry by entry *)

Lemma eliminate_fn_spec m r targets i j :
  NoDup targets -> r ∉ targets ->
  eliminate_fn m r targets i j = if decide (i ∈ targets) then Z.lxor (m i j) (mul (m r j) (m i r)) else m i j.
Proof.
  intros Hnd. revert m. unfold eliminate_fn. induction targets as [|t targets IH]; intros m Hni; cbn [foldl]; [done|].
  apply NoDup_cons in Hnd as [Hnt Hnd]. apply not_elem_of_cons in Hni as [Hne Hni].
  rewrite IH by done. unfold add_fn. rewrite (decide_False (P := r = t)) by done.
  destruct (decide (i = t)) as [->|Hit].
  - by rewrite decide_False, decide_True by (done || by left).
  - destruct (decide (i ∈ targets)) as [Hin|Hin]; [by rewrite (decide_True (P := i ∈ t :: targets)) by (by right)|].
    rewrite decide_False; [done|]. rewrite elem_of_cons. naive_solver.
Qed.

Lemma clear_column_spec m s r_list i j :
  NoDup r_list -> (s < n)%nat ->
  foldl (fun m to_i => clear_fn m s to_i) m r_list i j =
  if decide (i ∈ r_list) then
    (if decide (j = s) then 0 else if decide (j = n + s)%nat then Z.lxor (m i j) (m i s) else m i j)
  else m i j.
Proof.
  intros Hnd Hs. revert m. induction r_list as [|t r_list IH]; intros m; cbn [foldl]; [done|].
  apply NoDup_cons in Hnd as [Hnt Hnd]. rewrite IH by done. unfold clear_fn, set_fn.
  destruct (decide (i = t)) as [->|Hit].
  - rewrite decide_False, (decide_True (P := t ∈ t :: r_list)) by (done || by left).
    repeat case_decide; naive_solver lia.
  - rewrite !(decide_False (P := i = t /\ _)) by naive_solver.
    destruct (decide (i ∈ r_list)) as [Hin|Hin]; [by rewrite (decide_True (P := i ∈ t :: r_list)) by (by right)|].
    rewrite decide_False; [done|]. rewrite elem_of_cons. naive_solver.
Qed.

(** In the row of a lost packet the entries at the arrived packets move to
    the right half. *)
Lemma clear_known_spec s_list r_list m i j :
  NoDup s_list -> NoDup r_list -> Forall (fun i => i < n)%nat s_list ->
  clear_known_fn s_list r_list m i j =
  if decide (i ∈ r_list) then
    (if decide (j ∈ s_list) then 0
     else if decide (n <= j /\ j - n ∈ s_list)%nat then Z.lxor (m i j) (m i (j - n)%nat) else m i j)
  else m i j.
Proof.
  intros Hs Hr. revert m. unfold clear_known_fn.
  induction s_list as [|s s_list IH]; intros m Hlt; cbn [foldl].
  { rewrite (decide_False (P := j ∈ [])) by apply not_elem_of_nil.
    rewrite (decide_False (P := _ /\ _)) by (rewrite elem_of_nil; naive_solver). by case_decide. }
  apply NoDup_cons in Hs as [Hns Hs]. apply Forall_cons in Hlt as [Hlt0 Hlt].
  rewrite IH by done. rewrite !clear_column_spec by done. destruct (decide (i ∈ r_list)) as [Hi|]; [|done].
  assert (Hlt' : forall x, x ∈ s_list -> (x < n)%nat) by (by apply Forall_forall).
  destruct (decide (j ∈ s_list)) as [Hj|Hj]; [by rewrite (decide_True (P := j ∈ s :: s_list)) by (by right)|].
  destruct (decide (j = s)) as [->|Hjs].
  { rewrite (decide_True (P := s ∈ s :: s_list)) by (by left).
    by rewrite decide_False by lia. }
  rewrite (decide_False (P := j ∈ s :: s_list)) by (rewrite elem_of_cons; naive_solver).
  destruct (decide (n <= j /\ j - n ∈ s_list)%nat) as [[Hle Hin]|Hn].
  - rewrite (decide_True (P := _ /\ _)) by (split; [done|by right]).
    assert (j - n <> s)%nat by naive_solver. rewrite !decide_False by (specialize (Hlt' _ Hin); lia). done.
  - destruct (decide (j = n + s)%nat) as [->|Hjn].
    + rewrite (decide_True (P := _ /\ _)) by (split; [lia|]; replace (n + s - n)%nat with s by lia; by left).
      by replace (n + s - n)%nat with s by lia.
    + rewrite (decide_False (P := _ /\ _)); [done|]. intros [Hle Hin]. apply elem_of_cons in Hin as [|]; [lia|].
      by apply Hn.
Qed.

(** ** Equations *)

(** Every row holds of [z], the values [x] followed by [y]. *)
Definition holds (z : nat -> Z) (m : mat) : Prop :=
  forall i, (i < n)%nat -> gf_sum (fun j => mul (m i j) (z j)) cols = 0.

Definition mbytes (m : mat) : Prop := forall i j, (i < n)%nat -> (j < cols)%nat -> is_byte (m i j).

Section Equations.
Variable z : nat -> Z.
Hypothesis z_bytes : forall j, (j < cols)%nat -> is_byte (z j).

Lemma holds_scale m r c : mbytes m -> (r < n)%nat -> is_byte c -> holds z m -> holds z (scale_fn m r c).
Proof.
  intros Hm Hr Hc Hz i Hi. unfold scale_fn. case_decide as E; [|by apply Hz]. subst i.
  rewrite (gf_sum_ext _ (fun j => mul c (mul (m r j) (z j)))).
  - rewrite gf_sum_mul_l, Hz by (done || intros; apply gf_byte; auto). by apply gf_zero_r.
  - intros j Hj. rewrite (gf_comm _ c) by auto. symmetry. apply gf_assoc; auto.
Qed.

Lemma holds_add m r t c :
  mbytes m -> (r < n)%nat -> (t < n)%nat -> is_byte c -> holds z m -> holds z (add_fn m r t c).
Proof.
  intros Hm Hr Ht Hc Hz i Hi. unfold add_fn. case_decide as E; [|by apply Hz]. subst i.
  rewrite (gf_sum_ext _ (fun j => Z.lxor (mul (m t j) (z j)) (mul c (mul (m r j) (z j))))).
  - rewrite gf_sum_lxor, gf_sum_mul_l, !Hz, gf_zero_r by (done || intros; apply gf_byte; auto). done.
  - intros j Hj. rewrite gf_distr_l by (auto; apply gf_byte; auto). f_equal.
    rewrite (gf_comm _ c) by auto. symmetry. apply gf_assoc; auto.
Qed.

Lemma holds_clear m s t :
  mbytes m -> (s < n)%nat -> (t < n)%nat -> z s = z (n + s)%nat -> holds z m -> holds z (clear_fn m s t).
Proof.
  intros Hm Hs Ht Hzs Hz i Hi.
  set (c := m t s). assert (Hc : is_byte c) by (apply Hm; lia).
  set (at_col := fun k j => mul (if decide (j = k) then c else 0) (z j)).
  assert (Hat : forall k, (k < cols)%nat -> gf_sum (at_col k) cols = mul c (z k)).
  { intros k Hk. rewrite (gf_sum_single _ _ k) by
      (done || intros j Hj Hne; unfold at_col; rewrite decide_False by done; apply gf_zero_l; auto).
    unfold at_col. by rewrite decide_True. }
  destruct (decide (i = t)) as [->|Hne].
  2:{ rewrite (gf_sum_ext _ (fun j => mul (m i j) (z j))); [by apply Hz|]. intros j _.
      unfold clear_fn, set_fn. by rewrite !decide_False by naive_solver. }
  rewrite (gf_sum_ext _ (fun j => Z.lxor (mul (m t j) (z j)) (Z.lxor (at_col s j) (at_col (n + s)%nat j)))).
  - rewrite !gf_sum_lxor, Hz, !Hat, Hzs by lia. by rewrite Z.lxor_nilpotent.
  - intros j Hj. unfold at_col, clear_fn, set_fn. fold c.
    assert (Hmj : is_byte (m t j)) by auto. assert (Hzj := z_bytes j Hj).
    destruct (decide (j = s)) as [->|Hjs].
    + rewrite decide_False, decide_True, (decide_False (P := s = _)) by lia. fold c.
      rewrite !gf_zero_l by done. by rewrite Z.lxor_0_r, Z.lxor_nilpotent.
    + rewrite (decide_False (P := _ /\ j = s)) by naive_solver. rewrite (gf_zero_l (z j)) by done.
      rewrite Z.lxor_0_l. destruct (decide (j = n + s)%nat) as [->|Hjn].
      * rewrite decide_True by done. by apply gf_distr_l.
      * rewrite decide_False by naive_solver. by rewrite gf_zero_l, Z.lxor_0_r by done.
Qed.

End Equations.

End Elimination.
