(* ===== verification/ReedSolSolve.v ===== *)
(** * ReedSolSolve: what [solve] returns

    The invariants of the two elimination passes, the condition under which no
    pivot is zero, and the result: the rows returned recover the lost packets. *)

From stdpp Require Import sorting.
From S2P Require Import Prelude.
From S2P Require Import CowBuffer.
From S2P Require Import Galois.
From S2P Require Import ReedSolMatrix.
From S2P Require Import ReedSolInverse.

Lemma gf_sum_add f n m : gf_sum f (n + m) = Z.lxor (gf_sum f n) (gf_sum (fun j => f (n + j)%nat) m).
Proof.
  induction m as [|m IH]; [by rewrite Nat.add_0_r, Z.lxor_0_r|].
  by rewrite Nat.add_succ_r, !gf_sum_S, IH, Z.lxor_assoc.
Qed.

Lemma combine_app {A B} (l1 l2 : list A) (k1 k2 : list B) :
  length l1 = length k1 -> combine (l1 ++ l2) (k1 ++ k2) = combine l1 k1 ++ combine l2 k2.
Proof. revert k1. induction l1 as [|a l1 IH]; intros [|b k1] H; cbn; try done. f_equal. apply IH. cbn in H. lia. Qed.

Lemma sorted_rev l : StronglySorted lt l -> StronglySorted gt (rev l).
Proof.
  induction 1 as [|a l Hs IH Ha]; cbn; [constructor|]. apply StronglySorted_app. split_and!; [|done|repeat constructor].
  intros x y Hx%list_elem_of_In%in_rev ->%list_elem_of_singleton. rewrite List.Forall_forall in Ha. by apply Ha.
Qed.

Section Solve.
Context {G : Galois} {GL : GaloisLaws G}.
Variable n : nat.
Variables ss rs : list nat.

Abbreviation cols := (n * 2)%nat.
Abbreviation mul := galois_single_multiply.

(** The packets that arrived and those that were lost. *)
Hypothesis ss_nodup : NoDup ss.
Hypothesis ss_lt : forall s, s ∈ ss -> (s < n)%nat.
Hypothesis rs_lt : forall r, r ∈ rs -> (r < n)%nat.
Hypothesis rs_sorted : StronglySorted lt rs.
Hypothesis cover : forall j, (j < n)%nat -> j ∈ ss \/ j ∈ rs.
Hypothesis disjoint : forall j, j ∈ ss -> j ∈ rs -> False.

(** A solution: values [x] and [y] with [x = y] at the packets that arrived. *)
Definition solution (z : nat -> Z) : Prop :=
  (forall j, (j < cols)%nat -> is_byte (z j)) /\ (forall s, s ∈ ss -> z s = z (n + s)%nat).

(** ** Operations keep bytes and solutions *)

(** Each solution of [m] is one of [m'], and only rows of lost packets differ. *)
Record keeps (m m' : mat) : Prop := {
  keeps_bytes : mbytes n m';
  keeps_holds z : solution z -> holds n z m -> holds n z m';
  keeps_known i j : i ∉ rs -> m' i j = m i j
}.

Lemma keeps_refl m : mbytes n m -> keeps m m.
Proof. by split. Qed.

Lemma keeps_trans m1 m2 m3 : keeps m1 m2 -> keeps m2 m3 -> keeps m1 m3.
Proof. intros [_ H1 E1] [Hb H2 E2]. split; [done|auto|]. intros i j Hi. by rewrite E2, E1. Qed.

Lemma keeps_scale m r c : mbytes n m -> r ∈ rs -> is_byte c -> keeps m (scale_fn m r c).
Proof.
  intros Hm Hr Hc. pose proof (rs_lt r Hr). split.
  - intros i j Hi Hj. unfold scale_fn. case_decide; auto using gf_byte.
  - intros z [Hz _]. by apply holds_scale.
  - intros i j Hi. unfold scale_fn. by rewrite decide_False by congruence.
Qed.

Lemma keeps_add m r t c : mbytes n m -> (r < n)%nat -> t ∈ rs -> is_byte c -> keeps m (add_fn m r t c).
Proof.
  intros Hm Hr Ht Hc. pose proof (rs_lt t Ht). split.
  - intros i j Hi Hj. unfold add_fn. case_decide; auto using gf_byte, byte_lxor.
  - intros z [Hz _]. by apply holds_add.
  - intros i j Hi. unfold add_fn. by rewrite decide_False by congruence.
Qed.

Lemma keeps_clear m s t : mbytes n m -> s ∈ ss -> t ∈ rs -> keeps m (clear_fn n m s t).
Proof.
  intros Hm Hs Ht. pose proof (ss_lt s Hs). pose proof (rs_lt t Ht). split.
  - intros i j Hi Hj. unfold clear_fn, set_fn. repeat case_decide; auto using byte_zero.
    apply byte_lxor; apply Hm; lia.
  - intros z [Hz Hzs]. apply holds_clear; auto.
  - intros i j Hi. unfold clear_fn, set_fn. by rewrite !decide_False by (intros [-> _]; done).
Qed.

(** A loop of such steps. *)
Lemma keeps_foldl {A} (f : mat -> A -> mat) l m :
  (forall m a, a ∈ l -> mbytes n m -> keeps m (f m a)) -> mbytes n m -> keeps m (foldl f m l).
Proof.
  revert m. induction l as [|a l IH]; intros m Hf Hm; cbn [foldl]; [by apply keeps_refl|].
  assert (Ha : keeps m (f m a)) by (apply Hf; [by left|done]).
  eapply keeps_trans; [apply Ha|]. apply IH; [|apply Ha]. intros; apply Hf; [by right|done].
Qed.

Lemma keeps_clear_known m : mbytes n m -> keeps m (clear_known_fn n ss rs m).
Proof.
  apply keeps_foldl. intros m1 s Hs. apply keeps_foldl. intros m2 t Ht Hm2. by apply keeps_clear.
Qed.

Lemma keeps_normalize m r : mbytes n m -> r ∈ rs -> m r r <> 0 -> keeps m (normalize_fn m r).
Proof.
  intros Hm Hr Hne. unfold normalize_fn. destruct (m r r =? 1); [by apply keeps_refl|].
  pose proof (rs_lt r Hr). apply keeps_scale; [done|done|]. apply gf_divide; [apply byte_one|apply Hm; lia|done].
Qed.

Lemma keeps_eliminate m r l :
  mbytes n m -> (r < n)%nat -> (forall t, t ∈ l -> t ∈ rs) -> keeps m (eliminate_fn m r l).
Proof.
  intros Hm Hr Hl. apply keeps_foldl; [|done]. intros m1 t Ht Hm1. pose proof (rs_lt t (Hl t Ht)).
  apply keeps_add; auto. apply Hm1; lia.
Qed.

(** ** Down *)

(** Rows [D] are done, rows [T] are still to do. *)
Record down (D T : list nat) (m : mat) : Prop := {
  down_bytes : mbytes n m;
  down_known r s : r ∈ rs -> s ∈ ss -> m r s = 0;
  down_unit d : d ∈ D -> m d d = 1;
  down_below d r : d ∈ D -> r ∈ rs -> (d < r)%nat -> m r d = 0;
  down_right t t' : t ∈ T -> t' ∈ T -> m t (n + t')%nat = if decide (t = t') then 1 else 0
}.

Lemma normalize_entry m r :
  mbytes n m -> (r < n)%nat -> m r r <> 0 ->
  exists c, is_byte c /\ mul (m r r) c = 1 /\
    forall i j, (j < cols)%nat -> normalize_fn m r i j = if decide (i = r) then mul (m r j) c else m i j.
Proof.
  intros Hm Hr Hne. assert (Hp : is_byte (m r r)) by (apply Hm; lia). unfold normalize_fn.
  destruct (m r r =? 1) eqn:E.
  - apply Z.eqb_eq in E. exists 1. split; [apply byte_one|].
    split; [rewrite E; apply gf_one, byte_one|]. intros i j Hj.
    rewrite (gf_one_r (m r j)) by auto. case_decide; [by subst|done].
  - destruct (gf_divide 1 (m r r) byte_one Hp Hne) as [Hd Ed].
    exists (galois_single_divide 1 (m r r)). split; [done|]. split; [by rewrite gf_comm|done].
Qed.

(** Where the lost packets lie around [r]. *)
Lemma split_lost D r T :
  rs = D ++ r :: T ->
  r ∈ rs /\ (forall t, t ∈ T -> t ∈ rs /\ (r < t)%nat) /\ (forall d, d ∈ D -> d ∈ rs /\ (d < r)%nat) /\
  NoDup T /\ r ∉ T.
Proof.
  intros E. pose proof (sorted_NoDup rs rs_sorted) as Hnd. pose proof rs_sorted as Hs. rewrite E in Hnd, Hs.
  apply NoDup_app in Hnd as (_ & _ & [Hr HT]%NoDup_cons).
  split; [rewrite E, elem_of_app; right; by left|]. split_and!; [| |done|done].
  - intros t Ht. split; [rewrite E, elem_of_app; right; by right|].
    apply StronglySorted_app_1_r in Hs. inversion Hs as [|? ? _ Hall]; subst.
    rewrite List.Forall_forall in Hall. by apply Hall, list_elem_of_In.
  - intros d Hd. split; [rewrite E, elem_of_app; by left|].
    apply (StronglySorted_app_1_elem_of lt D (r :: T)); [done|done|by left].
Qed.

(** One step of the way down, entry by entry. *)
Lemma down_step_entry D r T m :
  rs = D ++ r :: T -> mbytes n m -> m r r <> 0 ->
  exists c, is_byte c /\ mul (m r r) c = 1 /\ forall i j, (j < cols)%nat ->
    eliminate_fn (normalize_fn m r) r T i j =
    if decide (i ∈ T) then Z.lxor (m i j) (mul (mul (m r j) c) (m i r))
    else if decide (i = r) then mul (m r j) c else m i j.
Proof.
  intros E Hm Hne. destruct (split_lost D r T E) as (Hr & _ & _ & HT & HrT). pose proof (rs_lt r Hr) as Hrn.
  destruct (normalize_entry m r) as (c & Hc & Ec & En); [done..|]. exists c. split; [done|]. split; [done|].
  intros i j Hj. rewrite eliminate_fn_spec by done. rewrite !En by lia.
  destruct (decide (i ∈ T)) as [Hi|Hi]; [|done].
  by rewrite (decide_True (P := r = r)), !(decide_False (P := i = r)) by (done || by intros ->).
Qed.

Lemma down_step D r T m :
  rs = D ++ r :: T -> down D (r :: T) m -> m r r <> 0 ->
  down (D ++ [r]) T (eliminate_fn (normalize_fn m r) r T) /\ keeps m (eliminate_fn (normalize_fn m r) r T).
Proof.
  intros E [Hb Hk Hu Hbel Hri] Hne. destruct (split_lost D r T E) as (Hr & HT & HD & HndT & HrT).
  pose proof (rs_lt r Hr) as Hrn.
  assert (Hkeep : keeps m (eliminate_fn (normalize_fn m r) r T)).
  { eapply keeps_trans; [by apply keeps_normalize|]. apply keeps_eliminate; [by apply keeps_normalize|done|].
    intros t Ht. by apply HT. }
  split; [|done]. destruct (down_step_entry D r T m E Hb Hne) as (c & Hc & Ec & Hent).
  assert (Hcol : forall i j, i ∈ rs -> (j < cols)%nat -> m i j = 0 -> m r j = 0 ->
    eliminate_fn (normalize_fn m r) r T i j = 0).
  { intros i j Hi Hj Ei Er. rewrite Hent, Ei, Er, (gf_zero_l c) by done.
    rewrite gf_zero_l by (apply Hb; auto with lia). repeat case_decide; done. }
  assert (Hpiv : mul (mul (m r r) c) (m r r) = m r r) by (rewrite Ec; apply gf_one; apply Hb; lia).
  split.
  - apply Hkeep.
  - intros i s Hi Hs. specialize (ss_lt s Hs). apply Hcol; auto with lia.
  - intros d [Hd|Hd%list_elem_of_singleton]%elem_of_app; [|subst d].
    + destruct (HD d Hd) as [Hdr Hlt]. rewrite Hent by (specialize (rs_lt d Hdr); lia).
      rewrite decide_False by (intros Ht; apply HT in Ht; lia). rewrite decide_False by lia. auto.
    + rewrite Hent by lia. by rewrite decide_False, decide_True by done.
  - intros d i [Hd|Hd%list_elem_of_singleton]%elem_of_app Hi Hlt; [|subst d].
    + destruct (HD d Hd) as [Hdr Hlt']. apply Hcol; auto. specialize (rs_lt d Hdr). lia.
    + assert (HiT : i ∈ T).
      { rewrite E in Hi. apply elem_of_app in Hi as [Hi|Hi]; [apply HD in Hi; lia|].
        apply elem_of_cons in Hi as [|]; [lia|done]. }
      rewrite Hent, decide_True, Ec by (done || lia). rewrite gf_one by (apply Hb; auto with lia).
      apply Z.lxor_nilpotent.
  - intros t t' Ht Ht'. destruct (HT t Ht) as [Htr Hlt], (HT t' Ht') as [Htr' Hlt'].
    specialize (rs_lt t' Htr') as Htn'. specialize (rs_lt t Htr) as Htn.
    rewrite Hent, decide_True, (Hri r t') by (try lia; try done; by left || by right).
    rewrite (decide_False (P := r = t')) by lia. rewrite (gf_zero_l c), gf_zero_l, Z.lxor_0_r by (done || apply Hb; lia).
    apply Hri; by right.
Qed.

(** [forward] from a matrix with solutions to a triangular one. *)
Lemma down_loop T D m m' :
  rs = D ++ T -> down D T m -> forward_fn T m = Some m' -> down rs [] m' /\ keeps m m'.
Proof.
  revert D m. induction T as [|r T IH]; intros D m E Hd Hf; cbn in Hf.
  { injection Hf as <-. rewrite app_nil_r in E. subst D. split; [done|apply keeps_refl, Hd]. }
  destruct (m r r =? 0) eqn:Ep; [done|]. apply Z.eqb_neq in Ep.
  destruct (down_step D r T m E Hd Ep) as [Hd' Hk].
  destruct (IH (D ++ [r]) _ ltac:(by rewrite <- app_assoc) Hd' Hf) as [Hd2 Hk2].
  split; [done|]. by eapply keeps_trans.
Qed.

(** *** When no pivot is zero *)

(** [m] has a solution that is zero at [x] after [r] and at [y] before [r]. *)
Definition separates (m : mat) (D : list nat) (r : nat) : Prop :=
  exists z, solution z /\ holds n z m /\ (forall j, (j < n)%nat -> j ∉ D -> j <> r -> z j = 0) /\
    (forall j, j ∈ ss \/ j ∈ D -> z (n + j)%nat = 0) /\ z (n + r)%nat <> 0.

Lemma row_halves z m i :
  holds n z m -> (i < n)%nat ->
  gf_sum (fun j => mul (m i j) (z j)) n = gf_sum (fun j => mul (m i (n + j)%nat) (z (n + j)%nat)) n.
Proof.
  intros Hz Hi. specialize (Hz i Hi). replace cols with (n + n)%nat in Hz by lia. rewrite gf_sum_add in Hz.
  by apply Z.lxor_eq.
Qed.

Lemma pivot_nonzero D r T m :
  rs = D ++ r :: T -> down D (r :: T) m -> separates m D r -> m r r <> 0.
Proof.
  intros E Hd (z & [Hzb Hzs] & Hz & Hx & Hy & Hne) Ep. apply Hne.
  destruct (split_lost D r T E) as (Hr & HT & HD & _ & _). pose proof (rs_lt r Hr) as Hrn.
  pose proof (row_halves z m r Hz Hrn) as Erow.
  assert (Hb : forall j, (j < cols)%nat -> is_byte (m r j)) by (intros; apply Hd; done || lia).
  rewrite (gf_sum_ext _ (fun _ => 0)), gf_sum_zero, (gf_sum_single _ n r) in Erow.
  - rewrite (down_right _ _ _ Hd r r), decide_True, gf_one in Erow by (done || (by left) || apply Hzb; lia). done.
  - done.
  - intros j Hj Hjr. assert (Hjb : is_byte (m r (n + j)%nat)) by (apply Hb; lia).
    assert (Hzj : is_byte (z (n + j)%nat)) by (apply Hzb; lia).
    destruct (cover j Hj) as [Hs|Hl]; [by rewrite Hy, gf_zero_r by (done || by left)|].
    rewrite E in Hl. apply elem_of_app in Hl as [HjD|HjT]; [by rewrite Hy, gf_zero_r by (done || by right)|].
    apply elem_of_cons in HjT as [|HjT]; [done|].
    by rewrite (down_right _ _ _ Hd r j), decide_False, gf_zero_l by (done || (by left) || by right).
  - intros j Hj. assert (Hzj : is_byte (z j)) by (apply Hzb; lia).
    destruct (decide (j = r)) as [->|Hjr]; [by rewrite Ep, gf_zero_l|].
    destruct (decide (j ∈ D)) as [HjD|HjD].
    + rewrite (down_below _ _ _ Hd j r), gf_zero_l; auto. by apply HD.
    + rewrite Hx, gf_zero_r by (done || apply Hb; lia). done.
Qed.

Lemma separates_keeps m m' D r : keeps m m' -> separates m D r -> separates m' D r.
Proof. intros [_ Hk _] (z & Hs & Hz & Hrest). exists z. split; [done|]. split; [by apply Hk|done]. Qed.

Lemma forward_total T D m :
  rs = D ++ T -> down D T m ->
  (forall D1 r T1, rs = D1 ++ r :: T1 -> separates m D1 r) -> is_Some (forward_fn T m).
Proof.
  revert D m. induction T as [|r T IH]; intros D m E Hd Hsep; cbn; [done|].
  assert (Hne : m r r <> 0) by (eapply pivot_nonzero; eauto).
  rewrite (proj2 (Z.eqb_neq _ _) Hne). destruct (down_step D r T m E Hd Hne) as [Hd' Hk].
  apply (IH (D ++ [r])); [by rewrite <- app_assoc|done|].
  intros D1 r1 T1 E1. eapply separates_keeps; [done|]. by eapply Hsep.
Qed.

(** ** Up *)

(** The columns [P] are those of the identity. *)
Record up (P : list nat) (m : mat) : Prop := {
  up_down : down rs [] m;
  up_lost p : p ∈ P -> p ∈ rs;
  up_clear r p : r ∈ rs -> p ∈ P -> r <> p -> m r p = 0
}.

Lemma up_step P r above m :
  r ∈ rs -> (forall a, a ∈ above -> a ∈ rs /\ (a < r)%nat) -> NoDup above ->
  (forall x, x ∈ rs -> x ∈ above \/ x = r \/ x ∈ P) -> (forall x, x ∈ rs -> (x < r)%nat -> x ∈ above) ->
  up P m -> up (r :: P) (eliminate_fn (normalize_fn m r) r above) /\
  keeps m (eliminate_fn (normalize_fn m r) r above).
Proof.
  intros Hr Hab Hnd Hall Hlow [Hd Hsub Hc]. pose proof (rs_lt r Hr) as Hrn.
  pose proof (down_unit _ _ _ Hd r Hr) as Hone. pose proof (down_bytes _ _ _ Hd) as Hb.
  assert (En : normalize_fn m r = m) by (unfold normalize_fn; by rewrite Hone). rewrite En.
  assert (Hni : r ∉ above) by (intros H%Hab; lia).
  assert (Hkeep : keeps m (eliminate_fn m r above))
    by (apply keeps_eliminate; [done|done|]; intros t Ht; apply Hab, Ht).
  split; [|done].
  assert (Hrow : forall j, j ∈ ss \/ j ∈ rs -> j <> r -> m r j = 0).
  { intros j [Hj|Hj] Hjr; [by apply (down_known _ _ _ Hd)|].
    destruct (decide (j < r)%nat) as [Hlt|Hge]; [by apply (down_below _ _ _ Hd)|].
    destruct (Hall j Hj) as [Ha|[|HP]]; [apply Hab in Ha; lia|done|by apply Hc]. }
  assert (Hsame : forall i j, i ∈ rs -> j ∈ ss \/ j ∈ rs -> j <> r -> eliminate_fn m r above i j = m i j).
  { intros i j Hi Hj Hjr. rewrite eliminate_fn_spec, (Hrow j) by done. case_decide; [|done].
    rewrite gf_zero_l, Z.lxor_0_r by (apply Hb; [auto|lia]). done. }
  assert (Hcol : forall i, i ∈ rs -> i <> r -> eliminate_fn m r above i r = 0).
  { intros i Hi Hir. rewrite eliminate_fn_spec, Hone by done. case_decide as Ha.
    - rewrite gf_one by (apply Hb; [auto|lia]). apply Z.lxor_nilpotent.
    - apply (down_below _ _ _ Hd); try done. destruct (decide (i < r)%nat); [|lia]. by destruct Ha; apply Hlow. }
  assert (Hself : forall j, eliminate_fn m r above r j = m r j).
  { intros j. by rewrite eliminate_fn_spec, decide_False by done. }
  split; [split| |].
  - apply Hkeep.
  - intros i s Hi Hs. rewrite Hsame; [by apply (down_known _ _ _ Hd)|done|by left|]. intros ->. by eapply disjoint.
  - intros d Hdr. destruct (decide (d = r)) as [->|]; [by rewrite Hself|].
    rewrite Hsame by auto. by apply (down_unit _ _ _ Hd).
  - intros d i Hdr Hi Hlt. destruct (decide (d = r)) as [->|]; [apply Hcol; [done|lia]|].
    rewrite Hsame by auto. by apply (down_below _ _ _ Hd).
  - intros t t' Ht. by apply elem_of_nil in Ht.
  - intros p [->|Hp]%elem_of_cons; auto.
  - intros i p Hi [->|Hp]%elem_of_cons Hip; [by apply Hcol|].
    destruct (decide (p = r)) as [->|Hpr]; [by apply Hcol|]. rewrite Hsame by auto. by apply Hc.
Qed.

Lemma up_loop todo P vdm m :
  repr n vdm m -> up P m -> (forall t, t ∈ todo -> t ∈ rs) -> StronglySorted gt todo ->
  (forall x, x ∈ rs -> x ∈ todo \/ x ∈ P) -> (forall p t, p ∈ P -> t ∈ todo -> (t < p)%nat) ->
  exists vdm' m', backward cols todo vdm = Ok vdm' /\ repr n vdm' m' /\ up rs m' /\ keeps m m'.
Proof.
  intros R Hup Hsub Hs. revert P vdm m R Hup Hsub.
  induction Hs as [|r above Hs IH Hgt]; intros P vdm m R Hup Hsub Hall Hlt; cbn [backward].
  { exists vdm, m. split; [done|]. split; [done|]. split; [|apply keeps_refl, Hup].
    split; [apply Hup|done|]. intros r p Hr Hp. apply Hup; [done|]. destruct (Hall p Hp) as [H|]; [|done].
    by apply elem_of_nil in H. }
  rewrite List.Forall_forall in Hgt.
  assert (Hr : r ∈ rs) by (apply Hsub; by left). pose proof (rs_lt r Hr) as Hrn.
  assert (Hab : forall a, a ∈ above -> a ∈ rs /\ (a < r)%nat).
  { intros a Ha. split; [apply Hsub; by right|]. apply list_elem_of_In in Ha. specialize (Hgt a Ha). lia. }
  assert (Hni : r ∉ above) by (intros H%Hab; lia).
  assert (Hnd : NoDup above).
  { clear -Hs. induction Hs as [|a l Hs IH Ha]; constructor; [|done]. intros Hin%list_elem_of_In.
    rewrite List.Forall_forall in Ha. apply Ha in Hin. lia. }
  pose proof (down_unit _ _ _ (up_down _ _ Hup) r Hr) as Hone.
  destruct (normalize_repr n vdm m r R Hrn) as (vdm1 & -> & R1); [by rewrite Hone|]. rewrite bind_ok.
  destruct (eliminate_repr n vdm1 _ r above R1 Hrn) as (vdm2 & -> & R2); [|done|].
  { apply List.Forall_forall. intros a Ha%list_elem_of_In. by apply rs_lt, Hab. }
  rewrite bind_ok. destruct (up_step P r above m) as [Hup' Hk]; try done.
  { intros x Hx. destruct (Hall x Hx) as [[->|]%elem_of_cons|]; auto. }
  { intros x Hx Hxr. destruct (Hall x Hx) as [[->|]%elem_of_cons|HP]; [lia|done|].
    specialize (Hlt x r HP ltac:(by left)). lia. }
  destruct (IH (r :: P) vdm2 _ R2 Hup') as (vdm3 & m3 & E3 & R3 & Hup3 & Hk3).
  - intros t Ht. by apply Hab.
  - intros x Hx. rewrite elem_of_cons. destruct (Hall x Hx) as [[->|]%elem_of_cons|]; auto.
  - intros p t [->|Hp]%elem_of_cons Ht; [by apply Hab|]. apply Hlt; [done|by right].
  - exists vdm3, m3. do 3 (split; [done|]). by eapply keeps_trans.
Qed.

(** The left half is the identity: the right half computes [x]. *)
Lemma up_solves m z r :
  up rs m -> solution z -> holds n z m -> r ∈ rs ->
  gf_sum (fun j => mul (m r (n + j)%nat) (z (n + j)%nat)) n = z r.
Proof.
  intros Hup [Hzb _] Hz Hr. pose proof (rs_lt r Hr) as Hrn. rewrite <- (row_halves z m r Hz Hrn).
  rewrite (gf_sum_single _ n r Hrn).
  - rewrite (down_unit _ _ _ (up_down _ _ Hup) r Hr), gf_one by (apply Hzb; lia). done.
  - intros j Hj Hjr. assert (Hzj : is_byte (z j)) by (apply Hzb; lia).
    destruct (cover j Hj) as [Hs|Hl].
    + rewrite (down_known _ _ _ (up_down _ _ Hup) r j) by done. by apply gf_zero_l.
    + rewrite (up_clear _ _ Hup r j) by congruence. by apply gf_zero_l.
Qed.

(** ** [solve] *)

Context {HP : Heap}.
(** The coding matrix: [V i] is the row built for packet [i]. *)
Variable V : mat.
Hypothesis V_bytes : forall i j, (i < n)%nat -> (j < n)%nat -> is_byte (V i j).
Hypothesis V_known : forall s j, s ∈ ss -> (j < n)%nat -> V s j = if decide (s = j) then 1 else 0.

Definition left_half (vdm : list Z) : Prop :=
  length vdm = (n * cols)%nat /\ forall i j, (i < n)%nat -> (j < n)%nat -> vdm !! (i * cols + j)%nat = Some (V i j).

Definition augmented : mat :=
  fun i j => if decide (j < n)%nat then V i j else if decide (i = j - n)%nat then 1 else 0.

Lemma right_identity_repr vdm :
  left_half vdm -> exists vdm', right_identity n vdm = Ok vdm' /\ repr n vdm' augmented.
Proof.
  intros [Hlen Hl].
  assert (Hrows : forall k, (k <= n)%nat -> exists vdm',
    foldM (fun vdm i => unit_row vdm (i * cols + n) n i) (seq 0 k) vdm = Ok vdm' /\ length vdm' = length vdm /\
    forall i j, (i < n)%nat -> (j < cols)%nat -> vdm' !! (i * cols + j)%nat =
      if decide (i < k /\ n <= j)%nat then Some (if decide (i = j - n)%nat then 1 else 0) else vdm !! (i * cols + j)%nat).
  { induction k as [|k IH]; intros Hk; [eexists; split_and!; [done..|]|].
    { intros i j Hi Hj. by rewrite decide_False by lia. }
    destruct IH as (vdm1 & E1 & Hlen1 & H1); [lia|]. rewrite seq_S, foldM_app, E1, bind_ok.
    cbn [foldM]. rewrite Nat.add_0_l. unfold unit_row at 1.
    destruct (fill_loop vdm1 (k * cols + n) n (fun j => if (k =? j)%nat then 1 else 0))
      as (vdm2 & -> & Hlen2 & Hin & Hout); [rewrite Hlen1, Hlen; nia|].
    rewrite bind_ok. exists vdm2. split; [done|]. split; [lia|]. intros i j Hi Hj.
    destruct (decide (i = k /\ n <= j)%nat) as [[-> Hj']|Hne].
    - replace (k * cols + j)%nat with (k * cols + n + (j - n))%nat by lia. rewrite Hin by lia.
      rewrite decide_True by lia. destruct (Nat.eqb_spec k (j - n)); case_decide; done.
    - assert (Hcase : i = k \/ (i * cols + j < k * cols \/ k * cols + cols <= i * cols + j)%nat)
        by (destruct (decide (i = k)); [by left|right; by apply other_row]).
      rewrite Hout, H1 by (done || destruct Hcase; subst; lia).
      destruct (decide (i < k /\ n <= j)%nat), (decide (i < S k /\ n <= j)%nat); (done || lia). }
  destruct (Hrows n) as (vdm' & E & Hlen' & H); [lia|]. exists vdm'. split; [done|].
  split; [by rewrite Hlen', Hlen|]. intros i j Hi Hj. rewrite H by done. unfold augmented.
  destruct (decide (j < n)%nat) as [Hjn|Hjn].
  - rewrite decide_False, Hl by lia. auto.
  - rewrite decide_True by lia. case_decide; auto using byte_one, byte_zero.
Qed.

(** The FEC payloads [y] of the data [x] solve the equations. *)
Definition data_solution (x : nat -> Z) : nat -> Z :=
  fun j => if decide (j < n)%nat then x j else gf_sum (fun k => mul (V (j - n)%nat k) (x k)) n.

Lemma data_solution_right x j : data_solution x (n + j) = gf_sum (fun k => mul (V j k) (x k)) n.
Proof. unfold data_solution. rewrite decide_False by lia. by replace (n + j - n)%nat with j by lia. Qed.

Section Data.
Variable x : nat -> Z.
Hypothesis x_bytes : forall j, (j < n)%nat -> is_byte (x j).

Lemma data_known s : s ∈ ss -> gf_sum (fun k => mul (V s k) (x k)) n = x s.
Proof.
  intros Hs. pose proof (ss_lt s Hs). rewrite (gf_sum_single _ n s) by
    (done || intros j Hj Hne; rewrite V_known, decide_False by auto; by apply gf_zero_l, x_bytes).
  rewrite V_known, decide_True by done. by apply gf_one, x_bytes.
Qed.

Lemma data_solution_ok : solution (data_solution x) /\ holds n (data_solution x) augmented.
Proof.
  assert (Hy : forall j, (j < n)%nat -> is_byte (data_solution x (n + j))).
  { intros j Hj. rewrite data_solution_right. apply gf_sum_byte. auto using gf_byte. }
  assert (Hx : forall j, (j < n)%nat -> data_solution x j = x j).
  { intros j Hj. unfold data_solution. by rewrite decide_True. }
  split; [split|].
  - intros j Hj. destruct (decide (j < n)%nat) as [Hjn|Hjn]; [rewrite Hx; auto|].
    replace j with (n + (j - n))%nat by lia. apply Hy. lia.
  - intros s Hs. rewrite data_solution_right, Hx by auto. by rewrite data_known.
  - intros i Hi. replace cols with (n + n)%nat by lia. rewrite gf_sum_add.
    rewrite (gf_sum_ext _ (fun k => mul (V i k) (x k)))
      by (intros j Hj; unfold augmented; by rewrite decide_True, Hx).
    rewrite <- data_solution_right, (gf_sum_single (fun j => mul (augmented i (n + j)%nat) (data_solution x (n + j)%nat)) n i Hi).
    + unfold augmented. rewrite decide_False, decide_True, gf_one by (lia || auto). apply Z.lxor_nilpotent.
    + intros j Hj Hne. unfold augmented. rewrite decide_False, decide_False by lia. apply gf_zero_l. auto.
Qed.

End Data.

Lemma clear_known_down : down [] rs (clear_known_fn n ss rs augmented) /\ keeps augmented (clear_known_fn n ss rs augmented).
Proof.
  assert (Hk : keeps augmented (clear_known_fn n ss rs augmented)).
  { apply keeps_clear_known. intros i j Hi Hj. unfold augmented. repeat case_decide; auto using byte_zero, byte_one. }
  assert (Hlt : Forall (fun i => i < n)%nat ss) by (apply Forall_forall; apply ss_lt).
  pose proof (sorted_NoDup rs rs_sorted) as Hnd.
  split; [|done]. split.
  - apply Hk.
  - intros r s Hr Hs. by rewrite clear_known_spec, !decide_True by done.
  - intros d Hd. by apply elem_of_nil in Hd.
  - intros d r Hd. by apply elem_of_nil in Hd.
  - intros t t' Ht Ht'. rewrite clear_known_spec, decide_True by done.
    rewrite decide_False by (intros H%ss_lt; lia).
    replace (n + t' - n)%nat with t' by lia. rewrite decide_False by (intros [_ H]; by eapply disjoint).
    unfold augmented. rewrite decide_False by lia. by replace (n + t' - n)%nat with t' by lia.
Qed.

(** *** The rows returned *)

Lemma copy_right_ok vdm m out size :
  repr n vdm m -> Forall (fun i => i < n)%nat out -> (length out * n <= size)%nat ->
  exists dist, copy_right n vdm out (fresh size) = Ok dist /\ length dist = size /\
    forall k r j, out !! k = Some r -> (j < n)%nat -> dist !! (k * n + j)%nat = Some (m r (n + j)%nat).
Proof.
  intros R Ho Hsize. unfold copy_right.
  assert (Hloop : forall l, (exists l', out = l ++ l') -> exists dist,
    foldM (fun dist (ir : nat * nat) =>
      foldM (fun dist j => let! v := buf_get vdm (ir.2 * cols + n + j) in buf_set dist (ir.1 * n + j) v)
        (seq 0 n) dist) (combine (seq 0 (length l)) l) (fresh size) = Ok dist /\ length dist = size /\
    forall k r j, l !! k = Some r -> (j < n)%nat -> dist !! (k * n + j)%nat = Some (m r (n + j)%nat)).
  { induction l as [|r l IH] using rev_ind; intros [l' El].
    { eexists. split; [done|]. split; [apply length_fresh|]. intros k r j H. by rewrite lookup_nil in H. }
    destruct IH as (dist & E & Hlen & H); [exists (r :: l'); by rewrite El, <- app_assoc|].
    rewrite length_app. cbn [length]. rewrite Nat.add_1_r, seq_S.
    rewrite combine_app, foldM_app by (by rewrite length_seq).
    rewrite E, bind_ok. cbn [combine foldM fst snd]. rewrite Nat.add_0_l.
    rewrite El, !length_app in Hsize. cbn [length] in Hsize.
    assert (Hr : (r < n)%nat) by (rewrite El, !Forall_app in Ho; destruct Ho as [[_ Hr] _]; by inversion Hr).
    edestruct (window_loop dist (length l * n) n) with (v := fun j => m r (n + j)%nat)
      as (dist' & -> & Hlen' & Hin & Hout); [nia| |].
    { intros d' j Hj _ _. cbn beta. rewrite <- (Nat.add_assoc (r * cols)), (repr_get n vdm m r) by (done || lia).
      done. }
    rewrite bind_ok. exists dist'. split; [done|]. split; [lia|]. intros k r' j Hk Hj.
    apply lookup_snoc_Some in Hk as [[Hlt Hk]|[-> <-]].
    - rewrite Hout by nia. by apply H.
    - rewrite Hin by done. rewrite uw_small; [done|]. eapply repr_byte; eauto; lia. }
  apply Hloop. exists []. by rewrite app_nil_r.
Qed.

(** Row [k] of [dist] recovers packet [out !! k]. *)
Definition recovers (dist : list Z) (out : list nat) : Prop :=
  forall k r, out !! k = Some r -> forall x, (forall j, (j < n)%nat -> is_byte (x j)) ->
    gf_sum (fun j => mul (dist !!! (k * n + j)%nat) (gf_sum (fun i => mul (V j i) (x i)) n)) n = x r.

Lemma finish_ok vdm m out size :
  repr n vdm m -> down rs [] m -> keeps augmented m ->
  Forall (fun i => i < n)%nat out -> (length out * n <= size)%nat ->
  exists vdm' dist, backward cols (rev rs) vdm = Ok vdm' /\ copy_right n vdm' out (fresh size) = Ok dist /\
    length dist = size /\ recovers dist out.
Proof.
  intros R Hd Hk Ho Hsize.
  destruct (up_loop (rev rs) [] vdm m) as (vdm' & m' & -> & R' & Hup & Hk').
  - done.
  - split; [done|..]; intros p; [|intros q]; intros; by (match goal with H : _ ∈ [] |- _ => apply elem_of_nil in H end).
  - intros t Ht%list_elem_of_In%in_rev. by apply list_elem_of_In.
  - by apply sorted_rev.
  - intros y Hy. left. apply list_elem_of_In. rewrite <- in_rev. by apply list_elem_of_In.
  - intros p t Hp. by apply elem_of_nil in Hp.
  - destruct (copy_right_ok vdm' m' out size R' Ho Hsize) as (dist & E & Hlen & Hdist).
    exists vdm', dist. do 3 (split; [done|]). intros k r Hkr x Hx.
    assert (Hrn : (r < n)%nat) by (rewrite Forall_lookup in Ho; by eapply Ho).
    rewrite (gf_sum_ext _ (fun j => mul (m' r (n + j)%nat) (data_solution x (n + j)%nat))).
    2:{ intros j Hj. rewrite data_solution_right. by rewrite (list_lookup_total_correct _ _ _ (Hdist k r j Hkr Hj)). }
    destruct (data_solution_ok x Hx) as [Hsol Hh].
    assert (Hkeep : keeps augmented m') by (by eapply keeps_trans).
    assert (Hxr : data_solution x r = x r) by (unfold data_solution; by rewrite decide_True).
    destruct (cover r Hrn) as [Hs|Hl]; [|by rewrite (up_solves m' _ r Hup Hsol) by (done || by apply Hkeep)].
    assert (Hni : r ∉ rs) by (intros Hin; by eapply disjoint).
    rewrite (gf_sum_single _ n r Hrn); [|intros j Hj Hne]; rewrite (keeps_known _ _ Hkeep) by done; unfold augmented;
      rewrite decide_False by lia.
    + rewrite decide_True, gf_one, data_solution_right by (lia || apply Hsol; lia). by rewrite data_known.
    + rewrite decide_False by lia. apply gf_zero_l, Hsol. lia.
Qed.

(** The elimination of [augmented] meets no zero pivot. *)
Definition regular : Prop := is_Some (forward_fn rs (clear_known_fn n ss rs augmented)).

Lemma solve_regular checked st out size :
  left_half (rows_vdm st) -> s_list st = ss -> r_list st = rs ->
  Forall (fun i => i < n)%nat out -> (length out * n <= size)%nat -> regular ->
  exists dist, solve checked n size st out = Ok (Some dist) /\ length dist = size /\ recovers dist out.
Proof.
  intros Hl Es Er Ho Hsize [m Ef]. unfold solve. rewrite Es, Er.
  destruct (right_identity_repr _ Hl) as (vdm1 & -> & R1). rewrite bind_ok.
  assert (Hlt : forall l, (forall i, i ∈ l -> (i < n)%nat) -> Forall (fun i => i < n)%nat l)
    by (intros l H; by apply Forall_forall).
  destruct (clear_known_repr n ss rs vdm1 augmented R1) as (vdm2 & -> & R2); [by apply Hlt..|]. rewrite bind_ok.
  destruct clear_known_down as [Hd Hk].
  destruct (forward_repr n checked rs vdm2 _ m R2) as (vdm3 & -> & R3); [by apply Hlt|by apply sorted_NoDup|done|].
  rewrite bind_ok. destruct (down_loop rs [] _ m eq_refl Hd Ef) as [Hd3 Hk3].
  destruct (finish_ok vdm3 m out size R3 Hd3) as (vdm4 & dist & -> & E & Hlen & Hrec); [by eapply keeps_trans|done..|].
  rewrite bind_ok, E, bind_ok. eauto.
Qed.

Lemma solve_refused st out size :
  left_half (rows_vdm st) -> s_list st = ss -> r_list st = rs -> ~ regular ->
  solve true n size st out = Ok None.
Proof.
  intros Hl Es Er Hn. unfold solve. rewrite Es, Er.
  destruct (right_identity_repr _ Hl) as (vdm1 & -> & R1). rewrite bind_ok.
  assert (Hlt : forall l, (forall i, i ∈ l -> (i < n)%nat) -> Forall (fun i => i < n)%nat l)
    by (intros l H; by apply Forall_forall).
  destruct (clear_known_repr n ss rs vdm1 augmented R1) as (vdm2 & -> & R2); [by apply Hlt..|]. rewrite bind_ok.
  rewrite (forward_refused n rs vdm2 _ R2); [done|by apply Hlt|by apply sorted_NoDup|].
  by apply eq_None_not_Some.
Qed.

(** Enough solutions separate the packets. *)
Lemma regular_separates :
  (forall D r T, rs = D ++ r :: T -> separates augmented D r) -> regular.
Proof.
  intros Hsep. destruct clear_known_down as [Hd Hk]. apply (forward_total rs [] _ eq_refl Hd).
  intros D r T E. eapply separates_keeps; [done|]. by eapply Hsep.
Qed.

End Solve.

(** ** By the packets that arrived *)

Definition arrived (known : nat -> bool) (n : nat) : list nat := filter (fun i => known i = true) (seq 0 n).
Definition lost (known : nat -> bool) (n : nat) : list nat := filter (fun i => known i = false) (seq 0 n).

Lemma arrived_elem known n i : i ∈ arrived known n <-> (i < n)%nat /\ known i = true.
Proof. unfold arrived. rewrite list_elem_of_filter, elem_of_seq. naive_solver lia. Qed.

Lemma lost_elem known n i : i ∈ lost known n <-> (i < n)%nat /\ known i = false.
Proof. unfold lost. rewrite list_elem_of_filter, elem_of_seq. naive_solver lia. Qed.

Lemma lost_S known n : lost known (S n) = lost known n ++ (if known n then [] else [n]).
Proof. unfold lost. rewrite seq_S, filter_app, filter_cons, filter_nil. cbn. by destruct (known n). Qed.

Lemma arrived_S known n : arrived known (S n) = arrived known n ++ (if known n then [n] else []).
Proof. unfold arrived. rewrite seq_S, filter_app, filter_cons, filter_nil. cbn. by destruct (known n). Qed.

Lemma filter_seq_sorted (P : nat -> Prop) `{forall x, Decision (P x)} n : StronglySorted lt (filter P (seq 0 n)).
Proof.
  induction n as [|n IH]; [constructor|]. rewrite seq_S, filter_app, filter_cons, filter_nil. cbn.
  apply StronglySorted_app. split_and!; [|done|].
  - intros x y Hx Hy. apply list_elem_of_filter in Hx as [_ Hx%elem_of_seq].
    case_decide; [apply list_elem_of_singleton in Hy|by apply elem_of_nil in Hy]. lia.
  - case_decide; repeat constructor.
Qed.

Lemma arrived_lt known n s : s ∈ arrived known n -> (s < n)%nat.
Proof. rewrite arrived_elem. tauto. Qed.
Lemma lost_lt known n r : r ∈ lost known n -> (r < n)%nat.
Proof. rewrite lost_elem. tauto. Qed.
Lemma arrived_nodup known n : NoDup (arrived known n).
Proof. apply sorted_NoDup, filter_seq_sorted. Qed.
Lemma lost_sorted known n : StronglySorted lt (lost known n).
Proof. apply filter_seq_sorted. Qed.
Lemma arrived_or_lost known n j : (j < n)%nat -> j ∈ arrived known n \/ j ∈ lost known n.
Proof. rewrite arrived_elem, lost_elem. destruct (known j); auto. Qed.
Lemma arrived_not_lost known n j : j ∈ arrived known n -> j ∈ lost known n -> False.
Proof. rewrite arrived_elem, lost_elem. intros [_ H1] [_ H2]. congruence. Qed.

Create HintDb packets.
#[export] Hint Resolve arrived_lt lost_lt arrived_nodup lost_sorted arrived_or_lost arrived_not_lost : packets.

Section Known.
Context {G : Galois} {GL : GaloisLaws G} {HP : Heap}.
Variable n : nat.
Variable known : nat -> bool.
Variable V : mat.

(** The coding matrix [V] has byte entries and unit rows for arrived packets. *)
Record coding : Prop := {
  coding_bytes i j : (i < n)%nat -> (j < n)%nat -> is_byte (V i j);
  coding_known s j : (s < n)%nat -> known s = true -> (j < n)%nat -> V s j = if decide (s = j) then 1 else 0
}.

(** The rows [build] leaves behind. *)
Record built (st : Rows) : Prop := {
  built_left : left_half n V (rows_vdm st);
  built_known : s_list st = arrived known n;
  built_lost : r_list st = lost known n
}.

Lemma solve_known_regular checked st out size :
  coding -> built st -> Forall (fun i => i < n)%nat out -> (length out * n <= size)%nat ->
  regular n (arrived known n) (lost known n) V ->
  exists dist, solve checked n size st out = Ok (Some dist) /\ length dist = size /\ recovers n V dist out.
Proof.
  intros [Hb Hk] [Hl Es Er]. apply (solve_regular n (arrived known n) (lost known n)); eauto with packets.
  intros s j [Hs Hks]%arrived_elem. by apply Hk.
Qed.

Lemma solve_known_refused st out size :
  coding -> built st -> ~ regular n (arrived known n) (lost known n) V -> solve true n size st out = Ok None.
Proof.
  intros [Hb Hk] [Hl Es Er]. apply (solve_refused n (arrived known n) (lost known n)); eauto with packets.
Qed.

Lemma regular_known :
  coding ->
  (forall D r T, lost known n = D ++ r :: T -> separates n (arrived known n) (augmented n V) D r) ->
  regular n (arrived known n) (lost known n) V.
Proof.
  intros [Hb Hk]. apply regular_separates; eauto with packets.
Qed.

End Known.
