(* ===== verification/Vandermonde.v ===== *)
(** * Vandermonde: distinct nodes leave no zero pivot

    For distinct nodes [X k] there are coefficients whose power sums vanish up
    to the last one (divided differences).  They are the solutions that show
    that the elimination of a Vandermonde matrix never meets a zero pivot. *)

From stdpp Require Import sorting.
From S2P Require Import Prelude.
From S2P Require Import CowBuffer.
From S2P Require Import Galois.
From S2P Require Import ReedSolMatrix.
From S2P Require Import ReedSolInverse.
From S2P Require Import ReedSolSolve.

Section Moments.
Context {G : Galois} {GL : GaloisLaws G}.
Variable n : nat.
Variable X : nat -> Z.
Hypothesis X_bytes : forall k, is_byte (X k).

Abbreviation mul := galois_single_multiply.

Definition moment (x : nat -> Z) (i : nat) : Z := gf_sum (fun k => mul (x k) (gf_pow (X k) i)) n.

Lemma moment_byte x i : (forall k, is_byte (x k)) -> is_byte (moment x i).
Proof. intros Hx. apply gf_sum_byte. intros k _. apply gf_byte; auto using gf_pow_byte. Qed.

(** A node [r] is added: the coefficients are divided by the distance to it,
    its own makes the first moment zero. *)
Definition add_node (x : nat -> Z) (r : nat) : nat -> Z :=
  let y k := if decide (x k = 0) then 0 else galois_single_divide (x k) (Z.lxor (X k) (X r)) in
  fun k => if decide (k = r) then gf_sum y n else y k.

Section AddNode.
Variables (x : nat -> Z) (r : nat).
Hypothesis x_bytes : forall k, is_byte (x k).
Hypothesis x_r : x r = 0.
Hypothesis r_lt : (r < n)%nat.
Hypothesis apart : forall k, x k <> 0 -> X k <> X r.

Lemma distance k : x k <> 0 -> is_byte (Z.lxor (X k) (X r)) /\ Z.lxor (X k) (X r) <> 0.
Proof. intros Hk. split; [by apply byte_lxor|]. intros E%Z.lxor_eq. by apply (apart k). Qed.

Lemma add_node_byte k : is_byte (add_node x r k).
Proof.
  assert (Hy : forall k, is_byte (if decide (x k = 0) then 0 else galois_single_divide (x k) (Z.lxor (X k) (X r)))).
  { intros j. case_decide as Ej; [apply byte_zero|]. destruct (distance j Ej). by apply gf_divide. }
  unfold add_node. case_decide; [apply gf_sum_byte; auto|apply Hy].
Qed.

Lemma add_node_zero : moment (add_node x r) 0 = 0.
Proof.
  unfold moment. rewrite (gf_sum_ext _ (add_node x r)) by (intros; apply gf_one_r, add_node_byte).
  set (y := fun k => if decide (x k = 0) then 0 else galois_single_divide (x k) (Z.lxor (X k) (X r))).
  rewrite (gf_sum_ext _ (fun k => Z.lxor (y k) (if decide (k = r) then gf_sum y n else 0))).
  - rewrite gf_sum_lxor, (gf_sum_single (fun k => if decide (k = r) then _ else _) n r r_lt).
    + rewrite decide_True by done. apply Z.lxor_nilpotent.
    + intros k _ Hk. by rewrite decide_False.
  - intros k _. unfold add_node. fold y. case_decide as Ek; [subst k|by rewrite Z.lxor_0_r].
    unfold y at 2. by rewrite decide_True, Z.lxor_0_l.
Qed.

Lemma add_node_succ i :
  moment (add_node x r) (S i) = Z.lxor (mul (X r) (moment (add_node x r) i)) (moment x i).
Proof.
  pose proof add_node_byte as Hb. unfold moment. rewrite <- gf_sum_mul_l by (auto; intros; apply gf_byte; auto using gf_pow_byte).
  rewrite <- gf_sum_lxor. apply gf_sum_ext. intros k _. cbn [gf_pow].
  pose proof (gf_pow_byte (X k) i (X_bytes k)) as Hp.
  assert (E : mul (add_node x r k) (Z.lxor (X k) (X r)) = x k).
  { unfold add_node. case_decide as Ek; [subst k; rewrite Z.lxor_nilpotent, x_r|].
    - apply gf_zero_r. specialize (Hb r). unfold add_node in Hb. by rewrite decide_True in Hb.
    - case_decide as E0; [rewrite E0; apply gf_zero_l, byte_lxor; auto|]. destruct (distance k E0).
      by apply gf_divide. }
  rewrite <- E. set (a := add_node x r k) in *. assert (Ha : is_byte a) by apply Hb.
  assert (Hl : is_byte (Z.lxor (X k) (X r))) by (by apply byte_lxor).
  assert (Hap : is_byte (mul a (gf_pow (X k) i))) by (by apply gf_byte).
  rewrite gf_assoc by auto. rewrite (gf_comm (X r)) by auto. rewrite <- (gf_assoc a (Z.lxor _ _)) by done.
  rewrite (gf_comm (Z.lxor _ _)), gf_assoc by done. rewrite gf_distr by auto.
  by rewrite (Z.lxor_comm (mul _ (X k))), <- Z.lxor_assoc, Z.lxor_nilpotent, Z.lxor_0_l.
Qed.

End AddNode.

(** Coefficients on [r :: L] whose moments vanish up to [length L]. *)
Lemma moments r L :
  NoDup (r :: L) -> (forall l, l ∈ r :: L -> (l < n)%nat) ->
  (forall k l, k ∈ r :: L -> l ∈ r :: L -> X k = X l -> k = l) ->
  exists x, (forall k, is_byte (x k)) /\ (forall k, k ∉ r :: L -> x k = 0) /\
    (forall i, (i < length L)%nat -> moment x i = 0) /\ moment x (length L) <> 0.
Proof.
  revert r. induction L as [|r' L IH]; intros r Hnd Hlt Hinj.
  - exists (fun k => if decide (k = r) then 1 else 0). split_and!.
    + intros k. case_decide; [apply byte_one|apply byte_zero].
    + intros k Hk. rewrite decide_False; [done|]. intros ->. apply Hk. by left.
    + cbn. lia.
    + unfold moment. rewrite (gf_sum_single _ n r); [|apply Hlt; by left|].
      * rewrite decide_True by done. cbn. rewrite gf_one by apply byte_one. done.
      * intros k _ Hk. rewrite decide_False by done. apply gf_zero_l, gf_pow_byte. auto.
  - apply NoDup_cons in Hnd as [Hr Hnd].
    destruct (IH r' Hnd) as (x & Hb & Hsup & Hz & Hne);
      [intros; apply Hlt; by right|intros k l Hk Hl; apply Hinj; by right|].
    assert (Hxr : x r = 0) by auto.
    assert (Hap : forall k, x k <> 0 -> X k <> X r).
    { intros k Hk E. assert (Hin : k ∈ r' :: L) by (destruct (decide (k ∈ r' :: L)); [done|by destruct Hk; auto]).
      apply Hinj in E; [subst; done|by right|by left]. }
    assert (Hrn : (r < n)%nat) by (apply Hlt; by left).
    assert (Hm : forall i, (i <= length L)%nat -> moment (add_node x r) i = 0).
    { induction i as [|i IHi]; intros Hi; [by apply add_node_zero|].
      rewrite add_node_succ, IHi, Hz, gf_zero_r by (done || lia || auto). done. }
    exists (add_node x r). split_and!.
    + intros k. by apply add_node_byte.
    + intros k [Hkr Hk]%not_elem_of_cons. unfold add_node. rewrite decide_False by done.
      by rewrite decide_True by auto.
    + cbn. intros i Hi. apply Hm. lia.
    + cbn [length]. rewrite add_node_succ, Hm, gf_zero_r, Z.lxor_0_l by (done || lia || auto). done.
Qed.

End Moments.

Section Regular.
Context {G : Galois} {GL : GaloisLaws G} {HP : Heap}.
Variable n : nat.
Variable known : nat -> bool.
Variable V : mat.
Variables A X : nat -> Z.
Hypothesis V_coding : coding n known V.
Hypothesis X_bytes : forall k, is_byte (X k).
Hypothesis A_bytes : forall k, is_byte (A k).
Hypothesis A_nonzero : forall k, A k <> 0.
Hypothesis X_distinct : forall k l, k ∈ lost known n -> l ∈ lost known n -> X k = X l -> k = l.

Abbreviation mul := galois_single_multiply.

(** Row [i] of the lost packets holds the powers [i] of the nodes, up to a
    factor for each column. *)
Hypothesis V_powers : forall i r k, lost known n !! i = Some r -> k ∈ lost known n ->
  V r k = mul (A k) (gf_pow (X k) i).

Lemma vandermonde_separates D r T :
  lost known n = D ++ r :: T -> separates n (arrived known n) (augmented n V) D r.
Proof.
  intros E. pose proof (sorted_NoDup _ (lost_sorted known n)) as Hnd. rewrite E, cons_middle, (app_assoc D [r]) in Hnd.
  apply NoDup_app in Hnd as (Hnd & _ & _).
  assert (Hsub : forall k, k ∈ r :: D -> k ∈ lost known n).
  { intros k Hk. rewrite E, elem_of_app, elem_of_cons. rewrite elem_of_cons in Hk. naive_solver. }
  destruct (moments n X X_bytes r D) as (x & Hb & Hsup & Hz & Hne).
  { apply (NoDup_Permutation_proper _ _ (Permutation_cons_append D r)). done. }
  { intros k Hk. by eapply lost_lt, Hsub. }
  { auto. }
  set (w := fun k => galois_single_divide (x k) (A k)).
  assert (Hw : forall k, is_byte (w k)) by (intros k; by apply gf_divide).
  assert (Hw0 : forall k, k ∉ r :: D -> w k = 0).
  { intros k Hk. unfold w. rewrite Hsup by done. destruct (gf_divide 0 (A k) byte_zero (A_bytes k) (A_nonzero k)) as [Hd Ed].
    apply gf_integral in Ed as [|]; [done|by destruct (A_nonzero k)|done|done]. }
  assert (Hmoment : forall i q, lost known n !! i = Some q -> gf_sum (fun k => mul (V q k) (w k)) n = moment n X x i).
  { intros i q Hq. unfold moment. apply gf_sum_ext. intros k Hk. pose proof (gf_pow_byte (X k) i (X_bytes k)) as Hp.
    assert (Hqn : (q < n)%nat) by (by eapply lost_lt, list_elem_of_lookup_2).
    destruct (decide (k ∈ r :: D)) as [Hin|Hin].
    - rewrite (V_powers i q k Hq), gf_comm, gf_assoc by (auto; apply gf_byte; auto). f_equal.
      apply gf_divide; auto.
    - rewrite Hw0, Hsup, gf_zero_l, gf_zero_r by (done || by apply V_coding). done. }
  destruct (data_solution_ok n (arrived known n)) with (V := V) (x := w) as [Hsol Hh]; auto.
  { apply arrived_lt. }
  { apply V_coding. }
  { intros s j [Hs1 Hs2]%arrived_elem. by apply V_coding. }
  exists (data_solution n V w). split_and!; [done|done| | |].
  - intros j Hj HjD Hjr. unfold data_solution. rewrite decide_True by done. apply Hw0.
    rewrite elem_of_cons. naive_solver.
  - intros j [Hj|Hj]; rewrite data_solution_right.
    + apply arrived_elem in Hj as [Hjn Hkj]. rewrite (data_known n (arrived known n)); auto.
      * apply Hw0. intros Hin%Hsub%lost_elem. destruct Hin. congruence.
      * apply arrived_lt.
      * intros s k [Hs1 Hs2]%arrived_elem. by apply V_coding.
      * by apply arrived_elem.
    + apply list_elem_of_lookup in Hj as [i Hi]. rewrite (Hmoment i j).
      * apply Hz. by apply lookup_lt_Some in Hi.
      * rewrite E. by apply lookup_app_l_Some.
  - rewrite data_solution_right, (Hmoment (length D) r); [done|]. rewrite E. by apply list_lookup_middle.
Qed.

Lemma vandermonde_regular : regular n (arrived known n) (lost known n) V.
Proof. apply regular_known; [done|]. apply vandermonde_separates. Qed.

End Regular.
