(* ===== verification/ReedSolRows.v ===== *)
(** * ReedSolRows: the rows the coding and decoding matrices start from

    [build] puts a unit row for each packet that arrived and the row of a FEC
    packet for each packet that was lost; the rows of FEC packets hold powers
    of the base number, with the position of the packet as exponent. *)

From stdpp Require Import sorting.
From S2P Require Import Prelude.
From S2P Require Import CowBuffer.
From S2P Require Import Galois.
From S2P Require Import ReedSolMatrix.
From S2P Require Import ReedSolInverse.
From S2P Require Import ReedSolSolve.

(** ** Positions of set bits *)

Section Bits.
Variable tb : nat -> bool.

(** Set positions below [p]. *)
Abbreviation rank p := (length (arrived tb p)).

Lemma rank_S p : rank (S p) = (rank p + if tb p then 1 else 0)%nat.
Proof. rewrite arrived_S, length_app. by destruct (tb p). Qed.

Lemma rank_mono p q : (p <= q)%nat -> (rank p <= rank q)%nat.
Proof. induction 1 as [|q Hle IH]; [done|]. rewrite rank_S. lia. Qed.

Lemma rank_le p : (rank p <= p)%nat.
Proof. induction p as [|p IH]; [done|]. rewrite rank_S. destruct (tb p); lia. Qed.

Lemma bit_rank N j b : arrived tb N !! j = Some b -> (b < N)%nat /\ tb b = true /\ rank b = j.
Proof.
  induction N as [|N IH]; [done|]. rewrite arrived_S. destruct (tb N) eqn:E.
  - intros [[_ H]|[-> <-]]%lookup_snoc_Some; [|auto with lia]. apply IH in H as (? & ? & ?). auto with lia.
  - rewrite app_nil_r. intros H. apply IH in H as (? & ? & ?). auto with lia.
Qed.

Lemma bit_at N b : (b < N)%nat -> tb b = true -> arrived tb N !! rank b = Some b.
Proof.
  intros Hb Ht. induction N as [|N IH]; [lia|]. rewrite arrived_S.
  destruct (decide (b = N)) as [->|]; [rewrite Ht; by apply list_lookup_middle|].
  apply lookup_app_l_Some, IH. lia.
Qed.

(** The next set position from [q] on. *)
Lemma next_bit N q b :
  arrived tb N !! rank q = Some b ->
  (q <= b)%nat /\ (b < N)%nat /\ tb b = true /\ (forall p, (q <= p < b)%nat -> tb p = false) /\
  rank (S b) = S (rank q).
Proof.
  intros (HbN & Hb & Hr)%bit_rank. assert (HS : rank (S b) = S (rank q)) by (rewrite rank_S, Hb; lia).
  assert (Hqb : (q <= b)%nat).
  { destruct (decide (q <= b)%nat); [done|]. pose proof (rank_mono (S b) q). lia. }
  split_and!; try done. intros p Hp. destruct (tb p) eqn:Ep; [|done].
  pose proof (rank_S p) as HSp. rewrite Ep in HSp. pose proof (rank_mono q p). pose proof (rank_mono (S p) b). lia.
Qed.

End Bits.

(** ** [build] *)

Section Build.
Context {G : Galois} {GL : GaloisLaws G} {HP : Heap}.
Variables n k : nat.
Variable list : list Z.
Variable known : nat -> bool.
Variable coef : nat -> nat -> Z.
Hypothesis list_length : length list = k.
Hypothesis coef_bytes : forall fec j, (fec < k)%nat -> (j < n)%nat -> is_byte (coef fec j).

Abbreviation cols := (n * 2)%nat.

(** [fill] writes the coefficients [coef fec] into row [i]. *)
Definition fills (fill : nat -> Datatypes.list Z -> nat -> Z -> res (option (Datatypes.list Z))) : Prop :=
  forall i vdm fec mul_num, (i < n)%nat -> length vdm = (n * cols)%nat -> list !! fec = Some mul_num ->
  exists vdm', fill i vdm fec mul_num = Ok (Some vdm') /\ length vdm' = length vdm /\
    (forall j, (j < n)%nat -> vdm' !! (i * cols + j)%nat = Some (coef fec j)) /\
    (forall p, (p < i * cols \/ i * cols + n <= p)%nat -> vdm' !! p = vdm !! p).

(** Packet [i] that was lost is replaced by the FEC packet of its rank. *)
Definition fec_of (i : nat) : nat := length (lost known i).

Lemma fec_of_lost i m : known i = false -> (i < m)%nat -> (fec_of i < fec_of m)%nat.
Proof.
  clear list_length. intros E Hi. unfold fec_of. induction Hi as [|m Hm IH]; rewrite lost_S, length_app; [rewrite E; cbn; lia|lia].
Qed.

Definition matrix : mat :=
  fun i j => if known i then (if decide (i = j) then 1 else 0) else coef (fec_of i) j.

Record partial (i : nat) (st : Rows) : Prop := {
  partial_length : length (rows_vdm st) = (n * cols)%nat;
  partial_rows r j : (r < i)%nat -> (j < n)%nat -> rows_vdm st !! (r * cols + j)%nat = Some (matrix r j);
  partial_fec : list_i st = fec_of i;
  partial_known : s_list st = arrived known i;
  partial_lost : r_list st = lost known i
}.

(** Rows above [i] stay. *)
Lemma partial_extend i st vdm' :
  partial i st -> (i < n)%nat -> length vdm' = length (rows_vdm st) ->
  (forall j, (j < n)%nat -> vdm' !! (i * cols + j)%nat = Some (matrix i j)) ->
  (forall p, (p < i * cols \/ i * cols + n <= p)%nat -> vdm' !! p = rows_vdm st !! p) ->
  forall r j, (r < S i)%nat -> (j < n)%nat -> vdm' !! (r * cols + j)%nat = Some (matrix r j).
Proof.
  intros P Hi Hlen Hin Hout r j Hr Hj. destruct (decide (r = i)) as [->|Hne]; [by apply Hin|].
  rewrite Hout by nia. apply P; lia.
Qed.

Lemma known_row_ok i st :
  partial i st -> (i < n)%nat -> known i = true ->
  exists st', known_row n st i = Ok st' /\ partial (S i) st'.
Proof.
  intros P Hi Hk. unfold known_row, unit_row.
  destruct (fill_loop (rows_vdm st) (i * cols) n (fun j => if (i =? j)%nat then 1 else 0))
    as (vdm' & -> & Hlen & Hin & Hout); [rewrite (partial_length _ _ P); nia|]. rewrite bind_ok.
  unfold push_index. rewrite (partial_known _ _ P). pose proof (rank_le known i).
  rewrite (proj2 (Nat.ltb_lt _ _)) by lia. rewrite bind_ok. eexists; split; [done|]. split; cbn [rows_vdm list_i s_list r_list].
  - rewrite Hlen. apply P.
  - eapply partial_extend; try done. intros j Hj. rewrite Hin by done. unfold matrix. rewrite Hk.
    destruct (Nat.eqb_spec i j); case_decide; done.
  - rewrite (partial_fec _ _ P). unfold fec_of. by rewrite lost_S, Hk, app_nil_r.
  - by rewrite arrived_S, Hk.
  - rewrite (partial_lost _ _ P). by rewrite lost_S, Hk, app_nil_r.
Qed.

Lemma lost_row_ok fill i st :
  fills fill -> partial i st -> (i < n)%nat -> known i = false -> (fec_of i < k)%nat ->
  exists st', lost_row n k list st i (fill i) = Ok (Some st') /\ partial (S i) st'.
Proof.
  intros Hf P Hi Hk Hfec. unfold lost_row. rewrite (partial_fec _ _ P).
  rewrite (proj2 (Nat.leb_gt _ _)) by lia.
  destruct (lookup_lt_is_Some_2 list (fec_of i)) as [mul_num Hm]; [lia|].
  rewrite (buf_get_ok _ _ _ Hm), bind_ok.
  destruct (Hf i (rows_vdm st) (fec_of i) mul_num) as (vdm' & -> & Hlen & Hin & Hout); [done|apply P|done|].
  rewrite bind_ok. unfold push_index. rewrite (partial_lost _ _ P). fold (fec_of i).
  rewrite (proj2 (Nat.ltb_lt _ _)) by lia. rewrite bind_ok. eexists; split; [done|]. split; cbn [rows_vdm list_i s_list r_list].
  - rewrite Hlen. apply P.
  - eapply partial_extend; try done. intros j Hj. rewrite Hin by done. unfold matrix. by rewrite Hk.
  - unfold fec_of. rewrite lost_S, Hk, length_app. done.
  - rewrite (partial_known _ _ P). by rewrite arrived_S, Hk, app_nil_r.
  - by rewrite lost_S, Hk.
Qed.

Lemma lost_row_refused fill i st :
  partial i st -> (k <= fec_of i)%nat -> lost_row n k list st i (fill i) = Ok None.
Proof.
  intros P Hfec. unfold lost_row. rewrite (partial_fec _ _ P). by rewrite (proj2 (Nat.leb_le _ _)).
Qed.

Lemma no_rows_partial : partial 0 (no_rows n).
Proof. clear list_length. split; try done; [apply length_fresh|intros; lia]. Qed.

Lemma partial_built st : partial n st -> built n known matrix st.
Proof. intros P. split; [split; apply P|apply P..]. Qed.

Lemma matrix_coding : (length (lost known n) <= k)%nat -> coding n known matrix.
Proof.
  intros Hk. split.
  - intros i j Hi Hj. unfold matrix. destruct (known i) eqn:E.
    + case_decide; [apply byte_one|apply byte_zero].
    + apply coef_bytes; [|done]. unfold fec_of.
      pose proof (fec_of_lost i n E Hi). unfold fec_of in *. lia.
  - intros s j Hs Hks Hj. unfold matrix. by rewrite Hks.
Qed.

(** The loop over the packets, with the packets read by [kn]. *)
Lemma build_ok fill kn :
  fills fill -> (forall i, (i < n)%nat -> kn i = Ok (known i)) -> forall rows i st,
  (rows + i = n)%nat -> partial i st -> (fec_of i <= k)%nat ->
  if decide (length (lost known n) <= k)%nat
  then exists st', build rows n k list kn fill i st = Ok (Some st') /\ built n known matrix st'
  else build rows n k list kn fill i st = Ok None.
Proof.
  intros Hf Hkn. induction rows as [|rows IH]; intros i st Hi P Hfec; cbn [build].
  { assert (i = n) by lia. subst i. rewrite decide_True by done. eauto using partial_built. }
  rewrite Hkn, bind_ok by lia. rewrite Nat.add_1_r. destruct (known i) eqn:E.
  - destruct (known_row_ok i st) as (st' & -> & P'); [done|lia|done|]. rewrite !bind_ok.
    apply IH; [lia|done|]. unfold fec_of. by rewrite lost_S, E, app_nil_r.
  - pose proof (fec_of_lost i n E ltac:(lia)) as Hlt. destruct (decide (fec_of i < k)%nat) as [Hk|Hk].
    + destruct (lost_row_ok fill i st) as (st' & -> & P'); [done|done|lia|done|done|]. rewrite bind_ok.
      apply IH; [lia|done|]. unfold fec_of. rewrite lost_S, E, length_app. cbn. unfold fec_of in Hk. lia.
    + rewrite lost_row_refused by (done || lia). rewrite bind_ok. rewrite decide_False; [done|].
      unfold fec_of in *. lia.
Qed.

End Build.

(** A mask as an array: its set positions. *)
Definition array_set (mask : list Z) (p : nat) : bool := negb (Z.land (mask !!! p) 1 =? 0).

(** ** The rows of FEC packets *)

Section Fill.
Context {G : Galois} {GL : GaloisLaws G} {HP : Heap}.

Abbreviation mul := galois_single_multiply.

Lemma power_row_ok vdm off c mul_num :
  is_byte mul_num -> (off + c <= length vdm)%nat ->
  exists vdm', power_row vdm off c mul_num = Ok vdm' /\ length vdm' = length vdm /\
    (forall j, (j < c)%nat -> vdm' !! (off + j)%nat = Some (gf_pow mul_num j)) /\
    (forall p, (p < off \/ off + c <= p)%nat -> vdm' !! p = vdm !! p).
Proof.
  intros Hm Hlen. unfold power_row.
  destruct (window_acc_loop vdm off c (fun '(vdm, tmp) j =>
      let! vdm := buf_set vdm (off + j) tmp in Ok (vdm, mul tmp mul_num)) (gf_pow mul_num) (gf_pow mul_num))
    as (vdm' & E & Hlen' & Hin & Hout); [done|done|].
  cbn [gf_pow] in E. rewrite E, bind_ok. exists vdm'. split_and!; try done. intros j Hj. rewrite Hin by done.
  by rewrite uw_small by (by apply gf_pow_byte).
Qed.

(** Every packet is protected: the exponent is the index. *)
Lemma block_fills n list :
  bytes list -> fills n list (fun fec j => gf_pow (list !!! fec) j) (block_fill n).
Proof.
  intros Hb i vdm fec mul_num Hi Hlen Hl. unfold block_fill. rewrite (list_lookup_total_correct _ _ _ Hl).
  destruct (power_row_ok vdm (i * (n * 2)) n mul_num) as (vdm' & -> & Hlen' & Hin & Hout);
    [by eapply bytes_lookup|rewrite Hlen; nia|]. rewrite bind_ok. eauto 10.
Qed.

(** Only some packets are protected: the exponent counts them. *)
Definition masked_coef (mul_num : Z) (tb : nat -> bool) (j : nat) : Z :=
  if tb j then gf_pow mul_num (length (arrived tb j)) else 0.

Lemma masked_fills n list bit (tb : nat -> nat -> bool) :
  bytes list -> (forall fec j, (fec < length list)%nat -> (j < n)%nat -> bit fec j = Ok (tb fec j)) ->
  fills n list (fun fec => masked_coef (list !!! fec) (tb fec)) (masked_fill n bit).
Proof.
  intros Hb Hbit i vdm fec mul_num Hi Hlen Hl. unfold masked_fill. rewrite (list_lookup_total_correct _ _ _ Hl).
  assert (Hm : is_byte mul_num) by (by eapply bytes_lookup).
  destruct (window_acc_loop vdm (i * (n * 2)) n (fun '(vdm, tmp) j =>
      let! b := bit fec j in
      if (b : bool) then
        let! vdm := buf_set vdm (i * (n * 2) + j) tmp in
        Ok (vdm, galois_single_multiply tmp mul_num)
      else
        let! vdm := buf_set vdm (i * (n * 2) + j) 0 in Ok (vdm, tmp))
    (masked_coef mul_num (tb fec)) (fun j => gf_pow mul_num (length (arrived (tb fec) j))))
    as (vdm' & E & Hlen' & Hin & Hout); [rewrite Hlen; nia| |].
  - intros d' j Hj _. rewrite Hbit, bind_ok by (done || by eapply lookup_lt_Some).
    unfold masked_coef. rewrite rank_S. destruct (tb fec j); [by rewrite Nat.add_1_r|by rewrite Nat.add_0_r].
  - change (gf_pow mul_num (length (arrived (tb fec) 0))) with 1 in E. rewrite E, bind_ok. exists vdm'.
    split_and!; try done. intros j Hj. rewrite Hin by done. rewrite uw_small; [done|].
    unfold masked_coef. destruct (tb fec j); [by apply gf_pow_byte|apply byte_zero].
Qed.

(** *** Positions *)

Section Positions.
Variables (tb : nat -> bool) (N : nat).

(** The packets are the set positions below [N]. *)
Abbreviation positions := (arrived tb N).

Variable mul_num : Z.
Hypothesis mul_num_byte : is_byte mul_num.

(** [skip_unset]: the power goes with the position. *)
Lemma skip_unset_ok mask fuel q b :
  (N <= length mask)%nat ->
  (forall p, (p < N)%nat -> tb p = array_set mask p) ->
  (q <= b)%nat -> (b < N)%nat -> tb b = true -> (forall p, (q <= p < b)%nat -> tb p = false) -> (b - q < fuel)%nat ->
  skip_unset fuel mask N q (gf_pow mul_num q) mul_num = Ok (Some (b, gf_pow mul_num b)).
Proof.
  intros Hlen Hm. revert q. induction fuel as [|fuel IH]; intros q Hqb HbN Hb Hgap Hfuel; [lia|]. cbn [skip_unset].
  destruct (lookup_lt_is_Some_2 mask q) as [m Em]; [lia|]. rewrite (buf_get_ok _ _ _ Em), bind_ok.
  pose proof (Hm q ltac:(lia)) as Hq. unfold array_set in Hq. rewrite (list_lookup_total_correct _ _ _ Em) in Hq.
  destruct (decide (q = b)) as [->|Hne].
  - rewrite Hb in Hq. destruct (Z.land m 1 =? 0); done.
  - rewrite (Hgap q ltac:(lia)) in Hq. destruct (Z.land m 1 =? 0); [|done].
    rewrite (proj2 (Nat.leb_gt _ _)) by lia. rewrite Nat.add_1_r. change (mul (gf_pow mul_num q) mul_num) with (gf_pow mul_num (S q)).
    apply IH; (done || lia || auto with lia).
Qed.

Lemma stream_row_ok mask c vdm off q :
  (N <= length mask)%nat ->
  (forall p, (p < N)%nat -> tb p = array_set mask p) ->
  (length (arrived tb q) + c <= length positions)%nat ->
  (off + length (arrived tb q) + c <= length vdm)%nat ->
  exists vdm', stream_row c vdm (off + length (arrived tb q)) mask N q (gf_pow mul_num q) mul_num = Ok (Some vdm') /\
    length vdm' = length vdm /\
    (forall j b, (length (arrived tb q) <= j < length (arrived tb q) + c)%nat -> positions !! j = Some b ->
       vdm' !! (off + j)%nat = Some (gf_pow mul_num b)) /\
    (forall p, (p < off + length (arrived tb q) \/ off + length (arrived tb q) + c <= p)%nat -> vdm' !! p = vdm !! p).
Proof.
  intros HN Hm. revert vdm q. induction c as [|c IH]; intros vdm q Hc Hlen; cbn [stream_row].
  { exists vdm. split_and!; try done. intros; lia. }
  destruct (lookup_lt_is_Some_2 positions (length (arrived tb q))) as [b Hb]; [lia|].
  destruct (next_bit tb N q b Hb) as (Hqb & HbN & Htb & Hgap & HS).
  rewrite (skip_unset_ok mask (S N) q b), bind_ok by (done || lia).
  rewrite buf_set_ok, bind_ok by lia. rewrite Nat.add_1_r, (Nat.add_1_r b).
  change (mul (gf_pow mul_num b) mul_num) with (gf_pow mul_num (S b)).
  replace (S (off + length (arrived tb q)))%nat with (off + length (arrived tb (S b)))%nat by lia.
  destruct (IH (<[(off + length (arrived tb q))%nat := u8 (gf_pow mul_num b)]> vdm) (S b)) as (vdm' & -> & Hlen' & Hin & Hout);
    [lia|rewrite length_insert; lia|].
  rewrite length_insert in Hlen'. exists vdm'. split_and!; try done.
  - intros j b' Hj Hj'. destruct (decide (j = length (arrived tb q))) as [->|Hne].
    + rewrite Hout, list_lookup_insert_eq by lia. rewrite Hb in Hj'. injection Hj' as <-.
      by rewrite uw_small by (by apply gf_pow_byte).
    + apply Hin; [lia|done].
  - intros p Hp. rewrite Hout by lia. rewrite list_lookup_insert_ne by lia. done.
Qed.

(** *** The decoder's row: powers count from the first packet of the FEC packet *)

(** [first] is the first position that [km] protects. *)
Record is_first (km : nat -> bool) (first : nat) : Prop := {
  first_le p : (p < N)%nat -> tb p = true -> km p = true -> (first <= p)%nat;
  first_set : (first < N)%nat -> tb first = true /\ km first = true
}.

Lemma next_power_ok mask km first fuel q b :
  (forall p, tb p = Z.testbit mask (Z.of_nat p)) -> is_first km first ->
  (q <= b)%nat -> (b < N)%nat -> tb b = true -> (forall p, (q <= p < b)%nat -> tb p = false) -> (b - q < fuel)%nat ->
  next_power fuel N mask q (first <? q)%nat (gf_pow mul_num (q - first)) mul_num = Ok (b, gf_pow mul_num (b - first)).
Proof.
  intros Hm [_ Hset]. revert q. induction fuel as [|fuel IH]; intros q Hqb HbN Hb Hgap Hfuel; [lia|]. cbn [next_power].
  rewrite (proj2 (Nat.ltb_lt q N)), <- Hm by lia. destruct (decide (q = b)) as [->|Hne]; [by rewrite Hb|].
  rewrite (Hgap q) by lia. cbn [andb negb]. rewrite Nat.add_1_r.
  assert (Hq : q <> first) by (intros ->; destruct Hset as [H _]; [lia|]; rewrite Hgap in H by lia; done).
  destruct (Nat.ltb_spec first q) as [Hlt|Hge].
  - change (mul (gf_pow mul_num (q - first)) mul_num) with (gf_pow mul_num (S (q - first))).
    replace (S (q - first))%nat with (S q - first)%nat by lia.
    rewrite <- (proj2 (Nat.ltb_lt first (S q))) by lia. apply IH; (done || lia || auto with lia).
  - replace (q - first)%nat with (S q - first)%nat by lia.
    rewrite <- (proj2 (Nat.ltb_ge first (S q))) by lia. apply IH; (done || lia || auto with lia).
Qed.

Lemma skipped_row_ok mask m first c vdm off q :
  (forall p, tb p = Z.testbit mask (Z.of_nat p)) -> is_first (fun p => Z.testbit m (Z.of_nat p)) first ->
  (length (arrived tb q) + c <= length positions)%nat ->
  (off + length (arrived tb q) + c <= length vdm)%nat ->
  exists vdm', skipped_row c vdm (off + length (arrived tb q)) N mask m q (first <? q)%nat
      (gf_pow mul_num (q - first)) mul_num = Ok (Some vdm') /\
    length vdm' = length vdm /\
    (forall j b, (length (arrived tb q) <= j < length (arrived tb q) + c)%nat -> positions !! j = Some b ->
       vdm' !! (off + j)%nat = Some (if Z.testbit m (Z.of_nat b) then gf_pow mul_num (b - first) else 0)) /\
    (forall p, (p < off + length (arrived tb q) \/ off + length (arrived tb q) + c <= p)%nat -> vdm' !! p = vdm !! p).
Proof.
  intros Hm Hfirst. pose proof Hfirst as [Hle Hset].
  revert vdm q. induction c as [|c IH]; intros vdm q Hc Hlen; cbn [skipped_row].
  { exists vdm. split_and!; try done. intros; lia. }
  destruct (lookup_lt_is_Some_2 positions (length (arrived tb q))) as [b Hb]; [lia|].
  destruct (next_bit tb N q b Hb) as (Hqb & HbN & Htb & Hgap & HS).
  rewrite (next_power_ok mask _ first (S N) q b Hm Hfirst), bind_ok by (done || lia). cbn beta iota zeta.
  rewrite (proj2 (Nat.leb_gt _ _)) by lia.
  set (v := if Z.testbit m (Z.of_nat b) then gf_pow mul_num (b - first) else 0).
  assert (Hv : is_byte v) by (unfold v; destruct (Z.testbit m (Z.of_nat b)); [by apply gf_pow_byte|apply byte_zero]).
  rewrite buf_set_ok, bind_ok by lia. rewrite (uw_small 8 v Hv).
  assert (Hone : (first <? q)%nat || Z.testbit m (Z.of_nat b) = (first <? S b)%nat).
  { apply eq_bool_prop_intro. rewrite !Is_true_true, orb_true_iff, !Nat.ltb_lt. split.
    - intros [|Hmb]; [lia|]. specialize (Hle b HbN Htb Hmb). lia.
    - intros Hlt. destruct (decide (first < q)%nat) as [|Hge]; [by left|right].
      destruct (decide (first = b)) as [<-|Hne]; [by apply Hset|].
      destruct Hset as [H _]; [lia|]. rewrite Hgap in H by lia. done. }
  rewrite Hone.
  assert (Hpow : (if (first <? S b)%nat then mul (gf_pow mul_num (b - first)) mul_num else gf_pow mul_num (b - first)) =
                 gf_pow mul_num (S b - first)).
  { destruct (Nat.ltb_spec first (S b)).
    - by replace (S b - first)%nat with (S (b - first)) by lia.
    - by replace (S b - first)%nat with (b - first)%nat by lia. }
  rewrite Hpow, Nat.add_1_r, (Nat.add_1_r b).
  replace (S (off + length (arrived tb q)))%nat with (off + length (arrived tb (S b)))%nat by lia.
  destruct (IH (<[(off + length (arrived tb q))%nat := v]> vdm) (S b)) as (vdm' & -> & Hlen' & Hin & Hout);
    [lia|rewrite length_insert; lia|].
  rewrite length_insert in Hlen'. exists vdm'. split_and!; try done.
  - intros j b' Hj Hj'. destruct (decide (j = length (arrived tb q))) as [->|Hne].
    + rewrite Hout, list_lookup_insert_eq by lia. rewrite Hb in Hj'. by injection Hj' as <-.
    + apply Hin; [lia|done].
  - intros p Hp. rewrite Hout by lia. rewrite list_lookup_insert_ne by lia. done.
Qed.

End Positions.
End Fill.

(** ** [reed_sol_skipped_stream_decoding_matrix] and the coding matrix *)

Section Skipped.
Context {G : Galois} {GL : GaloisLaws G} {HP : Heap}.

Definition bit_of (mask : Z) (p : nat) : bool := Z.testbit mask (Z.of_nat p).
Definition positions_of (N : nat) (mask : Z) : list nat := arrived (bit_of mask) N.

(** The first position that FEC packet [m] protects, among those considered. *)
Definition first_of (N : nat) (mask m : Z) : nat :=
  default N (head (arrived (bit_of (Z.land mask m)) N)).

Definition skipped_coef (N : nat) (list : list Z) (mask : Z) (k_mask : Datatypes.list Z) (fec j : nat) : Z :=
  let p := positions_of N mask !!! j in let m := k_mask !!! fec in
  if bit_of m p then gf_pow (list !!! fec) (p - first_of N mask m) else 0.

Lemma first_of_ok N mask m : is_first (bit_of mask) N (bit_of m) (first_of N mask m).
Proof.
  assert (Hand : forall p, bit_of (Z.land mask m) p = true <-> bit_of mask p = true /\ bit_of m p = true).
  { intros p. unfold bit_of. rewrite Z.land_spec. apply andb_true_iff. }
  unfold first_of. destruct (arrived (bit_of (Z.land mask m)) N) as [|f l] eqn:E; cbn; split.
  - intros p Hp H1 H2. assert (Hin : p ∈ arrived (bit_of (Z.land mask m)) N)
      by (apply arrived_elem; split; [done|]; by apply Hand). rewrite E in Hin. by apply elem_of_nil in Hin.
  - lia.
  - intros p Hp H1 H2. assert (Hin : p ∈ arrived (bit_of (Z.land mask m)) N)
      by (apply arrived_elem; split; [done|]; by apply Hand).
    pose proof (filter_seq_sorted (fun i => bit_of (Z.land mask m) i = true) N) as Hs.
    change (filter _ _) with (arrived (bit_of (Z.land mask m)) N) in Hs. rewrite E in Hin, Hs.
    inversion Hs as [|? ? _ Hall]; subst. apply elem_of_cons in Hin as [->|Hin]; [done|].
    rewrite List.Forall_forall in Hall. apply list_elem_of_In, Hall in Hin. lia.
  - intros _. apply Hand. assert (Hin : f ∈ arrived (bit_of (Z.land mask m)) N) by (rewrite E; by left).
    by apply arrived_elem in Hin as [_ ?].
Qed.

Lemma skipped_fills N n list mask k_mask :
  bytes list -> (n <= length (positions_of N mask))%nat -> length k_mask = length list ->
  fills n list (skipped_coef N list mask k_mask) (skipped_fill n N mask k_mask).
Proof.
  intros Hb Hn Hk i vdm fec mul_num Hi Hlen Hl. unfold skipped_fill.
  destruct (lookup_lt_is_Some_2 k_mask fec) as [m Em]; [rewrite Hk; by eapply lookup_lt_Some|].
  rewrite (buf_get_ok _ _ _ Em), bind_ok.
  destruct (skipped_row_ok (bit_of mask) N mul_num ltac:(by eapply bytes_lookup) mask m (first_of N mask m)
    n vdm (i * (n * 2)) 0) as (vdm' & E & Hlen' & Hin & Hout);
    [done|apply first_of_ok|done|rewrite Hlen; cbn; nia|].
  cbn [Nat.ltb Nat.leb Nat.sub gf_pow arrived seq filter length] in E.
  rewrite Nat.add_0_r in E. exists vdm'. split; [exact E|]. cbn in Hin, Hout. rewrite Nat.add_0_r in Hout.
  split_and!; try done. intros j Hj. destruct (lookup_lt_is_Some_2 (positions_of N mask) j) as [b Hbj]; [lia|].
  rewrite (Hin j b) by (done || lia). unfold skipped_coef.
  by rewrite (list_lookup_total_correct _ _ _ Hbj), (list_lookup_total_correct _ _ _ Em), (list_lookup_total_correct _ _ _ Hl).
Qed.

Lemma next_set_ok N mask fuel q b :
  (q <= b)%nat -> (b < N)%nat -> bit_of mask b = true -> (forall p, (q <= p < b)%nat -> bit_of mask p = false) ->
  (b - q < fuel)%nat -> next_set fuel N mask q = Ok b.
Proof.
  revert q. induction fuel as [|fuel IH]; intros q Hqb HbN Hb Hgap Hfuel; [lia|]. cbn [next_set].
  rewrite (proj2 (Nat.ltb_lt q N)) by lia. fold (bit_of mask q). destruct (decide (q = b)) as [->|Hne]; [by rewrite Hb|].
  rewrite (Hgap q) by lia. cbn [andb negb]. rewrite Nat.add_1_r. apply IH; (done || lia || auto with lia).
Qed.

(** Packet [i] is at the [i]-th considered position. *)
Lemma skipped_build_eq N n k list mask arrive k_mask rows i q st :
  length (arrived (bit_of mask) q) = i -> (i + rows <= length (positions_of N mask))%nat ->
  skipped_build rows n k N list mask arrive k_mask i q st =
  build rows n k list (fun i => Ok (bit_of arrive (positions_of N mask !!! i))) (skipped_fill n N mask k_mask) i st.
Proof.
  revert i q st. induction rows as [|rows IH]; intros i q st Hi Hrows; [done|].
  destruct (lookup_lt_is_Some_2 (positions_of N mask) i) as [b Hb]; [lia|].
  pose proof Hb as Hb'. unfold positions_of in Hb'. rewrite <- Hi in Hb'.
  apply next_bit in Hb' as (Hqb & HbN & Htb & Hgap & HS).
  cbn [skipped_build build]. rewrite (next_set_ok N mask (S N) q b), bind_ok by (done || lia).
  rewrite (proj2 (Nat.leb_gt _ _)), bind_ok by lia. rewrite (list_lookup_total_correct _ _ _ Hb). fold (bit_of arrive b).
  destruct (if bit_of arrive b then _ else _) as [[st'|]|]; [|done|done]. rewrite !bind_ok.
  rewrite (Nat.add_1_r b). apply IH; lia.
Qed.

(** The coding matrix, row by row. *)
Lemma stream_rows_ok n list (mask : Datatypes.list Z) N rows i vdm :
  bytes list -> (N <= length mask)%nat ->
  (n <= length (arrived (array_set mask) N))%nat ->
  (i + rows <= length list)%nat -> ((i + rows) * n <= length vdm)%nat ->
  exists vdm', stream_rows rows vdm i n list mask N = Ok (Some vdm') /\ length vdm' = length vdm /\
    (forall r j b, (i <= r < i + rows)%nat -> (j < n)%nat ->
       arrived (array_set mask) N !! j = Some b ->
       vdm' !! (r * n + j)%nat = Some (gf_pow (list !!! r) b)) /\
    (forall p, (p < i * n)%nat -> vdm' !! p = vdm !! p).
Proof.
  intros Hb HN Hn. revert i vdm. induction rows as [|rows IH]; intros i vdm Hl Hlen; cbn [stream_rows].
  { exists vdm. split_and!; try done. intros; lia. }
  destruct (lookup_lt_is_Some_2 list i) as [mul_num Hm]; [lia|]. rewrite (buf_get_ok _ _ _ Hm), bind_ok.
  destruct (stream_row_ok (array_set mask) N mul_num ltac:(by eapply bytes_lookup)
    mask n vdm (i * n) 0) as (vdm1 & E & Hlen1 & Hin1 & Hout1); [done|done|done|cbn; nia|].
  cbn [gf_pow arrived seq filter length] in E. rewrite Nat.add_0_r in E.
  change (stream_row n vdm (i * n) mask N 0 1 mul_num = Ok (Some vdm1)) in E. rewrite E, bind_ok.
  cbn in Hin1, Hout1. rewrite Nat.add_0_r in Hout1. rewrite Nat.add_1_r.
  destruct (IH (S i) vdm1) as (vdm2 & -> & Hlen2 & Hin2 & Hout2); [lia|rewrite Hlen1; lia|].
  exists vdm2. split_and!; [done|lia| |].
  - intros r j b Hr Hj Hjb. destruct (decide (r = i)) as [->|Hne].
    + rewrite Hout2 by nia. rewrite (list_lookup_total_correct _ _ _ Hm). apply Hin1; [lia|done].
    + apply Hin2; [lia|done|done].
  - intros p Hp. rewrite Hout2 by nia. apply Hout1. lia.
Qed.

End Skipped.
