(* ===== verification/ReedSolGuarantees.v ===== *)
(** * ReedSolGuarantees: what the Reed-Solomon code promises

    The decoding matrix recovers the lost packets from the packets that arrived
    and the FEC packets; the base numbers that [GenerateBaseNumList] hands out
    make it exist when as many equally spaced FEC packets arrived as media
    packets were lost. *)

From stdpp Require Import sorting.
From S2P Require Import Prelude.
From S2P Require Import CowBuffer.
From S2P Require Import Galois.
From S2P Require Import ReedSolMatrix.
From S2P Require Import ReedSolInverse.
From S2P Require Import ReedSolSolve.
From S2P Require Import Vandermonde.
From S2P Require Import ReedSolRows.

Section Received.
Context {G : Galois} {GL : GaloisLaws G} {HP : Heap}.
Variable n : nat.
Variable known : nat -> bool.
Variable coef : nat -> nat -> Z.

Abbreviation mul := galois_single_multiply.

(** FEC packet [fec] of the data [x]. *)
Definition fec_payload (x : nat -> Z) (fec : nat) : Z := gf_sum (fun i => mul (coef fec i) (x i)) n.

(** What the decoder is given in place of packet [j]. *)
Definition received (x : nat -> Z) (j : nat) : Z :=
  if known j then x j else fec_payload x (fec_of known j).

(** Row [t] of [dist] gives packet [out !! t] back, whatever the data. *)
Definition gives_back (dist : list Z) (out : list nat) : Prop :=
  forall t r, out !! t = Some r -> forall x, (forall j, (j < n)%nat -> is_byte (x j)) ->
    gf_sum (fun j => mul (dist !!! (t * n + j)%nat) (received x j)) n = x r.

Lemma recovers_gives_back dist out : recovers n (matrix known coef) dist out -> gives_back dist out.
Proof.
  intros Hr t r Htr x Hx. rewrite <- (Hr t r Htr x Hx). apply gf_sum_ext. intros j Hj. f_equal.
  unfold received, fec_payload, matrix. destruct (known j) eqn:E; [|done].
  rewrite (gf_sum_single _ n j Hj).
  - rewrite decide_True, gf_one by auto. done.
  - intros i Hi Hne. rewrite decide_False by done. auto using gf_zero_l.
Qed.

End Received.

Section Decoders.
Context {G : Galois} {GL : GaloisLaws G} {HP : Heap}.

Definition skipped_known (N : nat) (mask arrive : Z) (i : nat) : bool := bit_of arrive (positions_of N mask !!! i).

Lemma skipped_coef_byte N list mask k_mask fec j : bytes list -> (fec < length list)%nat ->
  is_byte (skipped_coef N list mask k_mask fec j).
Proof.
  intros Hb Hf. unfold skipped_coef. destruct (bit_of _ _); [|apply byte_zero]. apply gf_pow_byte.
  destruct (lookup_lt_is_Some_2 list fec Hf) as [m Hm]. rewrite (list_lookup_total_correct _ _ _ Hm).
  by eapply bytes_lookup.
Qed.

(** The rows of the skipped decoder. *)
Lemma skipped_rows N n list mask arrive k_mask :
  bytes list -> length k_mask = length list -> (n <= length (positions_of N mask))%nat ->
  let known := skipped_known N mask arrive in
  let V := matrix known (skipped_coef N list mask k_mask) in
  if decide (length (lost known n) <= length list)%nat
  then exists st, skipped_build n n (length list) N list mask arrive k_mask 0 0 (no_rows n) = Ok (Some st) /\
    built n known V st /\ coding n known V
  else skipped_build n n (length list) N list mask arrive k_mask 0 0 (no_rows n) = Ok None.
Proof.
  intros Hb Hk Hn known V. rewrite skipped_build_eq by (done || cbn; lia).
  pose proof (build_ok n (length list) list known (skipped_coef N list mask k_mask) eq_refl
    (skipped_fill n N mask k_mask) (fun i => Ok (known i)) (skipped_fills N n list mask k_mask Hb Hn Hk)
    (fun _ _ => eq_refl) n 0 (no_rows n) (Nat.add_0_r n) (no_rows_partial n known _) (Nat.le_0_l _)) as H.
  destruct (decide (length (lost known n) <= length list)%nat) as [Hd|Hd]; [|exact H].
  destruct H as (st & E & Hbuilt). exists st. split; [exact E|]. split; [done|].
  apply (matrix_coding n (length list) list); [done| |done]. intros fec j Hf _. by apply skipped_coef_byte.
Qed.

Lemma lost_lt_all known n : Forall (fun i => i < n)%nat (lost known n).
Proof. apply Forall_forall. intros. by eapply lost_lt. Qed.

(** The decoder of the live code ([reed_sol_skipped_stream_decoding_matrix],
    any bitset width [N]): it never leaves its arrays, it returns NULL when more
    packets are lost than FEC packets were given, and a matrix it does return
    has [k * n] entries and gives every lost packet back: row [t] applied to
    the packets that arrived, with the FEC packets in the places of the lost
    ones, is the [t]-th lost packet, for all data. *)
Lemma skipped_decoder_exact N n list mask arrive k_mask :
  bytes list -> length k_mask = length list -> (n <= length (positions_of N mask))%nat ->
  let known := skipped_known N mask arrive in
  exists r, reed_sol_skipped_stream_decoding_matrix N n (length list) list mask arrive k_mask = Ok r /\
    ((length list < length (lost known n))%nat -> r = None) /\
    forall dist, r = Some dist ->
      length dist = (length list * n)%nat /\
      gives_back n known (skipped_coef N list mask k_mask) dist (lost known n).
Proof.
  intros Hb Hk Hn known. unfold reed_sol_skipped_stream_decoding_matrix.
  pose proof (skipped_rows N n list mask arrive k_mask Hb Hk Hn) as Hrows. cbv zeta in Hrows. fold known in Hrows.
  case_decide as Hd.
  2:{ rewrite Hrows, bind_ok. exists None. split_and!; (done || discriminate). }
  destruct Hrows as (st & -> & Hbuilt & Hcod). rewrite bind_ok.
  rewrite (built_lost _ _ _ _ Hbuilt).
  set (V := matrix known (skipped_coef N list mask k_mask)) in *.
  assert (Hreg : regular n (arrived known n) (lost known n) V \/ ~ regular n (arrived known n) (lost known n) V).
  { unfold regular. destruct (forward_fn _ _); [by left; eexists|right; by intros [? ?]]. }
  destruct Hreg as [Hreg|Hreg].
  - destruct (solve_known_regular n known V true st (lost known n) (length list * n)) as (dist & -> & Hlen & Hrec);
      [done|done|apply lost_lt_all|apply Nat.mul_le_mono_r; exact Hd|done|].
    exists (Some dist). split_and!; [done|intros; lia|]. intros ? [= <-]. split; [done|]. by apply recovers_gives_back.
  - rewrite (solve_known_refused n known V) by done. exists None. split_and!; (done || discriminate).
Qed.

End Decoders.

(** ** Base numbers *)

Section BaseNumbers.
Context {G : Galois} {GL : GaloisLaws G} {GG : GaloisGenerator G}.

Abbreviation mul := galois_single_multiply.

Lemma byte_two : is_byte 2.
Proof. by vm_compute. Qed.

Lemma pow2_byte e : is_byte (gf_pow 2 e).
Proof. apply gf_pow_byte, byte_two. Qed.

Lemma pow2_nonzero e : gf_pow 2 e <> 0.
Proof. apply gf_pow_nonzero; [apply byte_two|done]. Qed.

Lemma pow2_inj e1 e2 : (e1 < e2 + 255)%nat -> (e2 < e1 + 255)%nat -> gf_pow 2 e1 = gf_pow 2 e2 -> e1 = e2.
Proof.
  assert (Hlt : forall a b, (a < b < a + 255)%nat -> gf_pow 2 a <> gf_pow 2 b).
  { intros a b Hab E. replace b with (a + (b - a))%nat in E by lia. rewrite gf_pow_add in E by apply byte_two.
    apply (gf_order (b - a)); [lia|]. symmetry.
    apply (gf_cancel (gf_pow 2 a)); auto using pow2_byte, byte_one, pow2_nonzero.
    rewrite gf_one_r by apply pow2_byte. exact E. }
  intros H1 H2 E. destruct (lt_eq_lt_dec e1 e2) as [[Hl|]|Hl]; [|done|].
  - by destruct (Hlt e1 e2 ltac:(lia)).
  - by destruct (Hlt e2 e1 ltac:(lia)).
Qed.

(** The base numbers of a call are the next [k] powers of 2. *)
Lemma GenerateBaseNumList_powers a n k :
  (n <= kRSfecMaxMediaPackets)%nat ->
  GenerateBaseNumList (gf_pow 2 a) n k = (Some (map (gf_pow 2) (seq a k)), gf_pow 2 (a + k)).
Proof.
  intros Hn. unfold GenerateBaseNumList. rewrite (proj2 (Nat.ltb_ge _ _)) by done.
  assert (E : foldl (fun '(dist, curBaseNum) (_ : nat) =>
      (dist ++ [curBaseNum], mul curBaseNum baseMulNum)) ([], gf_pow 2 a) (seq 0 k) =
      (map (gf_pow 2) (seq a k), gf_pow 2 (a + k))); [|by rewrite E].
  induction k as [|k IH]; [cbn; by rewrite Nat.add_0_r|].
  rewrite seq_S, foldl_app, IH. cbn [foldl]. rewrite (seq_S k a), map_app, Nat.add_succ_r. done.
Qed.

End BaseNumbers.

Lemma lost_rank known n i r : lost known n !! i = Some r -> fec_of known r = i.
Proof.
  unfold fec_of. induction n as [|n IH]; [done|]. rewrite lost_S. destruct (known n); [by rewrite app_nil_r|].
  by intros [[_ H]|[-> <-]]%lookup_snoc_Some; [apply IH|].
Qed.

Lemma arrived_agree tb tb' m N :
  (m <= N)%nat -> (forall p, (p < m)%nat -> tb p = tb' p) -> (forall p, (m <= p < N)%nat -> tb p = false) ->
  arrived tb N = arrived tb' m.
Proof.
  induction 1 as [|N Hle IH]; intros Hin Hout.
  - clear Hout. induction m as [|m IH]; [done|]. rewrite !arrived_S, IH, Hin by auto with lia. done.
  - rewrite arrived_S, Hout, app_nil_r by lia. auto with lia.
Qed.

(** ** Encoder and decoder *)

Section Block.
Context {G : Galois} {GL : GaloisLaws G} {GG : GaloisGenerator G} {HP : Heap}.

Abbreviation mul := galois_single_multiply.

Lemma gives_back_ext n known coef coef' dist out :
  (forall j i, (j < n)%nat -> known j = false -> (i < n)%nat -> coef (fec_of known j) i = coef' (fec_of known j) i) ->
  gives_back n known coef dist out -> gives_back n known coef' dist out.
Proof.
  intros E Hg t r Htr x Hx. rewrite <- (Hg t r Htr x Hx). apply gf_sum_ext. intros j Hj. f_equal.
  unfold received, fec_payload. destruct (known j) eqn:Ej; [done|]. apply gf_sum_ext. intros i Hi. by rewrite E.
Qed.

(** The coding matrix over positions [ps]. *)
Lemma GenerateCodingMatrix_powers n k list pktMask maskLen :
  bytes list -> length list = k -> (maskLen <= length pktMask)%nat ->
  length (arrived (array_set pktMask) maskLen) = n ->
  exists table, GenerateCodingMatrix n k list pktMask maskLen = Ok (Some table) /\ length table = (k * n)%nat /\
    forall i j, (i < k)%nat -> (j < n)%nat ->
      table !!! (i * n + j)%nat = gf_pow (list !!! i) (arrived (array_set pktMask) maskLen !!! j).
Proof.
  intros Hb Hl Hm Hn. destruct (stream_rows_ok n list pktMask maskLen k 0 (fresh (k * n)))
    as (table & E & Hlen & Hin & _); [done|done|lia|lia|rewrite length_fresh; lia|].
  rewrite length_fresh in Hlen. exists table. split; [exact E|]. split; [done|]. intros i j Hi Hj.
  destruct (lookup_lt_is_Some_2 (arrived (array_set pktMask) maskLen) j) as [b Hbj]; [lia|].
  rewrite (list_lookup_total_correct _ _ b Hbj). apply list_lookup_total_correct. apply Hin; [lia|done|done].
Qed.

(** FEC packets [f], [f + d], [f + 2 d], ... of one coding matrix leave no
    zero pivot. *)
Lemma spaced_regular a d n k known (pos : nat -> nat) span coef :
  (0 < d)%nat -> (d * span < 255)%nat -> (forall j, (j < n)%nat -> (pos j <= span)%nat) ->
  (forall i j, (i < n)%nat -> (j < n)%nat -> pos i = pos j -> i = j) ->
  coding n known (matrix known coef) -> (length (lost known n) <= k)%nat ->
  (forall t j, (t < k)%nat -> (j < n)%nat -> coef t j = gf_pow (gf_pow 2 (a + d * t)) (pos j)) ->
  regular n (arrived known n) (lost known n) (matrix known coef).
Proof.
  intros Hd Hspan Hpos Hinj Hcod Hlost Hcoef.
  apply (vandermonde_regular n known _ (fun j => gf_pow 2 (a * pos j)) (fun j => gf_pow 2 (d * pos j)));
    auto using pow2_byte, pow2_nonzero.
  - intros i j Hi%lost_lt Hj%lost_lt E. apply Hinj; [done|done|].
    pose proof (Hpos i Hi). pose proof (Hpos j Hj). apply pow2_inj in E; nia.
  - intros i r j Hr Hj. pose proof (lost_rank _ _ _ _ Hr) as Erank. pose proof (lookup_lt_Some _ _ _ Hr).
    assert (Hkr : known r = false) by (apply list_elem_of_lookup_2, lost_elem in Hr; tauto).
    unfold matrix. rewrite Hkr, Erank, Hcoef by (lia || by eapply lost_lt).
    pose proof byte_two. rewrite <- !gf_pow_mul, <- gf_pow_add by done. f_equal. lia.
Qed.

(** A position determines the packet. *)
Lemma positions_inj tb N i j :
  (i < length (arrived tb N))%nat -> (j < length (arrived tb N))%nat ->
  arrived tb N !!! i = arrived tb N !!! j -> i = j.
Proof.
  intros Hi Hj E. destruct (lookup_lt_is_Some_2 _ _ Hi) as [b Hb], (lookup_lt_is_Some_2 _ _ Hj) as [b' Hb'].
  rewrite (list_lookup_total_correct _ _ _ Hb), (list_lookup_total_correct _ _ _ Hb') in E. subst b'.
  apply bit_rank in Hb as (_ & _ & <-), Hb' as (_ & _ & <-). done.
Qed.

(** A FEC packet of the whole block starts at position 0. *)
Lemma block_coef N list mask k t j :
  (0 < N)%nat -> bit_of mask 0 = true -> (t < k)%nat -> (j < length (positions_of N mask))%nat ->
  skipped_coef N list mask (replicate k mask) t j = gf_pow (list !!! t) (positions_of N mask !!! j).
Proof.
  intros HN H0 Ht Hj. unfold skipped_coef. rewrite lookup_total_replicate_2 by done.
  destruct (lookup_lt_is_Some_2 _ _ Hj) as [b Hb]. rewrite (list_lookup_total_correct _ _ _ Hb).
  pose proof (first_le _ _ _ _ (first_of_ok N mask mask) 0 HN H0 H0) as Hf.
  apply bit_rank in Hb as (_ & -> & _). f_equal. lia.
Qed.

(** The FEC packets that arrived: [k] of them, every [d]-th from [f] on. *)
Definition spaced {A} `{Inhabited A} (l : list A) (f d k : nat) : list A := map (fun t => l !!! (f + d * t)%nat) (seq 0 k).

Lemma spaced_lookup {A} `{Inhabited A} (l : list A) f d k t : (t < k)%nat -> spaced l f d k !!! t = l !!! (f + d * t)%nat.
Proof.
  intros Ht. apply list_lookup_total_correct. unfold spaced. rewrite (list_lookup_fmap _ (seq 0 k)).
  by rewrite lookup_seq_lt.
Qed.

Lemma powers_lookup a kk i : (i < kk)%nat -> map (gf_pow 2) (seq a kk) !!! i = gf_pow 2 (a + i).
Proof.
  intros Hi. apply list_lookup_total_correct. rewrite (list_lookup_fmap _ (seq a kk)).
  by rewrite lookup_seq_lt.
Qed.

Lemma powers_bytes (l : list nat) : bytes (map (gf_pow 2) l).
Proof. apply Forall_fmap, Forall_true. intros. apply pow2_byte. Qed.

(** Base numbers that are every [d]-th power of 2 leave no zero pivot: the
    decoding matrix of a block exists. *)
Lemma block_solves a d k n span list mask arrive :
  let known := skipped_known 128 mask arrive in
  length list = k -> (forall t, (t < k)%nat -> list !!! t = gf_pow 2 (a + d * t)) ->
  bit_of mask 0 = true -> length (positions_of 128 mask) = n ->
  (0 < d)%nat -> (d * span < 255)%nat -> (forall p, p ∈ positions_of 128 mask -> (p <= span)%nat) ->
  (length (lost known n) <= k)%nat ->
  exists dist, GenerateDecodingMatrix n k list mask arrive (replicate k mask) = Ok (Some dist) /\
    gives_back n known (skipped_coef 128 list mask (replicate k mask)) dist (lost known n).
Proof.
  intros known Hlk Hlist H0 Hpos Hd Hspan Hps Hlost.
  assert (Hbk : bytes list).
  { apply Forall_lookup. intros t b Ht. pose proof (lookup_lt_Some _ _ _ Ht). apply list_lookup_total_correct in Ht as <-.
    rewrite Hlist by lia. apply pow2_byte. }
  pose proof (skipped_rows 128 n list mask arrive (replicate k mask) Hbk) as Hrows.
  rewrite length_replicate, Hlk in Hrows. specialize (Hrows eq_refl ltac:(lia)). cbv zeta in Hrows. fold known in Hrows.
  rewrite decide_True in Hrows by done. destruct Hrows as (st & Est & Hbuilt & Hcod).
  assert (Hreg : regular n (arrived known n) (lost known n) (matrix known (skipped_coef 128 list mask (replicate k mask)))).
  { apply (spaced_regular a d n k known (fun j => positions_of 128 mask !!! j) span); try done.
    - intros j Hj. destruct (lookup_lt_is_Some_2 (positions_of 128 mask) j) as [b Hb]; [lia|].
      rewrite (list_lookup_total_correct _ _ _ Hb). by eapply Hps, list_elem_of_lookup_2.
    - intros i j Hi Hj. apply positions_inj; unfold positions_of in Hpos; lia.
    - intros t j Ht Hj. rewrite block_coef, Hlist by (done || lia). done. }
  destruct (solve_known_regular n known _ true st (lost known n) (k * n) Hcod Hbuilt) as (dist & Ed & _ & Hrec);
    [apply lost_lt_all|by apply Nat.mul_le_mono_r|done|].
  exists dist. split; [|by apply recovers_gives_back].
  unfold GenerateDecodingMatrix, reed_sol_skipped_stream_decoding_matrix. rewrite Est, bind_ok.
  rewrite (built_lost _ _ _ _ Hbuilt). exact Ed.
Qed.


(** *** The block code *)

Lemma build_ext n k list kn kn' fill rows i st :
  (forall j, (j < i + rows)%nat -> kn j = kn' j) ->
  build rows n k list kn fill i st = build rows n k list kn' fill i st.
Proof.
  revert i st. induction rows as [|rows IH]; intros i st E; cbn [build]; [done|]. rewrite E by lia.
  destruct (kn' i) as [arrived|]; [|done]. rewrite !bind_ok.
  destruct (if arrived then _ else _) as [[st'|]|]; [|done|done]. rewrite !bind_ok. apply IH. intros; apply E; lia.
Qed.

Lemma sub_coding_powers n list :
  bytes list ->
  exists table, reed_sol_sub_coding_matrix n (length list) list = Ok (Some table) /\
    length table = (length list * n)%nat /\
    forall i j, (i < length list)%nat -> (j < n)%nat -> table !!! (i * n + j)%nat = gf_pow (list !!! i) j.
Proof.
  intros Hb. unfold reed_sol_sub_coding_matrix.
  assert (Hrows : forall k, (k <= length list)%nat -> exists vdm,
    foldM (fun vdm i => let! mul_num := buf_get list i in power_row vdm (i * n) n mul_num) (seq 0 k)
      (fresh (length list * n)) = Ok vdm /\ length vdm = (length list * n)%nat /\
    forall i j, (i < k)%nat -> (j < n)%nat -> vdm !! (i * n + j)%nat = Some (gf_pow (list !!! i) j)).
  { induction k as [|k IH]; intros Hk.
    { eexists. split; [done|]. split; [apply length_fresh|]. intros; lia. }
    destruct IH as (vdm & E & Hlen & Hin); [lia|]. rewrite seq_S, foldM_app, E, bind_ok. cbn [foldM].
    rewrite Nat.add_0_l. destruct (lookup_lt_is_Some_2 list k) as [mul_num Hm]; [lia|].
    rewrite (buf_get_ok _ _ _ Hm), bind_ok.
    destruct (power_row_ok vdm (k * n) n mul_num) as (vdm' & -> & Hlen' & Hin' & Hout);
      [by eapply bytes_lookup|nia|]. rewrite bind_ok. exists vdm'. split; [done|]. split; [lia|]. intros i j Hi Hj.
    destruct (decide (i = k)) as [->|Hne].
    - rewrite Hin' by done. by rewrite (list_lookup_total_correct _ _ _ Hm).
    - rewrite Hout by nia. apply Hin; lia. }
  destruct (Hrows (length list)) as (table & -> & Hlen & Hin); [lia|]. rewrite bind_ok. exists table.
  split; [done|]. split; [done|]. intros i j Hi Hj. apply list_lookup_total_correct. by apply Hin.
Qed.

Lemma array_bit_ok mask i : (i < length mask)%nat -> array_bit mask i = Ok (array_set mask i).
Proof.
  intros Hi. unfold array_bit, array_set. destruct (lookup_lt_is_Some_2 mask i Hi) as [m Hm].
  by rewrite (buf_get_ok _ _ _ Hm), (list_lookup_total_correct _ _ _ Hm).
Qed.


End Block.

(** ** Witnesses *)



