(* ===== verification/RsCodec.v ===== *)
(** * RsCodec: Reed-Solomon FEC packets

    [examples/customizationFEC/RS_FEC]: the header codec
    ([RS_fec_header_reader_writer.cc]), the encoder [EncodeRSFec] and the
    recovery of lost packets [RecoverPacket] of [RSForwardErrorCorrection]
    ([RS_forward_error_correction.cc]).  A packet is its bytes, as in
    [FecTypes]; a [std::bitset] is an integer; weak pointers to the packets
    considered lost are their numbers in the decoder's store. *)

From S2P Require Import Prelude.
From S2P Require Import ByteIo.
From S2P Require Import SeqNum.
From S2P Require Import FecTypes.
From S2P Require Import XorCode.
From S2P Require Import FecEncoder.
From S2P Require Import CowBuffer.
From S2P Require Import Galois.
From S2P Require Import ReedSolMatrix.

Module Rs.

(** ** Constants *)

Definition kMaxMediaPackets : nat := 32.
Definition kMaxTrackedMediaPackets : nat := 4 * kMaxMediaPackets.
Definition kMaxFecPackets : nat := 32.
Definition kMaxConsiderLossPackets : nat := kMaxMediaPackets * 4.
Definition kRSfecPacketMaskSize : nat := 4.
Definition kRSfecMagicNumSize : nat := 2.
Definition kFecLevel0HeaderSize : nat := 10.
Definition kFecLevel1HeaderSize : nat := 2 + kRSfecPacketMaskSize + kRSfecMagicNumSize.
Definition kPacketMaskOffset : nat := kFecLevel0HeaderSize + 2.
Definition RSfecHeaderSize : nat := kFecLevel0HeaderSize + kFecLevel1HeaderSize.
Definition kConsiderDecodeMaxN : nat := 128.

(** ** Types *)

Record ProtectedStream : Type := mkProtectedStream {
  ssrc : Z;
  seq_num_base : Z;
  cur_base_num : Z;
  packet_mask_offset : nat;
  mask : Z;
  arrive : Z;
  packet_mask_size : nat
}.

Record ReceivedFecPacket : Type := mkReceivedFecPacket {
  fec_ssrc : Z;
  fec_seq_num : Z;
  protected_packets : list ProtectedPacket;
  maybe_loss_packets : list nat;
  fec_header_size : nat;
  protected_streams : list ProtectedStream;
  protection_length : nat;
  pkt : Packet;
  if_used : bool
}.

(** [protected_streams[0]]. *)
Definition stream0 (fp : ReceivedFecPacket) : res ProtectedStream :=
  match protected_streams fp with s :: _ => Ok s | [] => Fault OutOfBounds end.

(** ** Header codec *)

(** [RSfecHeaderReader::ReadFecHeader]. *)
Definition ReadFecHeader (fec_packet : ReceivedFecPacket) : res (option ReceivedFecPacket) :=
  let data := pkt fec_packet in
  if decide (length data < kPacketMaskOffset)%nat then Ok None else
  let! seq_num_base := ByteReader.ReadBigEndian 16 2 data 2 in
  let! cur_base_num := ByteReader.ReadBigEndian 16 2 data 16 in
  let! mask := ByteReader.ReadBigEndian 32 4 data 12 in
  let! protection_length := ByteReader.ReadBigEndian 16 2 data 10 in
  let! data := memcpy data 2 data 8 2 in
  Ok (Some (mkReceivedFecPacket (fec_ssrc fec_packet) (fec_seq_num fec_packet) (protected_packets fec_packet)
    (maybe_loss_packets fec_packet) RSfecHeaderSize
    [mkProtectedStream (fec_ssrc fec_packet) seq_num_base cur_base_num kPacketMaskOffset mask 0 kRSfecPacketMaskSize]
    (Z.to_nat protection_length) data (if_used fec_packet))).

(** [RSfecHeaderWriter::FinalizeFecHeader]. *)
Definition FinalizeFecHeader (protected_streams : list ProtectedStream) (fec_packet : Packet) : res Packet :=
  match protected_streams with
  | [s] =>
      let! data := memcpy fec_packet 8 fec_packet 2 2 in
      let! data := ByteWriter.WriteBigEndian 2 data 2 (seq_num_base s) in
      let! protection_length := size_sub (length data) RSfecHeaderSize in
      let! data := ByteWriter.WriteBigEndian 2 data 10 (u16 (Z.of_nat protection_length)) in
      let! data := ByteWriter.WriteBigEndian 2 data 16 (cur_base_num s) in
      ByteWriter.WriteBigEndian 4 data 12 (mask s)
  | _ => Fault CheckFailed
  end.

Section Codec.
Context {HP : Heap} {G : Galois}.

(** ** Multiply and add *)

(** [dst[i] = dst[i] ^ galois_single_multiply(v, GFValue, 8)]. *)
Definition gf_add (dst : Packet) (i : nat) (v GFValue : Z) : res Packet :=
  xor_byte dst i (galois_single_multiply v GFValue).

Definition GFMulRTPHeaders (src dst : Packet) (GFValue : Z) : res Packet :=
  let! s0 := buf_get src 0 in
  let! dst := gf_add dst 0 s0 GFValue in
  let! s1 := buf_get src 1 in
  let! dst := gf_add dst 1 s1 GFValue in
  let! net := ByteWriter.WriteBigEndian 2 [0; 0] 0 (u16 (Z.of_nat (length src) - Z.of_nat kRtpHeaderSize)) in
  let! n0 := buf_get net 0 in
  let! dst := gf_add dst 2 n0 GFValue in
  let! n1 := buf_get net 1 in
  let! dst := gf_add dst 3 n1 GFValue in
  let! s4 := buf_get src 4 in
  let! dst := gf_add dst 4 s4 GFValue in
  let! s5 := buf_get src 5 in
  let! dst := gf_add dst 5 s5 GFValue in
  let! s6 := buf_get src 6 in
  let! dst := gf_add dst 6 s6 GFValue in
  let! s7 := buf_get src 7 in
  gf_add dst 7 s7 GFValue.

Definition GFMulRTPPayloads (src : Packet) (payload_length dst_offset : nat) (dst : Packet) (GFValue : Z)
    : res Packet :=
  let dst :=
    if decide (length dst < dst_offset + payload_length)%nat
    then resize_zero dst (dst_offset + payload_length) else dst in
  foldM (fun dst i =>
    let! s := buf_get src (kRtpHeaderSize + i) in
    gf_add dst (dst_offset + i) s GFValue) (seq 0 payload_length) dst.

Definition GFMulFECHeaders (src dst : Packet) (GFValue : Z) : res Packet :=
  foldM (fun dst i => let! s := buf_get src i in gf_add dst i s GFValue) (seq 0 8) dst.

Definition GFMulFECPayloads (src : Packet) (payload_length src_offset : nat) (dst : Packet) (GFValue : Z)
    : res Packet :=
  let dst :=
    if decide (length dst < kRtpHeaderSize + payload_length)%nat
    then resize_zero dst (kRtpHeaderSize + payload_length) else dst in
  foldM (fun dst i =>
    let! s := buf_get src (src_offset + i) in
    gf_add dst (kRtpHeaderSize + i) s GFValue) (seq 0 payload_length) dst.

(** ** Encoder *)

(** [inputV::ExpType]. *)
Inductive ExpType : Set :=
| WebRTCSource | WebRTCFlexFEC | StableRate | RSFECBlock | RSFECStreamStableRate | RSFECStreamSourceRate
| RLSRSFEC | FECClose | TamburFEC | SwiftFECAblL | SwiftFECAblM | SwiftFECAblI.

(** The experiment parameters the encoder reads ([inputV::Params], [transV::Params]). *)
Record Params : Type := mkParams {
  type : ExpType;
  generate_fec_num : nat;
  M : nat
}.

(** How many FEC packets [EncodeRSFec] makes. *)
Definition num_fec_packets_of (params : Params) (num_media_packets : nat) (protection_factor : Z) : nat :=
  match type params with
  | RSFECStreamStableRate | SwiftFECAblM => generate_fec_num params
  | RLSRSFEC | SwiftFECAblL | SwiftFECAblI => M params
  | _ => Z.to_nat (NumFecPackets (Z.of_nat num_media_packets) protection_factor)
  end.

(** [generated_fec_packets_], and the global [internal::curBaseNum]. *)
Record Encoder : Type := mkEncoder {
  generated_fec_packets_ : list Packet;
  curBaseNum : Z
}.

(** [new RSForwardErrorCorrection]: as many packets as the writer allows. *)
Definition new_encoder : Encoder := mkEncoder (replicate kMaxFecPackets []) curBaseNum_init.

(** The loop that fills [pktMask]: [None] when the packets span 32 or more
    sequence numbers; otherwise the mask and the index of the last packet. *)
Fixpoint packet_mask_loop (media_packets : list Packet) (pktMask : list Z) (media_pkt_idx : nat) (prev_seq_num : Z)
    : res (option (list Z * nat)) :=
  match media_packets with
  | [] => Ok (Some (pktMask, media_pkt_idx))
  | _ :: rest =>
      let! pktMask := buf_set pktMask media_pkt_idx 1 in
      match rest with
      | [] => Ok (Some (pktMask, media_pkt_idx))
      | next :: _ =>
          let! seq_num := ParseSequenceNumber next in
          let media_pkt_idx := (media_pkt_idx + Z.to_nat (u16 (seq_num - prev_seq_num)))%nat in
          if (32 <=? media_pkt_idx)%nat then Ok None
          else packet_mask_loop rest pktMask media_pkt_idx seq_num
      end
  end.

(** The loop over the media packets of one FEC packet. *)
Fixpoint add_media (media_packets : list Packet) (encoding_table : list Z) (idx : nat) (fec_packet : Packet)
    : res Packet :=
  match media_packets with
  | [] => Ok fec_packet
  | media_packet :: rest =>
      let! media_payload_length := size_sub (length media_packet) kRtpHeaderSize in
      let fec_packet_length := (RSfecHeaderSize + media_payload_length)%nat in
      let fec_packet :=
        if decide (length fec_packet < fec_packet_length)%nat
        then resize_zero fec_packet fec_packet_length else fec_packet in
      let! v := buf_get encoding_table idx in
      let! fec_packet := GFMulRTPHeaders media_packet fec_packet v in
      let! fec_packet := GFMulRTPPayloads media_packet media_payload_length RSfecHeaderSize fec_packet v in
      add_media rest encoding_table (idx + 1) fec_packet
  end.

Definition GenerateFecPayloads (e : Encoder) (media_packets : list Packet) (n k : nat) (encoding_table : list Z)
    : res Encoder :=
  let! packets := foldM (fun packets i =>
      let! fec_packet := packet_get packets i in
      let! fec_packet := add_media media_packets encoding_table (i * n) fec_packet in
      packet_set packets i fec_packet) (seq 0 k) (generated_fec_packets_ e) in
  Ok (mkEncoder packets (curBaseNum e)).

(** [pktMask] as a [std::bitset<32>]: [curPktMask[i] = pktMask[i]]. *)
Definition mask_bits (pktMask : list Z) (maskLen : nat) : res Z :=
  foldM (fun bits i =>
    let! b := buf_get pktMask i in
    if (i <? 32)%nat then Ok (if b =? 0 then bits else Z.lor bits (Z.shiftl 1 (Z.of_nat i)))
    else Fault OutOfBounds) (seq 0 maskLen) 0.

Definition FinalizeFecHeaders (e : Encoder) (num_fec_packets : nat) (media_ssrc seq_num_base : Z)
    (curBaseNums pktMask : list Z) (maskLen : nat) : res Encoder :=
  let! curPktMask := mask_bits pktMask maskLen in
  let! packets := foldM (fun packets i =>
      let! base_num := buf_get curBaseNums i in
      let! fec_packet := packet_get packets i in
      let! fec_packet := FinalizeFecHeader
        [mkProtectedStream media_ssrc seq_num_base (u16 base_num) 0 curPktMask 0 0] fec_packet in
      packet_set packets i fec_packet) (seq 0 num_fec_packets) (generated_fec_packets_ e) in
  Ok (mkEncoder packets (curBaseNum e)).

(** [RSForwardErrorCorrection::EncodeRSFec]: the return code and the packets
    put on [fec_packets]. *)
Definition EncodeRSFec (params : Params) (e : Encoder) (media_packets : list Packet) (protection_factor : Z)
    : res (Encoder * Z * list Packet) :=
  let num_media_packets := length media_packets in
  if (kMaxMediaPackets <? num_media_packets)%nat then Ok (e, -1, []) else
  if existsb (fun p => length p <? kRtpHeaderSize)%nat media_packets then Ok (e, -1, []) else
  let num_fec_packets := num_fec_packets_of params num_media_packets protection_factor in
  if decide (num_fec_packets = 0%nat) then Ok (e, 0, []) else
  let! packets := prepare_packets (generated_fec_packets_ e) num_fec_packets in
  let e := mkEncoder packets (curBaseNum e) in
  let! first := front media_packets in
  let! prev_seq_num := ParseSequenceNumber first in
  let! pktMask := packet_mask_loop media_packets (replicate 32 0) 0 prev_seq_num in
  match pktMask with
  | None => Ok (e, -1, [])
  | Some (pktMask, media_pkt_idx) =>
      let maskLen := (media_pkt_idx + 1)%nat in
      let '(baseNums, curBaseNum) := GenerateBaseNumList (curBaseNum e) num_media_packets num_fec_packets in
      let e := mkEncoder (generated_fec_packets_ e) curBaseNum in
      match baseNums with
      | None => Ok (e, -1, [])
      | Some baseNums =>
          let! encoding_table := GenerateCodingMatrix num_media_packets num_fec_packets baseNums pktMask maskLen in
          match encoding_table with
          | None => Ok (e, -1, [])
          | Some encoding_table =>
              let! e := GenerateFecPayloads e media_packets num_media_packets num_fec_packets encoding_table in
              let! media_ssrc := ParseSsrc first in
              let! seq_num_base := ParseSequenceNumber first in
              let! e := FinalizeFecHeaders e num_fec_packets media_ssrc seq_num_base baseNums pktMask maskLen in
              Ok (e, 0, take num_fec_packets (generated_fec_packets_ e))
          end
      end
  end.

(** ** Recovery *)

(** [ConsiderLossPacket], what [RecoverPacket] reads of it. *)
Record LossPacket : Type := mkLossPacket {
  loss_ssrc : Z;
  loss_seq_num : Z
}.

(** [std::bitset<128>]: [b << n], and [b[i]], which must be in range. *)
Definition shift128 (b : Z) (n : Z) : Z := uw 128 (Z.shiftl b n).
Definition bit128 (b : Z) (i : Z) : res bool :=
  if i <? Z.of_nat kConsiderDecodeMaxN then Ok (Z.testbit b i) else Fault OutOfBounds.

(** The local variables [min_seq_num], [consider] and [arrive]. *)
Record Window : Type := mkWindow {
  min_seq_num : Z;
  consider : Z;
  arrive_bits : Z
}.

(** One FEC packet more; [None] is [return false]. *)
Definition widen (w : Window) (s : ProtectedStream) : option Window :=
  let cur_seq_num := seq_num_base s in
  let seq_num_diff := MinDiff16 (min_seq_num w) cur_seq_num in
  if Z.of_nat kConsiderDecodeMaxN - 32 <? seq_num_diff then None else
  if seq_num_diff =? 0 then
    Some (mkWindow (min_seq_num w) (Z.lor (consider w) (mask s)) (Z.lor (arrive_bits w) (arrive s)))
  else if IsNewerSequenceNumber (min_seq_num w) cur_seq_num then
    Some (mkWindow cur_seq_num (Z.lor (shift128 (consider w) seq_num_diff) (mask s))
            (Z.lor (shift128 (arrive_bits w) seq_num_diff) (arrive s)))
  else if IsNewerSequenceNumber cur_seq_num (min_seq_num w) then
    Some (mkWindow (min_seq_num w) (Z.lor (consider w) (shift128 (mask s) seq_num_diff))
            (Z.lor (arrive_bits w) (shift128 (arrive s) seq_num_diff)))
  else Some w.

Fixpoint widen_all (w : Window) (fec_packets : list ReceivedFecPacket) : res (option Window) :=
  match fec_packets with
  | [] => Ok (Some w)
  | fp :: rest =>
      let! s := stream0 fp in
      match widen w s with
      | None => Ok None
      | Some w => widen_all w rest
      end
  end.

(** [k_mask_list] and [baseNum_list]. *)
Fixpoint code_rows (min_seq_num : Z) (fec_packets : list ReceivedFecPacket) : res (list Z * list Z) :=
  match fec_packets with
  | [] => Ok ([], [])
  | fp :: rest =>
      let! s := stream0 fp in
      let seq_num_diff := MinDiff16 min_seq_num (seq_num_base s) in
      let! (k_masks, bases) := code_rows min_seq_num rest in
      Ok (shift128 (mask s) seq_num_diff :: k_masks, cur_base_num s :: bases)
  end.

(** [seq_num_To_id] and [curN]. *)
Definition number_positions (consider : Z) : list Z * nat :=
  foldl (fun '(ids, curN) p =>
      if Z.testbit consider (Z.of_nat p) then (ids ++ [Z.of_nat curN], S curN) else (ids ++ [-1], curN))
    ([], O) (seq 0 kConsiderDecodeMaxN).

(** [decoding_table[table_i*curN+seq_num_To_id[seq_num_diff]]]. *)
Definition table_at (decoding_table : list Z) (curN : nat) (seq_num_To_id : list Z) (table_i : nat)
    (seq_num_diff : Z) : res Z :=
  match seq_num_To_id !! Z.to_nat seq_num_diff with
  | None => Fault OutOfBounds
  | Some id =>
      let i := Z.of_nat (table_i * curN) + id in
      if i <? 0 then Fault OutOfBounds else buf_get decoding_table (Z.to_nat i)
  end.

(** [StartPacketRecovery]: one zeroed packet for each FEC packet. *)
Definition StartPacketRecovery (fec_packets : list ReceivedFecPacket) : option (list Packet) :=
  if existsb (fun fp => length (pkt fp) <? fec_header_size fp + protection_length fp)%nat fec_packets then None else
  if existsb (fun fp => Nat.min (IP_PACKET_SIZE - kRtpHeaderSize) (IP_PACKET_SIZE - fec_header_size fp)
                        <? protection_length fp)%nat fec_packets then None else
  let max_protection_length := foldl (fun m fp => Nat.max m (protection_length fp)) O fec_packets in
  Some (replicate (length fec_packets) (replicate (max_protection_length + kRtpHeaderSize) 0)).

(** The media packets of one FEC packet that are at hand and not yet [if_done]. *)
Definition add_known (w : Window) (coef : Z -> res Z) (acc : Packet * Z) (protected_packet : ProtectedPacket)
    : res (Packet * Z) :=
  let '(dst, if_done) := acc in
  match pp_pkt protected_packet with
  | None => Ok (dst, if_done)
  | Some src =>
      let seq_num_diff := MinDiff16 (min_seq_num w) (pp_seq_num protected_packet) in
      let! c := bit128 (consider w) seq_num_diff in
      let! a := bit128 (arrive_bits w) seq_num_diff in
      let! d := bit128 if_done seq_num_diff in
      if c && a && negb d then
        let! v := coef seq_num_diff in
        let! dst := GFMulRTPHeaders src dst v in
        let! payload_length := size_sub (length src) kRtpHeaderSize in
        let! dst := GFMulRTPPayloads src payload_length kRtpHeaderSize dst v in
        Ok (dst, Z.lor if_done (Z.shiftl 1 seq_num_diff))
      else Ok (dst, if_done)
  end.

(** [maybe_loss_packets[i]]. *)
Definition loss_get (maybe_loss_packets : list LossPacket) (i : nat) : res LossPacket :=
  match maybe_loss_packets !! i with Some p => Ok p | None => Fault OutOfBounds end.

(** One recovered packet: the loop over the FEC packets. *)
Fixpoint add_fec_packets (w : Window) (coef : Z -> res Z) (maybe_loss_packets : list LossPacket)
    (fec_packets : list ReceivedFecPacket) (rec_pkt_i : nat) (acc : Packet * Z) : res Packet :=
  match fec_packets with
  | [] => Ok (fst acc)
  | fp :: rest =>
      let! (dst, if_done) := foldM (add_known w coef) (protected_packets fp) acc in
      let! loss := loss_get maybe_loss_packets rec_pkt_i in
      let! v := coef (MinDiff16 (min_seq_num w) (loss_seq_num loss)) in
      let! dst := GFMulFECHeaders (pkt fp) dst v in
      let! payload_length := size_sub (length (pkt fp)) (fec_header_size fp) in
      let! dst := GFMulFECPayloads (pkt fp) payload_length (fec_header_size fp) dst v in
      add_fec_packets w coef maybe_loss_packets rest (rec_pkt_i + 1) (dst, if_done)
  end.

(** The loop over the recovered packets, from row [table_i] on. *)
Fixpoint decode_rows (w : Window) (decoding_table : list Z) (curN : nat) (seq_num_To_id : list Z)
    (maybe_loss_packets : list LossPacket) (fec_packets : list ReceivedFecPacket) (table_i : nat)
    (packets : list Packet) : res (list RecoveredPacket) :=
  match packets with
  | [] => Ok []
  | dst :: packets =>
      let! loss := loss_get maybe_loss_packets table_i in
      let! dst := add_fec_packets w (table_at decoding_table curN seq_num_To_id table_i) maybe_loss_packets
                    fec_packets 0 (dst, 0) in
      let! rest := decode_rows w decoding_table curN seq_num_To_id maybe_loss_packets fec_packets (table_i + 1) packets in
      Ok (mkRecoveredPacket (loss_ssrc loss) (loss_seq_num loss) true false dst :: rest)
  end.

(** [FinishPacketRecovery]; [None] is [return false]. *)
Definition finish_packet (recovered : RecoveredPacket) : res (option RecoveredPacket) :=
  let data := rec_pkt recovered in
  let! length_recovery := ByteReader.ReadBigEndian 16 2 data 2 in
  let new_size := (Z.to_nat length_recovery + kRtpHeaderSize)%nat in
  if decide (IP_PACKET_SIZE - kRtpHeaderSize < new_size)%nat then Ok None else
  let data := resize_zero data new_size in
  let! data := ByteWriter.WriteBigEndian 2 data 2 (rec_seq_num recovered) in
  let! data := ByteWriter.WriteBigEndian 4 data 8 (rec_ssrc recovered) in
  Ok (Some (mkRecoveredPacket (rec_ssrc recovered) (rec_seq_num recovered)
              (rec_was_recovered recovered) (rec_returned recovered) data)).

Fixpoint FinishPacketRecovery (recovered_packets : list RecoveredPacket) : res (option (list RecoveredPacket)) :=
  match recovered_packets with
  | [] => Ok (Some [])
  | r :: rest =>
      let! r := finish_packet r in
      match r with
      | None => Ok None
      | Some r =>
          let! rest := FinishPacketRecovery rest in
          match rest with
          | None => Ok None
          | Some rest => Ok (Some (r :: rest))
          end
      end
  end.

(** [RSForwardErrorCorrection::RecoverPacket]; [None] is [return false]. *)
Definition RecoverPacket (fec_packets : list ReceivedFecPacket) (maybe_loss_packets : list LossPacket)
    : res (option (list RecoveredPacket)) :=
  match fec_packets with
  | [] => Ok None
  | first :: rest =>
      let! s := stream0 first in
      let! w := widen_all (mkWindow (seq_num_base s) (mask s) (arrive s)) rest in
      match w with
      | None => Ok None
      | Some w =>
          let curK := length fec_packets in
          let! (k_mask_list, baseNum_list) := code_rows (min_seq_num w) fec_packets in
          let '(seq_num_To_id, curN) := number_positions (consider w) in
          let! decoding_table := GenerateDecodingMatrix curN curK baseNum_list (consider w) (arrive_bits w) k_mask_list in
          match decoding_table with
          | None => Ok None
          | Some decoding_table =>
              match StartPacketRecovery fec_packets with
              | None => Ok None
              | Some packets =>
                  let! recovered := decode_rows w decoding_table curN seq_num_To_id maybe_loss_packets fec_packets 0 packets in
                  FinishPacketRecovery recovered
              end
          end
      end
  end.

End Codec.
End Rs.
