(* ===== verification/RsBytes.v ===== *)
(** * RsBytes: the Reed-Solomon code on packets

    The multiply-and-add routines of [RSForwardErrorCorrection] on byte
    functions, and the header codec: the reader inverts the writer. *)

From S2P Require Import Prelude.
From S2P Require Import ByteIo.
From S2P Require Import SeqNum.
From S2P Require Import FecTypes.
From S2P Require Import Flexfec03Header.
From S2P Require Import XorCode.
From S2P Require Import FecEncoder.
From S2P Require Import CowBuffer.
From S2P Require Import Galois.
From S2P Require Import ReedSolMatrix.
From S2P Require Import ReedSolSolve.
From S2P Require Import ReedSolRows.
From S2P Require Import RsCodec.

Section Bytes.
Context {G : Galois} {GL : GaloisLaws G}.

Abbreviation mul := galois_single_multiply.

(** Positions the code works on: the first eight bytes and the payload. *)
Definition coded (i : nat) : Prop := (i < 8 \/ 12 <= i)%nat.

(** What a FEC packet with a header of [hdr] bytes holds at position [i]. *)
Definition fec_byte (hdr : nat) (fec : Packet) (i : nat) : Z :=
  if decide (i < 8)%nat then byte_at fec i else byte_at fec (hdr + (i - 12)).

Lemma gf_add_loop d off src soff n c :
  (off + n <= length d)%nat -> (soff + n <= length src)%nat -> bytes d -> bytes src -> is_byte c ->
  exists d', foldM (fun dst i => let! s := buf_get src (soff + i) in Rs.gf_add dst (off + i) s c) (seq 0 n) d = Ok d' /\
    length d' = length d /\ bytes d' /\
    forall j, byte_at d' j =
      if decide (off <= j < off + n)%nat then Z.lxor (byte_at d j) (mul (byte_at src (soff + (j - off))) c)
      else byte_at d j.
Proof.
  intros Hd Hs Hbd Hbs Hc.
  destruct (xor_loop d off n (fun i => mul (byte_at src (soff + i)) c)) as (d' & E & Hlen & Hb & Hat);
    [done|done|intros; apply gf_byte; [by apply byte_at_range|done]|].
  exists d'. split_and!; try done. rewrite <- E. apply foldM_ext. intros b i Hi%elem_of_seq.
  by rewrite buf_get_at by lia.
Qed.

(** The length field of [GFMulRTPHeaders]. *)
Lemma contribution_length (src : Packet) :
  exists l0 l1, ByteWriter.WriteBigEndian 2 [0; 0] 0 (u16 (Z.of_nat (length src) - Z.of_nat kRtpHeaderSize)) = Ok [l0; l1] /\
    l0 = contribution src 2 /\ l1 = contribution src 3.
Proof. eexists _, _. split; [|split; reflexivity]. reflexivity. Qed.

Lemma GFMulRTPHeaders_spec src dst c :
  (12 <= length src)%nat -> (8 <= length dst)%nat -> bytes src -> bytes dst -> is_byte c ->
  exists d, Rs.GFMulRTPHeaders src dst c = Ok d /\ length d = length dst /\ bytes d /\
    forall i, byte_at d i =
      if decide (i < 8)%nat then Z.lxor (byte_at dst i) (mul (contribution src i) c) else byte_at dst i.
Proof.
  intros Hs Hd Hbs Hbd Hc. unfold Rs.GFMulRTPHeaders.
  destruct (contribution_length src) as (l0 & l1 & -> & -> & ->).
  assert (Hcon : forall i, is_byte (mul (contribution src i) c))
    by (intros; apply gf_byte; [by apply contribution_range|done]).
  rewrite !(buf_get_at src) by lia. unfold Rs.gf_add. rewrite !bind_ok.
  change (byte_at src 0) with (contribution src 0). change (byte_at src 1) with (contribution src 1).
  change (byte_at src 4) with (contribution src 4). change (byte_at src 5) with (contribution src 5).
  change (byte_at src 6) with (contribution src 6). change (byte_at src 7) with (contribution src 7).
  destruct (xor_loop dst 0 8 (fun i => mul (contribution src i) c)) as (d & E & Hlen & Hb & Hat);
    [lia|done|intros; apply Hcon|].
  exists d. split_and!; try done.
  - rewrite <- E. cbn [seq foldM Nat.add]. do 2 (destruct (xor_byte _ _ _); cbn [mbind res_bind]; [|done]).
    change (buf_get [contribution src 2; contribution src 3] 0) with (Ok (contribution src 2)).
    change (buf_get [contribution src 2; contribution src 3] 1) with (Ok (contribution src 3)).
    cbn [mbind res_bind]. repeat (destruct (xor_byte _ _ _); cbn [mbind res_bind]; [|done]). done.
  - intros i. rewrite Hat, Nat.sub_0_r. destruct (decide (i < 8)%nat); [rewrite decide_True by lia|rewrite decide_False by lia]; done.
Qed.

(** Growing a packet with zeros changes no byte. *)
Lemma grow_spec (dst : Packet) n :
  bytes dst ->
  let d := if decide (length dst < n)%nat then resize_zero dst n else dst in
  length d = Nat.max (length dst) n /\ bytes d /\ forall j, byte_at d j = byte_at dst j.
Proof.
  intros Hb. cbv zeta. case_decide as Hlt; [|split_and!; [lia|done..]]. split_and!.
  - unfold resize_zero. rewrite length_resize. lia.
  - by apply bytes_resize.
  - intros j. rewrite byte_at_resize. case_decide; [done|]. symmetry. apply byte_at_beyond. lia.
Qed.

(** The payload loops: [src] from [soff] to its end is added at [off]. *)
Lemma payload_loop_spec src soff off (dst : Packet) c :
  (soff <= length src)%nat -> bytes src -> bytes dst -> is_byte c ->
  let n := (length src - soff)%nat in
  let dst' := if decide (length dst < off + n)%nat then resize_zero dst (off + n) else dst in
  exists d, foldM (fun dst i => let! s := buf_get src (soff + i) in Rs.gf_add dst (off + i) s c) (seq 0 n) dst' = Ok d /\
    length d = Nat.max (length dst) (off + n) /\ bytes d /\
    (forall i, (i < off)%nat -> byte_at d i = byte_at dst i) /\
    (forall j, byte_at d (off + j) = Z.lxor (byte_at dst (off + j)) (mul (byte_at src (soff + j)) c)).
Proof.
  intros Hs Hbs Hbd Hc n dst'. destruct (grow_spec dst (off + n) Hbd) as (Hl & Hb & Hat). fold dst' in Hl, Hb, Hat.
  destruct (gf_add_loop dst' off src soff n c) as (d & -> & Hlen & Hbytes & Hd); [lia|lia|done..|].
  exists d. split_and!; [done|lia|done| |].
  - intros i Hi. rewrite Hd, decide_False by lia. apply Hat.
  - intros j. rewrite Hd, Hat. case_decide.
    + by replace (off + j - off)%nat with j by lia.
    + rewrite (byte_at_beyond src), gf_zero_l, Z.lxor_0_r by (done || lia). done.
Qed.

Lemma GFMulRTPPayloads_spec src off dst c :
  (12 <= length src)%nat -> bytes src -> bytes dst -> is_byte c ->
  exists d, Rs.GFMulRTPPayloads src (length src - 12) off dst c = Ok d /\
    length d = Nat.max (length dst) (off + (length src - 12)) /\ bytes d /\
    (forall i, (i < off)%nat -> byte_at d i = byte_at dst i) /\
    (forall j, byte_at d (off + j) = Z.lxor (byte_at dst (off + j)) (mul (byte_at src (12 + j)) c)).
Proof. intros. by apply payload_loop_spec. Qed.

Lemma GFMulFECHeaders_spec src dst c :
  (8 <= length src)%nat -> (8 <= length dst)%nat -> bytes src -> bytes dst -> is_byte c ->
  exists d, Rs.GFMulFECHeaders src dst c = Ok d /\ length d = length dst /\ bytes d /\
    forall i, byte_at d i =
      if decide (i < 8)%nat then Z.lxor (byte_at dst i) (mul (byte_at src i) c) else byte_at dst i.
Proof.
  intros Hs Hd Hbs Hbd Hc. destruct (gf_add_loop dst 0 src 0 8 c) as (d & E & Hlen & Hb & Hat); [lia|lia|done..|].
  exists d. split_and!; try done.
  intros i. rewrite Hat, Nat.sub_0_r. destruct (decide (i < 8)%nat); [rewrite decide_True by lia|rewrite decide_False by lia]; done.
Qed.

Lemma GFMulFECPayloads_spec src hdr dst c :
  (hdr <= length src)%nat -> bytes src -> bytes dst -> is_byte c ->
  exists d, Rs.GFMulFECPayloads src (length src - hdr) hdr dst c = Ok d /\
    length d = Nat.max (length dst) (12 + (length src - hdr)) /\ bytes d /\
    (forall i, (i < 12)%nat -> byte_at d i = byte_at dst i) /\
    (forall j, byte_at d (12 + j) = Z.lxor (byte_at dst (12 + j)) (mul (byte_at src (hdr + j)) c)).
Proof. intros. by apply payload_loop_spec. Qed.

End Bytes.

(** ** The header *)

Ltac rs_unfold :=
  unfold Rs.RSfecHeaderSize, Rs.kPacketMaskOffset, Rs.kFecLevel0HeaderSize, Rs.kFecLevel1HeaderSize,
    Rs.kRSfecPacketMaskSize, Rs.kRSfecMagicNumSize in *;
  unfold ByteReader.ReadBigEndian, ByteReader.ReadBigEndian2, ByteReader.ReadBigEndian4,
    ByteWriter.WriteBigEndian, ByteWriter.WriteBigEndian2, ByteWriter.WriteBigEndian4;
  cbn [Nat.add].

(** A FEC packet as the decoder stores it before the header is read. *)
Definition unread (ssrc seq_num : Z) (d : Packet) : Rs.ReceivedFecPacket :=
  Rs.mkReceivedFecPacket ssrc seq_num [] [] 0 [] 0 d false.

(** What reading the header of a FEC packet [d] makes of it. *)
Definition read_packet (ssrc seq_num base cur mask : Z) (plen : nat) (d : Packet) : Rs.ReceivedFecPacket :=
  Rs.mkReceivedFecPacket ssrc seq_num [] [] 18 [Rs.mkProtectedStream ssrc base cur 12 mask 0 4] plen d false.

(** [d'] carries the code bytes of [d]. *)
Record same_code (d d' : Packet) : Prop := {
  same_length : length d' = length d;
  same_bytes : bytes d';
  same_at i : (i < 8 \/ 18 <= i)%nat -> byte_at d' i = byte_at d i
}.

(** The reader inverts the writer. *)
Lemma rs_header_roundtrip s d ssrc seq_num :
  bytes d -> (18 <= length d)%nat -> Z.of_nat (length d - 18) < 65536 ->
  is_u16 (Rs.seq_num_base s) -> is_u16 (Rs.cur_base_num s) -> is_u32 (Rs.mask s) ->
  exists sent d', Rs.FinalizeFecHeader [s] d = Ok sent /\ bytes sent /\ length sent = length d /\
    Rs.ReadFecHeader (unread ssrc seq_num sent) =
      Ok (Some (read_packet ssrc seq_num (Rs.seq_num_base s) (Rs.cur_base_num s) (Rs.mask s) (length d - 18) d')) /\
    same_code d d'.
Proof.
  intros Hb Hl Hmax Hbase Hcur Hmask.
  assert (exists n, length d = (18 + n)%nat) as [n Hn] by (exists (length d - 18)%nat; lia).
  rewrite Hn in *. replace (18 + n - 18)%nat with n in * by lia. rewrite <- Hn. take_bytes d 18%nat.
  cbn [length Nat.add] in Hn. assert (Hn' : length d = n) by lia. clear Hn Hl.
  unfold Rs.FinalizeFecHeader. rs_unfold. run.
  rewrite size_sub_ok by (cbn [length]; lia). run. cbn [length]. rewrite Hn'.
  replace (S (S (S (S (S (S (S (S (S (S (S (S (S (S (S (S (S (S n))))))))))))))))) - 18)%nat with n by lia.
  eexists _, _. split; [reflexivity|]. split_bytes. split; [|split; [cbn [length]; lia|split]].
  - repeat (apply Forall_cons_2; [by (assumption || by apply uw_range)|]). done.
  - unfold Rs.ReadFecHeader, unread. cbn [Rs.pkt]. rs_unfold. rewrite decide_False by (cbn [length]; lia). run.
    cbn [Rs.fec_ssrc Rs.fec_seq_num Rs.protected_packets Rs.maybe_loss_packets Rs.if_used].
    rewrite !be16_roundtrip, be32_roundtrip by (done || by apply uw_range).
    rewrite (uw_small 16 (Z.of_nat n)), Nat2Z.id by (unfold in_uw; lia). reflexivity.
  - split; [cbn [length]; lia| |].
    + repeat (apply Forall_cons_2; [by (assumption || by apply uw_range)|]). done.
    + intros i Hi. by do 18 (destruct i as [|i]; [done || lia|]).
Qed.

(** A packet of 12 to 17 bytes is read past its end. *)
Lemma rs_read_overrun ssrc seq_num d :
  (12 <= length d < 18)%nat -> Rs.ReadFecHeader (unread ssrc seq_num d) = Fault OutOfBounds.
Proof.
  intros Hl. unfold Rs.ReadFecHeader, unread. cbn [Rs.pkt]. rs_unfold. rewrite decide_False by lia.
  destruct (buf_get_lt d 2) as (b2 & _ & ->); [lia|]. destruct (buf_get_lt d 3) as (b3 & _ & ->); [lia|].
  cbn [mbind res_bind]. destruct (decide (length d <= 16)%nat) as [H|H].
  - by rewrite (buf_get_fault d 16).
  - destruct (buf_get_lt d 16) as (b16 & _ & ->); [lia|]. cbn [mbind res_bind]. by rewrite (buf_get_fault d 17) by lia.
Qed.
