(* ===== verification/RsEncoder.v ===== *)
(** * RsEncoder: what [EncodeRSFec] produces

    Every FEC packet, read back, holds the sum of the media packets, each
    multiplied by the base number to the power of its distance from the first
    packet. *)

From stdpp Require Import sorting.
From S2P Require Import Prelude.
From S2P Require Import ByteIo.
From S2P Require Import SeqNum.
From S2P Require Import FecTypes.
From S2P Require Import XorCode.
From S2P Require Import FecEncoder.
From S2P Require Import EncoderCorrect.
From S2P Require Import CowBuffer.
From S2P Require Import Galois.
From S2P Require Import ReedSolMatrix.
From S2P Require Import ReedSolSolve.
From S2P Require Import ReedSolRows.
From S2P Require Import ReedSolGuarantees.
From S2P Require Import RsCodec.
From S2P Require Import RsBytes.

Section Encoder.
Context {HP : Heap} {G : Galois} {GL : GaloisLaws G}.

Abbreviation mul := galois_single_multiply.

Lemma gf_sum_cons f n : gf_sum f (S n) = Z.lxor (f 0%nat) (gf_sum (fun i => f (S i)) n).
Proof. change (S n) with (1 + n)%nat. rewrite gf_sum_add. unfold gf_sum at 1. cbn. by rewrite Z.lxor_0_r. Qed.

(** The code word of [ms] with coefficients [c]. *)
Definition rs_code (ms : list Packet) (c : nat -> Z) (i : nat) : Z :=
  gf_sum (fun j => mul (contribution (ms !!! j) i) (c j)) (length ms).

Lemma rs_code_cons p ms c i :
  rs_code (p :: ms) c i = Z.lxor (mul (contribution p i) (c 0%nat)) (rs_code ms (fun j => c (S j)) i).
Proof. unfold rs_code. cbn [length]. by rewrite gf_sum_cons. Qed.

(** One media packet. *)
Lemma add_one_spec p fec c :
  media_sized p -> bytes fec -> is_byte c ->
  let grown := if decide (length fec < 18 + (length p - 12))%nat then resize_zero fec (18 + (length p - 12)) else fec in
  exists d1 d2, Rs.GFMulRTPHeaders p grown c = Ok d1 /\ Rs.GFMulRTPPayloads p (length p - 12) 18 d1 c = Ok d2 /\
    bytes d2 /\ length d2 = Nat.max (length fec) (18 + (length p - 12)) /\
    forall i, coded i -> fec_byte 18 d2 i = Z.lxor (fec_byte 18 fec i) (mul (contribution p i) c).
Proof.
  intros [Hbp Hlp] Hbf Hc grown. destruct (grow_spec fec (18 + (length p - 12)) Hbf) as (Hlg & Hbg & Hatg).
  fold grown in Hlg, Hbg, Hatg.
  destruct (GFMulRTPHeaders_spec p grown c) as (d1 & E1 & Hl1 & Hb1 & Hat1); [done|lia|done..|].
  destruct (GFMulRTPPayloads_spec p 18 d1 c) as (d2 & E2 & Hl2 & Hb2 & Hlo & Hhi); [done..|].
  exists d1, d2. split_and!; [done|done|done|lia|]. intros i Hi. unfold fec_byte. case_decide as H8.
  - rewrite Hlo, Hat1, decide_True, Hatg by lia. done.
  - destruct Hi as [|Hi]; [done|]. rewrite Hhi, Hat1, decide_False, Hatg by lia.
    replace (12 + (i - 12))%nat with i by lia. do 3 f_equal.
    do 12 (destruct i as [|i]; [lia|]). done.
Qed.

(** The payload size of the longest packet. *)
Definition max_payload (ms : list Packet) : nat := foldr (fun p m => Nat.max (length p - 12) m) 0%nat ms.

Lemma add_media_spec ms table idx fec :
  Forall media_sized ms -> bytes fec -> bytes table -> (idx + length ms <= length table)%nat ->
  exists d, Rs.add_media ms table idx fec = Ok d /\ bytes d /\
    length d = Nat.max (length fec) (match ms with [] => 0 | _ => 18 + max_payload ms end)%nat /\
    forall i, coded i -> fec_byte 18 d i = Z.lxor (fec_byte 18 fec i) (rs_code ms (fun j => table !!! (idx + j)%nat) i).
Proof.
  intros Hms Hbf Hbt. revert idx fec Hbf. induction Hms as [|p ms Hp Hms IH]; intros idx fec Hbf Hlen; cbn [Rs.add_media].
  { exists fec. split_and!; [done|done|lia|]. intros i _. change (rs_code [] _ i) with 0. by rewrite Z.lxor_0_r. }
  cbn [length] in Hlen. destruct (lookup_lt_is_Some_2 table idx) as [c Hc]; [lia|].
  pose proof (bytes_lookup _ _ _ Hbt Hc) as Hcb.
  unfold kRtpHeaderSize. rewrite size_sub_ok, bind_ok by apply Hp. rewrite (buf_get_ok _ _ _ Hc), bind_ok.
  destruct (add_one_spec p fec c Hp Hbf Hcb) as (d1 & d2 & E1 & E2 & Hb2 & Hl2 & Hat2).
  change Rs.RSfecHeaderSize with 18%nat. rewrite E1, bind_ok, E2, bind_ok.
  destruct (IH (idx + 1)%nat d2 Hb2) as (d & -> & Hb & Hl & Hat); [lia|].
  exists d. split_and!; [done|done| |].
  - rewrite Hl, Hl2. cbn [max_payload foldr]. fold (max_payload ms). destruct ms; cbn [max_payload foldr]; lia.
  - intros i Hi. rewrite Hat, Hat2, rs_code_cons, Z.lxor_assoc, Nat.add_0_r by done.
    rewrite (list_lookup_total_correct _ _ _ Hc). do 2 f_equal. unfold rs_code. apply gf_sum_ext. intros j _.
    by replace (idx + 1 + j)%nat with (idx + S j)%nat by lia.
Qed.

End Encoder.

(** ** Masks *)

(** The media packets [ms] are at distances [os] from sequence number [base]. *)
Record rs_batch (ms : list Packet) (base : Z) (os : list nat) : Prop := {
  batch_media : Forall media_sized ms;
  batch_seq : Forall2 (fun p o => rtp_seq_num p = u16 (base + Z.of_nat o)) ms os;
  batch_sorted : StronglySorted lt os;
  batch_first : head os = Some 0%nat;
  batch_span : Forall (fun o => o < 32)%nat os
}.

Lemma seq_distance base o o' :
  (o <= o')%nat -> Z.of_nat o' < 65536 -> u16 (u16 (base + Z.of_nat o') - u16 (base + Z.of_nat o)) = Z.of_nat (o' - o).
Proof.
  intros Hle Hlt. unfold uw. rewrite <- Zminus_mod.
  replace (base + Z.of_nat o' - (base + Z.of_nat o)) with (Z.of_nat (o' - o)) by lia. apply Z.mod_small. lia.
Qed.

(** [pktMask] of the packets at [os]. *)
Definition mark (m : list Z) (os : list nat) : list Z := foldl (fun m o => <[o := 1]> m) m os.

Lemma length_mark m os : length (mark m os) = length m.
Proof. revert m. induction os as [|o os IH]; intros m; cbn; [done|]. by rewrite IH, length_insert. Qed.

Lemma mark_lookup m os p :
  Forall (fun o => o < length m)%nat os -> mark m os !! p = if decide (p ∈ os) then Some 1 else m !! p.
Proof.
  revert m. induction os as [|o os IH]; intros m Hos; cbn [mark foldl]; [done|].
  apply Forall_cons in Hos as [Ho Hos]. fold (mark (<[o := 1]> m) os). rewrite IH by (by rewrite length_insert).
  destruct (decide (p ∈ os)) as [Hin|Hin]; [by rewrite decide_True by (by right)|].
  destruct (decide (p = o)) as [->|Hne].
  - rewrite list_lookup_insert_eq by done. by rewrite decide_True by (by left).
  - rewrite list_lookup_insert_ne by done. rewrite decide_False; [done|]. by intros [|]%elem_of_cons.
Qed.

Lemma packet_mask_loop_ok base p ms o os mask :
  Forall2 (fun p o => rtp_seq_num p = u16 (base + Z.of_nat o)) (p :: ms) (o :: os) ->
  Forall media_sized (p :: ms) -> StronglySorted lt (o :: os) -> Forall (fun o => o < 32)%nat (o :: os) ->
  length mask = 32%nat ->
  Rs.packet_mask_loop (p :: ms) mask o (u16 (base + Z.of_nat o)) =
    Ok (Some (mark mask (o :: os), List.last (o :: os) 0%nat)).
Proof.
  revert p o os mask. induction ms as [|q ms IH]; intros p o os mask HF Hm Hs Ho Hlen; cbn [Rs.packet_mask_loop].
  - apply Forall2_cons in HF as [_ HF]. apply Forall2_nil_inv_l in HF as ->.
    apply Forall_cons in Ho as [Ho _]. rewrite buf_set_ok by lia. done.
  - destruct os as [|o' os]; [by apply Forall2_cons_nil_inv in HF || (apply Forall2_cons in HF as [_ HF]; apply Forall2_nil_inv_r in HF)|].
    apply Forall2_cons in HF as [_ HF]. apply Forall_cons in Ho as [Ho Hos].
    apply Forall_cons in Hm as [_ Hm]. inversion Hs as [|? ? Hs' Hlt]; subst.
    assert (Hoo : (o < o')%nat) by (by inversion Hlt).
    rewrite buf_set_ok, bind_ok by lia. pose proof Hm as Hm'. apply Forall_cons in Hm' as [[Hbq Hlq] _].
    destruct (ParseSequenceNumber_ok q Hbq Hlq) as [-> _]. rewrite bind_ok.
    pose proof HF as HF'. apply Forall2_cons in HF' as [-> _].
    pose proof Hos as Hos'. apply Forall_cons in Hos' as [Ho' _].
    rewrite seq_distance, Nat2Z.id by lia. replace (o + (o' - o))%nat with o' by lia.
    rewrite (proj2 (Nat.leb_gt _ _)) by lia. etransitivity; [apply (IH q o' os); try done; by rewrite length_insert|done].
Qed.

Lemma last_cons_elem (o : nat) os d : List.last (o :: os) d ∈ o :: os.
Proof.
  revert o. induction os as [|o' os IH]; intros o; [by left|]. change (List.last (o :: o' :: os) d) with (List.last (o' :: os) d).
  right. apply IH.
Qed.

Lemma sorted_last o os d p : StronglySorted lt (o :: os) -> p ∈ o :: os -> (p <= List.last (o :: os) d)%nat.
Proof.
  revert o. induction os as [|o' os IH]; intros o Hs Hp.
  - apply list_elem_of_singleton in Hp as ->. done.
  - change (List.last (o :: o' :: os) d) with (List.last (o' :: os) d). inversion Hs as [|? ? Hs' Hlt]; subst.
    apply elem_of_cons in Hp as [->|Hp]; [|by apply IH]. rewrite List.Forall_forall in Hlt.
    pose proof (last_cons_elem o' os d) as Hin. apply list_elem_of_In, Hlt in Hin. lia.
Qed.

(** The mask has exactly the packets of the batch set. *)
Lemma mark_set o os p :
  Forall (fun o => o < 32)%nat (o :: os) -> (p < 32)%nat ->
  array_set (mark (replicate 32 0) (o :: os)) p = bool_decide (p ∈ o :: os).
Proof.
  intros Ho Hp. unfold array_set. rewrite list_lookup_total_alt, mark_lookup by (by rewrite length_replicate).
  case_decide as Hin; [by rewrite bool_decide_true|]. rewrite bool_decide_false by done.
  by rewrite lookup_replicate_2.
Qed.

Lemma mark_positions o os :
  StronglySorted lt (o :: os) -> Forall (fun o => o < 32)%nat (o :: os) ->
  arrived (array_set (mark (replicate 32 0) (o :: os))) (List.last (o :: os) 0%nat + 1)%nat = o :: os.
Proof.
  intros Hs Ho. apply sorted_ext; [apply filter_seq_sorted|done|]. intros x.
  assert (Hlast : (List.last (o :: os) 0 < 32)%nat).
  { pose proof (last_cons_elem o os 0%nat) as Hin. rewrite Forall_forall in Ho. by apply Ho. }
  rewrite arrived_elem. split.
  - intros [Hx Hset]. rewrite mark_set in Hset by (done || lia). by apply bool_decide_eq_true in Hset.
  - intros Hx. pose proof (sorted_last o os 0%nat x Hs Hx). split; [lia|].
    rewrite mark_set by (done || lia). by apply bool_decide_eq_true.
Qed.

Lemma mask_bits_ok m len :
  (len <= 32)%nat -> (len <= length m)%nat -> (forall p, (p < len)%nat -> m !!! p = 0 \/ m !!! p = 1) ->
  exists bits, Rs.mask_bits m len = Ok bits /\ is_u32 bits /\
    forall p, bit_of bits p = (p <? len)%nat && array_set m p.
Proof.
  unfold Rs.mask_bits. induction len as [|len IH]; intros Hl Hm H01.
  { exists 0. split; [done|]. split; [by vm_compute|]. intros p. unfold bit_of. by rewrite Z.testbit_0_l. }
  destruct IH as (bits & E & Hr & Hb); [lia|lia|auto with lia|]. rewrite seq_S, foldM_app, E, bind_ok.
  cbn [foldM]. rewrite Nat.add_0_l. destruct (lookup_lt_is_Some_2 m len) as [v Hv]; [lia|].
  rewrite (buf_get_ok _ _ _ Hv), bind_ok. rewrite (proj2 (Nat.ltb_lt len 32)), bind_ok by lia.
  specialize (H01 len ltac:(lia)). pose proof (list_lookup_total_correct _ _ _ Hv) as Hv'. rewrite Hv' in H01.
  eexists. split; [done|].
  assert (Hbit : forall p, bit_of (if v =? 0 then bits else Z.lor bits (Z.shiftl 1 (Z.of_nat len))) p =
    (p <? S len)%nat && array_set m p).
  { intros p. assert (Eset : array_set m len = negb (v =? 0)).
    { unfold array_set. rewrite Hv'. by destruct H01 as [-> | ->]. }
    destruct (decide (p = len)) as [->|Hne].
    - rewrite (proj2 (Nat.ltb_lt _ _)), Eset by lia. specialize (Hb len). rewrite Nat.ltb_irrefl in Hb.
      unfold bit_of in *. destruct H01 as [-> | ->]; cbn [Z.eqb negb andb]; [done|].
      rewrite Z.lor_spec, Z.shiftl_spec, Hb, Z.sub_diag by lia. done.
    - assert (Ep : (p <? S len)%nat = (p <? len)%nat) by (destruct (Nat.ltb_spec p len), (Nat.ltb_spec p (S len)); lia).
      rewrite Ep, <- Hb. unfold bit_of. destruct (v =? 0); [done|]. rewrite Z.lor_spec, Z.shiftl_spec by lia.
      destruct (decide (p < len)%nat); [rewrite (Z.testbit_neg_r 1) by lia; apply orb_false_r|].
      rewrite (Z.bits_above_log2 1) by (try change (Z.log2 1) with 0; lia). apply orb_false_r. }
  split; [|exact Hbit]. apply in_uw_bits; [lia|]. intros i Hi. specialize (Hbit (Z.to_nat i)). unfold bit_of in Hbit.
  rewrite Z2Nat.id in Hbit by lia. rewrite Hbit. by rewrite (proj2 (Nat.ltb_ge _ _)) by lia.
Qed.

(** ** [EncodeRSFec] *)

Section Encode.
Context {HP : Heap} {G : Galois} {GL : GaloisLaws G} {GG : GaloisGenerator G}.

(** [sent], read back, is the code word of the batch for base number [cur]. *)
Definition fec_packet_of (ms : list Packet) (base : Z) (os : list nat) (cur : Z) (sent : Packet) : Prop :=
  bytes sent /\ forall ssrc seq_num, exists mask d,
    Rs.ReadFecHeader (unread ssrc seq_num sent) =
      Ok (Some (read_packet ssrc seq_num base cur mask (max_payload ms) d)) /\
    is_u32 mask /\ (forall p, bit_of mask p = bool_decide (p ∈ os)) /\
    bytes d /\ length d = (18 + max_payload ms)%nat /\
    forall i, coded i -> fec_byte 18 d i = rs_code ms (fun j => gf_pow cur (os !!! j)) i.

Section Batch.
Variables (ms : list Packet) (base : Z) (os : list nat).
Hypothesis B : rs_batch ms base os.
Hypothesis base_range : is_u16 base.
Hypothesis small : Z.of_nat (max_payload ms) < 65536.

Lemma batch_length : length ms = length os.
Proof. apply (Forall2_length _ _ _ (batch_seq _ _ _ B)). Qed.

Lemma batch_size : (length ms <= 32)%nat.
Proof.
  rewrite batch_length. rewrite <- (length_seq 32 0). apply submseteq_length, NoDup_submseteq.
  - apply sorted_NoDup, B.
  - intros o Ho. apply elem_of_seq. pose proof (batch_span _ _ _ B) as Hspan. rewrite Forall_forall in Hspan.
    specialize (Hspan o Ho). lia.
Qed.

Lemma batch_cons : exists p ms' os', ms = p :: ms' /\ os = 0%nat :: os' /\ media_sized p /\ rtp_seq_num p = base.
Proof.
  pose proof (batch_first _ _ _ B) as Hf. pose proof batch_length as Hl. pose proof (batch_seq _ _ _ B) as Hs.
  pose proof (batch_media _ _ _ B) as Hm. destruct os as [|o os']; [done|]. injection Hf as ->.
  destruct ms as [|p ms']; [done|]. exists p, ms', os'. apply Forall2_cons in Hs as [Hp _].
  apply Forall_cons in Hm as [Hm _]. rewrite Z.add_0_r, uw_small in Hp by done. done.
Qed.

(** The payload loop and the header loop for one FEC packet. *)
Lemma encode_one table cur k i mask :
  bytes table -> length table = (k * length ms)%nat -> (i < k)%nat -> is_u32 mask ->
  (forall p, bit_of mask p = bool_decide (p ∈ os)) ->
  (forall j, (j < length ms)%nat -> table !!! (i * length ms + j)%nat = gf_pow cur (os !!! j)) ->
  is_byte cur ->
  exists d, Rs.add_media ms table (i * length ms) [] = Ok d /\
    exists sent, Rs.FinalizeFecHeader
        [Rs.mkProtectedStream (rtp_ssrc (ms !!! 0%nat)) base (u16 cur) 0 mask 0 0] d = Ok sent /\
      fec_packet_of ms base os cur sent.
Proof.
  intros Hbt Hlt Hi Hmask Hbits Htab Hcur.
  destruct batch_cons as (p & ms' & os' & Ems & _ & Hp & _).
  assert (Hrow : (i * length ms + length ms <= length table)%nat) by (rewrite Hlt; nia).
  destruct (add_media_spec ms table (i * length ms) []) as (d & E & Hb & Hl & Hat);
    [apply B|by constructor|done|done|].
  exists d. split; [done|].
  assert (Hld : length d = (18 + max_payload ms)%nat) by (rewrite Hl, Ems; cbn [length]; lia).
  assert (Hcur16 : is_u16 (u16 cur)) by (by apply uw_range).
  destruct (rs_header_roundtrip (Rs.mkProtectedStream (rtp_ssrc (ms !!! 0%nat)) base (u16 cur) 0 mask 0 0)
    d 0 0 Hb) as (sent & _ & Es & Hbs & _ & _ & _); [lia|rewrite Hld; lia|done|done|done|].
  exists sent. split; [done|]. split; [done|]. intros ssrc seq_num.
  destruct (rs_header_roundtrip (Rs.mkProtectedStream (rtp_ssrc (ms !!! 0%nat)) base (u16 cur) 0 mask 0 0)
    d ssrc seq_num Hb) as (sent' & d' & Es' & _ & _ & Er & [Hsl Hsb Hsat]); [lia|rewrite Hld; lia|done|done|done|].
  rewrite Es in Es'. injection Es' as <-. cbn [Rs.seq_num_base Rs.cur_base_num Rs.mask] in Er.
  rewrite (uw_small 16 cur) in Er by (unfold in_uw in *; lia).
  replace (length d - 18)%nat with (max_payload ms) in Er by lia.
  exists mask, d'. split_and!; try done; [lia|]. intros j Hj.
  assert (Ef : fec_byte 18 d' j = fec_byte 18 d j) by (unfold fec_byte; case_decide; apply Hsat; lia).
  rewrite Ef, Hat by done.
  assert (E0 : fec_byte 18 [] j = 0) by (unfold fec_byte; case_decide; by rewrite byte_at_beyond by (cbn; lia)).
  rewrite E0, Z.lxor_0_l. unfold rs_code. apply gf_sum_ext. intros l Hlm. by rewrite Htab.
Qed.

Lemma max_payload_table k baseNums pktMask maskLen :
  bytes baseNums -> length baseNums = k -> (maskLen <= length pktMask)%nat ->
  arrived (array_set pktMask) maskLen = os ->
  exists table, GenerateCodingMatrix (length ms) k baseNums pktMask maskLen = Ok (Some table) /\
    bytes table /\ length table = (k * length ms)%nat /\
    forall i j, (i < k)%nat -> (j < length ms)%nat ->
      table !!! (i * length ms + j)%nat = gf_pow (baseNums !!! i) (os !!! j).
Proof.
  intros Hb Hl Hm Hpos. destruct (GenerateCodingMatrix_powers (length ms) k baseNums pktMask maskLen)
    as (table & E & Hlen & Htab); [done|done|done|by rewrite Hpos, batch_length|].
  exists table. split_and!; [done| |done|intros; by rewrite Htab, Hpos].
  apply Forall_lookup. intros x v Hx. pose proof (lookup_lt_Some _ _ _ Hx) as Hlt. rewrite Hlen in Hlt.
  assert (Hn : length ms <> 0%nat) by (intros H0; rewrite H0 in Hlt; lia).
  assert (Hv : v = gf_pow (baseNums !!! (x / length ms)%nat) (os !!! (x mod length ms)%nat)).
  { rewrite <- (list_lookup_total_correct _ _ _ Hx), <- Hpos, <- Htab.
    - f_equal. rewrite Nat.mul_comm. by apply Nat.div_mod.
    - apply Nat.Div0.div_lt_upper_bound. lia.
    - by apply Nat.mod_upper_bound. }
  rewrite Hv. apply gf_pow_byte. rewrite Forall_lookup in Hb.
  destruct (lookup_lt_is_Some_2 baseNums (x / length ms)) as [b Hbx].
  { rewrite Hl. apply Nat.Div0.div_lt_upper_bound. lia. }
  rewrite (list_lookup_total_correct _ _ _ Hbx). by eapply Hb.
Qed.

(** The two loops over the generated packets. *)
Lemma generate_and_finalize packets cur k bases table pktMask maskLen mask :
  (k <= length packets)%nat -> (forall i, (i < k)%nat -> packets !! i = Some []) ->
  length bases = k -> bytes bases -> bytes table -> length table = (k * length ms)%nat ->
  (forall i j, (i < k)%nat -> (j < length ms)%nat ->
     table !!! (i * length ms + j)%nat = gf_pow (bases !!! i) (os !!! j)) ->
  Rs.mask_bits pktMask maskLen = Ok mask -> is_u32 mask -> (forall p, bit_of mask p = bool_decide (p ∈ os)) ->
  exists packets1 packets2,
    Rs.GenerateFecPayloads (Rs.mkEncoder packets cur) ms (length ms) k table = Ok (Rs.mkEncoder packets1 cur) /\
    Rs.FinalizeFecHeaders (Rs.mkEncoder packets1 cur) k (rtp_ssrc (ms !!! 0%nat)) base bases pktMask maskLen =
      Ok (Rs.mkEncoder packets2 cur) /\
    length packets2 = length packets /\
    forall i, (i < k)%nat -> exists sent, packets2 !! i = Some sent /\ fec_packet_of ms base os (bases !!! i) sent.
Proof.
  intros Hk Hempty Hlb Hbb Hbt Hlt Htab Hmask Hu32 Hbits.
  assert (Hone : forall i, (i < k)%nat -> exists d, Rs.add_media ms table (i * length ms) [] = Ok d /\
    exists sent, Rs.FinalizeFecHeader
        [Rs.mkProtectedStream (rtp_ssrc (ms !!! 0%nat)) base (u16 (bases !!! i)) 0 mask 0 0] d = Ok sent /\
      fec_packet_of ms base os (bases !!! i) sent).
  { intros i Hi. apply (encode_one table (bases !!! i) k i mask); auto.
    destruct (lookup_lt_is_Some_2 bases i) as [b Hb]; [lia|]. rewrite (list_lookup_total_correct _ _ _ Hb).
    exact (bytes_lookup _ _ _ Hbb Hb). }
  unfold Rs.GenerateFecPayloads, Rs.FinalizeFecHeaders. cbn [Rs.generated_fec_packets_ Rs.curBaseNum].
  destruct (packet_loop (fun i p => Rs.add_media ms table (i * length ms) p)
    (fun i _ d => Rs.add_media ms table (i * length ms) [] = Ok d) packets k Hk) as (packets1 & E1 & Hl1 & Hin1 & _).
  { intros i q Hi Hq. rewrite Hempty in Hq by done. injection Hq as <-. destruct (Hone i Hi) as (d & E & _). eauto. }
  destruct (packet_loop (fun i p => Rs.FinalizeFecHeader
      [Rs.mkProtectedStream (rtp_ssrc (ms !!! 0%nat)) base (u16 (bases !!! i)) 0 mask 0 0] p)
    (fun i _ sent => fec_packet_of ms base os (bases !!! i) sent) packets1 k) as (packets2 & E2 & Hl2 & Hin2 & _); [lia| |].
  { intros i q Hi Hq. destruct (Hin1 i Hi) as (_ & d & _ & Hd & Ed). rewrite Hq in Hd. injection Hd as <-.
    destruct (Hone i Hi) as (d' & Ed' & sent & Es & Hsent). rewrite Ed in Ed'. injection Ed' as <-. eauto. }
  exists packets1, packets2. split; [by rewrite E1|]. split.
  - rewrite Hmask, bind_ok.
    rewrite (foldM_ext _ (fun ps i => let! p := packet_get ps i in
      let! p' := Rs.FinalizeFecHeader [Rs.mkProtectedStream (rtp_ssrc (ms !!! 0%nat)) base (u16 (bases !!! i)) 0 mask 0 0] p in
      packet_set ps i p')); [by rewrite E2|].
    intros ps i Hi%elem_of_seq. destruct (lookup_lt_is_Some_2 bases i) as [b Hb]; [lia|].
    by rewrite (buf_get_ok _ _ _ Hb), (list_lookup_total_correct _ _ _ Hb).
  - split; [lia|]. intros i Hi. destruct (Hin2 i Hi) as (_ & sent & _ & Hs & HQ). eauto.
Qed.

(** The encoder succeeds, and the FEC packets are the code words for the next
    base numbers. *)
Lemma EncodeRSFec_ok params e protection_factor a :
  let k := Rs.num_fec_packets_of params (length ms) protection_factor in
  (0 < k)%nat -> (k <= length (Rs.generated_fec_packets_ e))%nat -> Rs.curBaseNum e = gf_pow 2 a ->
  exists e' sent, Rs.EncodeRSFec params e ms protection_factor = Ok (e', 0, sent) /\
    Rs.curBaseNum e' = gf_pow 2 (a + k) /\
    length (Rs.generated_fec_packets_ e') = length (Rs.generated_fec_packets_ e) /\ length sent = k /\
    forall i, (i < k)%nat -> fec_packet_of ms base os (gf_pow 2 (a + i)) (sent !!! i).
Proof.
  intros k Hk Hgen Hcur. destruct batch_cons as (p & ms' & os' & Ems & Eos & Hp & Hseq).
  pose proof batch_size as Hsize. unfold Rs.EncodeRSFec.
  rewrite (proj2 (Nat.ltb_ge _ _)) by (unfold Rs.kMaxMediaPackets; lia).
  assert (Hshort : existsb (fun p => length p <? kRtpHeaderSize)%nat ms = false).
  { apply not_true_iff_false. rewrite existsb_exists. intros (q & Hq & Hlt).
    pose proof (batch_media _ _ _ B) as Hm. rewrite List.Forall_forall in Hm. destruct (Hm q Hq) as [_ Hl].
    apply Nat.ltb_lt in Hlt. unfold kRtpHeaderSize in Hlt. lia. }
  rewrite Hshort. fold k. rewrite decide_False by lia.
  destruct (prepare_packets_spec (Rs.generated_fec_packets_ e) k Hgen) as (packets & -> & Hlp & Hempty).
  rewrite bind_ok. cbn [Rs.generated_fec_packets_ Rs.curBaseNum].
  assert (Efront : front ms = Ok p) by (by rewrite Ems). rewrite Efront, bind_ok.
  destruct (ParseSequenceNumber_ok p) as [EP _]; [apply Hp..|]. rewrite EP, bind_ok, Hseq.
  pose proof (batch_seq _ _ _ B) as HF. pose proof (batch_media _ _ _ B) as HM.
  pose proof (batch_sorted _ _ _ B) as HS. pose proof (batch_span _ _ _ B) as HO.
  set (pktMask := mark (replicate 32 0) os). set (maskLen := (List.last os 0 + 1)%nat).
  assert (Eloop : Rs.packet_mask_loop ms (replicate 32 0) 0 base = Ok (Some (pktMask, List.last os 0%nat))).
  { unfold pktMask. rewrite Ems, Eos in *. pose proof (packet_mask_loop_ok base p ms' 0 os' (replicate 32 0) HF HM HS HO) as H.
    rewrite Z.add_0_r, uw_small in H by done. apply H. by rewrite length_replicate. }
  rewrite Eloop, bind_ok. fold maskLen.
  assert (Hpos : arrived (array_set pktMask) maskLen = os).
  { unfold pktMask, maskLen. rewrite Eos in *. by apply mark_positions. }
  assert (Hlast : (List.last os 0 < 32)%nat).
  { rewrite Forall_forall in HO. apply HO. rewrite Eos. apply last_cons_elem. }
  assert (Hset : forall q, (q < 32)%nat -> array_set pktMask q = bool_decide (q ∈ os)).
  { intros q Hq. unfold pktMask. rewrite Eos in *. by apply mark_set. }
  assert (Hlm : length pktMask = 32%nat) by (unfold pktMask; by rewrite length_mark, length_replicate).
  rewrite Hcur, GenerateBaseNumList_powers by (unfold kRSfecMaxMediaPackets; lia).
  set (bases := map (gf_pow 2) (seq a k)). cbn [Rs.generated_fec_packets_ Rs.curBaseNum].
  destruct (max_payload_table k bases pktMask maskLen) as (table & -> & Hbt & Hlt & Htab);
    [apply powers_bytes|unfold bases; by rewrite length_map, length_seq|lia|done|]. rewrite bind_ok.
  destruct (mask_bits_ok pktMask maskLen) as (mask & Emask & Hu32 & Hbits); [lia|lia| |].
  { intros q Hq. unfold pktMask. rewrite list_lookup_total_alt, mark_lookup by (by rewrite length_replicate).
    case_decide; [by right|]. rewrite lookup_replicate_2 by lia. by left. }
  destruct (generate_and_finalize packets (gf_pow 2 (a + k)) k bases table pktMask maskLen mask)
    as (packets1 & packets2 & -> & E2 & Hl2 & Hin2); try done.
  { lia. }
  { unfold bases. by rewrite length_map, length_seq. }
  { apply powers_bytes. }
  { intros q. rewrite Hbits. destruct (Nat.ltb_spec q maskLen) as [Hq|Hq]; [apply Hset; lia|].
    symmetry. apply bool_decide_eq_false. intros Hin. rewrite Eos in Hin, HS.
    pose proof (sorted_last _ _ 0%nat q HS Hin). rewrite <- Eos in *. lia. }
  rewrite bind_ok. destruct (ParseSsrc_ok p) as [-> _]; [apply Hp..|]. rewrite !bind_ok.
  assert (E0 : ms !!! 0%nat = p) by (by rewrite Ems). rewrite E0 in E2. rewrite E2, bind_ok.
  eexists _, _. split; [done|]. cbn [Rs.generated_fec_packets_ Rs.curBaseNum].
  split; [done|]. split; [lia|]. split; [rewrite length_take; lia|]. intros i Hi.
  destruct (Hin2 i Hi) as (sent & Hs & HQ). rewrite (list_lookup_total_correct _ i sent).
  - unfold bases in HQ. by rewrite powers_lookup in HQ.
  - by rewrite lookup_take_lt.
Qed.

End Batch.
End Encode.
