(* ===== verification/RsWindow.v ===== *)
(** * RsWindow: the positions [RecoverPacket] works on

    FEC packets of different batches are brought into one window of 128
    sequence numbers, whose first number is the smallest base.  The window's
    bitsets are the unions of the masks; [number_positions] numbers the set
    bits.

    [gives_back] speaks of packets by their rank among the considered
    positions; the recovery loop walks over the positions themselves. *)

From stdpp Require Import sorting.
From S2P Require Import Prelude.
From S2P Require Import SeqNum.
From S2P Require Import FecTypes.
From S2P Require Import CowBuffer.
From S2P Require Import Galois.
From S2P Require Import ReedSolMatrix.
From S2P Require Import ReedSolSolve.
From S2P Require Import ReedSolRows.
From S2P Require Import ReedSolGuarantees.
From S2P Require Import RsCodec.
From S2P Require Import RsEncoder.

(** ** Sequence numbers by their distance from [B] *)

Definition number (B : Z) (p : nat) : Z := u16 (B + Z.of_nat p).

Lemma number_range B p : is_u16 (number B p).
Proof. by apply uw_range. Qed.

Lemma number_diff B p q :
  (p < 1000)%nat -> (q < 1000)%nat -> MinDiff16 (number B p) (number B q) = Z.of_nat (Nat.max p q - Nat.min p q).
Proof.
  intros Hp Hq. unfold MinDiff16, ModOps.MinDiff, ModOps.ForwardDiff, ModOps.ReverseDiff, number. cbn [Z.eqb].
  unfold uw. change (2 ^ 16) with 65536. rewrite <- !Zminus_mod. Z.div_mod_to_equations. lia.
Qed.

Lemma number_newer B p q :
  (p < 1000)%nat -> (q < 1000)%nat -> IsNewerSequenceNumber (number B p) (number B q) = (q <? p)%nat.
Proof.
  intros Hp Hq.
  assert (Hrel : forall r, (r < 1000)%nat -> rel (u16 B) (number B r) = Z.of_nat r).
  { intros r Hr. unfold rel, number, uw. rewrite <- Zminus_mod.
    replace (B + Z.of_nat r - B) with (Z.of_nat r) by lia. apply Z.mod_small. lia. }
  rewrite (IsNewer_window (u16 B)); try apply number_range; [|by apply uw_range|rewrite Hrel by done; lia..].
  rewrite !Hrel by done. destruct (Nat.ltb_spec q p), (Z.ltb_spec (Z.of_nat q) (Z.of_nat p)); lia.
Qed.

(** ** Bits *)

Lemma bit_of_lor a b q : bit_of (Z.lor a b) q = bit_of a q || bit_of b q.
Proof. apply Z.lor_spec. Qed.

Lemma bit_of_uw w b q : 0 <= w -> in_uw w b -> (w <= Z.of_nat q) -> bit_of b q = false.
Proof. intros. by apply (in_uw_testbit w). Qed.

Lemma bit_of_set b p q : bit_of (Z.lor b (Z.shiftl 1 (Z.of_nat p))) q = bit_of b q || bool_decide (q = p).
Proof.
  rewrite bit_of_lor. f_equal. unfold bit_of. rewrite Z.shiftl_spec by lia.
  destruct (decide (q = p)) as [->|Hne]; [by rewrite Z.sub_diag, bool_decide_true|].
  rewrite bool_decide_false by done. destruct (decide (p < q)%nat).
  - apply Z.bits_above_log2; [lia|]. change (Z.log2 1) with 0. lia.
  - apply Z.testbit_neg_r. lia.
Qed.

(** [m], the mask of a FEC packet at distance [d], protects position [p]. *)
Definition covers (d : nat) (m : Z) (p : nat) : bool := (d <=? p)%nat && bit_of m (p - d).

Lemma covers_bound d m p : is_u32 m -> covers d m p = true -> (d <= p < d + 32)%nat.
Proof.
  unfold covers. intros Hm [Hd%Nat.leb_le Hb]%andb_true_iff. split; [done|].
  destruct (decide (p < d + 32)%nat); [done|]. by rewrite (bit_of_uw 32) in Hb by (done || lia).
Qed.

Lemma shift128_bit b n q : bit_of (Rs.shift128 b (Z.of_nat n)) q = (q <? 128)%nat && (n <=? q)%nat && bit_of b (q - n).
Proof.
  unfold Rs.shift128, bit_of, uw. destruct (Nat.ltb_spec q 128).
  - rewrite Z.mod_pow2_bits_low, Z.shiftl_spec by lia. destruct (Nat.leb_spec n q); cbn [andb].
    + f_equal. lia.
    + apply Z.testbit_neg_r. lia.
  - apply Z.mod_pow2_bits_high. lia.
Qed.

(** A mask moved to its place in the window. *)
Lemma shift128_covers m d q : is_u32 m -> (d <= 96)%nat -> bit_of (Rs.shift128 m (Z.of_nat d)) q = covers d m q.
Proof.
  intros Hm Hd. rewrite shift128_bit. destruct (covers d m q) eqn:E.
  - pose proof (covers_bound _ _ _ Hm E). rewrite (proj2 (Nat.ltb_lt _ _)) by lia. exact E.
  - unfold covers in E. rewrite <- andb_assoc, E. apply andb_false_r.
Qed.

(** ** The window *)

(** The stream [s] of a FEC packet at distance [d]. *)
Record placed (B : Z) (d : nat) (s : Rs.ProtectedStream) : Prop := {
  placed_base : Rs.seq_num_base s = number B d;
  placed_near : (d <= 96)%nat;
  placed_mask : is_u32 (Rs.mask s);
  placed_arrive : is_u32 (Rs.arrive s)
}.

Definition union (field : Rs.ProtectedStream -> Z) (l : list (nat * Rs.ProtectedStream)) (p : nat) : bool :=
  existsb (fun ds => covers ds.1 (field ds.2) p) l.

Lemma union_snoc field l d s p : union field (l ++ [(d, s)]) p = union field l p || covers d (field s) p.
Proof. unfold union. rewrite existsb_app. cbn. by rewrite orb_false_r. Qed.

Lemma union_true field l p :
  union field l p = true <-> exists d s, (d, s) ∈ l /\ covers d (field s) p = true.
Proof.
  unfold union. rewrite existsb_exists. split.
  - intros ([d s] & Hin & Hc). exists d, s. by rewrite list_elem_of_In.
  - intros (d & s & Hin & Hc). exists (d, s). by rewrite <- list_elem_of_In.
Qed.

(** [w] is the window of the FEC packets [l], the first base at distance [m]. *)
Record window_of (B : Z) (l : list (nat * Rs.ProtectedStream)) (m : nat) (w : Rs.Window) : Prop := {
  window_min : Rs.min_seq_num w = number B m;
  window_first : exists s, (m, s) ∈ l;
  window_placed d s : (d, s) ∈ l -> placed B d s /\ (m <= d)%nat;
  window_consider q : bit_of (Rs.consider w) q = union Rs.mask l (m + q);
  window_arrive q : bit_of (Rs.arrive_bits w) q = union Rs.arrive l (m + q)
}.

Section Widen.
Context (B : Z) (l : list (nat * Rs.ProtectedStream)) (m : nat) (w : Rs.Window).
Hypothesis W : window_of B l m w.

Lemma window_near : (m <= 96)%nat.
Proof. destruct (window_first _ _ _ _ W) as [s Hs]. destruct (window_placed _ _ _ _ W _ _ Hs) as [P _]. apply P. Qed.

Lemma union_bound field p :
  (field = Rs.mask \/ field = Rs.arrive) -> union field l p = true -> (m <= p < 128)%nat.
Proof.
  intros Hf (d & s & Hin & Hc)%union_true. destruct (window_placed _ _ _ _ W _ _ Hin) as [P Hm].
  pose proof (placed_near _ _ _ P). assert (is_u32 (field s)) by (destruct Hf as [-> | ->]; apply P).
  pose proof (covers_bound _ _ _ ltac:(eassumption) Hc). lia.
Qed.

(** One bitset of the window when a packet at a smaller distance comes. *)
Lemma shifted_bits field b s d q :
  (field = Rs.mask \/ field = Rs.arrive) -> (d < m)%nat ->
  (forall q, bit_of b q = union field l (m + q)) ->
  bit_of (Z.lor (Rs.shift128 b (Z.of_nat (m - d))) (field s)) q = union field (l ++ [(d, s)]) (d + q).
Proof.
  intros Hf Hd Hb. rewrite bit_of_lor, union_snoc. f_equal.
  - rewrite shift128_bit, Hb. destruct (union field l (d + q)) eqn:E.
    + pose proof (union_bound _ _ Hf E). rewrite (proj2 (Nat.ltb_lt _ _)), (proj2 (Nat.leb_le _ _)) by lia.
      by replace (m + (q - (m - d)))%nat with (d + q)%nat by lia.
    + destruct (Nat.leb_spec (m - d) q); [|by rewrite andb_false_r].
      replace (m + (q - (m - d)))%nat with (d + q)%nat by lia. by rewrite E, andb_false_r.
  - unfold covers. rewrite (proj2 (Nat.leb_le _ _)) by lia. cbn [andb]. f_equal. lia.
Qed.

(** ... and when one at a greater distance comes. *)
Lemma added_bits field b s d q :
  (field = Rs.mask \/ field = Rs.arrive) -> placed B d s -> (m <= d)%nat ->
  (forall q, bit_of b q = union field l (m + q)) ->
  bit_of (Z.lor b (Rs.shift128 (field s) (Z.of_nat (d - m)))) q = union field (l ++ [(d, s)]) (m + q).
Proof.
  intros Hf P Hd Hb. rewrite bit_of_lor, union_snoc, Hb. f_equal. pose proof (placed_near _ _ _ P).
  rewrite shift128_covers by (lia || destruct Hf as [-> | ->]; apply P).
  unfold covers. destruct (Nat.leb_spec (d - m) q), (Nat.leb_spec d (m + q)); try lia; try done.
  cbn [andb]. f_equal. lia.
Qed.

Lemma shift128_zero b : is_u32 b -> Rs.shift128 b (Z.of_nat 0) = b.
Proof.
  intros Hb. unfold Rs.shift128. rewrite Z.shiftl_0_r. apply uw_small. unfold in_uw in *. cbn in *. lia.
Qed.

Lemma widen_ok d s :
  placed B d s -> exists w', Rs.widen w s = Some w' /\ window_of B (l ++ [(d, s)]) (Nat.min m d) w'.
Proof.
  intros P. pose proof window_near as Hm. pose proof (placed_near _ _ _ P) as Hd.
  unfold Rs.widen. rewrite (window_min _ _ _ _ W), (placed_base _ _ _ P), number_diff, !number_newer by lia.
  change (Z.of_nat Rs.kConsiderDecodeMaxN - 32) with 96. rewrite (proj2 (Z.ltb_ge _ _)) by lia.
  assert (Hall : forall m', (m' <= m)%nat -> (m' <= d)%nat -> forall d' s', (d', s') ∈ l ++ [(d, s)] -> placed B d' s' /\ (m' <= d')%nat).
  { intros m' H1 H2 d' s' [Hin|Hin]%elem_of_app.
    - destruct (window_placed _ _ _ _ W _ _ Hin) as [P' Hle]. split; [done|lia].
    - apply list_elem_of_singleton in Hin as [= -> ->]. done. }
  assert (Hnew : exists s', (d, s') ∈ l ++ [(d, s)]) by (exists s; apply elem_of_app; right; by left).
  assert (Hold : exists s', (m, s') ∈ l ++ [(d, s)]).
  { destruct (window_first _ _ _ _ W) as [s' Hs']. exists s'. apply elem_of_app. by left. }
  destruct (lt_eq_lt_dec d m) as [[Hlt| ->]|Hgt].
  - rewrite (proj2 (Z.eqb_neq _ _)) by lia. rewrite (proj2 (Nat.ltb_lt d m)) by done.
    replace (Nat.min m d) with d by lia. replace (Nat.max m d - d)%nat with (m - d)%nat by lia.
    eexists. split; [done|]. split; cbn [Rs.min_seq_num Rs.consider Rs.arrive_bits]; [done|done|by apply Hall; lia| |]; intros q;
      apply shifted_bits; auto; apply W.
  - rewrite (proj2 (Z.eqb_eq _ _)) by lia. rewrite Nat.min_id.
    assert (Hzero : forall field b q, field = Rs.mask \/ field = Rs.arrive -> (forall q, bit_of b q = union field l (m + q)) ->
      bit_of (Z.lor b (field s)) q = union field (l ++ [(m, s)]) (m + q)).
    { intros field b q Hf Hb. pose proof (added_bits field b s m q Hf P (le_n _) Hb) as H.
      rewrite Nat.sub_diag, shift128_zero in H by (destruct Hf as [-> | ->]; apply P). exact H. }
    eexists. split; [done|]. split; cbn [Rs.min_seq_num Rs.consider Rs.arrive_bits]; [done|done|by apply Hall; lia| |];
      intros q; apply Hzero; auto; apply W.
  - rewrite (proj2 (Z.eqb_neq _ _)) by lia. rewrite (proj2 (Nat.ltb_ge d m)), (proj2 (Nat.ltb_lt m d)) by lia.
    replace (Nat.min m d) with m by lia. replace (Nat.max m d - m)%nat with (d - m)%nat by lia.
    eexists. split; [done|]. split; cbn [Rs.min_seq_num Rs.consider Rs.arrive_bits]; [done|done|by apply Hall; lia| |]; intros q;
      apply added_bits; auto with lia; apply W.
Qed.

End Widen.

(** ** All FEC packets *)

(** The distances and streams of the FEC packets. *)
Definition streams_of (B : Z) (l : list (nat * Rs.ProtectedStream)) (fps : list Rs.ReceivedFecPacket) : Prop :=
  Forall2 (fun ds fp => Rs.stream0 fp = Ok ds.2 /\ placed B ds.1 ds.2) l fps.

Lemma widen_all_ok B l0 m w l fps :
  window_of B l0 m w -> streams_of B l fps ->
  exists w', Rs.widen_all w fps = Ok (Some w') /\ window_of B (l0 ++ l) (foldl (fun m ds => Nat.min m ds.1) m l) w'.
Proof.
  intros W Hl. revert l0 m w W. induction Hl as [|[d s] fp l fps [E P] Hl IH]; intros l0 m w W; cbn [Rs.widen_all].
  { exists w. rewrite app_nil_r. done. }
  cbn [fst snd] in E, P. rewrite E, bind_ok. destruct (widen_ok B l0 m w W d s P) as (w1 & -> & W1).
  destruct (IH _ _ _ W1) as (w' & E' & W'). exists w'. split; [done|]. by rewrite <- app_assoc in W'.
Qed.

(** The window of the call: positions count from the smallest base [B]. *)
Lemma recover_window B d s l fp fps :
  streams_of B ((d, s) :: l) (fp :: fps) -> (exists s0, (0%nat, s0) ∈ (d, s) :: l) ->
  exists w, Rs.widen_all (Rs.mkWindow (Rs.seq_num_base s) (Rs.mask s) (Rs.arrive s)) fps = Ok (Some w) /\
    window_of B ((d, s) :: l) 0 w.
Proof.
  intros Hs Hz. apply Forall2_cons in Hs as [[_ P] Hs]. cbn [fst snd] in P.
  assert (W : window_of B [(d, s)] d (Rs.mkWindow (Rs.seq_num_base s) (Rs.mask s) (Rs.arrive s))).
  { assert (Hc : forall m q, covers d m (d + q) = bit_of m q).
    { intros m q. unfold covers. rewrite (proj2 (Nat.leb_le _ _)) by lia. cbn [andb]. f_equal. lia. }
    split; cbn [Rs.min_seq_num Rs.consider Rs.arrive_bits].
    - apply P.
    - exists s. by left.
    - intros d' s' [= -> ->]%list_elem_of_singleton. done.
    - intros q. unfold union. cbn. by rewrite Hc, orb_false_r.
    - intros q. unfold union. cbn. by rewrite Hc, orb_false_r. }
  destruct (widen_all_ok B _ _ _ l fps W Hs) as (w & E & W'). exists w. split; [done|].
  destruct Hz as [s0 Hz]. destruct (window_placed _ _ _ _ W' _ _ Hz) as [_ H0].
  apply Nat.le_0_r in H0. by rewrite H0 in W'.
Qed.

Lemma code_rows_ok B l fps :
  streams_of B l fps ->
  Rs.code_rows (number B 0) fps =
    Ok (map (fun ds => Rs.shift128 (Rs.mask ds.2) (Z.of_nat ds.1)) l, map (fun ds => Rs.cur_base_num ds.2) l).
Proof.
  induction 1 as [|[d s] fp l fps [E P] _ IH]; cbn [Rs.code_rows]; [done|].
  rewrite E, bind_ok, IH, bind_ok. pose proof (placed_near _ _ _ P). cbn [fst snd map] in *.
  rewrite (placed_base _ _ _ P), number_diff by lia. by rewrite Nat.max_0_l, Nat.min_0_l, Nat.sub_0_r.
Qed.

(** ** Numbering *)

Lemma number_positions_ok b :
  let '(ids, curN) := Rs.number_positions b in
  curN = length (positions_of 128 b) /\
  forall p, (p < 128)%nat -> ids !! p = Some (if bit_of b p then Z.of_nat (length (arrived (bit_of b) p)) else -1).
Proof.
  unfold Rs.number_positions, positions_of. change Rs.kConsiderDecodeMaxN with 128%nat.
  match goal with |- context [foldl ?g _ _] => set (f := g) end.
  assert (H : forall n, exists ids, foldl f ([], 0%nat) (seq 0 n) = (ids, length (arrived (bit_of b) n)) /\ length ids = n /\
    forall p, (p < n)%nat -> ids !! p = Some (if bit_of b p then Z.of_nat (length (arrived (bit_of b) p)) else -1)).
  { induction n as [|n (ids & E & Hlen & Hat)]; [exists []; split_and!; try done; intros; lia|].
    rewrite seq_S, foldl_app, E. cbn [foldl Nat.add]. unfold f at 1. fold (bit_of b n). rewrite rank_S.
    exists (ids ++ [if bit_of b n then Z.of_nat (length (arrived (bit_of b) n)) else -1]). split; [destruct (bit_of b n); [rewrite Nat.add_1_r|rewrite Nat.add_0_r]; reflexivity|].
    split; [rewrite length_app, Hlen; cbn; lia|]. intros p Hp. destruct (decide (p = n)) as [->|Hne].
    - rewrite lookup_app_r by lia. rewrite Hlen, Nat.sub_diag. by destruct (bit_of b n).
    - rewrite lookup_app_l by lia. apply Hat. lia. }
  destruct (H 128%nat) as (ids & E & _ & Hat). rewrite E. done.
Qed.

(** ** The decoding matrix over window positions *)

(** ** Sums over set positions *)

Lemma gf_sum_positions (f : nat -> Z) tb N :
  gf_sum (fun j => f (arrived tb N !!! j)) (length (arrived tb N)) = gf_sum (fun p => if tb p then f p else 0) N.
Proof.
  induction N as [|N IH]; [done|]. rewrite gf_sum_S, rank_S, <- IH. destruct (tb N) eqn:E.
  - rewrite Nat.add_1_r, gf_sum_S. f_equal.
    + apply gf_sum_ext. intros j Hj. by rewrite arrived_S, lookup_total_app_l.
    + rewrite arrived_S, E, lookup_total_app_r, Nat.sub_diag by done. done.
  - rewrite Nat.add_0_r, Z.lxor_0_r. apply gf_sum_ext. intros j Hj. by rewrite arrived_S, lookup_total_app_l.
Qed.

(** A sum over [M] terms that start at [d]. *)
Lemma gf_sum_shift (f : nat -> Z) d M N :
  (d + M <= N)%nat -> gf_sum f M = gf_sum (fun p => if decide (d <= p < d + M)%nat then f (p - d)%nat else 0) N.
Proof.
  intros HN. replace N with (d + (M + (N - d - M)))%nat by lia. rewrite !gf_sum_add.
  rewrite (gf_sum_ext _ (fun _ => 0) d), gf_sum_zero, Z.lxor_0_l by (intros; by rewrite decide_False by lia).
  rewrite (gf_sum_ext _ (fun _ => 0) (N - d - M)), gf_sum_zero, Z.lxor_0_r by (intros; by rewrite decide_False by lia).
  apply gf_sum_ext. intros i Hi. rewrite decide_True by lia. f_equal. lia.
Qed.

(** One more bit set. *)
Lemma gf_sum_set_bit (f : nat -> Z) (b : nat -> bool) p N :
  (p < N)%nat -> b p = false ->
  gf_sum (fun q => if b q || bool_decide (q = p) then f q else 0) N =
  Z.lxor (gf_sum (fun q => if b q then f q else 0) N) (f p).
Proof.
  intros Hp Hb.
  transitivity (gf_sum (fun q => Z.lxor (if b q then f q else 0) (if decide (q = p) then f q else 0)) N).
  - apply gf_sum_ext. intros q Hq. destruct (decide (q = p)) as [->|Hne].
    + rewrite Hb, bool_decide_true by done. done.
    + rewrite bool_decide_false, orb_false_r, Z.lxor_0_r by done. done.
  - rewrite gf_sum_lxor. f_equal. rewrite (gf_sum_single _ N p Hp); [by rewrite decide_True|].
    intros i _ Hi. by rewrite decide_False.
Qed.

Lemma lost_arrived known n : lost known n = arrived (fun j => negb (known j)) n.
Proof. induction n as [|n IH]; [done|]. rewrite lost_S, arrived_S, IH. by destruct (known n). Qed.

Lemma lost_ext known known' n : (forall j, (j < n)%nat -> known j = known' j) -> lost known n = lost known' n.
Proof. induction n as [|n IH]; intros E; [done|]. by rewrite !lost_S, IH, E by auto. Qed.

(** The lost packets by position. *)
Lemma lost_positions tb hv N :
  map (fun j => arrived tb N !!! j) (lost (fun j => hv (arrived tb N !!! j)) (length (arrived tb N))) =
  arrived (fun p => tb p && negb (hv p)) N.
Proof.
  induction N as [|N IH]; [done|]. rewrite (arrived_S (fun p => tb p && negb (hv p))), <- IH. rewrite rank_S.
  assert (Hold : forall j, (j < length (arrived tb N))%nat -> arrived tb (S N) !!! j = arrived tb N !!! j)
    by (intros; by rewrite arrived_S, lookup_total_app_l).
  assert (Hrest : map (fun j => arrived tb (S N) !!! j)
      (lost (fun j => hv (arrived tb (S N) !!! j)) (length (arrived tb N))) =
    map (fun j => arrived tb N !!! j) (lost (fun j => hv (arrived tb N !!! j)) (length (arrived tb N)))).
  { rewrite (lost_ext _ (fun j => hv (arrived tb N !!! j))) by (intros; by rewrite Hold).
    apply map_ext_in. intros j Hj%list_elem_of_In%lost_lt. by apply Hold. }
  destruct (tb N) eqn:E; cbn [andb]; [|by rewrite Nat.add_0_r, app_nil_r].
  rewrite Nat.add_1_r, lost_S, map_app, Hrest. f_equal.
  assert (Hlast : arrived tb (S N) !!! length (arrived tb N) = N).
  { rewrite arrived_S, E, lookup_total_app_r, Nat.sub_diag by done. done. }
  rewrite Hlast. destruct (hv N); cbn [map negb]; [done|]. by rewrite Hlast.
Qed.

(** ** The decoding matrix *)

Section Decoding.
Context {G : Galois} {GL : GaloisLaws G} {HP : Heap}.

Abbreviation mul := galois_single_multiply.

(** The matrix the decoder returns holds bytes. *)
Lemma decoding_bytes N n k bases mask arrive k_mask dist :
  reed_sol_skipped_stream_decoding_matrix N n k bases mask arrive k_mask = Ok (Some dist) -> bytes dist.
Proof.
  unfold reed_sol_skipped_stream_decoding_matrix, solve. intros (st & _ & H)%bind_ok_inv. destruct st as [st|]; [|done].
  apply bind_ok_inv in H as (v1 & _ & H). apply bind_ok_inv in H as (v2 & _ & H).
  apply bind_ok_inv in H as ([v3|] & _ & H); [|done]. apply bind_ok_inv in H as (v4 & _ & H).
  apply bind_ok_inv in H as (d & H & [= ->]). revert H. unfold copy_right. apply foldM_preserves; [|apply bytes_fresh].
  intros d1 [i r] d2 _ H1. cbn [fst snd]. apply foldM_preserves; [|exact H1]. intros d3 j d4 _ H3 (v & _ & H)%bind_ok_inv.
  by eapply buf_set_bytes.
Qed.

Variables (N : nat) (consider arrive : Z) (bases k_mask : list Z) (dist : list Z).
Variables (hv : nat -> bool) (val : nat -> Z).

Abbreviation tb := (bit_of consider).
Abbreviation n := (length (positions_of N consider)).
Abbreviation rank p := (length (arrived tb p)).

Hypothesis arrive_known : forall p, (p < N)%nat -> tb p = true -> bit_of arrive p = hv p.
Hypothesis val_byte : forall p, tb p = true -> is_byte (val p).
Hypothesis dist_bytes : bytes dist.

(** The positions of the lost packets. *)
Definition lost_at : list nat := arrived (fun p => tb p && negb (hv p)) N.

Lemma lost_at_known : lost_at = map (fun j => positions_of N consider !!! j) (lost (skipped_known N consider arrive) n).
Proof.
  unfold lost_at. rewrite <- lost_positions. f_equal. unfold positions_of. apply lost_ext. intros j Hj. unfold skipped_known, positions_of.
  destruct (lookup_lt_is_Some_2 _ _ Hj) as [p Hp]. rewrite (list_lookup_total_correct _ _ _ Hp).
  apply bit_rank in Hp as (HpN & Htb & _). by rewrite arrive_known.
Qed.

(** What FEC packet [t] adds up to, over the positions. *)
Definition fec_value (t : nat) : Z :=
  gf_sum (fun p => if tb p && bit_of (k_mask !!! t) p
                   then mul (gf_pow (bases !!! t) (p - first_of N consider (k_mask !!! t))) (val p) else 0) N.

Lemma fec_payload_value t :
  fec_payload n (skipped_coef N bases consider k_mask) (fun j => val (positions_of N consider !!! j)) t = fec_value t.
Proof.
  unfold fec_payload, fec_value, skipped_coef. cbv zeta.
  etransitivity; [apply (gf_sum_positions (fun p => mul (if bit_of (k_mask !!! t) p
    then gf_pow (bases !!! t) (p - first_of N consider (k_mask !!! t)) else 0) (val p)))|].
  apply gf_sum_ext. intros p _. destruct (tb p) eqn:E; cbn [andb]; [|done].
  destruct (bit_of (k_mask !!! t) p); [done|]. by apply gf_zero_l, val_byte.
Qed.

Hypothesis matrix_dist :
  gives_back n (skipped_known N consider arrive) (skipped_coef N bases consider k_mask) dist
    (lost (skipped_known N consider arrive) n).
Hypothesis rows : (length lost_at * n <= length dist)%nat.
Hypothesis value_bytes : forall t, (t < length lost_at)%nat -> is_byte (fec_value t).

(** The entry of row [t] for position [p]. *)
Definition entry (t p : nat) : Z := dist !!! (t * n + rank p)%nat.

Lemma entry_byte t p : (t < length lost_at)%nat -> (p < N)%nat -> tb p = true -> is_byte (entry t p).
Proof.
  intros Ht Hp Hb. unfold entry. pose proof (rank_mono tb (S p) N ltac:(lia)) as Hr. rewrite rank_S, Hb in Hr.
  destruct (lookup_lt_is_Some_2 dist (t * n + rank p)) as [v Hv]; [unfold positions_of in *; nia|].
  rewrite (list_lookup_total_correct _ _ _ Hv). by eapply bytes_lookup.
Qed.

Lemma entry_rank t j : (j < n)%nat -> dist !!! (t * n + j)%nat = entry t (positions_of N consider !!! j).
Proof.
  intros Hj. unfold entry. destruct (lookup_lt_is_Some_2 _ _ Hj) as [p Hp]. rewrite (list_lookup_total_correct _ _ _ Hp).
  unfold positions_of in Hp. by apply bit_rank in Hp as (_ & _ & ->).
Qed.

(** Row [t] of the matrix, spread over positions and FEC packets, gives the
    [t]-th lost packet. *)
Lemma decoded_sum t r :
  lost_at !! t = Some r ->
  Z.lxor (gf_sum (fun p => if tb p && hv p then mul (val p) (entry t p) else 0) N)
    (gf_sum (fun u => mul (fec_value u) (entry t (lost_at !!! u))) (length lost_at)) = val r.
Proof.
  intros Hr. pose proof (lookup_lt_Some _ _ _ Hr) as Ht. set (known := skipped_known N consider arrive) in *.
  pose proof Hr as Hr'. rewrite lost_at_known in Hr'. fold known in Hr'.
  rewrite list_lookup_fmap in Hr'. destruct (lost known n !! t) as [j0|] eqn:Ej; [|done]. injection Hr' as Hj0.
  set (x := fun j => val (positions_of N consider !!! j)).
  assert (Hxb : forall j, (j < n)%nat -> is_byte (x j)).
  { intros j Hj. unfold x. destruct (lookup_lt_is_Some_2 _ _ Hj) as [p Hp]. rewrite (list_lookup_total_correct _ _ _ Hp).
    unfold positions_of in Hp. by apply bit_rank in Hp as (_ & Htb & _); apply val_byte. }
  pose proof (matrix_dist t j0 Ej x Hxb) as Hsum. unfold x in Hsum at 2. rewrite Hj0 in Hsum.
  rewrite <- Hsum. clear Hsum.
  transitivity (gf_sum (fun j => Z.lxor
    (if known j then mul (x j) (dist !!! (t * n + j)%nat) else 0)
    (if negb (known j) then mul (fec_value (fec_of known j)) (dist !!! (t * n + j)%nat) else 0)) n).
  2:{ apply gf_sum_ext. intros j Hj. unfold received. rewrite entry_rank by done.
      destruct (lookup_lt_is_Some_2 _ _ Hj) as [p Hp]. rewrite (list_lookup_total_correct _ _ _ Hp).
      assert (Hpb : (p < N)%nat /\ tb p = true) by (unfold positions_of in Hp; by apply bit_rank in Hp as (? & ? & _)).
      assert (Hen : is_byte (entry t p)) by (apply entry_byte; tauto).
      destruct (known j) eqn:Ek; cbn [negb].
      - rewrite Z.lxor_0_r. apply gf_comm; [by apply Hxb|done].
      - rewrite Z.lxor_0_l. unfold x. rewrite fec_payload_value. apply gf_comm; [|done]. apply value_bytes.
        rewrite lost_at_known, length_map. by apply fec_of_lost. }
  rewrite gf_sum_lxor. f_equal.
  - rewrite (gf_sum_ext _ (fun j => (fun p => if hv p then mul (val p) (entry t p) else 0) (positions_of N consider !!! j)) n).
    + etransitivity; [|symmetry; apply (gf_sum_positions (fun p => if hv p then mul (val p) (entry t p) else 0))].
      apply gf_sum_ext. intros p _. by destruct (tb p).
    + intros j Hj. unfold known, skipped_known, x. rewrite entry_rank by done.
      destruct (lookup_lt_is_Some_2 _ _ Hj) as [p Hp]. rewrite (list_lookup_total_correct _ _ _ Hp).
      unfold positions_of in Hp. apply bit_rank in Hp as (HpN & Htb & _). by rewrite arrive_known.
  - etransitivity; [|apply (gf_sum_positions (fun j => mul (fec_value (fec_of known j)) (dist !!! (t * n + j)%nat)))].
    rewrite <- lost_arrived. rewrite lost_at_known, length_map. fold known. apply gf_sum_ext. intros u Hu.
    destruct (lookup_lt_is_Some_2 _ _ Hu) as [j Hj]. rewrite (list_lookup_total_correct _ _ _ Hj).
    rewrite (lost_rank _ _ _ _ Hj). f_equal.
    assert (Hjn : (j < n)%nat) by (by eapply lost_lt, list_elem_of_lookup_2).
    rewrite entry_rank by done. f_equal. apply list_lookup_total_correct. by rewrite list_lookup_fmap, Hj.
Qed.

End Decoding.
