(* ===== verification/RsRecover.v ===== *)
(** * RsRecover: what [RecoverPacket] of the Reed-Solomon decoder computes

    [genuine] FEC packets, from one batch or from several overlapping ones:
    their bytes are code words of the original packets, and they know which
    of these arrived. *)

From stdpp Require Import sorting.
From S2P Require Import Prelude.
From S2P Require Import ByteIo.
From S2P Require Import SeqNum.
From S2P Require Import FecTypes.
From S2P Require Import XorCode.
From S2P Require Import CowBuffer.
From S2P Require Import Galois.
From S2P Require Import ReedSolMatrix.
From S2P Require Import ReedSolSolve.
From S2P Require Import ReedSolRows.
From S2P Require Import ReedSolGuarantees.
From S2P Require Import RsCodec.
From S2P Require Import RsBytes.
From S2P Require Import RsWindow.

(** ** The last step: a packet from its recovered bytes *)

Lemma finish_packet_ok ssrc seq_num dst p :
  bytes dst -> (12 <= length dst)%nat -> bytes p -> (12 <= length p <= 1488)%nat ->
  rtp_seq_num p = seq_num -> rtp_ssrc p = ssrc ->
  (forall i, coded i -> byte_at dst i = contribution p i) ->
  Rs.finish_packet (mkRecoveredPacket ssrc seq_num true false dst) = Ok (Some (mkRecoveredPacket ssrc seq_num true false p)).
Proof.
  intros Hb Hl Hbp Hlp Hseq Hssrc Hat. unfold coded in Hat.
  assert (Hlen : rtp_seq_num dst = Z.of_nat (length p - 12)).
  { unfold rtp_seq_num. rewrite !Hat by lia. cbn [contribution]. rewrite be16_roundtrip by (by apply uw_range).
    rewrite uw_small by (unfold in_uw; lia). lia. }
  destruct (rtp_field_bytes p Hbp ltac:(lia)) as (F2 & F3 & F8 & F9 & F10 & F11). rewrite Hseq, Hssrc in *.
  unfold Rs.finish_packet, kRtpHeaderSize, IP_PACKET_SIZE. cbn [rec_pkt rec_ssrc rec_seq_num rec_was_recovered rec_returned].
  pose proof Hat as Hat'. take_bytes dst 12%nat.
  unfold ByteReader.ReadBigEndian, ByteReader.ReadBigEndian2, ByteWriter.WriteBigEndian, ByteWriter.WriteBigEndian2,
    ByteWriter.WriteBigEndian4. cbn [Nat.add]. run.
  unfold rtp_seq_num in Hlen. cbn [byte_at default lookup list_lookup] in Hlen. unfold byte_at in Hlen. cbn in Hlen.
  rewrite Hlen, Nat2Z.id.
  replace (length p - 12 + 12)%nat with (12 + (length p - 12))%nat by lia.
  rewrite decide_False by lia. cbn [Nat.add]. rewrite !resize_cons. run. do 3 f_equal.
  rewrite F2, F3, F8, F9, F10, F11. apply byte_at_ext.
  { cbn [length]. unfold resize_zero. rewrite length_resize. lia. }
  intros i Hi. cbn [length] in Hi. unfold resize_zero in Hi. rewrite length_resize in Hi.
  do 12 (destruct i as [|i]; [first [done | match goal with |- byte_at _ ?k = _ => exact (Hat' k ltac:(lia)) end]|]).
  change (byte_at (resize_zero dst (length p - 12)) i = byte_at p (12 + i)). rewrite byte_at_resize, decide_True by lia.
  exact (Hat' (12 + i)%nat ltac:(lia)).
Qed.

(** ** Genuine FEC packets *)

Section Recover.
Context {HP : Heap} {G : Galois} {GL : GaloisLaws G}.

Abbreviation mul := galois_single_multiply.

(** The media packets of stream [ssrc] by their distance from sequence number
    [B], and which of them arrived. *)
Variables (ssrc B : Z) (orig : nat -> Packet) (have : nat -> bool).

(** [protected_packets] entry of the packet at distance [p]. *)
Definition protected_at (p : nat) : ProtectedPacket :=
  mkProtectedPacket ssrc (number B p) (if have p then Some (orig p) else None).

(** Byte [i] of the code word for mask [m], [d] packets on, base number [cur]. *)
Definition code_byte (d : nat) (m cur : Z) (i : nat) : Z :=
  gf_sum (fun o => if bit_of m o then mul (contribution (orig (d + o)) i) (gf_pow cur o) else 0) 32.

Record genuine (ds : nat * Rs.ProtectedStream) (fp : Rs.ReceivedFecPacket) : Prop := {
  genuine_stream : Rs.stream0 fp = Ok ds.2;
  genuine_placed : placed B ds.1 ds.2;
  genuine_first : bit_of (Rs.mask ds.2) 0 = true;
  genuine_arrive o : bit_of (Rs.arrive ds.2) o = bit_of (Rs.mask ds.2) o && have (ds.1 + o);
  genuine_base : is_byte (Rs.cur_base_num ds.2);
  genuine_protected :
    Rs.protected_packets fp = map (fun o => protected_at (ds.1 + o)) (positions_of 32 (Rs.mask ds.2));
  genuine_header : Rs.fec_header_size fp = 18%nat;
  genuine_bytes : bytes (Rs.pkt fp);
  genuine_length : length (Rs.pkt fp) = (18 + Rs.protection_length fp)%nat;
  genuine_small : (Rs.protection_length fp <= 1482)%nat;
  genuine_code i : coded i -> fec_byte 18 (Rs.pkt fp) i = code_byte ds.1 (Rs.mask ds.2) (Rs.cur_base_num ds.2) i
}.

(** The original packet at distance [p]. *)
Record media_at (p : nat) : Prop := {
  media_bytes : bytes (orig p);
  media_length : (12 <= length (orig p) <= 1488)%nat;
  media_seq : rtp_seq_num (orig p) = number B p;
  media_ssrc : rtp_ssrc (orig p) = ssrc
}.

(** ** The loop over the packets *)

Section Loop.
Variables (w : Rs.Window) (cons : nat -> bool) (coef : Z -> res Z) (v : nat -> Z).
Hypothesis w_min : Rs.min_seq_num w = number B 0.
Hypothesis w_consider : forall p, bit_of (Rs.consider w) p = cons p.
Hypothesis w_arrive : forall p, bit_of (Rs.arrive_bits w) p = cons p && have p.
Hypothesis cons_small : forall p, cons p = true -> (p < 128)%nat.
Hypothesis coef_ok : forall p, cons p = true -> coef (Z.of_nat p) = Ok (v p) /\ is_byte (v p).
Hypothesis orig_ok : forall p, cons p = true -> media_at p.

(** The packets in [if_done] are added, on top of [base]. *)
Record acc_ok (base : nat -> Z) (acc : Packet * Z) : Prop := {
  acc_bytes : bytes acc.1;
  acc_length : (12 <= length acc.1)%nat;
  acc_at i : coded i -> byte_at acc.1 i =
    Z.lxor (gf_sum (fun p => if bit_of acc.2 p then mul (contribution (orig p) i) (v p) else 0) 128) (base i)
}.

Lemma number_offset p : cons p = true -> MinDiff16 (Rs.min_seq_num w) (number B p) = Z.of_nat p.
Proof. intros Hp%cons_small. rewrite w_min, number_diff by lia. f_equal. lia. Qed.

Lemma bit128_ok b p : cons p = true -> Rs.bit128 b (Z.of_nat p) = Ok (bit_of b p).
Proof.
  intros Hp%cons_small. unfold Rs.bit128. change (Z.of_nat Rs.kConsiderDecodeMaxN) with 128.
  by rewrite (proj2 (Z.ltb_lt _ _)) by lia.
Qed.

(** The multiply-and-add of one packet at hand. *)
Lemma add_packet_spec src dst c :
  media_sized src -> bytes dst -> (12 <= length dst)%nat -> is_byte c ->
  exists d1 d2, Rs.GFMulRTPHeaders src dst c = Ok d1 /\
    Rs.GFMulRTPPayloads src (length src - 12) 12 d1 c = Ok d2 /\ bytes d2 /\ (12 <= length d2)%nat /\
    forall i, coded i -> byte_at d2 i = Z.lxor (byte_at dst i) (mul (contribution src i) c).
Proof.
  intros [Hbs Hls] Hbd Hld Hc.
  destruct (GFMulRTPHeaders_spec src dst c) as (d1 & E1 & Hl1 & Hb1 & Hat1); [done|lia|done..|].
  destruct (GFMulRTPPayloads_spec src 12 d1 c) as (d2 & E2 & Hl2 & Hb2 & Hlo & Hhi); [done..|].
  exists d1, d2. split_and!; [done|done|done|lia|]. intros i [Hi|Hi].
  - rewrite Hlo, Hat1, decide_True by lia. done.
  - replace i with (12 + (i - 12))%nat by lia. rewrite Hhi, Hat1, decide_False by lia. done.
Qed.

Lemma add_known_ok base acc p :
  cons p = true -> acc_ok base acc ->
  exists acc', Rs.add_known w coef acc (protected_at p) = Ok acc' /\ acc_ok base acc' /\
    forall q, bit_of acc'.2 q = bit_of acc.2 q || bool_decide (q = p) && have p.
Proof.
  intros Hp [Hb Hl Hat]. destruct acc as [dst dn]. cbn [fst snd] in *. unfold Rs.add_known, protected_at.
  cbn [pp_pkt pp_seq_num]. destruct (have p) eqn:Hh.
  2:{ exists (dst, dn). split; [reflexivity|]. split; [by split|]. intros q. by rewrite andb_false_r, orb_false_r. }
  rewrite number_offset, !bit128_ok, !bind_ok, w_consider, w_arrive, Hp, Hh by done. cbn [andb].
  destruct (bit_of dn p) eqn:Hd; cbn [negb].
  { exists (dst, dn). split; [reflexivity|]. split; [by split|]. intros q. rewrite andb_true_r.
    case_bool_decide as Hq; [subst q; by rewrite Hd|by rewrite orb_false_r]. }
  destruct (coef_ok p Hp) as [-> Hv]. destruct (orig_ok p Hp) as [Hbo [Hlo _] _ _].
  destruct (add_packet_spec (orig p) dst (v p)) as (d1 & d2 & E1 & E2 & Hb2 & Hl2 & Hat2); [by split|done..|].
  unfold kRtpHeaderSize. rewrite !bind_ok, E1, bind_ok, size_sub_ok, bind_ok, E2, bind_ok by lia.
  eexists. split; [reflexivity|]. cbn [fst snd].
  assert (Hbits : forall q, bit_of (Z.lor dn (Z.shiftl 1 (Z.of_nat p))) q = bit_of dn q || bool_decide (q = p))
    by (intros; apply bit_of_set).
  split; [|intros q; by rewrite Hbits, andb_true_r].
  split; cbn [fst snd]; [done|done|]. intros i Hi. rewrite Hat2, Hat by done.
  rewrite (gf_sum_ext (fun q => if bit_of (Z.lor dn _) q then _ else _)
    (fun q => if bit_of dn q || bool_decide (q = p) then mul (contribution (orig q) i) (v q) else 0))
    by (intros; by rewrite Hbits).
  rewrite (gf_sum_set_bit (fun q => mul (contribution (orig q) i) (v q))) by auto.
  rewrite !Z.lxor_assoc. f_equal. apply Z.lxor_comm.
Qed.

Lemma known_loop base ps : forall acc,
  Forall (fun p => cons p = true) ps -> acc_ok base acc ->
  exists acc', foldM (Rs.add_known w coef) (map protected_at ps) acc = Ok acc' /\ acc_ok base acc' /\
    forall q, bit_of acc'.2 q = bit_of acc.2 q || bool_decide (q ∈ ps) && have q.
Proof.
  induction ps as [|p ps IH]; intros acc Hps Hacc; cbn [map foldM].
  { exists acc. split_and!; try done. intros q. rewrite bool_decide_false by (by apply not_elem_of_nil). by rewrite orb_false_r. }
  apply Forall_cons in Hps as [Hp Hps]. destruct (add_known_ok base acc p Hp Hacc) as (acc1 & -> & Hacc1 & Hd1).
  rewrite bind_ok. destruct (IH acc1 Hps Hacc1) as (acc' & -> & Hacc' & Hd). exists acc'. split_and!; try done.
  intros q. rewrite Hd, Hd1, <- orb_assoc. f_equal. destruct (decide (q = p)) as [->|Hne].
  - rewrite (bool_decide_true (p = p)), (bool_decide_true (p ∈ p :: ps)) by (done || by left).
    destruct (have p), (bool_decide (p ∈ ps)); done.
  - rewrite (bool_decide_false (q = p)) by done. cbn [andb orb]. f_equal. apply bool_decide_ext. rewrite elem_of_cons. tauto.
Qed.

(** One FEC packet. *)
Lemma add_fec_spec base fp acc c :
  Rs.fec_header_size fp = 18%nat -> bytes (Rs.pkt fp) -> (18 <= length (Rs.pkt fp))%nat -> is_byte c -> acc_ok base acc ->
  exists d1 d2, Rs.GFMulFECHeaders (Rs.pkt fp) acc.1 c = Ok d1 /\
    Rs.GFMulFECPayloads (Rs.pkt fp) (length (Rs.pkt fp) - 18) 18 d1 c = Ok d2 /\
    acc_ok (fun i => Z.lxor (base i) (mul (fec_byte 18 (Rs.pkt fp) i) c)) (d2, acc.2).
Proof.
  intros Hh Hbp Hlp Hc [Hb Hl Hat].
  destruct (GFMulFECHeaders_spec (Rs.pkt fp) acc.1 c) as (d1 & E1 & Hl1 & Hb1 & Hat1); [lia|lia|done..|].
  destruct (GFMulFECPayloads_spec (Rs.pkt fp) 18 d1 c) as (d2 & E2 & Hl2 & Hb2 & Hlo & Hhi); [done..|].
  exists d1, d2. split_and!; [done|done|]. split; cbn [fst snd]; [done|lia|]. intros i Hi. rewrite <- Z.lxor_assoc, <- Hat by done.
  unfold fec_byte. destruct Hi as [Hi|Hi].
  - rewrite Hlo, Hat1, !decide_True by lia. done.
  - replace i with (12 + (i - 12))%nat at 1 by lia. rewrite Hhi, Hat1, !decide_False by lia.
    by replace (12 + (i - 12))%nat with i by lia.
Qed.

Variable losses : list Rs.LossPacket.
Variable at_loss : nat -> nat.

Lemma add_fec_ok l : forall fps i0 base acc,
  Forall2 genuine l fps -> acc_ok base acc ->
  (forall p, union Rs.mask l p = true -> cons p = true) ->
  (forall u, (u < length fps)%nat -> cons (at_loss (i0 + u)) = true /\
     exists q, losses !! (i0 + u)%nat = Some q /\ Rs.loss_seq_num q = number B (at_loss (i0 + u))) ->
  exists dst dn, Rs.add_fec_packets w coef losses fps i0 acc = Ok dst /\
    (forall q, bit_of dn q = bit_of acc.2 q || union Rs.mask l q && have q) /\
    acc_ok (fun i => Z.lxor (base i)
      (gf_sum (fun u => mul (fec_byte 18 (map Rs.pkt fps !!! u) i) (v (at_loss (i0 + u)))) (length fps))) (dst, dn).
Proof.
  induction l as [|ds l IH]; intros fps i0 base acc HF Hacc Hcons Hloss.
  { apply Forall2_nil_inv_l in HF as ->. exists acc.1, acc.2. split; [done|]. split; [intros; by rewrite orb_false_r|].
    destruct Hacc as [Hb Hl Hat]. split; cbn [fst snd length]; [done..|]. intros i Hi. change (gf_sum _ 0) with 0.
    rewrite Z.lxor_0_r. by apply Hat. }
  apply Forall2_cons_inv_l in HF as (fp & fps' & Hg & HF & ->). cbn [Rs.add_fec_packets].
  rewrite (genuine_protected _ _ Hg), <- (map_map (fun o => (ds.1 + o)%nat) protected_at).
  assert (Hhere : forall q, bool_decide (q ∈ map (fun o => (ds.1 + o)%nat) (positions_of 32 (Rs.mask ds.2))) = covers ds.1 (Rs.mask ds.2) q).
  { intros q. apply eq_bool_prop_intro. rewrite bool_decide_spec, !Is_true_true. rewrite list_elem_of_fmap. split.
    - intros (o & -> & Ho). apply arrived_elem in Ho as [_ Ho]. unfold covers. rewrite (proj2 (Nat.leb_le _ _)) by lia.
      by replace (ds.1 + o - ds.1)%nat with o by lia.
    - intros Hc. pose proof (covers_bound _ _ _ (placed_mask _ _ _ (genuine_placed _ _ Hg)) Hc) as Hq.
      exists (q - ds.1)%nat. split; [lia|]. apply arrived_elem. split; [lia|]. unfold covers in Hc.
      by apply andb_true_iff in Hc as [_ ?]. }
  destruct (known_loop base (map (fun o => (ds.1 + o)%nat) (positions_of 32 (Rs.mask ds.2))) acc) as (acc1 & -> & Hacc1 & Hd1).
  { apply Forall_forall. intros q Hq. apply Hcons. unfold union. cbn [existsb].
    rewrite <- Hhere, bool_decide_true by done. done. }
  { done. }
  rewrite bind_ok. destruct acc1 as [dst1 done1]. cbn beta iota.
  destruct (Hloss 0%nat) as (Hc0 & q0 & Hq0 & Hn0); [cbn; lia|]. rewrite Nat.add_0_r in *.
  unfold Rs.loss_get. rewrite Hq0, bind_ok, Hn0, number_offset by done. destruct (coef_ok _ Hc0) as [-> Hv]. rewrite bind_ok.
  pose proof (genuine_length _ _ Hg) as Hlen.
  destruct (add_fec_spec base fp (dst1, done1) (v (at_loss i0))) as (d1 & d2 & E1 & E2 & Hacc2);
    [apply Hg|apply Hg|lia|done|done|]. cbn [fst snd] in E1, E2, Hacc2.
  rewrite E1, bind_ok. rewrite (genuine_header _ _ Hg), size_sub_ok, bind_ok, E2, bind_ok by lia.
  destruct (IH fps' (i0 + 1)%nat _ _ HF Hacc2) as (dst & dn & E & Hd & Hacc').
  { intros p Hp. apply Hcons. unfold union in *. cbn [existsb]. by rewrite Hp, orb_true_r. }
  { intros u Hu. rewrite <- Nat.add_assoc. apply Hloss. cbn. lia. }
  exists dst, dn. split; [exact E|]. split.
  - intros q. rewrite Hd, Hd1, Hhere. unfold union at 2. cbn [existsb fst snd] in *. rewrite <- orb_assoc. f_equal.
    fold (union Rs.mask l q). by rewrite andb_orb_distrib_l.
  - destruct Hacc' as [Hb Hl Hat]. split; [done..|]. intros i Hi. rewrite Hat by done. f_equal.
    rewrite Z.lxor_assoc. f_equal. cbn [length map].
    change (S (length fps')) with (1 + length fps')%nat. rewrite (gf_sum_add _ 1). f_equal.
    + unfold gf_sum. cbn. by rewrite Z.lxor_0_r, Nat.add_0_r.
    + apply gf_sum_ext. intros u Hu. by rewrite <- Nat.add_assoc.
Qed.

End Loop.

(** ** One call *)

Section Call.
Variables (l : list (nat * Rs.ProtectedStream)) (fps : list Rs.ReceivedFecPacket) (w : Rs.Window).
Hypothesis fecs : Forall2 genuine l fps.
Hypothesis window : window_of B l 0 w.
Hypothesis media : forall p, union Rs.mask l p = true -> media_at p.

Lemma consider_bits p : bit_of (Rs.consider w) p = union Rs.mask l p.
Proof. apply (window_consider _ _ _ _ window). Qed.

Lemma genuine_lookup t ds : l !! t = Some ds -> exists fp, fps !! t = Some fp /\ genuine ds fp.
Proof. intros Ht. by apply (Forall2_lookup_l _ _ _ _ _ fecs). Qed.

Lemma arrive_union p : union Rs.arrive l p = union Rs.mask l p && have p.
Proof.
  apply eq_bool_prop_intro. rewrite !Is_true_true, andb_true_iff, !union_true.
  assert (Hcov : forall d s, (d, s) ∈ l -> covers d (Rs.arrive s) p = covers d (Rs.mask s) p && have p).
  { intros d s Hin. apply list_elem_of_lookup in Hin as [t Ht]. destruct (genuine_lookup _ _ Ht) as (fp & _ & Hg).
    unfold covers. pose proof (genuine_arrive _ _ Hg (p - d)) as Ha. cbn [fst snd] in Ha. rewrite Ha.
    destruct (Nat.leb_spec d p); [|done]. cbn [andb]. by replace (d + (p - d))%nat with p by lia. }
  split.
  - intros (d & s & Hin & Hc). rewrite Hcov in Hc by done. apply andb_true_iff in Hc as [? ?]. eauto.
  - intros [(d & s & Hin & Hc) Hh]. exists d, s. rewrite Hcov, Hc by done. auto.
Qed.

Lemma arrive_bits_ok p : bit_of (Rs.arrive_bits w) p = union Rs.mask l p && have p.
Proof. rewrite (window_arrive _ _ _ _ window). apply arrive_union. Qed.

Lemma considered_small p : union Rs.mask l p = true -> (p < 128)%nat.
Proof. intros Hp. apply (union_bound _ _ _ _ window Rs.mask) in Hp; [lia|by left]. Qed.

Definition k_masks : list Z := map (fun ds => Rs.shift128 (Rs.mask ds.2) (Z.of_nat ds.1)) l.
Definition base_nums : list Z := map (fun ds => Rs.cur_base_num ds.2) l.

Lemma k_masks_lookup t d s : l !! t = Some (d, s) -> forall p, bit_of (k_masks !!! t) p = covers d (Rs.mask s) p.
Proof.
  intros Ht p. destruct (genuine_lookup _ _ Ht) as (fp & _ & Hg). pose proof (genuine_placed _ _ Hg) as P.
  rewrite (list_lookup_total_correct k_masks t (Rs.shift128 (Rs.mask s) (Z.of_nat d)))
    by (unfold k_masks; by rewrite list_lookup_fmap, Ht).
  apply shift128_covers; [apply P|apply (placed_near _ _ _ P)].
Qed.

Lemma base_nums_bytes : bytes base_nums.
Proof.
  apply Forall_fmap, Forall_forall. intros ds Hin. apply list_elem_of_lookup in Hin as [t Ht].
  destruct (genuine_lookup _ _ Ht) as (fp & _ & Hg). apply Hg.
Qed.

(** The powers of a FEC packet count from its base. *)
Lemma first_of_base t d s : l !! t = Some (d, s) -> first_of 128 (Rs.consider w) (k_masks !!! t) = d.
Proof.
  intros Ht. destruct (genuine_lookup _ _ Ht) as (fp & _ & Hg). pose proof (placed_near _ _ _ (genuine_placed _ _ Hg)) as Hd.
  pose proof (first_of_ok 128 (Rs.consider w) (k_masks !!! t)) as [Hle Hset]. cbn [fst snd] in Hd.
  assert (Hc : covers d (Rs.mask s) d = true).
  { unfold covers. rewrite Nat.leb_refl, Nat.sub_diag. apply Hg. }
  assert (Hu : bit_of (Rs.consider w) d = true).
  { rewrite consider_bits. apply union_true. exists d, s. split; [by eapply list_elem_of_lookup_2|done]. }
  specialize (Hle d ltac:(lia) Hu). rewrite (k_masks_lookup _ _ _ Ht) in Hle. specialize (Hle Hc).
  destruct Hset as [_ Hset]; [lia|]. rewrite (k_masks_lookup _ _ _ Ht) in Hset. unfold covers in Hset.
  apply andb_true_iff in Hset as [Hf%Nat.leb_le _]. lia.
Qed.

(** What the decoder expects of FEC packet [t] is what it carries. *)
Lemma fec_value_code t i :
  (t < length fps)%nat -> coded i ->
  fec_value 128 (Rs.consider w) base_nums k_masks (fun p => contribution (orig p) i) t = fec_byte 18 (map Rs.pkt fps !!! t) i.
Proof.
  intros Ht Hi. destruct (lookup_lt_is_Some_2 l t) as [[d s] Hds]; [by rewrite (Forall2_length _ _ _ fecs)|].
  destruct (genuine_lookup _ _ Hds) as (fp & Hfp & Hg). pose proof (placed_near _ _ _ (genuine_placed _ _ Hg)) as Hd.
  rewrite (list_lookup_total_correct _ t (Rs.pkt fp)) by (by rewrite list_lookup_fmap, Hfp).
  rewrite (genuine_code _ _ Hg i Hi). cbn [fst snd] in *. unfold fec_value, code_byte.
  rewrite (gf_sum_shift _ d 32 128) by lia. apply gf_sum_ext. intros p Hp.
  rewrite (first_of_base _ _ _ Hds), (k_masks_lookup _ _ _ Hds), consider_bits.
  rewrite (list_lookup_total_correct base_nums t (Rs.cur_base_num s)) by (unfold base_nums; by rewrite list_lookup_fmap, Hds).
  destruct (covers d (Rs.mask s) p) eqn:Hc.
  - pose proof (covers_bound _ _ _ (placed_mask _ _ _ (genuine_placed _ _ Hg)) Hc).
    assert (Hu : union Rs.mask l p = true) by (apply union_true; exists d, s; split; [by eapply list_elem_of_lookup_2|done]).
    rewrite Hu, decide_True by lia. cbn [andb]. unfold covers in Hc. apply andb_true_iff in Hc as [_ ->].
    replace (d + (p - d))%nat with p by lia. apply gf_comm; [apply gf_pow_byte, Hg|apply contribution_range, media, Hu].
  - rewrite andb_false_r. case_decide as Hin; [|done]. unfold covers in Hc. rewrite (proj2 (Nat.leb_le _ _)) in Hc by lia.
    cbn [andb] in Hc. by rewrite Hc.
Qed.

(** The positions of the packets that are missing. *)
Definition missing_at : list nat := arrived (fun p => union Rs.mask l p && negb (have p)) 128.

Lemma missing_lost : missing_at = lost_at 128 (Rs.consider w) have.
Proof.
  unfold missing_at, lost_at. apply arrived_agree; [done| |intros; lia]. intros p _. by rewrite consider_bits.
Qed.

Lemma missing_elem r : r ∈ missing_at -> union Rs.mask l r = true.
Proof. intros [_ [? _]%andb_true_iff]%arrived_elem. done. Qed.

Definition recovered_of (r : nat) : RecoveredPacket := mkRecoveredPacket ssrc (number B r) true false (orig r).

Section Table.
Variables (losses : list Rs.LossPacket) (dist ids : list Z).
Hypothesis loss_records : Forall2 (fun r q => Rs.loss_seq_num q = number B r /\ Rs.loss_ssrc q = ssrc) missing_at losses.
Hypothesis enough : length missing_at = length fps.

Abbreviation n := (length (positions_of 128 (Rs.consider w))).
Abbreviation known := (skipped_known 128 (Rs.consider w) (Rs.arrive_bits w)).

Hypothesis ids_ok : forall p, (p < 128)%nat ->
  ids !! p = Some (if bit_of (Rs.consider w) p then Z.of_nat (length (arrived (bit_of (Rs.consider w)) p)) else -1).
Hypothesis dist_bytes : bytes dist.
Hypothesis dist_length : length dist = (length fps * n)%nat.
Hypothesis dist_solves :
  gives_back n known (skipped_coef 128 base_nums (Rs.consider w) k_masks) dist (lost known n).

Lemma table_at_ok t p :
  (t < length missing_at)%nat -> union Rs.mask l p = true ->
  Rs.table_at dist n ids t (Z.of_nat p) = Ok (entry 128 (Rs.consider w) dist t p) /\
  is_byte (entry 128 (Rs.consider w) dist t p).
Proof.
  intros Ht Hp. pose proof (considered_small p Hp) as Hp128. rewrite <- consider_bits in Hp.
  pose proof (rank_mono (bit_of (Rs.consider w)) (S p) 128 ltac:(lia)) as Hr. rewrite rank_S, Hp in Hr.
  split.
  - unfold Rs.table_at. rewrite Nat2Z.id, ids_ok, Hp by done. rewrite (proj2 (Z.ltb_ge _ _)) by lia.
    rewrite <- Nat2Z.inj_add, Nat2Z.id. unfold entry.
    destruct (lookup_lt_is_Some_2 dist (t * n + length (arrived (bit_of (Rs.consider w)) p))) as [b Hb].
    { rewrite dist_length, <- enough. unfold positions_of in *. nia. }
    by rewrite (buf_get_ok _ _ _ Hb), (list_lookup_total_correct _ _ _ Hb).
  - apply (entry_byte 128 (Rs.consider w) dist have); try done; rewrite <- ?missing_lost; [|done].
    rewrite dist_length, enough. done.
Qed.

(** One recovered packet. *)
Lemma recover_one t r size :
  missing_at !! t = Some r ->
  exists dst, Rs.add_fec_packets w (Rs.table_at dist n ids t) losses fps 0 (replicate (size + 12) 0, 0) = Ok dst /\
    Rs.finish_packet (mkRecoveredPacket ssrc (number B r) true false dst) = Ok (Some (recovered_of r)).
Proof.
  intros Hr. pose proof (lookup_lt_Some _ _ _ Hr) as Ht.
  assert (Hloss : forall u, (u < length fps)%nat -> union Rs.mask l (missing_at !!! u) = true /\
     exists q, losses !! u = Some q /\ Rs.loss_seq_num q = number B (missing_at !!! u)).
  { intros u Hu. destruct (lookup_lt_is_Some_2 missing_at u) as [r' Hr']; [lia|].
    rewrite (list_lookup_total_correct _ _ _ Hr'). split; [by eapply missing_elem, list_elem_of_lookup_2|].
    destruct (Forall2_lookup_l _ _ _ _ _ loss_records Hr') as (q & Hq & Hn & _). eauto. }
  assert (Hzero : forall i, byte_at (replicate (size + 12) 0) i = 0).
  { intros i. unfold byte_at. destruct (replicate _ _ !! i) eqn:E; [|done]. by apply lookup_replicate in E as [-> _]. }
  destruct (add_fec_ok w (union Rs.mask l) (Rs.table_at dist n ids t) (entry 128 (Rs.consider w) dist t)
    (window_min _ _ _ _ window) consider_bits arrive_bits_ok considered_small
    (fun p Hp => table_at_ok t p Ht Hp) media losses (fun u => missing_at !!! u) l fps 0 (fun _ => 0)
    (replicate (size + 12) 0, 0) fecs) as (dst & dn & E & Hd & [Hb Hlen Hat]); [|done|done|].
  { split; cbn [fst snd]; [apply Forall_replicate; apply byte_zero|rewrite length_replicate; lia|].
    intros i _. rewrite Hzero, Z.lxor_0_r. symmetry. rewrite (gf_sum_ext _ (fun _ => 0)); [apply gf_sum_zero|].
    intros p _. unfold bit_of. by rewrite Z.testbit_0_l. }
  exists dst. split; [exact E|]. cbn [fst snd] in *.
  pose proof (missing_elem r ltac:(by eapply list_elem_of_lookup_2)) as Hrc. destruct (media r Hrc) as [Hbo Hlo Hso Hsso].
  apply finish_packet_ok; try done. intros i Hi. rewrite Hat by done. rewrite Z.lxor_0_l.
  rewrite missing_lost in Hr.
  rewrite <- (decoded_sum 128 (Rs.consider w) (Rs.arrive_bits w) base_nums k_masks dist have (fun p => contribution (orig p) i))
    with (t := t); [| | |done|done| | |done].
  - rewrite <- missing_lost, enough. f_equal; apply gf_sum_ext.
    + intros p _. rewrite Hd, consider_bits. unfold bit_of at 1. by rewrite Z.testbit_0_l.
    + intros u Hu. by rewrite fec_value_code.
  - intros p _ Hp. rewrite consider_bits in Hp. by rewrite arrive_bits_ok, Hp.
  - intros p Hp. rewrite consider_bits in Hp. apply contribution_range, media, Hp.
  - rewrite <- missing_lost, dist_length, enough. done.
  - intros u Hu. rewrite <- missing_lost, enough in Hu. rewrite fec_value_code by done.
    unfold fec_byte. destruct (lookup_lt_is_Some_2 fps u Hu) as [fp Hfp].
    rewrite (list_lookup_total_correct _ u (Rs.pkt fp)) by (by rewrite list_lookup_fmap, Hfp).
    destruct (Forall2_lookup_r _ _ _ _ _ fecs Hfp) as (ds & _ & Hg). case_decide; apply byte_at_range, Hg.
Qed.

(** All of them. *)
Lemma decode_rows_ok size m : forall t,
  (t + m = length missing_at)%nat ->
  exists recs, Rs.decode_rows w dist n ids losses fps t (replicate m (replicate (size + 12) 0)) = Ok recs /\
    Rs.FinishPacketRecovery recs = Ok (Some (map recovered_of (drop t missing_at))).
Proof.
  induction m as [|m IH]; intros t Htm; cbn [replicate Rs.decode_rows].
  { exists []. split; [done|]. by rewrite drop_ge by lia. }
  destruct (lookup_lt_is_Some_2 missing_at t) as [r Hr]; [lia|].
  destruct (Forall2_lookup_l _ _ _ _ _ loss_records Hr) as (q & Hq & Hn & Hs).
  unfold Rs.loss_get at 1. rewrite Hq, bind_ok.
  destruct (recover_one t r size Hr) as (dst & -> & Efin). rewrite bind_ok.
  destruct (IH (t + 1)%nat ltac:(lia)) as (recs & -> & Erest). rewrite bind_ok, Hn, Hs.
  eexists. split; [done|]. cbn [Rs.FinishPacketRecovery]. rewrite Efin, bind_ok, Erest, bind_ok.
  rewrite (drop_S missing_at r t Hr), Nat.add_1_r. done.
Qed.

End Table.
End Call.

(** [StartPacketRecovery] accepts genuine packets. *)
Lemma StartPacketRecovery_ok l fps :
  Forall2 genuine l fps ->
  exists size, Rs.StartPacketRecovery fps = Some (replicate (length fps) (replicate (size + 12) 0)).
Proof.
  intros HF. unfold Rs.StartPacketRecovery, IP_PACKET_SIZE, kRtpHeaderSize.
  assert (Hall : forall fp, In fp fps -> exists ds, genuine ds fp).
  { intros fp [t Ht]%list_elem_of_In%list_elem_of_lookup. destruct (Forall2_lookup_r _ _ _ _ _ HF Ht) as (ds & _ & Hg). eauto. }
  assert (Hno : forall f : Rs.ReceivedFecPacket -> bool, (forall fp ds, genuine ds fp -> f fp = false) -> existsb f fps = false).
  { intros f Hf. apply not_true_iff_false. rewrite existsb_exists. intros (fp & (ds & Hg)%Hall & Ht).
    by rewrite (Hf fp ds Hg) in Ht. }
  rewrite !Hno; [by eexists|..]; intros fp ds Hg; apply Nat.ltb_ge; pose proof (genuine_length _ _ Hg);
    pose proof (genuine_small _ _ Hg); rewrite (genuine_header _ _ Hg); lia.
Qed.

Lemma genuine_streams l fps : Forall2 genuine l fps -> streams_of B l fps.
Proof. intros HF. eapply Forall2_impl; [exact HF|]. intros ds fp Hg. split; apply Hg. Qed.

(** [RecoverPacket] asks for the decoding matrix of the window; with it, it
    returns the missing packets. *)
Lemma RecoverPacket_ok l fps losses :
  Forall2 genuine l fps -> (exists s, (0%nat, s) ∈ l) -> (forall p, union Rs.mask l p = true -> media_at p) ->
  exists w r, window_of B l 0 w /\
    let n := length (positions_of 128 (Rs.consider w)) in
    GenerateDecodingMatrix n (length fps) (base_nums l) (Rs.consider w) (Rs.arrive_bits w) (k_masks l) = Ok r /\
    length (lost (skipped_known 128 (Rs.consider w) (Rs.arrive_bits w)) n) = length (missing_at l) /\
    (r = None -> Rs.RecoverPacket fps losses = Ok None) /\
    (is_Some r -> length (missing_at l) = length fps ->
     Forall2 (fun r q => Rs.loss_seq_num q = number B r /\ Rs.loss_ssrc q = ssrc) (missing_at l) losses ->
     Rs.RecoverPacket fps losses = Ok (Some (map recovered_of (missing_at l)))).
Proof.
  intros HF Hz Hmedia. pose proof (genuine_streams _ _ HF) as Hs. pose proof (Forall2_length _ _ _ HF) as Hlen.
  destruct l as [|[d s] l']; [destruct Hz as [? H]; by apply elem_of_nil in H|].
  destruct fps as [|fp fps']; [done|].
  destruct (recover_window B d s l' fp fps' Hs Hz) as (w & Ew & W). set (l := (d, s) :: l') in *. set (fps := fp :: fps') in *.
  destruct (skipped_decoder_exact 128 (length (positions_of 128 (Rs.consider w))) (base_nums l) (Rs.consider w)
    (Rs.arrive_bits w) (k_masks l)) as (r & Er & Hfew & Hsome);
    [by eapply base_nums_bytes|unfold k_masks, base_nums; by rewrite !length_map|done|].
  set (n := length (positions_of 128 (Rs.consider w))) in *.
  assert (Hbl : length (base_nums l) = length fps) by (unfold base_nums; by rewrite length_map).
  assert (Hlost : length (lost (skipped_known 128 (Rs.consider w) (Rs.arrive_bits w)) n) = length (missing_at l)).
  { rewrite (missing_lost l w W), (lost_at_known 128 (Rs.consider w) (Rs.arrive_bits w) have), length_map; [done|].
    intros p _ Hp. rewrite (consider_bits l w W) in Hp. by rewrite (arrive_bits_ok l fps w HF W), Hp. }
  rewrite Hbl in *. exists w, r. split; [done|]. cbv zeta. fold n. split; [exact Er|]. split; [exact Hlost|].
  pose proof (number_positions_ok (Rs.consider w)) as Hids. fold n in Hids.
  destruct (Rs.number_positions (Rs.consider w)) as [ids curN] eqn:Epos. destruct Hids as [-> Hids].
  assert (Erec : Rs.RecoverPacket fps losses = match r with None => Ok None | Some dist =>
      match Rs.StartPacketRecovery fps with None => Ok None | Some packets =>
        let! recovered := Rs.decode_rows w dist n ids losses fps 0 packets in Rs.FinishPacketRecovery recovered end end).
  { unfold Rs.RecoverPacket. change fps with (fp :: fps') at 1. cbn iota.
    apply Forall2_cons in Hs as [[Es _] _]. cbn [snd] in Es. rewrite Es, bind_ok, Ew, bind_ok.
    rewrite (window_min _ _ _ _ W), (code_rows_ok B l fps (genuine_streams _ _ HF)), bind_ok.
    fold (k_masks l) (base_nums l). rewrite Epos. unfold GenerateDecodingMatrix. cbn beta iota. by rewrite Er, bind_ok. }
  rewrite Erec. split; [intros ->; done|].
  intros [dist ->] Henough Hloss. destruct (Hsome dist eq_refl) as [Hdl Hdist].
  destruct (StartPacketRecovery_ok l fps HF) as (size & ->).
  destruct (decode_rows_ok l fps w HF W Hmedia losses dist ids Hloss Henough Hids (decoding_bytes _ _ _ _ _ _ _ _ Er) Hdl Hdist
    size (length fps) 0 ltac:(lia)) as (recs & Erows & Efin).
  fold n in Erows. rewrite Erows, bind_ok. exact Efin.
Qed.

End Recover.
