(* ===== verification/RsDecoder.v ===== *)
(** * RsDecoder: the decoder half of [RSForwardErrorCorrection]

    [examples/customizationFEC/RS_FEC/RS_forward_error_correction.cc]:
    [DecodeRSFec] and the member functions it calls.  The FEC packets and the
    packets considered lost point at each other with [std::weak_ptr]; every
    such object has a number, a weak pointer is the number, and [lock] looks
    it up among the objects that are still owned.  [fec_receive_time_] is kept
    as the set of sequence numbers with a time; the times, and the rows written
    to [forward_error_correction.csv], are not modelled. *)

From stdpp Require Import sorting gmap.
From S2P Require Import Prelude.
From S2P Require Import SeqNum.
From S2P Require Import FecTypes.
From S2P Require Import FecDecoder.
From S2P Require Import CowBuffer.
From S2P Require Import Galois.
From S2P Require Import RsCodec.

Module RsDec.

Definition kOldSequenceThreshold : Z := 128.
Definition kConsiderLossSeqThreadshold : Z := 128.

(** [ConsiderLossPacket] with its number. *)
Record ConsiderLossPacket : Type := mkConsiderLossPacket {
  loss_id : nat;
  loss : Rs.LossPacket;
  reference_fec_packets : list nat
}.

Definition loss_seq (q : ConsiderLossPacket) : Z := Rs.loss_seq_num (loss q).

(** [ReceivedFecPacket] with its number. *)
Record StoredFec : Type := mkStoredFec {
  fec_id : nat;
  fec : Rs.ReceivedFecPacket
}.

Definition fec_seq (f : StoredFec) : Z := Rs.fec_seq_num (fec f).

(** The members; [next_id] numbers new objects. *)
Record Decoder : Type := mkDecoder {
  ssrc_ : Z;
  protected_media_ssrc_ : Z;
  received_fec_packets_ : list StoredFec;
  consider_loss_packets_ : list ConsiderLossPacket;
  fec_receive_time_ : gset Z;
  next_id : nat
}.

Definition with_fecs (st : Decoder) (fecs : list StoredFec) : Decoder :=
  mkDecoder (ssrc_ st) (protected_media_ssrc_ st) fecs (consider_loss_packets_ st) (fec_receive_time_ st) (next_id st).
Definition with_losses (st : Decoder) (losses : list ConsiderLossPacket) : Decoder :=
  mkDecoder (ssrc_ st) (protected_media_ssrc_ st) (received_fec_packets_ st) losses (fec_receive_time_ st) (next_id st).
Definition with_times (st : Decoder) (times : gset Z) : Decoder :=
  mkDecoder (ssrc_ st) (protected_media_ssrc_ st) (received_fec_packets_ st) (consider_loss_packets_ st) times (next_id st).
Definition with_next (st : Decoder) (id : nat) : Decoder :=
  mkDecoder (ssrc_ st) (protected_media_ssrc_ st) (received_fec_packets_ st) (consider_loss_packets_ st) (fec_receive_time_ st) id.

(** [CreateRSFec]. *)
Definition CreateRSFec (ssrc : Z) : Decoder := mkDecoder ssrc ssrc [] [] ∅ 0.

(** Changes of a FEC packet. *)
Definition set_protected (fp : Rs.ReceivedFecPacket) (pps : list ProtectedPacket) : Rs.ReceivedFecPacket :=
  Rs.mkReceivedFecPacket (Rs.fec_ssrc fp) (Rs.fec_seq_num fp) pps (Rs.maybe_loss_packets fp) (Rs.fec_header_size fp)
    (Rs.protected_streams fp) (Rs.protection_length fp) (Rs.pkt fp) (Rs.if_used fp).
Definition set_maybe_loss (fp : Rs.ReceivedFecPacket) (ids : list nat) : Rs.ReceivedFecPacket :=
  Rs.mkReceivedFecPacket (Rs.fec_ssrc fp) (Rs.fec_seq_num fp) (Rs.protected_packets fp) ids (Rs.fec_header_size fp)
    (Rs.protected_streams fp) (Rs.protection_length fp) (Rs.pkt fp) (Rs.if_used fp).
Definition set_streams (fp : Rs.ReceivedFecPacket) (streams : list Rs.ProtectedStream) : Rs.ReceivedFecPacket :=
  Rs.mkReceivedFecPacket (Rs.fec_ssrc fp) (Rs.fec_seq_num fp) (Rs.protected_packets fp) (Rs.maybe_loss_packets fp)
    (Rs.fec_header_size fp) streams (Rs.protection_length fp) (Rs.pkt fp) (Rs.if_used fp).
Definition set_arrive (s : Rs.ProtectedStream) (bits : Z) : Rs.ProtectedStream :=
  Rs.mkProtectedStream (Rs.ssrc s) (Rs.seq_num_base s) (Rs.cur_base_num s) (Rs.packet_mask_offset s)
    (Rs.mask s) bits (Rs.packet_mask_size s).
Definition set_references (q : ConsiderLossPacket) (ids : list nat) : ConsiderLossPacket :=
  mkConsiderLossPacket (loss_id q) (loss q) ids.

(** [arrive[i] = 1] on a [std::bitset<32>]. *)
Definition bitset32_set (bits i : Z) : res Z :=
  if i <? 32 then Ok (Z.lor bits (Z.shiftl 1 i)) else Fault OutOfBounds.

(** ** Weak pointers *)

(** [lock()] on a packet considered lost: [None] when it has expired. *)
Definition lock_loss (owned : list ConsiderLossPacket) (id : nat) : option ConsiderLossPacket :=
  find (fun q => (loss_id q =? id)%nat) owned.

(** [lock()->...]. *)
Definition deref_loss (owned : list ConsiderLossPacket) (id : nat) : res ConsiderLossPacket :=
  match lock_loss owned id with Some q => Ok q | None => Fault UseAfterFree end.

Definition fec_alive (fecs : list StoredFec) (id : nat) : bool := existsb (fun f => (fec_id f =? id)%nat) fecs.

(** [DeleteUnavailableWeakPtr], for both kinds. *)
Definition DeleteUnavailableLoss (owned : list ConsiderLossPacket) (ids : list nat) : list nat :=
  filter (fun id => is_Some (lock_loss owned id)) ids.
Definition DeleteUnavailableFec (fecs : list StoredFec) (ids : list nat) : list nat :=
  filter (fun id => fec_alive fecs id = true) ids.

(** ** A media packet arrives *)

(** One FEC packet of [UpdateCoveringFecPackets]. *)
Definition update_covering (packet : RecoveredPacket) (f : StoredFec) : res StoredFec :=
  let pps := Rs.protected_packets (fec f) in
  let it := lower_bound (length pps) (map pp_seq_num pps) 0 (length pps) (rec_seq_num packet) in
  match pps !! it with
  | Some pp =>
      if pp_seq_num pp =? rec_seq_num packet then
        let pps := <[it := mkProtectedPacket (pp_ssrc pp) (pp_seq_num pp) (Some (rec_pkt packet))]> pps in
        let! s := Rs.stream0 (fec f) in
        let! bits := bitset32_set (Rs.arrive s) (MinDiff16 (pp_seq_num pp) (Rs.seq_num_base s)) in
        Ok (mkStoredFec (fec_id f) (set_streams (set_protected (fec f) pps)
              (set_arrive s bits :: tail (Rs.protected_streams (fec f)))))
      else Ok f
  | None => Ok f
  end.

Fixpoint mapM_res {A B} (g : A -> res B) (l : list A) : res (list B) :=
  match l with
  | [] => Ok []
  | x :: l => let! y := g x in let! l := mapM_res g l in Ok (y :: l)
  end.

Definition UpdateCoveringFecPackets (st : Decoder) (packet : RecoveredPacket) : res Decoder :=
  let! fecs := mapM_res (update_covering packet) (received_fec_packets_ st) in
  Ok (with_fecs st fecs).

(** The inner loop of [UpdateMaybeLossPackets]: the first entry with the
    sequence number is erased. *)
Fixpoint erase_loss (owned : list ConsiderLossPacket) (ids : list nat) (seq_num : Z) : res (list nat) :=
  match ids with
  | [] => Ok []
  | id :: ids =>
      let! q := deref_loss owned id in
      if loss_seq q =? seq_num then Ok ids
      else let! ids := erase_loss owned ids seq_num in Ok (id :: ids)
  end.

(** The FEC packet [id] forgets the packet that arrived. *)
Definition forget_loss (owned : list ConsiderLossPacket) (seq_num : Z) (fecs : list StoredFec) (id : nat)
    : res (list StoredFec) :=
  mapM_res (fun f =>
    if (fec_id f =? id)%nat then
      let ids := DeleteUnavailableLoss owned (Rs.maybe_loss_packets (fec f)) in
      let! ids := erase_loss owned ids seq_num in
      Ok (mkStoredFec id (set_maybe_loss (fec f) ids))
    else Ok f) fecs.

(** [UpdateMaybeLossPackets]; [held] are the packets a caller still owns. *)
Definition UpdateMaybeLossPackets (st : Decoder) (held : list ConsiderLossPacket) (packet : RecoveredPacket)
    : res Decoder :=
  let losses := consider_loss_packets_ st in
  let it := lower_bound (length losses) (map loss_seq losses) 0 (length losses) (rec_seq_num packet) in
  match losses !! it with
  | Some q =>
      if loss_seq q =? rec_seq_num packet then
        let references := DeleteUnavailableFec (received_fec_packets_ st) (reference_fec_packets q) in
        let! fecs := foldM (forget_loss (losses ++ held) (rec_seq_num packet)) references (received_fec_packets_ st) in
        Ok (with_losses (with_fecs st fecs) (delete it losses))
      else Ok st
  | None => Ok st
  end.

Definition ResetState (st : Decoder) : Decoder * list RecoveredPacket :=
  (with_losses (with_fecs st []) [], []).

Definition InsertMediaPacket (st : Decoder) (recovered_packets : list RecoveredPacket)
    (received_packet : ReceivedPacket) : res (Decoder * list RecoveredPacket) :=
  if existsb (fun r => rec_seq_num r =? rp_seq_num received_packet) recovered_packets
  then Ok (st, recovered_packets)
  else
    let recovered_packet :=
      mkRecoveredPacket (rp_ssrc received_packet) (rp_seq_num received_packet) false true (rp_pkt received_packet) in
    let recovered_packets := list_sort rec_seq_num (recovered_packets ++ [recovered_packet]) in
    let! st := UpdateCoveringFecPackets st recovered_packet in
    let! st := UpdateMaybeLossPackets st [] recovered_packet in
    Ok (st, recovered_packets).

(** ** A FEC packet arrives *)

(** [AssignRecoveredPackets]: the merge of the two lists; [arrive] collects the
    packets found. *)
Fixpoint assign_recovered (baseSN : Z) (recovered_packets : list RecoveredPacket)
    : Z -> list ProtectedPacket -> list ProtectedPacket * Z :=
  fix assign (arrive : Z) (protected_packets : list ProtectedPacket) : list ProtectedPacket * Z :=
    match protected_packets, recovered_packets with
    | [], _ => ([], arrive)
    | pps, [] => (pps, arrive)
    | p :: pps, r :: recovered' =>
        if LessThan (pp_seq_num p) (rec_seq_num r) then
          let '(pps, arrive) := assign arrive pps in (p :: pps, arrive)
        else if LessThan (rec_seq_num r) (pp_seq_num p)
        then assign_recovered baseSN recovered' arrive (p :: pps)
        else
          let seq_num_diff := MinDiff16 baseSN (pp_seq_num p) in
          let arrive := if seq_num_diff <? 32 then Z.lor arrive (Z.shiftl 1 seq_num_diff) else arrive in
          let '(pps, arrive) := assign_recovered baseSN recovered' arrive pps in
          (mkProtectedPacket (pp_ssrc p) (pp_seq_num p) (Some (rec_pkt r)) :: pps, arrive)
    end.

Definition AssignRecoveredPackets (recovered_packets : list RecoveredPacket) (fp : Rs.ReceivedFecPacket)
    : res Rs.ReceivedFecPacket :=
  let! s := Rs.stream0 fp in
  let '(pps, bits) := assign_recovered (Rs.seq_num_base s) recovered_packets (Rs.arrive s) (Rs.protected_packets fp) in
  Ok (set_streams (set_protected fp pps) (set_arrive s bits :: tail (Rs.protected_streams fp))).

(** The local state of [AssignMaybeLossPackets]: the packets considered lost,
    [it_c] ([None] is [end()], which stays the end when packets are pushed), the
    entries of the FEC packet and the next number. *)
Record Assigning : Type := mkAssigning {
  as_losses : list ConsiderLossPacket;
  as_it : option nat;
  as_ids : list nat;
  as_next : nat
}.

(** The iterator at position [it]. *)
Definition iterator (losses : list ConsiderLossPacket) (it : nat) : option nat :=
  if (it <? length losses)%nat then Some it else None.

(** [while (it_c != end && less_than( *it_c, *it_p)) ++it_c] from position [it] on. *)
Fixpoint skip_losses (losses : list ConsiderLossPacket) (it : nat) (seq_num : Z) : option nat :=
  match losses with
  | [] => None
  | q :: losses => if LessThan (loss_seq q) seq_num then skip_losses losses (it + 1) seq_num else Some it
  end.

(** One protected packet. *)
Definition assign_loss (id : nat) (a : Assigning) (p : ProtectedPacket) : Assigning :=
  match pp_pkt p with
  | Some _ => a
  | None =>
      let it := match as_it a with
                | Some it => skip_losses (drop it (as_losses a)) it (pp_seq_num p)
                | None => None
                end in
      let fresh :=
        mkAssigning
          (as_losses a ++ [mkConsiderLossPacket (as_next a) (Rs.mkLossPacket (pp_ssrc p) (pp_seq_num p)) [id]])
          it (as_ids a ++ [as_next a]) (as_next a + 1) in
      match it with
      | None => fresh
      | Some i =>
          match as_losses a !! i with
          | Some q =>
              if loss_seq q =? pp_seq_num p then
                mkAssigning (<[i := set_references q (reference_fec_packets q ++ [id])]> (as_losses a))
                  it (as_ids a ++ [loss_id q]) (as_next a)
              else fresh
          | None => fresh
          end
      end
  end.

(** [AssignMaybeLossPackets] for the FEC packet with number [id]. *)
Definition AssignMaybeLossPackets (st : Decoder) (id : nat) (fp : Rs.ReceivedFecPacket)
    : Decoder * Rs.ReceivedFecPacket :=
  let a := foldl (assign_loss id) (mkAssigning (consider_loss_packets_ st) (iterator (consider_loss_packets_ st) 0)
               (Rs.maybe_loss_packets fp) (next_id st))
             (Rs.protected_packets fp) in
  let losses := list_sort loss_seq (as_losses a) in
  let losses := drop (length losses - Rs.kMaxConsiderLossPackets) losses in
  (with_next (with_losses st losses) (as_next a), set_maybe_loss fp (as_ids a)).

(** The mask loop of [InsertFecPacket]. *)
Definition mask_packets (ssrc : Z) (s : Rs.ProtectedStream) : list ProtectedPacket :=
  omap (fun idx =>
    if Z.testbit (Rs.mask s) (Z.of_nat idx)
    then Some (mkProtectedPacket ssrc (u16 (Rs.seq_num_base s + Z.of_nat idx)) None) else None)
    (seq 0 (Rs.packet_mask_size s * 8)).

(** Storing the new packet: [received_fec_packets_] is sorted, and the front
    dropped (with its time) when there are too many. *)
Definition store_fec (st : Decoder) (f : StoredFec) : Decoder :=
  let fecs := list_sort fec_seq (received_fec_packets_ st ++ [f]) in
  match fecs with
  | front :: rest =>
      if decide (Rs.kMaxFecPackets < length fecs)%nat
      then with_times (with_fecs st rest) (fec_receive_time_ st ∖ {[fec_seq front]})
      else with_fecs st fecs
  | [] => with_fecs st fecs
  end.

Definition InsertFecPacket (st : Decoder) (recovered_packets : list RecoveredPacket)
    (received_packet : ReceivedPacket) : res Decoder :=
  if existsb (fun f => fec_seq f =? rp_seq_num received_packet) (received_fec_packets_ st)
  then Ok st else
  let! ret := Rs.ReadFecHeader (Rs.mkReceivedFecPacket (rp_ssrc received_packet) (rp_seq_num received_packet) [] [] 0 [] 0
                                  (rp_pkt received_packet) false) in
  match ret with
  | None => Ok st
  | Some fec_packet =>
      let! _ := rtc_check (length (Rs.protected_streams fec_packet) =? 1)%nat in
      let! s := Rs.stream0 fec_packet in
      if negb (Rs.ssrc s =? protected_media_ssrc_ st) then Ok st else
      if decide (length (Rs.pkt fec_packet) < Rs.packet_mask_offset s + Rs.packet_mask_size s)%nat then Ok st else
      let! st :=
        match mask_packets (protected_media_ssrc_ st) s with
        | [] => Ok st
        | pps =>
            let! fec_packet := AssignRecoveredPackets recovered_packets (set_protected fec_packet pps) in
            let id := next_id st in
            let '(st, fec_packet) := AssignMaybeLossPackets (with_next st (id + 1)) id fec_packet in
            Ok (store_fec st (mkStoredFec id fec_packet))
        end in
      Ok (with_times st (fec_receive_time_ st ∪ {[rp_seq_num received_packet]}))
  end.

(** ** A packet arrives *)

(** The loops of [InsertPacket] that erase from the front. *)
Fixpoint discard_old {A} (key : A -> Z) (threshold seq_num : Z) (l : list A) : list A :=
  match l with
  | [] => []
  | x :: l' => if threshold <? MinDiff16 seq_num (key x) then discard_old key threshold seq_num l' else l
  end.

Definition DiscardOldRecoveredPackets (recovered_packets : list RecoveredPacket) : list RecoveredPacket :=
  drop (length recovered_packets - Rs.kMaxTrackedMediaPackets) recovered_packets.

Definition InsertPacket (st : Decoder) (received_packet : ReceivedPacket) (recovered_packets : list RecoveredPacket)
    : res (Decoder * list RecoveredPacket) :=
  let st :=
    match received_fec_packets_ st with
    | [] => st
    | front :: _ =>
        if rp_ssrc received_packet =? Rs.fec_ssrc (fec front)
        then with_fecs st (discard_old fec_seq kOldSequenceThreshold (rp_seq_num received_packet) (received_fec_packets_ st))
        else st
    end in
  let st :=
    match consider_loss_packets_ st with
    | [] => st
    | front :: _ =>
        if rp_ssrc received_packet =? Rs.loss_ssrc (loss front)
        then with_losses st
               (discard_old loss_seq kConsiderLossSeqThreadshold (rp_seq_num received_packet) (consider_loss_packets_ st))
        else st
    end in
  let! (st, recovered_packets) :=
    if rp_is_fec received_packet then
      let! st := InsertFecPacket st recovered_packets received_packet in
      Ok (st, recovered_packets)
    else InsertMediaPacket st recovered_packets received_packet in
  Ok (st, DiscardOldRecoveredPackets recovered_packets).

(** ** Decoding opportunities *)

Definition IsOldFecPacket (fp : Rs.ReceivedFecPacket) (recovered_packets : list RecoveredPacket) : res bool :=
  match last recovered_packets with
  | None => Ok false
  | Some back =>
      match last (Rs.protected_packets fp) with
      | None => Fault OutOfBounds
      | Some pp => Ok (kOldSequenceThreshold <? MinDiff16 (rec_seq_num back) (pp_seq_num pp))
      end
  end.

(** The first loop of [AttemptRecovery]: FEC packets that cannot be used are
    erased, the others sort the packets they miss. *)
Fixpoint ensure_valid (losses : list ConsiderLossPacket) (recovered_packets : list RecoveredPacket)
    (fecs : list StoredFec) (times : gset Z) : res (list StoredFec * gset Z) :=
  match fecs with
  | [] => Ok ([], times)
  | f :: fecs =>
      let fec_check_flag := forallb (fun id => bool_decide (is_Some (lock_loss losses id))) (Rs.maybe_loss_packets (fec f)) in
      let num_fec_pkt_loss := NumCoveredPacketsMissing (Rs.protected_packets (fec f)) in
      let! drop :=
        if negb fec_check_flag then Ok true else
        if (num_fec_pkt_loss =? 0)%nat then Ok true else IsOldFecPacket (fec f) recovered_packets in
      if (drop : bool) then ensure_valid losses recovered_packets fecs (times ∖ {[fec_seq f]})
      else
        let! missing := mapM_res (deref_loss losses) (Rs.maybe_loss_packets (fec f)) in
        let! (fecs, times) := ensure_valid losses recovered_packets fecs times in
        Ok (mkStoredFec (fec_id f) (set_maybe_loss (fec f) (map loss_id (list_sort loss_seq missing))) :: fecs, times)
  end.

(** The second loop: packets that no FEC packet misses any more are erased. *)
Definition erase_unreferenced (fecs : list StoredFec) (losses : list ConsiderLossPacket) : list ConsiderLossPacket :=
  filter (fun q => reference_fec_packets q <> [])
    (map (fun q => set_references q (DeleteUnavailableFec fecs (reference_fec_packets q))) losses).

(** The match of [maybe_loss_packets] with the packets selected so far: [None]
    is [return false]; otherwise what is left of each. *)
Fixpoint match_selected (missing selected : list ConsiderLossPacket)
    : option (list ConsiderLossPacket * list ConsiderLossPacket) :=
  match missing with
  | [] => Some ([], selected)
  | q :: missing' =>
      match selected with
      | [] => Some (missing, [])
      | _ =>
          (fix skip (selected : list ConsiderLossPacket) :=
             match selected with
             | [] => Some (missing, [])
             | s :: selected' =>
                 if LessThan (loss_seq s) (loss_seq q) then skip selected'
                 else if loss_seq s =? loss_seq q then match_selected missing' selected' else None
             end) selected
      end
  end.

(** [while (... && less_than( *cur_cons_pkt_it, *CMLP_it)) cur_cons_pkt_it++], and
    whether it stops at [*CMLP_it]. *)
Fixpoint meets (missing : list ConsiderLossPacket) (first : ConsiderLossPacket) : bool :=
  match missing with
  | [] => false
  | q :: missing =>
      if LessThan (loss_seq q) (loss_seq first) then meets missing first else loss_seq q =? loss_seq first
  end.

(** [SearchFECPacket] from the head of [fecs] on; [None] is [return false]. *)
Fixpoint SearchFECPacket (losses : list ConsiderLossPacket) (fecs : list StoredFec)
    (select_fec_packet : list StoredFec) (select_cons_loss_packet CMLP : list ConsiderLossPacket)
    : res (option (list StoredFec * list ConsiderLossPacket)) :=
  let finish select_fec_packet select_cons_loss_packet (CMLP : list ConsiderLossPacket) :=
    Ok (if (length CMLP =? 0)%nat && negb (length select_fec_packet =? 0)%nat &&
           (length select_fec_packet =? length select_cons_loss_packet)%nat
        then Some (select_fec_packet, select_cons_loss_packet) else None) in
  match fecs with
  | [] => finish select_fec_packet select_cons_loss_packet CMLP
  | f :: fecs =>
      let select_fec_packet := select_fec_packet ++ [f] in
      let! missing := mapM_res (deref_loss losses) (Rs.maybe_loss_packets (fec f)) in
      match match_selected missing select_cons_loss_packet with
      | None => Ok None
      | Some (_, _ :: _) => Ok None
      | Some (rest, []) =>
          let select_cons_loss_packet := select_cons_loss_packet ++ rest in
          match CMLP ++ rest with
          | [] => Fault OutOfBounds
          | first :: CMLP =>
              if meets missing first then
                match CMLP with
                | [] => finish select_fec_packet select_cons_loss_packet []
                | _ => SearchFECPacket losses fecs select_fec_packet select_cons_loss_packet CMLP
                end
              else Ok None
          end
      end
  end.

(** The loop of [AttemptRecovery] over the FEC packets, from the last one:
    [n] is one more than the position tried next. *)
Fixpoint search (losses : list ConsiderLossPacket) (fecs : list StoredFec) (n : nat)
    : res (option (list StoredFec * list ConsiderLossPacket)) :=
  match n with
  | O => Ok None
  | S i =>
      let! found := SearchFECPacket losses (drop i fecs) [] [] [] in
      match found with
      | Some found => Ok (Some found)
      | None => search losses fecs i
      end
  end.

Section Recovery.
Context {HP : Heap} {G : Galois}.

(** One recovered packet is published. *)
Definition publish (held : list ConsiderLossPacket) (acc : Decoder * list RecoveredPacket) (r : RecoveredPacket)
    : res (Decoder * list RecoveredPacket) :=
  let '(st, recovered_packets) := acc in
  let recovered_packets := list_sort rec_seq_num (recovered_packets ++ [r]) in
  let! st := UpdateCoveringFecPackets st r in
  let! st := UpdateMaybeLossPackets st held r in
  Ok (st, DiscardOldRecoveredPackets recovered_packets).

(** The times of the FEC packets used, [*fec_receive_time_[...]]. *)
Definition take_time (times : gset Z) (f : StoredFec) : res (gset Z) :=
  if decide (fec_seq f ∈ times) then Ok (times ∖ {[fec_seq f]}) else Fault OutOfBounds.

(** The last loop: both lists are sorted; FEC packets in both are erased. *)
Fixpoint erase_used (used : list StoredFec) : list StoredFec -> list StoredFec :=
  fix erase (fecs : list StoredFec) : list StoredFec :=
    match used, fecs with
    | [], _ => fecs
    | _, [] => []
    | u :: used', f :: fecs' =>
        if LessThan (fec_seq f) (fec_seq u) then f :: erase fecs'
        else if fec_seq u =? fec_seq f then erase_used used' fecs' else erase_used used' fecs
    end.

(** [AttemptRecovery].  When [RecoverPacket] fails, the loop that drops the FEC
    packets reads [( **fec_packet_it).seq_num], an iterator that has reached
    [received_fec_packets_.end()]. *)
Definition AttemptRecovery (st : Decoder) (recovered_packets : list RecoveredPacket)
    : res (Decoder * list RecoveredPacket * Z) :=
  let! (fecs, times) :=
    ensure_valid (consider_loss_packets_ st) recovered_packets (received_fec_packets_ st) (fec_receive_time_ st) in
  let st := with_times (with_fecs st fecs) times in
  let st := with_losses st (erase_unreferenced fecs (consider_loss_packets_ st)) in
  let! found := search (consider_loss_packets_ st) fecs (length fecs) in
  match found with
  | None => Ok (st, recovered_packets, 0)
  | Some (to_be_decoded, to_be_recover) =>
      let! temp := Rs.RecoverPacket (map fec to_be_decoded) (map loss to_be_recover) in
      match temp with
      | None =>
          match to_be_decoded, received_fec_packets_ st with
          | _ :: _, _ :: _ => Fault OutOfBounds
          | _, _ => Ok (st, recovered_packets, -1)
          end
      | Some temp =>
          let! (st, recovered_packets) := foldM (publish to_be_recover) temp (st, recovered_packets) in
          let! times := foldM take_time to_be_decoded (fec_receive_time_ st) in
          let st := with_times st times in
          let st := with_fecs st (erase_used (list_sort fec_seq to_be_decoded) (received_fec_packets_ st)) in
          Ok (st, recovered_packets, Z.of_nat (length temp))
      end
  end.

(** The loop of [DecodeRSFec]. *)
Fixpoint attempts (fuel : nat) (st : Decoder) (recovered_packets : list RecoveredPacket) (num_recovered_packets : nat)
    : res (Decoder * list RecoveredPacket * nat) :=
  match fuel with
  | O => Fault OutOfFuel
  | S fuel =>
      let! (st, recovered_packets, ret) := AttemptRecovery st recovered_packets in
      if ret =? 0 then Ok (st, recovered_packets, num_recovered_packets)
      else attempts fuel st recovered_packets
             (if 0 <? ret then (num_recovered_packets + Z.to_nat ret)%nat else num_recovered_packets)
  end.

Definition reset_on_gap (st : Decoder) (received_packet : ReceivedPacket) (recovered_packets : list RecoveredPacket)
    : Decoder * list RecoveredPacket :=
  match last recovered_packets with
  | Some back =>
      if (length recovered_packets =? Rs.kMaxTrackedMediaPackets)%nat &&
         (rp_ssrc received_packet =? rec_ssrc back) &&
         (Z.of_nat Rs.kMaxTrackedMediaPackets <? MinDiff16 (rp_seq_num received_packet) (rec_seq_num back))
      then ResetState st else (st, recovered_packets)
  | None => (st, recovered_packets)
  end.

(** [DecodeRSFec].  Every attempt that recovers something uses up a FEC packet,
    so one more than there are is enough. *)
Definition DecodeRSFec (st : Decoder) (received_packet : ReceivedPacket) (recovered_packets : list RecoveredPacket)
    : res (Decoder * list RecoveredPacket * nat) :=
  let (st, recovered_packets) := reset_on_gap st received_packet recovered_packets in
  let! (st, recovered_packets) := InsertPacket st received_packet recovered_packets in
  attempts (S (length (received_fec_packets_ st))) st recovered_packets 0.

End Recovery.
End RsDec.
