(* ===== verification/RsState.v ===== *)
(** * RsState: the state of the Reed-Solomon decoder in a session

    A session is a run whose sequence numbers lie in a window of 128 numbers
    from [B0] on.  The invariant of the decoder's members: the stored FEC
    packets are genuine, and the weak pointers between them and the packets
    considered lost say exactly what each FEC packet misses. *)

From stdpp Require Import sorting gmap.
From S2P Require Import Prelude.
From S2P Require Import SeqNum.
From S2P Require Import FecTypes.
From S2P Require Import XorCode.
From S2P Require Import FecDecoder.
From S2P Require Import DecoderLemmas.
From S2P Require Import WindowSort.
From S2P Require Import Galois.
From S2P Require Import ReedSolSolve.
From S2P Require Import ReedSolRows.
From S2P Require Import RsCodec.
From S2P Require Import RsBytes.
From S2P Require Import RsWindow.
From S2P Require Import RsRecover.
From S2P Require Import RsDecoder.

(** ** The window of a session *)

Section Window.
Variable B0 : Z.
Hypothesis B0_u16 : is_u16 B0.

Definition in_session (s : Z) : Prop := in_window B0 128 s.

(** The distance of a sequence number from [B0]. *)
Definition pos (s : Z) : nat := Z.to_nat (rel B0 s).

Lemma rel_number p : (p < 1000)%nat -> rel B0 (number B0 p) = Z.of_nat p.
Proof. intros Hp. unfold number. apply rel_window; [done|lia]. Qed.

Lemma pos_number p : (p < 1000)%nat -> pos (number B0 p) = p.
Proof. intros Hp. unfold pos. rewrite rel_number by done. lia. Qed.

Lemma rel_nonneg s : 0 <= rel B0 s.
Proof. unfold rel. by apply uw_range. Qed.

Lemma number_pos s : is_u16 s -> number B0 (pos s) = s.
Proof.
  intros Hs. unfold pos, number. rewrite Z2Nat.id by apply rel_nonneg. unfold rel, uw, in_uw in *.
  rewrite Zplus_mod_idemp_r. replace (B0 + (s - B0)) with s by lia. by apply Z.mod_small.
Qed.

Lemma number_session p : (p < 128)%nat -> in_session (number B0 p).
Proof. intros Hp. split; [apply number_range|]. rewrite rel_number by lia. lia. Qed.

Lemma pos_session s : in_session s -> (pos s < 128)%nat /\ number B0 (pos s) = s.
Proof. intros [Hs Hr]. pose proof (rel_nonneg s). split; [unfold pos; lia|by apply number_pos]. Qed.

Lemma number_inj p q : (p < 1000)%nat -> (q < 1000)%nat -> number B0 p = number B0 q -> p = q.
Proof. intros Hp Hq E. rewrite <- (pos_number p), <- (pos_number q) by done. by rewrite E. Qed.

Lemma session_before s s' : in_session s -> in_session s' -> before s s' <-> (pos s < pos s')%nat.
Proof.
  intros Hs Hs'. rewrite (before_rel B0 128) by done. unfold pos.
  pose proof (rel_nonneg s). pose proof (rel_nonneg s'). lia.
Qed.

Lemma before_trans_session s1 s2 s3 :
  in_session s1 -> in_session s2 -> in_session s3 -> before s1 s2 -> before s2 s3 -> before s1 s3.
Proof. intros H1 H2 H3. rewrite !session_before by done. lia. Qed.

Lemma LessThan_session s s' : in_session s -> in_session s' -> LessThan s s' = (pos s <? pos s')%nat.
Proof.
  intros Hs Hs'. apply eq_bool_prop_intro. rewrite !Is_true_true, Nat.ltb_lt. by apply session_before.
Qed.

Lemma session_near s s' : in_session s -> in_session s' -> MinDiff16 s s' <= 127.
Proof. intros Hs Hs'. pose proof (MinDiff_window B0 128 s s' Hs Hs'). lia. Qed.

(** Sorted lists of sequence numbers. *)
Record ordered (seqs : list Z) : Prop := {
  ordered_session : Forall in_session seqs;
  ordered_sorted : StronglySorted before seqs
}.

Lemma ordered_numbers ps : StronglySorted lt ps -> Forall (fun p => p < 128)%nat ps -> ordered (map (number B0) ps).
Proof.
  intros Hs Hp. split.
  - apply Forall_fmap. eapply Forall_impl; [exact Hp|]. intros p. apply number_session.
  - induction Hs as [|p ps Hs IH Hlt]; [constructor|]. apply Forall_cons in Hp as [Hp Hps]. cbn [map].
    constructor; [by apply IH|]. rewrite List.Forall_forall in Hlt. apply List.Forall_forall. intros s Hin.
    apply in_map_iff in Hin as (q & <- & Hq). specialize (Hlt q Hq). rewrite Forall_forall in Hps.
    pose proof (Hps q ltac:(by apply list_elem_of_In)). apply session_before; [by apply number_session..|].
    rewrite !pos_number by lia. done.
Qed.

Lemma ordered_positions seqs : ordered seqs -> StronglySorted lt (map pos seqs) /\ Forall (fun p => p < 128)%nat (map pos seqs).
Proof.
  intros [Hw Hs]. split.
  - induction Hs as [|s seqs Hs IH Hlt]; [constructor|]. apply Forall_cons in Hw as [Hw1 Hw]. cbn [map].
    constructor; [by apply IH|]. apply List.Forall_map. rewrite List.Forall_forall in *. intros x Hx.
    apply session_before; [done|by apply Hw|by apply Hlt].
  - apply Forall_fmap. eapply Forall_impl; [exact Hw|]. intros s Hs'. by apply pos_session.
Qed.

Lemma ordered_numbered seqs : ordered seqs -> seqs = map (number B0) (map pos seqs).
Proof.
  intros [Hw _]. rewrite map_map. rewrite <- (map_id seqs) at 1. apply map_ext_in. intros s Hs.
  rewrite List.Forall_forall in Hw. symmetry. by apply pos_session, Hw.
Qed.

Lemma ordered_window seqs : ordered seqs -> seqs_window 128 seqs.
Proof.
  intros Ho. exists B0, (map pos seqs). destruct (ordered_positions _ Ho) as [Hs Hp].
  split_and!; [done|done| |by apply ordered_numbered]. eapply Forall_impl; [exact Hp|]. intros p Hp'. cbv beta in *. lia.
Qed.

Lemma ordered_nodup seqs : ordered seqs -> NoDup seqs.
Proof.
  intros Ho. rewrite (ordered_numbered _ Ho). destruct (ordered_positions _ Ho) as [Hs Hp].
  apply NoDup_fmap_2_strong; [|by apply sorted_NoDup]. intros p q Hp1 Hq1. rewrite Forall_forall in Hp.
  pose proof (Hp p Hp1). pose proof (Hp q Hq1). apply number_inj; lia.
Qed.

Lemma ordered_length seqs : ordered seqs -> (length seqs <= 128)%nat.
Proof.
  intros Ho. destruct (ordered_positions _ Ho) as [Hs Hp]. rewrite <- (length_map pos). rewrite <- (length_seq 128 0).
  apply submseteq_length, NoDup_submseteq; [by apply sorted_NoDup|]. intros p Hin. apply elem_of_seq.
  rewrite Forall_forall in Hp. specialize (Hp p Hin). lia.
Qed.

(** Sorted lists with the same elements are equal. *)
Lemma ordered_ext seqs seqs' : ordered seqs -> ordered seqs' -> (forall s, s ∈ seqs <-> s ∈ seqs') -> seqs = seqs'.
Proof.
  intros Ho Ho' E. pose proof (ordered_session _ Ho) as Hw. pose proof (ordered_session _ Ho') as Hw'.
  apply (StronglySorted_unique_strong before); [|apply Ho|apply Ho'|].
  - intros x y Hx Hy Hxy Hyx. rewrite Forall_forall in Hw, Hw'. specialize (Hw x Hx). specialize (Hw' y Hy).
    rewrite session_before in Hxy, Hyx by done. lia.
  - apply NoDup_Permutation; [by apply ordered_nodup..|done].
Qed.

(** [std::list::sort] of distinct numbers of the session. *)
Lemma list_sort_ordered {A} (key : A -> Z) l :
  Forall (fun x => in_session (key x)) l -> NoDup (map key l) -> ordered (map key (list_sort key l)).
Proof.
  intros Hw Hnd. split; [|by apply (list_sort_window key B0 128)].
  apply Forall_fmap. apply list_sort_Forall. done.
Qed.

Lemma ordered_sub {A} (key : A -> Z) (P : A -> Prop) `{forall x, Decision (P x)} l :
  ordered (map key l) -> ordered (map key (filter P l)).
Proof.
  intros [Hw Hs]. split.
  - apply Forall_fmap. apply Forall_forall. intros x [_ Hx]%list_elem_of_filter.
    rewrite Forall_forall in Hw. apply Hw, list_elem_of_fmap. eauto.
  - clear Hw. induction l as [|x l IH]; [constructor|]. cbn [map] in Hs. inversion Hs as [|? ? Hs' Hx]; subst.
    rewrite filter_cons. case_decide; [|by apply IH]. cbn [map]. constructor; [by apply IH|].
    rewrite List.Forall_forall in *. intros s Hin. apply Hx. apply in_map_iff in Hin as (y & <- & Hy).
    apply in_map. apply list_elem_of_In in Hy. apply list_elem_of_filter in Hy as [_ Hy]. by apply list_elem_of_In.
Qed.

(** The binary search in a sorted list. *)
Lemma lower_bound_ordered seqs s :
  ordered seqs ->
  let it := lower_bound (length seqs) seqs 0 (length seqs) s in
  (s ∈ seqs -> seqs !! it = Some s) /\ (s ∉ seqs -> seqs !! it <> Some s).
Proof.
  intros Ho it. split.
  - intros [i Hi]%list_elem_of_lookup. unfold it. by rewrite (lower_bound_finds 128 seqs i s (ordered_window _ Ho)) by (done || lia).
  - intros Hn Hit. by apply Hn, (list_elem_of_lookup_2 _ it).
Qed.

End Window.

(** ** Genuine FEC packets learn *)

Section Learn.
Context {G : Galois} {GL : GaloisLaws G}.
Variables (ssrc B0 : Z) (orig : nat -> Packet).
Hypothesis B0_u16 : is_u16 B0.

Abbreviation genuine := (genuine ssrc B0 orig).
Abbreviation media_at := (media_at ssrc B0 orig).

(** The sequence numbers a FEC packet misses. *)
Definition miss (fp : Rs.ReceivedFecPacket) : list Z := map pp_seq_num (missing (Rs.protected_packets fp)).

(** The packets a FEC packet at distance [d] protects are packets of the session. *)
Definition reaches (ds : nat * Rs.ProtectedStream) : Prop :=
  forall o, bit_of (Rs.mask ds.2) o = true -> (ds.1 + o < 128)%nat /\ media_at (ds.1 + o).

Lemma genuine_miss hv ds fp :
  genuine hv ds fp ->
  miss fp = map (fun o => number B0 (ds.1 + o)) (filter (fun o => hv (ds.1 + o)%nat = false) (positions_of 32 (Rs.mask ds.2))).
Proof.
  intros Hg. unfold miss, missing. rewrite (genuine_protected _ _ _ _ _ _ Hg).
  induction (positions_of 32 (Rs.mask ds.2)) as [|o os IH]; [done|]. cbn [map]. rewrite !filter_cons.
  assert (Hpkt : pp_pkt (protected_at ssrc B0 orig hv (ds.1 + o)) = None <-> hv (ds.1 + o)%nat = false)
    by (cbn; by destruct (hv (ds.1 + o)%nat)).
  do 2 case_decide; try tauto; cbn [map]; by rewrite IH.
Qed.

Lemma miss_elem hv ds fp s :
  genuine hv ds fp ->
  s ∈ miss fp <-> exists o, bit_of (Rs.mask ds.2) o = true /\ hv (ds.1 + o)%nat = false /\ s = number B0 (ds.1 + o).
Proof.
  intros Hg. rewrite (genuine_miss hv ds fp Hg), list_elem_of_fmap. split.
  - intros (o & -> & [Hh Ho]%list_elem_of_filter). apply arrived_elem in Ho as [_ Ho]. eauto.
  - intros (o & Ho & Hh & ->). exists o. split; [done|]. apply list_elem_of_filter. split; [done|].
    apply arrived_elem. split; [|done]. destruct (decide (o < 32)%nat); [done|].
    by rewrite (bit_of_uw 32) in Ho by (lia || apply (placed_mask _ _ _ (genuine_placed _ _ _ _ _ _ Hg))).
Qed.

Lemma sorted_shift d os : StronglySorted lt os -> StronglySorted lt (map (fun o => (d + o)%nat) os).
Proof.
  induction 1 as [|o os Hs IH Hlt]; [constructor|]. cbn [map]. constructor; [done|].
  apply List.Forall_map. eapply List.Forall_impl; [|exact Hlt]. intros q Hq. cbv beta. lia.
Qed.

Lemma miss_ordered hv ds fp : genuine hv ds fp -> reaches ds -> ordered B0 (miss fp).
Proof.
  intros Hg Hr. rewrite (genuine_miss hv ds fp Hg).
  rewrite <- (map_map (fun o => (ds.1 + o)%nat) (number B0)). apply ordered_numbers; [done| |].
  - apply sorted_shift. apply sorted_filter, filter_seq_sorted.
  - apply Forall_fmap, Forall_forall. intros o [_ Ho]%list_elem_of_filter. apply arrived_elem in Ho as [_ Ho].
    cbn. by apply Hr.
Qed.

Lemma protected_ordered hv ds fp : genuine hv ds fp -> reaches ds -> ordered B0 (map pp_seq_num (Rs.protected_packets fp)).
Proof.
  intros Hg Hr. rewrite (genuine_protected _ _ _ _ _ _ Hg), map_map. unfold protected_at. cbn [pp_seq_num].
  rewrite <- (map_map (fun o => (ds.1 + o)%nat) (number B0)). apply ordered_numbers; [done| |].
  - apply sorted_shift, filter_seq_sorted.
  - apply Forall_fmap, Forall_forall. intros o Ho. apply arrived_elem in Ho as [_ Ho]. cbn. by apply Hr.
Qed.

(** A FEC packet only looks at the packets it protects. *)
Lemma genuine_ext hv hv' ds fp :
  (forall o, bit_of (Rs.mask ds.2) o = true -> hv (ds.1 + o)%nat = hv' (ds.1 + o)%nat) ->
  genuine hv ds fp -> genuine hv' ds fp.
Proof.
  intros E [H1 H2 H3 H4 H5 H6 H7 H8 H9 H10 H11]. split; try done.
  - intros o. rewrite H4. destruct (bit_of (Rs.mask ds.2) o) eqn:Eo; [|done]. cbn [andb]. by apply E.
  - rewrite H6. apply map_ext_in. intros o Ho. apply list_elem_of_In in Ho. apply arrived_elem in Ho as [_ Ho].
    unfold protected_at. by rewrite E.
Qed.

(** The packets at hand, and packet [p]. *)
Definition also (hv : nat -> bool) (p q : nat) : bool := hv q || bool_decide (q = p).

Lemma also_elem hv p q : also hv p q = true <-> hv q = true \/ q = p.
Proof. unfold also. by rewrite orb_true_iff, bool_decide_eq_true. Qed.

(** [fp] with the packet it protects at offset [o]. *)
Definition with_packet (fp : Rs.ReceivedFecPacket) (s : Rs.ProtectedStream) (pps : list ProtectedPacket) (o : nat)
    : Rs.ReceivedFecPacket :=
  RsDec.set_streams (RsDec.set_protected fp pps)
    (RsDec.set_arrive s (Z.lor (Rs.arrive s) (Z.shiftl 1 (Z.of_nat o))) :: tail (Rs.protected_streams fp)).

Lemma genuine_learns hv d s fp o :
  genuine hv (d, s) fp -> bit_of (Rs.mask s) o = true ->
  genuine (also hv (d + o)) (d, RsDec.set_arrive s (Z.lor (Rs.arrive s) (Z.shiftl 1 (Z.of_nat o))))
    (with_packet fp s (map (fun o' => protected_at ssrc B0 orig (also hv (d + o)) (d + o')) (positions_of 32 (Rs.mask s))) o).
Proof.
  intros [H1 [P1 P2 P3 P4] H3 H4 H5 H6 H7 H8 H9 H10 H11] Ho. cbn [fst snd] in *.
  assert (Hbits : forall q, bit_of (Z.lor (Rs.arrive s) (Z.shiftl 1 (Z.of_nat o))) q = bit_of (Rs.mask s) q && also hv (d + o) (d + q)).
  { intros q. rewrite bit_of_set, H4. unfold also. destruct (decide (q = o)) as [->|Hne].
    - rewrite !bool_decide_true, Ho by done. by rewrite !orb_true_r.
    - rewrite !bool_decide_false by lia. by rewrite !orb_false_r. }
  split; cbn [fst snd RsDec.set_arrive Rs.mask Rs.arrive Rs.cur_base_num]; try done. split; try done.
  cbn [Rs.arrive]. apply in_uw_bits; [lia|]. intros i Hi. specialize (Hbits (Z.to_nat i)). unfold bit_of in Hbits at 1.
  rewrite Z2Nat.id in Hbits by lia. etransitivity; [exact Hbits|]. by rewrite (bit_of_uw 32) by (done || lia).
Qed.

Lemma update_covering_genuine hv ds f r p :
  genuine hv ds (RsDec.fec f) -> reaches ds -> (p < 128)%nat ->
  rec_seq_num r = number B0 p -> rec_pkt r = orig p ->
  exists f' ds', RsDec.update_covering r f = Ok f' /\ genuine (also hv p) ds' (RsDec.fec f') /\ reaches ds' /\
    RsDec.fec_id f' = RsDec.fec_id f /\ RsDec.fec_seq f' = RsDec.fec_seq f /\
    Rs.maybe_loss_packets (RsDec.fec f') = Rs.maybe_loss_packets (RsDec.fec f) /\
    (forall s, s ∈ miss (RsDec.fec f') <-> s ∈ miss (RsDec.fec f) /\ s <> number B0 p).
Proof.
  intros Hg Hr Hp Hseq Hpkt. destruct ds as [d s]. set (fp := RsDec.fec f) in *. set (os := positions_of 32 (Rs.mask s)).
  pose proof (genuine_protected _ _ _ _ _ _ Hg) as Hpps. cbn [fst snd] in Hpps. fold os in Hpps.
  pose proof (lower_bound_ordered B0 B0_u16 _ (rec_seq_num r) (protected_ordered hv _ fp Hg Hr)) as [Hin Hout].
  rewrite length_map in Hin, Hout. unfold RsDec.update_covering. fold fp.
  set (it := lower_bound _ _ _ _ _) in *.
  assert (Hmiss : forall f' ds', genuine (also hv p) ds' f' -> Rs.mask ds'.2 = Rs.mask s -> ds'.1 = d ->
    forall s', s' ∈ miss f' <-> s' ∈ miss fp /\ s' <> number B0 p).
  { intros f' ds' Hg' Em Ed s'. rewrite (miss_elem _ _ _ s' Hg'), (miss_elem _ _ _ s' Hg), Em, Ed. cbn [fst snd]. split.
    - intros (o & Ho & Hh & ->). destruct (Hr o Ho) as [Ho' _]. cbn [fst] in Ho'. unfold also in Hh.
      apply orb_false_iff in Hh as [Hh Hne]. apply bool_decide_eq_false in Hne. split; [eauto|].
      intros E. apply number_inj in E; (done || lia).
    - intros [(o & Ho & Hh & ->) Hne]. exists o. split_and!; [done| |done]. unfold also. rewrite Hh. cbn [orb].
      apply bool_decide_eq_false. intros E. apply Hne. by rewrite E. }
  assert (Hdec : (exists o, (o < 32)%nat /\ bit_of (Rs.mask s) o = true /\ p = (d + o)%nat) \/
    ~ exists o, (o < 32)%nat /\ bit_of (Rs.mask s) o = true /\ p = (d + o)%nat).
  { destruct (covers d (Rs.mask s) p) eqn:Hc.
    - left. pose proof (covers_bound _ _ _ (placed_mask _ _ _ (genuine_placed _ _ _ _ _ _ Hg)) Hc).
      unfold covers in Hc. apply andb_true_iff in Hc as [_ Hc]. exists (p - d)%nat. split_and!; [lia|done|lia].
    - right. intros (o & _ & Ho & ->). unfold covers in Hc. rewrite (proj2 (Nat.leb_le _ _)) in Hc by lia.
      replace (d + o - d)%nat with o in Hc by lia. by rewrite Ho in Hc. }
  destruct Hdec as [(o & Ho32 & Ho & ->)|Hno].
  2:{ assert (Hext : genuine (also hv p) (d, s) fp).
      { eapply genuine_ext; [|exact Hg]. intros o Ho. cbn [fst snd] in *. unfold also. rewrite bool_decide_false; [by rewrite orb_false_r|].
        intros E. apply Hno. exists o. split_and!; try done. destruct (decide (o < 32)%nat); [done|].
        by rewrite (bit_of_uw 32) in Ho by (lia || apply (placed_mask _ _ _ (genuine_placed _ _ _ _ _ _ Hg))). }
      assert (Hn : rec_seq_num r ∉ map pp_seq_num (Rs.protected_packets fp)).
      { rewrite Hpps, map_map, list_elem_of_fmap. intros (o & E & Ho). apply arrived_elem in Ho as [Ho32 Ho].
        destruct (Hr o Ho) as [Ho' _]. cbn [fst snd] in *. unfold protected_at in E. cbn [pp_seq_num] in E. rewrite Hseq in E.
        apply number_inj in E; [|done|lia..]. apply Hno. eauto. }
      specialize (Hout Hn). rewrite list_lookup_fmap in Hout. exists f, (d, s).
      split. { destruct (Rs.protected_packets fp !! it) as [pp|]; [|done]. cbn in Hout.
        rewrite (proj2 (Z.eqb_neq _ _)); [done|]. intros E. apply Hout. by rewrite E. }
      split_and!; try done. by apply (Hmiss fp (d, s)). }
  assert (Hmem : o ∈ os) by (by apply arrived_elem). apply list_elem_of_lookup in Hmem as [i Hi].
  assert (Hat : map pp_seq_num (Rs.protected_packets fp) !! i = Some (rec_seq_num r)).
  { rewrite Hpps, map_map, list_lookup_fmap, Hi. cbn. by rewrite Hseq. }
  assert (Hit : it = i).
  { unfold it. rewrite <- (length_map pp_seq_num). apply (lower_bound_finds 128); [|lia|done].
    apply (ordered_window B0 B0_u16). by eapply protected_ordered. }
  clearbody it. subst it. clear Hin Hout.
  assert (Hpp : Rs.protected_packets fp !! i = Some (protected_at ssrc B0 orig hv (d + o)%nat))
    by (by rewrite Hpps, list_lookup_fmap, Hi).
  rewrite Hpp. unfold protected_at at 1. cbn [pp_seq_num pp_ssrc]. rewrite Hseq, Z.eqb_refl.
  rewrite (genuine_stream _ _ _ _ _ _ Hg), bind_ok. cbn [snd].
  pose proof (placed_base _ _ _ (genuine_placed _ _ _ _ _ _ Hg)) as Hb. pose proof (placed_near _ _ _ (genuine_placed _ _ _ _ _ _ Hg)) as Hd.
  cbn [fst snd] in Hb, Hd. unfold protected_at. cbn [pp_seq_num pp_ssrc]. rewrite Hb, number_diff by lia. replace (Nat.max (d + o) d - Nat.min (d + o) d)%nat with o by lia.
  unfold RsDec.bitset32_set. rewrite (proj2 (Z.ltb_lt _ _)), bind_ok by lia.
  pose proof (genuine_learns hv d s fp o Hg Ho) as Hg'.
  assert (E : <[i := mkProtectedPacket ssrc (number B0 (d + o)) (Some (rec_pkt r))]> (Rs.protected_packets fp) =
    map (fun o' => protected_at ssrc B0 orig (also hv (d + o)) (d + o')) os).
  { apply list_eq. intros j. rewrite list_lookup_fmap. destruct (decide (j = i)) as [->|Hj].
    - rewrite list_lookup_insert_eq by (by eapply lookup_lt_Some). rewrite Hi. cbn. unfold protected_at.
      rewrite (proj2 (also_elem _ _ _)) by (by right). by rewrite Hpkt.
    - rewrite list_lookup_insert_ne by done. rewrite Hpps, list_lookup_fmap. destruct (os !! j) as [o'|] eqn:Ej; [|done]. cbn.
      f_equal. unfold protected_at, also. rewrite bool_decide_false, orb_false_r; [done|]. intros Eo.
      assert (o' = o) as -> by lia. apply Hj. eapply NoDup_lookup; [|exact Ej|exact Hi]. apply arrived_nodup. }
  rewrite E. eexists _, _. split; [reflexivity|]. split; [exact Hg'|]. split_and!; try done.
  by apply (Hmiss _ _ Hg').
Qed.

End Learn.
