(* ===== verification/RsLinks.v ===== *)
(** * RsLinks: the decoder learns a media packet

    The invariant of the decoder's members, and [UpdateCoveringFecPackets] with
    [UpdateMaybeLossPackets], which keep it when a packet becomes known. *)

From stdpp Require Import sorting gmap.
From S2P Require Import Prelude.
From S2P Require Import SeqNum.
From S2P Require Import FecTypes.
From S2P Require Import XorCode.
From S2P Require Import FecDecoder.
From S2P Require Import DecoderLemmas.
From S2P Require Import WindowSort.
From S2P Require Import Galois.
From S2P Require Import ReedSolRows.
From S2P Require Import RsCodec.
From S2P Require Import RsWindow.
From S2P Require Import RsRecover.
From S2P Require Import RsDecoder.
From S2P Require Import RsState.

(** ** Generic *)

Lemma list_filter_all {A} (P : A -> Prop) `{!forall x, Decision (P x)} l : Forall P l -> filter P l = l.
Proof. induction 1 as [|x l Hx _ IH]; [done|]. rewrite filter_cons, decide_True by done. by rewrite IH. Qed.

Lemma mapM_res_ok {A B} (g : A -> res B) (P : A -> B -> Prop) l :
  (forall x, x ∈ l -> exists y, g x = Ok y /\ P x y) ->
  exists l', RsDec.mapM_res g l = Ok l' /\ Forall2 P l l'.
Proof.
  induction l as [|x l IH]; intros H; [by exists []|]. cbn [RsDec.mapM_res].
  destruct (H x) as (y & -> & Hy); [by left|]. rewrite bind_ok.
  destruct IH as (l' & -> & Hl); [intros z Hz; apply H; by right|]. rewrite bind_ok.
  exists (y :: l'). split; [done|]. by constructor.
Qed.

(** Deleting the one element with a key. *)
Lemma delete_filter {A} (key : A -> Z) l i x :
  NoDup (map key l) -> l !! i = Some x -> delete i l = filter (fun y => key y <> key x) l.
Proof.
  revert i. induction l as [|y l IH]; intros i Hnd Hi; [done|]. cbn [map] in Hnd. apply NoDup_cons in Hnd as [Hy Hnd].
  rewrite filter_cons. destruct i as [|i]; cbn in Hi.
  - injection Hi as <-. rewrite decide_False by (intros H; by apply H). cbn. symmetry. apply list_filter_all.
    apply Forall_forall. intros z Hz E. apply Hy. rewrite <- E. apply list_elem_of_fmap. eauto.
  - rewrite decide_True.
    + change (delete (S i) (y :: l)) with (y :: delete i l). f_equal. by apply IH.
    + intros E. apply Hy. rewrite E. apply list_elem_of_fmap. exists x. split; [done|by eapply list_elem_of_lookup_2].
Qed.

Lemma keys_inj {A B} (key : A -> B) l x y : NoDup (map key l) -> x ∈ l -> y ∈ l -> key x = key y -> x = y.
Proof.
  intros Hnd [i Hi]%list_elem_of_lookup [j Hj]%list_elem_of_lookup E.
  assert (i = j) as ->; [|congruence].
  eapply (NoDup_lookup (map key l)); [done|rewrite list_lookup_fmap, Hi; done|rewrite list_lookup_fmap, Hj; cbn; by rewrite E].
Qed.

Lemma nodup_keys_filter {A B} (key : A -> B) (P : A -> Prop) `{!forall x, Decision (P x)} l :
  NoDup (map key l) -> NoDup (map key (filter P l)).
Proof. intros Hnd. apply (sublist_NoDup _ (map key l)); [done|]. apply (fmap_sublist key), sublist_filter. Qed.

(** [lock] finds the packet with the number. *)
Lemma lock_loss_elem losses held q :
  NoDup (map RsDec.loss_id losses) -> q ∈ losses -> RsDec.lock_loss (losses ++ held) (RsDec.loss_id q) = Some q.
Proof.
  unfold RsDec.lock_loss. intros Hnd Hq. induction losses as [|q' losses IH]; [by apply elem_of_nil in Hq|].
  cbn [app find]. cbn [map] in Hnd. apply NoDup_cons in Hnd as [Hn Hnd].
  apply elem_of_cons in Hq as [->|Hq]; [by rewrite Nat.eqb_refl|].
  rewrite (proj2 (Nat.eqb_neq _ _)); [by apply IH|]. intros E. apply Hn. rewrite E. apply list_elem_of_fmap. eauto.
Qed.

(** ** The invariant *)

Section Links.
Context {G : Galois} {GL : GaloisLaws G}.
Variables (ssrc B0 : Z) (orig : nat -> Packet).
Hypothesis B0_u16 : is_u16 B0.

Abbreviation genuine := (genuine ssrc B0 orig).
Abbreviation media_at := (media_at ssrc B0 orig).
Abbreviation reaches := (reaches ssrc B0 orig).
Abbreviation maybe f := (Rs.maybe_loss_packets (RsDec.fec f)).

(** The packets with sequence numbers [seqs] are at hand. *)
Definition have (seqs : list Z) (p : nat) : bool := bool_decide (number B0 p ∈ seqs).

(** What FEC packet [f] and the packets considered lost say of each other. *)
Record linked (losses : list RsDec.ConsiderLossPacket) (f : RsDec.StoredFec) : Prop := {
  linked_nodup : NoDup (maybe f);
  linked_ids id : id ∈ maybe f <->
    exists q, q ∈ losses /\ RsDec.loss_id q = id /\ RsDec.loss_seq q ∈ miss (RsDec.fec f);
  linked_all s : s ∈ miss (RsDec.fec f) -> exists q, q ∈ losses /\ RsDec.loss_seq q = s;
  linked_refs q : q ∈ losses ->
    (RsDec.fec_id f ∈ RsDec.reference_fec_packets q <-> RsDec.loss_seq q ∈ miss (RsDec.fec f))
}.

Record loss_good (seqs : list Z) (next : nat) (q : RsDec.ConsiderLossPacket) : Prop := {
  good_loss_ssrc : Rs.loss_ssrc (RsDec.loss q) = ssrc;
  good_loss_new : RsDec.loss_seq q ∉ seqs;
  good_loss_id : (RsDec.loss_id q < next)%nat;
  good_loss_refs : Forall (fun id => id < next)%nat (RsDec.reference_fec_packets q)
}.

Record fec_good (seqs : list Z) (next : nat) (f : RsDec.StoredFec) : Prop := {
  good_fec : exists ds, genuine (have seqs) ds (RsDec.fec f) /\ reaches ds;
  good_fec_id : (RsDec.fec_id f < next)%nat
}.

(** The decoder's members when the packets [seqs] are at hand. *)
Record inv (st : RsDec.Decoder) (seqs : list Z) : Prop := {
  inv_ssrc : RsDec.protected_media_ssrc_ st = ssrc;
  inv_seqs : ordered B0 seqs;
  inv_fecs : Forall (fec_good seqs (RsDec.next_id st)) (RsDec.received_fec_packets_ st);
  inv_fec_order : ordered B0 (map RsDec.fec_seq (RsDec.received_fec_packets_ st));
  inv_fec_ids : NoDup (map RsDec.fec_id (RsDec.received_fec_packets_ st));
  inv_losses : Forall (loss_good seqs (RsDec.next_id st)) (RsDec.consider_loss_packets_ st);
  inv_loss_order : ordered B0 (map RsDec.loss_seq (RsDec.consider_loss_packets_ st));
  inv_loss_ids : NoDup (map RsDec.loss_id (RsDec.consider_loss_packets_ st));
  inv_linked : Forall (linked (RsDec.consider_loss_packets_ st)) (RsDec.received_fec_packets_ st);
  inv_times : forall f, f ∈ RsDec.received_fec_packets_ st -> RsDec.fec_seq f ∈ RsDec.fec_receive_time_ st
}.

(** ** [UpdateMaybeLossPackets] *)

(** [f'] is [f] without the entry [id], if [there]. *)
Definition pruned (id : nat) (there : Prop) (f f' : RsDec.StoredFec) : Prop :=
  exists ids, f' = RsDec.mkStoredFec (RsDec.fec_id f) (RsDec.set_maybe_loss (RsDec.fec f) ids) /\ NoDup ids /\
    forall x, x ∈ ids <-> x ∈ maybe f /\ (there -> x <> id).

Section Forget.
Variables (losses held : list RsDec.ConsiderLossPacket) (q : RsDec.ConsiderLossPacket).
Hypothesis loss_ids : NoDup (map RsDec.loss_id losses).
Hypothesis loss_seqs : NoDup (map RsDec.loss_seq losses).
Hypothesis q_in : q ∈ losses.

(** Every entry of the FEC packet can be locked. *)
Definition lockable (f : RsDec.StoredFec) : Prop :=
  NoDup (maybe f) /\ Forall (fun id => exists q', q' ∈ losses /\ RsDec.loss_id q' = id) (maybe f).

Lemma erase_loss_ok ids :
  NoDup ids -> Forall (fun id => exists q', q' ∈ losses /\ RsDec.loss_id q' = id) ids ->
  exists ids', RsDec.erase_loss (losses ++ held) ids (RsDec.loss_seq q) = Ok ids' /\ NoDup ids' /\
    forall x, x ∈ ids' <-> x ∈ ids /\ x <> RsDec.loss_id q.
Proof.
  induction ids as [|id ids IH]; intros Hnd Hids; cbn [RsDec.erase_loss].
  { exists []. split_and!; [done|done|]. intros x. split; [intros H; by apply elem_of_nil in H|intros [H _]; by apply elem_of_nil in H]. }
  apply NoDup_cons in Hnd as [Hn Hnd]. apply Forall_cons in Hids as [(q' & Hq' & <-) Hids].
  unfold RsDec.deref_loss. rewrite lock_loss_elem, bind_ok by done.
  destruct (Z.eqb_spec (RsDec.loss_seq q') (RsDec.loss_seq q)) as [E|Hne].
  - assert (q' = q) as -> by (by eapply (keys_inj RsDec.loss_seq)). exists ids. split_and!; [done|done|]. intros x.
    rewrite elem_of_cons. split; [intros Hx; split; [by right|intros ->; done]|]. intros [[->|]?]; done.
  - destruct (IH Hnd Hids) as (ids' & -> & Hnd' & Hin). rewrite bind_ok. exists (RsDec.loss_id q' :: ids'). split_and!; [done| |].
    + apply NoDup_cons. split; [|done]. rewrite Hin. tauto.
    + intros x. rewrite !elem_of_cons, Hin. split; [|tauto]. intros [->|]; [|tauto]. split; [by left|].
      intros E. apply Hne. f_equal. by eapply (keys_inj RsDec.loss_id).
Qed.

Lemma forget_one fecs id :
  Forall lockable fecs ->
  exists fecs', RsDec.forget_loss (losses ++ held) (RsDec.loss_seq q) fecs id = Ok fecs' /\
    Forall2 (fun f f' => pruned (RsDec.loss_id q) (RsDec.fec_id f = id) f f') fecs fecs'.
Proof.
  intros Hl. unfold RsDec.forget_loss. apply mapM_res_ok. intros f Hf. rewrite Forall_forall in Hl. destruct (Hl f Hf) as [Hnd Hlock].
  destruct (Nat.eqb_spec (RsDec.fec_id f) id) as [<-|Hne].
  - assert (E : RsDec.DeleteUnavailableLoss (losses ++ held) (maybe f) = maybe f).
    { unfold RsDec.DeleteUnavailableLoss. apply list_filter_all. eapply Forall_impl; [exact Hlock|].
      intros x (q' & Hq' & <-). rewrite lock_loss_elem by done. eauto. }
    rewrite E. destruct (erase_loss_ok (maybe f) Hnd Hlock) as (ids & -> & Hnd' & Hin). rewrite bind_ok.
    eexists. split; [done|]. exists ids. split_and!; [done|done|]. intros x. rewrite Hin. tauto.
  - exists f. split; [done|]. exists (maybe f). split_and!; [by destruct f as [? []]|done|]. intros x. tauto.
Qed.

Lemma pruned_lockable id there f f' : pruned id there f f' -> lockable f -> lockable f'.
Proof.
  intros (ids & -> & Hnd & Hin) [_ Hl]. split; cbn; [done|]. rewrite Forall_forall in *. intros x [Hx _]%Hin. by apply Hl.
Qed.

Lemma pruned_trans id P Q f f1 f2 : pruned id P f f1 -> pruned id Q f1 f2 -> pruned id (P \/ Q) f f2.
Proof.
  intros (ids & -> & Hnd & Hin) (ids' & -> & Hnd' & Hin'). exists ids'. split_and!; [done|done|]. intros x.
  cbn in Hin'. rewrite Hin', Hin. tauto.
Qed.

Lemma pruned_iff id (P Q : Prop) f f' : (P <-> Q) -> pruned id P f f' -> pruned id Q f f'.
Proof. intros E (ids & -> & Hnd & Hin). exists ids. split_and!; [done|done|]. intros x. rewrite Hin. tauto. Qed.

Lemma Forall2_trans_with {A} (R1 R2 R3 : A -> A -> Prop) l1 l2 l3 :
  (forall x y z, R1 x y -> R2 y z -> R3 x z) -> Forall2 R1 l1 l2 -> Forall2 R2 l2 l3 -> Forall2 R3 l1 l3.
Proof.
  intros H H1. revert l3. induction H1 as [|x y l1 l2 Hxy _ IH]; intros l3 H2.
  - apply Forall2_nil_inv_l in H2 as ->. constructor.
  - apply Forall2_cons_inv_l in H2 as (z & l3' & Hyz & H2 & ->). constructor; [by eapply H|by apply IH].
Qed.

Lemma forget_all refs : forall fecs,
  Forall lockable fecs ->
  exists fecs', foldM (RsDec.forget_loss (losses ++ held) (RsDec.loss_seq q)) refs fecs = Ok fecs' /\
    Forall2 (fun f f' => pruned (RsDec.loss_id q) (RsDec.fec_id f ∈ refs) f f') fecs fecs'.
Proof.
  induction refs as [|id refs IH]; intros fecs Hl; cbn [foldM].
  { exists fecs. split; [done|]. apply Forall2_same_length_lookup. split; [done|]. intros i f f' H1 H2. rewrite H1 in H2. injection H2 as <-.
    rewrite Forall_lookup in Hl. destruct (Hl i f H1) as [Hnd _]. exists (maybe f). split_and!; [by destruct f as [? []]|done|].
    intros x. split; [|tauto]. intros Hx. split; [done|]. intros H. by apply elem_of_nil in H. }
  destruct (forget_one fecs id Hl) as (fecs1 & -> & H1). rewrite bind_ok.
  destruct (IH fecs1) as (fecs' & -> & H2).
  { rewrite Forall_lookup in *. intros i f1 Hi. destruct (Forall2_lookup_r _ _ _ _ _ H1 Hi) as (f & Hf & Hp).
    eapply pruned_lockable; [done|by eapply Hl]. }
  exists fecs'. split; [done|]. eapply Forall2_trans_with; [|exact H1|exact H2]. intros x y z Hxy Hyz. cbv beta in *.
  assert (Eid : RsDec.fec_id y = RsDec.fec_id x) by (destruct Hxy as (? & -> & _); done). rewrite Eid in Hyz.
  eapply pruned_iff; [|by eapply pruned_trans]. rewrite elem_of_cons. done.
Qed.

End Forget.

(** ** A packet becomes known *)

(** Both updates. *)
Definition learn (st : RsDec.Decoder) (held : list RsDec.ConsiderLossPacket) (r : RecoveredPacket) : res RsDec.Decoder :=
  let! st := RsDec.UpdateCoveringFecPackets st r in RsDec.UpdateMaybeLossPackets st held r.

(** [f1] is [f] after [UpdateCoveringFecPackets] for [s]. *)
Record covered (seqs : list Z) (s : Z) (f f1 : RsDec.StoredFec) : Prop := {
  covered_good : exists ds, genuine (have seqs) ds (RsDec.fec f1) /\ reaches ds;
  covered_id : RsDec.fec_id f1 = RsDec.fec_id f;
  covered_seq : RsDec.fec_seq f1 = RsDec.fec_seq f;
  covered_maybe : maybe f1 = maybe f;
  covered_miss x : x ∈ miss (RsDec.fec f1) <-> x ∈ miss (RsDec.fec f) /\ x <> s
}.

Lemma covering_ok st seqs seqs' r p :
  inv st seqs -> (p < 128)%nat -> rec_seq_num r = number B0 p -> rec_pkt r = orig p ->
  (forall s, s ∈ seqs' <-> s ∈ seqs \/ s = number B0 p) ->
  exists fecs, RsDec.UpdateCoveringFecPackets st r = Ok (RsDec.with_fecs st fecs) /\
    Forall2 (covered seqs' (number B0 p)) (RsDec.received_fec_packets_ st) fecs.
Proof.
  intros I Hp Hseq Hpkt Hseqs. unfold RsDec.UpdateCoveringFecPackets.
  destruct (mapM_res_ok (RsDec.update_covering r) (covered seqs' (number B0 p)) (RsDec.received_fec_packets_ st))
    as (fecs & -> & HF); [|by exists fecs].
  intros f Hf. pose proof (inv_fecs _ _ I) as Hall. rewrite Forall_forall in Hall. destruct (Hall f Hf) as [(ds & Hg & Hr) _].
  destruct (update_covering_genuine ssrc B0 orig B0_u16 _ ds f r p Hg Hr Hp Hseq Hpkt)
    as (f' & ds' & E & Hg' & Hr' & Hid & Hsq & Hmaybe & Hmiss).
  exists f'. split; [done|]. split; try done. exists ds'. split; [|done].
  eapply genuine_ext; [|exact Hg']. intros o Ho. destruct (Hr' o Ho) as [Hb _]. unfold also, have.
  apply eq_bool_prop_intro. rewrite orb_True, !bool_decide_spec, Hseqs.
  split; (intros [H|H]; [by left|right]); [by rewrite H|]. apply (number_inj B0 B0_u16) in H; lia.
Qed.

Lemma linked_lockable losses f : linked losses f -> lockable losses f.
Proof.
  intros [Hnd Hids _ _]. split; [done|]. apply Forall_forall. intros id (q & Hq & Hid & _)%Hids. eauto.
Qed.

(** The links without the packet [s]. *)
Lemma linked_learns losses seqs s f f1 f2 :
  NoDup (map RsDec.loss_id losses) -> NoDup (map RsDec.loss_seq losses) ->
  linked losses f -> covered seqs s f f1 ->
  (forall q, q ∈ losses -> RsDec.loss_seq q = s -> pruned (RsDec.loss_id q) (RsDec.fec_id f1 ∈ RsDec.reference_fec_packets q) f1 f2) ->
  (s ∉ map RsDec.loss_seq losses -> f2 = f1) ->
  linked (filter (fun q => RsDec.loss_seq q <> s) losses) f2.
Proof.
  intros Hnd1 Hnd2 [Ln Li La Lr] [_ Eid _ Em Hmiss] Hprune Hsame.
  assert (Hf2 : RsDec.fec_id f2 = RsDec.fec_id f /\ (forall x, x ∈ miss (RsDec.fec f2) <-> x ∈ miss (RsDec.fec f) /\ x <> s) /\
    NoDup (maybe f2) /\ forall id, id ∈ maybe f2 <-> id ∈ maybe f /\
      forall q, q ∈ losses -> RsDec.loss_id q = id -> RsDec.loss_seq q <> s).
  { destruct (decide (s ∈ map RsDec.loss_seq losses)) as [Hin|Hin].
    - apply list_elem_of_fmap in Hin as (q & Es & Hq). symmetry in Es.
      destruct (Hprune q Hq Es) as (ids & -> & Hnd & Hids). rewrite Eid, Em in Hids.
      split_and!; [done|intros x; by rewrite <- Hmiss|done|]. intros id. cbn. rewrite Hids. split.
      + intros [Hid Hne]. split; [done|]. intros q' Hq' <- Es'.
        assert (q' = q) as -> by (eapply (keys_inj RsDec.loss_seq); try done; congruence). apply Hne; [|done].
        apply Lr; [done|]. apply Li in Hid as (q2 & Hq2 & E2 & Hm). by rewrite (keys_inj RsDec.loss_id losses q2 q) in Hm.
      + intros [Hid Hne]. split; [done|]. intros _ ->. by apply (Hne q).
    - rewrite (Hsame Hin). rewrite Eid, Em. split_and!; try done. intros id. split; [|by intros [? _]].
      intros Hid. split; [done|]. intros q Hq _ Es. apply Hin. apply list_elem_of_fmap. eauto. }
  destruct Hf2 as (Eid2 & Hmiss2 & Hnd & Hids). split; [done| | |].
  - intros id. rewrite Hids, Li. setoid_rewrite list_elem_of_filter. setoid_rewrite Hmiss2. split.
    + intros [(q & Hq & Hid & Hm) Hne]. exists q. specialize (Hne q Hq Hid). tauto.
    + intros (q & [Hne Hq] & Hid & Hm & _). split; [eauto|]. intros q' Hq' Hid'.
      assert (q' = q) as -> by (eapply (keys_inj RsDec.loss_id); try done; congruence). done.
  - intros x [Hx Hne]%Hmiss2. destruct (La x Hx) as (q & Hq & <-). exists q. rewrite list_elem_of_filter. done.
  - intros q [Hne Hq]%list_elem_of_filter. rewrite Eid2, Lr, Hmiss2 by done. tauto.
Qed.

Lemma pruned_fields id there f f' :
  pruned id there f f' -> RsDec.fec_id f' = RsDec.fec_id f /\ RsDec.fec_seq f' = RsDec.fec_seq f.
Proof. by intros (ids & -> & _). Qed.

(** [UpdateMaybeLossPackets] after [UpdateCoveringFecPackets]. *)
Lemma maybe_loss_ok st held seqs seqs' r p fecs :
  inv st seqs -> rec_seq_num r = number B0 p ->
  Forall2 (covered seqs' (number B0 p)) (RsDec.received_fec_packets_ st) fecs ->
  exists fecs', RsDec.UpdateMaybeLossPackets (RsDec.with_fecs st fecs) held r =
      Ok (RsDec.with_losses (RsDec.with_fecs st fecs')
            (filter (fun q => RsDec.loss_seq q <> number B0 p) (RsDec.consider_loss_packets_ st))) /\
    Forall2 (fun f1 f2 => exists f, f ∈ RsDec.received_fec_packets_ st /\ covered seqs' (number B0 p) f f1 /\
      RsDec.fec_id f2 = RsDec.fec_id f1 /\ RsDec.fec_seq f2 = RsDec.fec_seq f1 /\
      RsDec.set_maybe_loss (RsDec.fec f2) [] = RsDec.set_maybe_loss (RsDec.fec f1) [] /\
      linked (filter (fun q => RsDec.loss_seq q <> number B0 p) (RsDec.consider_loss_packets_ st)) f2) fecs fecs'.
Proof.
  intros I Hseq HF. set (losses := RsDec.consider_loss_packets_ st). set (s := number B0 p) in *.
  pose proof (inv_loss_ids _ _ I) as Hids. pose proof (ordered_nodup B0 B0_u16 _ (inv_loss_order _ _ I)) as Hsq. fold losses in Hids, Hsq.
  pose proof (inv_linked _ _ I) as HL. rewrite Forall_forall in HL. fold losses in HL.
  assert (Hlock : Forall (lockable losses) fecs).
  { apply Forall_lookup. intros i f1 Hi. destruct (Forall2_lookup_r _ _ _ _ _ HF Hi) as (f & Hf & Hc).
    destruct (linked_lockable _ _ (HL f ltac:(by eapply list_elem_of_lookup_2))) as [H1 H2].
    split; by rewrite (covered_maybe _ _ _ _ Hc). }
  destruct (lower_bound_ordered B0 B0_u16 (map RsDec.loss_seq losses) s (inv_loss_order _ _ I)) as [Hin Hout].
  rewrite length_map in Hin, Hout. unfold RsDec.UpdateMaybeLossPackets. cbn [RsDec.consider_loss_packets_ RsDec.with_fecs].
  fold losses. rewrite Hseq. set (it := lower_bound _ _ _ _ _) in *.
  destruct (decide (s ∈ map RsDec.loss_seq losses)) as [Hs|Hs].
  - specialize (Hin Hs). rewrite list_lookup_fmap in Hin. destruct (losses !! it) as [q|] eqn:Eq; [|done]. injection Hin as Eqs.
    rewrite (proj2 (Z.eqb_eq _ _)) by done. cbn [RsDec.received_fec_packets_ RsDec.with_fecs].
    assert (Hq : q ∈ losses) by (by eapply list_elem_of_lookup_2).
    destruct (forget_all losses held q Hids Hsq Hq (RsDec.DeleteUnavailableFec fecs (RsDec.reference_fec_packets q)) fecs Hlock)
      as (fecs' & E & HF'). rewrite Eqs in E. rewrite E, bind_ok.
    exists fecs'. split; [by rewrite (delete_filter RsDec.loss_seq losses it q Hsq Eq), Eqs|].
    apply Forall2_same_length_lookup. split; [by eapply Forall2_length|]. intros i f1 f2 H1 H2.
    destruct (Forall2_lookup_r _ _ _ _ _ HF H1) as (f & Hf & Hc). apply list_elem_of_lookup_2 in Hf.
    pose proof (Forall2_lookup_lr _ _ _ _ _ _ HF' H1 H2) as Hp. cbv beta in Hp. exists f.
    destruct (pruned_fields _ _ _ _ Hp) as [Ei Es]. split_and!; try done; [by destruct Hp as (? & -> & _)|].
    eapply linked_learns; eauto; [|done]. intros q' Hq' Es'. assert (q' = q) as -> by (eapply (keys_inj RsDec.loss_seq); eauto; congruence).
    eapply pruned_iff; [|exact Hp]. unfold RsDec.DeleteUnavailableFec. rewrite list_elem_of_filter. split; [tauto|].
    intros H. split; [|done]. unfold RsDec.fec_alive. apply existsb_exists. exists f1. split; [|apply Nat.eqb_refl].
    apply list_elem_of_In. by eapply list_elem_of_lookup_2.
  - assert (Hsame : filter (fun q => RsDec.loss_seq q <> s) losses = losses).
    { apply list_filter_all, Forall_forall. intros q Hq E. apply Hs, list_elem_of_fmap. eauto. }
    exists fecs. rewrite Hsame. split.
    + specialize (Hout Hs). rewrite list_lookup_fmap in Hout. destruct (losses !! it) as [q|]; [|by destruct st].
      rewrite (proj2 (Z.eqb_neq _ _)); [by destruct st|]. intros E. apply Hout. cbn. by rewrite E.
    + apply Forall2_same_length_lookup. split; [done|]. intros i f1 f2 H1 H2. rewrite H1 in H2. injection H2 as <-.
      destruct (Forall2_lookup_r _ _ _ _ _ HF H1) as (f & Hf & Hc). apply list_elem_of_lookup_2 in Hf. exists f. split_and!; try done.
      rewrite <- Hsame. eapply linked_learns; eauto. intros q Hq Es. exfalso. apply Hs, list_elem_of_fmap. eauto.
Qed.


(** A FEC packet that differs in its weak pointers only. *)
Lemma genuine_same hv ds fp fp' :
  RsDec.set_maybe_loss fp' [] = RsDec.set_maybe_loss fp [] -> genuine hv ds fp -> genuine hv ds fp'.
Proof.
  destruct fp, fp'. cbn. intros [= -> -> -> -> -> -> -> ->] [H1 H2 H3 H4 H5 H6 H7 H8 H9 H10 H11]. by split.
Qed.

Lemma learn_ok st held seqs seqs' r p :
  inv st seqs -> (p < 128)%nat -> rec_seq_num r = number B0 p -> rec_pkt r = orig p ->
  ordered B0 seqs' -> (forall s, s ∈ seqs' <-> s ∈ seqs \/ s = number B0 p) ->
  exists st', learn st held r = Ok st' /\ inv st' seqs' /\
    RsDec.fec_receive_time_ st' = RsDec.fec_receive_time_ st /\
    Forall2 (fun f f' => RsDec.fec_id f' = RsDec.fec_id f /\ RsDec.fec_seq f' = RsDec.fec_seq f)
      (RsDec.received_fec_packets_ st) (RsDec.received_fec_packets_ st').
Proof.
  intros I Hp Hseq Hpkt Hord Hseqs. unfold learn.
  destruct (covering_ok st seqs seqs' r p I Hp Hseq Hpkt Hseqs) as (fecs & -> & HF1). rewrite bind_ok.
  destruct (maybe_loss_ok st held seqs seqs' r p fecs I Hseq HF1) as (fecs' & -> & HF2).
  set (fecs0 := RsDec.received_fec_packets_ st) in *. set (losses := RsDec.consider_loss_packets_ st) in *.
  assert (HF : Forall2 (fun f f' => RsDec.fec_id f' = RsDec.fec_id f /\ RsDec.fec_seq f' = RsDec.fec_seq f) fecs0 fecs').
  { eapply Forall2_trans_with; [|exact HF1|exact HF2]. intros x y z Hxy (f & _ & _ & E1 & E2 & _). cbv beta.
    rewrite E1, E2. split; apply Hxy. }
  assert (Eids : map RsDec.fec_id fecs' = map RsDec.fec_id fecs0).
  { clear -HF. induction HF as [|x y l l' [H _] _ IH]; [done|]. cbn [map]. by rewrite H, IH. }
  assert (Eseqs : map RsDec.fec_seq fecs' = map RsDec.fec_seq fecs0).
  { clear -HF. induction HF as [|x y l l' [_ H] _ IH]; [done|]. cbn [map]. by rewrite H, IH. }
  eexists. split; [done|]. split; [|by split].
  split; cbn [RsDec.protected_media_ssrc_ RsDec.received_fec_packets_ RsDec.consider_loss_packets_ RsDec.fec_receive_time_
    RsDec.next_id RsDec.with_losses RsDec.with_fecs].
  - apply I.
  - done.
  - apply Forall_lookup. intros i f2 Hi. destruct (Forall2_lookup_r _ _ _ _ _ HF2 Hi) as (f1 & _ & f & Hf & Hc & Ei & _ & Es & _).
    destruct (covered_good _ _ _ _ Hc) as (ds & Hg & Hr). split.
    + exists ds. split; [|done]. by eapply genuine_same.
    + rewrite Ei, (covered_id _ _ _ _ Hc). pose proof (inv_fecs _ _ I) as Hall. rewrite Forall_forall in Hall. by apply Hall.
  - rewrite Eseqs. apply I.
  - rewrite Eids. apply I.
  - pose proof (inv_losses _ _ I) as Hall. rewrite Forall_forall in *. intros q [Hne Hq]%list_elem_of_filter.
    destruct (Hall q Hq) as [H1 H2 H3 H4]. split; try done. rewrite Hseqs. tauto.
  - apply ordered_sub. apply I.
  - apply nodup_keys_filter, I.
  - apply Forall_lookup. intros i f2 Hi. by destruct (Forall2_lookup_r _ _ _ _ _ HF2 Hi) as (f1 & _ & f & _ & _ & _ & _ & _ & Hl).
  - intros f2 Hf2. apply list_elem_of_lookup in Hf2 as [i Hi]. destruct (Forall2_lookup_r _ _ _ _ _ HF Hi) as (f & Hf & _ & ->).
    apply (inv_times _ _ I). by eapply list_elem_of_lookup_2.
Qed.

End Links.
