(* ===== verification/RsInsert.v ===== *)
(** * RsInsert: a packet is inserted

    [AssignMaybeLossPackets] links a new FEC packet with the packets considered
    lost, and creates those that are not there yet.  [InsertMediaPacket],
    [InsertFecPacket] and [InsertPacket] keep the invariant of the Reed-Solomon
    decoder. *)

From stdpp Require Import sorting gmap.
From S2P Require Import Prelude.
From S2P Require Import SeqNum.
From S2P Require Import FecTypes.
From S2P Require Import XorCode.
From S2P Require Import FecDecoder.
From S2P Require Import DecoderLemmas.
From S2P Require Import WindowSort.
From S2P Require Import Galois.
From S2P Require Import ReedSolSolve.
From S2P Require Import ReedSolRows.
From S2P Require Import RsCodec.
From S2P Require Import RsBytes.
From S2P Require Import RsWindow.
From S2P Require Import RsRecover.
From S2P Require Import RsDecoder.
From S2P Require Import RsState.
From S2P Require Import RsLinks.

(** ** The packets a new FEC packet misses *)

Section Assign.
Variables (ssrc B0 : Z).
Hypothesis B0_u16 : is_u16 B0.
Variables (L0 : list RsDec.ConsiderLossPacket) (id next : nat).
Hypothesis L0_order : ordered B0 (map RsDec.loss_seq L0).

Abbreviation lseq := RsDec.loss_seq.

Lemma skip_losses_spec l : forall i s,
  match RsDec.skip_losses l i s with
  | Some k => (i <= k)%nat /\ (exists q, l !! (k - i)%nat = Some q /\ LessThan (lseq q) s = false) /\
      forall j q, (j < k - i)%nat -> l !! j = Some q -> LessThan (lseq q) s = true
  | None => forall q, q ∈ l -> LessThan (lseq q) s = true
  end.
Proof.
  induction l as [|q l IH]; intros i s; cbn [RsDec.skip_losses]; [intros q H; by apply elem_of_nil in H|].
  destruct (LessThan (lseq q) s) eqn:E.
  - specialize (IH (i + 1)%nat s). destruct (RsDec.skip_losses l (i + 1) s) as [k|].
    + destruct IH as (Hk & (q' & Hq' & E') & Hall). split; [lia|]. split.
      * exists q'. split; [|done]. by replace (k - i)%nat with (S (k - (i + 1))) by lia.
      * intros [|j] q2 Hj Hq2; [by injection Hq2 as <-|]. apply (Hall j); [lia|done].
    + intros q' [->|Hq']%elem_of_cons; [done|by apply IH].
  - split; [lia|]. rewrite Nat.sub_diag. split; [eauto|]. intros; lia.
Qed.

(** A packet of [L0], with the new reference if it is missed. *)
Definition relinked (M : list Z) (q0 q : RsDec.ConsiderLossPacket) : Prop :=
  RsDec.loss_id q = RsDec.loss_id q0 /\ RsDec.loss q = RsDec.loss q0 /\
  RsDec.reference_fec_packets q = RsDec.reference_fec_packets q0 ++ (if decide (lseq q0 ∈ M) then [id] else []).

(** The loop after the missing packets [M]. *)
Record assigned (M : list Z) (a : RsDec.Assigning) : Prop := {
  assigned_losses : exists old news, RsDec.as_losses a = old ++ news /\ Forall2 (relinked M) L0 old /\
    map lseq news = filter (fun s => s ∉ map lseq L0) M /\
    Forall (fun q => Rs.loss_ssrc (RsDec.loss q) = ssrc /\ RsDec.reference_fec_packets q = [id]) news /\
    map RsDec.loss_id news = seq next (length news) /\ RsDec.as_next a = (next + length news)%nat;
  assigned_ids : Forall2 (fun s x => exists q, q ∈ RsDec.as_losses a /\ lseq q = s /\ RsDec.loss_id q = x) M (RsDec.as_ids a);
  assigned_it s : in_session B0 s -> (forall m, m ∈ M -> before m s) ->
    match RsDec.as_it a with
    | Some i => (i <= length L0)%nat /\ forall k q0, (k < i)%nat -> L0 !! k = Some q0 -> before (lseq q0) s
    | None => forall q0, q0 ∈ L0 -> before (lseq q0) s
    end
}.

Lemma relinked_seq M q0 q : relinked M q0 q -> lseq q = lseq q0.
Proof. intros (_ & E & _). unfold RsDec.loss_seq. by rewrite E. Qed.

Lemma relinked_seqs M old : Forall2 (relinked M) L0 old -> map lseq old = map lseq L0.
Proof. clear L0_order. induction 1 as [|q0 q l l' H _ IH]; [done|]. cbn [map]. by rewrite IH, (relinked_seq _ _ _ H). Qed.

Lemma assigned_start ids : ids = [] ->
  assigned [] (RsDec.mkAssigning L0 (RsDec.iterator L0 0) ids next).
Proof.
  intros ->. split; cbn.
  - exists L0, []. split; [by rewrite app_nil_r|]. split; [|split_and!; try done; lia].
    apply Forall2_same_length_lookup. split; [done|]. intros i q q' H1 H2. rewrite H1 in H2. injection H2 as <-.
    split_and!; try done. rewrite decide_False by apply not_elem_of_nil. by rewrite app_nil_r.
  - constructor.
  - intros s _ _. unfold RsDec.iterator. destruct (Nat.ltb_spec 0 (length L0)) as [H|H].
    + split; [lia|]. intros; lia.
    + intros q Hq. destruct L0; [by apply elem_of_nil in Hq|cbn in H; lia].
Qed.

(** A number not in [M] joins it. *)
Lemma relinked_more M s q0 q : lseq q0 <> s -> relinked M q0 q -> relinked (M ++ [s]) q0 q.
Proof.
  intros Hne (H1 & H2 & H3). split_and!; try done. rewrite H3. f_equal.
  assert (E : lseq q0 ∈ M <-> lseq q0 ∈ M ++ [s]) by (rewrite elem_of_app, list_elem_of_singleton; tauto).
  destruct (decide (lseq q0 ∈ M)), (decide (lseq q0 ∈ M ++ [s])); tauto.
Qed.

Lemma assigned_step M a p :
  assigned M a -> pp_pkt p = None -> pp_ssrc p = ssrc -> in_session B0 (pp_seq_num p) ->
  (forall m, m ∈ M -> in_session B0 m /\ before m (pp_seq_num p)) ->
  assigned (M ++ [pp_seq_num p]) (RsDec.assign_loss id a p).
Proof.
  intros [(old & news & EL & Hold & Hnew & Hnews & Hnids & Hnext) Hids Hit] Hp Hssrc Hs HM. set (s := pp_seq_num p) in *.
  pose proof (relinked_seqs _ _ Hold) as Eold. pose proof (Forall2_length _ _ _ Hold) as Hlen.
  pose proof (ordered_session _ _ L0_order) as HL0. rewrite Forall_forall in HL0.
  assert (Hses : forall q0, q0 ∈ L0 -> in_session B0 (lseq q0)) by (intros q0 Hq0; apply HL0, list_elem_of_fmap; eauto).
  assert (HsM : s ∉ M) by (intros Hin; destruct (HM s Hin) as [_ Hb]; by apply (before_irrefl s)).
  unfold RsDec.assign_loss. rewrite Hp. fold s.
  set (it := match RsDec.as_it a with Some it => RsDec.skip_losses (drop it (RsDec.as_losses a)) it s | None => None end).
  specialize (Hit s Hs (fun m Hm => proj2 (HM m Hm))).
  (* where the iterator stops *)
  assert (Hstop : match it with
    | Some k => (k < length L0)%nat /\ (exists q0, L0 !! k = Some q0 /\ ~ before (lseq q0) s) /\
        forall j q0, (j < k)%nat -> L0 !! j = Some q0 -> before (lseq q0) s
    | None => forall q0, q0 ∈ L0 -> before (lseq q0) s end).
  { unfold it. destruct (RsDec.as_it a) as [i|]; [|exact Hit]. destruct Hit as [Hi Hbefore].
    pose proof (skip_losses_spec (drop i (RsDec.as_losses a)) i s) as Hspec.
    assert (Hat : forall j q0, L0 !! j = Some q0 -> exists q, RsDec.as_losses a !! j = Some q /\ lseq q = lseq q0).
    { intros j q0 Hj. destruct (Forall2_lookup_l _ _ _ _ _ Hold Hj) as (q & Hq & Hr). exists q.
      split; [rewrite EL; by apply lookup_app_l_Some|by eapply relinked_seq]. }
    destruct (RsDec.skip_losses (drop i (RsDec.as_losses a)) i s) as [k|].
    - destruct Hspec as (Hk & (q & Hq & Hnot) & Hall). rewrite lookup_drop in Hq. replace (i + (k - i))%nat with k in Hq by lia.
      assert (Hkl : (k < length L0)%nat).
      { destruct (decide (k < length L0)%nat) as [|Hge]; [done|]. exfalso.
        rewrite EL, lookup_app_r in Hq by lia.
        assert (Hin : lseq q ∈ M).
        { assert (Hin : lseq q ∈ map lseq news) by (apply list_elem_of_fmap; exists q; split; [done|by eapply list_elem_of_lookup_2]).
          rewrite Hnew in Hin. by apply list_elem_of_filter in Hin as [_ ?]. }
        destruct (HM _ Hin) as [_ Hb]. unfold before in Hb. by rewrite Hb in Hnot. }
      destruct (lookup_lt_is_Some_2 L0 k Hkl) as [q0 Hq0]. destruct (Hat k q0 Hq0) as (q' & Hq' & Eq').
      rewrite Hq in Hq'. injection Hq' as <-. split_and!; [done| |].
      + exists q0. split; [done|]. rewrite <- Eq'. unfold before. by rewrite Hnot.
      + intros j q1 Hj Hq1. destruct (decide (j < i)%nat) as [Hji|Hji]; [by eapply Hbefore|].
        destruct (Hat j q1 Hq1) as (q2 & Hq2 & <-). apply (Hall (j - i)%nat); [lia|]. rewrite lookup_drop.
        by replace (i + (j - i))%nat with j by lia.
    - intros q0 Hq0. apply list_elem_of_lookup in Hq0 as [j Hj]. destruct (decide (j < i)%nat) as [Hji|Hji]; [by eapply Hbefore|].
      destruct (Hat j q0 Hj) as (q & Hq & <-). apply Hspec. apply (list_elem_of_lookup_2 _ (j - i)). rewrite lookup_drop.
      by replace (i + (j - i))%nat with j by lia. }
  assert (Hit' : forall s', in_session B0 s' -> (forall m, m ∈ M ++ [s] -> before m s') ->
    match it with
    | Some i => (i <= length L0)%nat /\ forall k q0, (k < i)%nat -> L0 !! k = Some q0 -> before (lseq q0) s'
    | None => forall q0, q0 ∈ L0 -> before (lseq q0) s' end).
  { intros s' Hs' Hall. assert (Hss : before s s') by (apply Hall, elem_of_app; right; by left).
    assert (Htr : forall q0, q0 ∈ L0 -> before (lseq q0) s -> before (lseq q0) s').
    { intros q0 Hq0 Hb. eapply (before_trans_session B0 B0_u16); [by apply Hses| | |exact Hb|exact Hss]; done. }
    destruct it as [i|].
    - destruct Hstop as (Hi & _ & Hb). split; [lia|]. intros k q0 Hk Hq0. apply Htr; [by eapply list_elem_of_lookup_2|by eapply Hb].
    - intros q0 Hq0. by apply Htr, Hstop. }
  clearbody it.
  (* the packet is there *)
  assert (Hfound : forall i q, it = Some i -> RsDec.as_losses a !! i = Some q -> lseq q = s ->
    assigned (M ++ [s]) (RsDec.mkAssigning
      (<[i := RsDec.set_references q (RsDec.reference_fec_packets q ++ [id])]> (RsDec.as_losses a))
      it (RsDec.as_ids a ++ [RsDec.loss_id q]) (RsDec.as_next a))).
  { intros i q -> Hq Es. destruct Hstop as (Hi & (q0 & Hq0 & _) & _).
    destruct (Forall2_lookup_l _ _ _ _ _ Hold Hq0) as (q' & Hq' & Hr). 
    assert (q' = q) as -> by (rewrite EL, lookup_app_l in Hq by lia; congruence).
    pose proof (relinked_seq _ _ _ Hr) as Es0. rewrite Es in Es0. symmetry in Es0.
    split; cbn [RsDec.as_losses RsDec.as_it RsDec.as_ids RsDec.as_next]; [| |exact Hit'].
    - exists (<[i := RsDec.set_references q (RsDec.reference_fec_packets q ++ [id])]> old), news.
      split; [rewrite EL; by apply insert_app_l; lia|]. split_and!; try done.
      + apply Forall2_same_length_lookup. split; [by rewrite length_insert|]. intros j x y Hx Hy.
        destruct (decide (j = i)) as [->|Hj].
        * rewrite list_lookup_insert_eq in Hy by lia. injection Hy as <-. rewrite Hq0 in Hx. injection Hx as <-.
          destruct Hr as (H1 & H2 & H3). split_and!; [done|done|]. cbn [RsDec.set_references RsDec.reference_fec_packets].
          rewrite H3, Es0, decide_False, app_nil_r, decide_True by (done || apply elem_of_app; right; by left). done.
        * rewrite list_lookup_insert_ne in Hy by done. apply relinked_more.
          -- intros E. apply Hj. eapply (NoDup_lookup (map lseq L0)); [by apply (ordered_nodup B0 B0_u16)|..];
               rewrite list_lookup_fmap; [rewrite Hx; cbn; by rewrite E|rewrite Hq0; cbn; by rewrite Es0].
          -- by eapply (Forall2_lookup_lr _ _ _ _ _ _ Hold).
      + rewrite Hnew, filter_app, filter_cons, filter_nil. rewrite decide_False; [by rewrite app_nil_r|].
        intros Hn. apply Hn. apply list_elem_of_fmap. exists q0. split; [done|by eapply list_elem_of_lookup_2].
    - assert (Hkeep : forall q2, q2 ∈ RsDec.as_losses a -> exists q3, q3 ∈ <[i := RsDec.set_references q
          (RsDec.reference_fec_packets q ++ [id])]> (RsDec.as_losses a) /\ lseq q3 = lseq q2 /\ RsDec.loss_id q3 = RsDec.loss_id q2).
      { intros q2 Hq2. apply list_elem_of_lookup in Hq2 as [j Hj]. pose proof (lookup_lt_Some _ _ _ Hq).
        destruct (decide (j = i)) as [->|Hji].
        - eexists. split; [apply (list_elem_of_lookup_2 _ i), list_lookup_insert_eq; lia|].
          rewrite Hq in Hj. injection Hj as <-. done.
        - exists q2. split; [|done]. apply (list_elem_of_lookup_2 _ j). by rewrite list_lookup_insert_ne. }
      apply Forall2_app.
      + eapply Forall2_impl; [exact Hids|]. intros m x (q2 & Hq2 & E1 & E2). destruct (Hkeep q2 Hq2) as (q3 & Hq3 & E3 & E4).
        exists q3. split_and!; [done|congruence|congruence].
      + constructor; [|constructor]. destruct (Hkeep q) as (q3 & Hq3 & E3 & E4); [by eapply list_elem_of_lookup_2|].
        exists q3. split_and!; [done|congruence|done]. }
  (* it is not *)
  assert (Hfresh : (forall q0, q0 ∈ L0 -> lseq q0 <> s) ->
    assigned (M ++ [s]) (RsDec.mkAssigning
      (RsDec.as_losses a ++ [RsDec.mkConsiderLossPacket (RsDec.as_next a) (Rs.mkLossPacket (pp_ssrc p) s) [id]])
      it (RsDec.as_ids a ++ [RsDec.as_next a]) (RsDec.as_next a + 1))).
  { intros Hno. split; cbn [RsDec.as_losses RsDec.as_it RsDec.as_ids RsDec.as_next]; [| |exact Hit'].
    - exists old, (news ++ [RsDec.mkConsiderLossPacket (RsDec.as_next a) (Rs.mkLossPacket (pp_ssrc p) s) [id]]).
      split; [by rewrite EL, <- app_assoc|]. split_and!.
      + apply Forall2_same_length_lookup. split; [done|]. intros j x y Hx Hy. apply relinked_more.
        * apply Hno. by eapply list_elem_of_lookup_2.
        * by eapply (Forall2_lookup_lr _ _ _ _ _ _ Hold).
      + rewrite map_app, Hnew, filter_app. f_equal. cbn [map]. rewrite filter_cons, filter_nil, decide_True; [done|].
        intros (q0 & E & Hq0)%list_elem_of_fmap. by apply (Hno q0).
      + apply Forall_app. split; [done|]. apply Forall_singleton. by rewrite <- Hssrc.
      + rewrite map_app, length_app. cbn [length map]. rewrite Nat.add_1_r, seq_S, Hnids, Hnext. done.
      + rewrite length_app. cbn. lia.
    - apply Forall2_app.
      + eapply Forall2_impl; [exact Hids|]. intros m x (q2 & Hq2 & E1 & E2). exists q2. split; [|done]. apply elem_of_app. by left.
      + constructor; [|constructor]. eexists. split; [apply elem_of_app; right; by left|]. done. }
  destruct it as [i|].
  - destruct Hstop as (Hi & (q0 & Hq0 & Hnot) & Hall).
    destruct (Forall2_lookup_l _ _ _ _ _ Hold Hq0) as (q & Hq & Hr).
    assert (Hqa : RsDec.as_losses a !! i = Some q) by (rewrite EL; by apply lookup_app_l_Some). rewrite Hqa.
    destruct (Z.eqb_spec (lseq q) s) as [E|Hne]; [by apply Hfound|]. apply Hfresh. intros q1 Hq1 E1.
    rewrite (relinked_seq _ _ _ Hr) in Hne. apply list_elem_of_lookup in Hq1 as [j Hj].
    destruct (lt_eq_lt_dec j i) as [[Hji| ->]|Hji].
    + specialize (Hall j q1 Hji Hj). rewrite E1 in Hall. by apply (before_irrefl s).
    + congruence.
    + pose proof (ordered_positions B0 B0_u16 _ L0_order) as [Hsort _]. apply Hnot.
      apply (session_before B0 B0_u16); [apply Hses; by eapply list_elem_of_lookup_2|done|]. rewrite <- E1.
      pose proof (sorted_gap (map (pos B0) (map lseq L0)) i j (pos B0 (lseq q0)) (pos B0 (lseq q1)) Hsort) as Hgap.
      rewrite !list_lookup_fmap, Hq0, Hj in Hgap. specialize (Hgap eq_refl eq_refl ltac:(lia)). lia.
  - apply Hfresh. intros q0 Hq0 E. specialize (Hstop q0 Hq0). rewrite E in Hstop. by apply (before_irrefl s).
Qed.


Lemma sorted_app_before (l1 l2 : list Z) x y : StronglySorted before (l1 ++ l2) -> x ∈ l1 -> y ∈ l2 -> before x y.
Proof. intros Hs Hx Hy. apply StronglySorted_app in Hs as (H & _ & _). by apply H. Qed.

Lemma assigned_loop pps : forall M a,
  assigned M a -> Forall (fun p => pp_ssrc p = ssrc) pps -> ordered B0 (M ++ map pp_seq_num (missing pps)) ->
  assigned (M ++ map pp_seq_num (missing pps)) (foldl (RsDec.assign_loss id) a pps).
Proof.
  induction pps as [|p pps IH]; intros M a Ha Hssrc Ho; cbn [foldl]; [by rewrite app_nil_r|].
  apply Forall_cons in Hssrc as [Hp Hssrc]. unfold missing in *. rewrite filter_cons in *.
  destruct (pp_pkt p) eqn:Epkt.
  - rewrite decide_False in * by done. unfold RsDec.assign_loss at 2. rewrite Epkt. by apply IH.
  - rewrite (decide_True (P := None = None)) in * by done. cbn [map] in *. rewrite cons_middle, app_assoc in *.
    destruct Ho as [Hses Hsort]. pose proof Hses as Hses'. rewrite Forall_forall in Hses'.
    apply IH; [|done|by split]. apply assigned_step; try done.
    + apply Hses'. apply elem_of_app. left. apply elem_of_app. right. by left.
    + intros m Hm. split; [apply Hses', elem_of_app; left; apply elem_of_app; by left|].
      apply StronglySorted_app in Hsort as (_ & Hsort & _). eapply sorted_app_before; [exact Hsort|done|by left].
Qed.

(** ** What the loop leaves *)

Section Result.
Variables (M : list Z) (a : RsDec.Assigning).
Hypothesis A : assigned M a.
Hypothesis M_order : ordered B0 M.
Hypothesis L0_ids : NoDup (map RsDec.loss_id L0).
Hypothesis L0_next : Forall (fun q => RsDec.loss_id q < next)%nat L0.

(** A packet considered lost is an old one, or new. *)
Lemma result_cases q :
  q ∈ RsDec.as_losses a ->
  (exists q0, q0 ∈ L0 /\ relinked M q0 q) \/
  (lseq q ∈ M /\ (lseq q ∉ map lseq L0) /\ Rs.loss_ssrc (RsDec.loss q) = ssrc /\ RsDec.reference_fec_packets q = [id] /\
   (next <= RsDec.loss_id q < RsDec.as_next a)%nat).
Proof.
  destruct A as [(old & news & -> & Hold & Hnew & Hnews & Hnids & Hnext) _ _]. intros [Hq|Hq]%elem_of_app.
  - left. apply list_elem_of_lookup in Hq as [i Hi]. destruct (Forall2_lookup_r _ _ _ _ _ Hold Hi) as (q0 & Hq0 & Hr).
    exists q0. split; [by eapply list_elem_of_lookup_2|done].
  - right. assert (Hin : lseq q ∈ map lseq news) by (apply list_elem_of_fmap; eauto). rewrite Hnew in Hin.
    apply list_elem_of_filter in Hin as [H1 H2]. rewrite Forall_forall in Hnews. destruct (Hnews q Hq) as [H3 H4].
    assert (Hid : RsDec.loss_id q ∈ map RsDec.loss_id news) by (apply list_elem_of_fmap; eauto). rewrite Hnids in Hid.
    apply elem_of_seq in Hid. split_and!; (done || lia).
Qed.

Lemma result_old q0 : q0 ∈ L0 -> exists q, q ∈ RsDec.as_losses a /\ relinked M q0 q.
Proof.
  destruct A as [(old & news & -> & Hold & _) _ _]. intros Hq. apply list_elem_of_lookup in Hq as [i Hi].
  destruct (Forall2_lookup_l _ _ _ _ _ Hold Hi) as (q & Hq & Hr). exists q. split; [|done]. apply elem_of_app. left.
  by eapply list_elem_of_lookup_2.
Qed.

Lemma result_seqs : NoDup (map lseq (RsDec.as_losses a)) /\ Forall (fun q => in_session B0 (lseq q)) (RsDec.as_losses a).
Proof.
  pose proof result_cases as Hcases.
  destruct A as [(old & news & EL & Hold & Hnew & _) _ _]. rewrite EL in *. split.
  - rewrite map_app, (relinked_seqs _ _ Hold), Hnew. apply NoDup_app. split_and!.
    + by apply (ordered_nodup B0 B0_u16).
    + intros s Hs [Hn _]%list_elem_of_filter. done.
    + apply NoDup_filter. by apply (ordered_nodup B0 B0_u16).
  - apply Forall_forall. intros q Hq. destruct (Hcases q Hq) as [(q0 & Hq0 & Hr)|(Hm & _)].
    + rewrite (relinked_seq _ _ _ Hr). pose proof (ordered_session _ _ L0_order) as H. rewrite Forall_forall in H.
      apply H, list_elem_of_fmap. eauto.
    + pose proof (ordered_session _ _ M_order) as H. rewrite Forall_forall in H. by apply H.
Qed.

Lemma result_ids : NoDup (map RsDec.loss_id (RsDec.as_losses a)) /\ (next <= RsDec.as_next a)%nat.
Proof.
  destruct A as [(old & news & EL & Hold & _ & _ & Hnids & Hnext) _ _]. split; [|lia]. rewrite EL, map_app.
  assert (Eold : map RsDec.loss_id old = map RsDec.loss_id L0).
  { clear -Hold. induction Hold as [|q0 q l l' (H & _) _ IH]; [done|]. cbn [map]. by rewrite H, IH. }
  rewrite Eold, Hnids. apply NoDup_app. split_and!; [done| |apply NoDup_seq].
  intros x (q & -> & Hq)%list_elem_of_fmap Hx%elem_of_seq. rewrite Forall_forall in L0_next. specialize (L0_next q Hq). lia.
Qed.

(** The FEC packet's entries are the packets it misses. *)
Lemma result_entries :
  NoDup (RsDec.as_ids a) /\
  (forall x, x ∈ RsDec.as_ids a <-> exists q, q ∈ RsDec.as_losses a /\ RsDec.loss_id q = x /\ lseq q ∈ M) /\
  (forall s, s ∈ M -> exists q, q ∈ RsDec.as_losses a /\ lseq q = s).
Proof.
  destruct result_ids as [Hnd _]. destruct result_seqs as [Hnds _]. pose proof (assigned_ids _ _ A) as HF. split_and!.
  - apply NoDup_alt. intros i j x Hi Hj. destruct (Forall2_lookup_r _ _ _ _ _ HF Hi) as (s & Hs & q & Hq & Es & Ex).
    destruct (Forall2_lookup_r _ _ _ _ _ HF Hj) as (s' & Hs' & q' & Hq' & Es' & Ex').
    assert (q = q') as <- by (eapply (keys_inj RsDec.loss_id); try done; congruence).
    eapply (NoDup_lookup M); [by apply (ordered_nodup B0 B0_u16)|done|congruence].
  - intros x. split.
    + intros [i Hi]%list_elem_of_lookup. destruct (Forall2_lookup_r _ _ _ _ _ HF Hi) as (s & Hs & q & Hq & <- & Ex).
      exists q. split_and!; [done..|by eapply list_elem_of_lookup_2].
    + intros (q & Hq & <- & [i Hi]%list_elem_of_lookup). destruct (Forall2_lookup_l _ _ _ _ _ HF Hi) as (x & Hx & q' & Hq' & Es & Ex).
      assert (q = q') as <- by (eapply (keys_inj lseq); try done; congruence). rewrite Ex. by eapply list_elem_of_lookup_2.
  - intros s [i Hi]%list_elem_of_lookup. destruct (Forall2_lookup_l _ _ _ _ _ HF Hi) as (x & _ & q & Hq & Es & _). eauto.
Qed.

End Result.
End Assign.

(** ** A packet is inserted *)

Section Insert.
Context {G : Galois} {GL : GaloisLaws G}.
Variables (ssrc B0 : Z) (orig : nat -> Packet).
Hypothesis B0_u16 : is_u16 B0.

Abbreviation genuine := (genuine ssrc B0 orig).
Abbreviation media_at := (media_at ssrc B0 orig).
Abbreviation reaches := (reaches ssrc B0 orig).
Abbreviation inv := (inv ssrc B0 orig).
Abbreviation have := (have B0).

(** The caller's list holds original packets, in order. *)
Record recovered_good (rec : list RecoveredPacket) : Prop := {
  recovered_order : ordered B0 (known rec);
  recovered_media : Forall (fun r => media_at (pos B0 (rec_seq_num r)) /\ rec_pkt r = orig (pos B0 (rec_seq_num r))) rec
}.

Lemma recovered_at rec r : recovered_good rec -> r ∈ rec ->
  exists p, (p < 128)%nat /\ rec_seq_num r = number B0 p /\ rec_pkt r = orig p /\ media_at p.
Proof.
  intros [Ho Hm] Hr. rewrite Forall_forall in Hm. destruct (Hm r Hr) as [H1 H2].
  pose proof (ordered_session _ _ Ho) as Hs. rewrite Forall_forall in Hs.
  destruct (pos_session B0 (rec_seq_num r)) as [Hp Hn]; [apply Hs, list_elem_of_fmap; eauto|].
  exists (pos B0 (rec_seq_num r)). done.
Qed.

(** A new packet is put into the caller's list. *)
Lemma recovered_insert rec r p :
  recovered_good rec -> (p < 128)%nat -> media_at p -> rec_seq_num r = number B0 p -> rec_pkt r = orig p ->
  number B0 p ∉ known rec ->
  let rec' := list_sort rec_seq_num (rec ++ [r]) in
  recovered_good rec' /\ forall s, s ∈ known rec' <-> s ∈ known rec \/ s = number B0 p.
Proof.
  intros [Ho Hm] Hp Hmedia Hseq Hpkt Hnew rec'.
  assert (Hperm : rec' ≡ₚ rec ++ [r]) by apply list_sort_perm.
  assert (Hel : forall s, s ∈ known rec' <-> s ∈ known rec \/ s = number B0 p).
  { intros s. unfold known. rewrite Hperm, map_app, elem_of_app. cbn [map]. rewrite list_elem_of_singleton, Hseq. done. }
  split; [|done]. split.
  - apply list_sort_ordered; [done| |].
    + apply Forall_app. split; [|apply Forall_singleton; rewrite Hseq; by apply number_session].
      pose proof (ordered_session _ _ Ho) as Hs. rewrite Forall_forall in Hs. apply Forall_forall. intros x Hx. apply Hs, list_elem_of_fmap. eauto.
    + rewrite map_app. cbn [map]. rewrite Hseq. apply NoDup_app. split_and!; [by apply (ordered_nodup B0 B0_u16)| |apply NoDup_singleton].
      intros s Hs ->%list_elem_of_singleton. done.
  - rewrite Hperm. apply Forall_app. split; [done|]. apply Forall_singleton. rewrite Hseq, pos_number by (done || lia). done.
Qed.

Lemma keep_all rec : recovered_good rec -> RsDec.DiscardOldRecoveredPackets rec = rec.
Proof.
  intros [Ho _]. pose proof (ordered_length B0 B0_u16 _ Ho) as Hl. unfold known in Hl. rewrite length_map in Hl.
  unfold RsDec.DiscardOldRecoveredPackets. change Rs.kMaxTrackedMediaPackets with 128%nat.
  by replace (length rec - 128)%nat with 0%nat by lia.
Qed.

(** ** Media packets *)

Record media_arrival (rp : ReceivedPacket) (p : nat) : Prop := {
  arrival_media : rp_is_fec rp = false;
  arrival_small : (p < 128)%nat;
  arrival_seq : rp_seq_num rp = number B0 p;
  arrival_pkt : rp_pkt rp = orig p;
  arrival_at : media_at p
}.

Lemma InsertMediaPacket_ok st rec rp p :
  inv st (known rec) -> recovered_good rec -> media_arrival rp p ->
  exists st' rec', RsDec.InsertMediaPacket st rec rp = Ok (st', rec') /\ inv st' (known rec') /\ recovered_good rec' /\
    (forall s, s ∈ known rec' <-> s ∈ known rec \/ s = number B0 p) /\
    (forall r, r ∈ rec -> r ∈ rec') /\ (forall r, r ∈ rec' -> r ∈ rec \/ rec_returned r = true /\ rec_seq_num r = rp_seq_num rp) /\
    length (RsDec.received_fec_packets_ st') = length (RsDec.received_fec_packets_ st).
Proof.
  intros I Hrec [_ Hp Hseq Hpkt Hm]. unfold RsDec.InsertMediaPacket.
  destruct (existsb _ rec) eqn:E.
  - exists st, rec. split_and!; try done; [|by left]. intros s. split; [by left|]. intros [Hs| ->]; [done|].
    apply existsb_exists in E as (r & Hr & Er%Z.eqb_eq). apply list_elem_of_fmap. exists r. rewrite Er, Hseq.
    split; [done|]. by apply list_elem_of_In.
  - set (r := mkRecoveredPacket _ _ _ _ _).
    assert (Hnew : number B0 p ∉ known rec).
    { intros (r' & Er & Hr')%list_elem_of_fmap. apply not_true_iff_false in E. apply E, existsb_exists. exists r'.
      split; [by apply list_elem_of_In|]. apply Z.eqb_eq. by rewrite Hseq. }
    destruct (recovered_insert rec r p) as [Hrec' Hel]; try done.
    destruct (learn_ok ssrc B0 orig B0_u16 st [] (known rec) (known (list_sort rec_seq_num (rec ++ [r]))) r p) as (st' & El & I' & _ & HF);
      try done; [apply Hrec'|].
    unfold learn in El. exists st', (list_sort rec_seq_num (rec ++ [r])).
    split; [by destruct (RsDec.UpdateCoveringFecPackets st r); [rewrite !bind_ok in *; rewrite El|]|].
    split_and!; try done.
    + intros x Hx. rewrite list_sort_perm. apply elem_of_app. by left.
    + intros x. rewrite list_sort_perm, elem_of_app, list_elem_of_singleton. intros [?| ->]; [by left|by right].
    + symmetry. by eapply Forall2_length.
Qed.

(** ** [AssignRecoveredPackets] *)

Lemma have_cons r rec p : have (known (r :: rec)) p = bool_decide (number B0 p = rec_seq_num r) || have (known rec) p.
Proof.
  unfold have, known. cbn [map]. apply eq_bool_prop_intro. by rewrite orb_True, !bool_decide_spec, elem_of_cons.
Qed.

(** The protected packets of a new FEC packet. *)
Definition unassigned (p : nat) : ProtectedPacket := mkProtectedPacket ssrc (number B0 p) None.

Lemma recovered_tail r rec : recovered_good (r :: rec) -> recovered_good rec.
Proof.
  intros [[Hs Hb] Hm]. cbn [known map] in *. inversion Hb; subst. apply Forall_cons in Hs as [_ Hs], Hm as [_ Hm].
  split; [split|]; done.
Qed.

(** Packets behind the head of a sorted list do not need it. *)
Lemma have_behind r rec p : recovered_good (r :: rec) -> (p < 128)%nat -> (pos B0 (rec_seq_num r) < p)%nat ->
  have (known (r :: rec)) p = have (known rec) p.
Proof.
  intros Hrec Hp Hlt. rewrite have_cons, bool_decide_false; [done|]. intros E.
  rewrite <- E, pos_number in Hlt by (done || lia). lia.
Qed.

(** ... and one before it is not in the list. *)
Lemma have_before r rec p : recovered_good (r :: rec) -> (p < pos B0 (rec_seq_num r))%nat -> have (known (r :: rec)) p = false.
Proof.
  intros [Ho _] Hlt. apply bool_decide_eq_false. intros Hin. destruct (ordered_positions B0 B0_u16 _ Ho) as [Hs Hb].
  cbn [known map] in *. fold (known rec) in *. inversion Hs as [|? ? _ Hgt]; subst. apply Forall_cons in Hb as [Hb _].
  cbv beta in Hb. assert (Hp : (p < 1000)%nat) by lia. apply elem_of_cons in Hin as [E|Hin].
  - rewrite <- E, pos_number in Hlt by (done || lia). lia.
  - rewrite List.Forall_forall in Hgt. specialize (Hgt p). rewrite <- (pos_number B0 B0_u16 p) in Hgt at 1 by lia.
    assert (pos B0 (rec_seq_num r) < p)%nat; [|lia]. apply Hgt. apply in_map. by apply list_elem_of_In.
Qed.

Lemma assign_recovered_cons b r rec arr p pps :
  RsDec.assign_recovered b (r :: rec) arr (p :: pps) =
  if LessThan (pp_seq_num p) (rec_seq_num r) then
    let '(pps, arr) := RsDec.assign_recovered b (r :: rec) arr pps in (p :: pps, arr)
  else if LessThan (rec_seq_num r) (pp_seq_num p) then RsDec.assign_recovered b rec arr (p :: pps)
  else
    let diff := MinDiff16 b (pp_seq_num p) in
    let arr := if diff <? 32 then Z.lor arr (Z.shiftl 1 diff) else arr in
    let '(pps, arr) := RsDec.assign_recovered b rec arr pps in
    (mkProtectedPacket (pp_ssrc p) (pp_seq_num p) (Some (rec_pkt r)) :: pps, arr).
Proof. done. Qed.

Lemma rs_assign_ok d rec : forall ps arr,
  recovered_good rec -> StronglySorted lt ps -> Forall (fun p => d <= p < d + 32 /\ p < 128)%nat ps ->
  exists bits, RsDec.assign_recovered (number B0 d) rec arr (map unassigned ps) =
      (map (protected_at ssrc B0 orig (have (known rec))) ps, bits) /\
    forall o, bit_of bits o = bit_of arr o || bool_decide ((d + o)%nat ∈ ps) && have (known rec) (d + o).
Proof.
  induction rec as [|r rec IHr]; intros ps arr Hrec Hs Hps.
  { exists arr. split.
    - destruct ps; [done|]. cbn. f_equal.
    - intros o. unfold have. rewrite (bool_decide_false (_ ∈ known [])) by (by apply not_elem_of_nil).
      by rewrite andb_false_r, orb_false_r. }
  destruct (recovered_at _ r Hrec ltac:(by left)) as (pr & Hpr & Er & Epkt & _).
  assert (Epos : pos B0 (rec_seq_num r) = pr) by (rewrite Er; apply pos_number; (done || lia)).
  revert arr. induction ps as [|p ps IHp]; intros arr.
  { exists arr. split; [done|]. intros o. rewrite bool_decide_false by (by apply not_elem_of_nil). by rewrite orb_false_r. }
  pose proof Hs as [Hs' Hlt]%StronglySorted_inv. apply Forall_cons in Hps as [[Hp1 Hp2] Hps'].
  cbn [map]. rewrite assign_recovered_cons. cbv zeta. change (pp_seq_num (unassigned p)) with (number B0 p). change (pp_ssrc (unassigned p)) with ssrc.
  rewrite Er, !(LessThan_session B0 B0_u16), !pos_number by (done || lia || by apply number_session).
  assert (Hsplit : forall (o : nat) (h : nat -> bool), bool_decide ((d + o)%nat ∈ p :: ps) && h (d + o)%nat =
      bool_decide (d + o = p)%nat && h p || bool_decide ((d + o)%nat ∈ ps) && h (d + o)%nat).
  { intros o h. destruct (decide (d + o = p)%nat) as [<-|Hne].
    - rewrite !(bool_decide_true (d + o = d + o)%nat), bool_decide_true by (done || by left).
      by destruct (h (d + o)%nat), (bool_decide _).
    - rewrite (bool_decide_false (d + o = p)%nat) by done. cbn [andb orb]. f_equal. apply bool_decide_ext. rewrite elem_of_cons. tauto. }
  destruct (Nat.ltb_spec p pr) as [Hlt1|Hge1].
  - destruct (IHp Hs' Hps' arr) as (bits & E & Hbits). fold (map unassigned ps). exists bits.
    split; [rewrite E; unfold protected_at at 2; by rewrite (have_before r rec p) by (done || lia)|].
    intros o. rewrite Hbits, Hsplit, (have_before r rec p) by (done || lia). by rewrite andb_false_r.
  - assert (Htail : recovered_good rec) by (by eapply recovered_tail).
    rewrite List.Forall_forall in Hlt.
    assert (Hbehind : forall q, q ∈ ps -> have (known (r :: rec)) q = have (known rec) q).
    { intros q Hq. apply have_behind; [done| |].
      - rewrite Forall_forall in Hps'. by apply Hps'.
      - specialize (Hlt q ltac:(by apply list_elem_of_In)). lia. }
    destruct (Nat.ltb_spec pr p) as [Hlt2|Hge2].
    + assert (Hp : have (known (r :: rec)) p = have (known rec) p) by (apply have_behind; (done || lia)).
      destruct (IHr (p :: ps) arr Htail Hs ltac:(by constructor)) as (bits & E & Hbits). exists bits. split.
      * cbn [map] in E. rewrite E. f_equal. f_equal; [unfold protected_at; by rewrite Hp|].
        apply map_ext_in. intros q Hq. unfold protected_at. by rewrite Hbehind by (by apply list_elem_of_In).
      * intros o. rewrite Hbits. f_equal. case_bool_decide as Hin; [|done]. cbn [andb].
        apply elem_of_cons in Hin as [->|Hin]; [done|]. by rewrite Hbehind.
    + assert (p = pr) as -> by lia.
      rewrite number_diff by lia. replace (Nat.max d pr - Nat.min d pr)%nat with (pr - d)%nat by lia.
      rewrite (proj2 (Z.ltb_lt (Z.of_nat (pr - d)) 32)) by lia.
      destruct (IHr ps (Z.lor arr (Z.shiftl 1 (Z.of_nat (pr - d)))) Htail Hs' Hps') as (bits & E & Hbits). exists bits.
      assert (Hpr1 : have (known (r :: rec)) pr = true) by (rewrite have_cons, Er; by rewrite bool_decide_true).
      rewrite E. split.
      * f_equal. f_equal; [unfold protected_at; by rewrite Hpr1, Epkt|]. apply map_ext_in. intros q Hq.
        unfold protected_at. by rewrite Hbehind by (by apply list_elem_of_In).
      * intros o. rewrite Hbits, bit_of_set, Hsplit, Hpr1, andb_true_r, <- orb_assoc. f_equal.
        assert (Eo : bool_decide (o = (pr - d)%nat) = bool_decide ((d + o)%nat = pr)) by (apply bool_decide_ext; lia).
        rewrite Eo. destruct (decide ((d + o)%nat ∈ ps)) as [Hin|Hin]; [by rewrite Hbehind|].
        by rewrite (bool_decide_false ((d + o)%nat ∈ ps)).
Qed.


(** ** FEC packets *)

(** [rp] carries a code word of the session. *)
Record fec_arrival (rp : ReceivedPacket) : Prop := {
  fec_arrival_fec : rp_is_fec rp = true;
  fec_arrival_ssrc : rp_ssrc rp = ssrc;
  fec_arrival_seq : in_session B0 (rp_seq_num rp);
  fec_arrival_code : exists d cur mask plen data,
    Rs.ReadFecHeader (unread (rp_ssrc rp) (rp_seq_num rp) (rp_pkt rp)) =
      Ok (Some (read_packet (rp_ssrc rp) (rp_seq_num rp) (number B0 d) cur mask plen data)) /\
    (d <= 96)%nat /\ is_byte cur /\ is_u32 mask /\ bit_of mask 0 = true /\
    bytes data /\ length data = (18 + plen)%nat /\ (plen <= 1482)%nat /\
    (forall i, coded i -> fec_byte 18 data i = code_byte orig d mask cur i) /\
    (forall o, bit_of mask o = true -> (d + o < 128)%nat /\ media_at (d + o))
}.

Lemma number_add d o : u16 (number B0 d + Z.of_nat o) = number B0 (d + o).
Proof. unfold number, uw. rewrite Zplus_mod_idemp_l. f_equal. lia. Qed.

Lemma mask_packets_ok ssrc' s d :
  Rs.seq_num_base s = number B0 d -> Rs.packet_mask_size s = 4%nat ->
  RsDec.mask_packets ssrc' s =
    map (fun o => mkProtectedPacket ssrc' (number B0 (d + o)) None) (positions_of 32 (Rs.mask s)).
Proof.
  intros Hb Hsz. unfold RsDec.mask_packets, positions_of, arrived. rewrite Hb, Hsz. change (4 * 8)%nat with 32%nat.
  induction (seq 0 32) as [|o os IH]; [done|]. cbn [omap list_omap]. rewrite filter_cons, IH. unfold bit_of.
  destruct (Z.testbit (Rs.mask s) (Z.of_nat o)); [|by rewrite decide_False].
  rewrite decide_True by done. cbn [map]. by rewrite number_add.
Qed.

(** The FEC packet after [AssignRecoveredPackets]. *)
Lemma AssignRecovered_ok rec sq d cur mask plen data :
  recovered_good rec -> (d <= 96)%nat -> is_byte cur -> is_u32 mask -> bit_of mask 0 = true ->
  bytes data -> length data = (18 + plen)%nat -> (plen <= 1482)%nat ->
  (forall i, coded i -> fec_byte 18 data i = code_byte orig d mask cur i) ->
  (forall o, bit_of mask o = true -> (d + o < 128)%nat /\ media_at (d + o)) ->
  let fp := read_packet ssrc sq (number B0 d) cur mask plen data in
  let pps := map (fun o => mkProtectedPacket ssrc (number B0 (d + o)) None) (positions_of 32 mask) in
  exists fp' ds, RsDec.AssignRecoveredPackets rec (RsDec.set_protected fp pps) = Ok fp' /\
    genuine (have (known rec)) ds fp' /\ reaches ds /\ Rs.fec_seq_num fp' = sq /\ Rs.maybe_loss_packets fp' = [] /\
    Forall (fun p => pp_ssrc p = ssrc) (Rs.protected_packets fp') /\
    ds.1 = d /\ Rs.mask ds.2 = mask /\ Rs.cur_base_num ds.2 = cur.
Proof.
  intros Hrec Hd Hcur Hmask H0 Hb Hlen Hplen Hcode Hreach fp pps.
  unfold RsDec.AssignRecoveredPackets, Rs.stream0, fp, read_packet, RsDec.set_protected, RsDec.set_streams.
  cbn [Rs.protected_streams]. rewrite bind_ok.
  cbn [Rs.seq_num_base Rs.arrive Rs.protected_packets Rs.fec_ssrc Rs.fec_seq_num Rs.maybe_loss_packets Rs.fec_header_size
    Rs.protected_streams Rs.protection_length Rs.pkt Rs.if_used tail].
  set (ps := map (fun o => (d + o)%nat) (positions_of 32 mask)).
  assert (Hpps : pps = map unassigned ps) by (unfold pps, ps; by rewrite map_map).
  assert (Hmem : forall o, (d + o)%nat ∈ ps <-> bit_of mask o = true).
  { intros o. unfold ps. rewrite list_elem_of_fmap. split.
    - intros (o' & E & Ho'). assert (o' = o) as -> by lia. by apply arrived_elem in Ho' as [_ ?].
    - intros Ho. exists o. split; [done|]. apply arrived_elem. split; [|done].
      destruct (decide (o < 32)%nat); [done|]. by rewrite (bit_of_uw 32) in Ho by (done || lia). }
  destruct (rs_assign_ok d rec ps 0 Hrec) as (bits & E & Hbits).
  { apply sorted_shift, filter_seq_sorted. }
  { apply Forall_fmap, Forall_forall. intros o Ho. apply arrived_elem in Ho as [Ho32 Ho]. cbn. destruct (Hreach o Ho). lia. }
  rewrite Hpps, E.
  assert (Hb0 : forall o, bit_of bits o = bit_of mask o && have (known rec) (d + o)).
  { intros o. rewrite Hbits. unfold bit_of at 1. rewrite Z.testbit_0_l. cbn [orb]. f_equal.
    destruct (bit_of mask o) eqn:Eo; [apply bool_decide_eq_true|apply bool_decide_eq_false]; rewrite Hmem; congruence. }
  eexists _, (d, RsDec.set_arrive (Rs.mkProtectedStream ssrc (number B0 d) cur 12 mask 0 4) bits).
  split; [reflexivity|]. split; [|split; [exact Hreach|split; [done|split; [done|split; [|done]]]]].
  - split; cbn [fst snd]; try done.
    + split; try done. cbn [RsDec.set_arrive Rs.arrive]. apply in_uw_bits; [lia|]. intros i Hi. pose proof (Hb0 (Z.to_nat i)) as Hbi. unfold bit_of in Hbi at 1.
      rewrite Z2Nat.id in Hbi by lia. etransitivity; [exact Hbi|]. by rewrite (bit_of_uw 32) by (done || lia).
    + cbn [Rs.protected_packets]. unfold ps. rewrite map_map. reflexivity.
  - cbn [Rs.protected_packets]. apply Forall_fmap, Forall_true. done.
Qed.

(** Fewer FEC packets, with their times. *)
Lemma ordered_sublist seqs seqs' : seqs' `sublist_of` seqs -> ordered B0 seqs -> ordered B0 seqs'.
Proof.
  intros Hsub [Hs Ho]. split; [by eapply Forall_sublist|by eapply sorted_sublist].
Qed.

Lemma inv_sub st seqs fecs times :
  inv st seqs -> fecs `sublist_of` RsDec.received_fec_packets_ st -> (forall f, f ∈ fecs -> RsDec.fec_seq f ∈ times) ->
  inv (RsDec.with_times (RsDec.with_fecs st fecs) times) seqs.
Proof.
  intros [I1 I2 I3 I4 I5 I6 I7 I8 I9 I10] Hsub Ht.
  split; cbn [RsDec.protected_media_ssrc_ RsDec.received_fec_packets_ RsDec.consider_loss_packets_ RsDec.fec_receive_time_
    RsDec.next_id RsDec.with_losses RsDec.with_fecs RsDec.with_times]; try done.
  - by eapply Forall_sublist.
  - eapply ordered_sublist; [|exact I4]. by apply (fmap_sublist RsDec.fec_seq).
  - eapply sublist_NoDup; [exact I5|]. by apply (fmap_sublist RsDec.fec_id).
  - by eapply Forall_sublist.
Qed.

(** The links of the FEC packets that were there, with the new packet's. *)
Lemma linked_relinks st seqs id a M f :
  inv st seqs -> assigned ssrc B0 (RsDec.consider_loss_packets_ st) id (S id) M a ->
  id = RsDec.next_id st -> f ∈ RsDec.received_fec_packets_ st ->
  linked (RsDec.as_losses a) f.
Proof.
  intros I A -> Hf. pose proof (inv_linked _ _ _ _ _ I) as HL. rewrite Forall_forall in HL. destruct (HL f Hf) as [Ln Li La Lr].
  pose proof (inv_fecs _ _ _ _ _ I) as HF. rewrite Forall_forall in HF. destruct (HF f Hf) as [_ Hid].
  assert (Hnew : forall q, q ∈ RsDec.as_losses a -> RsDec.loss_seq q ∉ map RsDec.loss_seq (RsDec.consider_loss_packets_ st) ->
    RsDec.loss_seq q ∉ miss (RsDec.fec f)).
  { intros q Hq Hn (q0 & Hq0 & E)%La. apply Hn, list_elem_of_fmap. eauto. }
  split; [done| | |].
  - intros x. rewrite Li. split.
    + intros (q0 & Hq0 & Hx & Hm). destruct (result_old _ _ _ _ _ _ _ A q0 Hq0) as (q & Hq & Hr). exists q. split; [done|].
      rewrite (relinked_seq _ _ _ _ Hr). destruct Hr as (-> & _). done.
    + intros (q & Hq & Hx & Hm). destruct (result_cases _ _ _ _ _ _ _ A q Hq) as [(q0 & Hq0 & Hr)|(_ & Hn & _)].
      * exists q0. split; [done|]. rewrite (relinked_seq _ _ _ _ Hr) in Hm. destruct Hr as (<- & _). done.
      * by apply Hnew in Hn.
  - intros s (q0 & Hq0 & <-)%La. destruct (result_old _ _ _ _ _ _ _ A q0 Hq0) as (q & Hq & Hr). exists q.
    split; [done|]. by eapply relinked_seq.
  - intros q Hq. destruct (result_cases _ _ _ _ _ _ _ A q Hq) as [(q0 & Hq0 & Hr)|(_ & Hn & _ & Href & _)].
    + rewrite (relinked_seq _ _ _ _ Hr), <- (Lr q0 Hq0). destruct Hr as (_ & _ & ->). rewrite elem_of_app. split; [|by left].
      intros [H|H]; [done|]. case_decide; [|by apply elem_of_nil in H]. apply list_elem_of_singleton in H. lia.
    + rewrite Href, list_elem_of_singleton. split; [lia|]. intros H. by apply Hnew in Hn.
Qed.

(** The new FEC packet's own links. *)
Lemma linked_new st seqs id a fp :
  inv st seqs -> id = RsDec.next_id st ->
  assigned ssrc B0 (RsDec.consider_loss_packets_ st) id (S id) (miss fp) a -> ordered B0 (miss fp) ->
  linked (RsDec.as_losses a) (RsDec.mkStoredFec id (RsDec.set_maybe_loss fp (RsDec.as_ids a))).
Proof.
  intros I -> A HM. pose proof (inv_losses _ _ _ _ _ I) as HL.
  assert (Hnext : Forall (fun q => RsDec.loss_id q < S (RsDec.next_id st))%nat (RsDec.consider_loss_packets_ st)).
  { eapply Forall_impl; [exact HL|]. intros q [_ _ H _]. lia. }
  destruct (result_entries ssrc B0 B0_u16 _ _ _ (inv_loss_order _ _ _ _ _ I) _ _ A HM (inv_loss_ids _ _ _ _ _ I) Hnext) as (H1 & H2 & H3).
  split; [done|exact H2|exact H3|]. intros q Hq. cbn [RsDec.fec_id].
  destruct (result_cases _ _ _ _ _ _ _ A q Hq) as [(q0 & Hq0 & Hr)|(Hm & _ & _ & Href & _)].
  - rewrite (relinked_seq _ _ _ _ Hr). destruct Hr as (_ & _ & ->). rewrite elem_of_app.
    rewrite Forall_forall in HL. destruct (HL q0 Hq0) as [_ _ _ Hrefs]. rewrite Forall_forall in Hrefs.
    change (miss (RsDec.fec _)) with (miss fp). case_decide as Hin.
    + split; [done|]. intros _. right. by left.
    + split; [|done]. intros [H|H]; [|by apply elem_of_nil in H]. specialize (Hrefs _ H). cbv beta in Hrefs. lia.
  - rewrite Href. split; [done|]. intros _. by left.
Qed.


(** [AssignMaybeLossPackets] for a FEC packet that is not stored yet. *)
Lemma AssignMaybeLoss_ok st seqs fp ds :
  inv st seqs -> genuine (have seqs) ds fp -> reaches ds -> Rs.maybe_loss_packets fp = [] ->
  Forall (fun p => pp_ssrc p = ssrc) (Rs.protected_packets fp) ->
  let id := RsDec.next_id st in
  exists losses next ids,
    RsDec.AssignMaybeLossPackets (RsDec.with_next st (id + 1)) id fp =
      (RsDec.with_next (RsDec.with_losses st losses) next, RsDec.set_maybe_loss fp ids) /\
    (id < next)%nat /\ ordered B0 (map RsDec.loss_seq losses) /\ NoDup (map RsDec.loss_id losses) /\
    Forall (loss_good ssrc seqs next) losses /\
    Forall (linked losses) (RsDec.received_fec_packets_ st) /\
    linked losses (RsDec.mkStoredFec id (RsDec.set_maybe_loss fp ids)).
Proof.
  intros I Hg Hr Hmaybe Hssrc id. pose proof (miss_ordered ssrc B0 orig B0_u16 _ _ _ Hg Hr) as HM.
  set (L0 := RsDec.consider_loss_packets_ st). pose proof (inv_loss_order _ _ _ _ _ I) as HL0. fold L0 in HL0.
  unfold RsDec.AssignMaybeLossPackets. cbn [RsDec.consider_loss_packets_ RsDec.with_next RsDec.next_id]. fold L0.
  rewrite Hmaybe, Nat.add_1_r. set (a := foldl _ _ _).
  assert (A : assigned ssrc B0 L0 id (S id) (miss fp) a).
  { apply (assigned_loop ssrc B0 B0_u16 L0 id (S id) HL0 (Rs.protected_packets fp) []); [by apply assigned_start|done|done]. }
  pose proof (inv_losses _ _ _ _ _ I) as HL. fold L0 in HL.
  assert (Hnext : Forall (fun q => RsDec.loss_id q < S id)%nat L0) by (eapply Forall_impl; [exact HL|]; intros q [_ _ H _]; lia).
  destruct (result_seqs ssrc B0 B0_u16 _ _ _ HL0 _ _ A HM) as [Hnds Hses].
  destruct (result_ids ssrc B0 _ _ _ _ _ A (inv_loss_ids _ _ _ _ _ I) Hnext) as [Hndi Hle].
  assert (Hperm : list_sort RsDec.loss_seq (RsDec.as_losses a) ≡ₚ RsDec.as_losses a) by apply list_sort_perm.
  assert (Hord : ordered B0 (map RsDec.loss_seq (list_sort RsDec.loss_seq (RsDec.as_losses a)))) by (by apply list_sort_ordered).
  pose proof (ordered_length B0 B0_u16 _ Hord) as Hlen. rewrite length_map in Hlen.
  change Rs.kMaxConsiderLossPackets with 128%nat.
  replace (length (list_sort RsDec.loss_seq (RsDec.as_losses a)) - 128)%nat with 0%nat by lia. rewrite drop_0.
  set (losses := list_sort RsDec.loss_seq (RsDec.as_losses a)) in *.
  assert (Hlinked : forall f, linked (RsDec.as_losses a) f -> linked losses f).
  { intros f [L1 L2 L3 L4]. split; [done| | |].
    - intros x. rewrite L2. setoid_rewrite Hperm. done.
    - intros s Hs. setoid_rewrite Hperm. by apply L3.
    - intros q Hq. apply L4. by rewrite <- Hperm. }
  exists losses, (RsDec.as_next a), (RsDec.as_ids a). split; [done|]. split_and!; [lia|done|by rewrite Hperm| | |].
  - rewrite Hperm. apply Forall_forall. intros q Hq. destruct (result_cases _ _ _ _ _ _ _ A q Hq) as [(q0 & Hq0 & Hrl)|(Hm & _ & Hs & Href & Hid)].
    + rewrite Forall_forall in HL. destruct (HL q0 Hq0) as [G1 G2 G3 G4]. pose proof (relinked_seq _ _ _ _ Hrl) as Esq.
      destruct Hrl as (E1 & E2 & E3). split; [by rewrite E2|by rewrite Esq|rewrite E1; fold id in G3; lia|].
      rewrite E3. apply Forall_app. split; [eapply Forall_impl; [exact G4|]; intros x Hx; cbv beta in *; fold id in Hx; lia|].
      case_decide; [apply Forall_singleton; lia|constructor].
    + split; [done| |lia|rewrite Href; apply Forall_singleton; lia].
      apply (miss_elem ssrc B0 orig _ _ _ _ Hg) in Hm as (o & Ho & Hh & ->). unfold have in Hh. by apply bool_decide_eq_false in Hh.
  - apply Forall_forall. intros f Hf. apply Hlinked. by eapply linked_relinks.
  - apply Hlinked. by eapply linked_new.
Qed.

(** The stored FEC packets when one more comes in. *)
Definition stored_with (fecs : list RsDec.StoredFec) (f : RsDec.StoredFec) : list RsDec.StoredFec :=
  let fecs := list_sort RsDec.fec_seq (fecs ++ [f]) in
  if decide (32 < length fecs)%nat then tail fecs else fecs.

Lemma rs_insert_fec st rec rp :
  inv st (known rec) -> recovered_good rec -> fec_arrival rp ->
  exists st', RsDec.InsertFecPacket st rec rp = Ok st' /\ inv st' (known rec) /\
    (rp_seq_num rp ∈ map RsDec.fec_seq (RsDec.received_fec_packets_ st) /\ st' = st \/
     (rp_seq_num rp ∉ map RsDec.fec_seq (RsDec.received_fec_packets_ st)) /\
     exists f ds d cur mask plen data,
       Rs.ReadFecHeader (unread (rp_ssrc rp) (rp_seq_num rp) (rp_pkt rp)) =
         Ok (Some (read_packet (rp_ssrc rp) (rp_seq_num rp) (number B0 d) cur mask plen data)) /\
       RsDec.received_fec_packets_ st' = stored_with (RsDec.received_fec_packets_ st) f /\
       RsDec.fec_seq f = rp_seq_num rp /\ genuine (have (known rec)) ds (RsDec.fec f) /\ reaches ds /\
       ds.1 = d /\ Rs.mask ds.2 = mask /\ Rs.cur_base_num ds.2 = cur).
Proof.
  intros I Hrec [Hfec Hssrc Hseq (d & cur & mask & plen & data & Eread & Hd & Hcur & Hmask & H0 & Hb & Hlen & Hplen & Hcode & Hreach)].
  unfold RsDec.InsertFecPacket. destruct (existsb _ (RsDec.received_fec_packets_ st)) eqn:Edup.
  { exists st. split_and!; try done. left. split; [|done]. apply existsb_exists in Edup as (f & Hf & Ef%Z.eqb_eq).
    apply list_elem_of_fmap. exists f. split; [done|by apply list_elem_of_In]. }
  assert (Hnew : rp_seq_num rp ∉ map RsDec.fec_seq (RsDec.received_fec_packets_ st)).
  { intros (f & E & Hf)%list_elem_of_fmap. apply not_true_iff_false in Edup. apply Edup, existsb_exists. exists f.
    split; [by apply list_elem_of_In|]. by apply Z.eqb_eq. }
  unfold unread in Eread. rewrite Eread, bind_ok. unfold read_packet.
  lazymatch goal with |- context [rtc_check ?b] => change (rtc_check b) with (Ok tt) end. rewrite bind_ok.
  unfold Rs.stream0 at 1. cbn [Rs.protected_streams]. rewrite bind_ok. cbn [Rs.ssrc].
  rewrite (inv_ssrc _ _ _ _ _ I), Hssrc, Z.eqb_refl. cbn [negb Rs.pkt Rs.packet_mask_offset Rs.packet_mask_size].
  rewrite decide_False by lia. rewrite (mask_packets_ok ssrc _ d) by done. cbn [Rs.mask].
  destruct (AssignRecovered_ok rec (rp_seq_num rp) d cur mask plen data Hrec) as (fp & ds & Easg & Hg & Hr & Esq & Emaybe & Essrc & Ed & Em & Ec);
    [done..|]. cbv zeta in Easg. unfold read_packet in Easg.
  set (pps := map _ (positions_of 32 mask)) in *.
  assert (Hne : exists p0 pps0, pps = p0 :: pps0).
  { assert (Hin : 0%nat ∈ positions_of 32 mask) by (apply arrived_elem; split; [lia|done]). unfold pps.
    destruct (positions_of 32 mask) as [|o os]; [by apply elem_of_nil in Hin|]. cbn [map]. eauto. }
  destruct Hne as (p0 & pps0 & Epps). rewrite Epps in *. rewrite Easg, bind_ok. cbv zeta.
  destruct (AssignMaybeLoss_ok st (known rec) fp ds I Hg Hr Emaybe Essrc) as (losses & next & ids & -> & Hnext & Hlo & Hli & Hlg & HL & HLn).
  set (id := RsDec.next_id st) in *. set (f := RsDec.mkStoredFec id (RsDec.set_maybe_loss fp ids)) in *. rewrite bind_ok.
  set (sorted := list_sort RsDec.fec_seq (RsDec.received_fec_packets_ st ++ [f])).
  assert (Hperm : sorted ≡ₚ RsDec.received_fec_packets_ st ++ [f]) by apply list_sort_perm.
  assert (Hfgood : fec_good ssrc B0 orig (known rec) next f).
  { split; [|cbn; lia]. exists ds. split; [|done]. by eapply genuine_same; [|exact Hg]. }
  set (S := RsDec.mkDecoder (RsDec.ssrc_ st) (RsDec.protected_media_ssrc_ st) sorted losses
    (RsDec.fec_receive_time_ st ∪ {[rp_seq_num rp]}) next).
  assert (IS : inv S (known rec)).
  { destruct I as [I1 I2 I3 I4 I5 I6 I7 I8 I9 I10].
    split; cbn [RsDec.protected_media_ssrc_ RsDec.received_fec_packets_ RsDec.consider_loss_packets_ RsDec.fec_receive_time_
      RsDec.next_id S]; try done.
    - rewrite Hperm. apply Forall_app. split; [|by apply Forall_singleton]. eapply Forall_impl; [exact I3|]. intros x [Hx Hid].
      split; [done|]. fold id in Hid. lia.
    - apply list_sort_ordered; [done| |].
      + apply Forall_app. split; [|apply Forall_singleton; by rewrite Esq in * || (unfold RsDec.fec_seq; cbn; by rewrite Esq)].
        pose proof (ordered_session _ _ I4) as Hs. rewrite Forall_forall in Hs. apply Forall_forall. intros x Hx. apply Hs, list_elem_of_fmap. eauto.
      + rewrite map_app. apply NoDup_app. split_and!; [by apply (ordered_nodup B0 B0_u16)| |apply NoDup_singleton].
        intros x Hx ->%list_elem_of_singleton. apply Hnew. rewrite <- Esq. exact Hx.
    - rewrite Hperm, map_app. apply NoDup_app. split_and!; [done| |apply NoDup_singleton].
      intros x (f' & -> & Hf')%list_elem_of_fmap Hx%list_elem_of_singleton. cbn in Hx. rewrite Forall_forall in I3.
      destruct (I3 f' Hf') as [_ Hid]. fold id in Hid. lia.
    - rewrite Hperm. apply Forall_app. split; [done|by apply Forall_singleton].
    - intros x Hx. rewrite Hperm in Hx. apply elem_of_union. apply elem_of_app in Hx as [Hx|Hx]; [left; by apply I10|right].
      apply list_elem_of_singleton in Hx as ->. apply elem_of_singleton. exact Esq. }
  assert (Hfseq : RsDec.fec_seq f = rp_seq_num rp) by exact Esq.
  assert (Hgf : genuine (have (known rec)) ds (RsDec.fec f)) by (by eapply genuine_same; [|exact Hg]).
  assert (Hst : exists st', RsDec.with_times (RsDec.store_fec (RsDec.with_next (RsDec.with_losses st losses) next) f)
      (RsDec.fec_receive_time_ (RsDec.store_fec (RsDec.with_next (RsDec.with_losses st losses) next) f) ∪ {[rp_seq_num rp]}) = st' /\
    inv st' (known rec) /\ RsDec.received_fec_packets_ st' = stored_with (RsDec.received_fec_packets_ st) f).
  { eexists. split; [done|]. unfold RsDec.store_fec, stored_with. cbn [RsDec.received_fec_packets_ RsDec.with_next RsDec.with_losses].
    fold sorted. change Rs.kMaxFecPackets with 32%nat.
    destruct sorted as [|front rest] eqn:Es; [by apply Permutation_nil_l in Hperm; destruct (RsDec.received_fec_packets_ st)|].
    destruct (decide (32 < length (front :: rest))%nat); [|by split].
    split; [|done]. apply (inv_sub S (known rec) rest); [done|by apply sublist_cons|].
    intros x Hx. cbn [RsDec.fec_receive_time_ RsDec.with_times RsDec.with_fecs RsDec.with_next RsDec.with_losses].
    pose proof (inv_times _ _ _ _ _ IS x ltac:(by right)) as Ht. cbn in Ht.
    pose proof (ordered_nodup B0 B0_u16 _ (inv_fec_order _ _ _ _ _ IS)) as Hnd. cbn in Hnd. apply NoDup_cons in Hnd as [Hn _].
    assert (Hxf : RsDec.fec_seq x <> RsDec.fec_seq front) by (intros E; apply Hn; rewrite <- E; apply list_elem_of_fmap; eauto).
    rewrite elem_of_union, elem_of_difference, !elem_of_singleton in *. tauto. }
  destruct Hst as (st' & -> & I' & Efecs). exists st'. split_and!; try done. right. split; [done|].
  exists f, ds, d, cur, mask, plen, data. rewrite Hssrc in *. split_and!; try done.
Qed.


(** ** [InsertPacket] *)

Lemma keep_near {A} (key : A -> Z) s l :
  in_session B0 s -> ordered B0 (map key l) -> RsDec.discard_old key 128 s l = l.
Proof.
  intros Hs [Ho _]. destruct l as [|x l]; [done|]. cbn [map RsDec.discard_old] in *. apply Forall_cons in Ho as [Hx _].
  rewrite (proj2 (Z.ltb_ge _ _)); [done|]. pose proof (session_near B0 _ _ Hs Hx). lia.
Qed.

(** Nothing in a session is old. *)
Lemma InsertPacket_eq st seqs rec rp :
  inv st seqs -> in_session B0 (rp_seq_num rp) ->
  RsDec.InsertPacket st rp rec =
  let! (st, rec) := if rp_is_fec rp then let! st := RsDec.InsertFecPacket st rec rp in Ok (st, rec)
                    else RsDec.InsertMediaPacket st rec rp in
  Ok (st, RsDec.DiscardOldRecoveredPackets rec).
Proof.
  intros I Hs. unfold RsDec.InsertPacket.
  pose proof (keep_near RsDec.fec_seq _ _ Hs (inv_fec_order _ _ _ _ _ I)) as E1.
  pose proof (keep_near RsDec.loss_seq _ _ Hs (inv_loss_order _ _ _ _ _ I)) as E2.
  unfold RsDec.kOldSequenceThreshold, RsDec.kConsiderLossSeqThreadshold. rewrite E1.
  replace (match RsDec.received_fec_packets_ st with [] => st | front :: _ =>
     if rp_ssrc rp =? Rs.fec_ssrc (RsDec.fec front) then RsDec.with_fecs st (RsDec.received_fec_packets_ st) else st end) with st.
  2:{ destruct st as [a b [|f fs] c d e]; [done|]. cbn. by destruct (_ =? _). }
  rewrite E2.
  replace (match RsDec.consider_loss_packets_ st with [] => st | front :: _ =>
     if rp_ssrc rp =? Rs.loss_ssrc (RsDec.loss front) then RsDec.with_losses st (RsDec.consider_loss_packets_ st) else st end) with st.
  2:{ destruct st as [a b c [|f fs] d e]; [done|]. cbn. by destruct (_ =? _). }
  done.
Qed.

(** A packet of the session. *)
Definition arrival (rp : ReceivedPacket) : Prop := (exists p, media_arrival rp p) \/ fec_arrival rp.

Lemma arrival_session rp : arrival rp -> in_session B0 (rp_seq_num rp).
Proof. intros [(p & [_ Hp -> _ _])|[_ _ Hs _]]; [by apply number_session|done]. Qed.

Lemma rs_insert_packet st rec rp :
  inv st (known rec) -> recovered_good rec -> arrival rp ->
  exists st' rec', RsDec.InsertPacket st rp rec = Ok (st', rec') /\ inv st' (known rec') /\ recovered_good rec' /\
    (forall r, r ∈ rec -> r ∈ rec') /\
    (forall r, r ∈ rec' -> r ∈ rec \/ rec_returned r = true /\ rp_is_fec rp = false /\ rec_seq_num r = rp_seq_num rp) /\
    (forall p, media_arrival rp p -> number B0 p ∈ known rec').
Proof.
  intros I Hrec Ha. rewrite (InsertPacket_eq _ _ _ _ I (arrival_session _ Ha)). destruct Ha as [(p & Hm)|Hf].
  - rewrite (arrival_media _ _ Hm).
    destruct (InsertMediaPacket_ok st rec rp p I Hrec Hm) as (st' & rec' & -> & I' & Hrec' & Hel & Hsub & Hnew & _).
    rewrite bind_ok, keep_all by done. exists st', rec'. split_and!; try done; [|].
    { intros r [?|[? ?]]%Hnew; [by left|right]. split_and!; [done|done|done]. }
    intros q Hq. apply Hel. right.
    by rewrite <- (arrival_seq _ _ Hm), <- (arrival_seq _ _ Hq).
  - rewrite (fec_arrival_fec _ Hf). destruct (rs_insert_fec st rec rp I Hrec Hf) as (st' & -> & I' & _).
    rewrite !bind_ok, keep_all by done. exists st', rec. split_and!; try done.
    { by left. }
    intros q Hq.
    pose proof (arrival_media _ _ Hq). by rewrite (fec_arrival_fec _ Hf) in *.
Qed.

End Insert.
