(* ===== verification/RsAttempt.v ===== *)
(** * RsAttempt: one attempt to recover packets

    [AttemptRecovery] of the Reed-Solomon decoder: the FEC packets that are
    kept, what [SearchFECPacket] selects, and what becomes of the packets that
    [RecoverPacket] returns.  The search never goes out of bounds, and the FEC
    packets it selects are as many as the packets they miss. *)

From stdpp Require Import sorting gmap.
From S2P Require Import Prelude.
From S2P Require Import SeqNum.
From S2P Require Import FecTypes.
From S2P Require Import XorCode.
From S2P Require Import FecDecoder.
From S2P Require Import DecoderLemmas.
From S2P Require Import WindowSort.
From S2P Require Import CowBuffer.
From S2P Require Import Galois.
From S2P Require Import ReedSolSolve.
From S2P Require Import ReedSolRows.
From S2P Require Import RsCodec.
From S2P Require Import RsWindow.
From S2P Require Import RsRecover.
From S2P Require Import RsDecoder.
From S2P Require Import RsState.
From S2P Require Import RsLinks.
From S2P Require Import RsInsert.

Section Attempt.
Context {HP : Heap} {G : Galois} {GL : GaloisLaws G}.
Variables (ssrc B0 : Z) (orig : nat -> Packet).
Hypothesis B0_u16 : is_u16 B0.

Abbreviation genuine := (genuine ssrc B0 orig).
Abbreviation media_at := (media_at ssrc B0 orig).
Abbreviation reaches := (reaches ssrc B0 orig).
Abbreviation inv := (inv ssrc B0 orig).
Abbreviation have := (have B0).
Abbreviation recovered_good := (recovered_good ssrc B0 orig).
Abbreviation maybe f := (Rs.maybe_loss_packets (RsDec.fec f)).
Abbreviation fmiss f := (miss (RsDec.fec f)).

(** ** The FEC packets that are kept *)

(** The entries of [f] lead to the packets it misses, in order. *)
Definition ready (losses : list RsDec.ConsiderLossPacket) (f : RsDec.StoredFec) : Prop :=
  exists qs, RsDec.mapM_res (RsDec.deref_loss losses) (maybe f) = Ok qs /\ map RsDec.loss_seq qs = fmiss f /\
    Forall (fun q => q ∈ losses) qs.

Lemma deref_elem losses q :
  NoDup (map RsDec.loss_id losses) -> q ∈ losses -> RsDec.deref_loss losses (RsDec.loss_id q) = Ok q.
Proof.
  intros Hnd Hq. unfold RsDec.deref_loss. pose proof (lock_loss_elem losses [] q Hnd Hq) as E. rewrite app_nil_r in E.
  by rewrite E.
Qed.

Lemma deref_all losses ids :
  NoDup (map RsDec.loss_id losses) ->
  Forall (fun id => exists q, q ∈ losses /\ RsDec.loss_id q = id) ids ->
  exists qs, RsDec.mapM_res (RsDec.deref_loss losses) ids = Ok qs /\
    Forall2 (fun id q => q ∈ losses /\ RsDec.loss_id q = id) ids qs.
Proof.
  intros Hnd Hall. apply mapM_res_ok. intros id Hid. rewrite Forall_forall in Hall. destruct (Hall id Hid) as (q & Hq & <-).
  exists q. split; [by apply deref_elem|done].
Qed.

(** [f'] is [f] with its entries sorted. *)
Record tidied (losses : list RsDec.ConsiderLossPacket) (f f' : RsDec.StoredFec) : Prop := {
  tidied_id : RsDec.fec_id f' = RsDec.fec_id f;
  tidied_fec : exists ids, RsDec.fec f' = RsDec.set_maybe_loss (RsDec.fec f) ids;
  tidied_linked : linked losses f';
  tidied_ready : ready losses f'
}.

Lemma tidied_miss losses f f' : tidied losses f f' -> fmiss f' = fmiss f /\ RsDec.fec_seq f' = RsDec.fec_seq f.
Proof. intros [_ (ids & E) _ _]. unfold RsDec.fec_seq. by rewrite E. Qed.

Lemma tidy_ok losses f :
  ordered B0 (map RsDec.loss_seq losses) -> NoDup (map RsDec.loss_id losses) -> linked losses f -> ordered B0 (fmiss f) ->
  exists qs, RsDec.mapM_res (RsDec.deref_loss losses) (maybe f) = Ok qs /\
    tidied losses f (RsDec.mkStoredFec (RsDec.fec_id f)
      (RsDec.set_maybe_loss (RsDec.fec f) (map RsDec.loss_id (list_sort RsDec.loss_seq qs)))).
Proof.
  intros Ho Hnd L HM. pose proof (linked_lockable losses f L) as [Hn Hlock].
  destruct (deref_all losses (maybe f) Hnd Hlock) as (qs & E & HF). exists qs. split; [done|].
  assert (Eids : map RsDec.loss_id qs = maybe f).
  { clear -HF. induction HF as [|id q l l' [_ H] _ IH]; [done|]. cbn [map]. by rewrite H, IH. }
  assert (Hin : Forall (fun q => q ∈ losses) qs).
  { apply Forall_lookup. intros i q Hi. by destruct (Forall2_lookup_r _ _ _ _ _ HF Hi) as (? & _ & ? & _). }
  assert (Hperm : list_sort RsDec.loss_seq qs ≡ₚ qs) by apply list_sort_perm.
  pose proof (ordered_session _ _ Ho) as Hses. rewrite Forall_forall in Hses.
  assert (Hqnd : NoDup (map RsDec.loss_seq qs)).
  { rewrite <- Eids in Hn. apply NoDup_fmap_2_strong; [|exact (NoDup_fmap_1 RsDec.loss_id qs Hn)].
    intros x y Hx Hy Exy. rewrite Forall_forall in Hin. apply (keys_inj RsDec.loss_seq losses); auto. by apply (ordered_nodup B0 B0_u16). }
  assert (Hord : ordered B0 (map RsDec.loss_seq (list_sort RsDec.loss_seq qs))).
  { apply list_sort_ordered; [done| |done]. eapply Forall_impl; [exact Hin|]. intros q Hq. apply Hses, list_elem_of_fmap. eauto. }
  assert (Hmiss : map RsDec.loss_seq (list_sort RsDec.loss_seq qs) = fmiss f).
  { apply (ordered_ext B0 B0_u16); [done|done|]. intros s. rewrite Hperm, list_elem_of_fmap. split.
    - intros (q & -> & Hq). assert (Hid : RsDec.loss_id q ∈ maybe f) by (rewrite <- Eids; apply list_elem_of_fmap; eauto).
      apply (linked_ids _ _ L) in Hid as (q' & Hq' & Eq & Hm). rewrite Forall_forall in Hin.
      by rewrite <- (keys_inj RsDec.loss_id losses q' q) by auto.
    - intros Hs. destruct (linked_all _ _ L s Hs) as (q & Hq & <-).
      assert (Hid : RsDec.loss_id q ∈ maybe f) by (apply (linked_ids _ _ L); eauto). rewrite <- Eids in Hid.
      apply list_elem_of_fmap in Hid as (q' & Eq & Hq'). exists q'. split; [|done]. f_equal. rewrite Forall_forall in Hin.
      eapply (keys_inj RsDec.loss_id); eauto. }
  split; cbn [RsDec.fec_id RsDec.fec]; [done|by eexists| |].
  - destruct L as [L1 L2 L3 L4]. split; cbn.
    + rewrite Hperm, Eids. done.
    + intros x. rewrite Hperm, Eids. apply L2.
    + apply L3.
    + apply L4.
  - exists (list_sort RsDec.loss_seq qs). split_and!; [|done|by rewrite Hperm]. cbn.
    assert (Hin' : Forall (fun q => q ∈ losses) (list_sort RsDec.loss_seq qs)) by (by rewrite Hperm).
    clear -Hin' Hnd. induction Hin' as [|q l Hq _ IH]; [done|]. cbn [map RsDec.mapM_res].
    by rewrite deref_elem, bind_ok, IH, bind_ok.
Qed.

Lemma NumCovered_zero pps : (NumCoveredPacketsMissing pps =? 0)%nat = bool_decide (map pp_seq_num (missing pps) = []).
Proof.
  rewrite NumCovered_spec. destruct (missing pps); [done|]. cbn [length map]. rewrite bool_decide_false by done.
  apply Nat.eqb_neq. lia.
Qed.

Lemma fec_not_old seqs rec f :
  fec_good ssrc B0 orig seqs (S (RsDec.fec_id f)) f -> ordered B0 (known rec) -> RsDec.IsOldFecPacket (RsDec.fec f) rec = Ok false.
Proof.
  intros [(ds & Hg & Hr) _] Ho. unfold RsDec.IsOldFecPacket. destruct (last rec) as [back|] eqn:Eb; [|done].
  pose proof (protected_ordered ssrc B0 orig B0_u16 _ _ _ Hg Hr) as Hp.
  assert (Hne : Rs.protected_packets (RsDec.fec f) <> []).
  { rewrite (genuine_protected _ _ _ _ _ _ Hg). intros E. apply map_eq_nil in E.
    assert (Hin : 0%nat ∈ positions_of 32 (Rs.mask ds.2)) by (apply arrived_elem; split; [lia|apply Hg]).
    rewrite E in Hin. by apply elem_of_nil in Hin. }
  destruct (last (Rs.protected_packets (RsDec.fec f))) as [pp|] eqn:Epp; [|by apply last_None in Epp].
  rewrite (proj2 (Z.ltb_ge _ _)); [done|]. unfold RsDec.kOldSequenceThreshold.
  assert (H1 : in_session B0 (rec_seq_num back)).
  { pose proof (ordered_session _ _ Ho) as Hs. rewrite Forall_forall in Hs. apply Hs, list_elem_of_fmap. exists back. split; [done|].
    by apply last_Some_elem_of in Eb. }
  assert (H2 : in_session B0 (pp_seq_num pp)).
  { pose proof (ordered_session _ _ Hp) as Hs. rewrite Forall_forall in Hs. apply Hs, list_elem_of_fmap. exists pp. split; [done|].
    by apply last_Some_elem_of in Epp. }
  pose proof (session_near B0 _ _ H1 H2). lia.
Qed.

Lemma ensure_ok losses seqs rec next fecs : forall times,
  ordered B0 (map RsDec.loss_seq losses) -> NoDup (map RsDec.loss_id losses) -> ordered B0 (known rec) ->
  Forall (linked losses) fecs -> Forall (fec_good ssrc B0 orig seqs next) fecs ->
  exists fecs' times', RsDec.ensure_valid losses rec fecs times = Ok (fecs', times') /\
    Forall2 (tidied losses) (filter (fun f => fmiss f <> []) fecs) fecs' /\
    forall s, s ∈ times -> s ∉ map RsDec.fec_seq (filter (fun f => fmiss f = []) fecs) -> s ∈ times'.
Proof.
  induction fecs as [|f fecs IH]; intros times Ho Hnd Hrec HL HG; cbn [RsDec.ensure_valid].
  { exists [], times. split_and!; [done|constructor|done]. }
  apply Forall_cons in HL as [L HL], HG as [Hg HG].
  destruct (good_fec _ _ _ _ _ _ Hg) as (ds & Hgen & Hr). pose proof (miss_ordered ssrc B0 orig B0_u16 _ _ _ Hgen Hr) as HM.
  assert (Hflag : forallb (fun id => bool_decide (is_Some (RsDec.lock_loss losses id))) (maybe f) = true).
  { apply forallb_forall. intros id Hid. apply bool_decide_eq_true. destruct (linked_lockable losses f L) as [_ Hlock].
    rewrite List.Forall_forall in Hlock. destruct (Hlock id Hid) as (q & Hq & <-).
    pose proof (lock_loss_elem losses [] q Hnd Hq) as E. rewrite app_nil_r in E. rewrite E. eauto. }
  rewrite Hflag. cbn [negb]. rewrite NumCovered_zero. fold (miss (RsDec.fec f)). rewrite !filter_cons.
  destruct (decide (fmiss f = [])) as [Hz|Hz].
  - rewrite bool_decide_true, bind_ok by done. rewrite (decide_False (P := fmiss f <> [])) by tauto.
    destruct (IH (times ∖ {[RsDec.fec_seq f]}) Ho Hnd Hrec HL HG) as (fecs' & times' & -> & HF & Ht).
    exists fecs', times'. split_and!; [done|done|]. intros s Hs Hn. cbn [map] in Hn. apply not_elem_of_cons in Hn as [Hne Hn].
    apply Ht; [|done]. apply elem_of_difference. by rewrite elem_of_singleton.
  - rewrite bool_decide_false by done. rewrite (decide_True (P := fmiss f <> [])) by done.
    assert (Hg1 : fec_good ssrc B0 orig seqs (S (RsDec.fec_id f)) f) by (split; [apply Hg|lia]).
    rewrite (fec_not_old seqs rec f Hg1 Hrec), bind_ok.
    destruct (tidy_ok losses f Ho Hnd L HM) as (qs & -> & Htidy). rewrite bind_ok.
    destruct (IH times Ho Hnd Hrec HL HG) as (fecs' & times' & -> & HF & Ht). rewrite bind_ok.
    eexists _, times'. split; [done|]. split; [by constructor|done].
Qed.


(** ** Packets nobody misses *)

(** [q'] is [q] with its references cleaned. *)
Lemma unreferenced_elem fecs losses q' :
  q' ∈ RsDec.erase_unreferenced fecs losses <->
  exists q, q ∈ losses /\ q' = RsDec.set_references q (RsDec.DeleteUnavailableFec fecs (RsDec.reference_fec_packets q)) /\
    RsDec.DeleteUnavailableFec fecs (RsDec.reference_fec_packets q) <> [].
Proof.
  unfold RsDec.erase_unreferenced. rewrite list_elem_of_filter, list_elem_of_fmap. split.
  - intros [Hne (q & -> & Hq)]. eauto.
  - intros (q & Hq & -> & Hne). split; [done|]. eauto.
Qed.

Lemma unreferenced_sub {A} (key : RsDec.ConsiderLossPacket -> A) fecs losses :
  (forall q ids, key (RsDec.set_references q ids) = key q) ->
  map key (RsDec.erase_unreferenced fecs losses) `sublist_of` map key losses.
Proof.
  intros Hkey. unfold RsDec.erase_unreferenced. induction losses as [|q losses IH]; [done|]. cbn [map].
  rewrite filter_cons. case_decide; [|by apply sublist_cons]. cbn [map]. rewrite Hkey. by apply sublist_skip.
Qed.

Lemma alive_refs fecs ids f : f ∈ fecs -> RsDec.fec_id f ∈ RsDec.DeleteUnavailableFec fecs ids <-> RsDec.fec_id f ∈ ids.
Proof.
  intros Hf. unfold RsDec.DeleteUnavailableFec. rewrite list_elem_of_filter. split; [tauto|]. intros H. split; [|done].
  unfold RsDec.fec_alive. apply existsb_exists. exists f. split; [by apply list_elem_of_In|apply Nat.eqb_refl].
Qed.

(** A packet that a FEC packet misses stays. *)
Lemma unreferenced_keeps fecs losses f q :
  f ∈ fecs -> linked losses f -> q ∈ losses -> RsDec.loss_seq q ∈ fmiss f ->
  exists q', q' ∈ RsDec.erase_unreferenced fecs losses /\ RsDec.loss_id q' = RsDec.loss_id q /\ RsDec.loss q' = RsDec.loss q.
Proof.
  intros Hf L Hq Hm. exists (RsDec.set_references q (RsDec.DeleteUnavailableFec fecs (RsDec.reference_fec_packets q))). split; [|done]. apply unreferenced_elem. exists q. split_and!; [done|done|].
  apply (linked_refs _ _ L q Hq) in Hm. apply (alive_refs fecs _ f Hf) in Hm. intros E. rewrite E in Hm. by apply elem_of_nil in Hm.
Qed.

Lemma unreferenced_linked fecs losses f :
  f ∈ fecs -> linked losses f -> linked (RsDec.erase_unreferenced fecs losses) f.
Proof.
  intros Hf L. pose proof L as [L1 L2 L3 L4]. split; [done| | |].
  - intros id. rewrite L2. split.
    + intros (q & Hq & Hid & Hm). destruct (unreferenced_keeps fecs losses f q Hf L Hq Hm) as (q' & Hq' & E1 & E2). exists q'.
      unfold RsDec.loss_seq. rewrite E1, E2. done.
    + intros (q' & Hq' & Hid & Hm). apply unreferenced_elem in Hq' as (q & Hq & -> & _). eauto.
  - intros s Hs. destruct (L3 s Hs) as (q & Hq & <-).
    destruct (unreferenced_keeps fecs losses f q Hf L Hq Hs) as (q' & Hq' & _ & E). exists q'. split; [done|].
    unfold RsDec.loss_seq. by rewrite E.
  - intros q' (q & Hq & -> & _)%unreferenced_elem. cbn. rewrite (alive_refs fecs _ f Hf). exact (L4 q Hq).
Qed.

Lemma unreferenced_ready fecs losses f :
  NoDup (map RsDec.loss_id losses) -> f ∈ fecs -> linked losses f -> ready losses f ->
  ready (RsDec.erase_unreferenced fecs losses) f.
Proof.
  intros Hnd Hf L (qs & E & Hseqs & Hin).
  assert (Hnd' : NoDup (map RsDec.loss_id (RsDec.erase_unreferenced fecs losses)))
    by (eapply sublist_NoDup; [exact Hnd|by apply unreferenced_sub]).
  pose proof (unreferenced_linked fecs losses f Hf L) as L'. destruct (linked_lockable _ _ L') as [_ Hlock].
  destruct (deref_all _ (maybe f) Hnd' Hlock) as (qs' & E' & HF'). exists qs'. split; [done|]. split.
  - rewrite <- Hseqs. destruct (linked_lockable _ _ L) as [_ Hlock0].
    destruct (deref_all _ (maybe f) Hnd Hlock0) as (qs0 & E0 & HF0). rewrite E in E0. injection E0 as <-.
    clear -HF' HF0 Hnd. revert qs HF0. induction HF' as [|id q' ids qs' [Hq' Hid] _ IH]; intros qs HF0.
    { by apply Forall2_nil_inv_l in HF0 as ->. }
    apply Forall2_cons_inv_l in HF0 as (q & qs0 & [Hq Hid'] & HF0 & ->). cbn [map]. f_equal; [|by apply IH].
    apply unreferenced_elem in Hq' as (q2 & Hq2 & -> & _). cbn in Hid.
    by rewrite (keys_inj RsDec.loss_id losses q2 q) by (done || congruence).
  - apply Forall_lookup. intros i q Hi. by destruct (Forall2_lookup_r _ _ _ _ _ HF' Hi) as (? & _ & ? & _).
Qed.

(** ** The state the search starts from *)

Lemma prepare_ok st rec :
  inv st (known rec) -> recovered_good rec ->
  exists fecs times,
    RsDec.ensure_valid (RsDec.consider_loss_packets_ st) rec (RsDec.received_fec_packets_ st) (RsDec.fec_receive_time_ st) =
      Ok (fecs, times) /\
    let losses := RsDec.erase_unreferenced fecs (RsDec.consider_loss_packets_ st) in
    inv (RsDec.with_losses (RsDec.with_times (RsDec.with_fecs st fecs) times) losses) (known rec) /\
    Forall2 (fun f f' => RsDec.fec_id f' = RsDec.fec_id f /\ exists ids, RsDec.fec f' = RsDec.set_maybe_loss (RsDec.fec f) ids)
      (filter (fun f => fmiss f <> []) (RsDec.received_fec_packets_ st)) fecs /\
    Forall (ready losses) fecs.
Proof.
  intros I [Hro _]. set (losses := RsDec.consider_loss_packets_ st). set (fecs0 := RsDec.received_fec_packets_ st).
  pose proof (inv_loss_order _ _ _ _ _ I) as Hlo. pose proof (inv_loss_ids _ _ _ _ _ I) as Hli. fold losses in Hlo, Hli.
  pose proof (inv_linked _ _ _ _ _ I) as HL. pose proof (inv_fecs _ _ _ _ _ I) as HG. fold losses fecs0 in HL, HG.
  destruct (ensure_ok losses (known rec) rec (RsDec.next_id st) fecs0 (RsDec.fec_receive_time_ st) Hlo Hli Hro HL HG)
    as (fecs & times & E & HF & Ht).
  exists fecs, times. split; [exact E|]. cbv zeta. fold losses.
  set (kept := filter (fun f => fmiss f <> []) fecs0) in *.
  assert (Hsub : kept `sublist_of` fecs0) by apply sublist_filter.
  assert (Eids : map RsDec.fec_id fecs = map RsDec.fec_id kept).
  { clear -HF. induction HF as [|f f' l l' H _ IH]; [done|]. cbn [map]. by rewrite IH, (tidied_id _ _ _ H). }
  assert (Eseqs : map RsDec.fec_seq fecs = map RsDec.fec_seq kept).
  { clear -HF. induction HF as [|f f' l l' H _ IH]; [done|]. cbn [map]. by rewrite IH, (proj2 (tidied_miss _ _ _ H)). }
  assert (Htid : forall f', f' ∈ fecs -> exists f, f ∈ kept /\ tidied losses f f').
  { intros f' Hf'. apply list_elem_of_lookup in Hf' as [i Hi]. destruct (Forall2_lookup_r _ _ _ _ _ HF Hi) as (f & Hf & H).
    exists f. split; [by eapply list_elem_of_lookup_2|done]. }
  split_and!.
  - destruct I as [I1 I2 I3 I4 I5 I6 I7 I8 I9 I10].
    split; cbn [RsDec.protected_media_ssrc_ RsDec.received_fec_packets_ RsDec.consider_loss_packets_ RsDec.fec_receive_time_
      RsDec.next_id RsDec.with_losses RsDec.with_fecs RsDec.with_times]; try done.
    + apply Forall_forall. intros f' Hf'. destruct (Htid f' Hf') as (f & Hf & T). rewrite Forall_forall in HG.
      destruct (HG f) as [(ds & Hg & Hr) Hid]; [by eapply elem_of_sublist|]. split; [|by rewrite (tidied_id _ _ _ T)].
      exists ds. split; [|done]. destruct (tidied_fec _ _ _ T) as (ids & ->). by eapply genuine_same; [|exact Hg].
    + rewrite Eseqs. eapply ordered_sublist; [|exact I4]. by apply (fmap_sublist RsDec.fec_seq).
    + rewrite Eids. eapply sublist_NoDup; [exact I5|]. by apply (fmap_sublist RsDec.fec_id).
    + apply Forall_forall. intros q' (q & Hq & -> & _)%unreferenced_elem. rewrite Forall_forall in I6. destruct (I6 q Hq) as [G1 G2 G3 G4].
      split; try done. cbn. unfold RsDec.DeleteUnavailableFec. eapply Forall_sublist; [apply sublist_filter|exact G4].
    + eapply ordered_sublist; [by apply unreferenced_sub|done].
    + eapply sublist_NoDup; [exact Hli|by apply unreferenced_sub].
    + apply Forall_forall. intros f' Hf'. destruct (Htid f' Hf') as (f & _ & T). apply unreferenced_linked; [done|apply T].
    + intros f' Hf'. destruct (Htid f' Hf') as (f & Hf & T). rewrite (proj2 (tidied_miss _ _ _ T)).
      assert (Hf0 : f ∈ fecs0) by (by eapply elem_of_sublist). apply Ht; [by apply I10|].
      intros (f2 & Es & [Hz Hf2]%list_elem_of_filter)%list_elem_of_fmap.
      assert (f2 = f) as -> by (eapply (keys_inj RsDec.fec_seq fecs0); try done; by apply (ordered_nodup B0 B0_u16)).
      by apply list_elem_of_filter in Hf as [? _].
  - eapply Forall2_impl; [exact HF|]. intros f f' T. split; apply T.
  - apply Forall_forall. intros f' Hf'. destruct (Htid f' Hf') as (f & _ & T). apply unreferenced_ready; [done|done|apply T..].
Qed.

End Attempt.

(** ** The FEC packets that can be solved together *)

Section Search.
Variable B0 : Z.
Hypothesis B0_u16 : is_u16 B0.

Abbreviation ordered := (ordered B0).
Abbreviation pos := (pos B0).
Abbreviation fmiss f := (miss (RsDec.fec f)).
Abbreviation seqs := (map RsDec.loss_seq).

Lemma ordered_cons s l : ordered (s :: l) <-> in_session B0 s /\ ordered l /\ Forall (fun x => pos s < pos x)%nat l.
Proof.
  split.
  - intros [[Hs Hl]%Forall_cons Ho]. apply StronglySorted_inv in Ho as [Ho Hb]. split_and!; [done|by split|].
    rewrite List.Forall_forall in Hb. apply Forall_forall. intros x Hx. rewrite Forall_forall in Hl.
    apply (session_before B0 B0_u16); [done|by apply Hl|]. by apply Hb, list_elem_of_In.
  - intros (Hs & [Hl Ho] & Hb). split; [by constructor|]. constructor; [done|]. apply List.Forall_forall.
    intros x Hx%list_elem_of_In. rewrite Forall_forall in Hl, Hb. apply (session_before B0 B0_u16); auto.
Qed.

Lemma ordered_nil : ordered [].
Proof. split; constructor. Qed.

Lemma match_selected_cons q missing s selected :
  RsDec.match_selected (q :: missing) (s :: selected) =
  if LessThan (RsDec.loss_seq s) (RsDec.loss_seq q) then RsDec.match_selected (q :: missing) selected
  else if RsDec.loss_seq s =? RsDec.loss_seq q then RsDec.match_selected missing selected else None.
Proof. by destruct selected. Qed.

(** [match_selected] gives back what is missing and not selected yet, which
    comes after everything selected. *)
Lemma match_selected_ok missing : forall selected rest,
  ordered (seqs missing) -> ordered (seqs selected) -> RsDec.match_selected missing selected = Some (rest, []) ->
  ordered (seqs (selected ++ rest)) /\ rest `suffix_of` missing /\
  (forall s, s ∈ seqs (selected ++ rest) <-> s ∈ seqs selected \/ s ∈ seqs missing).
Proof.
  induction missing as [|q missing IH]; intros selected rest Hm Hs E.
  { cbn in E. injection E as <- ->. split_and!; [apply ordered_nil|by exists []|]. intros s. cbn. tauto. }
  pose proof Hm as (Hq & Hm' & Hqm)%ordered_cons. cbn [map] in Hqm. revert Hs E.
  induction selected as [|s0 selected IHs]; intros Hs E.
  { cbn in E. injection E as <-. split_and!; [done|by exists []|]. intros s. cbn [app map]. rewrite (elem_of_nil s). tauto. }
  rewrite match_selected_cons in E.
  cbn [map] in Hs. apply ordered_cons in Hs as (Hs0 & Hs & Hlt).
  rewrite (LessThan_session B0 B0_u16 _ _ Hs0 Hq) in E.
  assert (Hcons : forall l, Forall (fun s => (pos (RsDec.loss_seq s0) < pos s)%nat) (seqs l) -> rest `suffix_of` l ->
    ordered (seqs (selected ++ rest)) -> ordered (seqs (s0 :: selected ++ rest))).
  { intros l Hl [pre ->] Ho. cbn [map]. apply ordered_cons. split; [done|]. split; [done|]. rewrite map_app. apply Forall_app.
    split; [done|]. rewrite map_app in Hl. by apply Forall_app in Hl as [_ ?]. }
  destruct (Nat.ltb_spec (pos (RsDec.loss_seq s0)) (pos (RsDec.loss_seq q))) as [Hbefore|_].
  - destruct IHs as (Ho & Hsuf & Hel); [done|done|].
    cbn [app]. split_and!; [|done|].
    + apply (Hcons (q :: missing)); [|done|done]. cbn [map]. constructor; [done|]. eapply Forall_impl; [exact Hqm|]. cbv beta. lia.
    + intros s. cbn [map] in *. rewrite elem_of_cons, Hel, !elem_of_cons. tauto.
  - destruct (Z.eqb_spec (RsDec.loss_seq s0) (RsDec.loss_seq q)) as [Eq|]; [|done].
    destruct (IH selected rest Hm' Hs E) as (Ho & Hsuf & Hel). cbn [app]. split_and!.
    + apply (Hcons missing); [by rewrite Eq|done|done].
    + by apply suffix_cons_r.
    + intros s. cbn [map] in *. rewrite !elem_of_cons, Hel, Eq. tauto.
Qed.

(** ** What is selected *)

Section Selecting.
Variable losses : list RsDec.ConsiderLossPacket.

(** [sl] are the packets that the FEC packets [sf] miss. *)
Record selection (sf : list RsDec.StoredFec) (sl : list RsDec.ConsiderLossPacket) : Prop := {
  selection_order : ordered (seqs sl);
  selection_losses : Forall (fun q => q ∈ losses) sl;
  selection_miss s : s ∈ seqs sl <-> exists f, f ∈ sf /\ s ∈ fmiss f
}.

Record searchable (f : RsDec.StoredFec) : Prop := {
  searchable_ready : ready losses f;
  searchable_order : ordered (fmiss f);
  searchable_some : fmiss f <> []
}.

Lemma selection_nil : selection [] [].
Proof.
  split; [apply ordered_nil|constructor|]. intros s. cbn. split; [by intros ?%elem_of_nil|].
  intros (f & Hf & _). by apply elem_of_nil in Hf.
Qed.

Lemma selection_more sf sl f qs rest :
  selection sf sl -> map RsDec.loss_seq qs = fmiss f -> ordered (fmiss f) -> Forall (fun q => q ∈ losses) qs ->
  RsDec.match_selected qs sl = Some (rest, []) -> selection (sf ++ [f]) (sl ++ rest).
Proof.
  intros [Ho Hl Hel] Hqs Hf Hin E. rewrite <- Hqs in Hf. destruct (match_selected_ok qs sl rest Hf Ho E) as (Ho' & [pre ->] & Hel').
  split; [done| |].
  - apply Forall_app in Hin as [_ Hin]. by apply Forall_app.
  - intros s. rewrite Hel', Hel, Hqs. split.
    + intros [(f' & Hf' & Hs)|Hs]; [exists f'|exists f]; (split; [|done]); apply elem_of_app; [by left|right; by apply list_elem_of_singleton].
    + intros (f' & [Hf'| ->%list_elem_of_singleton]%elem_of_app & Hs); [left; eauto|by right].
Qed.

Definition solvable (sf : list RsDec.StoredFec) (sl : list RsDec.ConsiderLossPacket) : Prop :=
  selection sf sl /\ length sf = length sl /\ sf <> [].

Lemma search_finish sf sl (CMLP : list RsDec.ConsiderLossPacket) sf' sl' :
  selection sf sl ->
  (if (length CMLP =? 0)%nat && negb (length sf =? 0)%nat && (length sf =? length sl)%nat then Some (sf, sl) else None) =
    Some (sf', sl') ->
  solvable sf' sl' /\ sf' = sf.
Proof.
  intros Hsel E. destruct (_ && _) eqn:Ec; [|done]. injection E as <- <-. apply andb_true_iff in Ec as [[_ Hne]%andb_true_iff Hl].
  apply Nat.eqb_eq in Hl. split; [|done]. split_and!; [done|done|]. by intros ->.
Qed.

Lemma SearchFECPacket_ok fecs : forall sf sl CMLP,
  Forall searchable fecs -> selection sf sl -> (sl = [] \/ CMLP <> []) ->
  exists r, RsDec.SearchFECPacket losses fecs sf sl CMLP = Ok r /\
    forall sf' sl', r = Some (sf', sl') -> solvable sf' sl' /\ exists k, sf' = sf ++ take k fecs.
Proof.
  induction fecs as [|f fecs IH]; intros sf sl CMLP Hall Hsel Hne; cbn [RsDec.SearchFECPacket].
  { eexists. split; [reflexivity|]. intros sf' sl' E. destruct (search_finish _ _ _ _ _ Hsel E) as [Hs ->]. split; [done|].
    exists 0%nat. by rewrite app_nil_r. }
  apply Forall_cons in Hall as [[(qs & -> & Hqs & Hin) Hord Hsome] Hall]. rewrite bind_ok.
  destruct (RsDec.match_selected qs sl) as [[rest [|]]|] eqn:E; [|by exists None..].
  pose proof (selection_more sf sl f qs rest Hsel Hqs Hord Hin E) as Hsel'.
  assert (Hfirst : CMLP ++ rest <> []).
  { destruct Hne as [-> |Hne]; [|by destruct CMLP]. intros [_ ->]%app_eq_nil. destruct qs; [by rewrite <- Hqs in Hsome|done]. }
  destruct (CMLP ++ rest) as [|first [|next CMLP']]; [done|..]; (destruct (RsDec.meets qs first); [|by exists None]).
  - eexists. split; [reflexivity|]. intros sf' sl' E'. destruct (search_finish _ _ [] _ _ Hsel' E') as [Hs ->]. split; [done|].
    exists 1%nat. cbn. by rewrite take_0.
  - destruct (IH (sf ++ [f]) (sl ++ rest) (next :: CMLP') Hall Hsel') as (r & -> & Hr); [by right|]. exists r. split; [done|].
    intros sf' sl' E'. destruct (Hr sf' sl' E') as (Hs & k & ->). split; [done|]. exists (S k). cbn [take]. by rewrite <- app_assoc.
Qed.

Lemma search_ok fecs n :
  Forall searchable fecs ->
  exists r, RsDec.search losses fecs n = Ok r /\
    forall sf sl, r = Some (sf, sl) -> solvable sf sl /\ sf `sublist_of` fecs.
Proof.
  intros Hall. induction n as [|i IH]; cbn [RsDec.search]; [by exists None|].
  destruct (SearchFECPacket_ok (drop i fecs) [] [] []) as (r & -> & Hr); [by apply Forall_drop|apply selection_nil|by left|].
  rewrite bind_ok. destruct r as [[sf' sl']|]; [|done]. eexists. split; [reflexivity|]. intros sf sl [= -> ->].
  destruct (Hr sf sl eq_refl) as (Hs & k & ->). split; [done|]. cbn. etrans; [apply sublist_take|apply sublist_drop].
Qed.

End Selecting.
End Search.
