(* ===== verification/RsPublish.v ===== *)
(** * RsPublish: what an attempt recovers

    The selected FEC packets are brought into one window and solved
    ([RsRecover]); the packets recovered are published and the FEC packets used
    are erased.  Every step keeps the decoder's invariant ([RsLinks]). *)

From stdpp Require Import sorting gmap.
From S2P Require Import Prelude.
From S2P Require Import SeqNum.
From S2P Require Import FecTypes.
From S2P Require Import FecDecoder.
From S2P Require Import DecoderLemmas.
From S2P Require Import WindowSort.
From S2P Require Import CowBuffer.
From S2P Require Import Galois.
From S2P Require Import ReedSolMatrix.
From S2P Require Import ReedSolSolve.
From S2P Require Import ReedSolRows.
From S2P Require Import ReedSolGuarantees.
From S2P Require Import RsCodec.
From S2P Require Import RsWindow.
From S2P Require Import RsRecover.
From S2P Require Import RsDecoder.
From S2P Require Import RsState.
From S2P Require Import RsLinks.
From S2P Require Import RsInsert.
From S2P Require Import RsAttempt.

Lemma filter_agree {A} (P Q : A -> Prop) `{!forall x, Decision (P x), !forall x, Decision (Q x)} (l : list A) :
  (forall x, x ∈ l -> P x <-> Q x) -> filter P l = filter Q l.
Proof.
  induction l as [|x l IH]; intros Hpq; [done|]. rewrite !filter_cons, IH by (intros y Hy; apply Hpq; by right).
  by rewrite (decide_ext (P x) (Q x)) by (apply Hpq; by left).
Qed.


Lemma filter_split {A} (P : A -> Prop) `{!forall x, Decision (P x)} (l : list A) :
  (length (filter P l) + length (filter (fun x => ~ P x) l) = length l)%nat.
Proof. induction l as [|x l IH]; [done|]. rewrite !filter_cons. destruct (decide (P x)), (decide (~ P x)); cbn [length]; tauto || lia. Qed.

(** Erasing the elements with [keys]. *)
Lemma length_erased {A} (key : A -> Z) (keys : list Z) (l : list A) :
  NoDup (map key l) -> NoDup keys -> (forall k, k ∈ keys -> k ∈ map key l) ->
  length (filter (fun x => key x ∉ keys) l) = (length l - length keys)%nat.
Proof.
  intros Hl Hk Hin. rewrite <- (filter_split (fun x => key x ∈ keys) l).
  enough (length (filter (fun x => key x ∈ keys) l) = length keys) as -> by lia. rewrite <- (length_map key).
  apply Permutation_length, NoDup_Permutation; [by apply nodup_keys_filter|done|]. intros k. rewrite list_elem_of_fmap. split.
  - by intros (x & -> & [? _]%list_elem_of_filter).
  - intros H. pose proof (Hin k H) as (x & -> & Hx)%list_elem_of_fmap. exists x. split; [done|]. by apply list_elem_of_filter.
Qed.

Lemma take_time_ok sf : forall times,
  NoDup (map RsDec.fec_seq sf) -> Forall (fun f => RsDec.fec_seq f ∈ times) sf ->
  foldM RsDec.take_time sf times = Ok (times ∖ list_to_set (map RsDec.fec_seq sf)).
Proof.
  induction sf as [|f sf IH]; intros times Hnd Hin; cbn [foldM map].
  { f_equal. set_solver. }
  cbn [map] in Hnd. apply NoDup_cons in Hnd as [Hf Hnd]. apply Forall_cons in Hin as [Hin1 Hin].
  assert (E1 : RsDec.take_time times f = Ok (times ∖ {[RsDec.fec_seq f]})) by (unfold RsDec.take_time; by rewrite decide_True).
  rewrite E1, bind_ok. rewrite IH; [f_equal; set_solver|done|].
  apply Forall_forall. intros g Hg. rewrite Forall_forall in Hin. apply elem_of_difference. split; [by apply Hin|].
  rewrite elem_of_singleton. intros E. apply Hf. rewrite <- E. apply list_elem_of_fmap. eauto.
Qed.

Section Publish.
Context {HP : Heap} {G : Galois} {GL : GaloisLaws G}.
Variables (ssrc B0 : Z) (orig : nat -> Packet).
Hypothesis B0_u16 : is_u16 B0.

Abbreviation reaches := (reaches ssrc B0 orig).
Abbreviation inv := (inv ssrc B0 orig).
Abbreviation have := (have B0).
Abbreviation recovered_good := (recovered_good ssrc B0 orig).
Abbreviation fmiss f := (miss (RsDec.fec f)).
Abbreviation recovered_of := (recovered_of ssrc B0 orig).

(** ** Another origin *)

Lemma number_number b p : number (number B0 b) p = number B0 (b + p).
Proof. apply number_add. Qed.

(** The same media packets, counted from distance [b]. *)
Lemma genuine_shift hv b d s fp :
  genuine ssrc B0 orig hv (d, s) fp -> (b <= d)%nat ->
  genuine ssrc (number B0 b) (fun p => orig (b + p)%nat) (fun p => hv (b + p)%nat) ((d - b)%nat, s) fp.
Proof.
  intros [H1 [P1 P2 P3 P4] H3 H4 H5 H6 H7 H8 H9 H10 H11] Hb. cbn [fst snd] in *.
  assert (E : forall o, (b + (d - b + o))%nat = (d + o)%nat) by (intros; lia).
  split; cbn [fst snd]; try done.
  - split; [|lia|done|done]. rewrite P1, number_number. f_equal. lia.
  - intros o. by rewrite E.
  - rewrite H6. apply map_ext. intros o. unfold protected_at. rewrite E, number_number, E. done.
  - intros i Hi. rewrite H11 by done. unfold code_byte. apply gf_sum_ext. intros o _. by rewrite E.
Qed.

Lemma media_shift b p : media_at ssrc B0 orig (b + p) -> media_at ssrc (number B0 b) (fun p => orig (b + p)%nat) p.
Proof. intros [H1 H2 H3 H4]. split; try done. by rewrite number_number. Qed.

(** The streams of the FEC packets, counted from the smallest base. *)
Definition shifted (b : nat) (l : list (nat * Rs.ProtectedStream)) : list (nat * Rs.ProtectedStream) :=
  map (fun ds => ((ds.1 - b)%nat, ds.2)) l.

Lemma smallest_base (l : list (nat * Rs.ProtectedStream)) :
  l <> [] -> exists b s, (b, s) ∈ l /\ Forall (fun ds => b <= ds.1)%nat l.
Proof.
  induction l as [|[d s] l IH]; [done|]. intros _. destruct l as [|ds l]; [exists d, s; split; [by left|by repeat constructor]|].
  destruct IH as (b & s' & Hin & Hle); [done|]. destruct (decide (d <= b)%nat).
  - exists d, s. split; [by left|]. constructor; [done|]. eapply Forall_impl; [exact Hle|]. cbv beta. lia.
  - exists b, s'. split; [by right|]. constructor; [cbn; lia|done].
Qed.

Lemma shifted_union b l p :
  Forall (fun ds => b <= ds.1)%nat l -> union Rs.mask (shifted b l) p = true <-> union Rs.mask l (b + p) = true.
Proof.
  intros Hb. rewrite !union_true. unfold shifted, covers. rewrite Forall_forall in Hb. split.
  - intros (d & s & ([d' s'] & [= -> ->] & Hin)%list_elem_of_fmap & [Hle%Nat.leb_le Hbit]%andb_true_iff). exists d', s'.
    pose proof (Hb _ Hin). cbn in *. split; [done|]. rewrite (proj2 (Nat.leb_le _ _)) by lia.
    by replace (b + p - d')%nat with (p - (d' - b))%nat by lia.
  - intros (d & s & Hin & [Hle%Nat.leb_le Hbit]%andb_true_iff). pose proof (Hb _ Hin). cbn in *. exists (d - b)%nat, s.
    split; [apply list_elem_of_fmap; by exists (d, s)|]. rewrite (proj2 (Nat.leb_le _ _)) by lia.
    by replace (p - (d - b))%nat with (b + p - d)%nat by lia.
Qed.

(** ** The selected packets *)

Lemma selected_streams seqs next sf :
  Forall (fec_good ssrc B0 orig seqs next) sf ->
  exists l, Forall2 (genuine ssrc B0 orig (have seqs)) l (map RsDec.fec sf) /\ Forall reaches l.
Proof.
  induction 1 as [|f sf [(ds & Hg & Hr) _] _ (l & HF & Hl)]; [by exists []|]. exists (ds :: l). cbn [map]. split; by constructor.
Qed.

Lemma union_miss seqs l sf s :
  Forall2 (genuine ssrc B0 orig (have seqs)) l (map RsDec.fec sf) ->
  (exists p, union Rs.mask l p = true /\ have seqs p = false /\ s = number B0 p) <-> exists f, f ∈ sf /\ s ∈ fmiss f.
Proof.
  intros HF. split.
  - intros (p & (d & st & Hin & [Hle%Nat.leb_le Hbit]%andb_true_iff)%union_true & Hh & ->).
    apply list_elem_of_lookup in Hin as [i Hi]. destruct (Forall2_lookup_l _ _ _ _ _ HF Hi) as (fp & Hfp & Hg).
    apply list_lookup_fmap_Some in Hfp as (f & -> & Hf). exists f. split; [by eapply list_elem_of_lookup_2|].
    apply (miss_elem ssrc B0 orig _ _ _ _ Hg). exists (p - d)%nat. cbn [fst snd]. replace (d + (p - d))%nat with p by lia. done.
  - intros (f & [i Hf]%list_elem_of_lookup & Hs).
    destruct (Forall2_lookup_r _ _ _ i (RsDec.fec f) HF) as ([d st] & Hds & Hg); [by rewrite list_lookup_fmap, Hf|].
    destruct (proj1 (miss_elem ssrc B0 orig _ _ _ s Hg) Hs) as (o & Ho & Hh & Es). cbn [fst snd] in *. exists (d + o)%nat.
    split_and!; [|done|done]. apply union_true. exists d, st. split; [by eapply list_elem_of_lookup_2|].
    unfold covers. rewrite (proj2 (Nat.leb_le _ _)) by lia. by replace (d + o - d)%nat with o by lia.
Qed.

(** The packets that the window of the selected FEC packets lacks are the
    packets selected. *)
Lemma selected_missing seqs l b sf sl losses :
  Forall2 (genuine ssrc B0 orig (have seqs)) l (map RsDec.fec sf) -> Forall reaches l ->
  Forall (fun ds => b <= ds.1)%nat l -> selection B0 losses sf sl ->
  let ps := map (fun p => (b + p)%nat) (missing_at (fun p => have seqs (b + p)%nat) (shifted b l)) in
  map (number B0) ps = map RsDec.loss_seq sl /\ Forall (fun p => p < 128 /\ union Rs.mask l p = true)%nat ps.
Proof.
  intros HF Hr Hb Hsel ps.
  assert (Hel : forall p, p ∈ ps <-> (b <= p)%nat /\ union Rs.mask l p = true /\ have seqs p = false /\ (p - b < 128)%nat).
  { intros p. unfold ps, missing_at. rewrite list_elem_of_fmap. split.
    - intros (q & -> & [Hq [Hu Hh%negb_true_iff]%andb_true_iff]%arrived_elem). apply shifted_union in Hu; [|done]. split_and!; [lia|done|done|lia].
    - intros (Hle & Hu & Hh & Hlt). exists (p - b)%nat. split; [lia|]. apply arrived_elem. split; [done|].
      replace (b + (p - b))%nat with p by lia. rewrite Hh, andb_true_r. apply shifted_union; [done|].
      by replace (b + (p - b))%nat with p by lia. }
  assert (Hsmall : forall p, union Rs.mask l p = true -> (b <= p < 128)%nat).
  { intros p (d & s & Hin & [Hle%Nat.leb_le Hbit]%andb_true_iff)%union_true. rewrite Forall_forall in Hr, Hb.
    pose proof (Hb _ Hin). destruct (Hr _ Hin (p - d)%nat Hbit) as [? _]. cbn [fst snd] in *. lia. }
  assert (Hps : Forall (fun p => p < 128 /\ union Rs.mask l p = true)%nat ps).
  { apply Forall_forall. intros p (_ & Hu & _)%Hel. split; [by apply Hsmall|done]. }
  split; [|done]. apply (ordered_ext B0 B0_u16); [|apply Hsel|].
  - apply ordered_numbers; [done| |].
    + unfold ps. apply sorted_shift, filter_seq_sorted.
    + eapply Forall_impl; [exact Hps|]. by intros p [? _].
  - intros s. rewrite (selection_miss _ _ _ _ Hsel), <- (union_miss seqs l sf s HF), list_elem_of_fmap. split.
    + intros (p & -> & (_ & Hu & Hh & _)%Hel). eauto.
    + intros (p & Hu & Hh & ->). exists p. split; [done|]. apply Hel. pose proof (Hsmall p Hu). split_and!; [lia|done|done|lia].
Qed.

(** The linear system of the selected FEC packets [sf]: their streams [l], the
    smallest base [b], the window [w] and its decoding matrix [r]. *)
Record system (seqs : list Z) (sf : list RsDec.StoredFec) (l : list (nat * Rs.ProtectedStream)) (b : nat) (w : Rs.Window)
    (r : option (list Z)) : Prop := {
  system_genuine : Forall2 (genuine ssrc B0 orig (have seqs)) l (map RsDec.fec sf);
  system_reaches : Forall reaches l;
  system_least : Forall (fun ds => b <= ds.1)%nat l;
  system_window : window_of (number B0 b) (shifted b l) 0 w;
  system_matrix : GenerateDecodingMatrix (length (positions_of 128 (Rs.consider w))) (length sf) (base_nums (shifted b l))
    (Rs.consider w) (Rs.arrive_bits w) (k_masks (shifted b l)) = Ok r;
  system_lost : length (lost (skipped_known 128 (Rs.consider w) (Rs.arrive_bits w)) (length (positions_of 128 (Rs.consider w)))) =
    length sf
}.

Lemma union_media l p : Forall reaches l -> union Rs.mask l p = true -> media_at ssrc B0 orig p.
Proof.
  intros Hr (d & s & Hin & [Hle%Nat.leb_le Hbit]%andb_true_iff)%union_true. rewrite Forall_forall in Hr.
  destruct (Hr _ Hin (p - d)%nat Hbit) as [_ Hm]. cbn [fst snd] in Hm. by replace (d + (p - d))%nat with p in Hm by lia.
Qed.

Lemma recover_selected seqs next losses sf sl :
  Forall (fec_good ssrc B0 orig seqs next) sf -> Forall (fun q => Rs.loss_ssrc (RsDec.loss q) = ssrc) sl ->
  solvable B0 losses sf sl ->
  exists l b w r ps, system seqs sf l b w r /\
    map (number B0) ps = map RsDec.loss_seq sl /\ Forall (fun p => p < 128 /\ media_at ssrc B0 orig p)%nat ps /\
    Rs.RecoverPacket (map RsDec.fec sf) (map RsDec.loss sl) =
      Ok (match r with Some _ => Some (map recovered_of ps) | None => None end).
Proof.
  intros Hgood Hssrc (Hsel & Hlen & Hne). destruct (selected_streams _ _ _ Hgood) as (l & HF & Hr).
  destruct (smallest_base l) as (b & s & Hin & Hb). { intros ->. apply Forall2_nil_inv_l in HF. by destruct sf. }
  destruct (selected_missing seqs l b sf sl losses HF Hr Hb Hsel) as [Eps Hps].
  set (miss := missing_at (fun p => have seqs (b + p)%nat) (shifted b l)) in *. cbv zeta in Eps, Hps.
  assert (HF' : Forall2 (genuine ssrc (number B0 b) (fun p => orig (b + p)%nat) (fun p => have seqs (b + p)%nat)) (shifted b l)
    (map RsDec.fec sf)).
  { clear -HF Hb. revert Hb. induction HF as [|[d s] fp l fps Hg _ IH]; intros Hb; [constructor|].
    apply Forall_cons in Hb as [Hb Hl]. constructor; [by apply genuine_shift|by apply IH]. }
  destruct (RecoverPacket_ok ssrc (number B0 b) (fun p => orig (b + p)%nat) (fun p => have seqs (b + p)%nat) (shifted b l)
    (map RsDec.fec sf) (map RsDec.loss sl) HF') as (w & r & W & Er & Hlost & Hnone & Hsome).
  { exists s. apply list_elem_of_fmap. exists (b, s). cbn. by rewrite Nat.sub_diag. }
  { intros p Hp. apply media_shift, (union_media l); [done|]. by apply shifted_union. }
  rewrite length_map in *. fold miss in Hsome, Hlost. exists l, b, w, r, (map (fun p => (b + p)%nat) miss).
  assert (Elen : length miss = length sf).
  { rewrite Hlen, <- (length_map RsDec.loss_seq), <- Eps, !length_map. done. }
  split; [split; [done..|congruence]|]. split; [done|]. split.
  { eapply Forall_impl; [exact Hps|]. intros p [? ?]. split; [done|by eapply union_media]. }
  destruct r as [dist|]; [|by apply Hnone]. rewrite Hsome; [|by eexists|done|].
  - do 2 f_equal. rewrite map_map. apply map_ext. intros p. unfold RsRecover.recovered_of. by rewrite number_number.
  - rewrite map_map in Eps. apply Forall2_fmap_r. apply Forall2_same_length_lookup. split; [lia|]. intros i p q Hp Hq.
    rewrite Forall_forall in Hssrc. split; [|by apply Hssrc; eapply list_elem_of_lookup_2].
    pose proof (f_equal (fun x => x !! i) Eps) as E. cbv beta in E. rewrite !list_lookup_fmap, Hp, Hq in E. cbn in E.
    injection E as E. unfold RsDec.loss_seq in E. by rewrite number_number.
Qed.

(** ** Publishing *)

Abbreviation same_fecs := (Forall2 (fun f f' => RsDec.fec_id f' = RsDec.fec_id f /\ RsDec.fec_seq f' = RsDec.fec_seq f)).

Lemma same_fecs_refl fecs : same_fecs fecs fecs.
Proof. induction fecs; by constructor. Qed.

Lemma same_fecs_seqs fecs fecs' : same_fecs fecs fecs' -> map RsDec.fec_seq fecs' = map RsDec.fec_seq fecs.
Proof. induction 1 as [|f f' l l' [_ H] _ IH]; [done|]. cbn [map]. by rewrite H, IH. Qed.

Lemma publish_eq held st rec r :
  RsDec.publish held (st, rec) r =
  let! st := learn st held r in Ok (st, RsDec.DiscardOldRecoveredPackets (list_sort rec_seq_num (rec ++ [r]))).
Proof. unfold RsDec.publish, learn. by destruct (RsDec.UpdateCoveringFecPackets st r). Qed.

Lemma rs_publish_ok held ps : forall st rec,
  inv st (known rec) -> recovered_good rec -> NoDup ps ->
  Forall (fun p => (p < 128)%nat /\ media_at ssrc B0 orig p) ps -> Forall (fun p => number B0 p ∉ known rec) ps ->
  exists st' rec', foldM (RsDec.publish held) (map recovered_of ps) (st, rec) = Ok (st', rec') /\
    inv st' (known rec') /\ recovered_good rec' /\ (forall r, r ∈ rec' <-> r ∈ rec \/ r ∈ map recovered_of ps) /\
    RsDec.fec_receive_time_ st' = RsDec.fec_receive_time_ st /\
    same_fecs (RsDec.received_fec_packets_ st) (RsDec.received_fec_packets_ st').
Proof.
  induction ps as [|p ps IH]; intros st rec I Hrec Hnd Hps Hnew; cbn [map foldM].
  { exists st, rec. split_and!; [done|done|done| |done|apply same_fecs_refl]. intros r. rewrite (elem_of_nil r). tauto. }
  apply NoDup_cons in Hnd as [Hp_new Hnd]. apply Forall_cons in Hps as [[Hp Hm] Hps], Hnew as [Hnp Hnew].
  rewrite publish_eq. set (rec1 := list_sort rec_seq_num (rec ++ [recovered_of p])).
  assert (Hperm : rec1 ≡ₚ rec ++ [recovered_of p]) by apply list_sort_perm.
  destruct (recovered_insert ssrc B0 orig B0_u16 rec (recovered_of p) p Hrec Hp Hm eq_refl eq_refl Hnp) as [Hrec1 Hk1]. fold rec1 in Hrec1, Hk1.
  destruct (learn_ok ssrc B0 orig B0_u16 st held (known rec) (known rec1) (recovered_of p) p I Hp eq_refl eq_refl (recovered_order _ _ _ _ Hrec1) Hk1)
    as (st1 & E1 & I1 & Ht1 & Hf1).
  rewrite E1, bind_ok, (keep_all ssrc B0 orig B0_u16), bind_ok by done.
  destruct (IH st1 rec1 I1 Hrec1 Hnd Hps) as (st' & rec' & -> & I' & Hrec' & Hel & Ht & Hf).
  { apply Forall_forall. intros q Hq Hin. rewrite Forall_forall in Hnew, Hps. apply Hk1 in Hin as [Hin|E]; [by eapply Hnew|].
    apply (number_inj B0 B0_u16) in E; [by subst q|destruct (Hps q Hq); lia|lia]. }
  exists st', rec'. split_and!; [done|done|done| |by rewrite Ht|].
  - intros r. rewrite Hel, Hperm, elem_of_app, list_elem_of_singleton, elem_of_cons. tauto.
  - eapply Forall2_trans_with; [|exact Hf1|exact Hf]. intros x y z [? ?] [? ?]. split; congruence.
Qed.

(** ** The FEC packets used *)

Lemma erase_used_ok used : forall fecs,
  ordered B0 (map RsDec.fec_seq used) -> ordered B0 (map RsDec.fec_seq fecs) ->
  RsDec.erase_used used fecs = filter (fun f => RsDec.fec_seq f ∉ map RsDec.fec_seq used) fecs.
Proof.
  induction used as [|u used IHu]; intros fecs Hu Hf.
  { rewrite list_filter_all; [by destruct fecs|]. apply Forall_forall. intros f _. apply not_elem_of_nil. }
  cbn [map] in Hu. pose proof Hu as (Hus & Hu' & Hgt)%(ordered_cons B0 B0_u16). rewrite Forall_forall in Hgt.
  induction fecs as [|f fecs IHf]; [done|].
  cbn [map] in Hf. pose proof Hf as (Hfs & Hf' & Hlt)%(ordered_cons B0 B0_u16). rewrite Forall_forall in Hlt. specialize (IHf Hf').
  cbn [RsDec.erase_used] in *. rewrite (LessThan_session B0 B0_u16 _ _ Hfs Hus).
  destruct (Nat.ltb_spec (pos B0 (RsDec.fec_seq f)) (pos B0 (RsDec.fec_seq u))) as [Hb|Hb].
  - rewrite filter_cons, decide_True; [by rewrite IHf|]. cbn [map]. intros [E|Hin]%elem_of_cons; [rewrite E in Hb; lia|].
    specialize (Hgt _ Hin). lia.
  - assert (Hdrop : forall l : list RsDec.StoredFec, (forall g, g ∈ l -> (pos B0 (RsDec.fec_seq u) < pos B0 (RsDec.fec_seq g))%nat) ->
      filter (fun g => RsDec.fec_seq g ∉ map RsDec.fec_seq used) l =
      filter (fun g => RsDec.fec_seq g ∉ map RsDec.fec_seq (u :: used)) l).
    { intros l Hl. apply filter_agree. intros g Hg. cbn [map]. rewrite not_elem_of_cons.
      specialize (Hl g Hg). split; [|tauto]. intros H. split; [|done]. intros E. rewrite E in Hl. lia. }
    assert (Hbehind : forall g, g ∈ fecs -> (pos B0 (RsDec.fec_seq f) < pos B0 (RsDec.fec_seq g))%nat).
    { intros g Hg. apply Hlt, list_elem_of_fmap. eauto. }
    destruct (Z.eqb_spec (RsDec.fec_seq u) (RsDec.fec_seq f)) as [E|Hne].
    + rewrite filter_cons, decide_False; [|cbn [map]; rewrite E; intros H; apply H; by left].
      rewrite IHu by done. apply Hdrop. rewrite E. done.
    + rewrite IHu by done. apply Hdrop. intros g [-> |Hg]%elem_of_cons.
      * destruct (pos_session B0 _ Hfs) as [_ E1], (pos_session B0 _ Hus) as [_ E2].
        destruct (decide (pos B0 (RsDec.fec_seq u) = pos B0 (RsDec.fec_seq f))) as [E|]; [|lia]. rewrite E in E2. congruence.
      * specialize (Hbehind g Hg). lia.
Qed.
End Publish.
