(* ===== verification/RsSession.v ===== *)
(** * RsSession: the Reed-Solomon decoder over a session

    [AttemptRecovery], the loop of [DecodeRSFec] around it, and a run of
    [DecodeRSFec] over the packets of a session: the decoder keeps its
    invariant, and what it hands out are the packets that were sent. *)

From stdpp Require Import sorting gmap.
From S2P Require Import Prelude.
From S2P Require Import SeqNum.
From S2P Require Import FecTypes.
From S2P Require Import FecDecoder.
From S2P Require Import DecoderLemmas.
From S2P Require Import WindowSort.
From S2P Require Import CowBuffer.
From S2P Require Import Galois.
From S2P Require Import ReedSolMatrix.
From S2P Require Import ReedSolSolve.
From S2P Require Import ReedSolRows.
From S2P Require Import ReedSolGuarantees.
From S2P Require Import RsCodec.
From S2P Require Import RsWindow.
From S2P Require Import RsRecover.
From S2P Require Import RsDecoder.
From S2P Require Import RsState.
From S2P Require Import RsLinks.
From S2P Require Import RsInsert.
From S2P Require Import RsAttempt.
From S2P Require Import RsPublish.

Section Session.
Context {HP : Heap} {G : Galois} {GL : GaloisLaws G}.
Variables (ssrc B0 : Z) (orig : nat -> Packet).
Hypothesis B0_u16 : is_u16 B0.

Abbreviation inv := (inv ssrc B0 orig).
Abbreviation recovered_good := (recovered_good ssrc B0 orig).
Abbreviation arrival := (arrival ssrc B0 orig).
Abbreviation fmiss f := (miss (RsDec.fec f)).
Abbreviation recovered_of := (recovered_of ssrc B0 orig).
Abbreviation fecs_of := RsDec.received_fec_packets_.
Abbreviation losses_of := RsDec.consider_loss_packets_.

(** ** One attempt *)

(** The rest of [AttemptRecovery] for the packets found. *)
Definition solve_found (st : RsDec.Decoder) (rec : list RecoveredPacket) (sf : list RsDec.StoredFec)
    (sl : list RsDec.ConsiderLossPacket) : res (RsDec.Decoder * list RecoveredPacket * Z) :=
  let! temp := Rs.RecoverPacket (map RsDec.fec sf) (map RsDec.loss sl) in
  match temp with
  | None => match sf, fecs_of st with _ :: _, _ :: _ => Fault OutOfBounds | _, _ => Ok (st, rec, -1) end
  | Some temp =>
      let! (st, rec) := foldM (RsDec.publish sl) temp (st, rec) in
      let! times := foldM RsDec.take_time sf (RsDec.fec_receive_time_ st) in
      let st := RsDec.with_times st times in
      Ok (RsDec.with_fecs st (RsDec.erase_used (list_sort RsDec.fec_seq sf) (fecs_of st)), rec, Z.of_nat (length temp))
  end.

(** The decoder as the search finds it. *)
Record readied (st st1 : RsDec.Decoder) : Prop := {
  readied_fecs : Forall2 (fun f f' => RsDec.fec_id f' = RsDec.fec_id f /\ exists ids, RsDec.fec f' = RsDec.set_maybe_loss (RsDec.fec f) ids)
    (filter (fun f => fmiss f <> []) (fecs_of st)) (fecs_of st1);
  readied_search : Forall (searchable B0 (losses_of st1)) (fecs_of st1)
}.

Lemma readied_length st st1 : readied st st1 -> (length (fecs_of st1) <= length (fecs_of st))%nat.
Proof. intros [H _]. rewrite <- (Forall2_length _ _ _ H). apply length_filter. Qed.

Lemma attempt_eq st rec :
  inv st (known rec) -> recovered_good rec ->
  exists st1, inv st1 (known rec) /\ readied st st1 /\
    RsDec.AttemptRecovery st rec =
      let! found := RsDec.search (losses_of st1) (fecs_of st1) (length (fecs_of st1)) in
      match found with None => Ok (st1, rec, 0) | Some (sf, sl) => solve_found st1 rec sf sl end.
Proof.
  intros I Hrec. destruct (prepare_ok ssrc B0 orig B0_u16 st rec I Hrec) as (fecs & times & E & I1 & HF & Hready).
  eexists. split; [exact I1|]. split; [|unfold RsDec.AttemptRecovery; rewrite E, bind_ok; reflexivity].
  split; cbn [RsDec.received_fec_packets_ RsDec.consider_loss_packets_ RsDec.with_losses RsDec.with_fecs RsDec.with_times]; [done|].
  apply Forall_forall. intros f' Hf'. rewrite Forall_forall in Hready.
  pose proof (inv_fecs _ _ _ _ _ I1) as Hg. cbn in Hg. rewrite Forall_forall in Hg. destruct (Hg f' Hf') as [(ds & Hgen & Hr) _].
  split; [by apply Hready|by eapply (miss_ordered ssrc B0 orig B0_u16)|].
  apply list_elem_of_lookup in Hf' as [i Hi]. destruct (Forall2_lookup_r _ _ _ _ _ HF Hi) as (f & Hf & _ & ids & ->).
  apply list_elem_of_lookup_2, list_elem_of_filter in Hf as [Hf _]. exact Hf.
Qed.

(** Nothing to search. *)
Lemma attempt_none st rec :
  inv st (known rec) -> recovered_good rec -> fecs_of st = [] ->
  exists st1, RsDec.AttemptRecovery st rec = Ok (st1, rec, 0) /\ inv st1 (known rec) /\ fecs_of st1 = [].
Proof.
  intros I Hrec E. destruct (attempt_eq st rec I Hrec) as (st1 & I1 & Hprep & ->).
  pose proof (readied_length _ _ Hprep) as Hl. rewrite E in Hl. destruct (fecs_of st1) as [|] eqn:E1; [|cbn in Hl; lia].
  exists st1. by rewrite E1.
Qed.

(** A selection of FEC packets whose linear system has no solution. *)
Definition singular (seqs : list Z) : Prop :=
  exists sf l b w, sf <> [] /\ system ssrc B0 orig seqs sf l b w None.

Lemma solve_found_ok st rec sf sl :
  inv st (known rec) -> recovered_good rec -> solvable B0 (losses_of st) sf sl -> sf `sublist_of` fecs_of st ->
  (solve_found st rec sf sl = Fault OutOfBounds /\ exists l b w, system ssrc B0 orig (known rec) sf l b w None) \/
  exists st' rec' l b w dist ps, solve_found st rec sf sl = Ok (st', rec', Z.of_nat (length sf)) /\
    system ssrc B0 orig (known rec) sf l b w (Some dist) /\ map (number B0) ps = map RsDec.loss_seq sl /\
    inv st' (known rec') /\ recovered_good rec' /\ (forall r, r ∈ rec' <-> r ∈ rec \/ r ∈ map recovered_of ps) /\
    length (fecs_of st') = (length (fecs_of st) - length sf)%nat.
Proof.
  intros I Hrec Hs Hsub. pose proof Hs as (Hsel & Hlen & Hne).
  assert (Hgood : Forall (loss_good ssrc (known rec) (RsDec.next_id st)) sl).
  { apply Forall_forall. intros q Hq. pose proof (inv_losses _ _ _ _ _ I) as Hl. rewrite Forall_forall in Hl. apply Hl.
    pose proof (selection_losses _ _ _ _ Hsel) as H. rewrite Forall_forall in H. by apply H. }
  destruct (recover_selected ssrc B0 orig B0_u16 (known rec) (RsDec.next_id st) (losses_of st) sf sl) as (l & b & w & r & ps & Sys & Eps & Hps & Er);
    [eapply Forall_sublist; [exact Hsub|apply I]|eapply Forall_impl; [exact Hgood|by intros q [? _ _ _]]|done|].
  unfold solve_found. rewrite Er, bind_ok. destruct r as [dist|].
  2:{ left. split; [|by exists l, b, w]. destruct sf; [done|]. destruct (fecs_of st); [by apply sublist_nil_r in Hsub|done]. }
  right.
  assert (Hnd : NoDup ps).
  { apply (NoDup_fmap_1 (number B0)). replace (number B0 <$> ps) with (map RsDec.loss_seq sl) by (by rewrite <- Eps).
    apply (ordered_nodup B0 B0_u16), Hsel. }
  destruct (rs_publish_ok ssrc B0 orig B0_u16 sl ps st rec I Hrec Hnd Hps) as (st' & rec' & -> & I' & Hrec' & Hel & Ht & Hf).
  { apply Forall_forall. intros p Hp. assert (Hin : number B0 p ∈ map RsDec.loss_seq sl) by (rewrite <- Eps; apply list_elem_of_fmap; eauto).
    apply list_elem_of_fmap in Hin as (q & -> & Hq). rewrite Forall_forall in Hgood. apply (Hgood q Hq). }
  rewrite bind_ok. pose proof (inv_fec_order _ _ _ _ _ I) as Ho.
  assert (Hosf : ordered B0 (map RsDec.fec_seq sf)) by (eapply ordered_sublist; [by apply (fmap_sublist RsDec.fec_seq)|done]).
  rewrite take_time_ok, bind_ok.
  2:{ by apply (ordered_nodup B0 B0_u16). }
  2:{ apply Forall_forall. intros f Hin. rewrite Ht. apply (inv_times _ _ _ _ _ I). by eapply elem_of_sublist. }
  assert (Hsort : ordered B0 (map RsDec.fec_seq (list_sort RsDec.fec_seq sf))).
  { apply list_sort_ordered; [done| |by apply (ordered_nodup B0 B0_u16)]. pose proof (ordered_session _ _ Hosf) as H. exact (proj1 (Forall_fmap RsDec.fec_seq _ sf) H). }
  eexists _, rec', l, b, w, dist, ps. cbn [RsDec.received_fec_packets_ RsDec.with_times].
  rewrite (erase_used_ok B0 B0_u16); [|done|apply I']. split.
  { do 2 f_equal. rewrite !length_map. f_equal. rewrite Hlen, <- (length_map RsDec.loss_seq), <- Eps. by rewrite length_map. }
  assert (Hkeys : map RsDec.fec_seq (list_sort RsDec.fec_seq sf) ≡ₚ map RsDec.fec_seq sf) by (by rewrite list_sort_perm).
  pose proof (same_fecs_seqs _ _ Hf) as Hseqs. split_and!; [done|done| |done|done|].
  - apply (inv_sub ssrc B0 orig st'); [done|apply sublist_filter|]. intros f [Hn Hin]%list_elem_of_filter.
    apply elem_of_difference. split; [by apply (inv_times _ _ _ _ _ I')|]. rewrite elem_of_list_to_set. by rewrite <- Hkeys.
  - cbn [RsDec.received_fec_packets_ RsDec.with_fecs]. rewrite length_erased.
    + rewrite Hkeys, length_map. f_equal. by rewrite <- (length_map RsDec.fec_seq), Hseqs, length_map.
    + rewrite Hseqs. by apply (ordered_nodup B0 B0_u16).
    + by apply (ordered_nodup B0 B0_u16).
    + intros k. rewrite Hkeys, Hseqs. intros Hin. eapply elem_of_sublist; [exact Hin|]. by apply (fmap_sublist RsDec.fec_seq).
Qed.

(** ** The loop of [DecodeRSFec] *)

Lemma attempts_ok fuel : forall st rec n,
  inv st (known rec) -> recovered_good rec -> (length (fecs_of st) < fuel)%nat ->
  (exists seqs, RsDec.attempts fuel st rec n = Fault OutOfBounds /\ singular seqs) \/
  exists st' rec' n', RsDec.attempts fuel st rec n = Ok (st', rec', n') /\
    inv st' (known rec') /\ recovered_good rec' /\ (forall r, r ∈ rec -> r ∈ rec') /\
    (n <= n')%nat /\ (forall r, r ∈ rec' -> r ∈ rec \/ rec_returned r = false /\ (n < n')%nat).
Proof.
  induction fuel as [|fuel IH]; intros st rec n I Hrec Hfuel; [lia|]. cbn [RsDec.attempts].
  destruct (attempt_eq st rec I Hrec) as (st1 & I1 & Hprep & ->). pose proof (readied_length _ _ Hprep) as Hle.
  destruct (search_ok B0 B0_u16 (losses_of st1) (fecs_of st1) (length (fecs_of st1)) (readied_search _ _ Hprep)) as (r & -> & Hr).
  rewrite bind_ok. destruct r as [[sf sl]|].
  2:{ rewrite bind_ok. right. exists st1, rec, n. split_and!; try done. by left. }
  destruct (Hr sf sl eq_refl) as [Hs Hsub]. pose proof Hs as (_ & _ & Hne).
  destruct (solve_found_ok st1 rec sf sl I1 Hrec Hs Hsub) as [(-> & l & b & w & Hsys)|(st' & rec' & l & b & w & dist & ps & -> & _ & _ & I' & Hrec' & Hel & Hl)].
  { left. exists (known rec). split; [done|]. by exists sf, l, b, w. }
  rewrite bind_ok. pose proof (sublist_length _ _ Hsub) as Hsl. destruct sf as [|f sf]; [done|]. cbn [length] in *.
  rewrite (proj2 (Z.eqb_neq _ _)), (proj2 (Z.ltb_lt _ _)) by lia.
  destruct (IH st' rec' (n + Z.to_nat (Z.of_nat (S (length sf))))%nat I' Hrec' ltac:(lia))
    as [H|(st2 & rec2 & n2 & E2 & I2 & Hrec2 & Hsub2 & Hn2 & Hnew2)]; [by left|].
  right. exists st2, rec2, n2. split_and!; [done|done|done| |lia|].
  - intros r Hin. apply Hsub2, Hel. by left.
  - intros r [[Hin|(p & -> & _)%list_elem_of_fmap]%Hel|[? ?]]%Hnew2; [by left|right; split; [done|lia]..].
Qed.

(** In a session there is no gap. *)
Lemma reset_never st rec rp : recovered_good rec -> in_session B0 (rp_seq_num rp) -> RsDec.reset_on_gap st rp rec = (st, rec).
Proof.
  intros [Ho _] Hs. unfold RsDec.reset_on_gap. destruct (last rec) as [back|] eqn:E; [|done].
  assert (Hb : in_session B0 (rec_seq_num back)).
  { pose proof (ordered_session _ _ Ho) as H. rewrite Forall_forall in H. apply H, list_elem_of_fmap. exists back.
    split; [done|]. by apply last_Some_elem_of in E. }
  pose proof (session_near B0 _ _ Hs Hb). change (Z.of_nat Rs.kMaxTrackedMediaPackets) with 128.
  by rewrite (proj2 (Z.ltb_ge 128 _)), andb_false_r by lia.
Qed.

Lemma known_mono rec rec' s : (forall r, r ∈ rec -> r ∈ rec') -> s ∈ known rec -> s ∈ known rec'.
Proof. intros H (r & -> & Hr)%list_elem_of_fmap. apply list_elem_of_fmap. eauto. Qed.

Lemma DecodeRSFec_step st rec rp :
  inv st (known rec) -> recovered_good rec -> arrival rp ->
  (exists seqs, RsDec.DecodeRSFec st rp rec = Fault OutOfBounds /\ singular seqs) \/
  exists st' rec' n, RsDec.DecodeRSFec st rp rec = Ok (st', rec', n) /\
    inv st' (known rec') /\ recovered_good rec' /\ (forall r, r ∈ rec -> r ∈ rec') /\
    (forall p, media_arrival ssrc B0 orig rp p -> number B0 p ∈ known rec') /\
    (forall r, r ∈ rec' -> r ∈ rec \/ rec_returned r = true /\ rp_is_fec rp = false /\ rec_seq_num r = rp_seq_num rp \/
       rec_returned r = false /\ (0 < n)%nat).
Proof.
  intros I Hrec Ha. unfold RsDec.DecodeRSFec. rewrite reset_never by (done || by apply (arrival_session ssrc B0 orig B0_u16)).
  destruct (rs_insert_packet ssrc B0 orig B0_u16 st rec rp I Hrec Ha) as (st1 & rec1 & -> & I1 & Hrec1 & Hsub & Hnew & Hin). rewrite bind_ok.
  destruct (attempts_ok (S (length (fecs_of st1))) st1 rec1 0 I1 Hrec1 ltac:(lia))
    as [H|(st' & rec' & n & E & I' & Hrec' & Hsub' & _ & Hnew')]; [by left|].
  right. exists st', rec', n. split_and!; auto.
  - intros p Hp. by apply (known_mono rec1), Hin.
  - intros r [[?|?]%Hnew|?]%Hnew'; auto.
Qed.

(** ** A session *)

(** [DecodeRSFec] for each packet received. *)
Definition receive_all (st : RsDec.Decoder) (rec : list RecoveredPacket) (rps : list ReceivedPacket)
    : res (RsDec.Decoder * list RecoveredPacket) :=
  foldM (fun '(st, rec) rp => let! (st, rec, _) := RsDec.DecodeRSFec st rp rec in Ok (st, rec)) rps (st, rec).

Lemma inv_created : inv (RsDec.CreateRSFec ssrc) [].
Proof.
  split; cbn; try done; try constructor; try constructor; try (intros f Hf; by apply elem_of_nil in Hf).
Qed.

Lemma receive_all_ok rps : forall st rec,
  inv st (known rec) -> recovered_good rec -> Forall arrival rps ->
  (exists seqs, receive_all st rec rps = Fault OutOfBounds /\ singular seqs) \/
  exists st' rec', receive_all st rec rps = Ok (st', rec') /\
    inv st' (known rec') /\ recovered_good rec' /\ (forall r, r ∈ rec -> r ∈ rec') /\
    (forall rp p, rp ∈ rps -> media_arrival ssrc B0 orig rp p -> number B0 p ∈ known rec').
Proof.
  induction rps as [|rp rps IH]; intros st rec I Hrec Ha; unfold receive_all; cbn [foldM].
  { right. exists st, rec. split_and!; try done. intros rp p Hrp. by apply elem_of_nil in Hrp. }
  apply Forall_cons in Ha as [Ha Hrest].
  destruct (DecodeRSFec_step st rec rp I Hrec Ha) as [(seqs & -> & H)|(st1 & rec1 & n & -> & I1 & Hrec1 & Hsub & Hin & _)]; [left; by exists seqs|].
  rewrite !bind_ok. destruct (IH st1 rec1 I1 Hrec1 Hrest) as [H|(st' & rec' & E & I' & Hrec' & Hsub' & Hin')]; [by left|].
  right. exists st', rec'. split_and!; auto. intros rp' p [-> |Hrp]%elem_of_cons Hp; [|by eapply Hin'].
  by apply (known_mono rec1), Hin.
Qed.
End Session.
