(* ===== verification/RsBlock.v ===== *)
(** * RsBlock: a block with enough FEC packets is repaired

    The packets of one batch arrive except for some that are lost, and then as
    many FEC packets of the batch, equally spaced: the decoder keeps the FEC
    packets until there are enough of them and then recovers everything that
    was lost.  The FEC packets that [EncodeRSFec] returns for a batch of media
    packets are packets the decoder's invariant speaks of ([RsInsert]). *)

From stdpp Require Import sorting gmap.
From S2P Require Import Prelude.
From S2P Require Import SeqNum.
From S2P Require Import FecTypes.
From S2P Require Import XorCode.
From S2P Require Import FecDecoder.
From S2P Require Import DecoderLemmas.
From S2P Require Import WindowSort.
From S2P Require Import CowBuffer.
From S2P Require Import Galois.
From S2P Require Import ReedSolMatrix.
From S2P Require Import ReedSolSolve.
From S2P Require Import ReedSolRows.
From S2P Require Import ReedSolGuarantees.
From S2P Require Import RsCodec.
From S2P Require Import RsBytes.
From S2P Require Import RsEncoder.
From S2P Require Import RsWindow.
From S2P Require Import RsRecover.
From S2P Require Import RsDecoder.
From S2P Require Import RsState.
From S2P Require Import RsLinks.
From S2P Require Import RsInsert.
From S2P Require Import RsAttempt.
From S2P Require Import RsPublish.
From S2P Require Import RsSession.

(** ** The search when all FEC packets miss the same packets *)

Section Same.
Variable B0 : Z.
Hypothesis B0_u16 : is_u16 B0.
Variables (losses qs : list RsDec.ConsiderLossPacket).
Hypothesis qs_order : ordered B0 (map RsDec.loss_seq qs).

Definition misses_all (f : RsDec.StoredFec) : Prop :=
  RsDec.mapM_res (RsDec.deref_loss losses) (Rs.maybe_loss_packets (RsDec.fec f)) = Ok qs.

Lemma match_same l : ordered B0 (map RsDec.loss_seq l) -> RsDec.match_selected l l = Some ([], []).
Proof.
  induction l as [|q l IH]; intros Ho; [done|]. cbn [map] in Ho. apply (ordered_cons B0 B0_u16) in Ho as (Hq & Ho & _).
  rewrite match_selected_cons, (LessThan_session B0 B0_u16 _ _ Hq Hq), Nat.ltb_irrefl, Z.eqb_refl. by apply IH.
Qed.

Lemma meets_in l first : ordered B0 (map RsDec.loss_seq l) -> first ∈ l -> RsDec.meets l first = true.
Proof.
  induction l as [|q l IH]; intros Ho Hin; [by apply elem_of_nil in Hin|]. cbn [map RsDec.meets] in *.
  apply (ordered_cons B0 B0_u16) in Ho as (Hq & Ho & Hgt). apply elem_of_cons in Hin as [-> |Hin].
  - by rewrite (LessThan_session B0 B0_u16 _ _ Hq Hq), Nat.ltb_irrefl, Z.eqb_refl.
  - assert (Hseq : RsDec.loss_seq first ∈ map RsDec.loss_seq l) by (apply list_elem_of_fmap; eauto).
    rewrite Forall_forall in Hgt. pose proof (ordered_session _ _ Ho) as Hs. rewrite Forall_forall in Hs.
    rewrite (LessThan_session B0 B0_u16 _ _ Hq (Hs _ Hseq)), (proj2 (Nat.ltb_lt _ _)) by (by apply Hgt). by apply IH.
Qed.

(** After [j] FEC packets. *)
Lemma search_more fecs : forall sf,
  Forall misses_all fecs -> (0 < length sf < length qs)%nat ->
  RsDec.SearchFECPacket losses fecs sf qs (drop (length sf) qs) =
  Ok (if decide (length sf + length fecs < length qs)%nat then None
      else Some (sf ++ take (length qs - length sf) fecs, qs)).
Proof.
  induction fecs as [|f fecs IH]; intros sf Hall Hj; cbn [RsDec.SearchFECPacket length].
  { rewrite decide_True by lia. rewrite (proj2 (Nat.eqb_neq (length (drop _ _)) 0)); [done|]. rewrite length_drop. lia. }
  apply Forall_cons in Hall as [Hf Hall]. rewrite Hf, bind_ok, match_same, !app_nil_r by done.
  destruct (lookup_lt_is_Some_2 qs (length sf)) as [first Hfirst]; [lia|].
  rewrite (drop_S _ _ _ Hfirst), meets_in by (done || by eapply list_elem_of_lookup_2).
  specialize (IH (sf ++ [f]) Hall). rewrite length_app in IH. cbn [length] in IH. rewrite Nat.add_1_r in IH.
  destruct (drop (S (length sf)) qs) as [|q rest] eqn:Ed.
  - assert (El : length qs = S (length sf)).
    { pose proof (length_drop qs (S (length sf))) as Hl. rewrite Ed in Hl. cbn [length] in Hl. lia. }
    rewrite decide_False by lia. rewrite length_app. cbn [length]. rewrite El.
    rewrite (proj2 (Nat.eqb_neq (length sf + 1) 0)) by lia. rewrite Nat.add_1_r. cbn [negb andb Nat.eqb].
    replace (S (length sf) - length sf)%nat with 1%nat by lia. cbn [take]. by rewrite take_0, Nat.eqb_refl.
  - assert (Hl : (S (length sf) < length qs)%nat).
    { pose proof (length_drop qs (S (length sf))) as Hl. rewrite Ed in Hl. cbn [length] in Hl. lia. }
    rewrite IH by lia. replace (length sf + S (length fecs))%nat with (S (length sf) + length fecs)%nat by lia.
    case_decide; [done|]. do 2 f_equal. replace (length qs - length sf)%nat with (S (length qs - S (length sf)))%nat by lia.
    cbn [take]. by rewrite <- app_assoc.
Qed.

Lemma search_same fecs :
  Forall misses_all fecs -> qs <> [] ->
  RsDec.SearchFECPacket losses fecs [] [] [] =
  Ok (if decide (length fecs < length qs)%nat then None else Some (take (length qs) fecs, qs)).
Proof.
  intros Hall Hne. assert (Hpos : (0 < length qs)%nat) by (by destruct qs; [|cbn; lia]).
  destruct fecs as [|f fecs]; cbn [RsDec.SearchFECPacket length]; [by rewrite decide_True|].
  apply Forall_cons in Hall as [Hf Hall]. rewrite Hf, bind_ok.
  assert (Em : RsDec.match_selected qs [] = Some (qs, [])) by (by destruct qs). rewrite Em, !app_nil_l.
  destruct (lookup_lt_is_Some_2 qs 0 Hpos) as [first Hfirst].
  pose proof (drop_S _ _ _ Hfirst) as Ed. rewrite drop_0 in Ed. pose proof (search_more fecs [f] Hall) as H.
  pose proof (meets_in qs first qs_order (list_elem_of_lookup_2 _ _ _ Hfirst)) as Hmeets. cbn [length] in H.
  destruct (drop 1 qs) as [|q rest] eqn:E1.
  - assert (El : length qs = 1%nat) by (by rewrite Ed). rewrite Ed in *. rewrite Hmeets. cbn [length].
    rewrite decide_False by lia. cbn [take]. by rewrite take_0.
  - assert (El : (1 < length qs)%nat) by (rewrite Ed; cbn; lia). specialize (H ltac:(lia)). rewrite Ed in Hmeets |- * at 1. 
    rewrite Ed in *. rewrite Hmeets, H. cbn [length app Nat.add].
    case_decide; [done|]. do 3 f_equal. 
Qed.

Lemma search_from fecs n :
  Forall misses_all fecs -> qs <> [] -> (length fecs <= length qs)%nat -> (n <= length fecs)%nat ->
  RsDec.search losses fecs n =
  Ok (if decide (0 < n /\ length fecs = length qs)%nat then Some (fecs, qs) else None).
Proof.
  intros Hall Hne Hle. induction n as [|i IH]; intros Hn; cbn [RsDec.search]; [by rewrite decide_False by lia|].
  rewrite search_same by (done || by apply Forall_drop). rewrite bind_ok, length_drop.
  destruct (decide (length fecs - i < length qs)%nat) as [Hlt|Hge].
  - rewrite IH by lia. destruct (decide (0 < i /\ length fecs = length qs)%nat) as [[Hi E]|Hno].
    + by rewrite decide_True by lia.
    + by rewrite decide_False by (destruct (decide (i = 0)%nat); lia).
  - rewrite decide_True by lia. replace i with 0%nat by lia. rewrite drop_0, take_ge by lia. done.
Qed.
End Same.

(** ** The linear system of a block *)

Lemma bits_ext b b' : (forall p, bit_of b p = bit_of b' p) -> b = b'.
Proof. intros H. apply Z.bits_inj'. intros n Hn. specialize (H (Z.to_nat n)). unfold bit_of in H. by rewrite Z2Nat.id in H. Qed.

Section Block.
Context {HP : Heap} {G : Galois} {GL : GaloisLaws G} {GG : GaloisGenerator G}.
Variables (ssrc B0 : Z) (orig : nat -> Packet).
Hypothesis B0_u16 : is_u16 B0.
(** The mask of the block and the base numbers of its FEC packets. *)
Variables (M : Z) (a d span : nat).
Hypothesis d_pos : (0 < d)%nat.
Hypothesis d_span : (d * span < 255)%nat.
Hypothesis M_first : bit_of M 0 = true.
Hypothesis M_span : forall p, bit_of M p = true -> (p <= span)%nat.

Abbreviation inv := (inv ssrc B0 orig).
Abbreviation recovered_good := (recovered_good ssrc B0 orig).
Abbreviation fecs_of := RsDec.received_fec_packets_.
Abbreviation losses_of := RsDec.consider_loss_packets_.
Abbreviation recovered_of := (recovered_of ssrc B0 orig).

(** [f] is FEC packet [i] of the block. *)
Record of_block (hv : nat -> bool) (i : nat) (f : RsDec.StoredFec) : Prop := {
  block_genuine : exists s, genuine ssrc B0 orig hv (0%nat, s) (RsDec.fec f) /\ Rs.mask s = M /\
    Rs.cur_base_num s = gf_pow 2 (a + d * i)
}.

Definition block_fecs (hv : nat -> bool) (fecs : list RsDec.StoredFec) : Prop :=
  forall i f, fecs !! i = Some f -> of_block hv i f.

Lemma block_stream hv fecs l i ds :
  block_fecs hv fecs -> Forall2 (genuine ssrc B0 orig hv) l (map RsDec.fec fecs) -> l !! i = Some ds ->
  ds.1 = 0%nat /\ Rs.mask ds.2 = M /\ Rs.cur_base_num ds.2 = gf_pow 2 (a + d * i).
Proof.
  intros Hb HF Hi. destruct (Forall2_lookup_l _ _ _ _ _ HF Hi) as (fp & Hfp & Hg).
  apply list_lookup_fmap_Some in Hfp as (f & -> & Hf). destruct (Hb i f Hf) as [(s & Hg' & HM & Hc)].
  pose proof (genuine_stream _ _ _ _ _ _ Hg) as E. rewrite (genuine_stream _ _ _ _ _ _ Hg') in E. injection E as E. cbn [snd] in E.
  destruct ds as [d' s']. cbn [fst snd] in *. subst s'. split; [|done].
  pose proof (genuine_placed _ _ _ _ _ _ Hg) as [P1 P2 _ _]. pose proof (genuine_placed _ _ _ _ _ _ Hg') as [P1' _ _ _].
  cbn [fst snd] in *. rewrite P1 in P1'. apply (number_inj B0 B0_u16) in P1'; lia.
Qed.

Lemma block_system seqs fecs l b w r :
  block_fecs (have B0 seqs) fecs -> fecs <> [] -> system ssrc B0 orig seqs fecs l b w r -> is_Some r.
Proof.
  intros Hb Hne [HF Hr Hleast W Er Hlost].
  assert (Hlen : length l = length fecs) by (by rewrite (Forall2_length _ _ _ HF), length_map).
  pose proof (fun i ds => block_stream _ _ _ i ds Hb HF) as Hds.
  destruct (lookup_lt_is_Some_2 l 0) as [ds0 Hzero]; [destruct fecs; [done|cbn in Hlen; lia]|].
  assert (b = 0%nat) as ->.
  { rewrite Forall_lookup in Hleast. pose proof (Hleast 0%nat _ Hzero) as Hle. destruct (Hds 0%nat _ Hzero) as [E _]. lia. }
  assert (El : shifted 0 l = l).
  { unfold shifted. rewrite <- (map_id l) at 2. apply map_ext. intros [x s]. cbn [fst snd]. by rewrite Nat.sub_0_r. }
  rewrite El in *.
  assert (Hu : forall p, union Rs.mask l p = bit_of M p).
  { intros p. apply eq_bool_prop_intro. rewrite !Is_true_true, union_true. unfold covers. split.
    - intros (x & s & [i Hi]%list_elem_of_lookup & [_ Hc]%andb_true_iff). destruct (Hds i _ Hi) as (E1 & E2 & _). cbn [fst snd] in *.
      subst x. rewrite E2, Nat.sub_0_r in Hc. done.
    - intros Hp. destruct ds0 as [x s]. destruct (Hds 0%nat _ Hzero) as (E1 & E2 & _). cbn [fst snd] in *. subst x.
      exists 0%nat, s. split; [by eapply list_elem_of_lookup_2|]. by rewrite E2, Nat.sub_0_r. }
  assert (EM : Rs.consider w = M).
  { apply bits_ext. intros p. by rewrite (window_consider _ _ _ _ W), Hu. }
  assert (Ek : k_masks l = replicate (length fecs) M).
  { rewrite <- Hlen. unfold k_masks. symmetry. apply replicate_as_elem_of. split; [by rewrite length_map|].
    intros m ([x s] & -> & [i Hi]%list_elem_of_lookup)%list_elem_of_fmap. destruct (Hds i _ Hi) as (E1 & E2 & _).
    destruct (Forall2_lookup_l _ _ _ _ _ HF Hi) as (fp & _ & Hg). cbn [fst snd] in *. subst x.
    apply bits_ext. intros p. rewrite shift128_covers by (apply Hg || lia). unfold covers. by rewrite E2, Nat.sub_0_r. }
  destruct (block_solves (G := G) a d (length fecs) (length (positions_of 128 M)) span (base_nums l) M (Rs.arrive_bits w)) as (dist & Ed & _); try done.
  - unfold base_nums. by rewrite length_map.
  - intros t Ht. destruct (lookup_lt_is_Some_2 l t) as [ds Hi]; [lia|]. destruct (Hds t ds Hi) as (_ & _ & Ec).
    etrans; [|exact Ec]. apply list_lookup_total_correct. unfold base_nums. by rewrite list_lookup_fmap, Hi.
  - intros p [_ Hp]%arrived_elem. by apply M_span.
  - rewrite EM in Hlost. lia.
  - rewrite EM, Ek, Ed in Er. injection Er as <-. by eexists.
Qed.

(** ** Attempts on a block *)

(** The sequence numbers of the block that are not at hand. *)
Definition wanting (seqs : list Z) : list Z :=
  map (number B0) (filter (fun o => have B0 seqs o = false) (positions_of 32 M)).

Lemma block_miss seqs i f : of_block (have B0 seqs) i f -> miss (RsDec.fec f) = wanting seqs.
Proof. intros [(s & Hg & HM & _)]. rewrite (genuine_miss ssrc B0 orig _ _ _ Hg). cbn [fst snd Nat.add]. by rewrite HM. Qed.

Lemma same_packets {A} (key : A -> Z) (l0 : list A) : forall l l',
  NoDup (map key l0) -> Forall (fun x => x ∈ l0) l -> Forall (fun x => x ∈ l0) l' -> map key l = map key l' -> l = l'.
Proof.
  induction l as [|x l IH]; intros [|y l'] Hnd Hl Hl' E; try done. cbn [map] in E. injection E as E1 E2.
  apply Forall_cons in Hl as [Hx Hl], Hl' as [Hy Hl']. f_equal; [by eapply (keys_inj key)|by apply IH].
Qed.

(** The decoder holds the first FEC packets of the block, with the sequence
    numbers [fseqs]. *)
Record block_state (st : RsDec.Decoder) (rec : list RecoveredPacket) (fseqs : list Z) : Prop := {
  block_inv : inv st (known rec);
  block_rec : recovered_good rec;
  block_held : block_fecs (have B0 (known rec)) (fecs_of st);
  block_seqs : map RsDec.fec_seq (fecs_of st) = fseqs
}.

Lemma prepared_block st st1 rec fseqs :
  block_state st rec fseqs -> wanting (known rec) <> [] -> inv st1 (known rec) -> readied B0 st st1 ->
  block_state st1 rec fseqs.
Proof.
  intros [I Hrec Hb Hs] Hw I1 [HF _].
  assert (Hall : filter (fun f => miss (RsDec.fec f) <> []) (fecs_of st) = fecs_of st).
  { apply list_filter_all, Forall_lookup. intros i f Hf. by rewrite (block_miss _ _ _ (Hb i f Hf)). }
  rewrite Hall in HF. split; [done|done| |].
  - intros i f' Hf'. destruct (Forall2_lookup_r _ _ _ _ _ HF Hf') as (f & Hf & _ & ids & E).
    destruct (Hb i f Hf) as [(s & Hg & HM)]. split. exists s. split; [|done]. eapply genuine_same; [|exact Hg]. by rewrite E.
  - rewrite <- Hs. clear -HF. induction HF as [|f f' l l' [_ (ids & E)] _ IH]; [done|]. cbn [map]. rewrite IH. f_equal.
    unfold RsDec.fec_seq. by rewrite E.
Qed.

(** With fewer FEC packets than losses nothing happens; with as many, all the
    losses are recovered. *)
Lemma attempt_block st rec fseqs :
  block_state st rec fseqs -> (0 < length fseqs <= length (wanting (known rec)))%nat ->
  if decide (length fseqs < length (wanting (known rec)))%nat then
    exists st1, RsDec.AttemptRecovery st rec = Ok (st1, rec, 0) /\ block_state st1 rec fseqs
  else
    exists st' rec', RsDec.AttemptRecovery st rec = Ok (st', rec', Z.of_nat (length fseqs)) /\
      inv st' (known rec') /\ recovered_good rec' /\ fecs_of st' = [] /\
      (forall s, s ∈ known rec' <-> s ∈ known rec \/ s ∈ wanting (known rec)).
Proof.
  intros S Hlen. pose proof S as [I Hrec _ _]. assert (Hw : wanting (known rec) <> []) by (intros E; rewrite E in Hlen; cbn in Hlen; lia).
  destruct (attempt_eq ssrc B0 orig B0_u16 st rec I Hrec) as (st1 & I1 & Hprep & ->).
  pose proof (prepared_block _ _ _ _ S Hw I1 Hprep) as S1. pose proof S1 as [_ _ Hb1 Hs1].
  assert (Hl1 : length (fecs_of st1) = length fseqs) by (by rewrite <- Hs1, length_map).
  pose proof (readied_search _ _ _ Hprep) as Hsearch. pose proof (inv_loss_order _ _ _ _ _ I1) as Hlo.
  destruct (lookup_lt_is_Some_2 (fecs_of st1) 0) as [f0 Hf0]; [lia|].
  rewrite Forall_lookup in Hsearch. destruct (searchable_ready _ _ _ (Hsearch 0%nat f0 Hf0)) as (qs & _ & Eqs & Hqs).
  rewrite (block_miss _ _ _ (Hb1 0%nat f0 Hf0)) in Eqs.
  assert (Hall : Forall (misses_all (losses_of st1) qs) (fecs_of st1)).
  { apply Forall_lookup. intros i f Hf. destruct (searchable_ready _ _ _ (Hsearch i f Hf)) as (qs' & E & Eqs' & Hqs').
    rewrite (block_miss _ _ _ (Hb1 i f Hf)) in Eqs'. unfold misses_all. rewrite E. f_equal.
    eapply (same_packets RsDec.loss_seq (losses_of st1)); [by apply (ordered_nodup B0 B0_u16)|done|done|congruence]. }
  assert (Hord : ordered B0 (map RsDec.loss_seq qs)).
  { rewrite Eqs, <- (block_miss _ _ _ (Hb1 0%nat f0 Hf0)). apply (Hsearch 0%nat f0 Hf0). }
  assert (Hlq : length qs = length (wanting (known rec))) by (by rewrite <- Eqs, length_map).
  assert (Hqne : qs <> []) by (intros E0; rewrite E0 in Hlq; cbn [length] in Hlq; lia).
  pose proof (search_from B0 B0_u16 (losses_of st1) qs Hord (fecs_of st1) (length (fecs_of st1)) Hall) as E.
  rewrite E by (done || lia). rewrite bind_ok. destruct (decide (length fseqs < length (wanting (known rec)))%nat) as [Hlt|Hge].
  { rewrite decide_False by lia. by exists st1. }
  rewrite decide_True by lia.
  destruct (search_ok B0 B0_u16 (losses_of st1) (fecs_of st1) (length (fecs_of st1)) (readied_search _ _ _ Hprep)) as (r & Er & Hr).
  rewrite E, decide_True in Er by (done || lia). injection Er as <-.
  destruct (Hr _ _ eq_refl) as [Hsolv Hsub].
  destruct (solve_found_ok ssrc B0 orig B0_u16 st1 rec (fecs_of st1) qs I1 Hrec Hsolv Hsub)
    as [(_ & l & b & w & Hsys)|(st' & rec' & l & b & w & dist & ps & -> & _ & Eps & I' & Hrec' & Hel & Hl)].
  { apply block_system in Hsys as [? ?]; [done|done|]. intros E0. rewrite E0 in Hl1. cbn [length] in Hl1. lia. }
  exists st', rec'. split; [by rewrite Hl1|]. split_and!; [done|done| |].
  - apply length_zero_iff_nil. lia.
  - intros s. rewrite <- Eqs, <- Eps. unfold known. rewrite !list_elem_of_fmap. split.
    + intros (r & -> & [Hr'|(p & -> & Hp)%list_elem_of_fmap]%Hel); [left; eauto|right; by exists p].
    + intros [(r & -> & Hr')|(p & -> & Hp)]; [exists r|exists (recovered_of p)]; (split; [done|]); apply Hel; [by left|].
      right. apply list_elem_of_fmap. eauto.
Qed.
End Block.

(** ** The encoder's packets reach the decoder *)

Section Transmission.
Context {HP : Heap} {G : Galois} {GL : GaloisLaws G}.
Variables (ssrc B0 : Z) (orig : nat -> Packet).
Hypothesis B0_u16 : is_u16 B0.

Abbreviation media_at := (media_at ssrc B0 orig).

(** The batch [ms] is the media packets at the distances [d0 + os]. *)
Record batch_at (d0 : nat) (ms : list Packet) (os : list nat) : Prop := {
  batch_os_sorted : StronglySorted lt os;
  batch_os_first : head os = Some 0%nat;
  batch_os_span : Forall (fun o => o < 32)%nat os;
  batch_at_near : (d0 <= 96)%nat;
  batch_at_packets : ms = map (fun o => orig (d0 + o)%nat) os;
  batch_at_media : Forall (fun o => media_at (d0 + o)) os
}.

Section Batch.
Variables (d0 : nat) (ms : list Packet) (os : list nat).
Hypothesis B : batch_at d0 ms os.

Lemma batch_at_rs : rs_batch ms (number B0 d0) os.
Proof.
  destruct B as [B1 B2 B3 B4 -> B6]. split; try done.
  - apply Forall_fmap. eapply Forall_impl; [exact B6|]. intros o [H1 H2 _ _]. split; [done|]. cbn. lia.
  - rewrite Forall_forall in B6. apply Forall2_fmap_l, Forall_Forall2_diag, Forall_forall. intros o Ho.
    etrans; [exact (media_seq _ _ _ _ (B6 o Ho))|]. symmetry. apply number_add.
Qed.

Lemma batch_at_payload : (max_payload ms <= 1476)%nat.
Proof.
  destruct B as [_ _ _ _ -> B6]. clear B. unfold max_payload. induction B6 as [|o l [_ Ho _ _] _ IH]; cbn [map foldr]; [lia|].
  apply Nat.max_lub; [lia|exact IH].
Qed.

Lemma batch_at_bit o : o ∈ os -> (o < 32)%nat /\ (d0 + o < 128)%nat /\ media_at (d0 + o).
Proof.
  intros Ho. destruct B as [_ _ B3 B4 _ B6]. rewrite Forall_forall in B3, B6. specialize (B3 o Ho). cbv beta in B3.
  split_and!; [done|lia|by apply B6].
Qed.

Lemma batch_positions mask : (forall p, bit_of mask p = bool_decide (p ∈ os)) -> positions_of 32 mask = os.
Proof.
  intros Hbits. apply sorted_ext; [apply filter_seq_sorted|apply B|]. intros p.
  unfold positions_of. rewrite arrived_elem, Hbits, bool_decide_eq_true. split; [tauto|]. intros Hp. split; [by apply batch_at_bit|done].
Qed.

(** The code word over the batch is the code word over the session's packets. *)
Lemma batch_code mask cur i :
  (forall p, bit_of mask p = bool_decide (p ∈ os)) ->
  rs_code ms (fun j => gf_pow cur (os !!! j)) i = code_byte orig d0 mask cur i.
Proof.
  intros Hbits. pose proof (batch_positions mask Hbits) as Hos. unfold rs_code, code_byte.
  rewrite <- (gf_sum_positions (fun o => galois_single_multiply (contribution (orig (d0 + o)%nat) i) (gf_pow cur o)) (bit_of mask) 32).
  unfold positions_of in Hos. rewrite Hos, (batch_at_packets _ _ _ B), length_map. apply gf_sum_ext. intros j Hj.
  do 2 f_equal. destruct (lookup_lt_is_Some_2 os j Hj) as [o Ho]. rewrite (list_lookup_total_correct _ _ _ Ho).
  apply list_lookup_total_correct. by rewrite list_lookup_fmap, Ho.
Qed.

(** A FEC packet of the batch arrives. *)
Lemma encoded_arrival cur sent rp :
  fec_packet_of ms (number B0 d0) os cur sent -> is_byte cur ->
  rp_is_fec rp = true -> rp_ssrc rp = ssrc -> in_session B0 (rp_seq_num rp) -> rp_pkt rp = sent ->
  fec_arrival ssrc B0 orig rp.
Proof.
  intros [_ Hsent] Hcur Hfec Hssrc Hseq Hpkt. split; [done..|].
  destruct (Hsent (rp_ssrc rp) (rp_seq_num rp)) as (mask & data & Eread & Hu & Hbits & Hb & Hlen & Hcode). rewrite <- Hpkt in Eread.
  exists d0, cur, mask, (max_payload ms), data. split_and!; try done.
  - apply B.
  - rewrite Hbits. apply bool_decide_eq_true. pose proof (batch_os_first _ _ _ B) as H. by destruct os; [|injection H as ->; left].
  - pose proof batch_at_payload. lia.
  - intros i Hi. rewrite Hcode by done. by apply batch_code.
  - intros o Ho. rewrite Hbits in Ho. apply bool_decide_eq_true in Ho. by apply batch_at_bit.
Qed.
End Batch.

(** [rp] is a packet of the session: a media packet that was sent, or a FEC
    packet of a batch that [EncodeRSFec] was given. *)
Inductive sent_packet (rp : ReceivedPacket) : Prop :=
| sent_media p : media_arrival ssrc B0 orig rp p -> sent_packet rp
| sent_fec params e protection_factor e' sent d0 ms os a :
    batch_at d0 ms os -> Rs.curBaseNum e = gf_pow 2 a ->
    (0 < Rs.num_fec_packets_of params (length ms) protection_factor <= length (Rs.generated_fec_packets_ e))%nat ->
    Rs.EncodeRSFec params e ms protection_factor = Ok (e', 0, sent) -> rp_pkt rp ∈ sent ->
    rp_is_fec rp = true -> rp_ssrc rp = ssrc -> in_session B0 (rp_seq_num rp) -> sent_packet rp.

Lemma pow_two_byte a : is_byte (gf_pow 2 a).
Proof. apply gf_pow_byte. unfold in_uw. lia. Qed.

Lemma sent_arrival rp : sent_packet rp -> arrival ssrc B0 orig rp.
Proof.
  intros [p Hm|params e pf e' sent d0 ms os a B Hcur Hk E Hin Hfec Hssrc Hseq]; [left; by exists p|]. right.
  destruct (EncodeRSFec_ok ms (number B0 d0) os (batch_at_rs _ _ _ B)) with (params := params) (e := e) (protection_factor := pf) (a := a)
    as (e2 & sent2 & E2 & _ & _ & Hlen & Hall); [apply number_range|pose proof (batch_at_payload _ _ _ B); lia|lia|lia|done|].
  rewrite E in E2. injection E2 as <- <-. apply list_elem_of_lookup in Hin as [i Hi].
  pose proof (lookup_lt_Some _ _ _ Hi) as Hlt. rewrite Hlen in Hlt. specialize (Hall i Hlt).
  rewrite (list_lookup_total_correct _ _ _ Hi) in Hall. eapply (encoded_arrival d0 ms os B); [exact Hall|apply pow_two_byte|done..].
Qed.
End Transmission.
