(* ===== verification/RsRepair.v ===== *)
(** * RsRepair: a run that repairs a block

    Encoder and decoder together: the media packets of a batch arrive except for
    some, in any order, then as many FEC packets of the batch, every [d]-th of
    them.  Until enough FEC packets are there the decoder waits; with the last
    one it has every packet of the batch. *)

From stdpp Require Import sorting gmap.
From S2P Require Import Prelude.
From S2P Require Import SeqNum.
From S2P Require Import FecTypes.
From S2P Require Import FecDecoder.
From S2P Require Import DecoderLemmas.
From S2P Require Import WindowSort.
From S2P Require Import CowBuffer.
From S2P Require Import Galois.
From S2P Require Import ReedSolMatrix.
From S2P Require Import ReedSolSolve.
From S2P Require Import ReedSolRows.
From S2P Require Import RsCodec.
From S2P Require Import RsWindow.
From S2P Require Import RsRecover.
From S2P Require Import RsDecoder.
From S2P Require Import RsState.
From S2P Require Import RsLinks.
From S2P Require Import RsInsert.
From S2P Require Import RsAttempt.
From S2P Require Import ReedSolGuarantees.
From S2P Require Import RsBytes.
From S2P Require Import RsEncoder.
From S2P Require Import RsPublish.
From S2P Require Import RsSession.
From S2P Require Import RsBlock.

(** The bits [os]. *)
Definition mask_of (os : list nat) : Z := foldr (fun o m => Z.lor m (Z.shiftl 1 (Z.of_nat o))) 0 os.

Lemma mask_of_bit os p : bit_of (mask_of os) p = bool_decide (p ∈ os).
Proof.
  induction os as [|o os IH]; cbn [mask_of foldr].
  - rewrite bool_decide_false by (by apply not_elem_of_nil). apply Z.testbit_0_l.
  - fold (mask_of os). rewrite bit_of_set, IH. apply eq_bool_prop_intro. rewrite orb_True, !bool_decide_spec, elem_of_cons. tauto.
Qed.

(** Sorting what is sorted. *)
Lemma list_sort_id B0 {A} (key : A -> Z) l : is_u16 B0 -> ordered B0 (map key l) -> list_sort key l = l.
Proof.
  intros HB Ho. pose proof (ordered_nodup B0 HB _ Ho) as Hnd.
  apply (same_packets key l); [done|by apply list_sort_Forall, Forall_forall|by apply Forall_forall|].
  apply (ordered_ext B0 HB); [|done|].
  - apply list_sort_ordered; [done| |done]. pose proof (ordered_session _ _ Ho) as H. exact (proj1 (Forall_fmap key _ l) H).
  - intros s. by rewrite list_sort_perm.
Qed.

Section Repair.
Context {HP : Heap} {G : Galois} {GL : GaloisLaws G} {GG : GaloisGenerator G}.
Variables (ssrc B0 : Z) (orig : nat -> Packet).
Hypothesis B0_u16 : is_u16 B0.

Abbreviation inv := (inv ssrc B0 orig).
Abbreviation recovered_good := (recovered_good ssrc B0 orig).
Abbreviation media_arrival := (media_arrival ssrc B0 orig).
Abbreviation fecs_of := RsDec.received_fec_packets_.

(** ** The media packets *)

Lemma media_step st rec rp p :
  inv st (known rec) -> recovered_good rec -> fecs_of st = [] -> media_arrival rp p ->
  exists st' rec', RsDec.DecodeRSFec st rp rec = Ok (st', rec', 0%nat) /\
    inv st' (known rec') /\ recovered_good rec' /\ fecs_of st' = [] /\
    (forall s, s ∈ known rec' <-> s ∈ known rec \/ s = number B0 p).
Proof.
  intros I Hrec E Hm. assert (Ha : arrival ssrc B0 orig rp) by (left; by exists p).
  unfold RsDec.DecodeRSFec. pose proof (arrival_session ssrc B0 orig B0_u16 _ Ha) as Hs.
  rewrite (reset_never ssrc B0 orig) by done. rewrite (InsertPacket_eq ssrc B0 orig _ _ _ _ I Hs), (arrival_media _ _ _ _ _ Hm).
  destruct (InsertMediaPacket_ok ssrc B0 orig B0_u16 st rec rp p I Hrec Hm) as (st1 & rec1 & -> & I1 & Hrec1 & Hel & _ & _ & Hl).
  rewrite !bind_ok, (keep_all ssrc B0 orig B0_u16) by done. rewrite E in Hl. apply length_zero_iff_nil in Hl.
  destruct (attempt_none ssrc B0 orig B0_u16 st1 rec1 I1 Hrec1 Hl) as (st2 & E2 & I2 & Hl2).
  rewrite Hl. cbn [length RsDec.attempts]. rewrite E2, bind_ok. cbn [Z.eqb]. exists st2, rec1. done.
Qed.

Lemma media_phase rps : forall ps st rec,
  inv st (known rec) -> recovered_good rec -> fecs_of st = [] -> Forall2 media_arrival rps ps ->
  exists st' rec', receive_all st rec rps = Ok (st', rec') /\
    inv st' (known rec') /\ recovered_good rec' /\ fecs_of st' = [] /\
    (forall s, s ∈ known rec' <-> s ∈ known rec \/ s ∈ map (number B0) ps).
Proof.
  induction rps as [|rp rps IH]; intros ps st rec I Hrec E HF; unfold receive_all; cbn [foldM].
  { apply Forall2_nil_inv_l in HF as ->. exists st, rec. split_and!; try done. intros s. cbn [map]. rewrite elem_of_nil. tauto. }
  apply Forall2_cons_inv_l in HF as (p & ps' & Hm & HF & ->).
  destruct (media_step st rec rp p I Hrec E Hm) as (st1 & rec1 & -> & I1 & Hrec1 & E1 & Hel). rewrite !bind_ok.
  destruct (IH ps' st1 rec1 I1 Hrec1 E1 HF) as (st' & rec' & Erun & I' & Hrec' & E' & Hel'). exists st', rec'.
  split_and!; [exact Erun|done..|]. intros s. rewrite Hel', Hel. cbn [map]. rewrite elem_of_cons. tauto.
Qed.

(** ** The FEC packets *)

Section Block.
Variables (ms : list Packet) (os : list nat) (a d span : nat).
Hypothesis B : batch_at ssrc B0 orig 0 ms os.
Hypothesis d_pos : (0 < d)%nat.
Hypothesis d_span : (d * span < 255)%nat.
Hypothesis os_span : Forall (fun o => o <= span)%nat os.

Abbreviation M := (mask_of os).
Abbreviation block_state := (block_state ssrc B0 orig M a d).
Abbreviation wanting := (wanting B0 M).

(** [rp] carries FEC packet [i] of those that arrive. *)
Record fec_of_block (i : nat) (rp : ReceivedPacket) : Prop := {
  fec_of_block_fec : rp_is_fec rp = true;
  fec_of_block_ssrc : rp_ssrc rp = ssrc;
  fec_of_block_code : fec_packet_of ms (number B0 0) os (gf_pow 2 (a + d * i)) (rp_pkt rp)
}.

Lemma M_first : bit_of M 0 = true.
Proof.
  rewrite mask_of_bit. apply bool_decide_eq_true. pose proof (batch_os_first _ _ _ _ _ _ B) as H. by destruct os; [|injection H as ->; left].
Qed.

Lemma M_span p : bit_of M p = true -> (p <= span)%nat.
Proof. rewrite mask_of_bit, bool_decide_eq_true. intros Hp. rewrite Forall_forall in os_span. by apply os_span. Qed.

Lemma wanting_length seqs : (length (wanting seqs) <= 32)%nat.
Proof.
  unfold RsBlock.wanting. rewrite length_map. etrans; [apply length_filter|]. unfold positions_of, arrived.
  etrans; [apply length_filter|]. by rewrite length_seq.
Qed.

(** [InsertFecPacket] stores the next FEC packet behind the others. *)
Lemma insert_block st rec fseqs rp :
  block_state st rec fseqs -> fec_of_block (length fseqs) rp -> ordered B0 (fseqs ++ [rp_seq_num rp]) -> (length fseqs < 32)%nat ->
  exists st1, RsDec.InsertPacket st rp rec = Ok (st1, rec) /\ block_state st1 rec (fseqs ++ [rp_seq_num rp]).
Proof.
  intros [I Hrec Hb Hs] [Hfec Hssrc Hcode] Ho Hlt. pose proof (ordered_session _ _ Ho) as Hses.
  apply Forall_app in Hses as [_ [Hses _]%Forall_cons].
  pose proof (encoded_arrival ssrc B0 orig 0 ms os B _ _ rp Hcode (pow_two_byte _) Hfec Hssrc Hses eq_refl) as Ha.
  rewrite (InsertPacket_eq ssrc B0 orig _ _ _ _ I Hses), Hfec.
  destruct (rs_insert_fec ssrc B0 orig B0_u16 st rec rp I Hrec Ha)
    as (st1 & -> & I1 & [[Hin _]|(_ & f & [d' s'] & d1 & cur & mask & plen & data & Eread & Est & Efs & Hg & _ & Ed & Em & Ec)]).
  { exfalso. rewrite Hs in Hin. pose proof (ordered_nodup B0 B0_u16 _ Ho) as Hnd. apply NoDup_app in Hnd as (_ & Hd & _).
    apply (Hd _ Hin). by left. }
  rewrite !bind_ok, (keep_all ssrc B0 orig B0_u16) by done. exists st1. split; [done|].
  assert (Est' : fecs_of st1 = fecs_of st ++ [f]).
  { rewrite Est. unfold stored_with. rewrite (list_sort_id B0); [|done|].
    - rewrite decide_False; [done|]. rewrite length_app, <- (length_map RsDec.fec_seq), Hs. cbn [length]. lia.
    - rewrite map_app, Hs. cbn [map]. by rewrite Efs. }
  destruct Hcode as [_ Hcode]. destruct (Hcode (rp_ssrc rp) (rp_seq_num rp)) as (mask' & data' & Eread' & _ & Hbits & _).
  rewrite Eread in Eread'. unfold read_packet in Eread'. injection Eread' as Hbase -> -> _ _. cbn [fst snd] in *. subst d'.
  pose proof (genuine_placed _ _ _ _ _ _ Hg) as [_ P2 _ _]. cbn [fst snd] in P2.
  apply (number_inj B0 B0_u16) in Hbase; [|lia|lia]. subst d1.
  split; [done|done| |].
  - intros i f' Hi. rewrite Est' in Hi. apply lookup_app_Some in Hi as [Hi|[Hge Hi]]; [by apply Hb|].
    apply list_lookup_singleton_Some in Hi as [Hz <-]. assert (Hl : length (fecs_of st) = length fseqs) by (by rewrite <- Hs, length_map).
    replace i with (length fseqs) by lia. split. exists s'. split_and!; [done| |done].
    apply bits_ext. intros p. by rewrite Em, Hbits, mask_of_bit.
  - rewrite Est', map_app, Hs. cbn [map]. by rewrite Efs.
Qed.

(** One FEC packet: the decoder waits, or it recovers everything. *)
Lemma fec_step st rec fseqs rp :
  block_state st rec fseqs -> fec_of_block (length fseqs) rp -> ordered B0 (fseqs ++ [rp_seq_num rp]) ->
  (length fseqs < length (wanting (known rec)))%nat ->
  if decide (S (length fseqs) < length (wanting (known rec)))%nat then
    exists st1, RsDec.DecodeRSFec st rp rec = Ok (st1, rec, 0%nat) /\ block_state st1 rec (fseqs ++ [rp_seq_num rp])
  else
    exists st' rec', RsDec.DecodeRSFec st rp rec = Ok (st', rec', length (wanting (known rec))) /\
      recovered_good rec' /\ (forall s, s ∈ known rec' <-> s ∈ known rec \/ s ∈ wanting (known rec)).
Proof.
  intros S Hrp Ho Hlt. pose proof (wanting_length (known rec)) as H32.
  pose proof (ordered_session _ _ Ho) as Hses. apply Forall_app in Hses as [_ [Hses _]%Forall_cons].
  unfold RsDec.DecodeRSFec. rewrite (reset_never ssrc B0 orig) by (done || apply S).
  destruct (insert_block st rec fseqs rp S Hrp Ho ltac:(lia)) as (st1 & -> & S1). rewrite bind_ok.
  assert (Hl1 : length (fseqs ++ [rp_seq_num rp]) = Datatypes.S (length fseqs)) by (rewrite length_app; cbn; lia).
  assert (Hn : length (fecs_of st1) = Datatypes.S (length fseqs)).
  { by rewrite <- Hl1, <- (block_seqs _ _ _ _ _ _ _ _ _ S1), length_map. }
  pose proof (attempt_block ssrc B0 orig B0_u16 M a d span d_pos d_span M_first M_span st1 rec _ S1 ltac:(lia)) as Hatt.
  rewrite Hl1 in Hatt. rewrite Hn. cbn [RsDec.attempts]. case_decide as Hmore.
  - destruct Hatt as (st2 & -> & S2). rewrite bind_ok. cbn [Z.eqb]. by exists st2.
  - destruct Hatt as (st2 & rec2 & -> & I2 & Hrec2 & E2 & Hel). rewrite bind_ok.
    rewrite (proj2 (Z.eqb_neq _ _)), (proj2 (Z.ltb_lt _ _)), Nat2Z.id, Nat.add_0_l by lia.
    destruct (attempt_none ssrc B0 orig B0_u16 st2 rec2 I2 Hrec2 E2) as (st3 & -> & _). rewrite bind_ok. cbn [Z.eqb].
    exists st3, rec2. by replace (length (wanting (known rec))) with (Datatypes.S (length fseqs)) by lia.
Qed.

Lemma fec_phase rps : forall st rec fseqs,
  block_state st rec fseqs -> (forall i rp, rps !! i = Some rp -> fec_of_block (length fseqs + i) rp) ->
  ordered B0 (fseqs ++ map rp_seq_num rps) ->
  (length fseqs + length rps = length (wanting (known rec)))%nat ->
  exists st' rec', receive_all st rec rps = Ok (st', rec') /\ recovered_good rec' /\
    (forall s, s ∈ known rec' <-> s ∈ known rec \/ (rps <> [] /\ s ∈ wanting (known rec))).
Proof.
  induction rps as [|rp rps IH]; intros st rec fseqs S Hrps Ho Hl; unfold receive_all; cbn [foldM].
  { exists st, rec. split_and!; [done|apply S|]. intros s. tauto. }
  cbn [map length] in *. rewrite cons_middle, app_assoc in Ho.
  pose proof (Hrps 0%nat rp eq_refl) as Hrp. rewrite Nat.add_0_r in Hrp.
  assert (Ho1 : ordered B0 (fseqs ++ [rp_seq_num rp])) by (eapply ordered_sublist; [apply sublist_inserts_r; reflexivity|exact Ho]).
  pose proof (fec_step st rec fseqs rp S Hrp Ho1 ltac:(lia)) as Hstep. case_decide as Hmore.
  - destruct Hstep as (st1 & -> & S1). rewrite !bind_ok.
    destruct (IH st1 rec (fseqs ++ [rp_seq_num rp]) S1) as (st' & rec' & E & Hrec' & Hel).
    + intros i rp' Hi. rewrite length_app. cbn [length]. replace (length fseqs + 1 + i)%nat with (length fseqs + Datatypes.S i)%nat by lia. by apply Hrps.
    + done.
    + rewrite length_app. cbn [length]. lia.
    + exists st', rec'. split_and!; [exact E|done|]. intros s. rewrite Hel.
      assert (rps <> []) by (intros ->; cbn [length] in Hl; lia). split; intros [?|[_ ?]]; auto.
  - destruct Hstep as (st1 & rec1 & -> & Hrec1 & Hel). rewrite !bind_ok.
    destruct rps; [|cbn [length] in Hl; lia]. cbn [foldM]. exists st1, rec1. split_and!; [done|done|]. intros s. rewrite Hel.
    split; [intros [?|?]; auto|intros [?|[_ ?]]; auto].
Qed.

(** ** The run *)

Lemma wanting_elem seqs s : s ∈ wanting seqs <-> exists o, o ∈ os /\ s = number B0 o /\ s ∉ seqs.
Proof.
  unfold RsBlock.wanting, have. rewrite list_elem_of_fmap. split.
  - intros (o & -> & [Hn [_ Ho]%arrived_elem]%list_elem_of_filter). rewrite mask_of_bit, bool_decide_eq_true in Ho.
    rewrite bool_decide_eq_false in Hn. eauto.
  - intros (o & Ho & -> & Hn). exists o. split; [done|]. apply list_elem_of_filter. rewrite bool_decide_eq_false. split; [done|].
    apply arrived_elem. rewrite mask_of_bit, bool_decide_eq_true. split; [by eapply batch_at_bit|done].
Qed.

Lemma os_small o : o ∈ os -> (o < 128)%nat.
Proof. intros Ho. destruct (batch_at_bit _ _ _ _ _ _ B o Ho). lia. Qed.

Lemma whole_batch rec :
  recovered_good rec -> (forall s, s ∈ known rec <-> s ∈ map (number B0) os) -> map rec_pkt rec = ms.
Proof.
  intros [Ho Hm] Hel.
  assert (Hord : ordered B0 (map (number B0) os)).
  { apply ordered_numbers; [done|apply B|]. apply Forall_forall. intros o Hin. by apply os_small. }
  pose proof (ordered_ext B0 B0_u16 _ _ Ho Hord Hel) as E.
  assert (Ep : map rec_pkt rec = map orig (map (pos B0) (known rec))).
  { unfold known. rewrite !map_map. apply map_ext_in. intros r Hr%list_elem_of_In. rewrite Forall_forall in Hm. by apply Hm. }
  rewrite Ep, E, map_map, (batch_at_packets _ _ _ _ _ _ B), map_map. apply map_ext_in. intros o Hin%list_elem_of_In.
  rewrite (pos_number B0 B0_u16); [done|]. pose proof (os_small o Hin). lia.
Qed.

Lemma block_run media fecs kept :
  Forall2 media_arrival media kept -> Forall (fun o => o ∈ os) kept ->
  (forall i rp, fecs !! i = Some rp -> fec_of_block i rp) -> ordered B0 (map rp_seq_num fecs) ->
  length fecs = length (filter (fun o => o ∉ kept) os) ->
  exists st' rec', receive_all (RsDec.CreateRSFec ssrc) [] (media ++ fecs) = Ok (st', rec') /\ map rec_pkt rec' = ms.
Proof.
  intros Hmedia Hkept Hfecs Hord Hlen.
  assert (Hgood : recovered_good []) by (split; [apply ordered_nil|constructor]).
  destruct (media_phase media kept (RsDec.CreateRSFec ssrc) [] (inv_created _ _ _) Hgood eq_refl Hmedia)
    as (st1 & rec1 & E1 & I1 & Hrec1 & Ef1 & Hel1).
  rewrite Forall_forall in Hkept.
  assert (Hk : forall o, o ∈ os -> number B0 o ∈ known rec1 <-> o ∈ kept).
  { intros o Ho. rewrite Hel1, list_elem_of_fmap. split.
    - intros [H|(o' & E & Ho')]; [by apply elem_of_nil in H|]. apply (number_inj B0 B0_u16) in E; [by subst|..].
      + pose proof (os_small o Ho). lia.
      + pose proof (os_small o' (Hkept o' Ho')). lia.
    - intros Hin. right. eauto. }
  assert (Hw : length (wanting (known rec1)) = length fecs).
  { rewrite Hlen. unfold RsBlock.wanting. rewrite length_map, (batch_positions _ _ _ _ _ _ B) by apply mask_of_bit.
    f_equal. apply filter_agree. intros o Ho. unfold have. rewrite bool_decide_eq_false. by rewrite Hk. }
  destruct (fec_phase fecs st1 rec1 []) as (st' & rec' & E & Hrec' & Hel); [|done|done|by rewrite Hw|].
  { split; [done|done| |by rewrite Ef1]. intros i f Hi. by rewrite Ef1 in Hi. }
  exists st', rec'. split.
  { unfold receive_all in *. rewrite foldM_app, E1, bind_ok. exact E. }
  assert (Hel1' : forall s, s ∈ known rec1 -> exists o, s = number B0 o /\ o ∈ os).
  { intros s [H|(o & -> & Ho)%list_elem_of_fmap]%Hel1; [by apply elem_of_nil in H|eauto]. }
  apply whole_batch; [done|]. intros s. rewrite Hel, wanting_elem, list_elem_of_fmap. split.
  - intros [(o & -> & Ho)%Hel1'|[_ (o & Ho & -> & _)]]; eauto.
  - intros (o & -> & Ho). destruct (decide (number B0 o ∈ known rec1)) as [Hin|Hn]; [by left|right]. split; [|eauto].
    intros ->. symmetry in Hlen. apply length_zero_iff_nil in Hlen. rewrite (Hk o Ho) in Hn.
    apply (not_elem_of_nil o). rewrite <- Hlen. by apply list_elem_of_filter.
Qed.
End Block.
End Repair.
