(* ===== verification/RsGuarantees.v ===== *)
(** * RsGuarantees: what the Reed-Solomon codec promises

    The properties of [EncodeRSFec] and [DecodeRSFec], each at a concrete input
    as well. *)

From stdpp Require Import sorting gmap.
From S2P Require Import Prelude.
From S2P Require Import SeqNum.
From S2P Require Import FecTypes.
From S2P Require Import FecDecoder.
From S2P Require Import DecoderLemmas.
From S2P Require Import WindowSort.
From S2P Require Import CowBuffer.
From S2P Require Import Galois.
From S2P Require Import ReedSolMatrix.
From S2P Require Import ReedSolSolve.
From S2P Require Import ReedSolRows.
From S2P Require Import RsCodec.
From S2P Require Import RsWindow.
From S2P Require Import RsRecover.
From S2P Require Import RsDecoder.
From S2P Require Import RsState.
From S2P Require Import RsLinks.
From S2P Require Import RsInsert.
From S2P Require Import RsAttempt.
From S2P Require Import ReedSolGuarantees.
From S2P Require Import RsEncoder.
From S2P Require Import RsSession.
From S2P Require Import RsBlock.
From S2P Require Import RsRepair.

Section Guarantees.
Context {HP : Heap} {G : Galois} {GL : GaloisLaws G} {GG : GaloisGenerator G}.



(** C28. [EncodeRSFec] encodes.  For a batch of media packets whose sequence
    numbers are at offsets below 32 from the first it returns 0 and as many FEC
    packets as asked for, advances the base number by as many powers, and FEC
    packet [i] is one that [ReadFecHeader] reads back: base sequence number, base
    number, mask and length, with, at every byte of the media packets, the sum
    over the batch of that byte times the base number to the packet's offset. *)
Theorem EncodeRSFec_correct params e ms base os protection_factor a :
  rs_batch ms base os -> is_u16 base -> Z.of_nat (max_payload ms) < 65536 -> Rs.curBaseNum e = gf_pow 2 a ->
  let k := Rs.num_fec_packets_of params (length ms) protection_factor in
  (0 < k <= length (Rs.generated_fec_packets_ e))%nat ->
  exists e' sent, Rs.EncodeRSFec params e ms protection_factor = Ok (e', 0, sent) /\
    Rs.curBaseNum e' = gf_pow 2 (a + k) /\ length sent = k /\
    forall i, (i < k)%nat -> fec_packet_of ms base os (gf_pow 2 (a + i)) (sent !!! i).
Proof.
  intros B Hbase Hmax Hcur k Hk.
  destruct (EncodeRSFec_ok ms base os B Hbase Hmax params e protection_factor a) as (e' & sent & E & Hc & _ & Hl & Hall); [lia|lia|done|].
  eauto 10.
Qed.

End Guarantees.

(** ** Concrete packets *)

(** A media packet of stream 1 with sequence number [s] and one byte. *)
Definition tiny (s b : Z) : Packet := [128; 96; s / 256; s mod 256; 0; 0; 0; b; 0; 0; 0; 1; b].
Definition tiny_at (p : nat) : Packet := tiny (number 65534 p) (Z.of_nat p + 1).
Definition media_in (p : nat) : ReceivedPacket := mkReceivedPacket 1 (number 65534 p) false false (tiny_at p).
Definition fec_in (sent : list Packet) (p i : nat) : ReceivedPacket :=
  mkReceivedPacket 1 (number 65534 p) true false (sent !!! i).
Definition plain : Rs.Params := Rs.mkParams Rs.RSFECBlock 0 0.

Example tiny_run :
  let '(e, _, sent) := match Rs.EncodeRSFec (G := gf256) plain Rs.new_encoder (map tiny_at [0; 1; 3]%nat) 255 with
                       | Ok r => r | Fault _ => (Rs.new_encoder, -1, []) end in
  match receive_all (HP := zero_heap) (G := gf256) (RsDec.CreateRSFec 1) []
    ([media_in 1] ++ [fec_in sent 4 0; fec_in sent 5 1]) with
  | Ok (_, rec) => map rec_pkt rec
  | Fault _ => []
  end = map tiny_at [0; 1; 3]%nat.
Proof. vm_compute. reflexivity. Qed.


(** ** Witnesses *)

(** The FEC packets of packets 0, 1 and 3. *)
Definition tiny_sent : list Packet := Eval vm_compute in
  match Rs.EncodeRSFec (HP := zero_heap) (G := gf256) plain Rs.new_encoder (map tiny_at [0; 1; 3]%nat) 255 with
  | Ok (_, _, sent) => sent
  | Fault _ => []
  end.

Lemma tiny_encoded :
  exists e, Rs.EncodeRSFec (HP := zero_heap) (G := gf256) plain Rs.new_encoder (map tiny_at [0; 1; 3]%nat) 255 = Ok (e, 0, tiny_sent).
Proof. eexists. vm_compute. reflexivity. Qed.

Lemma tiny_decoded :
  exists x, receive_all (HP := zero_heap) (G := gf256) (RsDec.CreateRSFec 1) []
    [fec_in tiny_sent 5 1; fec_in tiny_sent 4 0; media_in 3] = Ok x.
Proof. eexists. vm_compute. reflexivity. Qed.

Lemma tiny_media p : (p < 4)%nat -> media_at 1 65534 tiny_at p.
Proof. intros Hp. do 4 (destruct p as [|p]; [split; [compute_bytes|cbn; lia|vm_compute; reflexivity..]|]). lia. Qed.

Lemma tiny_arrival p : (p < 4)%nat -> media_arrival 1 65534 tiny_at (media_in p) p.
Proof. intros Hp. split; [done|lia|done|done|by apply tiny_media]. Qed.

Lemma tiny_batch : batch_at 1 65534 tiny_at 0 (map tiny_at [0; 1; 3]%nat) [0; 1; 3]%nat.
Proof.
  split; [repeat constructor; lia|done|repeat (apply Forall_cons_2; [lia|]); done|lia|done|].
  repeat (apply Forall_cons_2; [apply tiny_media; lia|]). done.
Qed.

Lemma tiny_fecs sent : ordered 65534 (map rp_seq_num [fec_in sent 4 0; fec_in sent 5 1]).
Proof. apply (ordered_numbers 65534 ltac:(unfold in_uw; lia) [4; 5]%nat); repeat constructor; lia. Qed.


Lemma tiny_fec_sent p i : (p < 128)%nat -> (i < 2)%nat ->
  sent_packet (HP := zero_heap) (G := gf256) 1 65534 tiny_at (fec_in tiny_sent p i).
Proof.
  intros Hp Hi. destruct tiny_encoded as [e' E]. apply (sent_fec 1 65534 tiny_at _ plain Rs.new_encoder 255 e' tiny_sent 0 _ _ 0 tiny_batch).
  - reflexivity.
  - split; apply Nat.leb_le; vm_compute; reflexivity.
  - exact E.
  - apply (list_elem_of_lookup_2 _ i). apply list_lookup_lookup_total_lt. cbn. lia.
  - reflexivity.
  - reflexivity.
  - apply number_session; [unfold in_uw; lia|done].
Qed.


Lemma EncodeRSFec_correct_witness :
  exists e' sent, Rs.EncodeRSFec (HP := zero_heap) (G := gf256) plain Rs.new_encoder (map tiny_at [0; 1; 3]%nat) 255 = Ok (e', 0, sent) /\
    length sent = 3%nat /\ fec_packet_of (map tiny_at [0; 1; 3]%nat) 65534 [0; 1; 3]%nat (gf_pow 2 1) (sent !!! 1%nat).
Proof.
  destruct (EncodeRSFec_correct (HP := zero_heap) (G := gf256) plain Rs.new_encoder (map tiny_at [0; 1; 3]%nat) 65534 [0; 1; 3]%nat 255 0)
    as (e' & sent & E & _ & Hl & H).
  - exact (batch_at_rs 1 65534 tiny_at 0 _ _ tiny_batch).
  - unfold in_uw. lia.
  - vm_compute. reflexivity.
  - reflexivity.
  - split; apply Nat.leb_le; vm_compute; reflexivity.
  - exists e', sent. split; [exact E|]. split; [by rewrite Hl|]. apply (H 1%nat). apply Nat.leb_le. vm_compute. reflexivity.
Defined.
