(* ===== verification/RsReceiver.v ===== *)
(** * RsReceiver: [RS_FEC/RSfec_receiver.{h,cc}]

    The receiver of the Reed-Solomon code.  [AddReceivedRedPacket] is that of
    [UlpfecReceiver]; [ProcessReceivedFec] delivers recovered packets inside the
    loop over the received packets, and returns from it at the first packet
    after which nothing has been recovered.  As in [FecReceivers] the callback is
    the list of packets handed to it and the clock the argument [now].

    As [RtpVideoStreamReceiver2] drives it, one packet at a time, what it has
    delivered is what its decoder knows, every repaired packet once, with the
    bytes that were sent. *)

From stdpp Require Import sorting gmap.
From S2P Require Import Prelude.
From S2P Require Import CowBuffer.
From S2P Require Import RtpExtensions.
From S2P Require Import RtpPacketModel.
From S2P Require Import RtpPacketLaws.
From S2P Require Import RtpPacketOps.
From S2P Require Import RtpPacketSession.
From S2P Require Import SeqNum.
From S2P Require Import FecTypes.
From S2P Require Import FecDecoder.
From S2P Require Import DecoderLemmas.
From S2P Require Import Galois.
From S2P Require Import WindowSort.
From S2P Require Import Peeling.
From S2P Require Import PeelingFresh.
From S2P Require Import FecReceivers.
From S2P Require Import ReceiverLaws.
From S2P Require Import ReceiverSession.
From S2P Require Import ReceiverGuarantees.
From S2P Require Import RsCodec.
From S2P Require Import RsWindow.
From S2P Require Import RsRecover.
From S2P Require Import RsDecoder.
From S2P Require Import RsState.
From S2P Require Import RsLinks.
From S2P Require Import RsInsert.
From S2P Require Import RsSession.

Module RSfecReceiver.

Record t : Type := mk {
  ssrc_ : Z;
  rsfec_payload_type_ : Z;
  fec_ : RsDec.Decoder;
  received_packets_ : list Received;
  recovered_packets_ : list RecoveredPacket;
  packet_counter_ : FecPacketCounter
}.

(** The constructor: [CreateRSFec(ssrc_, clock)]. *)
Definition new (ssrc rsfec_payload_type : Z) : t :=
  mk ssrc rsfec_payload_type (RsDec.CreateRSFec ssrc) [] [] empty_counter.

Definition fec_payload_type := rsfec_payload_type_.
Definition GetPacketCounter := packet_counter_.

Section WithHeap.
Context {HP : Heap} {G : Galois}.

Definition AddReceivedRedPacket (r : t) (now : Z) (packet : RtpPacketReceived) : res (bool * t) :=
  let p := rtp_packet packet in
  if negb (RtpPacket.Ssrc p =? ssrc_ r) then Ok (false, r) else
  if (IP_PACKET_SIZE <? RtpPacket.size p)%nat then Ok (false, r) else
  if (RtpPacket.payload_size p =? 0)%nat then Ok (false, r) else
  let! b := RtpPacket.data_at p (RtpPacket.headers_size p) in
  let payload_type := Z.land b 0x7f in
  let is_fec := payload_type =? rsfec_payload_type_ r in
  if has_bits b 0x80 then Ok (false, r) else
  let c := packet_counter_ r in
  let counter := mkFecPacketCounter (num_packets c + 1) (num_bytes c + RtpPacket.size p)
    (if is_fec then num_fec_packets c + 1 else num_fec_packets c)%nat
    (num_recovered_packets c) (Some (default now (first_packet_time c))) in
  let! pkt := UlpfecReceiver.strip_red p is_fec payload_type in
  let received := (mkReceivedPacket (RtpPacket.Ssrc p) (RtpPacket.SequenceNumber p) is_fec
                     (recovered packet) pkt, RtpPacket.extensions_ p) in
  Ok (true, mk (ssrc_ r) (rsfec_payload_type_ r) (fec_ r)
              (if (0 <? length pkt)%nat then received_packets_ r ++ [received]
               else received_packets_ r)
              (recovered_packets_ r) counter).

(** What the loop of [ProcessReceivedFec] threads: decoder, recovered packets,
    counter, packets delivered, [last_recovered_extension_map] and
    [num_recovered_packets]. *)
Record Progress : Type := mkProgress {
  pg_fec : RsDec.Decoder;
  pg_recovered : list RecoveredPacket;
  pg_counter : FecPacketCounter;
  pg_out : list RtpPacketReceived;
  pg_last_map : option RtpHeaderExtensionMap.t;
  pg_num : nat
}.

(** Up to the decoder, for a packet that parses. *)
Definition decode_received (st : Progress) (rp : ReceivedPacket) (extensions : RtpHeaderExtensionMap.t)
    (out : list RtpPacketReceived) : res Progress :=
  let st := mkProgress (pg_fec st) (pg_recovered st) (pg_counter st) (pg_out st ++ out) (pg_last_map st) (pg_num st) in
  if rp_is_recovered rp then Ok st else
  let! (fec, recs, n) := RsDec.DecodeRSFec (pg_fec st) rp (pg_recovered st) in
  Ok (mkProgress fec recs (pg_counter st) (pg_out st) (Some extensions) (pg_num st + n)).

(** The loop over the recovered packets. *)
Definition deliver (st : Progress) : res Progress :=
  let extensions := default (RtpHeaderExtensionMap.new false) (pg_last_map st) in
  let! (recs, counter, out) := foldM (deliver_recovered false extensions) (pg_recovered st)
                                 ([], pg_counter st, pg_out st) in
  Ok (mkProgress (pg_fec st) recs counter out (pg_last_map st) (pg_num st)).

(** The loop over the received packets; [return] leaves the rest of them. *)
Fixpoint process_received (st : Progress) (received : list Received) : res Progress :=
  match received with
  | [] => Ok st
  | rc :: rest =>
      let! prepared := UlpfecReceiver.prepare_received rc in
      match prepared with
      | None => process_received st rest
      | Some (rp, out) =>
          let! st := decode_received st rp rc.2 out in
          if (pg_num st =? 0)%nat then Ok st
          else let! st := deliver st in process_received st rest
      end
  end.

Definition ProcessReceivedFec (r : t) : res (t * list RtpPacketReceived) :=
  let! st := process_received (mkProgress (fec_ r) (recovered_packets_ r) (packet_counter_ r) [] None 0)
               (received_packets_ r) in
  Ok (mk (ssrc_ r) (rsfec_payload_type_ r) (pg_fec st) [] (pg_recovered st) (pg_counter st), pg_out st).

End WithHeap.
End RSfecReceiver.

(** ** A session *)

(** One RED packet, [ParseAndHandleEncapsulatingHeader] of
    [rtp_video_stream_receiver2.cc]; with it all packets delivered so far. *)
Definition receive_red {HP : Heap} {G : Galois} (st : RSfecReceiver.t * list RtpPacketReceived)
    (arrival : Z * RtpPacketReceived) : res (RSfecReceiver.t * list RtpPacketReceived) :=
  let! (accepted, r) := RSfecReceiver.AddReceivedRedPacket st.1 arrival.1 arrival.2 in
  if (accepted : bool) then let! (r, news) := RSfecReceiver.ProcessReceivedFec r in Ok (r, st.2 ++ news)
  else Ok (r, st.2).

Section Add.
Context {HP : Heap} {G : Galois}.

(** [AddReceivedRedPacket] is that of [UlpfecReceiver]. *)
Lemma rs_add_carried r now packet :
  consistent (rtp_packet packet) ->
  RSfecReceiver.AddReceivedRedPacket r now packet =
  Ok match carried (RSfecReceiver.ssrc_ r) (RSfecReceiver.rsfec_payload_type_ r) packet with
     | None => (false, r)
     | Some received =>
         (true, RSfecReceiver.mk (RSfecReceiver.ssrc_ r) (RSfecReceiver.rsfec_payload_type_ r)
            (RSfecReceiver.fec_ r)
            (RSfecReceiver.received_packets_ r ++
               (if (0 <? length (rp_pkt received.1))%nat then [received] else []))
            (RSfecReceiver.recovered_packets_ r)
            (count_received (RSfecReceiver.packet_counter_ r) now
               (RtpPacket.size (rtp_packet packet)) (rp_is_fec received.1)))
     end.
Proof.
  intros Hp. set (fec := mkDecoder 0 0 []).
  pose proof (AddReceivedRedPacket_carried (UlpfecReceiver.mk (RSfecReceiver.ssrc_ r)
    (RSfecReceiver.rsfec_payload_type_ r) fec (RSfecReceiver.received_packets_ r)
    (RSfecReceiver.recovered_packets_ r) (RSfecReceiver.packet_counter_ r)) now packet Hp) as E.
  unfold UlpfecReceiver.AddReceivedRedPacket in E. unfold RSfecReceiver.AddReceivedRedPacket.
  cbn [UlpfecReceiver.ssrc_ UlpfecReceiver.ulpfec_payload_type_ UlpfecReceiver.packet_counter_
    UlpfecReceiver.received_packets_ UlpfecReceiver.recovered_packets_ UlpfecReceiver.fec_] in E.
  destruct (carried _ _ packet) as [rc|];
    repeat (destruct (negb _) || destruct (_ <? RtpPacket.size _)%nat || destruct (RtpPacket.payload_size _ =? 0)%nat); try done;
    apply bind_ok_inv in E as (b & -> & E); rewrite bind_ok; destruct (has_bits b 128); try done;
    apply bind_ok_inv in E as (pkt & -> & E); rewrite bind_ok; (discriminate E || (injection E; intros; congruence)).
Qed.

End Add.

Section Session.
Context {HP : Heap} {G : Galois} {GL : GaloisLaws G}.
Variables (ssrc B0 : Z) (orig : nat -> Packet).
Hypothesis B0_u16 : is_u16 B0.
Hypothesis media_reads : forall p, (p < 128)%nat -> media_at ssrc B0 orig p -> exists h, reads (orig p) h.

Abbreviation inv := (inv ssrc B0 orig).
Abbreviation recovered_good := (recovered_good ssrc B0 orig).
Abbreviation arrival := (arrival ssrc B0 orig).

(** ** The recovered packets *)

Lemma returned_good recs : recovered_good recs -> recovered_good (map set_returned recs).
Proof.
  intros [Ho Hm]. split; [by rewrite map_returned_known|]. apply List.Forall_map. exact Hm.
Qed.

Lemma rs_deliverable recs : recovered_good recs ->
  Forall (fun r => bytes (rec_pkt r) /\ (kRtpHeaderSize <= length (rec_pkt r))%nat) recs /\
  Forall (fun r => exists q, reads (rec_pkt r) q) recs.
Proof.
  intros Hrec. split; apply Forall_forall; intros r Hr;
    destruct (recovered_at ssrc B0 orig recs r Hrec Hr) as (p & Hp & _ & -> & Hm); [|by apply media_reads].
  split; [apply Hm|]. destruct (media_length _ _ _ _ Hm). unfold kRtpHeaderSize. lia.
Qed.

(** What a repaired packet is. *)
Definition as_sent (o : RtpPacketReceived) : Prop :=
  exists p, (p < 128)%nat /\ media_at ssrc B0 orig p /\ RtpPacket.SequenceNumber (rtp_packet o) = number B0 p /\ wire (rtp_packet o) = orig p.

Lemma delivered_sent extensions recs dl news :
  recovered_good recs -> (forall r, r ∈ dl -> r ∈ recs) -> Forall2 (delivered_as extensions) dl news ->
  Forall (fun o => recovered o = true) news /\ repaired news = known dl /\ Forall as_sent news.
Proof.
  intros Hrec Hin Hd. assert (Hall : Forall2 (fun r o => recovered o = true /\
    RtpPacket.SequenceNumber (rtp_packet o) = rec_seq_num r /\ as_sent o) dl news).
  { revert Hin. induction Hd as [|r o dl news (Hr & [_ Hread] & Hw & _) _ IH]; intros Hin; constructor.
    2:{ apply IH. intros r' Hr'. apply Hin. by right. }
    destruct (recovered_at ssrc B0 orig recs r Hrec) as (p & Hp & Es & Ep & Hm); [apply Hin; by left|].
    rewrite Hw, Ep in Hread. pose proof (reads_seq _ _ Hread) as Eseq. rewrite (media_seq _ _ _ _ Hm) in Eseq.
    split; [done|]. split; [congruence|]. exists p. split_and!; [done|done|done|congruence]. }
  assert (Hr : Forall (fun o => recovered o = true) news) by (clear -Hall; induction Hall as [|???? [? _] _ IH]; by constructor).
  split; [done|]. rewrite repaired_all by done. clear -Hall. unfold known.
  induction Hall as [|r o dl news (_ & E & Ho) _ [IH1 IH2]]; [done|]. cbn. rewrite E, IH1. by auto.
Qed.

(** ** The invariant *)

(** Between two packets: [done] has been decoded and [out] delivered. *)
Record delivering (done : list ReceivedPacket) (st : RsDec.Decoder) (recs : list RecoveredPacket)
    (out : list RtpPacketReceived) : Prop := {
  del_inv : inv st (known recs);
  del_good : recovered_good recs;
  del_flags : Forall (fun r => rec_returned r = true) recs;
  del_known : forall q, q ∈ known recs <-> media_received done q \/ q ∈ repaired out;
  del_once : NoDup (repaired out);
  del_sent : Forall as_sent (filter (fun o => recovered o = true) out)
}.

Lemma delivering_init : delivering [] (RsDec.CreateRSFec ssrc) [] [].
Proof.
  split; [apply inv_created|split; [split|]; constructor|constructor| |constructor|constructor].
  intros q. split; [by intros ?%elem_of_nil|]. intros [(rp & Hin & _)|Hin]; by apply elem_of_nil in Hin.
Qed.

Lemma delivering_media done st recs out news :
  delivering done st recs out -> Forall (fun o => recovered o = false) news -> delivering done st recs (out ++ news).
Proof.
  intros [H1 H2 H3 H4 H5 H6] Hn. pose proof (repaired_none _ Hn) as E.
  split; rewrite ?repaired_app, ?E, ?app_nil_r; try done. rewrite filter_app.
  replace (filter _ news) with (@nil RtpPacketReceived); [by rewrite app_nil_r|].
  clear -Hn. induction Hn as [|o news Ho _ IH]; [done|]. rewrite filter_cons, decide_False; [done|congruence].
Qed.

(** What a call of [DecodeRSFec] adds, see [DecodeRSFec_step]. *)
Record decodes (done : list ReceivedPacket) (rp : ReceivedPacket) (recs recs' : list RecoveredPacket) (n : nat) : Prop := {
  dec_keeps : forall r, r ∈ recs -> r ∈ recs';
  dec_media : rp_is_fec rp = false -> rp_seq_num rp ∈ known recs';
  dec_new : forall r, r ∈ recs' -> r ∈ recs \/
    rec_returned r = true /\ rp_is_fec rp = false /\ rec_seq_num r = rp_seq_num rp \/ rec_returned r = false /\ (0 < n)%nat
}.

Lemma media_received_snoc done rp q :
  media_received (done ++ [rp]) q <-> media_received done q \/ rp_is_fec rp = false /\ rp_seq_num rp = q.
Proof.
  unfold media_received. setoid_rewrite elem_of_app. setoid_rewrite list_elem_of_singleton. split.
  - intros (rp' & [?| ->] & Hf & Hq); eauto.
  - intros [(rp' & ? & ? & ?)|[? ?]]; eauto.
Qed.

Lemma decodes_known done rp st recs out recs' n :
  delivering done st recs out -> decodes done rp recs recs' n ->
  forall q, q ∈ known recs' <-> media_received (done ++ [rp]) q \/ q ∈ repaired out \/ q ∈ known (pending recs').
Proof.
  intros [_ _ _ Hk _ _] [Dk Dm Dn] q. rewrite media_received_snoc. split.
  - intros (r & -> & Hr)%list_elem_of_fmap. destruct (Dn r Hr) as [Hold|[(_ & ? & ?)|[Hf _]]]; [|by auto|].
    + destruct (proj1 (Hk (rec_seq_num r))) as [?|?]; [by apply known_elem|by auto..].
    + do 2 right. apply known_elem. by apply list_elem_of_filter.
  - assert (Hsub : forall q, q ∈ known recs -> q ∈ known recs') by (intros q'; by apply known_mono).
    intros [[?|[? <-]]|[?|(r & -> & [_ Hr]%list_elem_of_filter)%list_elem_of_fmap]];
      [apply Hsub, Hk; by left|by apply Dm|apply Hsub, Hk; by right|by apply known_elem].
Qed.

(** The packets to deliver are new. *)
Lemma pending_new done rp st recs out recs' n r :
  delivering done st recs out -> decodes done rp recs recs' n -> r ∈ pending recs' -> 
  recovered_good recs' -> rec_seq_num r ∉ known recs.
Proof.
  intros [_ _ Hf _ _ _] [Dk _ _] [Er Hr]%list_elem_of_filter [Ho _] (r' & E & Hr')%list_elem_of_fmap.
  rewrite Forall_forall in Hf. pose proof (Hf r' Hr') as Ef.
  pose proof (ordered_nodup B0 B0_u16 _ Ho) as Hnd.
  assert (r = r') as ->; [|cbn in *; congruence].
  apply Dk in Hr'. apply list_elem_of_lookup in Hr as [i Hi], Hr' as [j Hj]. unfold known in Hnd. 
  assert (i = j) as ->; [|congruence]. eapply (NoDup_lookup _ i j (rec_seq_num r) Hnd); rewrite list_lookup_fmap.
  - by rewrite Hi.
  - by rewrite Hj, E.
Qed.

Lemma delivering_quiet done rp st recs out st' recs' :
  delivering done st recs out -> inv st' (known recs') -> recovered_good recs' -> decodes done rp recs recs' 0 ->
  delivering (done ++ [rp]) st' recs' out.
Proof.
  intros D I Hrec Dec. pose proof (decodes_known _ _ _ _ _ _ _ D Dec) as Hk. destruct D as [_ _ Hf _ Ho Hs], Dec as [Dk Dm Dn].
  assert (Hf' : Forall (fun r => rec_returned r = true) recs').
  { rewrite Forall_forall in Hf |- *. intros r Hr. destruct (Dn r Hr) as [?|[[? _]|[_ ?]]]; [by apply Hf|done|lia]. }
  split; try done. intros q. rewrite Hk. replace (pending recs') with (@nil RecoveredPacket).
  - rewrite elem_of_nil. tauto.
  - clear -Hf'. induction Hf' as [|r recs' Hr _ IH]; [done|]. unfold pending. rewrite filter_cons, decide_False; [done|congruence].
Qed.

Lemma delivering_deliver done rp st recs out st' recs' n extensions news :
  delivering done st recs out -> inv st' (known recs') -> recovered_good recs' -> decodes done rp recs recs' n ->
  Forall2 (delivered_as extensions) (pending recs') news ->
  delivering (done ++ [rp]) st' (map set_returned recs') (out ++ news).
Proof.
  intros D I Hrec Dec Hd. pose proof (decodes_known _ _ _ _ _ _ _ D Dec) as Hk.
  destruct (delivered_sent extensions recs' (pending recs') news Hrec) as (Hr & Erep & Hsent); [by intros r [_ ?]%list_elem_of_filter|done|].
  pose proof (fun r H => pending_new _ _ _ _ _ _ _ r D Dec H Hrec) as Hnew.
  pose proof D as [_ _ Hf Hkn Ho Hs]. split; rewrite ?map_returned_known, ?repaired_app, ?Erep; try done.
  - by apply returned_good.
  - apply List.Forall_map, Forall_true. done.
  - intros q. by rewrite Hk, elem_of_app.
  - apply NoDup_app. split; [done|]. split.
    + intros q Hq (r & -> & Hin)%list_elem_of_fmap. apply (Hnew r Hin), Hkn. by right.
    + apply (sublist_NoDup _ (known recs')); [apply (ordered_nodup B0 B0_u16), Hrec|].
      apply (fmap_sublist rec_seq_num), sublist_filter.
  - rewrite filter_app. apply Forall_app. split; [done|]. apply Forall_forall. intros o [_ Hin]%list_elem_of_filter.
    rewrite Forall_forall in Hsent. by apply Hsent.
Qed.

(** ** One packet *)

Lemma DecodeRSFec_decodes done st recs out rp :
  delivering done st recs out -> arrival rp ->
  (RsDec.DecodeRSFec st rp recs = Fault OutOfBounds /\ exists seqs, singular ssrc B0 orig seqs) \/
  exists st' recs' n, RsDec.DecodeRSFec st rp recs = Ok (st', recs', n) /\
    inv st' (known recs') /\ recovered_good recs' /\ decodes done rp recs recs' n.
Proof.
  intros D Ha. destruct (DecodeRSFec_step ssrc B0 orig B0_u16 st recs rp (del_inv _ _ _ _ D) (del_good _ _ _ _ D) Ha)
    as [(seqs & -> & Hs)|(st' & recs' & n & E & I & Hrec & Hk & Hm & Hn)]; [left; eauto|].
  right. exists st', recs', n. split_and!; [done..|]. split; [done| |done]. intros Hf.
  destruct Ha as [(p & Hp)|[Hf' _ _ _]]; [|congruence]. rewrite (arrival_seq _ _ _ _ _ Hp). by apply Hm.
Qed.

Lemma deliver_ok st : recovered_good (RSfecReceiver.pg_recovered st) ->
  exists c news, RSfecReceiver.deliver st = Ok (RSfecReceiver.mkProgress (RSfecReceiver.pg_fec st)
      (map set_returned (RSfecReceiver.pg_recovered st)) c (RSfecReceiver.pg_out st ++ news)
      (RSfecReceiver.pg_last_map st) (RSfecReceiver.pg_num st)) /\
    Forall2 (delivered_as (default (RtpHeaderExtensionMap.new false) (RSfecReceiver.pg_last_map st)))
      (pending (RSfecReceiver.pg_recovered st)) news.
Proof.
  intros Hrec. destruct (rs_deliverable _ Hrec) as [Hdel Hread]. unfold RSfecReceiver.deliver.
  destruct (deliver_loop false (default (RtpHeaderExtensionMap.new false) (RSfecReceiver.pg_last_map st))
    (RSfecReceiver.pg_recovered st) [] (RSfecReceiver.pg_counter st) (RSfecReceiver.pg_out st) Hdel)
    as (dl & news & -> & _ & Hnews & Hall). rewrite (Hall Hread) in Hnews. rewrite bind_ok. eauto.
Qed.

Lemma media_delivered_prepared rp ext rp' out : prepared rp ext rp' out ->
  media_delivered [(rp, ext)] out /\ Forall (fun o => recovered o = false) out.
Proof.
  intros Hpr. assert (Hm : media_delivered [(rp, ext)] out); [|split; [done|by eapply media_not_recovered]].
  unfold media_delivered. destruct Hpr as [Hf|q d Hf Hq _]; rewrite filter_cons; cbn [fst].
  - rewrite decide_False by congruence. constructor.
  - rewrite decide_True by done. constructor; [done|constructor].
Qed.

(** [ProcessReceivedFec] with one packet waiting. *)
Lemma rs_process_one done r out rp ext rp' :
  delivering done (RSfecReceiver.fec_ r) (RSfecReceiver.recovered_packets_ r) out ->
  RSfecReceiver.received_packets_ r = [(rp, ext)] -> waiting_ok (rp, ext) ->
  (exists outm, prepared rp ext rp' outm) -> Forall arrival (decoded [rp']) ->
  (RSfecReceiver.ProcessReceivedFec r = Fault OutOfBounds /\ exists seqs, singular ssrc B0 orig seqs) \/
  exists r' news, RSfecReceiver.ProcessReceivedFec r = Ok (r', news) /\
    RSfecReceiver.ssrc_ r' = RSfecReceiver.ssrc_ r /\ RSfecReceiver.rsfec_payload_type_ r' = RSfecReceiver.rsfec_payload_type_ r /\
    RSfecReceiver.received_packets_ r' = [] /\
    delivering (done ++ decoded [rp']) (RSfecReceiver.fec_ r') (RSfecReceiver.recovered_packets_ r') (out ++ news) /\
    media_delivered [(rp, ext)] (received_media news).
Proof.
  intros D Ew (Hb & Hm & Hr) [out' Hpr'] Ha. unfold RSfecReceiver.ProcessReceivedFec. rewrite Ew.
  destruct (prepare_received_ok rp ext Hb Hm Hr) as (rp1 & outm & Eprep & Hpr).
  pose proof (prepared_unique _ _ _ _ _ _ Hpr Hpr') as ->. cbn [RSfecReceiver.process_received]. rewrite Eprep, bind_ok.
  destruct (media_delivered_prepared _ _ _ _ Hpr) as [Hmd Hnr].
  pose proof (delivering_media _ _ _ _ _ D Hnr) as D'. unfold RSfecReceiver.decode_received, decoded in *.
  rewrite filter_cons, filter_nil in *.
  cbn [RSfecReceiver.pg_fec RSfecReceiver.pg_recovered RSfecReceiver.pg_num RSfecReceiver.pg_out].
  destruct (rp_is_recovered rp') eqn:Erec.
  { right. rewrite decide_False, !bind_ok by done. cbn [Nat.eqb RSfecReceiver.pg_num]. rewrite bind_ok.
    eexists _, _. split_and!; [done..| |]; cbn [RSfecReceiver.fec_ RSfecReceiver.recovered_packets_
      RSfecReceiver.pg_fec RSfecReceiver.pg_recovered RSfecReceiver.pg_out app].
    - by rewrite app_nil_r.
    - by rewrite received_media_all. }
  rewrite decide_True in * by done. apply Forall_cons_1 in Ha as [Ha _].
  destruct (DecodeRSFec_decodes _ _ _ _ rp' D' Ha) as [[-> Hs]|(st' & recs' & n & -> & I & Hrec & Dec)]; [by left|right].
  rewrite !bind_ok. cbn [RSfecReceiver.pg_num Nat.add].
  destruct (Nat.eqb_spec n 0) as [->|Hn].
  { rewrite bind_ok. eexists _, _. split_and!; [done..| |]; cbn [RSfecReceiver.fec_ RSfecReceiver.recovered_packets_
      RSfecReceiver.pg_fec RSfecReceiver.pg_recovered RSfecReceiver.pg_out app].
    - by eapply delivering_quiet.
    - by rewrite received_media_all. }
  match goal with |- context [RSfecReceiver.deliver ?st] => destruct (deliver_ok st Hrec) as (c & news & -> & Hnews) end.
  rewrite !bind_ok. eexists _, _. split_and!; [done..| |]; cbn [RSfecReceiver.fec_ RSfecReceiver.recovered_packets_
    RSfecReceiver.pg_fec RSfecReceiver.pg_recovered RSfecReceiver.pg_out RSfecReceiver.pg_last_map app] in *.
  - rewrite (assoc_L (++)). by eapply delivering_deliver.
  - unfold received_media in *. rewrite filter_app. fold (received_media outm) (received_media news).
    rewrite received_media_all, received_media_none, app_nil_r; [done| |done].
    clear -Hnews. induction Hnews as [|???? [? _] _ IH]; by constructor.
Qed.

(** ** A session *)

Record rs_idle (payload_type : Z) (done : list ReceivedPacket)
    (st : RSfecReceiver.t * list RtpPacketReceived) : Prop := {
  rs_idle_ssrc : RSfecReceiver.ssrc_ st.1 = ssrc;
  rs_idle_type : RSfecReceiver.rsfec_payload_type_ st.1 = payload_type;
  rs_idle_empty : RSfecReceiver.received_packets_ st.1 = [];
  rs_idle_delivering : delivering done (RSfecReceiver.fec_ st.1) (RSfecReceiver.recovered_packets_ st.1) st.2
}.

Lemma received_of_single payload_type now packet :
  received_of ssrc payload_type [(now, packet)] =
  match carried ssrc payload_type packet with
  | Some rc => if (0 <? length (rp_pkt rc.1))%nat then [rc] else []
  | None => []
  end.
Proof.
  unfold received_of. cbn [omap list_omap snd]. destruct (carried _ _ _) as [rc|]; [|done].
  rewrite filter_cons, filter_nil. destruct (Nat.ltb_spec 0 (length (rp_pkt rc.1))) as [Hl|Hl].
  - rewrite decide_True; [done|]. intros E. rewrite E in Hl. cbn in Hl. lia.
  - rewrite decide_False; [done|]. intros Hne. apply Hne, nil_length_inv. lia.
Qed.

Lemma receive_red_ok payload_type done st now packet rps :
  rs_idle payload_type done st -> arrival_ok packet ->
  Forall2 (fun rc rp => exists out, prepared rc.1 rc.2 rp out) (received_of ssrc payload_type [(now, packet)]) rps ->
  Forall arrival (decoded rps) ->
  (receive_red st (now, packet) = Fault OutOfBounds /\ exists seqs, singular ssrc B0 orig seqs) \/
  exists r' news, receive_red st (now, packet) = Ok (r', st.2 ++ news) /\
    rs_idle payload_type (done ++ decoded rps) (r', st.2 ++ news) /\
    media_delivered (received_of ssrc payload_type [(now, packet)]) (received_media news).
Proof.
  destruct st as [r out]. intros [Es Et Ee D] Hok Hprep Ha. cbn [fst snd] in *.
  unfold receive_red. cbn [fst snd]. rewrite rs_add_carried, Es, Et, Ee, bind_ok by apply Hok.
  assert (Hwait : Forall waiting_ok (received_of ssrc payload_type [(now, packet)])).
  { apply received_of_ok. constructor; [done|constructor]. }
  rewrite received_of_single in *. assert (Hnil : media_delivered [] (received_media [])) by constructor.
  destruct (carried ssrc payload_type packet) as [rc|].
  2:{ right. exists r, []. apply Forall2_nil_inv_l in Hprep as ->. rewrite !app_nil_r. by split_and!. }
  cbn [app]. destruct (0 <? length (rp_pkt rc.1))%nat.
  - apply Forall2_cons_inv_l in Hprep as (rp' & rps' & Hp & Hnil'%Forall2_nil_inv_l & ->). subst rps'.
    apply Forall_cons_1 in Hwait as [Hwait _]. destruct rc as [rp ext]. cbn [fst snd] in *.
    match goal with |- context [RSfecReceiver.ProcessReceivedFec ?r1] =>
      destruct (rs_process_one done r1 out rp ext rp') as [[-> Hs]|(r' & news & -> & H1 & H2 & H3 & D' & Hm)] end;
      [done..|by left|right]. rewrite bind_ok. exists r', news. by split_and!.
  - apply Forall2_nil_inv_l in Hprep as ->. right. cbn. rewrite !app_nil_r. eexists _, []. rewrite app_nil_r. by split_and!.
Qed.

Lemma receive_red_all payload_type arrivals : forall done st rps,
  rs_idle payload_type done st -> Forall (fun arrival => arrival_ok arrival.2) arrivals ->
  Forall2 (fun rc rp => exists out, prepared rc.1 rc.2 rp out) (received_of ssrc payload_type arrivals) rps ->
  Forall arrival (decoded rps) ->
  (foldM receive_red arrivals st = Fault OutOfBounds /\ exists seqs, singular ssrc B0 orig seqs) \/
  exists r' news, foldM receive_red arrivals st = Ok (r', st.2 ++ news) /\
    rs_idle payload_type (done ++ decoded rps) (r', st.2 ++ news) /\
    media_delivered (received_of ssrc payload_type arrivals) (received_media news).
Proof.
  induction arrivals as [|[now packet] arrivals IH]; intros done st rps Hidle Hok Hprep Ha; cbn [foldM].
  { right. apply Forall2_nil_inv_l in Hprep as ->. destruct st as [r out]. exists r, []. cbn [snd]. rewrite !app_nil_r.
    split_and!; [done|done|constructor]. }
  apply Forall_cons_1 in Hok as [Hok1 Hok2].
  change ((now, packet) :: arrivals) with ([(now, packet)] ++ arrivals) in *. rewrite received_of_app in *.
  apply Forall2_app_inv_l in Hprep as (rps1 & rps2 & Hprep1 & Hprep2 & ->).
  unfold decoded in *. rewrite filter_app in *. apply Forall_app in Ha as [Ha1 Ha2]. fold (decoded rps1) (decoded rps2) in *.
  destruct (receive_red_ok payload_type done st now packet rps1 Hidle Hok1 Hprep1 Ha1) as [[-> Hs]|(r1 & news1 & -> & Hidle1 & Hm1)]; [by left|].
  rewrite bind_ok. destruct (IH (done ++ decoded rps1) _ rps2 Hidle1 Hok2 Hprep2 Ha2) as [H|(r2 & news2 & -> & Hidle2 & Hm2)]; [by left|right].
  exists r2, (news1 ++ news2). cbn [snd] in *. rewrite !(assoc_L (++)). split_and!; [done|done|].
  unfold received_media. rewrite filter_app. by apply media_delivered_app.
Qed.

End Session.

(** ** A session from the start *)

Section Whole.
Context {HP : Heap} {G : Galois} {GL : GaloisLaws G}.
Variables (ssrc B0 : Z) (orig : nat -> Packet) (payload_type : Z).
Hypothesis B0_u16 : is_u16 B0.
Hypothesis media_reads : forall p, (p < 128)%nat -> media_at ssrc B0 orig p -> exists h, reads (orig p) h.

(** The receiver's calls for [arrivals], of which the decoder is fed [session]. *)
Lemma rs_receiver_ok arrivals session :
  Forall (fun arrival => arrival_ok arrival.2) arrivals ->
  decoder_input (received_of ssrc payload_type arrivals) session -> Forall (arrival ssrc B0 orig) session ->
  match foldM receive_red arrivals (RSfecReceiver.new ssrc payload_type, []) with
  | Ok (r, out) =>
      media_delivered (received_of ssrc payload_type arrivals) (received_media out) /\
      delivering ssrc B0 orig session (RSfecReceiver.fec_ r) (RSfecReceiver.recovered_packets_ r) out
  | Fault f => f = OutOfBounds /\ exists seqs, singular ssrc B0 orig seqs
  end.
Proof.
  intros Hok (rps & Hprep & ->) Ha.
  assert (Hidle : rs_idle ssrc B0 orig payload_type [] (RSfecReceiver.new ssrc payload_type, [])).
  { split; [done..|]. apply delivering_init. }
  destruct (receive_red_all ssrc B0 orig B0_u16 media_reads payload_type arrivals [] _ rps Hidle Hok Hprep Ha)
    as [[-> Hs]|(r & news & -> & Hidle' & Hm)]; [done|]. cbn [snd app] in *. split; [done|apply Hidle'].
Qed.

(** Every packet delivered, received or repaired, is one of the stream. *)
Lemma rs_delivered_sent arrivals session out st recs o :
  Forall2 (fun rc rp => rp_pkt rc.1 = rp_pkt rp /\ rp_is_fec rc.1 = rp_is_fec rp) (received_of ssrc payload_type arrivals) session ->
  Forall (arrival ssrc B0 orig) session ->
  media_delivered (received_of ssrc payload_type arrivals) (received_media out) ->
  delivering ssrc B0 orig session st recs out -> o ∈ out ->
  exists p, (p < 128)%nat /\ media_at ssrc B0 orig p /\ wire (rtp_packet o) = orig p.
Proof.
  intros Hrel Ha Hm D Ho. destruct (recovered o) eqn:Er.
  - pose proof (del_sent _ _ _ _ _ _ _ D) as Hs. rewrite Forall_forall in Hs.
    destruct (Hs o) as (p & Hp & Hat & _ & Hw); [by apply list_elem_of_filter|]. by exists p.
  - assert (Hin : o ∈ received_media out) by (by apply list_elem_of_filter). apply list_elem_of_lookup in Hin as [i Hi].
    destruct (Forall2_lookup_r _ _ _ _ _ Hm Hi) as (rc & Hrc & _ & _ & Hw & _).
    apply list_elem_of_lookup_2, list_elem_of_filter in Hrc as [Hf Hrc]. apply list_elem_of_lookup in Hrc as [j Hj].
    destruct (Forall2_lookup_l _ _ _ _ _ Hrel Hj) as (rp & Hrp & Ep & Ef). rewrite Forall_forall in Ha.
    destruct (Ha rp) as [(p & Hp)|Hfec]; [by eapply list_elem_of_lookup_2| |].
    + exists p. split; [apply Hp|]. split; [apply Hp|]. rewrite Hw, Ep. apply Hp.
    + exfalso. pose proof (fec_arrival_fec _ _ _ _ Hfec). congruence.
Qed.
End Whole.
