(* ===== verification/RsGenerator.v ===== *)
(** * RsGenerator: [RS_FEC/RSfec_generator.{h,cc}] and [RS_FEC/StreamRSfec_generator.{h,cc}]

    The two senders of the Reed-Solomon code.  [RSfecGenerator] protects blocks
    of whole frames, as [UlpfecGenerator] does; [StreamRSfecGenerator] protects a
    window that slides over the packets sent.

    The clock is read for the log and for the bitrate only; the log is not
    modelled.  [generated_fec_packets_] holds pointers into the encoder's packets;
    here it holds their contents.  The counters are not bounded by their width. *)

From Stdlib Require Import SpecFloat.
From S2P Require Import Prelude.
From S2P Require Import SeqNum.
From S2P Require Import CowBuffer.
From S2P Require Import RtpPacketModel.
From S2P Require Import FecTypes.
From S2P Require Import XorCode.
From S2P Require Import FecEncoder.
From S2P Require Import RateModel.
From S2P Require Import UlpfecSender.
From S2P Require Import Galois.
From S2P Require Import ReedSolMatrix.
From S2P Require Import RsCodec.

Module RSfecGenerator.

Definition kMaxExcessOverhead : Z := 50.
Definition kMinMediaPackets : Z := 4.
Definition kHighProtectionThreshold : Z := 80.

Record Params : Type := mkParams {
  delta_params : FecProtectionParams;
  keyframe_params : FecProtectionParams
}.

Record t : Type := mk {
  red_payload_type_ : Z;
  RSfec_payload_type_ : Z;
  fec_ : Rs.Encoder;
  media_packets_ : list Packet;
  last_media_packet_ : option RtpPacketToSend;
  generated_fec_packets_ : list Packet;
  num_protected_frames_ : Z;
  min_num_media_packets_ : Z;
  current_params_ : Params;
  media_contains_keyframe_ : bool;
  pending_params_ : option Params;
  fec_bitrate_ : BitrateTracker.t
}.

Definition new (red_payload_type RSfec_payload_type : Z) (fec : Rs.Encoder) : t :=
  mk red_payload_type RSfec_payload_type fec [] None [] 0 1
     (mkParams default_params default_params) false None (BitrateTracker.new 1000).

Definition SetProtectionParameters (g : t) (delta_params key_params : FecProtectionParams) : t :=
  mk (red_payload_type_ g) (RSfec_payload_type_ g) (fec_ g) (media_packets_ g)
     (last_media_packet_ g) (generated_fec_packets_ g) (num_protected_frames_ g)
     (min_num_media_packets_ g) (current_params_ g) (media_contains_keyframe_ g)
     (Some (mkParams delta_params key_params)) (fec_bitrate_ g).

Definition CurrentParams (g : t) : FecProtectionParams :=
  if media_contains_keyframe_ g then keyframe_params (current_params_ g)
  else delta_params (current_params_ g).

Definition MaxPacketOverhead (g : t) : nat := Rs.kFecLevel0HeaderSize + Rs.kFecLevel1HeaderSize.

Definition ResetState (g : t) : t :=
  mk (red_payload_type_ g) (RSfec_payload_type_ g) (fec_ g) [] None [] 0
     (min_num_media_packets_ g) (current_params_ g) false (pending_params_ g) (fec_bitrate_ g).

(** Overhead in Q8; an [int] shifted, then divided as [size_t]. *)
Definition Overhead (g : t) : res Z :=
  let size := Z.of_nat (length (media_packets_ g)) in
  let num_fec_packets := NumFecPackets size (fec_rate (CurrentParams g)) in
  if size =? 0 then Fault DivideByZero else Ok (Z.shiftl num_fec_packets 8 / size).

Definition ExcessOverheadBelowMax (g : t) : res bool :=
  let! overhead := Overhead g in
  Ok (overhead - fec_rate (CurrentParams g) <? kMaxExcessOverhead).

Definition MinimumMediaPacketsReached (g : t) : bool :=
  let num_media_packets := Z.of_nat (length (media_packets_ g)) in
  if UlpfecGenerator.few_packets_per_frame num_media_packets (num_protected_frames_ g)
  then min_num_media_packets_ g <=? num_media_packets
  else min_num_media_packets_ g + 1 <=? num_media_packets.

(** Pending parameters take effect with the next packet. *)
Definition apply_pending (g : t) : t :=
  match pending_params_ g with
  | None => g
  | Some params =>
      let g1 := mk (red_payload_type_ g) (RSfec_payload_type_ g) (fec_ g) (media_packets_ g)
        (last_media_packet_ g) (generated_fec_packets_ g) (num_protected_frames_ g)
        (min_num_media_packets_ g) params (media_contains_keyframe_ g) None (fec_bitrate_ g) in
      mk (red_payload_type_ g1) (RSfec_payload_type_ g1) (fec_ g1) (media_packets_ g1)
        (last_media_packet_ g1) (generated_fec_packets_ g1) (num_protected_frames_ g1)
        (if kHighProtectionThreshold <? fec_rate (CurrentParams g1) then kMinMediaPackets else 1)
        (current_params_ g1) (media_contains_keyframe_ g1) (pending_params_ g1) (fec_bitrate_ g1)
  end.

(** Storing the packet and counting its frame. *)
Definition add_packet (g : t) (s : RtpPacketToSend) : t :=
  let room := (length (media_packets_ g) <? kRSfecMaxMediaPackets)%nat in
  mk (red_payload_type_ g) (RSfec_payload_type_ g) (fec_ g)
     (if room then media_packets_ g ++ [Cow.contents (RtpPacket.buffer_ (packet s))]
      else media_packets_ g)
     (if room then Some (copy s) else last_media_packet_ g)
     (generated_fec_packets_ g)
     (if RtpPacket.Marker (packet s) then num_protected_frames_ g + 1 else num_protected_frames_ g)
     (min_num_media_packets_ g) (current_params_ g)
     (is_key_frame s || media_contains_keyframe_ g) (pending_params_ g) (fec_bitrate_ g).

(** The condition under which FEC is produced. *)
Definition enough_media (g : t) (complete_frame : bool) : res bool :=
  if negb complete_frame then Ok false else
  if max_fec_frames (CurrentParams g) <=? num_protected_frames_ g then Ok true else
  let! below := ExcessOverheadBelowMax g in
  Ok (below && MinimumMediaPacketsReached g).

Section WithHeap.
Context {HP : Heap} {G : Galois}.

Definition AddPacketAndGenerateFec (params : Rs.Params) (g : t) (s : RtpPacketToSend) : res t :=
  let g := add_packet (apply_pending g) s in
  let! produce := enough_media g (RtpPacket.Marker (packet s)) in
  if negb produce then Ok g else
  let! (fec, _, packets) := Rs.EncodeRSFec params (fec_ g) (media_packets_ g) (u8 (fec_rate (CurrentParams g))) in
  let generated := generated_fec_packets_ g ++ packets in
  let g := mk (red_payload_type_ g) (RSfec_payload_type_ g) fec (media_packets_ g)
     (last_media_packet_ g) generated (num_protected_frames_ g) (min_num_media_packets_ g)
     (current_params_ g) (media_contains_keyframe_ g) (pending_params_ g) (fec_bitrate_ g) in
  Ok match generated with [] => ResetState g | _ => g end.

(** One FEC packet as RED packet with the header of the last media packet. *)
Definition red_fec_packet (red_payload_type RSfec_payload_type : Z) (last : RtpPacketToSend) (fec_packet : Packet)
    : res RtpPacketToSend :=
  let! p := RtpPacket.SetPayloadType (packet (copy last)) red_payload_type in
  let! p := RtpPacket.SetMarker p false in
  let! p := RtpPacket.SetPayloadSize p (kRedForFecHeaderLength + length fec_packet) in
  let! p := RtpPacket.WriteAt p (RtpPacket.payload_offset_ p) RSfec_payload_type in
  let! p := RtpPacket.write (fun d => memcpy d (RtpPacket.payload_offset_ p + 1) fec_packet 0
                                        (length fec_packet)) p in
  Ok (mkToSend p (capture_time last) (Some kForwardErrorCorrection) false (is_key_frame last) false true).

Definition red_fec_packets (red_payload_type RSfec_payload_type : Z) (last : RtpPacketToSend) (generated : list Packet)
    : res (list RtpPacketToSend) :=
  foldM (fun out fec_packet =>
    let! red := red_fec_packet red_payload_type RSfec_payload_type last fec_packet in Ok (out ++ [red])) generated [].

Definition total_size (packets : list RtpPacketToSend) : Z :=
  Z.of_nat (foldr (fun s n => (RtpPacket.size (packet s) + n)%nat) 0%nat packets).

Definition GetFecPackets (g : t) (now_ms : Z) : res (list RtpPacketToSend * t) :=
  match generated_fec_packets_ g with
  | [] => Ok ([], g)
  | generated =>
      match last_media_packet_ g with
      | None => Fault CheckFailed
      | Some last =>
          let! p := RtpPacket.SetPayloadSize (packet last) 0 in
          let! fec_packets := red_fec_packets (red_payload_type_ g) (RSfec_payload_type_ g) (with_packet last p) generated in
          let g := ResetState g in
          Ok (fec_packets,
              mk (red_payload_type_ g) (RSfec_payload_type_ g) (fec_ g) (media_packets_ g)
                 (last_media_packet_ g) (generated_fec_packets_ g) (num_protected_frames_ g)
                 (min_num_media_packets_ g) (current_params_ g) (media_contains_keyframe_ g)
                 (pending_params_ g) (BitrateTracker.Update (fec_bitrate_ g) (total_size fec_packets) now_ms))
      end
  end.

(** In bits per second; the query moves the window of the tracker. *)
Definition CurrentFecRate (g : t) (now_ms : Z) : Z * t :=
  let '(rate, tracker) := BitrateTracker.Rate (fec_bitrate_ g) now_ms in
  (default 0 rate,
   mk (red_payload_type_ g) (RSfec_payload_type_ g) (fec_ g) (media_packets_ g)
      (last_media_packet_ g) (generated_fec_packets_ g) (num_protected_frames_ g)
      (min_num_media_packets_ g) (current_params_ g) (media_contains_keyframe_ g)
      (pending_params_ g) tracker).

End WithHeap.
End RSfecGenerator.

(** ** Sliding window *)

(** [double], in the binary64 format of [SpecFloat]. *)
Definition f64_of_Z (z : Z) : spec_float := binary_normalize 53 1024 z 0 false.
Definition f64_add := SFadd 53 1024.
Definition f64_sub := SFsub 53 1024.
Definition f64_mul := SFmul 53 1024.

(** [static_cast<int>] of a [uint32_t]. *)
Definition int_of_u32 (x : Z) : Z := if x <? 2 ^ 31 then x else x - 2 ^ 32.

Module StreamRSfecGenerator.
Export RSfecGenerator (Params, mkParams, delta_params, keyframe_params,
  kMaxExcessOverhead, kMinMediaPackets, kHighProtectionThreshold).

Definition kMaxFECSeqNumDiff : Z := 32.

(** What the code reads of [inputV::Params] and [transV::Params]. *)
Record Input : Type := mkInput {
  rs_params : Rs.Params;
  FecRate : spec_float;
  L : nat;
  I : Z
}.

Record t : Type := mk {
  red_payload_type_ : Z;
  RSfec_payload_type_ : Z;
  fec_ : Rs.Encoder;
  media_packets_ : list Packet;
  media_packets_key_frame_note_ : list Z;
  last_media_packet_ : option RtpPacketToSend;
  generated_fec_packets_ : list Packet;
  num_protected_frames_ : Z;
  min_num_media_packets_ : Z;
  num_media_packets_insert_ : Z;
  left_rate_ : spec_float;
  current_params_ : Params;
  media_contains_keyframe_ : Z;
  pending_params_ : option Params;
  fec_bitrate_ : BitrateTracker.t
}.

(** The public constructor leaves [num_media_packets_insert_] and [left_rate_]
    uninitialised: they have any values. *)
Definition new (num_media_packets_insert : Z) (left_rate : spec_float)
    (red_payload_type RSfec_payload_type : Z) (fec : Rs.Encoder) : t :=
  mk red_payload_type RSfec_payload_type fec [] [] None [] 0 1 num_media_packets_insert left_rate
     (mkParams default_params default_params) 0 None (BitrateTracker.new 1000).

Definition with_fec (g : t) (fec : Rs.Encoder) (generated : list Packet) : t :=
  mk (red_payload_type_ g) (RSfec_payload_type_ g) fec (media_packets_ g) (media_packets_key_frame_note_ g)
     (last_media_packet_ g) generated (num_protected_frames_ g) (min_num_media_packets_ g)
     (num_media_packets_insert_ g) (left_rate_ g) (current_params_ g) (media_contains_keyframe_ g)
     (pending_params_ g) (fec_bitrate_ g).

Definition with_media (g : t) (media : list Packet) (notes : list Z) (last : option RtpPacketToSend) (inserted : Z) : t :=
  mk (red_payload_type_ g) (RSfec_payload_type_ g) (fec_ g) media notes last (generated_fec_packets_ g)
     (num_protected_frames_ g) (min_num_media_packets_ g) inserted (left_rate_ g) (current_params_ g)
     (media_contains_keyframe_ g) (pending_params_ g) (fec_bitrate_ g).

Definition with_counts (g : t) (frames inserted : Z) (left_rate : spec_float) : t :=
  mk (red_payload_type_ g) (RSfec_payload_type_ g) (fec_ g) (media_packets_ g) (media_packets_key_frame_note_ g)
     (last_media_packet_ g) (generated_fec_packets_ g) frames (min_num_media_packets_ g) inserted left_rate
     (current_params_ g) (media_contains_keyframe_ g) (pending_params_ g) (fec_bitrate_ g).

Definition with_params (g : t) (min_packets : Z) (current : Params) (pending : option Params) : t :=
  mk (red_payload_type_ g) (RSfec_payload_type_ g) (fec_ g) (media_packets_ g) (media_packets_key_frame_note_ g)
     (last_media_packet_ g) (generated_fec_packets_ g) (num_protected_frames_ g) min_packets
     (num_media_packets_insert_ g) (left_rate_ g) current (media_contains_keyframe_ g) pending (fec_bitrate_ g).

Definition SetProtectionParameters (g : t) (delta_params key_params : FecProtectionParams) : t :=
  with_params g (min_num_media_packets_ g) (current_params_ g) (Some (mkParams delta_params key_params)).

Definition CurrentParams (g : t) : FecProtectionParams :=
  if media_contains_keyframe_ g =? 0 then delta_params (current_params_ g)
  else keyframe_params (current_params_ g).

Definition MaxPacketOverhead (g : t) : nat := Rs.kFecLevel0HeaderSize + Rs.kFecLevel1HeaderSize.

(** [left_rate_] is kept. *)
Definition ResetState (g : t) : t :=
  mk (red_payload_type_ g) (RSfec_payload_type_ g) (fec_ g) [] [] None [] 0 (min_num_media_packets_ g)
     0 (left_rate_ g) (current_params_ g) 0 (pending_params_ g) (fec_bitrate_ g).

Definition Overhead (g : t) : res Z :=
  let size := Z.of_nat (length (media_packets_ g)) in
  let num_fec_packets := NumFecPackets size (fec_rate (CurrentParams g)) in
  if size =? 0 then Fault DivideByZero else Ok (Z.shiftl num_fec_packets 8 / size).

Definition ExcessOverheadBelowMax (g : t) : res bool :=
  let! overhead := Overhead g in
  Ok (overhead - fec_rate (CurrentParams g) <? kMaxExcessOverhead).

Definition MinimumMediaPacketsReached (g : t) : bool :=
  let num_media_packets := Z.of_nat (length (media_packets_ g)) in
  if UlpfecGenerator.few_packets_per_frame num_media_packets (num_protected_frames_ g)
  then min_num_media_packets_ g <=? num_media_packets
  else min_num_media_packets_ g + 1 <=? num_media_packets.

(** [while (size() > 0 && size() >= L) pop_front()]. *)
Fixpoint pop_front_to (L : nat) (media : list Packet) : list Packet :=
  match media with
  | [] => []
  | _ :: rest => if (L <=? length media)%nat then pop_front_to L rest else media
  end.

(** The loop that erases packets from the front that are 32 or more sequence
    numbers from the one inserted. *)
Fixpoint erase_far (insert_seq_num : Z) (media : list Packet) : res (list Packet) :=
  match media with
  | [] => Ok []
  | p :: rest =>
      let! front_seq_num := ParseSequenceNumber p in
      if kMaxFECSeqNumDiff <=? MinDiff16 insert_seq_num front_seq_num then erase_far insert_seq_num rest
      else Ok media
  end.

(** The same with the notes; [erase] of the end of a list is a fault. *)
Fixpoint erase_far_noted (insert_seq_num : Z) (media : list Packet) (notes : list Z) : res (list Packet * list Z) :=
  match media with
  | [] => Ok ([], notes)
  | p :: rest =>
      let! front_seq_num := ParseSequenceNumber p in
      if kMaxFECSeqNumDiff <=? MinDiff16 insert_seq_num front_seq_num then
        match notes with
        | [] => Fault OutOfBounds
        | _ :: notes => erase_far_noted insert_seq_num rest notes
        end
      else Ok (media, notes)
  end.

(** The window takes the packet. *)
Definition slide (input : Input) (g : t) (s : RtpPacketToSend) : res t :=
  let media := pop_front_to (L input) (media_packets_ g) in
  if (length media <? L input)%nat then
    let fec_packet := Cow.contents (RtpPacket.buffer_ (packet s)) in
    let! insert_seq_num := ParseSequenceNumber fec_packet in
    let! media := erase_far insert_seq_num (media ++ [fec_packet]) in
    Ok (with_media g media (media_packets_key_frame_note_ g) (Some (copy s)) (num_media_packets_insert_ g + 1))
  else Ok (with_media g media (media_packets_key_frame_note_ g) (last_media_packet_ g) (num_media_packets_insert_ g)).

Definition apply_pending (g : t) : t :=
  match pending_params_ g with
  | None => g
  | Some params =>
      let g := with_params g (min_num_media_packets_ g) params None in
      with_params g (if kHighProtectionThreshold <? fec_rate (CurrentParams g) then kMinMediaPackets else 1)
        (current_params_ g) (pending_params_ g)
  end.

(** Storing the packet in [RSFECStreamSourceRate]. *)
Definition add_packet (g : t) (s : RtpPacketToSend) : res t :=
  if (length (media_packets_ g) <? kRSfecMaxMediaPackets)%nat then
    let fec_packet := Cow.contents (RtpPacket.buffer_ (packet s)) in
    let! insert_seq_num := ParseSequenceNumber fec_packet in
    let! (media, notes) := erase_far_noted insert_seq_num (media_packets_ g ++ [fec_packet])
                             (media_packets_key_frame_note_ g ++ [if is_key_frame s then 1 else 0]) in
    Ok (with_media g media notes (Some (copy s)) (num_media_packets_insert_ g))
  else Ok g.

Definition enough_media (g : t) (complete_frame : bool) : res bool :=
  if negb complete_frame then Ok false else
  if max_fec_frames (CurrentParams g) <=? num_protected_frames_ g then Ok true else
  let! below := ExcessOverheadBelowMax g in
  Ok (below && MinimumMediaPacketsReached g).

Section WithHeap.
Context {HP : Heap} {G : Galois}.

(** [EncodeRSFec], and [ResetState] when it gives nothing. *)
Definition generate (input : Input) (g : t) (protection_factor : Z) : res (t * bool) :=
  let! (fec, ret, packets) := Rs.EncodeRSFec (rs_params input) (fec_ g) (media_packets_ g) protection_factor in
  let generated := generated_fec_packets_ g ++ packets in
  let g := with_fec g fec generated in
  if (length generated =? 0)%nat || (ret =? -1) then Ok (ResetState g, false) else Ok (g, true).

(** [left_rate_ + FecRate * num_media_packets_insert_]. *)
Definition earned_rate (input : Input) (g : t) : spec_float :=
  f64_add (left_rate_ g) (f64_mul (FecRate input) (f64_of_Z (num_media_packets_insert_ g))).

(** [RSFECStreamStableRate], [SwiftFECAblI]. *)
Definition add_stable_rate (input : Input) (g : t) (s : RtpPacketToSend) : res t :=
  let wanted := f64_of_Z (Z.of_nat (Rs.generate_fec_num (rs_params input))) in
  let! g := slide input g s in
  if Z.of_nat (length (media_packets_ g)) <=? num_media_packets_insert_ g then
    let! (g, generated) := generate input g 0 in
    Ok (if (generated : bool) then with_counts g (num_protected_frames_ g) 0 (f64_of_Z 0) else g)
  else if (0 <? num_media_packets_insert_ g) && SFleb wanted (earned_rate input g) && RtpPacket.Marker (packet s) then
    let! (g, generated) := generate input g 0 in
    let left_rate := f64_sub (earned_rate input g) wanted in
    Ok (if (generated : bool) then
          with_counts g (num_protected_frames_ g) 0 (if SFltb (f64_of_Z 1) left_rate then f64_of_Z 1 else left_rate)
        else g)
  else Ok g.

(** [RLSRSFEC], [SwiftFECAblL], [SwiftFECAblM]. *)
Definition add_rls (input : Input) (g : t) (s : RtpPacketToSend) : res t :=
  let! g := slide input g s in
  if (0 <? length (media_packets_ g))%nat && (int_of_u32 (I input) <=? num_media_packets_insert_ g) then
    let! (g, generated) := generate input g 0 in
    Ok (if (generated : bool) then with_counts g (num_protected_frames_ g) 0 (left_rate_ g) else g)
  else Ok g.

(** [RSFECStreamSourceRate]. *)
Definition add_source_rate (input : Input) (g : t) (s : RtpPacketToSend) : res t :=
  let complete_frame := RtpPacket.Marker (packet s) in
  let! g := add_packet (apply_pending g) s in
  let g := if complete_frame
           then with_counts g (num_protected_frames_ g + 1) (num_media_packets_insert_ g) (left_rate_ g) else g in
  let! produce := enough_media g complete_frame in
  if negb produce then Ok g else
  let! (g, _) := generate input g (u8 (fec_rate (CurrentParams g))) in
  Ok g.

Definition AddPacketAndGenerateFec (input : Input) (g : t) (s : RtpPacketToSend) : res t :=
  match Rs.type (rs_params input) with
  | Rs.RSFECStreamStableRate | Rs.SwiftFECAblI => add_stable_rate input g s
  | Rs.RLSRSFEC | Rs.SwiftFECAblL | Rs.SwiftFECAblM => add_rls input g s
  | Rs.RSFECStreamSourceRate => add_source_rate input g s
  | _ => Ok g
  end.

(** The window and the counters stay; the last packet loses its payload. *)
Definition GetFecPackets (g : t) (now_ms : Z) : res (list RtpPacketToSend * t) :=
  match generated_fec_packets_ g with
  | [] => Ok ([], g)
  | generated =>
      match last_media_packet_ g with
      | None => Fault CheckFailed
      | Some last =>
          let! p := RtpPacket.SetPayloadSize (packet last) 0 in
          let last := with_packet last p in
          let! fec_packets := RSfecGenerator.red_fec_packets (red_payload_type_ g) (RSfec_payload_type_ g) last generated in
          Ok (fec_packets,
              mk (red_payload_type_ g) (RSfec_payload_type_ g) (fec_ g) (media_packets_ g)
                 (media_packets_key_frame_note_ g) (Some last) [] (num_protected_frames_ g)
                 (min_num_media_packets_ g) (num_media_packets_insert_ g) (left_rate_ g) (current_params_ g)
                 (media_contains_keyframe_ g) (pending_params_ g)
                 (BitrateTracker.Update (fec_bitrate_ g) (RSfecGenerator.total_size fec_packets) now_ms))
      end
  end.

Definition CurrentFecRate (g : t) (now_ms : Z) : Z * t :=
  let '(rate, tracker) := BitrateTracker.Rate (fec_bitrate_ g) now_ms in
  (default 0 rate,
   mk (red_payload_type_ g) (RSfec_payload_type_ g) (fec_ g) (media_packets_ g) (media_packets_key_frame_note_ g)
      (last_media_packet_ g) (generated_fec_packets_ g) (num_protected_frames_ g) (min_num_media_packets_ g)
      (num_media_packets_insert_ g) (left_rate_ g) (current_params_ g) (media_contains_keyframe_ g)
      (pending_params_ g) tracker).

End WithHeap.
End StreamRSfecGenerator.
