(* ===== verification/RsStream.v ===== *)
(** * RsStream: the window that slides over the packets sent

    [StreamRSfecGenerator] keeps the packets sent last: at most [L] of them, back
    to 31 sequence numbers before the newest.  [window] says so of the packets
    with their numbers counted without wrap-around; the loops of the generator
    compute it. *)

From stdpp Require Import sorting.
From S2P Require Import Prelude.
From S2P Require Import SeqNum.
From S2P Require Import FecTypes.
From S2P Require Import XorCode.
From S2P Require Import CowBuffer.
From S2P Require Import Galois.
From S2P Require Import ReedSolMatrix.
From S2P Require Import RsCodec.
From S2P Require Import RsEncoder.
From S2P Require Import RsWindow.
From S2P Require Import RsGenerator.
Import StreamRSfecGenerator.

(** A packet of the stream: how many numbers it is behind the first one, and
    its bytes. *)
Abbreviation item := (nat * Packet)%type.

Definition near (x y : item) : Prop := (x.1 < y.1 + 32)%nat.
#[global] Instance near_dec x y : Decision (near x y).
Proof. unfold near. apply _. Defined.

(** The newest is [last sent]. *)
Definition window (L : nat) (sent : list item) : list item :=
  match last sent with
  | None => []
  | Some x => filter (near x) (drop (length sent - L) sent)
  end.

Definition older (x y : item) : Prop := (x.1 < y.1)%nat.

(** ** The loops *)

Lemma pop_front_to_drop L media : (1 <= L)%nat -> pop_front_to L media = drop (length media - (L - 1)) media.
Proof.
  intros HL. induction media as [|p media IH]; cbn [pop_front_to]; [done|].
  destruct (Nat.leb_spec L (length (p :: media))) as [Hle|Hlt]; cbn [length] in *.
  - rewrite IH. by replace (S (length media) - (L - 1))%nat with (S (length media - (L - 1))) by lia.
  - by replace (S (length media) - (L - 1))%nat with 0%nat by lia.
Qed.

(** The difference of two numbers. *)
Lemma number_sub base m n : (m <= n)%nat -> Z.of_nat (n - m) < 65536 ->
  u16 (number base n - number base m) = Z.of_nat (n - m).
Proof.
  intros Hle Hlt. unfold number. pose proof (Zminus_mod_idemp_l (base + Z.of_nat n) (u16 (base + Z.of_nat m)) 65536) as H1.
  pose proof (Zminus_mod_idemp_r (base + Z.of_nat n) (base + Z.of_nat m) 65536) as H2.
  unfold uw in *. change (2 ^ 16) with 65536 in *. rewrite H1, H2.
  replace (base + Z.of_nat n - (base + Z.of_nat m)) with (Z.of_nat (n - m)) by lia. apply Z.mod_small. lia.
Qed.

Lemma number_behind base m n : (m <= n)%nat -> Z.of_nat (n - m) < 32768 ->
  MinDiff16 (number base n) (number base m) = Z.of_nat (n - m).
Proof.
  intros Hle Hlt. pose proof (number_sub base m n Hle ltac:(lia)) as E.
  rewrite MinDiff16_comm. destruct (MinDiff16_arc (number base m) (number base n)) as [->|[E0 ->]]; rewrite E in *; lia.
Qed.

Section Numbers.
Variable base : Z.

(** The packet is an RTP packet with that number. *)
Definition numbered (x : item) : Prop := media_sized x.2 /\ rtp_seq_num x.2 = number base x.1.

Lemma numbered_parse x : numbered x -> ParseSequenceNumber x.2 = Ok (number base x.1).
Proof. intros [[Hb Hl] <-]. by apply ParseSequenceNumber_ok. Qed.

(** The loop over the window keeps what is near. *)
Lemma erase_far_near x l :
  Forall numbered l -> StronglySorted older l ->
  Forall (fun y => (y.1 <= x.1)%nat /\ Z.of_nat (x.1 - y.1) < 32768) l ->
  erase_far (number base x.1) (map snd l) = Ok (map snd (filter (near x) l)).
Proof.
  intros Hn Hs Hd. induction Hs as [|y l Hs IH Hy]; cbn [map erase_far]; [done|].
  apply Forall_cons_1 in Hn as [Hny Hn], Hd as [Hdy Hd]. rewrite (numbered_parse _ Hny), bind_ok, number_behind by lia.
  rewrite filter_cons. unfold kMaxFECSeqNumDiff. destruct (Z.leb_spec 32 (Z.of_nat (x.1 - y.1))) as [Hfar|Hnear].
  - rewrite decide_False by (unfold near; lia). by apply IH.
  - rewrite decide_True by (unfold near; lia). cbn [map]. do 3 f_equal. symmetry. apply filter_keeps.
    apply Forall_forall. intros z Hz. rewrite Forall_forall in Hy. specialize (Hy z Hz). unfold near, older in *. lia.
Qed.
End Numbers.

(** In a sorted list the near ones are the last ones. *)
Lemma near_suffix x l : StronglySorted older l ->
  exists k, (k <= length l)%nat /\ filter (near x) l = drop k l /\ Forall (fun y => ~ near x y) (take k l).
Proof.
  induction 1 as [|y l Hs (k & Hk & E & Hf) Hy]; [by exists 0%nat|].
  rewrite filter_cons. case_decide as Hn.
  - exists 0%nat. cbn [drop take length]. split; [lia|]. split; [|done]. f_equal. apply filter_keeps.
    apply Forall_forall. intros z Hz. rewrite Forall_forall in Hy. specialize (Hy z Hz). unfold near, older in *. lia.
  - exists (S k). cbn [drop take length]. split; [lia|]. split; [done|]. by constructor.
Qed.

(** Dropping packets that are far does not matter. *)
Lemma filter_drop_far x l a k :
  (a <= k)%nat -> Forall (fun y => ~ near x y) (take k l) -> filter (near x) (drop a l) = filter (near x) (drop k l).
Proof.
  intros Hle Hf. rewrite <- (take_drop (k - a) (drop a l)), filter_app, drop_drop.
  replace (a + (k - a))%nat with k by lia. rewrite filter_none; [done|].
  apply Forall_forall. intros y Hy. rewrite Forall_forall in Hf. apply Hf.
  rewrite take_drop_commute in Hy. replace (a + (k - a))%nat with k in Hy by lia.
  eapply elem_of_sublist; [exact Hy|apply sublist_drop].
Qed.

Lemma window_snoc L sent x : (1 <= L)%nat ->
  window L (sent ++ [x]) = filter (near x) (drop (length sent - (L - 1)) sent) ++ [x].
Proof.
  intros HL. unfold window. rewrite last_snoc, length_app. cbn [length].
  replace (length sent + 1 - L)%nat with (length sent - (L - 1))%nat by lia.
  rewrite drop_app_le by lia. rewrite filter_app. f_equal.
  rewrite filter_cons, filter_nil, decide_True; [done|]. unfold near. lia.
Qed.

(** One step of the window. *)
Lemma window_step L sent x :
  (1 <= L)%nat -> StronglySorted older (sent ++ [x]) ->
  filter (near x) (drop (length (window L sent) - (L - 1)) (window L sent) ++ [x]) = window L (sent ++ [x]).
Proof.
  intros HL Hs. rewrite window_snoc, filter_app by done. f_equal.
  2:{ rewrite filter_cons, filter_nil, decide_True; [done|]. unfold near. lia. }
  apply StronglySorted_app in Hs as (Hx & Hs & _).
  unfold window. destruct (last sent) as [y|] eqn:Ey.
  2:{ apply last_None in Ey as ->. done. }
  set (d := drop (length sent - L) sent).
  assert (Hd : StronglySorted older d) by (eapply sorted_sublist; [apply sublist_drop|exact Hs]).
  destruct (near_suffix y d Hd) as (k & Hk & -> & Hf). rewrite drop_drop, length_drop.
  assert (Hfx : Forall (fun z => ~ near x z) (take k d)).
  { eapply Forall_impl; [exact Hf|]. intros z Hz Hn. apply Hz.
    specialize (Hx y x (last_Some_elem_of _ _ Ey) ltac:(by left)). unfold near, older in *. lia. }
  assert (Hld : length d = Nat.min L (length sent)) by (unfold d; rewrite length_drop; lia).
  replace (drop (length sent - (L - 1)) sent) with (drop (length d - (L - 1)) d)
    by (unfold d; rewrite drop_drop, length_drop; f_equal; lia).
  destruct (decide (k = 0%nat)) as [->|Hk0]; [by rewrite Nat.sub_0_r|].
  replace (k + (length d - k - (L - 1)))%nat with k by lia. symmetry. apply filter_drop_far; [lia|done].
Qed.

Lemma window_sublist L sent : window L sent `sublist_of` sent.
Proof.
  unfold window. destruct (last sent); [|apply sublist_nil_l].
  etrans; [apply sublist_filter|apply sublist_drop].
Qed.

(** ** The window as a batch *)

Section Batch.
Variable base : Z.

Definition window_offsets (w : list item) : list nat :=
  match w with [] => [] | x :: _ => map (fun y => y.1 - x.1)%nat w end.

Definition window_base (w : list item) : Z := match w with [] => 0 | x :: _ => number base x.1 end.

Lemma window_batch L sent : (1 <= L)%nat -> sent <> [] ->
  Forall (numbered base) sent -> StronglySorted older sent ->
  let w := window L sent in rs_batch (map snd w) (window_base w) (window_offsets w) /\ is_u16 (window_base w).
Proof.
  intros HL Hne Hn Hs w.
  assert (Hwn : Forall (numbered base) w) by (eapply Forall_sublist; [apply window_sublist|done]).
  assert (Hws : StronglySorted older w) by (eapply sorted_sublist; [apply window_sublist|done]).
  destruct (last sent) as [z|] eqn:Ez; [|by apply last_None in Ez].
  assert (Hnear : Forall (near z) w) by (unfold w, window; rewrite Ez; apply Forall_forall; by intros ? [? _]%list_elem_of_filter).
  assert (Hle : Forall (fun y => y.1 <= z.1)%nat w).
  { apply Forall_forall. intros y Hy. pose proof (elem_of_sublist _ _ _ Hy (window_sublist L sent)) as Hin.
    apply last_Some in Ez as [sent' ->]. apply StronglySorted_app in Hs as (Hx & _ & _).
    apply elem_of_app in Hin as [Hin|Hin%list_elem_of_singleton]; [|by subst].
    specialize (Hx y z Hin ltac:(by left)). unfold older in Hx. lia. }
  assert (Hw : w <> []).
  { apply last_Some in Ez as [sent' E]. unfold w. rewrite E, window_snoc by done. by destruct (filter _ _). }
  clearbody w. destruct w as [|x w]; [done|]. cbn [window_base window_offsets]. split; [|apply number_range].
  pose proof Hws as Hws'. apply StronglySorted_inv in Hws' as [_ Hx].
  apply Forall_cons_1 in Hnear as [Hzx Hnear]. unfold near in Hzx.
  assert (Hge : Forall (fun y => x.1 <= y.1)%nat (x :: w)).
  { constructor; [lia|]. eapply Forall_impl; [exact Hx|]. unfold older. lia. }
  split.
  - apply List.Forall_map. eapply Forall_impl; [exact Hwn|]. by intros y [? _].
  - apply Forall2_fmap. apply Forall_Forall2_diag. apply Forall_forall. intros y Hy.
    rewrite Forall_forall in Hwn, Hge. destruct (Hwn y Hy) as [_ ->]. specialize (Hge y Hy). unfold number, uw.
    rewrite Zplus_mod_idemp_l. f_equal. lia.
  - clear -Hws Hge. revert Hge. generalize x at 1 3. intros x0. induction Hws as [|y l Hs IH Hy]; intros Hge; [constructor|].
    apply Forall_cons_1 in Hge as [Hy0 Hge]. cbn [map]. constructor; [by apply IH|].
    apply List.Forall_map. eapply Forall_impl; [exact Hy|]. unfold older. lia.
  - cbn [map head]. by rewrite Nat.sub_diag.
  - apply List.Forall_map. rewrite Forall_forall in Hle, Hge |- *. intros y Hy. specialize (Hle y Hy). lia.
Qed.
End Batch.
