(* ===== verification/RsStreamRun.v ===== *)
(** * RsStreamRun: [StreamRSfecGenerator] fed with a stream of packets

    In the modes [RLSRSFEC], [SwiftFECAblL] and [SwiftFECAblM]: the generator
    holds the window of what was sent, and every [I]-th packet its FEC packets
    leave in RED. *)

From stdpp Require Import sorting.
From S2P Require Import Prelude.
From S2P Require Import SeqNum.
From S2P Require Import CowBuffer.
From S2P Require Import RtpPacketModel.
From S2P Require Import RtpPacketLaws.
From S2P Require Import RtpPacketOps.
From S2P Require Import RtpPacketSession.
From S2P Require Import FecTypes.
From S2P Require Import FecEncoder.
From S2P Require Import XorCode.
From S2P Require Import RateModel.
From S2P Require Import UlpfecSender.
From S2P Require Import GeneratorLaws.
From S2P Require Import ReceiverSession.
From S2P Require Import Galois.
From S2P Require Import ReedSolMatrix.
From S2P Require Import ReedSolSolve.
From S2P Require Import RsCodec.
From S2P Require Import RsBytes.
From S2P Require Import RsEncoder.
From S2P Require Import RsWindow.
From S2P Require Import RsGenerator.
From S2P Require Import RsStream.
Import StreamRSfecGenerator.

(** Numbers go up, by at most 1000 from packet to packet. *)
Definition follows (sent : list item) (x : item) : Prop :=
  match last sent with Some y => (y.1 < x.1 <= y.1 + 1000)%nat | None => True end.

Lemma follows_sorted sent x : StronglySorted older sent -> follows sent x -> StronglySorted older (sent ++ [x]).
Proof.
  intros Hs Hf. apply StronglySorted_app_2; [|done|by repeat constructor].
  intros y z Hy Hz%list_elem_of_singleton. subst z. unfold follows in Hf.
  destruct (last sent) as [l|] eqn:El; [|by apply last_None in El as ->; apply elem_of_nil in Hy].
  apply last_Some in El as [sent' ->]. apply StronglySorted_app in Hs as (Hx & _ & _).
  apply elem_of_app in Hy as [Hy|Hy%list_elem_of_singleton]; unfold older in *; [|subst; lia].
  specialize (Hx y l Hy ltac:(by left)). unfold older in Hx. lia.
Qed.

Lemma max_payload_small ms : Forall (fun p => (length p <= 1488)%nat) ms -> Z.of_nat (max_payload ms) < 65536.
Proof.
  intros Hs. assert ((max_payload ms <= 1488)%nat); [|lia].
  induction Hs as [|p ms Hp _ IH]; [cbn; lia|]. unfold max_payload in *. cbn. lia.
Qed.

Section Run.
Context {HP : Heap} {G : Galois} {GL : GaloisLaws G}.
Variables (ssrc base : Z) (input : Input).

(** The modes that count packets. *)
Definition counts (input : Input) : Prop :=
  Rs.type (rs_params input) = Rs.RLSRSFEC \/ Rs.type (rs_params input) = Rs.SwiftFECAblL \/
  Rs.type (rs_params input) = Rs.SwiftFECAblM.

(** The modes that aim at a rate. *)
Definition rated (input : Input) : Prop :=
  Rs.type (rs_params input) = Rs.RSFECStreamStableRate \/ Rs.type (rs_params input) = Rs.SwiftFECAblI.

(** FEC packets per round. *)
Definition round (input : Input) : nat := Rs.num_fec_packets_of (rs_params input) 0 0.

Hypothesis Hmode : counts input \/ rated input.
Hypothesis HL : (1 <= L input)%nat.
Hypothesis Hround : (0 < round input <= 32)%nat.

Lemma round_any n pf : Rs.num_fec_packets_of (rs_params input) n pf = round input.
Proof. unfold round, Rs.num_fec_packets_of. by destruct Hmode as [[->|[->| ->]]|[->| ->]]. Qed.

(** ** The state between two packets *)

(** The items [sent] are the packets [ss]. *)
Record stream_item (x : item) (s : RtpPacketToSend) : Prop := {
  si_sendable : sendable (packet s);
  si_ssrc : RtpPacket.Ssrc (packet s) = ssrc;
  si_bytes : x.2 = wire (packet s);
  si_number : numbered base x;
  si_short : (length x.2 <= 1488)%nat
}.

Record streaming (g : t) (sent : list item) (a : nat) : Prop := {
  st_types : 0 <= red_payload_type_ g < 128 /\ 0 <= RSfec_payload_type_ g < 128;
  st_encoder : length (Rs.generated_fec_packets_ (fec_ g)) = 32%nat /\ Rs.curBaseNum (fec_ g) = gf_pow 2 a;
  st_taken : generated_fec_packets_ g = [];
  st_window : media_packets_ g = map snd (window (L input) sent);
  st_items : Forall (fun x => numbered base x /\ (length x.2 <= 1488)%nat) sent;
  st_sorted : StronglySorted older sent
}.

(** ** One packet *)

(** The window as it is after the packet. *)
Definition slid (g : t) (s : RtpPacketToSend) (sent : list item) : t :=
  with_media g (map snd (window (L input) sent)) (media_packets_key_frame_note_ g) (Some (copy s))
    (num_media_packets_insert_ g + 1).

Lemma slide_ok g sent a x s :
  streaming g sent a -> stream_item x s -> follows sent x -> slide input g s = Ok (slid g s (sent ++ [x])).
Proof.
  intros [_ _ _ Hw Hi Hs] [_ _ Hb Hn _] Hf. pose proof (follows_sorted _ _ Hs Hf) as Hs'.
  unfold slide, slid. rewrite pop_front_to_drop, Hw, length_map by done.
  set (w := window (L input) sent). rewrite (proj2 (Nat.ltb_lt _ _)).
  2:{ rewrite length_drop, length_map. lia. }
  change (Cow.contents (RtpPacket.buffer_ (packet s))) with (wire (packet s)). rewrite <- Hb, (numbered_parse base x Hn), bind_ok.
  replace (drop _ (map snd w) ++ [x.2]) with (map snd (drop (length w - (L input - 1)) w ++ [x])).
  2:{ rewrite map_app. f_equal. apply (fmap_drop snd). }
  assert (Hsub : drop (length w - (L input - 1)) w `sublist_of` sent).
  { etrans; [apply sublist_drop|apply window_sublist]. }
  rewrite (erase_far_near base); [unfold w; by rewrite window_step|..].
  - apply Forall_app. split; [|constructor; [done|constructor]]. eapply Forall_sublist; [exact Hsub|]. eapply Forall_impl; [exact Hi|]. by intros y [? _].
  - eapply sorted_sublist; [|exact Hs']. by apply sublist_app.
  - apply Forall_app. split; [|constructor; [lia|constructor]]. apply Forall_forall. intros y Hy.
    apply (elem_of_sublist _ w) in Hy; [|apply sublist_drop]. unfold w, window, follows in *.
    destruct (last sent) as [l|] eqn:El; [|by apply elem_of_nil in Hy]. apply list_elem_of_filter in Hy as [Hn' Hin].
    apply (elem_of_sublist _ sent) in Hin; [|apply sublist_drop]. unfold near in Hn'.
    apply last_Some in El as [sent' ->]. apply StronglySorted_app in Hs as (Hx & _ & _).
    apply elem_of_app in Hin as [Hin|Hin%list_elem_of_singleton]; [|subst; lia].
    specialize (Hx y l Hin ltac:(by left)). unfold older in Hx. lia.
Qed.

(** [out] carries the FEC packets of the window [w], for the base numbers from
    [a] on. *)
Definition protects (fec_payload_type : Z) (w : list item) (a : nat) (out : list RtpPacketToSend) : Prop :=
  length out = round input /\
  forall i r, out !! i = Some r ->
    sendable (packet r) /\ RtpPacket.Ssrc (packet r) = ssrc /\ packet_type r = Some kForwardErrorCorrection /\
    exists fec, payload_bytes (packet r) = fec_payload_type :: fec /\
      fec_packet_of (map snd w) (window_base base w) (window_offsets w) (gf_pow 2 (a + i)) fec.

Lemma generate_ok g sent a :
  streaming g sent a -> sent <> [] ->
  exists e' fecs, generate input g 0 = Ok (with_fec g e' fecs, true) /\
    length (Rs.generated_fec_packets_ e') = 32%nat /\ Rs.curBaseNum e' = gf_pow 2 (a + round input) /\
    length fecs = round input /\
    (forall i fec, fecs !! i = Some fec -> let w := window (L input) sent in
       fec_packet_of (map snd w) (window_base base w) (window_offsets w) (gf_pow 2 (a + i)) fec).
Proof.
  intros [_ [Hl Hc] Ht Hw Hi Hs] Hne.
  assert (Hn : Forall (numbered base) sent) by (eapply Forall_impl; [exact Hi|]; by intros ? [? _]).
  destruct (window_batch base (L input) sent HL Hne Hn Hs) as [B Hb]. set (w := window (L input) sent) in *.
  destruct (EncodeRSFec_ok (map snd w) (window_base base w) (window_offsets w) B Hb) with
    (params := rs_params input) (e := fec_ g) (protection_factor := 0) (a := a) as (e' & fecs & E & Hc' & Hl' & Hf & Hall).
  - apply max_payload_small, List.Forall_map. eapply Forall_sublist; [apply window_sublist|].
    eapply Forall_impl; [exact Hi|]. by intros ? [_ ?].
  - rewrite round_any. lia.
  - rewrite round_any. lia.
  - done.
  - rewrite round_any in *. exists e', fecs. unfold generate. rewrite Hw. fold w. rewrite E, bind_ok, Ht. cbn [app].
    rewrite (proj2 (Nat.eqb_neq _ _)) by lia. cbn [orb Z.eqb Pos.eqb]. split_and!; [done|congruence|done|done|].
    intros i fec Hfec. rewrite <- (list_lookup_total_correct _ _ _ Hfec). apply Hall. rewrite <- Hf. by eapply lookup_lt_Some.
Qed.

(** What leaves for the FEC packets [fecs]. *)
Definition in_red (red fec_payload_type : Z) (last : RtpPacketToSend) (fec : Packet) (r : RtpPacketToSend) : Prop :=
  fec_form (packet last) (packet r) fec_payload_type fec /\
  RtpPacket.PayloadType (packet r) = red /\ RtpPacket.Marker (packet r) = false /\
  packet_type r = Some kForwardErrorCorrection /\ allow_retransmission r = false /\
  fec_protect_packet r = false /\ is_red r = true.

Lemma red_fec_packets_ok red fec_payload_type last fecs :
  0 <= red < 128 -> 0 <= fec_payload_type < 128 -> sendable (packet last) -> Forall bytes fecs ->
  exists out, RSfecGenerator.red_fec_packets red fec_payload_type last fecs = Ok out /\
    Forall2 (in_red red fec_payload_type last) fecs out.
Proof.
  intros Hr Hf Hs Hb.
  destruct (red_fec_loop (UlpfecGenerator.new red fec_payload_type (mkEncoder [] [] [] 0)) last fecs []) as (out & E & Hout); [by split|done|done|].
  exists out. by split.
Qed.

(** [GetFecPackets] after [generate]. *)
Lemma take_fecs g s now_ms :
  0 <= red_payload_type_ g < 128 /\ 0 <= RSfec_payload_type_ g < 128 ->
  last_media_packet_ g = Some s -> sendable (packet s) -> Forall bytes (generated_fec_packets_ g) ->
  generated_fec_packets_ g <> [] ->
  exists out last tracker, GetFecPackets g now_ms = Ok (out,
      mk (red_payload_type_ g) (RSfec_payload_type_ g) (fec_ g) (media_packets_ g)
        (media_packets_key_frame_note_ g) (Some last) [] (num_protected_frames_ g)
        (min_num_media_packets_ g) (num_media_packets_insert_ g) (left_rate_ g) (current_params_ g)
        (media_contains_keyframe_ g) (pending_params_ g) tracker) /\
    same_stream (packet s) (packet last) /\
    Forall2 (in_red (red_payload_type_ g) (RSfec_payload_type_ g) last) (generated_fec_packets_ g) out.
Proof.
  intros [Hr Hf] Hl Hs Hb Hne. unfold GetFecPackets. destruct (generated_fec_packets_ g) as [|fec fecs']; [done|]. rewrite Hl.
  destruct (SetPayloadSize_sendable (packet s) 0 Hs) as (p & -> & Hp & [b Hpb] & _). rewrite bind_ok.
  destruct (red_fec_packets_ok (red_payload_type_ g) (RSfec_payload_type_ g) (with_packet s p) (fec :: fecs') Hr Hf Hp Hb)
    as (out & -> & Hout). rewrite bind_ok. eexists out, _, _. split; [done|]. split; [|done].
  cbn [packet with_packet]. by rewrite Hpb.
Qed.

Definition push (g : t) (s : RtpPacketToSend) (now_ms : Z) : res (list RtpPacketToSend * t) :=
  let! g := AddPacketAndGenerateFec input g s in GetFecPackets g now_ms.

(** FEC is due with the next packet. *)
Definition due (g : t) : bool := int_of_u32 (I input) <=? num_media_packets_insert_ g + 1.

Lemma slid_streaming g sent a x s :
  streaming g sent a -> stream_item x s -> follows sent x -> streaming (slid g s (sent ++ [x])) (sent ++ [x]) a.
Proof.
  intros [Ht He Hg Hw Hi Hs] [_ _ _ Hn Hl] Hf. split; try done; [|by apply follows_sorted].
  apply Forall_app. split; [done|]. constructor; [done|constructor].
Qed.

Lemma fec_packets_bytes w a (fecs : list Packet) :
  (forall i fec, fecs !! i = Some fec ->
     fec_packet_of (map snd w) (window_base base w) (window_offsets w) (gf_pow 2 (a + i)) fec) -> Forall bytes fecs.
Proof. intros H. apply Forall_lookup. intros i fec Hi. apply (H i fec Hi). Qed.

(** The packet is in the window. *)
Lemma slid_full g s sent x : (0 < length (media_packets_ (slid g s (sent ++ [x]))))%nat.
Proof.
  unfold slid. cbn [media_packets_ with_media]. rewrite length_map, window_snoc, length_app by done. cbn [length]. lia.
Qed.

(** [generate], the counters, and [GetFecPackets]. *)
Lemma emit_ok g sent a x s now_ms :
  streaming g sent a -> stream_item x s -> follows sent x ->
  let g1 := slid g s (sent ++ [x]) in
  exists e' fecs, generate input g1 0 = Ok (with_fec g1 e' fecs, true) /\
    forall frames inserted left_rate, exists out g',
      GetFecPackets (with_counts (with_fec g1 e' fecs) frames inserted left_rate) now_ms = Ok (out, g') /\
      (red_payload_type_ g' = red_payload_type_ g /\ RSfec_payload_type_ g' = RSfec_payload_type_ g) /\
      streaming g' (sent ++ [x]) (a + round input) /\ num_media_packets_insert_ g' = inserted /\
      protects (RSfec_payload_type_ g) (window (L input) (sent ++ [x])) a out.
Proof.
  intros S Hx Hf g1. pose proof (slid_streaming _ _ _ _ _ S Hx Hf) as S1. fold g1 in S1.
  assert (Hne : sent ++ [x] <> []) by (by destruct sent).
  destruct (generate_ok g1 (sent ++ [x]) a S1 Hne) as (e' & fecs & Egen & Hl' & Hc' & Hlen & Hfec).
  exists e', fecs. split; [done|]. intros frames inserted left_rate.
  destruct (copy_sendable s (si_sendable _ _ Hx)) as (Hcs & _ & [b Hb]). destruct S1 as [Ht He Hg Hw Hi Hs].
  set (g2 := with_counts _ _ _ _).
  destruct (take_fecs g2 (copy s) now_ms Ht eq_refl Hcs) as (out & last & tracker & -> & Hst & Hout).
  { cbn. by eapply fec_packets_bytes. }
  { cbn. intros ->. cbn in Hlen. lia. }
  eexists out, _. split; [done|]. split; [done|]. split; [|split; [done|]].
  - split; try done.
  - split; [by rewrite <- (Forall2_length _ _ _ Hout)|]. intros i r Hr.
    destruct (Forall2_lookup_r _ _ _ _ _ Hout Hr) as (fec & Hfi & [Hsend (_ & _ & Hss & _) Hpay] & _ & _ & Hty & _).
    split; [done|]. split; [rewrite Hss|split; [done|]].
    + destruct Hst as (_ & _ & -> & _). rewrite Hb. apply Hx.
    + exists fec. split; [done|]. by apply Hfec.
Qed.

(** Nothing leaves. *)
Lemma quiet_ok g sent a x s now_ms :
  streaming g sent a -> stream_item x s -> follows sent x ->
  GetFecPackets (slid g s (sent ++ [x])) now_ms = Ok ([], slid g s (sent ++ [x])) /\
  streaming (slid g s (sent ++ [x])) (sent ++ [x]) a.
Proof.
  intros S Hx Hf. pose proof (slid_streaming _ _ _ _ _ S Hx Hf) as S1. split; [|done].
  unfold GetFecPackets. by rewrite (st_taken _ _ _ S1).
Qed.

Lemma stream_push_ok g sent a x s now_ms :
  counts input -> streaming g sent a -> stream_item x s -> follows sent x ->
  exists out g', push g s now_ms = Ok (out, g') /\
    (red_payload_type_ g' = red_payload_type_ g /\ RSfec_payload_type_ g' = RSfec_payload_type_ g) /\
    if due g then
      streaming g' (sent ++ [x]) (a + round input) /\ num_media_packets_insert_ g' = 0 /\
      protects (RSfec_payload_type_ g) (window (L input) (sent ++ [x])) a out
    else
      streaming g' (sent ++ [x]) a /\ num_media_packets_insert_ g' = num_media_packets_insert_ g + 1 /\ out = [].
Proof.
  intros Hc S Hx Hf. assert (Hadd : AddPacketAndGenerateFec input g s = add_rls input g s).
  { unfold AddPacketAndGenerateFec. by destruct Hc as [->|[->| ->]]. }
  unfold push. rewrite Hadd. unfold add_rls. rewrite (slide_ok _ _ _ _ _ S Hx Hf), bind_ok, (proj2 (Nat.ltb_lt _ _)) by apply slid_full.
  change (num_media_packets_insert_ (slid g s (sent ++ [x]))) with (num_media_packets_insert_ g + 1). cbn [andb].
  unfold due. destruct (int_of_u32 (I input) <=? num_media_packets_insert_ g + 1).
  - destruct (emit_ok g sent a x s now_ms S Hx Hf) as (e' & fecs & -> & Hget). rewrite !bind_ok.
    edestruct Hget as (out & g' & -> & Ht & H). by exists out, g'.
  - rewrite bind_ok. destruct (quiet_ok g sent a x s now_ms S Hx Hf) as [-> S1]. by eexists _, _.
Qed.

(** In the other modes: what leaves protects the window. *)
Lemma push_rated_ok g sent a x s now_ms :
  rated input -> streaming g sent a -> stream_item x s -> follows sent x ->
  exists out g', push g s now_ms = Ok (out, g') /\
    (red_payload_type_ g' = red_payload_type_ g /\ RSfec_payload_type_ g' = RSfec_payload_type_ g) /\
    ((streaming g' (sent ++ [x]) (a + round input) /\
      protects (RSfec_payload_type_ g) (window (L input) (sent ++ [x])) a out) \/
     (streaming g' (sent ++ [x]) a /\ out = [])).
Proof.
  intros Hc S Hx Hf. assert (Hadd : AddPacketAndGenerateFec input g s = add_stable_rate input g s).
  { unfold AddPacketAndGenerateFec. by destruct Hc as [->| ->]. }
  unfold push. rewrite Hadd. unfold add_stable_rate. rewrite (slide_ok _ _ _ _ _ S Hx Hf), bind_ok.
  destruct (emit_ok g sent a x s now_ms S Hx Hf) as (e' & fecs & -> & Hget). rewrite !bind_ok.
  destruct (_ <=? _); [|destruct (_ && _)].
  3:{ rewrite bind_ok. destruct (quiet_ok g sent a x s now_ms S Hx Hf) as [-> S1]. eexists _, _. split_and!; [done..|by right]. }
  all: rewrite bind_ok; edestruct Hget as (out & g' & -> & Ht & S' & _ & Hp); exists out, g'; by auto 10.
Qed.

(** ** A stream *)

(** Every packet with the time at which it is sent; what leaves after each. *)
Fixpoint run (ss : list (RtpPacketToSend * Z)) (g : t) : res (list (list RtpPacketToSend) * t) :=
  match ss with
  | [] => Ok ([], g)
  | sn :: ss =>
      let! (out, g) := push g sn.1 sn.2 in
      let! (outs, g) := run ss g in
      Ok (out :: outs, g)
  end.

(** [xs] numbers the packets [ss], behind [sent]. *)
Fixpoint stream (sent : list item) (xs : list item) (ss : list (RtpPacketToSend * Z)) : Prop :=
  match xs, ss with
  | [], [] => True
  | x :: xs, sn :: ss => stream_item x sn.1 /\ follows sent x /\ stream (sent ++ [x]) xs ss
  | _, _ => False
  end.

(** Every [n]-th packet is followed by FEC, [c] packets being counted already. *)
Variable n : nat.
Hypothesis Hn : (1 <= n)%nat.
Hypothesis Hcounts : counts input.
Hypothesis HI : int_of_u32 (I input) = Z.of_nat n.

Lemma due_nth g c : num_media_packets_insert_ g = Z.of_nat c -> (c < n)%nat -> due g = bool_decide (S c = n).
Proof.
  intros E Hc. unfold due. rewrite HI, E. apply eq_bool_prop_intro. rewrite bool_decide_spec.
  destruct (Z.leb_spec (Z.of_nat n) (Z.of_nat c + 1)); cbn; intuition lia.
Qed.

Lemma run_ok ss : forall xs g sent a c,
  streaming g sent a -> stream sent xs ss -> num_media_packets_insert_ g = Z.of_nat c -> (c < n)%nat ->
  exists outs g', run ss g = Ok (outs, g') /\ length outs = length ss /\
    streaming g' (sent ++ xs) (a + round input * ((c + length ss) / n)) /\
    num_media_packets_insert_ g' = Z.of_nat ((c + length ss) mod n) /\
    forall j out, outs !! j = Some out ->
      if decide ((c + S j) mod n = 0)%nat
      then protects (RSfec_payload_type_ g) (window (L input) (sent ++ take (S j) xs)) (a + round input * ((c + j) / n)) out
      else out = [].
Proof.
  induction ss as [|[s now] ss IH]; intros xs g sent a c S Hs Hc Hlt.
  { destruct xs; [|done]. exists [], g. cbn [length]. rewrite app_nil_r, Nat.add_0_r, Nat.div_small, Nat.mod_small, Nat.mul_0_r, Nat.add_0_r by done.
    split_and!; try done. }
  destruct xs as [|x xs]; [done|]. destruct Hs as (Hx & Hf & Hs). cbn [fst] in Hx. cbn [run fst snd].
  destruct (stream_push_ok g sent a x s now Hcounts S Hx Hf) as (out & g1 & -> & [_ Ept] & Hd). rewrite bind_ok.
  rewrite (due_nth g c Hc Hlt) in Hd.
  set (c1 := if decide (Datatypes.S c = n) then 0%nat else Datatypes.S c).
  set (a1 := (a + if decide (Datatypes.S c = n) then round input else 0)%nat).
  assert (Hd' : streaming g1 (sent ++ [x]) a1 /\ num_media_packets_insert_ g1 = Z.of_nat c1 /\
    if decide (Datatypes.S c = n) then protects (RSfec_payload_type_ g) (window (L input) (sent ++ [x])) a out else out = []).
  { unfold a1, c1. destruct (decide (Datatypes.S c = n)) as [E|E].
    - by rewrite bool_decide_true in Hd.
    - rewrite bool_decide_false in Hd by done. rewrite Nat.add_0_r. destruct Hd as (? & -> & ?). split_and!; try done. lia. }
  destruct Hd' as (S1 & Hc1 & Hout).
  assert (Hmod : (Datatypes.S c = n -> forall k, ((c + Datatypes.S k) / n = Datatypes.S (k / n) /\ (c + Datatypes.S k) mod n = k mod n))%nat).
  { intros E k. replace (c + Datatypes.S k)%nat with (k + 1 * n)%nat by lia. rewrite Nat.div_add, Nat.Div0.mod_add by lia. lia. }
  assert (Hstep : forall k, (a + round input * ((c + Datatypes.S k) / n) = a1 + round input * ((c1 + k) / n))%nat /\
    ((c + Datatypes.S k) mod n = (c1 + k) mod n)%nat).
  { intros k. unfold a1, c1. destruct (decide (Datatypes.S c = n)) as [E|E].
    - destruct (Hmod E k) as [-> ->]. cbn [Nat.add]. split; [|done]. rewrite Nat.mul_succ_r. lia.
    - replace (c + Datatypes.S k)%nat with (Datatypes.S c + k)%nat by lia. by rewrite Nat.add_0_r. }
  assert (Hlt1 : (c1 < n)%nat) by (unfold c1; destruct (decide (Datatypes.S c = n)); lia).
  destruct (IH xs g1 (sent ++ [x]) a1 c1 S1 Hs Hc1 Hlt1) as (outs & g' & -> & Hl & S' & Hc' & Hall).
  rewrite bind_ok. exists (out :: outs), g'. rewrite <- (assoc_L (++)) in S'. cbn [app length] in *.
  destruct (Hstep (length ss)) as [-> ->]. split_and!; [done|by rewrite Hl|done|done|].
  intros [|j] out' Hj; cbn [lookup list_lookup] in Hj.
  - injection Hj as <-. cbn [take]. rewrite take_0. destruct (Hstep 0%nat) as [_ ->]. rewrite !Nat.add_0_r, (Nat.div_small c n Hlt), Nat.mul_0_r, Nat.add_0_r.
    unfold c1 in *. destruct (decide (Datatypes.S c = n)); [by rewrite Nat.Div0.mod_0_l|].
    rewrite Nat.mod_small by lia. done.
  - specialize (Hall j out' Hj). destruct (Hstep (Datatypes.S j)) as [_ ->]. destruct (Hstep j) as [-> _].
    cbn [take]. rewrite <- (assoc_L (++)), Ept in Hall. exact Hall.
Qed.
End Run.
