(* ===== verification/RsStreamSession.v ===== *)
(** * RsStreamSession: from [StreamRSfecGenerator] to [RSfecReceiver]

    Media packets and the FEC packets of their windows go to the receiver in RED,
    any of them lost, repeated or out of order. *)

From stdpp Require Import sorting gmap.
From S2P Require Import Prelude.
From S2P Require Import SeqNum.
From S2P Require Import CowBuffer.
From S2P Require Import RtpExtensions.
From S2P Require Import RtpPacketModel.
From S2P Require Import RtpPacketLaws.
From S2P Require Import RtpPacketOps.
From S2P Require Import RtpPacketSession.
From S2P Require Import FecTypes.
From S2P Require Import XorCode.
From S2P Require Import FecDecoder.
From S2P Require Import Transmission.
From S2P Require Import FecReceivers.
From S2P Require Import ReceiverLaws.
From S2P Require Import ReceiverSession.
From S2P Require Import ReceiverGuarantees.
From S2P Require Import UlpfecSender.
From S2P Require Import GeneratorLaws.
From S2P Require Import EndToEnd.
From S2P Require Import Galois.
From S2P Require Import ReedSolMatrix.
From S2P Require Import ReedSolSolve.
From S2P Require Import RsCodec.
From S2P Require Import RsBytes.
From S2P Require Import RsEncoder.
From S2P Require Import RsWindow.
From S2P Require Import RsRecover.
From S2P Require Import RsState.
From S2P Require Import RsLinks.
From S2P Require Import RsInsert.
From S2P Require Import RsBlock.
From S2P Require Import RsDecoder.
From S2P Require Import RsSession.
From S2P Require Import RsReceiver.

From S2P Require Import RsGenerator.
From S2P Require Import RsStream.
From S2P Require Import RsStreamRun.

(** An empty FEC packet is not readable. *)
Lemma empty_unreadable : match Rs.ReadFecHeader (unread 0 0 []) with Ok (Some _) => False | _ => True end.
Proof. vm_compute. exact Logic.I. Qed.

Section Session.
Context {HP : Heap} {G : Galois} {GL : GaloisLaws G}.
Variables (ssrc B0 : Z) (input : StreamRSfecGenerator.Input).
Hypothesis B0_u16 : is_u16 B0.

(** The packet [p] numbers behind the first. *)
Definition orig_of (xs : list item) (p : nat) : Packet :=
  match filter (fun x => x.1 = p) xs with x :: _ => x.2 | [] => [] end.

(** The stream fits into the first 97 numbers of a session. *)
Record session_stream (xs : list item) : Prop := {
  ss_items : Forall (fun x => numbered B0 x /\ (length x.2 <= 1488)%nat /\ (x.1 <= 96)%nat /\ rtp_ssrc x.2 = ssrc) xs;
  ss_sorted : StronglySorted older xs
}.

Lemma orig_of_item xs x : StronglySorted older xs -> x ∈ xs -> orig_of xs x.1 = x.2.
Proof.
  intros Hs Hx. unfold orig_of. destruct (filter _ xs) as [|y ys] eqn:E.
  - assert (x ∈ filter (fun y => y.1 = x.1) xs) as Hf by (by apply list_elem_of_filter). rewrite E in Hf. by apply elem_of_nil in Hf.
  - assert (Hy : y ∈ filter (fun y => y.1 = x.1) xs) by (rewrite E; by left). apply list_elem_of_filter in Hy as [Ey Hy].
    clear E. induction Hs as [|z xs Hs IH Hz]; [by apply elem_of_nil in Hx|]. rewrite Forall_forall in Hz.
    apply elem_of_cons in Hx as [->|Hx], Hy as [->|Hy]; [done| | |by apply IH]; unfold older in Hz.
    + specialize (Hz _ Hy). lia.
    + specialize (Hz _ Hx). lia.
Qed.

Lemma orig_of_some xs p : (0 < length (orig_of xs p))%nat -> exists x, x ∈ xs /\ x.1 = p /\ orig_of xs p = x.2.
Proof.
  unfold orig_of. destruct (filter _ xs) as [|x ys] eqn:E; [cbn; lia|]. intros _. exists x.
  assert (Hx : x ∈ filter (fun x => x.1 = p) xs) by (rewrite E; by left). by apply list_elem_of_filter in Hx as [? ?].
Qed.

Section Stream.
Variable xs : list item.
Hypothesis Hxs : session_stream xs.

Lemma item_media x : x ∈ xs -> media_at ssrc B0 (orig_of xs) x.1 /\ (x.1 <= 96)%nat.
Proof.
  intros Hx. destruct Hxs as [Hi Hs]. rewrite Forall_forall in Hi. destruct (Hi x Hx) as ([[Hb Hl] Hn] & Hlen & H96 & Hss).
  split; [|done]. split; rewrite (orig_of_item xs x Hs Hx); done.
Qed.

Lemma media_item p : media_at ssrc B0 (orig_of xs) p -> exists x, x ∈ xs /\ x.1 = p /\ orig_of xs p = x.2.
Proof. intros [_ Hl _ _]. apply orig_of_some. lia. Qed.

(** The window of a part of the stream is a batch. *)
Lemma window_batch_at L sent x w : (1 <= L)%nat -> sent `sublist_of` xs -> window L sent = x :: w ->
  batch_at ssrc B0 (orig_of xs) x.1 (map snd (x :: w)) (window_offsets (x :: w)) /\
  window_base B0 (x :: w) = number B0 x.1.
Proof.
  intros HL Hsub Ew. destruct Hxs as [Hi Hs].
  assert (Hin : forall y, y ∈ x :: w -> y ∈ xs).
  { intros y Hy. rewrite <- Ew in Hy. eapply elem_of_sublist; [exact Hy|]. etrans; [apply window_sublist|done]. }
  destruct (window_batch B0 L sent HL) as [[Bm Bs Bo Bf Bsp] _].
  - intros ->. done.
  - eapply Forall_sublist; [exact Hsub|]. eapply Forall_impl; [exact Hi|]. by intros ? [? _].
  - by eapply sorted_sublist.
  - rewrite Ew in *. split; [|done]. pose proof (item_media x (Hin x ltac:(by left))) as [_ Hx96].
    assert (Hle : forall y, y ∈ x :: w -> (x.1 <= y.1)%nat).
    { intros y [->|Hy]%elem_of_cons; [lia|].
      assert (Hws : StronglySorted older (x :: w)) by (rewrite <- Ew; eapply sorted_sublist; [apply window_sublist|by eapply sorted_sublist]).
      apply StronglySorted_inv in Hws as [_ Hx]. rewrite Forall_forall in Hx. specialize (Hx y Hy). unfold older in Hx. lia. }
    split; [done|done|done|lia| |].
    + cbn [window_offsets]. rewrite map_map. apply map_ext_in. intros y Hy%list_elem_of_In.
      rewrite <- (orig_of_item xs y Hs (Hin y Hy)). f_equal. specialize (Hle y Hy). lia.
    + cbn [window_offsets]. apply List.Forall_map, Forall_forall. intros y Hy. specialize (Hle y Hy).
      replace (x.1 + (y.1 - x.1))%nat with y.1 by lia. by apply item_media, Hin.
Qed.

(** ** What arrives *)

(** A FEC packet [r] of the generator, numbered within the session. *)
Record fec_numbered_as (r q : RtpPacket.t) : Prop := {
  fn_sendable : sendable q;
  fn_payload : payload_bytes q = payload_bytes r;
  fn_ssrc : RtpPacket.Ssrc q = RtpPacket.Ssrc r;
  fn_session : in_session B0 (RtpPacket.SequenceNumber q)
}.

(** The datagrams of the stream [ss] and the FEC packets [fecs]. *)
Inductive datagram_of (red : Z) (ss : list RtpPacketToSend) (fecs : list RtpPacketToSend) (q : RtpPacket.t) : Prop :=
| media_datagram s : s ∈ ss -> red_form (packet s) q red -> datagram_of red ss fecs q
| fec_datagram r : r ∈ fecs -> fec_numbered_as (packet r) q -> datagram_of red ss fecs q.

Definition sent_in_red (red : Z) (ss fecs : list RtpPacketToSend) (a : Z * RtpPacketReceived) : Prop :=
  exists q, datagram_of red ss fecs q /\ (length (wire q) <= IP_PACKET_SIZE)%nat /\ arrives q a.

(** [r] carries a FEC packet of the window of a part of the stream. *)
Definition window_fec (pt : Z) (r : RtpPacket.t) : Prop :=
  RtpPacket.Ssrc r = ssrc /\ exists fec L sent a, payload_bytes r = pt :: fec /\ (1 <= L)%nat /\ sent `sublist_of` xs /\ sent <> [] /\
    let w := window L sent in fec_packet_of (map snd w) (window_base B0 w) (window_offsets w) (gf_pow 2 a) fec.

Lemma datagram_feeds red pt ss fecs a :
  0 <= red < 128 -> 0 <= pt < 128 ->
  Forall (fun s => sendable (packet s) /\ RtpPacket.Ssrc (packet s) = ssrc /\ RtpPacket.PayloadType (packet s) <> pt /\
                   exists x, x ∈ xs /\ x.2 = wire (packet s)) ss ->
  Forall (fun r => window_fec pt (packet r)) fecs ->
  sent_in_red red ss fecs a ->
  exists rp, feeds ssrc pt a rp /\ arrival ssrc B0 (orig_of xs) rp.
Proof.
  intros Hred Hpt Hss Hfecs (q & [s Hs Hform|r Hr Hnum] & Hsz & Harr).
  - rewrite Forall_forall in Hss. destruct (Hss s Hs) as (Hsend & Hssrc & Hty & x & Hx & Eb).
    exists (as_media (wire (packet s))). split; [by eapply media_arrives|]. left. exists x.1.
    destruct (item_media x Hx) as [Hm H96]. split; cbn [as_media rp_is_fec rp_seq_num rp_pkt]; [done|lia| | |done].
    + rewrite <- Eb. destruct Hxs as [Hi _]. rewrite Forall_forall in Hi. by destruct (Hi x Hx) as ([_ ?] & _).
    + rewrite <- Eb. symmetry. apply orig_of_item; [apply Hxs|done].
  - rewrite Forall_forall in Hfecs. destruct (Hfecs r Hr) as (Hrs & fec & L & sent & a0 & Hpay & HL & Hsub & Hne & Hcode).
    destruct Hnum as [Hsend Epay Ess Hses]. rewrite Hpay in Epay. rewrite Hrs in Ess.
    destruct (window L sent) as [|x w] eqn:Ew.
    { exfalso. destruct (last sent) as [z|] eqn:Ez; [|by apply last_None in Ez]. apply last_Some in Ez as [sent' ->].
      rewrite window_snoc in Ew by done. by destruct (filter _ _). }
    destruct (window_batch_at L sent x w HL Hsub Ew) as [B Eb]. cbv zeta in Hcode. rewrite Eb in Hcode.
    exists (as_fec ssrc (RtpPacket.SequenceNumber q) fec). split.
    + apply fec_arrives; try done. intros ->. destruct Hcode as [_ Hcode].
      destruct (Hcode 0 0) as (mask & d & E & _). pose proof empty_unreadable as Hu. by rewrite E in Hu.
    + right. eapply (encoded_arrival ssrc B0 (orig_of xs) x.1 _ _ B); [exact Hcode|apply pow_two_byte|done..].
Qed.

End Stream.
End Session.
