(* ===== verification/RsBlockGenerator.v ===== *)
(** * RsBlockGenerator: the blocks of [RSfecGenerator]

    What happens to the packets collected when protection is due: blocks that the
    encoder takes leave as FEC packets in RED, others leave nothing. *)

From stdpp Require Import sorting.
From S2P Require Import Prelude.
From S2P Require Import SeqNum.
From S2P Require Import CowBuffer.
From S2P Require Import RtpPacketModel.
From S2P Require Import RtpPacketLaws.
From S2P Require Import RtpPacketOps.
From S2P Require Import RtpPacketSession.
From S2P Require Import FecTypes.
From S2P Require Import FecEncoder.
From S2P Require Import EncodeFecSpec.
From S2P Require Import XorCode.
From S2P Require Import RateModel.
From S2P Require Import UlpfecSender.
From S2P Require Import GeneratorLaws.
From S2P Require Import Galois.
From S2P Require Import ReedSolMatrix.
From S2P Require Import ReedSolSolve.
From S2P Require Import RsCodec.
From S2P Require Import EncoderCorrect.
From S2P Require Import RsBytes.
From S2P Require Import RsEncoder.
From S2P Require Import RsWindow.
From S2P Require Import RsGenerator.
From S2P Require Import RsStream.
From S2P Require Import RsStreamRun.
Import RSfecGenerator.

Section Block.
Context {HP : Heap} {G : Galois} {GL : GaloisLaws G}.
Variables (base : Z).

(** The packets of a block, with their numbers; less than half the circle. *)
Record block_items (xs : list item) : Prop := {
  bi_nonempty : xs <> [];
  bi_items : Forall (fun x => numbered base x /\ (length x.2 <= 1488)%nat) xs;
  bi_sorted : StronglySorted older xs;
  bi_circle : forall x y, x ∈ xs -> y ∈ xs -> Z.of_nat (y.1 - x.1) < 32768
}.

(** The distance from the first to the last. *)
Definition spread (xs : list item) : nat :=
  match xs, last xs with x :: _, Some y => (y.1 - x.1)%nat | _, _ => 0%nat end.

(** ** Blocks the encoder refuses *)

Lemma mask_loop_wide x0 l : forall x mask,
  Forall (numbered base) (x :: l) -> StronglySorted older (x :: l) ->
  Forall (fun y => Z.of_nat (y.1 - x0) < 32768) (x :: l) ->
  (x0 <= x.1 < x0 + 32)%nat -> length mask = 32%nat -> (exists y, y ∈ l /\ x0 + 32 <= y.1)%nat ->
  Rs.packet_mask_loop (map snd (x :: l)) mask (x.1 - x0) (number base x.1) = Ok None.
Proof.
  induction l as [|z l IH]; intros x mask Hn Hs Hd Hx Hm (y & Hy & Hfar); [by apply elem_of_nil in Hy|].
  cbn [map Rs.packet_mask_loop]. rewrite buf_set_ok by lia. rewrite bind_ok.
  apply Forall_cons_1 in Hn as [Hnx Hn], Hd as [Hdx Hd]. apply StronglySorted_inv in Hs as [Hs Hxl].
  pose proof (Forall_cons_1 _ _ _ Hn) as [Hnz _]. pose proof (Forall_cons_1 _ _ _ Hd) as [Hdz _].
  pose proof (Forall_cons_1 _ _ _ Hxl) as [Hxz _]. unfold older in Hxz.
  rewrite (numbered_parse base z Hnz), bind_ok, number_sub, Nat2Z.id by lia.
  replace (x.1 - x0 + (z.1 - x.1))%nat with (z.1 - x0)%nat by lia.
  destruct (Nat.leb_spec 32 (z.1 - x0)) as [|Hnear]; [done|].
  apply (IH z (<[(x.1 - x0)%nat:=_]> mask)); [done|done|done|lia|by rewrite length_insert|].
  exists y. split; [|done]. apply elem_of_cons in Hy as [->|Hy]; [lia|done].
Qed.

Lemma spread_wide xs x l : xs = x :: l -> (32 <= spread xs)%nat -> exists y, y ∈ l /\ (x.1 + 32 <= y.1)%nat.
Proof.
  intros -> Hs. unfold spread in Hs. destruct (last (x :: l)) as [y|] eqn:E; [|lia]. exists y. split; [|lia].
  apply last_Some_elem_of in E. apply elem_of_cons in E as [->|E]; [lia|done].
Qed.

Lemma block_sized xs : block_items xs ->
  existsb (fun p => length p <? kRtpHeaderSize)%nat (map snd xs) = false.
Proof.
  intros [_ Hi _ _]. apply not_true_iff_false. rewrite existsb_exists. intros (p & Hp%list_elem_of_In & Hlt%Nat.ltb_lt).
  apply list_elem_of_fmap in Hp as (x & -> & Hx). rewrite Forall_forall in Hi. destruct (Hi x Hx) as ([[_ Hl] _] & _).
  unfold kRtpHeaderSize in Hlt. lia.
Qed.

Lemma EncodeRSFec_refuses params e xs pf :
  block_items xs ->
  ((length xs <= 32)%nat -> (Rs.num_fec_packets_of params (length xs) pf <= length (Rs.generated_fec_packets_ e))%nat) ->
  (32 < length xs)%nat \/ (32 <= spread xs)%nat ->
  exists e' ret, Rs.EncodeRSFec params e (map snd xs) pf = Ok (e', ret, []) /\ Rs.curBaseNum e' = Rs.curBaseNum e /\
    length (Rs.generated_fec_packets_ e') = length (Rs.generated_fec_packets_ e).
Proof.
  intros B Hk Hwide. unfold Rs.EncodeRSFec. rewrite length_map. unfold Rs.kMaxMediaPackets.
  destruct (Nat.ltb_spec 32 (length xs)) as [|Hn]; [by exists e, (-1)|]. destruct Hwide as [?|Hwide]; [lia|].
  rewrite (block_sized xs B). destruct (decide _) as [|Hk0]; [by exists e, 0|].
  destruct (prepare_packets_spec (Rs.generated_fec_packets_ e) _ (Hk Hn)) as (packets & -> & Hlp & _). rewrite bind_ok.
  destruct B as [Hne Hi Hs Hc]. destruct xs as [|x l]; [done|]. cbn [map front]. rewrite bind_ok.
  assert (Hnum : Forall (numbered base) (x :: l)) by (eapply Forall_impl; [exact Hi|]; by intros ? [? _]).
  rewrite (numbered_parse base x) by (by apply Forall_cons_1 in Hnum as [? _]). rewrite bind_ok.
  pose proof (mask_loop_wide x.1 l x (replicate 32 0) Hnum Hs) as Hloop. rewrite Nat.sub_diag in Hloop. cbn [map] in Hloop.
  rewrite Hloop; [|by apply Forall_forall; intros y Hy; apply Hc; [left|]|lia|by rewrite length_replicate|by eapply spread_wide].
  rewrite bind_ok. eexists _, (-1). by split_and!.
Qed.

(** ** Blocks it takes *)

Lemma spread_le xs x : block_items xs -> head xs = Some x -> Forall (fun y => x.1 <= y.1 <= x.1 + spread xs)%nat xs.
Proof.
  intros [Hne _ Hs _] Hx. destruct xs as [|x' l]; [done|]. injection Hx as ->. unfold spread.
  destruct (last (x :: l)) as [z|] eqn:E; [|by apply last_None in E].
  apply Forall_forall. intros y Hy. pose proof E as Hz. apply last_Some in E as [l' E].
  assert (Hyz : (y.1 <= z.1)%nat).
  { rewrite E in Hs, Hy. apply StronglySorted_app in Hs as (Hlt & _ & _).
    apply elem_of_app in Hy as [Hy|Hy%list_elem_of_singleton]; [|by subst].
    specialize (Hlt y z Hy ltac:(by left)). unfold older in Hlt. lia. }
  apply StronglySorted_inv in Hs as [_ Hxl]. apply elem_of_cons in Hy as [->|Hy]; [lia|].
  rewrite Forall_forall in Hxl. specialize (Hxl y Hy). unfold older in Hxl. lia.
Qed.

Lemma block_batch xs : block_items xs -> (spread xs < 32)%nat ->
  rs_batch (map snd xs) (window_base base xs) (window_offsets xs) /\ is_u16 (window_base base xs).
Proof.
  intros B Hsp. assert (Hw : window (length xs) xs = xs).
  { unfold window. destruct (last xs) as [z|] eqn:E; [|apply last_None in E; by subst].
    rewrite Nat.sub_diag, drop_0. apply filter_keeps. destruct xs as [|x l]; [done|].
    eapply Forall_impl; [exact (spread_le _ x B eq_refl)|]. cbv beta. intros y Hy.
    pose proof (spread_le _ x B eq_refl) as Hle. rewrite Forall_forall in Hle. specialize (Hle z (last_Some_elem_of _ _ E)).
    unfold near. lia. }
  destruct B as [Hne Hi Hs Hc]. pose proof (window_batch base (length xs) xs) as H. cbv zeta in H. rewrite Hw in H. apply H; try done.
  - destruct xs; [done|cbn; lia].
  - eapply Forall_impl; [exact Hi|]. by intros ? [? _].
Qed.
(** ** The generator *)

Definition push_block (params : Rs.Params) (g : t) (s : RtpPacketToSend) (now_ms : Z) : res (list RtpPacketToSend * t) :=
  let! g := AddPacketAndGenerateFec params g s in GetFecPackets g now_ms.

(** The generator with the packet stored, before it decides. *)
Definition collected (g : t) (s : RtpPacketToSend) : t := add_packet (apply_pending g) s.

(** [out] carries the FEC packets of the block [xs]. *)
Definition block_protected (fec_payload_type : Z) (xs : list item) (a k : nat) (out : list RtpPacketToSend) : Prop :=
  length out = k /\ forall i r, out !! i = Some r ->
    sendable (packet r) /\ packet_type r = Some kForwardErrorCorrection /\
    exists fec, payload_bytes (packet r) = fec_payload_type :: fec /\
      fec_packet_of (map snd xs) (window_base base xs) (window_offsets xs) (gf_pow 2 (a + i)) fec.

(** Protection is due with the packet [s]; the block is [xs]. *)
Record block_due (params : Rs.Params) (g : t) (s : RtpPacketToSend) (xs : list item) (a : nat) : Prop := {
  bd_types : 0 <= red_payload_type_ g < 128 /\ 0 <= RSfec_payload_type_ g < 128;
  bd_encoder : length (Rs.generated_fec_packets_ (fec_ g)) = 32%nat /\ Rs.curBaseNum (fec_ g) = gf_pow 2 a;
  bd_taken : generated_fec_packets_ g = [];
  bd_media : media_packets_ (collected g s) = map snd xs;
  bd_items : block_items xs;
  bd_last : exists last, last_media_packet_ (collected g s) = Some last /\ sendable (packet last);
  bd_due : enough_media (collected g s) (RtpPacket.Marker (packet s)) = Ok true;
  bd_rate : 1 <= fec_rate (CurrentParams (collected g s)) <= 255;
  bd_mode : Rs.type params = Rs.RSFECBlock
}.

Lemma collected_same g s : red_payload_type_ (collected g s) = red_payload_type_ g /\
  RSfec_payload_type_ (collected g s) = RSfec_payload_type_ g /\ fec_ (collected g s) = fec_ g /\
  generated_fec_packets_ (collected g s) = generated_fec_packets_ g.
Proof. unfold collected, add_packet, apply_pending. by destruct (pending_params_ g). Qed.

(** As many FEC packets as the rate asks for. *)
Definition block_fecs (g : t) (s : RtpPacketToSend) (xs : list item) : nat :=
  Z.to_nat (NumFecPackets (Z.of_nat (length xs)) (fec_rate (CurrentParams (collected g s)))).

Lemma block_fecs_bounds params g s xs a : block_due params g s xs a -> (0 < block_fecs g s xs <= length xs)%nat /\
  Rs.num_fec_packets_of params (length xs) (u8 (fec_rate (CurrentParams (collected g s)))) = block_fecs g s xs.
Proof.
  intros D. pose proof (bd_rate _ _ _ _ _ D) as Hr. unfold Rs.num_fec_packets_of. rewrite (bd_mode _ _ _ _ _ D).
  rewrite uw_small by (unfold in_uw; lia). split; [|done]. unfold block_fecs.
  assert (Hl : (1 <= length xs)%nat) by (pose proof (bi_nonempty _ (bd_items _ _ _ _ _ D)); destruct xs; [done|cbn; lia]).
  destruct (NumFecPackets_bounds (Z.of_nat (length xs)) (fec_rate (CurrentParams (collected g s)))) as [Hb Hz]; lia.
Qed.

Lemma take_block g last fecs now_ms :
  0 <= red_payload_type_ g < 128 /\ 0 <= RSfec_payload_type_ g < 128 ->
  last_media_packet_ g = Some last -> sendable (packet last) -> generated_fec_packets_ g = fecs -> fecs <> [] -> Forall bytes fecs ->
  exists out g' last', GetFecPackets g now_ms = Ok (out, g') /\ media_packets_ g' = [] /\ generated_fec_packets_ g' = [] /\
    num_protected_frames_ g' = 0 /\ fec_ g' = fec_ g /\
    Forall2 (in_red (red_payload_type_ g) (RSfec_payload_type_ g) last') fecs out.
Proof.
  intros [Hr Hf] Hl Hs Hg Hne Hb. unfold GetFecPackets. rewrite Hg. destruct fecs as [|fec fecs]; [done|]. rewrite Hl.
  destruct (SetPayloadSize_sendable (packet last) 0 Hs) as (p & -> & Hp & _). rewrite bind_ok.
  destruct (red_fec_packets_ok (red_payload_type_ g) (RSfec_payload_type_ g) (with_packet last p) (fec :: fecs) Hr Hf Hp Hb)
    as (out & -> & Hout). rewrite bind_ok. eexists out, _, _. split; [done|]. by split_and!.
Qed.

Lemma push_block_ok params g s now_ms xs a :
  block_due params g s xs a ->
  exists out g', push_block params g s now_ms = Ok (out, g') /\ media_packets_ g' = [] /\ generated_fec_packets_ g' = [] /\
    num_protected_frames_ g' = 0 /\ length (Rs.generated_fec_packets_ (fec_ g')) = 32%nat /\
    if decide (length xs <= 32 /\ spread xs < 32)%nat
    then block_protected (RSfec_payload_type_ g) xs a (block_fecs g s xs) out /\
         Rs.curBaseNum (fec_ g') = gf_pow 2 (a + block_fecs g s xs)
    else out = [] /\ Rs.curBaseNum (fec_ g') = gf_pow 2 a.
Proof.
  intros D. destruct (block_fecs_bounds _ _ _ _ _ D) as [Hk Ek]. destruct D as [Ht [Hlen Hcur] Hgen Hmed B (last & Hl & Hsl) Hdue Hr Hm].
  destruct (collected_same g s) as (Er & Ep & Ef & Eg). unfold push_block, AddPacketAndGenerateFec. fold (collected g s).
  rewrite Hdue, bind_ok, Ef, Hmed, Eg, Hgen. cbn [negb app].
  destruct (decide _) as [[Hn Hsp]|Hwide].
  - destruct (block_batch xs B Hsp) as [Rb Hu].
    destruct (EncodeRSFec_ok _ _ _ Rb Hu) with (params := params) (e := fec_ g)
      (protection_factor := u8 (fec_rate (CurrentParams (collected g s)))) (a := a) as (e' & fecs & -> & Hc' & Hl' & Hf & Hall);
      rewrite ?length_map, ?Ek; try done; try lia.
    { apply max_payload_small, List.Forall_map. eapply Forall_impl; [apply B|]. by intros ? [_ ?]. }
    rewrite length_map, Ek in *. rewrite !bind_ok. assert (Hne : fecs <> []) by (intros ->; cbn in Hf; lia).
    destruct fecs as [|fec fecs]; [done|]. cbn [app].
    match goal with |- context [GetFecPackets ?g1 _] => destruct (take_block g1 last (fec :: fecs) now_ms) as (out & g' & last' & -> & H1 & H2 & H3 & H4 & Hout) end;
      cbn [red_payload_type_ RSfec_payload_type_ last_media_packet_ generated_fec_packets_ fec_]; rewrite ?Er, ?Ep; try done.
    { apply Forall_lookup. intros i f Hi. pose proof (lookup_lt_Some _ _ _ Hi) as Hlt. rewrite Hf in Hlt.
      specialize (Hall i Hlt). rewrite (list_lookup_total_correct _ _ _ Hi) in Hall. apply Hall. }
    exists out, g'. rewrite H4. cbn [red_payload_type_ RSfec_payload_type_ last_media_packet_ generated_fec_packets_ fec_]. rewrite Hl'. split_and!; [done..| |done]. split; [by rewrite <- (Forall2_length _ _ _ Hout)|].
    intros i r Hi. destruct (Forall2_lookup_r _ _ _ _ _ Hout Hi) as (f & Hfi & [Hsend _ Hpay] & _ & _ & Hty & _).
    split_and!; [done|done|]. exists f. cbn [red_payload_type_ RSfec_payload_type_ last_media_packet_ generated_fec_packets_ fec_] in Hpay. rewrite Ep in Hpay. split; [done|].
    pose proof (lookup_lt_Some _ _ _ Hfi) as Hlt. rewrite Hf in Hlt. specialize (Hall i Hlt).
    by rewrite (list_lookup_total_correct _ _ _ Hfi) in Hall.
  - destruct (EncodeRSFec_refuses params (fec_ g) xs (u8 (fec_rate (CurrentParams (collected g s)))) B) as (e' & ret & -> & Hc' & Hl').
    { rewrite Ek, Hlen. lia. }
    { lia. }
    rewrite !bind_ok. cbn [GetFecPackets ResetState generated_fec_packets_].
    eexists [], _. split_and!; try done; cbn [fec_ ResetState]; congruence.
Qed.
End Block.
