(* ===== verification/RsStreamGuarantees.v ===== *)
(** * RsStreamGuarantees: the Reed-Solomon senders and receiver

    What [RSfecReceiver] delivers, what [StreamRSfecGenerator] sends, and the two
    together. *)

From stdpp Require Import sorting gmap.
From Stdlib Require Import SpecFloat.
From S2P Require Import Prelude.
From S2P Require Import SeqNum.
From S2P Require Import CowBuffer.
From S2P Require Import RtpExtensions.
From S2P Require Import RtpPacketModel.
From S2P Require Import RtpPacketLaws.
From S2P Require Import RtpPacketOps.
From S2P Require Import RtpPacketSession.
From S2P Require Import FecTypes.
From S2P Require Import XorCode.
From S2P Require Import FecDecoder.
From S2P Require Import WindowSort.
From S2P Require Import PeelingFresh.
From S2P Require Import Transmission.
From S2P Require Import FecReceivers.
From S2P Require Import ReceiverLaws.
From S2P Require Import ReceiverSession.
From S2P Require Import ReceiverGuarantees.
From S2P Require Import UlpfecSender.
From S2P Require Import GeneratorLaws.
From S2P Require Import EndToEnd.
From S2P Require Import Galois.
From S2P Require Import ReedSolMatrix.
From S2P Require Import ReedSolSolve.
From S2P Require Import ReedSolGuarantees.
From S2P Require Import RsCodec.
From S2P Require Import RsBytes.
From S2P Require Import RsEncoder.
From S2P Require Import RsWindow.
From S2P Require Import RsRecover.
From S2P Require Import RsState.
From S2P Require Import RsLinks.
From S2P Require Import RsInsert.
From S2P Require Import RsBlock.
From S2P Require Import RsDecoder.
From S2P Require Import RsSession.
From S2P Require Import RsGuarantees.
From S2P Require Import RsReceiver.
From S2P Require Import RsGenerator.
From S2P Require Import RsStream.
From S2P Require Import RsStreamRun.
From S2P Require Import RsStreamSession.
From S2P Require Import RsBlockGenerator.

(** ** The receiver *)


(** C38. [RSfecReceiver::ProcessReceivedFec] loses packets.  It returns inside its
    loop when nothing has been recovered so far: with several packets waiting, of
    which the first recovers nothing, only the first is delivered and decoded; the
    others are taken off the queue and are gone, whatever they are. *)
Theorem rs_receiver_drops_queue {HP : Heap} {G : Galois} r rc rest rp out fec recs :
  RSfecReceiver.received_packets_ r = rc :: rest ->
  UlpfecReceiver.prepare_received rc = Ok (Some (rp, out)) -> rp_is_recovered rp = false ->
  RsDec.DecodeRSFec (RSfecReceiver.fec_ r) rp (RSfecReceiver.recovered_packets_ r) = Ok (fec, recs, 0%nat) ->
  RSfecReceiver.ProcessReceivedFec r =
    Ok (RSfecReceiver.mk (RSfecReceiver.ssrc_ r) (RSfecReceiver.rsfec_payload_type_ r) fec [] recs
          (RSfecReceiver.packet_counter_ r), out).
Proof.
  intros Ew Ep Er Ed. unfold RSfecReceiver.ProcessReceivedFec. rewrite Ew. cbn [RSfecReceiver.process_received].
  rewrite Ep, bind_ok. unfold RSfecReceiver.decode_received. rewrite Er.
  cbn [RSfecReceiver.pg_fec RSfecReceiver.pg_recovered]. by rewrite Ed, !bind_ok.
Qed.

(** ** The sender *)

Section Sender.
Context {HP : Heap} {G : Galois} {GL : GaloisLaws G}.
Variables (ssrc B0 : Z) (input : StreamRSfecGenerator.Input) (n : nat).

(** Modes that count packets, a window of at least one packet, at most 32 FEC
    packets per round, and a round every [n] packets. *)
Record stream_input : Prop := {
  in_counts : counts input;
  in_L : (1 <= StreamRSfecGenerator.L input)%nat;
  in_round : (0 < round input <= 32)%nat;
  in_n : (1 <= n)%nat;
  in_I : int_of_u32 (StreamRSfecGenerator.I input) = Z.of_nat n
}.

Lemma new_streaming c left_rate red pt :
  0 <= red < 128 -> 0 <= pt < 128 ->
  streaming B0 input (StreamRSfecGenerator.new c left_rate red pt Rs.new_encoder) [] 0.
Proof. intros Hr Hp. split; try done; constructor. Qed.
End Sender.


(** C11. The blocks of [RSfecGenerator].  When a packet completes a block (up to
    40 packets are collected), the generator gives up what it has collected, never
    faults, and starts empty.  A block of at most 32 packets that spans at most
    32 sequence numbers leaves as the number of FEC packets its rate asks for, in RED, each
    the Reed-Solomon code of the block for the next power of the base number; a
    block of 33 to 40 packets, or a wider one, is refused by the encoder and leaves
    no protection at all. *)
Theorem rs_generator_block {HP : Heap} {G : Galois} {GL : GaloisLaws G} base params g s now_ms xs a :
  block_due base params g s xs a ->
  exists out g', push_block params g s now_ms = Ok (out, g') /\
    RSfecGenerator.media_packets_ g' = [] /\ RSfecGenerator.generated_fec_packets_ g' = [] /\
    RSfecGenerator.num_protected_frames_ g' = 0 /\
    if decide (length xs <= 32 /\ spread xs < 32)%nat
    then block_protected base (RSfecGenerator.RSfec_payload_type_ g) xs a (block_fecs g s xs) out /\
         Rs.curBaseNum (RSfecGenerator.fec_ g') = gf_pow 2 (a + block_fecs g s xs)
    else out = [] /\ Rs.curBaseNum (RSfecGenerator.fec_ g') = gf_pow 2 a.
Proof.
  intros D. destruct (push_block_ok base params g s now_ms xs a D) as (out & g' & E & H1 & H2 & H3 & _ & H4).
  exists out, g'. by split_and!.
Qed.

(** ** Sender and receiver *)

Lemma stream_session ssrc B0 xs : forall sent ss,
  session_stream ssrc B0 sent -> stream ssrc B0 sent xs ss -> Forall (fun x => x.1 <= 96)%nat xs ->
  session_stream ssrc B0 (sent ++ xs) /\
  Forall (fun sn => sendable (packet sn.1) /\ RtpPacket.Ssrc (packet sn.1) = ssrc /\
                    exists x, x ∈ xs /\ x.2 = wire (packet sn.1)) ss /\
  Forall (fun x => exists sn, sn ∈ ss /\ x.2 = wire (packet sn.1)) xs.
Proof.
  induction xs as [|x xs IH]; intros sent [|sn ss] S Hs H96; try done.
  { rewrite app_nil_r. done. }
  destruct Hs as (Hx & Hf & Hs). apply Forall_cons_1 in H96 as [Hx96 H96]. destruct S as [Hi Hso].
  destruct Hx as [Hsend Hss Hb Hn Hlen].
  assert (Hrs : rtp_ssrc x.2 = ssrc) by (rewrite Hb, <- (reads_ssrc _ _ (proj2 (proj1 Hsend))); done).
  destruct (IH (sent ++ [x]) ss) as (S' & H1 & H2); [|done|done|].
  - split; [|by apply follows_sorted]. apply Forall_app. split; [done|]. constructor; [done|constructor].
  - rewrite <- (assoc_L (++)) in S'. split; [done|]. split.
    + constructor; [split_and!; [done|done|]; exists x; split; [by left|done]|].
      eapply Forall_impl; [exact H1|]. intros s (? & ? & y & ? & ?). split_and!; [done|done|]. exists y. split; [by right|done].
    + constructor; [exists sn; split; [by left|done]|]. eapply Forall_impl; [exact H2|].
      intros y (s & ? & ?). exists s. split; [by right|done].
Qed.


(** ** Witnesses *)

Definition no_extensions : RtpHeaderExtensionMap.t := RtpHeaderExtensionMap.new false.

(** Packet [p] and FEC packets in RED: RED payload type 100, FEC payload type 101. *)
Definition tiny_red (p : nat) : list Z :=
  [128; 100; number 65534 p / 256; number 65534 p mod 256; 0; 0; 0; Z.of_nat p + 1; 0; 0; 0; 1; 96; Z.of_nat p + 1].
Definition fec_red (p : nat) (fec : Packet) : list Z :=
  [128; 100; number 65534 p / 256; number 65534 p mod 256; 0; 0; 0; 0; 0; 0; 0; 1; 101] ++ fec.

(** Packet 1 and two FEC packets of packets 0, 1 and 3. *)
Definition tiny_session : list ReceivedPacket := [media_in 1; fec_in tiny_sent 4 0; fec_in tiny_sent 5 1].
Definition tiny_arrivals : list (Z * RtpPacketReceived) :=
  map (fun d => (0, datagram (H := zero_heap) no_extensions d))
    [tiny_red 1; fec_red 4 (tiny_sent !!! 0%nat); fec_red 5 (tiny_sent !!! 1%nat)].

Lemma tiny_arrivals_ok : Forall (fun arrival => arrival_ok arrival.2) tiny_arrivals.
Proof.
  repeat (apply Forall_cons_2; [apply datagram_arrival; [apply RtpExtensions.new_ok|compute_bytes]|]). done.
Qed.

Lemma tiny_received : received_of 1 101 tiny_arrivals = map (fun rp => (rp, no_extensions)) tiny_session.
Proof. vm_compute. reflexivity. Qed.

Lemma tiny_prepared rp : rp ∈ tiny_session ->
  match UlpfecReceiver.prepare_received (H := zero_heap) (rp, no_extensions) with
  | Ok (Some (rp', _)) => rp' = rp
  | _ => False
  end.
Proof.
  unfold tiny_session. rewrite !elem_of_cons. intros [->|[->|[->|[]%elem_of_nil]]]; vm_compute; reflexivity.
Qed.

Lemma tiny_input : decoder_input (received_of 1 101 tiny_arrivals) tiny_session.
Proof.
  apply (decoder_input_compute (H := zero_heap) _ tiny_session); [apply received_of_ok, tiny_arrivals_ok|].
  rewrite tiny_received. pose proof tiny_prepared as Hp. revert Hp. generalize tiny_session.
  induction l as [|rp l IH]; intros Hp; cbn [map]; [constructor|]. constructor.
  - specialize (Hp rp ltac:(left)). destruct (UlpfecReceiver.prepare_received _) as [[[rp' out]|]|]; [|done..].
    subst rp'. by exists out.
  - apply IH. intros rp' Hin. apply Hp. by right.
Qed.

Definition parses (d : Packet) : bool :=
  match RtpPacket.ParseBuffer (RtpPacket.mk false 0 0 0 0 0 0 0 no_extensions [] 0 (Cow.mk None 0 0 true)) d with
  | Ok (b, _) => b
  | Fault _ => false
  end.

Lemma tiny_reads p : (p < 128)%nat -> media_at 1 65534 tiny_at p -> exists h, reads (tiny_at p) h.
Proof.
  intros Hp Hm.
  destruct (ParseBuffer_spec (RtpPacket.mk false 0 0 0 0 0 0 0 no_extensions [] 0 (Cow.mk None 0 0 true)) (tiny_at p) (media_bytes _ _ _ _ Hm))
    as (b & h & E & _ & Ht & _).
  exists h. apply Ht.
  assert (Hall : forallb (fun p => parses (tiny_at p)) (seq 0 128) = true) by (vm_compute; reflexivity).
  rewrite forallb_forall in Hall. specialize (Hall p ltac:(apply in_seq; lia)). unfold parses in Hall. by rewrite E in Hall.
Qed.


(** Packets 0 and 1 wait; packet 1 is gone. *)
Definition two_waiting : RSfecReceiver.t :=
  RSfecReceiver.mk 1 101 (RsDec.CreateRSFec 1) [(media_in 0, no_extensions); (media_in 1, no_extensions)] [] empty_counter.

Lemma rs_receiver_drops_queue_witness :
  exists r' out, RSfecReceiver.ProcessReceivedFec (HP := zero_heap) (G := gf256) two_waiting = Ok (r', out) /\
    map (fun o => wire (rtp_packet o)) out = [tiny_at 0] /\ RSfecReceiver.received_packets_ r' = [] /\
    known (RSfecReceiver.recovered_packets_ r') = [number 65534 0].
Proof.
  destruct (UlpfecReceiver.prepare_received (H := zero_heap) (media_in 0, no_extensions)) as [[[rp out]|]|] eqn:Ep;
    [|exfalso; vm_compute in Ep; discriminate..].
  assert (Hp : rp = media_in 0 /\ map (fun o => wire (rtp_packet o)) out = [tiny_at 0])
    by (vm_compute in Ep; injection Ep as <- <-; split; reflexivity). destruct Hp as [-> Hout].
  destruct (RsDec.DecodeRSFec (HP := zero_heap) (G := gf256) (RsDec.CreateRSFec 1) (media_in 0) []) as [[[fec recs] n]|] eqn:Ed;
    [|exfalso; vm_compute in Ed; discriminate].
  assert (Hn : n = 0%nat /\ known recs = [number 65534 0]) by (vm_compute in Ed; injection Ed as <- <- <-; split; reflexivity).
  destruct Hn as [-> Hk].
  eexists _, out. split; [exact (rs_receiver_drops_queue (HP := zero_heap) (G := gf256) two_waiting _ _ _ _ fec recs eq_refl Ep eq_refl Ed)|].
  split; [exact Hout|]. split; [reflexivity|exact Hk].
Defined.

(** Packets 0, 1 and 3 as a stream; a window of two packets, one FEC packet
    after every second packet. *)
Definition tiny_input_params : StreamRSfecGenerator.Input :=
  StreamRSfecGenerator.mkInput (Rs.mkParams Rs.RLSRSFEC 0 1) (f64_of_Z 0) 2 2.
Definition tiny_items : list item := map (fun p => (p, tiny_at p)) [0; 1; 3]%nat.
Definition tiny_to_send (p : nat) : RtpPacketToSend :=
  mkToSend (rtp_packet (datagram (H := zero_heap) no_extensions (tiny_at p))) (Micros 0) (Some kVideo) true false true false.
Definition tiny_packets : list (RtpPacketToSend * Z) := map (fun p => (tiny_to_send p, 0)) [0; 1; 3]%nat.
Definition tiny_generator : StreamRSfecGenerator.t :=
  StreamRSfecGenerator.new (Z.of_nat 0) (f64_of_Z 0) 100 101 Rs.new_encoder.

Lemma tiny_stream_input : stream_input tiny_input_params 2.
Proof. split; [by left|cbn; lia|cbn; lia|lia|reflexivity]. Qed.

Lemma tiny_item p : (p < 4)%nat -> stream_item 1 65534 (p, tiny_at p) (tiny_to_send p).
Proof.
  intros Hp. destruct (tiny_media p Hp) as [Hb Hl Hs _].
  assert (Hok : arrival_ok (datagram (H := zero_heap) no_extensions (tiny_at p))) by (apply datagram_arrival; [apply RtpExtensions.new_ok|exact Hb]).
  split; cbn [fst snd].
  - split; [apply Hok|]. do 4 (destruct p as [|p]; [by vm_compute|]). lia.
  - do 4 (destruct p as [|p]; [by vm_compute|]). lia.
  - do 4 (destruct p as [|p]; [by vm_compute|]). lia.
  - split; [split; [done|cbn [snd]; lia]|done].
  - lia.
Qed.

Lemma tiny_stream : stream 1 65534 [] tiny_items tiny_packets.
Proof.
  do 3 (split; [apply tiny_item; lia|split; [vm_compute; lia || done|]]). done.
Qed.


(** Packet 1 is lost; packet 0 and the FEC packet arrive. *)
Definition tiny_fec_out : Packet := Eval vm_compute in
  match run (HP := zero_heap) (G := gf256) tiny_input_params tiny_packets tiny_generator with
  | Ok ([_; [r]; _], _) => drop 13 (wire (packet r))
  | _ => []
  end.

Definition tiny_stream_arrivals : list (Z * RtpPacketReceived) :=
  map (fun d => (0, datagram (H := zero_heap) no_extensions d)) [tiny_red 0; fec_red 4 tiny_fec_out].

Definition red_wire (r : res RtpPacketToSend) : list Z := match r with Ok r => wire (packet r) | Fault _ => [] end.

Definition fec_payloads (r : res (list (list RtpPacketToSend) * StreamRSfecGenerator.t)) : list (list Z * Z) :=
  match r with
  | Ok (outs, _) => map (fun r => (payload_bytes (packet r), RtpPacket.Ssrc (packet r))) (concat outs)
  | Fault _ => []
  end.

Lemma tiny_fec_datagram :
  let q := rtp_packet (datagram (H := zero_heap) no_extensions (fec_red 4 tiny_fec_out)) in
  sendable q /\ payload_bytes q = 101 :: tiny_fec_out /\ RtpPacket.Ssrc q = 1 /\ in_session 65534 (RtpPacket.SequenceNumber q).
Proof.
  intros q.
  assert (Hq : arrival_ok (datagram (H := zero_heap) no_extensions (fec_red 4 tiny_fec_out)))
    by (apply datagram_arrival; [apply RtpExtensions.new_ok|compute_bytes]).
  split; [split; [exact (proj1 Hq)|by vm_compute]|]. split; [vm_compute; reflexivity|]. split; [vm_compute; reflexivity|].
  replace (RtpPacket.SequenceNumber q) with (number 65534 4) by (vm_compute; reflexivity).
  apply number_session; [unfold in_uw; lia|lia].
Qed.


(** A block of one packet. *)
Definition last_packet : Packet := [128; 224; 0; 7; 0; 0; 0; 1; 0; 0; 0; 1; 5].
Definition block_packet : RtpPacketToSend :=
  mkToSend (rtp_packet (datagram (H := zero_heap) no_extensions last_packet)) (Micros 0) (Some kVideo) true false true false.
Definition block_generator : RSfecGenerator.t :=
  RSfecGenerator.SetProtectionParameters (RSfecGenerator.new 100 101 Rs.new_encoder)
    (mkFecProtectionParams 100 1 PacketMasks.kFecMaskRandom) (mkFecProtectionParams 100 1 PacketMasks.kFecMaskRandom).

Lemma block_packet_due : block_due 7 (Rs.mkParams Rs.RSFECBlock 0 0) block_generator block_packet [(0%nat, last_packet)] 0.
Proof.
  assert (Hb : bytes last_packet) by compute_bytes.
  assert (Hok : arrival_ok (datagram (H := zero_heap) no_extensions last_packet)) by (apply datagram_arrival; [apply RtpExtensions.new_ok|exact Hb]).
  assert (Hs : sendable (packet block_packet)) by (split; [exact (proj1 Hok)|by vm_compute]).
  split; try (vm_compute; reflexivity).
  - cbn. lia.
  - split; vm_compute; reflexivity.
  - split.
    + done.
    + apply Forall_cons_2; [|done]. split; [split; [split; [exact Hb|cbn; lia]|vm_compute; reflexivity]|cbn; lia].
    + by repeat constructor.
    + intros x y Hx%list_elem_of_singleton Hy%list_elem_of_singleton. subst. cbn. lia.
  - exists (copy block_packet). split; [reflexivity|]. by destruct (copy_sendable block_packet Hs).
  - vm_compute. done.
Qed.

Lemma rs_generator_block_witness :
  exists out g', push_block (HP := zero_heap) (G := gf256) (Rs.mkParams Rs.RSFECBlock 0 0) block_generator block_packet 3 = Ok (out, g') /\
    RSfecGenerator.media_packets_ g' = [] /\ block_protected 7 101 [(0%nat, last_packet)] 0 1 out.
Proof.
  destruct (rs_generator_block (HP := zero_heap) (G := gf256) 7 (Rs.mkParams Rs.RSFECBlock 0 0) block_generator block_packet 3 [(0%nat, last_packet)] 0
    block_packet_due) as (out & g' & E & H1 & _ & _ & H). rewrite decide_True in H by (cbn; lia).
  exists out, g'. split; [exact E|]. split; [exact H1|]. destruct H as [H _].
  assert (Hk : block_fecs block_generator block_packet [(0%nat, last_packet)] = 1%nat) by (vm_compute; reflexivity). by rewrite Hk in H.
Defined.
