(* ===== verification/TamburWire.v ===== *)
(** * TamburWire: the messages of the streaming code experiment

    [examples/customizationFEC/Tambur]: [src/util/serialization.{hh,cc}],
    [src/fec/fec_datagram.{hh,cc}], [src/fec/feedback_datagram.{hh,cc}] and
    [protocol.{hh,cc}].  A [std::string] is a list of bytes.  Numbers are
    serialized by copying the memory of the byte-swapped value, on a host that
    stores the least significant byte first; [htons] and [htonl] (and their
    inverses, which are the same functions) swap the bytes of 16 and 32 bits.  The
    [assert]s of the parser, which a release build leaves out, guard reads past
    the end of the string: those are the fault [OutOfBounds]. *)

From S2P Require Import Prelude.

(** ** Numbers *)

(** The memory of an unsigned number of [n] bytes, and the number in memory. *)
Fixpoint store (n : nat) (v : Z) : list Z :=
  match n with O => [] | S n => u8 v :: store n (Z.shiftr v 8) end.

Fixpoint load (d : list Z) : Z :=
  match d with [] => 0 | b :: d => Z.lor b (Z.shiftl (load d) 8) end.

Definition htons (v : Z) : Z := load (reverse (store 2 v)).
Definition htonl (v : Z) : Z := load (reverse (store 4 v)).

Module Serialization.

(** [hton] and [ntoh], by the size of the type in bytes. *)
Definition hton (n : nat) (host : Z) : Z :=
  match n with
  | 2%nat => htons host
  | 4%nat => htonl host
  | 8%nat => Z.lor (u64 (Z.shiftl (htonl (Z.land host 0xFFFFFFFF)) 32)) (htonl (u32 (Z.shiftr host 32)))
  | _ => host
  end.

Definition ntoh (n : nat) (net : Z) : Z :=
  match n with
  | 2%nat => htons net
  | 4%nat => htonl net
  | 8%nat => Z.lor (u64 (Z.shiftl (htonl (Z.land net 0xFFFFFFFF)) 32)) (htonl (u32 (Z.shiftr net 32)))
  | _ => net
  end.

Definition put_number (n : nat) (host : Z) : list Z := store n (hton n host).

Definition get_number (n : nat) (net : list Z) : res Z :=
  if decide (n <= length net)%nat then Ok (ntoh n (load (take n net))) else Fault OutOfBounds.

(** [get_bits<uint16_t>], bits counted from the most significant one. *)
Definition get_bits16 (number bit_offset bit_len : Z) : Z :=
  Z.land (Z.shiftr number (16 - bit_offset - bit_len)) (Z.shiftl 1 bit_len - 1).

(** [WireParser]: the state is the rest of the string. *)
Definition read (n : nat) (str : list Z) : res (Z * list Z) :=
  if decide (n <= length str)%nat then Ok (ntoh n (load (take n str)), drop n str) else Fault OutOfBounds.

Definition read_string (len : nat) (str : list Z) : res (list Z * list Z) :=
  if decide (len <= length str)%nat then Ok (take len str, drop len str) else Fault OutOfBounds.

Definition skip (len : nat) (str : list Z) : res (list Z) :=
  if decide (len <= length str)%nat then Ok (drop len str) else Fault OutOfBounds.

End Serialization.
Import Serialization.

(** ** The datagrams of the code *)

Module FECDatagram.

Record t : Type := mk {
  seq_num : Z;
  is_parity : bool;
  frame_num : Z;
  sizes_of_frames_encoding : Z;
  pos_in_frame : Z;
  stripe_pos_in_frame : Z;
  payload : list Z
}.

Definition VIDEO_FRAME_INFO_SIZE : nat := 4 + 2 * 1.
Definition HEADER_SIZE : nat := 2 * 2 + 8 + 1 + 4.

(** [parse_from_string]; [None] is [return false].  Without [get_payload] the payload
    stays what it was. *)
Definition parse_from_string (this : t) (binary : list Z) (get_payload : bool) : res (option t) :=
  if decide (length binary < HEADER_SIZE)%nat then Ok None else
  let! (seq_num, parser) := read 4 binary in
  let! (temp, parser) := read 2 parser in
  let is_parity := negb (get_bits16 temp 0 1 =? 0) in
  let frame_num := get_bits16 temp 1 15 in
  let! (sizes, parser) := read 8 parser in
  let! (pos, parser) := read 2 parser in
  let! (stripe_pos, parser) := read 2 parser in
  let! payload := if get_payload then let! r := read_string (length parser) parser in Ok r.1
                  else Ok (payload this) in
  Ok (Some (mk seq_num is_parity frame_num sizes pos stripe_pos payload)).

Definition parse_header_from_string (this : t) (binary : list Z) : res (option t) :=
  parse_from_string this binary false.

Definition serialize_to_string (d : t) : list Z :=
  let temp := u16 (u16 (Z.shiftl (Z.b2z (is_parity d)) 15) + frame_num d) in
  put_number 4 (seq_num d) ++ put_number 2 temp ++ put_number 8 (sizes_of_frames_encoding d) ++
  put_number 2 (pos_in_frame d) ++ put_number 2 (stripe_pos_in_frame d) ++ payload d.

End FECDatagram.

Module FeedbackDatagram.

Record t : Type := mk { qr : Z }.

Definition FEEDBACK_SIZE : nat := 1.

Definition parse_from_string (binary : list Z) : res (option t) :=
  if decide (length binary < FEEDBACK_SIZE)%nat then Ok None else
  let! (qr, parser) := read 1 binary in Ok (Some (mk qr)).

Definition serialize_to_string (d : t) : list Z := put_number 1 (qr d).

End FeedbackDatagram.

(** ** The datagrams and messages of the transport *)

Module Datagram.

(** [frame_type] is the byte of the enumeration; what is parsed may be none of its values.  The
    members for retransmission, which are not serialized, are left out. *)
Record t : Type := mk {
  frame_id : Z;
  frame_type : Z;
  frag_id : Z;
  frag_cnt : Z;
  send_ts : Z;
  payload : list Z
}.

Definition HEADER_SIZE : nat := 4 + 1 + 2 * 2 + 8.

(** [set_mtu]: the new [max_payload]; the [assert] bounds [mtu]. *)
Definition set_mtu (mtu : nat) : nat := mtu - 28 - HEADER_SIZE.

Definition parse_from_string (binary : list Z) : res (option t) :=
  if decide (length binary < HEADER_SIZE)%nat then Ok None else
  let! (frame_id, parser) := read 4 binary in
  let! (frame_type, parser) := read 1 parser in
  let! (frag_id, parser) := read 2 parser in
  let! (frag_cnt, parser) := read 2 parser in
  let! (send_ts, parser) := read 8 parser in
  let! (payload, parser) := read_string (length parser) parser in
  Ok (Some (mk frame_id frame_type frag_id frag_cnt send_ts payload)).

Definition serialize_to_string (d : t) : list Z :=
  put_number 4 (frame_id d) ++ put_number 1 (frame_type d) ++ put_number 2 (frag_id d) ++
  put_number 2 (frag_cnt d) ++ put_number 8 (send_ts d) ++ payload d.

End Datagram.

Module Msg.

(** [Msg] and its subclasses. *)
Inductive t : Type :=
| BaseMsg
| AckMsg (frame_id frag_id send_ts : Z)
| ConfigMsg (width height frame_rate target_bitrate : Z)
| FECMsg (info : Z)
| FRAMEMsg (frame_id : Z).

(** [Msg::Type]. *)
Definition type (m : t) : Z :=
  match m with BaseMsg => 0 | AckMsg _ _ _ => 1 | ConfigMsg _ _ _ _ => 2 | FECMsg _ => 3 | FRAMEMsg _ => 4 end.

Definition serialized_size (m : t) : nat :=
  match m with
  | BaseMsg => 1
  | AckMsg _ _ _ => 1 + 2 + 4 + 8
  | ConfigMsg _ _ _ _ => 1 + 3 * 2 + 4
  | FECMsg _ => 1 + 1
  | FRAMEMsg _ => 1 + 4
  end.

Definition serialize_to_string (m : t) : list Z :=
  put_number 1 (type m) ++
  match m with
  | BaseMsg => []
  | AckMsg frame_id frag_id send_ts => put_number 4 frame_id ++ put_number 2 frag_id ++ put_number 8 send_ts
  | ConfigMsg width height frame_rate target_bitrate =>
      put_number 2 width ++ put_number 2 height ++ put_number 2 frame_rate ++ put_number 4 target_bitrate
  | FECMsg info => put_number 1 info
  | FRAMEMsg frame_id => put_number 4 frame_id
  end.

(** [Msg::parse_from_string]; [None] is [nullptr]. *)
Definition parse_from_string (binary : list Z) : res (option t) :=
  if decide (length binary < 1)%nat then Ok None else
  let! (type, parser) := read 1 binary in
  if type =? 1 then
    let! (frame_id, parser) := read 4 parser in
    let! (frag_id, parser) := read 2 parser in
    let! (send_ts, parser) := read 8 parser in
    Ok (Some (AckMsg frame_id frag_id send_ts))
  else if type =? 2 then
    let! (width, parser) := read 2 parser in
    let! (height, parser) := read 2 parser in
    let! (frame_rate, parser) := read 2 parser in
    let! (target_bitrate, parser) := read 4 parser in
    Ok (Some (ConfigMsg width height frame_rate target_bitrate))
  else if type =? 3 then
    let! (info, parser) := read 1 parser in Ok (Some (FECMsg info))
  else if type =? 4 then
    let! (frame_id, parser) := read 4 parser in Ok (Some (FRAMEMsg frame_id))
  else Ok None.

(** The messages made of a datagram. *)
Definition ack_of (datagram : Datagram.t) : t :=
  AckMsg (Datagram.frame_id datagram) (Datagram.frag_id datagram) (Datagram.send_ts datagram).

Definition fec_of (datagram : FeedbackDatagram.t) : t := FECMsg (FeedbackDatagram.qr datagram).

End Msg.

(** ** Byte order *)

Lemma store_length n v : length (store n v) = n.
Proof. revert v. induction n as [|n IH]; intros v; [done|]. cbn. by rewrite IH. Qed.

Lemma store_bytes n v : bytes (store n v).
Proof. revert v. induction n as [|n IH]; intros v; constructor; [by apply uw_range|apply IH]. Qed.

Lemma store_bits n v v' :
  (forall i, 0 <= i < 8 * Z.of_nat n -> Z.testbit v i = Z.testbit v' i) -> store n v = store n v'.
Proof.
  revert v v'. induction n as [|n IH]; intros v v' Hb; [done|]. cbn [store]. f_equal.
  - apply (uw_eq_bits 8); [lia|by apply uw_range|by apply uw_range|].
    intros i Hi. rewrite !uw_testbit by lia. by rewrite Hb by lia.
  - apply IH. intros i Hi. rewrite !Z.shiftr_spec by lia. apply Hb. lia.
Qed.

Lemma store_app n m v : store (n + m) v = store n v ++ store m (Z.shiftr v (8 * Z.of_nat n)).
Proof.
  revert v. induction n as [|n IH]; intros v; cbn [store app Nat.add]; [by rewrite Z.shiftr_0_r|].
  rewrite IH, Z.shiftr_shiftr by lia. by replace (8 + 8 * Z.of_nat n) with (8 * Z.of_nat (S n)) by lia.
Qed.

Lemma load_range d : bytes d -> in_uw (8 * Z.of_nat (length d)) (load d).
Proof.
  induction 1 as [|b d Hb Hd IH]; [done|]. cbn [load length]. apply in_uw_bits; [lia|]. intros i Hi.
  rewrite Z.lor_spec, Z.shiftl_spec by lia. rewrite (in_uw_testbit 8 b) by (done || lia).
  cbn. apply (in_uw_testbit (8 * Z.of_nat (length d))); [done|lia].
Qed.

Lemma store_load d : bytes d -> store (length d) (load d) = d.
Proof.
  induction 1 as [|b d Hb Hd IH]; [done|]. cbn [load length store]. f_equal.
  - rewrite <- (uw_small 8 b) at 2 by done. apply (uw_eq_bits 8); [lia|by apply uw_range|by apply uw_range|].
    intros i Hi. rewrite !uw_testbit by lia. by rewrite Z.lor_spec, Z.shiftl_spec_low, orb_false_r by lia.
  - transitivity (store (length d) (load d)); [|exact IH]. apply store_bits. intros i Hi.
    rewrite Z.shiftr_spec, Z.lor_spec, Z.shiftl_spec by lia. rewrite (in_uw_testbit 8 b) by (done || lia).
    cbn. f_equal. lia.
Qed.

Lemma load_store n v : load (store n v) = uw (8 * Z.of_nat n) v.
Proof.
  revert v. induction n as [|n IH]; intros v; cbn [load store].
  { unfold uw. by rewrite Z.mod_1_r. }
  rewrite IH. apply Z.bits_inj'. intros i Hi. rewrite Z.lor_spec, uw_testbit by lia.
  destruct (decide (i < 8)).
  - rewrite Z.shiftl_spec_low, orb_false_r, uw_testbit by lia. by rewrite !bool_decide_true by lia.
  - rewrite Z.shiftl_spec, uw_testbit, bool_decide_false, uw_testbit, Z.shiftr_spec by lia. cbn [andb orb].
    replace (i - 8 + 8) with i by lia. f_equal. apply bool_decide_ext. lia.
Qed.

(** The sizes of the types that are serialized. *)
Definition word_size (n : nat) : Prop := (n = 1 \/ n = 2 \/ n = 4 \/ n = 8)%nat.

(** A word, most significant byte first. *)
Lemma store_swapped n v : store n (load (reverse (store n v))) = reverse (store n v).
Proof.
  pose proof (store_load (reverse (store n v)) ltac:(apply Forall_reverse, store_bytes)) as E.
  by rewrite length_reverse, store_length in E.
Qed.

Lemma htonl_range v : in_uw 32 (htonl v).
Proof.
  pose proof (load_range (reverse (store 4 v)) ltac:(apply Forall_reverse, store_bytes)) as Hr.
  by rewrite length_reverse, store_length in Hr.
Qed.

Lemma store_join a b : in_uw 32 b -> store 8 (Z.lor (u64 (Z.shiftl a 32)) b) = store 4 b ++ store 4 a.
Proof.
  intros Hb. rewrite (store_app 4 4). f_equal; apply store_bits; intros i Hi.
  - by rewrite Z.lor_spec, uw_testbit, Z.shiftl_spec_low, andb_false_r by lia.
  - rewrite Z.shiftr_spec, Z.lor_spec, uw_testbit, Z.shiftl_spec by lia.
    rewrite (in_uw_testbit 32 b), orb_false_r, bool_decide_true by (done || lia). cbn [andb]. f_equal. lia.
Qed.

Lemma store_hton n v : word_size n -> store n (hton n v) = reverse (store n v).
Proof.
  intros [-> | [-> | [-> | ->]]]; [done|apply store_swapped|apply store_swapped|]. unfold hton.
  rewrite store_join by apply htonl_range. unfold htonl. rewrite !store_swapped, <- reverse_app. f_equal.
  rewrite (store_app 4 4). f_equal; apply store_bits; intros i Hi.
  - change 0xFFFFFFFF with (Z.ones 32). by rewrite Z.land_ones, Z.mod_pow2_bits_low by lia.
  - rewrite uw_testbit by lia. by rewrite bool_decide_true by lia.
Qed.

Lemma hton_range n v : word_size n -> in_uw (8 * Z.of_nat n) v -> in_uw (8 * Z.of_nat n) (hton n v).
Proof.
  assert (Hl : forall k, in_uw (8 * Z.of_nat k) (load (reverse (store k v)))).
  { intros k. pose proof (load_range (reverse (store k v)) ltac:(apply Forall_reverse, store_bytes)) as Hr.
    by rewrite length_reverse, store_length in Hr. }
  intros [-> | [-> | [-> | ->]]] Hv; [done|apply Hl|apply Hl|]. apply lor_in_uw; [lia|by apply uw_range|].
  pose proof (htonl_range (u32 (Z.shiftr v 32))) as [H1 H2]. split; [done|]. etransitivity; [exact H2|done].
Qed.

Lemma ntoh_hton n v : ntoh n v = hton n v.
Proof. done. Qed.

(** The number that [n] bytes of the string stand for. *)
Lemma ntoh_load n d : word_size n -> length d = n -> bytes d -> ntoh n (load d) = load (reverse d).
Proof.
  intros Hn Hl Hb. rewrite ntoh_hton, <- (uw_small (8 * Z.of_nat n) (hton n (load d))).
  - rewrite <- load_store, store_hton by done. rewrite <- Hl at 1. by rewrite store_load.
  - apply hton_range; [done|]. rewrite <- Hl. by apply load_range.
Qed.

Lemma put_number_length n v : length (put_number n v) = n.
Proof. apply store_length. Qed.

Lemma put_number_bytes n v : bytes (put_number n v).
Proof. apply store_bytes. Qed.

(** A number is read back, whatever follows. *)
Lemma read_put n v rest :
  word_size n -> in_uw (8 * Z.of_nat n) v -> read n (put_number n v ++ rest) = Ok (v, rest).
Proof.
  intros Hn Hv. unfold read. rewrite decide_True by (rewrite length_app, put_number_length; lia).
  rewrite take_app_length', drop_app_length' by (by rewrite put_number_length).
  rewrite ntoh_load by (done || apply put_number_length || apply put_number_bytes).
  unfold put_number. rewrite store_hton, reverse_involutive, load_store by done. by rewrite uw_small.
Qed.

(** What is read, written again. *)
Lemma put_read n d :
  word_size n -> bytes d -> (n <= length d)%nat ->
  exists v rest, read n d = Ok (v, rest) /\ d = put_number n v ++ rest /\ in_uw (8 * Z.of_nat n) v /\ bytes rest.
Proof.
  intros Hn Hb Hl. unfold read. rewrite decide_True by done. do 2 eexists. split; [done|].
  rewrite <- (take_drop n d) in Hb. apply Forall_app in Hb as [Hb1 Hb2].
  assert (Hlen : length (take n d) = n) by (rewrite length_take; lia).
  rewrite ntoh_load by done. unfold put_number. rewrite store_hton by done.
  pose proof (load_range (reverse (take n d)) ltac:(by apply Forall_reverse)) as Hr.
  pose proof (store_load (reverse (take n d)) ltac:(by apply Forall_reverse)) as Es.
  rewrite length_reverse, Hlen in Hr, Es. split_and!; [|done|done]. by rewrite Es, reverse_involutive, take_drop.
Qed.

(** ** The messages, both ways *)

Lemma read_put_end n v : word_size n -> in_uw (8 * Z.of_nat n) v -> read n (put_number n v) = Ok (v, []).
Proof. intros. rewrite <- (app_nil_r (put_number n v)). by apply read_put. Qed.

#[local] Hint Unfold word_size : core.

(** Reads one number after the other from a serialized string. *)
Ltac read_puts :=
  rewrite <- ?app_assoc;
  repeat (first [rewrite read_put by (by auto) | rewrite read_put_end by (by auto)]; cbn [mbind res_bind]).

(** The number of [n] bytes in front of the string [d]. *)
Ltac next_number n d v r E Hl :=
  lazymatch goal with Hb : bytes d |- _ =>
    let H := fresh "Hv" in let Hb' := fresh "Hb" in
    destruct (put_read n d ltac:(auto) Hb ltac:(lia)) as (v & r & E & -> & H & Hb'); clear Hb;
    rewrite length_app, put_number_length in Hl
  end.

(** The flag and the frame number, in one field. *)
Definition flags (b : bool) (frame : Z) : Z := u16 (u16 (Z.shiftl (Z.b2z b) 15) + frame).

Ltac halves := change (2 ^ 15) with 32768 in *; change (2 ^ 16) with 65536 in *; Z.div_mod_to_equations; lia.

Lemma flags_value b frame : 0 <= frame < 2 ^ 15 -> flags b frame = Z.b2z b * 2 ^ 15 + frame /\ is_u16 (flags b frame).
Proof. intros Hf. split; [|by apply uw_range]. unfold flags. destruct b;
    [change (u16 (Z.shiftl (Z.b2z true) 15)) with 32768|change (u16 (Z.shiftl (Z.b2z false) 15)) with 0];
    unfold uw; cbn [Z.b2z]; halves. Qed.

Lemma flags_split v : is_u16 v -> get_bits16 v 0 1 = v / 2 ^ 15 /\ get_bits16 v 1 15 = v mod 2 ^ 15.
Proof.
  intros Hv. unfold get_bits16. change (Z.shiftl 1 1 - 1) with (Z.ones 1). change (Z.shiftl 1 15 - 1) with (Z.ones 15).
  change (16 - 0 - 1) with 15. change (16 - 1 - 15) with 0.
  rewrite !Z.land_ones, Z.shiftr_0_r, Z.shiftr_div_pow2 by lia. unfold in_uw in Hv.
  split; [|done]. apply Z.mod_small. change (2 ^ 1) with 2. halves.
Qed.

Lemma flags_parse b frame :
  0 <= frame < 2 ^ 15 -> negb (get_bits16 (flags b frame) 0 1 =? 0) = b /\ get_bits16 (flags b frame) 1 15 = frame.
Proof.
  intros Hf. destruct (flags_value b frame Hf) as [E Hu]. destruct (flags_split _ Hu) as [-> ->]. rewrite E.
  split; [|destruct b; cbn [Z.b2z]; halves].
  destruct b; cbn [Z.b2z]; case (Z.eqb_spec _ 0); cbn [negb]; try done; intros; exfalso; halves.
Qed.

Lemma flags_parsed v : is_u16 v -> flags (negb (get_bits16 v 0 1 =? 0)) (get_bits16 v 1 15) = v.
Proof.
  intros Hv. destruct (flags_split v Hv) as [-> ->].
  destruct (flags_value (negb (v / 2 ^ 15 =? 0)) (v mod 2 ^ 15) ltac:(halves)) as [-> _]. unfold in_uw in Hv.
  case (Z.eqb_spec (v / 2 ^ 15) 0); cbn [negb Z.b2z]; intros; halves.
Qed.

(** Fields that fit their types; the frame number has 15 bits on the wire. *)
Record fec_ok (d : FECDatagram.t) : Prop := {
  fo_seq : is_u32 (FECDatagram.seq_num d);
  fo_frame : 0 <= FECDatagram.frame_num d < 2 ^ 15;
  fo_sizes : in_uw 64 (FECDatagram.sizes_of_frames_encoding d);
  fo_pos : is_u16 (FECDatagram.pos_in_frame d);
  fo_stripe : is_u16 (FECDatagram.stripe_pos_in_frame d)
}.

Lemma fec_parse_serialized this d get_payload :
  fec_ok d -> FECDatagram.parse_from_string this (FECDatagram.serialize_to_string d) get_payload =
    Ok (Some (FECDatagram.mk (FECDatagram.seq_num d) (FECDatagram.is_parity d) (FECDatagram.frame_num d)
      (FECDatagram.sizes_of_frames_encoding d) (FECDatagram.pos_in_frame d) (FECDatagram.stripe_pos_in_frame d)
      (FECDatagram.payload (if get_payload then d else this)))).
Proof.
  intros [H1 H2 H3 H4 H5]. unfold FECDatagram.parse_from_string, FECDatagram.serialize_to_string. fold (flags (FECDatagram.is_parity d) (FECDatagram.frame_num d)).
  rewrite decide_False by (rewrite !length_app, !put_number_length; unfold FECDatagram.HEADER_SIZE; lia).
  destruct (flags_value (FECDatagram.is_parity d) _ H2) as [_ Hu]. destruct (flags_parse (FECDatagram.is_parity d) _ H2) as [E1 E2].
  read_puts. rewrite E1, E2. destruct get_payload; [|done].
  unfold read_string. by rewrite decide_True, take_ge by done.
Qed.

Lemma fec_serialize_parsed this binary :
  bytes binary -> (18 <= length binary)%nat ->
  exists d, FECDatagram.parse_from_string this binary true = Ok (Some d) /\ fec_ok d /\
    FECDatagram.serialize_to_string d = binary.
Proof.
  intros Hb Hl.
  next_number 4%nat binary v1 r1 E1 Hl. next_number 2%nat r1 v2 r2 E2 Hl. next_number 8%nat r2 v3 r3 E3 Hl.
  next_number 2%nat r3 v4 r4 E4 Hl. next_number 2%nat r4 v5 r5 E5 Hl.
  set (d := FECDatagram.mk v1 (negb (get_bits16 v2 0 1 =? 0)) (get_bits16 v2 1 15) v3 v4 v5 r5).
  assert (Hd : fec_ok d).
  { split; try done. cbn. destruct (flags_split v2 ltac:(done)) as [_ ->]. halves. }
  assert (Es : FECDatagram.serialize_to_string d =
    put_number 4 v1 ++ put_number 2 v2 ++ put_number 8 v3 ++ put_number 2 v4 ++ put_number 2 v5 ++ r5).
  { unfold FECDatagram.serialize_to_string. cbn [d FECDatagram.seq_num FECDatagram.is_parity FECDatagram.frame_num
      FECDatagram.sizes_of_frames_encoding FECDatagram.pos_in_frame FECDatagram.stripe_pos_in_frame FECDatagram.payload].
    fold (flags (negb (get_bits16 v2 0 1 =? 0)) (get_bits16 v2 1 15)). by rewrite flags_parsed. }
  exists d. rewrite <- Es. split_and!; [|done|done]. by rewrite fec_parse_serialized.
Qed.

(** A string that is one byte longer than the size tested, and one byte shorter than the header. *)
Lemma fec_parse_short this binary get_payload :
  bytes binary -> length binary = 17%nat -> FECDatagram.parse_from_string this binary get_payload = Fault OutOfBounds.
Proof.
  intros Hb Hl. unfold FECDatagram.parse_from_string. rewrite decide_False by (unfold FECDatagram.HEADER_SIZE; lia).
  next_number 4%nat binary v1 r1 E1 Hl. next_number 2%nat r1 v2 r2 E2 Hl. next_number 8%nat r2 v3 r3 E3 Hl.
  next_number 2%nat r3 v4 r4 E4 Hl. read_puts.
  unfold read. by rewrite decide_False by lia.
Qed.

(** ** The transport *)

Definition datagram_ok (d : Datagram.t) : Prop :=
  is_u32 (Datagram.frame_id d) /\ is_byte (Datagram.frame_type d) /\ is_u16 (Datagram.frag_id d) /\
  is_u16 (Datagram.frag_cnt d) /\ in_uw 64 (Datagram.send_ts d).

Lemma datagram_roundtrip d :
  datagram_ok d -> Datagram.parse_from_string (Datagram.serialize_to_string d) = Ok (Some d).
Proof.
  intros (H1 & H2 & H3 & H4 & H5). unfold Datagram.parse_from_string, Datagram.serialize_to_string.
  rewrite decide_False by (rewrite !length_app, !put_number_length; unfold Datagram.HEADER_SIZE; lia).
  read_puts. unfold read_string. rewrite decide_True, take_ge by done. by destruct d.
Qed.

(** The header test of [Datagram], unlike that of [FECDatagram], has the size of the header. *)
Lemma datagram_total binary :
  bytes binary -> exists r, Datagram.parse_from_string binary = Ok r /\
    (r = None <-> (length binary < Datagram.HEADER_SIZE)%nat) /\
    forall d, r = Some d -> datagram_ok d /\ Datagram.serialize_to_string d = binary.
Proof.
  intros Hb. unfold Datagram.parse_from_string. case_decide as Hl; [eexists; split; [done|]; by split_and!|].
  unfold Datagram.HEADER_SIZE in *. apply Nat.nlt_ge in Hl.
  next_number 4%nat binary v1 r1 E1 Hl. next_number 1%nat r1 v2 r2 E2 Hl. next_number 2%nat r2 v3 r3 E3 Hl.
  next_number 2%nat r3 v4 r4 E4 Hl. next_number 8%nat r4 v5 r5 E5 Hl. read_puts.
  unfold read_string. rewrite decide_True, take_ge by done. eexists. split; [done|]. split.
  - rewrite !length_app, !put_number_length. split; [done|lia].
  - by intros d [= <-].
Qed.

Definition msg_ok (m : Msg.t) : Prop :=
  match m with
  | Msg.BaseMsg => False
  | Msg.AckMsg frame_id frag_id send_ts => is_u32 frame_id /\ is_u16 frag_id /\ in_uw 64 send_ts
  | Msg.ConfigMsg width height frame_rate target_bitrate =>
      is_u16 width /\ is_u16 height /\ is_u16 frame_rate /\ is_u32 target_bitrate
  | Msg.FECMsg info => is_byte info
  | Msg.FRAMEMsg frame_id => is_u32 frame_id
  end.

Lemma msg_roundtrip m :
  msg_ok m -> Msg.parse_from_string (Msg.serialize_to_string m) = Ok (Some m) /\
    length (Msg.serialize_to_string m) = Msg.serialized_size m.
Proof.
  intros Hm. split; [|unfold Msg.serialize_to_string; destruct m; rewrite !length_app, ?put_number_length; done].
  unfold Msg.parse_from_string.
  rewrite decide_False by (unfold Msg.serialize_to_string; rewrite length_app, put_number_length; lia).
  assert (Ht : is_byte (Msg.type m)) by (destruct m; unfold in_uw; cbn; lia).
  unfold Msg.serialize_to_string. rewrite read_put by (by auto). cbn [mbind res_bind].
  destruct m; cbn [Msg.type Z.eqb Pos.eqb msg_ok] in *; destruct_and?; read_puts; done.
Qed.

(** [Msg::parse_from_string] tests for the byte of the type only: a message that ends inside its
    fields is read past its end. *)
Lemma msg_truncated t rest :
  t = 1 /\ (length rest < 14)%nat \/ t = 2 /\ (length rest < 10)%nat \/ t = 3 /\ (length rest < 1)%nat \/
  t = 4 /\ (length rest < 4)%nat ->
  Msg.parse_from_string (t :: rest) = Fault OutOfBounds.
Proof.
  intros Ht. unfold Msg.parse_from_string, read. rewrite !decide_False by (cbn [length]; lia).
  rewrite decide_True by (cbn [length]; lia). cbn [take drop load mbind res_bind]. unfold ntoh. rewrite Z.lor_0_r.
  destruct Ht as [[-> Hl]|[[-> Hl]|[[-> Hl]|[-> Hl]]]]; cbn [Z.eqb Pos.eqb];
    repeat (case_decide; [|done]; cbn [mbind res_bind]); rewrite ?length_drop in *; lia.
Qed.

(** ** The datagram of the code *)

(** C32. [FECDatagram] on every string.  What is serialized is parsed again field
    by field, and takes 18 bytes in front of the payload.  Of an arbitrary string,
    fewer than 17 bytes are refused; 18 bytes or more are accepted, and give the
    string again when serialized; but a string of exactly 17 bytes passes the
    test, because [HEADER_SIZE] counts one byte for the two bytes of the parity
    flag and the frame number, and the last field is read past its end. *)
Theorem fec_datagram_exact this :
  (forall d, fec_ok d ->
     FECDatagram.parse_from_string this (FECDatagram.serialize_to_string d) true = Ok (Some d) /\
     length (FECDatagram.serialize_to_string d) = (FECDatagram.HEADER_SIZE + 1 + length (FECDatagram.payload d))%nat) /\
  (forall binary, bytes binary ->
     ((length binary < 17)%nat -> FECDatagram.parse_from_string this binary true = Ok None) /\
     (length binary = 17%nat -> FECDatagram.parse_from_string this binary true = Fault OutOfBounds) /\
     ((18 <= length binary)%nat -> exists d,
        FECDatagram.parse_from_string this binary true = Ok (Some d) /\ fec_ok d /\
        FECDatagram.serialize_to_string d = binary)).
Proof.
  split.
  - intros d Hd. split; [rewrite fec_parse_serialized by done; by destruct d|].
    unfold FECDatagram.serialize_to_string. rewrite !length_app, !put_number_length. unfold FECDatagram.HEADER_SIZE. lia.
  - intros binary Hb. split_and!.
    + intros Hl. unfold FECDatagram.parse_from_string. by rewrite decide_True.
    + by apply fec_parse_short.
    + by apply fec_serialize_parsed.
Qed.

(** A parity packet of frame 5, and a string that is a byte too short. *)
Definition parity_datagram : FECDatagram.t := FECDatagram.mk 7 true 5 1000 2 3 [10; 20; 30].

Lemma fec_datagram_exact_witness :
  FECDatagram.serialize_to_string parity_datagram =
    [0; 0; 0; 7; 0x80; 5; 0; 0; 0; 0; 0; 0; 3; 0xe8; 0; 2; 0; 3; 10; 20; 30] /\
  FECDatagram.parse_from_string parity_datagram (FECDatagram.serialize_to_string parity_datagram) true =
    Ok (Some parity_datagram) /\
  FECDatagram.parse_from_string parity_datagram (replicate 17 0) true = Fault OutOfBounds.
Proof.
  destruct (fec_datagram_exact parity_datagram) as [H1 H2]. split; [by vm_compute|]. split.
  - apply H1. split; unfold in_uw; cbn; lia.
  - apply H2; [compute_bytes|done].
Defined.
